(* ===== verification/_CoqProject ===== *)
-Q . S2P
Prelude.v
Numbers.v
Base64.v
Utf8.v
Escape.v
Scan.v
Http.v
RequestLine.v
HeaderLine.v
StatusLine.v
Chunked.v
ChunkedGrammar.v
ComplexUri.v
Bits.v
HuffTable.v
Huffman.v
HpackTable.v
Hpack.v
Radix.v
RoundRobin.v
Printf.v
Times.v
Queue.v
Rbtree.v
Timer.v
Crc32.v
LimitReq.v
LimitRate.v
LimitHandler.v
Uri.v
V2Request.v
HeaderBlock.v
V2Filter.v
