(* ===== verification/Prelude.v ===== *)
(** * A model of nginx in Rocq

    The repository keeps a copy of nginx 1.23.3 under
    src/sysadmin/nginx/nginx-1.23.3; beside it are set-up scripts, configuration
    and notes, which hold no program logic.  This development models those parts
    of nginx that decide what a byte sequence means or where a value is kept: the
    parsers and filters of HTTP/1, the string functions they use, the header
    compression of HTTP/2, the data structures, the timers, load balancing and rate
    limits.  Paths below are relative to
    the directory src of nginx.

    ** Conventions

    - A byte is a [Z] from 0 to 255 ([is_u8]), a string a [list Z].  Machine
      integers are [Z]; where the code can wrap around, or is proved not to, the
      wrap is written out ([u8], [u32], [u64], [i64]; pointers and [ngx_int_t] have
      64 bits).  Sizes and positions of things in memory are [nat].
    - A pointer into a buffer is its position in the list that is the memory.  A
      pointer to a node or an object is its number in a store.
    - [None] at the outside of a result is undefined behaviour: a read or a write
      out of bounds, a null pointer, or fuel that ran out.  The theorems show that
      it does not happen, so a theorem that gives a result is also one of memory
      safety and termination.  Error codes are values like any other.
    - A loop is a [Fixpoint] on the list it consumes, or on fuel that the function
      around it supplies: the length of the input, the number of digits of a word,
      the number of bits of a key.  The theorems about the function show that the
      fuel is enough.
    - A C [switch] over states is one definition for each [case], joined by [step].
    - Allocation is taken to succeed, but for the zones of shared memory (LimitReq), and log
      messages are left out.

    ** The parts

    - Numbers, Base64, Utf8, Escape: core/ngx_string.c.  Numbers in decimal, fixed
      point and hexadecimal in both directions, base64, UTF-8, the escaping of
      URIs, HTML and JSON.  Each pair of directions has a round trip; the decoders
      are compared with a definition of the format, and the lengths the callers
      allocate are shown to be enough.
    - Scan: the loop [for (p = b->pos; p < b->last; p++) switch (state)] that the
      incremental parsers of http/ngx_http_parse.c share, with its end by [goto] or
      [return].  The class [IncrementalParser] states what is saved between two
      calls; [run_parser_resume] shows once and for all that the cuts between
      buffers do not matter.
    - Http: what the parsers share: the table of usual characters, the comparison
      macros in both their versions (class [StrCmp]), the codes.
    - RequestLine, HeaderLine, StatusLine: the three line parsers of
      http/ngx_http_parse.c, every state.  For each: that it may be resumed; that
      it stays in its buffers on any bytes; and what an accepted line looks like.
    - Chunked: [ngx_http_parse_chunked], the request body filter and the discarding
      of bodies of http/ngx_http_request_body.c, which call it, and the response
      filter of http/modules/ngx_http_chunked_filter_module.c.  The filters are
      related to [decode], the parser's states one byte at a time, in spite of their
      skips over data and the moves of small chunks within the buffer; what the
      response filter writes decodes to what it was given.
    - ChunkedGrammar: a grammar of the chunked coding ([chunked_body]) that knows
      nothing of the parser: the parser accepts exactly the bodies of the grammar,
      and the request body filter passes on the data the grammar gives them.
    - ComplexUri: [ngx_http_parse_complex_uri], against percent-decoding followed by
      a walk over the segments with a stack.
    - Uri: [ngx_http_parse_uri], and [ngx_http_process_request_uri] of
      http/ngx_http_request.c: the parts of a URI are those of its normal form, also
      where the code takes the short cut.
    - Bits: strings of bits.
    - HuffTable, Huffman: http/ngx_http_huff_encode.c and ngx_http_huff_decode.c.
      The decoder's table of 256 states is checked against the tree of the code by
      evaluation; from that the decoder is exact, and the encoder is its inverse.
    - HpackTable: http/v2/ngx_http_v2_table.c: the ring of bytes, the ring of
      pointers and the entries that are used again refine a list of header fields.
    - Hpack: the integers and strings of http/v2/ngx_http_v2_encode.c and
      [ngx_http_v2_parse_int].
    - V2Request: what http/v2/ngx_http_v2.c does with the header fields of a request,
      validation, pseudo-headers, cookies and the request line: an accepted request is
      what its fields say.
    - HeaderBlock: the states of http/v2/ngx_http_v2.c that read a header block, with
      the CONTINUATION frames and the loop of [ngx_http_v2_read_handler].  The
      specification [decode_block] is about the block in one piece; an invariant
      ([pending]) relates each state that may wait for more to what is left of the
      block, and a measure bounds the calls of the loop.
    - V2Filter: [ngx_http_v2_header_filter] of http/v2/ngx_http_v2_filter_module.c, which
      writes the header of a response as a header block.  The specification is what a
      client reads by the rules of header compression ([client_block]); each step of the
      writing adds its fields within the bytes that were counted for it ([adds]), and the
      frames the block is cut into are those that HeaderBlock accepts ([framed]).
    - Radix: core/ngx_radix_tree.c: nodes in a store with a free list refine a map
      from prefixes to values, and the search finds the longest prefix.
    - Rbtree: core/ngx_rbtree.c: the tree in memory, with its sentinel and its parent
      pointers, refines a list of nodes sorted by key and stays balanced.  A tree is a
      path and a subtree ([plug]); each rotation and each painting is one lemma about
      the memory, and the loops are proved on paths.
    - Timer: event/ngx_event_timer.c and ngx_event_timer.h over Rbtree, through the
      class [KeyOrder], which states what a comparison of keys must satisfy: the
      comparison of timers satisfies it for times within 2^62 milliseconds of the
      clock.  The handlers of the events are a parameter.
    - Queue: core/ngx_queue.h and core/ngx_queue.c: the circle of nodes refines a list; the
      middle, the splitting and joining, and the stable sort.
    - Crc32: core/ngx_crc32.h and core/ngx_crc32.c: the loops over the two tables are the
      division by the polynomial, one bit at a time.
    - LimitReq: the zones of http/modules/ngx_http_limit_req_module.c, with the comparison
      [ngx_memn2cmp] of core/ngx_string.c: a tree, a queue and the blocks of an allocator
      ([zrep]) refine a list of leaky buckets, the last used first, under any interleaving of
      the workers; a node that a worker holds is not given back, for its count is not 0.
    - LimitRate: what the buckets promise: how many requests of a key come through in a time,
      and which are never refused.  It is proved on the list, for any run of a zone.
    - LimitHandler: the handler of the same module, which looks a request up in the zones of
      all the limits of its location, and then charges all of them or none.
    - RoundRobin: http/ngx_http_upstream_round_robin.c: the groups of peers and the
      smooth weighted choice, which keeps every peer within one request of its
      share; a request that fails goes on to other peers and reaches one that works.
    - Printf: the formatted printing of core/ngx_string.c over the printing of
      numbers: what the bounded printers cut is the end, and nothing else.
    - Times: [ngx_gmtime] and the printers of dates of core/ngx_times.c, and
      core/ngx_parse_time.c.  The formulas are proved against counting the days of
      the calendar one by one; the reader is safe on any bytes and reads back what
      the printers print.

    ** Interactions

    The line parsers, the chunked parser and the URI parser work on the same
    [ngx_buf_t] (Scan).  The chunked filters call the parser of the same file; the
    response filter prints the sizes with [ngx_sprintf_num] (Numbers).  The string
    encoding of Hpack calls the encoder of Huffman.  HeaderBlock reads integers with
    Hpack and strings with Huffman, and hands the fields to HpackTable and to
    V2Request, which has the path taken apart by Uri, and that calls ComplexUri.
    V2Filter encodes its strings with Hpack, prints numbers with
    Printf and dates with Times, and its specification looks fields up in the tables of
    HpackTable.  Printf prints numbers with
    Numbers, and Times prints dates with Printf.  Timer keeps its timers in Rbtree.  LimitReq
    keeps its nodes both in Rbtree, in the order of the hashes and keys (an instance of
    [KeyOrder] that depends on the nodes in memory), and in Queue, and gets their blocks
    through the class [Slab], which says that a block that is given out is not in use; Crc32
    gives LimitHandler the hashes.

    ** Not modelled

    The event loop but for its timers, the connections and the operating system layer; the
    configuration; TLS; the upstream, cache and file modules, which are mostly I/O
    and configuration around the parsers; mail and stream proxying; the resolver.
    They are state machines over sockets, timers and callbacks, with little to say
    about them apart from those.  The pools of core/ngx_palloc.c are a layer over
    malloc; the slab allocator of core/ngx_slab.c works on the bits of the memory that it
    manages, and is an interface here.  Of HTTP/2 the frames other than those of header
    blocks, flow control and priorities are left out; of http/ngx_http_parse.c the lookup of
    headers, cookies and arguments; of the rate limits the directives and the variable.

    This file holds what all the others use: notations for characters and record
    updates, machine integers, bit operations as arithmetic, exhaustive checks over
    a byte, and the tactics. *)

From stdpp Require Export base numbers list option.
From Stdlib Require Export ZArith Lia.
From Stdlib Require Import Strings.Byte Strings.String Strings.Ascii.
Export StringSyntax.

#[global] Open Scope Z_scope.

(** ** Character and string literals *)

Definition char_of_bytes (l : list Byte.byte) : option Z :=
  match l with
  | [b] => Some (Z.of_N (Byte.to_N b))
  | _ => None
  end.

(** Characters are only parsed, never printed: a [Z] prints as a number. *)
Definition char_to_bytes (_ : Z) : option (list Byte.byte) := None.

Declare Scope c_char_scope.
Delimit Scope c_char_scope with ch.
String Notation Z char_of_bytes char_to_bytes : c_char_scope.

Fixpoint bs (s : String.string) : list Z :=
  match s with
  | EmptyString => []
  | String a s' => Z.of_N (N_of_ascii a) :: bs s'
  end.
Arguments bs s%_string_scope.

Definition LF : Z := 10.
Definition CR : Z := 13.

(** ** Machine integers (LP64) *)

Definition u8 (z : Z) : Z := z mod 2 ^ 8.
Definition u32 (z : Z) : Z := z mod 2 ^ 32.
Definition u64 (z : Z) : Z := z mod 2 ^ 64.
Definition i64 (z : Z) : Z := (z + 2 ^ 63) mod 2 ^ 64 - 2 ^ 63.

(** [ngx_abs] of a 64-bit number; the least one, which has no opposite, wraps to itself. *)
Definition ngx_abs (value : Z) : Z := if value >=? 0 then value else i64 (- value).

Definition is_u8 (z : Z) : Prop := 0 <= z < 256.
Abbreviation bytes_ok := (Forall is_u8).

Definition NGX_MAX_UINT32_VALUE : Z := 0xffffffff.
Definition NGX_MAX_INT_T_VALUE : Z := 9223372036854775807.
Definition NGX_MAX_SIZE_T_VALUE : Z := 9223372036854775807.
Definition NGX_MAX_OFF_T_VALUE : Z := 9223372036854775807.
Definition NGX_MAX_TIME_T_VALUE : Z := 9223372036854775807.

Definition NGX_OK : Z := 0.
Definition NGX_ERROR : Z := -1.
Definition NGX_AGAIN : Z := -2.
Definition NGX_BUSY : Z := -3.
Definition NGX_DONE : Z := -4.
Definition NGX_DECLINED : Z := -5.

Lemma u8_small z : 0 <= z < 256 -> u8 z = z.
Proof. intros. apply Z.mod_small. lia. Qed.

Lemma u8_range z : 0 <= u8 z < 256.
Proof. apply Z.mod_pos_bound. lia. Qed.

Lemma u32_small z : 0 <= z < 2 ^ 32 -> u32 z = z.
Proof. intros. apply Z.mod_small. lia. Qed.

Lemma u64_small z : 0 <= z < 2 ^ 64 -> u64 z = z.
Proof. intros. apply Z.mod_small. lia. Qed.

Lemma i64_small z : - 2 ^ 63 <= z < 2 ^ 63 -> i64 z = z.
Proof. intros. unfold i64. rewrite Z.mod_small; lia. Qed.

Create Rewrite HintDb cint.
#[export] Hint Rewrite u8_small u32_small u64_small i64_small using lia : cint.

(** ** Bit operations as arithmetic *)

Lemma shiftr_div z k : 0 <= k -> Z.shiftr z k = z / 2 ^ k.
Proof. apply Z.shiftr_div_pow2. Qed.

Lemma shiftl_mul z k : 0 <= k -> Z.shiftl z k = z * 2 ^ k.
Proof. apply Z.shiftl_mul_pow2. Qed.

(** [x << k | y] is [x * 2^k + y] when [y] fits in [k] bits. *)
Lemma lor_shiftl_add x y k :
  0 <= k -> 0 <= y < 2 ^ k -> Z.lor (Z.shiftl x k) y = x * 2 ^ k + y.
Proof.
  intros Hk Hy. rewrite Z.add_comm, <- shiftl_mul by done.
  rewrite Z.lor_comm. symmetry. apply Z.add_nocarry_lor.
  apply Z.bits_inj'. intros n Hn. rewrite Z.land_spec, Z.bits_0.
  destruct (decide (n < k)).
  - rewrite (Z.shiftl_spec_low x) by lia. apply andb_false_r.
  - rewrite <- (Z.mod_small y (2 ^ k)) by lia.
    rewrite Z.mod_pow2_bits_high by lia. done.
Qed.

Lemma land_ones_mod z k : 0 <= k -> Z.land z (Z.ones k) = z mod 2 ^ k.
Proof. apply Z.land_ones. Qed.

(** The test [x & bit] for one bit. *)
Lemma land_pow2 x k : 0 <= k -> negb (Z.land x (2 ^ k) =? 0) = Z.testbit x k.
Proof.
  intros Hk. destruct (Z.testbit x k) eqn:Hb.
  - apply negb_true_iff, Z.eqb_neq. intros H0.
    apply (f_equal (fun z => Z.testbit z k)) in H0.
    rewrite Z.land_spec, Hb, Z.pow2_bits_true, Z.bits_0 in H0 by lia. done.
  - apply negb_false_iff, Z.eqb_eq, Z.bits_inj'. intros n Hn.
    rewrite Z.land_spec, Z.bits_0. destruct (decide (n = k)) as [->|]; [by rewrite Hb|].
    rewrite Z.pow2_bits_false by lia. apply andb_false_r.
Qed.

(** ** Exhaustive checks over one byte *)

Definition all_u8 : list Z := Eval vm_compute in seqZ 0 256.

Lemma forall_u8 (P : Z -> bool) :
  forallb P all_u8 = true -> forall c, is_u8 c -> P c = true.
Proof.
  change all_u8 with (seqZ 0 256). intros H c Hc. rewrite forallb_forall in H.
  apply H. apply list_elem_of_In, elem_of_seqZ. unfold is_u8 in Hc. lia.
Qed.

(** ** Lists by groups *)

(** Induction three elements at a time, for the loops that consume three. *)
Lemma list_ind3 {A} (P : list A -> Prop) :
  P [] -> (forall a, P [a]) -> (forall a b, P [a; b]) ->
  (forall a b c l, P l -> P (a :: b :: c :: l)) -> forall l, P l.
Proof.
  intros H0 H1 H2 H3. fix IH 1.
  intros [|a [|b [|c l]]]; [apply H0|apply H1|apply H2|apply H3, IH].
Qed.

(** Induction four elements at a time. *)
Lemma list_ind4 {A} (P : list A -> Prop) :
  P [] -> (forall a, P [a]) -> (forall a b, P [a; b]) -> (forall a b c, P [a; b; c]) ->
  (forall a b c d l, P l -> P (a :: b :: c :: d :: l)) -> forall l, P l.
Proof.
  intros H0 H1 H2 H3 H4. fix IH 1.
  intros [|a [|b [|c [|d l]]]]; [apply H0|apply H1|apply H2|apply H3|apply H4, IH].
Qed.

Lemma forallb_negb {A} (f : A -> bool) l :
  forallb (fun x => negb (f x)) l = negb (existsb f l).
Proof. induction l as [|x l IH]; simpl; [done|]. by rewrite IH, negb_orb. Qed.

(** A property of a closed list, by evaluating a test that implies it. *)
Lemma Forall_check {A} (f : A -> bool) (P : A -> Prop) l :
  (forall x, f x = true -> P x) -> forallb f l = true -> Forall P l.
Proof.
  intros Hf. induction l as [|x l IH]; simpl; [constructor|].
  intros [Hx Hl]%andb_prop. constructor; auto.
Qed.

Lemma bytes_ok_check l : forallb (fun c => (0 <=? c) && (c <? 256)) l = true -> bytes_ok l.
Proof. apply Forall_check. intros c. unfold is_u8. lia. Qed.

Lemma existsb_elem_of {A} (f : A -> bool) l :
  existsb f l = true <-> exists x, x ∈ l /\ f x = true.
Proof.
  rewrite existsb_exists. split; intros (x & Hx & Hf); exists x;
    (split; [by apply list_elem_of_In|done]).
Qed.

Lemma filter_all {A} (P : A -> Prop) `{!forall x, Decision (P x)} (l : list A) : (forall x, x ∈ l -> P x) -> filter P l = l.
Proof.
  induction l as [|x l IH]; [done|]. intros Hl. rewrite filter_cons_True by (apply Hl; by left).
  f_equal. apply IH. intros y Hy. apply Hl. by right.
Qed.

(** ** Record update

    [r <| field := v |>] is [r] with one field stored, as a C assignment to
    [r->field].  A record type declares its [Eta] instance once. *)

Class Eta (R : Type) := mk_eta { eta_expand : R -> R }.
Class Setter {R E : Type} (field : R -> E) := mk_setter { field_set : (E -> E) -> R -> R }.
Arguments mk_eta {R}.
Arguments field_set {R E} field {_} f r /.

Ltac derive_setter R field :=
  let t := eval hnf in (@eta_expand R _) in
  lazymatch eval pattern field in t with
  | ?set _ =>
      let s := eval cbv beta in (fun f => set (fun r => f (field r))) in
      exact (mk_setter _ _ field s)
  end.
#[export] Hint Extern 1 (@Setter ?R _ ?field) => derive_setter R field : typeclass_instances.

Notation "r <| field := v |>" := (field_set field (fun _ => v) r)
  (at level 1, left associativity, field at level 99, v at level 99,
   format "r <| field := v |>").

(** ** Tactics *)

(** Split on the test of an [if] or [match] of the goal, and simplify. *)
Ltac split_match :=
  repeat (case_match; simplify_eq; try done).

(** Arithmetic with [/] and [mod] by constants. *)
Ltac lia_mod := Z.to_euclidean_division_equations; lia.

(** [test_true b] and [test_false b] replace a comparison that the context
    decides. *)
Ltac test_true b :=
  replace b with true
    by (symmetry;
        first [apply Z.ltb_lt | apply Z.leb_le | apply Z.eqb_eq | apply Z.gtb_lt
              |apply Z.geb_le | apply Nat.eqb_eq | apply Nat.leb_le | apply Nat.ltb_lt
              |idtac]; lia_mod).
Ltac test_false b :=
  replace b with false
    by (symmetry;
        first [apply Z.ltb_ge | apply Z.leb_gt | apply Z.eqb_neq
              |rewrite Z.gtb_ltb; apply Z.ltb_ge | rewrite Z.geb_leb; apply Z.leb_gt
              |apply Nat.eqb_neq | apply Nat.leb_gt | apply Nat.ltb_ge | idtac]; lia_mod).
