(* ===== verification/Numbers.v ===== *)
(** * Numbers: the numeric text of ngx_string.c

    [ngx_atoi], [ngx_atosz], [ngx_atoof], [ngx_atotm], [ngx_atofp],
    [ngx_hextoi], [ngx_hex_dump] and the number printer [ngx_sprintf_num].
    A [u_char *line] with its size [n] is the list of the [n] bytes.  Signed
    arithmetic is wrapped by [i64], so the theorems that give the exact
    mathematical value also show that no intermediate result overflows. *)

From S2P Require Import Prelude.

(** ** Decimal numbers *)

(** The loop shared by [ngx_atoi] and its copies at the other types:
    [for (value = 0; n--; line++)]. *)
Fixpoint ngx_ato_loop (cutoff cutlim value : Z) (line : list Z) : Z :=
  match line with
  | [] => value
  | c :: line' =>
      if (c <? "0"%ch) || (c >? "9"%ch) then NGX_ERROR
      else if (value >=? cutoff) && ((value >? cutoff) || (c - "0"%ch >? cutlim))
      then NGX_ERROR
      else ngx_ato_loop cutoff cutlim (i64 (value * 10 + (c - "0"%ch))) line'
  end.

Definition ngx_ato (max : Z) (line : list Z) : Z :=
  match line with
  | [] => NGX_ERROR
  | _ => ngx_ato_loop (max / 10) (max mod 10) 0 line
  end.

Definition ngx_atoi (line : list Z) : Z := ngx_ato NGX_MAX_INT_T_VALUE line.
Definition ngx_atosz (line : list Z) : Z := ngx_ato NGX_MAX_SIZE_T_VALUE line.
Definition ngx_atoof (line : list Z) : Z := ngx_ato NGX_MAX_OFF_T_VALUE line.
Definition ngx_atotm (line : list Z) : Z := ngx_ato NGX_MAX_TIME_T_VALUE line.

(** ** Fixed point numbers *)

(** The second loop of [ngx_atofp], [while (point--)]. *)
Fixpoint ngx_atofp_scale (cutoff value : Z) (point : nat) : Z :=
  match point with
  | O => value
  | S point' =>
      if value >? cutoff then NGX_ERROR
      else ngx_atofp_scale cutoff (i64 (value * 10)) point'
  end.

Fixpoint ngx_atofp_loop (cutoff cutlim value : Z) (dot point : nat)
    (line : list Z) : Z :=
  match line with
  | [] => ngx_atofp_scale cutoff value point
  | c :: line' =>
      if (point =? 0)%nat then NGX_ERROR
      else if c =? "."%ch then
        if (dot =? 0)%nat
        then ngx_atofp_loop cutoff cutlim value 1 point line'
        else NGX_ERROR
      else if (c <? "0"%ch) || (c >? "9"%ch) then NGX_ERROR
      else if (value >=? cutoff) && ((value >? cutoff) || (c - "0"%ch >? cutlim))
      then NGX_ERROR
      else ngx_atofp_loop cutoff cutlim (i64 (value * 10 + (c - "0"%ch)))
             dot (point - dot)%nat line'
  end.

Definition ngx_atofp (line : list Z) (point : nat) : Z :=
  match line with
  | [] => NGX_ERROR
  | _ => ngx_atofp_loop (NGX_MAX_INT_T_VALUE / 10) (NGX_MAX_INT_T_VALUE mod 10)
           0 0 point line
  end.

(** ** Hexadecimal numbers *)

Fixpoint ngx_hextoi_loop (cutoff value : Z) (line : list Z) : Z :=
  match line with
  | [] => value
  | ch :: line' =>
      if value >? cutoff then NGX_ERROR
      else if (ch >=? "0"%ch) && (ch <=? "9"%ch) then
        ngx_hextoi_loop cutoff (i64 (value * 16 + (ch - "0"%ch))) line'
      else
        let c := u8 (Z.lor ch 0x20) in
        if (c >=? "a"%ch) && (c <=? "f"%ch) then
          ngx_hextoi_loop cutoff (i64 (value * 16 + (c - "a"%ch + 10))) line'
        else NGX_ERROR
  end.

Definition ngx_hextoi (line : list Z) : Z :=
  match line with
  | [] => NGX_ERROR
  | _ => ngx_hextoi_loop (NGX_MAX_INT_T_VALUE / 16) 0 line
  end.

Definition hex_lower : list Z := bs "0123456789abcdef".
Definition hex_upper : list Z := bs "0123456789ABCDEF".

(** [hex[i]] for the indices the code uses, which are below 16. *)
Definition hex_digit (hex : list Z) (i : Z) : Z := nth (Z.to_nat i) hex 0.

Definition ngx_hex_dump (src : list Z) : list Z :=
  flat_map (fun c => [hex_digit hex_lower (Z.shiftr c 4);
                      hex_digit hex_lower (Z.land c 0xf)]) src.

(** ** Printing *)

Definition NGX_INT64_LEN : nat := 20.

(** [do { *--p = ui % 10 + '0' } while (ui /= 10)] in a [temp] array with
    [room] bytes left below [p]; writing below [temp] is [None]. *)
Fixpoint sprintf_dec (room : nat) (ui : Z) (p : list Z) : option (list Z) :=
  match room with
  | O => None
  | S room' =>
      let p' := u8 (ui mod 10 + "0"%ch) :: p in
      let ui' := ui / 10 in
      if ui' =? 0 then Some p' else sprintf_dec room' ui' p'
  end.

(** [do { *--p = hex[ui64 & 0xf] } while (ui64 >>= 4)]. *)
Fixpoint sprintf_hex (hex : list Z) (room : nat) (ui : Z) (p : list Z)
    : option (list Z) :=
  match room with
  | O => None
  | S room' =>
      let p' := hex_digit hex (u32 (Z.land ui 0xf)) :: p in
      let ui' := Z.shiftr ui 4 in
      if ui' =? 0 then Some p' else sprintf_hex hex room' ui' p'
  end.

(** [while (len++ < width && buf < last) { *buf++ = zero; }]: the padding and
    the room that is left. *)
Fixpoint sprintf_pad (avail : nat) (len width : Z) (zero : Z) : list Z * nat :=
  match avail with
  | O => ([], O)
  | S avail' =>
      if len <? width then
        let '(out, rest) := sprintf_pad avail' (len + 1) width zero in
        (zero :: out, rest)
      else ([], avail)
  end.

(** [avail] is [last - buf]; the result is what is written from [buf] on. *)
Definition ngx_sprintf_num (avail : nat) (ui64 zero hexadecimal width : Z)
    : option (list Z) :=
  p ← (if hexadecimal =? 0 then
         if ui64 <=? NGX_MAX_UINT32_VALUE
         then sprintf_dec NGX_INT64_LEN (u32 ui64) []
         else sprintf_dec NGX_INT64_LEN ui64 []
       else if hexadecimal =? 1
       then sprintf_hex hex_lower NGX_INT64_LEN ui64 []
       else sprintf_hex hex_upper NGX_INT64_LEN ui64 []);
  let '(pad, rest) := sprintf_pad avail (Z.of_nat (length p)) width zero in
  let len := Nat.min (length p) rest in
  Some (pad ++ take len p).

(** ** What the decimal parsers compute *)

Definition is_digit (c : Z) : bool := ("0"%ch <=? c) && (c <=? "9"%ch).

(** The number that the digits [l] denote when they follow [v]. *)
Definition dec_from (v : Z) (l : list Z) : Z :=
  fold_left (fun v c => v * 10 + (c - "0"%ch)) l v.

Lemma dec_from_app v l1 l2 : dec_from v (l1 ++ l2) = dec_from (dec_from v l1) l2.
Proof. apply fold_left_app. Qed.

Lemma dec_from_ge v l : 0 <= v -> forallb is_digit l = true -> v <= dec_from v l.
Proof.
  revert v. induction l as [|c l IH]; simpl; [lia|]. intros v Hv [Hc Hl]%andb_prop.
  unfold is_digit in Hc. change (v <= dec_from (v * 10 + (c - 48)) l).
  specialize (IH (v * 10 + (c - 48)) ltac:(lia) Hl). lia.
Qed.

(** The guard of the decimal loops is the overflow test it is meant to be. *)
Lemma dec_guard max v d :
  0 <= d <= 9 ->
  ((v >=? max / 10) && ((v >? max / 10) || (d >? max mod 10))) = (max <? v * 10 + d).
Proof.
  intros. pose proof (Z.div_mod max 10 ltac:(lia)).
  pose proof (Z.mod_pos_bound max 10 ltac:(lia)).
  generalize dependent (max / 10). generalize dependent (max mod 10).
  intros r Hr q Hq. apply eq_true_iff_eq. lia.
Qed.

Lemma ngx_ato_loop_correct max v line :
  0 <= v <= max -> max < 2 ^ 63 ->
  ngx_ato_loop (max / 10) (max mod 10) v line
  = if forallb is_digit line && (dec_from v line <=? max)
    then dec_from v line else NGX_ERROR.
Proof.
  revert v. induction line as [|c line IH]; intros v Hv Hmax; simpl.
  - unfold dec_from; simpl. case_match; [done|lia].
  - replace ((c <? 48) || (c >? 57)) with (negb (is_digit c))
      by (unfold is_digit; apply eq_true_iff_eq; lia).
    destruct (is_digit c) eqn:Hc; simpl; [|done]. unfold is_digit in Hc.
    rewrite dec_guard by lia. destruct (max <? v * 10 + (c - 48)) eqn:Hg.
    + destruct (forallb is_digit line) eqn:Hl; simpl; [|done].
      pose proof (dec_from_ge (v * 10 + (c - 48)) line ltac:(lia) Hl) as Hge.
      unfold dec_from in *; simpl. case_match; [lia|done].
    + rewrite i64_small by lia. rewrite IH by lia. done.
Qed.

(** C37: [ngx_atoi] returns the number that its text denotes exactly when the
    text is a nonempty run of digits whose value fits in an [ngx_int_t], and
    [NGX_ERROR] in every other case; the copies at the types of sizes,
    offsets and times behave the same way. *)
Theorem ngx_atoi_correct (line : list Z) :
  let ok := negb (bool_decide (line = [])) && forallb is_digit line
            && (dec_from 0 line <=? 2 ^ 63 - 1) in
  let value := if ok then dec_from 0 line else NGX_ERROR in
  ngx_atoi line = value /\ ngx_atosz line = value
  /\ ngx_atoof line = value /\ ngx_atotm line = value.
Proof.
  assert (ngx_atoi line
          = if negb (bool_decide (line = [])) && forallb is_digit line
               && (dec_from 0 line <=? 2 ^ 63 - 1)
            then dec_from 0 line else NGX_ERROR) as H; [|done].
  unfold ngx_atoi, ngx_ato. destruct line as [|c line]; [done|].
  by rewrite ngx_ato_loop_correct.
Qed.

(** ** What the fixed point parser computes *)

(** The longest prefix of digits and the rest. *)
Fixpoint span_digits (l : list Z) : list Z * list Z :=
  match l with
  | c :: l' =>
      if is_digit c then let '(i, rest) := span_digits l' in (c :: i, rest)
      else ([], l)
  | [] => ([], [])
  end.

(** The value of "iii.ff" in units of [10 ^ -point], from the definition of a
    decimal fraction; [None] when the text is not one with at most [point]
    digits after the dot. *)
Definition fixed_point (v : Z) (point : nat) (line : list Z) : option Z :=
  match span_digits line with
  | (i, []) => Some (dec_from v i * 10 ^ Z.of_nat point)
  | (i, c :: f) =>
      if (c =? "."%ch) && forallb is_digit f && (length f <=? point)%nat
      then Some (dec_from v (i ++ f) * 10 ^ Z.of_nat (point - length f))
      else None
  end.

Definition checked (max : Z) (o : option Z) : Z :=
  match o with
  | Some v => if v <=? max then v else NGX_ERROR
  | None => NGX_ERROR
  end.

Lemma checked_over max r : max < r -> checked max (Some r) = NGX_ERROR.
Proof. intros. simpl. case_match; [lia|done]. Qed.

Lemma pow10_scale_ge r n : 0 <= r -> r <= r * 10 ^ Z.of_nat n.
Proof. intros. pose proof (Z.pow_pos_nonneg 10 (Z.of_nat n)). nia. Qed.

Lemma ngx_atofp_scale_correct max v point :
  0 <= v <= max -> max < 2 ^ 63 ->
  ngx_atofp_scale (max / 10) v point = checked max (Some (v * 10 ^ Z.of_nat point)).
Proof.
  revert v. induction point as [|point IH]; intros v Hv Hmax; simpl.
  - rewrite Z.mul_1_r. case_match; [done|lia].
  - pose proof (Z.div_mod max 10 ltac:(lia)).
    pose proof (Z.mod_pos_bound max 10 ltac:(lia)).
    rewrite Nat2Z.inj_succ, Z.pow_succ_r by lia.
    pose proof (Z.pow_pos_nonneg 10 (Z.of_nat point) ltac:(lia) ltac:(lia)).
    destruct (v >? max / 10) eqn:Hc.
    + case_match; [|done]. nia.
    + rewrite i64_small by lia. rewrite IH by lia. simpl.
      by replace (v * 10 * 10 ^ Z.of_nat point)
        with (v * (10 * 10 ^ Z.of_nat point)) by lia.
Qed.

Lemma ngx_atofp_loop_dot max v point line :
  0 <= v <= max -> max < 2 ^ 63 ->
  ngx_atofp_loop (max / 10) (max mod 10) v 1 point line
  = checked max
      (if forallb is_digit line && (length line <=? point)%nat
       then Some (dec_from v line * 10 ^ Z.of_nat (point - length line)) else None).
Proof.
  revert v point. induction line as [|c line IH]; intros v point Hv Hmax.
  - simpl. rewrite ngx_atofp_scale_correct by done. by rewrite Nat.sub_0_r.
  - cbn [ngx_atofp_loop]. destruct point as [|point].
    { simpl. by rewrite andb_false_r. }
    simpl (_ =? 0)%nat. cbn match.
    destruct (c =? 46) eqn:Hdot.
    { simpl. unfold is_digit at 1. replace (48 <=? c) with false by lia. done. }
    replace ((c <? 48) || (c >? 57)) with (negb (is_digit c))
      by (unfold is_digit; apply eq_true_iff_eq; lia).
    cbn [forallb length]. destruct (is_digit c) eqn:Hc; [|done].
    unfold is_digit in Hc. cbn [negb andb]. rewrite dec_guard by lia.
    destruct (max <? v * 10 + (c - 48)) eqn:Hg.
    + destruct (forallb is_digit line) eqn:Hl; [|done]. cbn [andb].
      destruct (S (length line) <=? S point)%nat; [|done]. symmetry. apply checked_over.
      change (dec_from v (c :: line)) with (dec_from (v * 10 + (c - 48)) line).
      pose proof (dec_from_ge (v * 10 + (c - 48)) line ltac:(lia) Hl) as Hge.
      eapply Z.lt_le_trans; [|apply pow10_scale_ge]; lia.
    + rewrite i64_small by lia. replace (S point - 1)%nat with point by lia.
      rewrite IH by lia. done.
Qed.

Lemma fixed_point_cons v point c line :
  is_digit c = true ->
  fixed_point v point (c :: line) = fixed_point (v * 10 + (c - 48)) point line.
Proof.
  intros Hc. unfold fixed_point. simpl. rewrite Hc.
  destruct (span_digits line) as [i [|c' f]]; done.
Qed.

Lemma fixed_point_ge v point line r :
  0 <= v -> fixed_point v point line = Some r -> v <= r.
Proof.
  revert v. induction line as [|c line IH]; intros v Hv.
  - simpl. unfold fixed_point; simpl. intros [= <-]. by apply pow10_scale_ge.
  - destruct (is_digit c) eqn:Hc.
    + rewrite fixed_point_cons by done. intros H. unfold is_digit in Hc.
      apply IH in H; lia.
    + unfold fixed_point. simpl. rewrite Hc. case_match eqn:Hok; [|done].
      intros [= <-]. apply andb_prop in Hok as [[_ Hd]%andb_prop _]. simpl.
      pose proof (dec_from_ge v line Hv Hd).
      etrans; [|apply pow10_scale_ge]; lia.
Qed.

Lemma ngx_atofp_loop_correct max v point line :
  0 <= v <= max -> max < 2 ^ 63 -> (0 < point)%nat ->
  ngx_atofp_loop (max / 10) (max mod 10) v 0 point line
  = checked max (fixed_point v point line).
Proof.
  revert v. induction line as [|c line IH]; intros v Hv Hmax Hp.
  - simpl. by rewrite ngx_atofp_scale_correct.
  - cbn [ngx_atofp_loop]. rewrite (proj2 (Nat.eqb_neq point 0)) by lia.
    destruct (c =? 46) eqn:Hdot.
    { simpl (0 =? 0)%nat. cbn match. rewrite ngx_atofp_loop_dot by done.
      unfold fixed_point. simpl.
      replace (is_digit c) with false by (unfold is_digit; lia). by rewrite Hdot. }
    replace ((c <? 48) || (c >? 57)) with (negb (is_digit c))
      by (unfold is_digit; apply eq_true_iff_eq; lia).
    destruct (is_digit c) eqn:Hc; cbn [negb].
    + rewrite fixed_point_cons by done. unfold is_digit in Hc.
      rewrite dec_guard by lia. destruct (max <? v * 10 + (c - 48)) eqn:Hg.
      * destruct (fixed_point _ point line) as [r|] eqn:Hr; [|done].
        apply fixed_point_ge in Hr; [|lia]. symmetry. apply checked_over. lia.
      * rewrite i64_small, Nat.sub_0_r by lia. apply IH; lia.
    + unfold fixed_point. simpl. by rewrite Hc, Hdot.
Qed.

(** [ngx_atofp] parses a decimal fraction with at most [point] digits
    after its only dot into the number scaled by [10 ^ point], and returns
    [NGX_ERROR] when the text is anything else, when [point] is zero, or when
    the scaled value does not fit in an [ngx_int_t]. *)
Theorem ngx_atofp_correct (line : list Z) (point : nat) :
  ngx_atofp line point
  = if bool_decide (line = []) || (point =? 0)%nat then NGX_ERROR
    else checked (2 ^ 63 - 1) (fixed_point 0 point line).
Proof.
  unfold ngx_atofp. destruct line as [|c line]; [done|].
  rewrite bool_decide_eq_false_2 by done. simpl orb.
  destruct (point =? 0)%nat eqn:Hp.
  - cbn [ngx_atofp_loop]. by rewrite Hp.
  - apply Nat.eqb_neq in Hp.
    apply (ngx_atofp_loop_correct (2 ^ 63 - 1)); lia.
Qed.

(** ** What the hexadecimal parser computes *)

Definition hex_val (c : Z) : option Z :=
  if is_digit c then Some (c - "0"%ch)
  else if ("a"%ch <=? c) && (c <=? "f"%ch) then Some (c - "a"%ch + 10)
  else if ("A"%ch <=? c) && (c <=? "F"%ch) then Some (c - "A"%ch + 10)
  else None.

Definition is_hex (c : Z) : bool := bool_decide (is_Some (hex_val c)).

Definition hex_from (v : Z) (l : list Z) : Z :=
  fold_left (fun v c => v * 16 + default 0 (hex_val c)) l v.

Lemma hex_val_range c d : hex_val c = Some d -> 0 <= d <= 15.
Proof. unfold hex_val, is_digit. repeat case_match; intros; simplify_eq; lia. Qed.

Lemma hex_from_ge v l : 0 <= v -> forallb is_hex l = true -> v <= hex_from v l.
Proof.
  revert v. induction l as [|c l IH]; intros v Hv; [done|].
  intros [[d Hc]%bool_decide_eq_true Hl]%andb_prop.
  change (v <= hex_from (v * 16 + default 0 (hex_val c)) l).
  rewrite Hc. apply hex_val_range in Hc. simpl.
  specialize (IH (v * 16 + d) ltac:(lia) Hl). lia.
Qed.

(** The two tests of the C code on one character, as [hex_val]. *)
Lemma hextoi_digit ch :
  is_u8 ch ->
  hex_val ch
  = if (ch >=? "0"%ch) && (ch <=? "9"%ch) then Some (ch - "0"%ch)
    else let c := u8 (Z.lor ch 0x20) in
         if (c >=? "a"%ch) && (c <=? "f"%ch) then Some (c - "a"%ch + 10) else None.
Proof.
  intros Hch.
  apply (bool_decide_eq_true_1 (_ = _)). revert ch Hch.
  apply (forall_u8 (fun ch => bool_decide (hex_val ch = _))).
  vm_compute. reflexivity.
Qed.

Lemma ngx_hextoi_loop_correct k v line :
  bytes_ok line -> 0 <= v < 2 ^ (4 + k) -> 0 <= k -> 4 + k < 64 ->
  ngx_hextoi_loop (2 ^ k - 1) v line
  = if forallb is_hex line && (hex_from v line <? 2 ^ (4 + k))
    then hex_from v line else NGX_ERROR.
Proof.
  intros Hline. revert v.
  induction Hline as [|c line Hc Hline IH]; intros v Hv Hk Hk64.
  - simpl. unfold hex_from; simpl. case_match; [done|lia].
  - cbn [ngx_hextoi_loop forallb].
    change (hex_from v (c :: line)) with (hex_from (v * 16 + default 0 (hex_val c)) line).
    pose proof (Z.pow_le_mono_r 2 (4 + k) 63 ltac:(lia) ltac:(lia)).
    assert (2 ^ (4 + k) = 16 * 2 ^ k) as H16 by (rewrite Z.pow_add_r; lia).
    assert (is_hex c = bool_decide (is_Some (hex_val c))) as Hhex by done.
    destruct (v >? 2 ^ k - 1) eqn:Hg.
    { destruct (is_hex c) eqn:Hh; [|done]. destruct (forallb is_hex line) eqn:Hl; [|done].
      symmetry in Hhex. apply bool_decide_eq_true in Hhex as [d Hd]. rewrite Hd. simpl.
      apply hex_val_range in Hd as ?.
      pose proof (hex_from_ge (v * 16 + d) line ltac:(lia) Hl). case_match; [lia|done]. }
    assert (forall d, 0 <= d <= 15 ->
      ngx_hextoi_loop (2 ^ k - 1) (i64 (v * 16 + d)) line
      = if forallb is_hex line && (hex_from (v * 16 + d) line <? 2 ^ (4 + k))
        then hex_from (v * 16 + d) line else NGX_ERROR) as Hstep.
    { intros d Hd. rewrite i64_small by lia. apply IH; lia. }
    clear IH. rewrite (hextoi_digit c) in * by done.
    destruct ((c >=? 48) && (c <=? 57)) eqn:Hdig.
    + rewrite Hhex. simpl. apply Hstep. lia.
    + cbv zeta in *. destruct ((u8 (Z.lor c 32) >=? 97) && (u8 (Z.lor c 32) <=? 102)) eqn:Hal.
      * rewrite Hhex. simpl. apply Hstep. lia.
      * rewrite Hhex. done.
Qed.

(** on bytes, [ngx_hextoi] returns the number that its hexadecimal digits
    of either case denote when the text is nonempty, holds only such digits
    and fits in an [ngx_int_t], and [NGX_ERROR] otherwise. *)
Theorem ngx_hextoi_correct (line : list Z) (Hline : bytes_ok line) :
  ngx_hextoi line
  = if negb (bool_decide (line = [])) && forallb is_hex line
       && (hex_from 0 line <=? 2 ^ 63 - 1)
    then hex_from 0 line else NGX_ERROR.
Proof.
  unfold ngx_hextoi. destruct line as [|c line]; [done|].
  rewrite bool_decide_eq_false_2 by done. cbn [negb andb].
  replace (hex_from 0 (c :: line) <=? 2 ^ 63 - 1)
    with (hex_from 0 (c :: line) <? 2 ^ (4 + 59)) by (apply eq_true_iff_eq; lia).
  apply (ngx_hextoi_loop_correct 59); [done|lia..].
Qed.

Lemma ngx_hextoi_correct_witness : ngx_hextoi (bs "7fFf") = 32767.
Proof.
  rewrite (ngx_hextoi_correct (bs "7fFf"));
    [reflexivity | repeat constructor; vm_compute; intuition discriminate].
Defined.

(** ** Dumping bytes *)

(** The big-endian number that bytes denote. *)
Definition be_from (v : Z) (s : list Z) : Z := fold_left (fun v c => v * 256 + c) s v.

Lemma hex_digit_val hex i :
  hex = hex_lower \/ hex = hex_upper -> 0 <= i < 16 ->
  hex_val (hex_digit hex i) = Some i /\ is_u8 (hex_digit hex i).
Proof.
  intros Hhex Hi. unfold is_u8.
  assert (forallb (fun j => bool_decide (hex_val (hex_digit hex j) = Some j)
            && (0 <=? hex_digit hex j) && (hex_digit hex j <? 256)) (seqZ 0 16) = true)
    as Hall by (destruct Hhex as [-> | ->]; vm_compute; reflexivity).
  rewrite forallb_forall in Hall. specialize (Hall i).
  rewrite !andb_true_iff, bool_decide_eq_true in Hall.
  destruct Hall as [[? ?] ?]; [|split; [done|lia]].
  apply list_elem_of_In, elem_of_seqZ. lia.
Qed.

Lemma nibble_range c : is_u8 c -> 0 <= Z.shiftr c 4 < 16 /\ 0 <= Z.land c 0xf < 16.
Proof.
  intros Hc. unfold is_u8 in Hc. rewrite shiftr_div by done.
  change 0xf with (Z.ones 4). rewrite Z.land_ones by done. lia_mod.
Qed.

Lemma ngx_hex_dump_cons c s :
  ngx_hex_dump (c :: s)
  = hex_digit hex_lower (Z.shiftr c 4) :: hex_digit hex_lower (Z.land c 0xf)
    :: ngx_hex_dump s.
Proof. done. Qed.

Lemma ngx_hex_dump_value v s :
  bytes_ok s ->
  hex_from v (ngx_hex_dump s) = be_from v s /\ forallb is_hex (ngx_hex_dump s) = true
  /\ bytes_ok (ngx_hex_dump s) /\ length (ngx_hex_dump s) = (2 * length s)%nat.
Proof.
  intros Hs. revert v. induction Hs as [|c s Hc Hs IH]; intros v; [done|].
  rewrite ngx_hex_dump_cons. destruct (nibble_range c Hc) as [Hhi Hlo].
  destruct (hex_digit_val hex_lower (Z.shiftr c 4)) as [H1 H1']; [by left|done|].
  destruct (hex_digit_val hex_lower (Z.land c 0xf)) as [H2 H2']; [by left|done|].
  destruct (IH (v * 256 + c)) as (IHv & IHh & IHb & IHl).
  split_and!.
  - change (be_from v (c :: s)) with (be_from (v * 256 + c) s). rewrite <- IHv.
    unfold hex_from. cbn [fold_left]. rewrite H1, H2. simpl default. f_equal.
    rewrite shiftr_div by done. change 0xf with (Z.ones 4).
    rewrite Z.land_ones by done. lia_mod.
  - cbn [forallb]. unfold is_hex. rewrite H1, H2. done.
  - constructor; [done|]. by constructor.
  - simpl. lia.
Qed.

(** hexadecimal dumping loses nothing: reading the dump of a nonempty byte
    string back with [ngx_hextoi] gives the big-endian number of the bytes
    whenever it fits in an [ngx_int_t]. *)
Theorem ngx_hex_dump_hextoi (s : list Z)
    (Hs : bytes_ok s) (Hne : s <> []) (Hfit : be_from 0 s < 2 ^ 63) :
  ngx_hextoi (ngx_hex_dump s) = be_from 0 s
  /\ length (ngx_hex_dump s) = (2 * length s)%nat.
Proof.
  destruct (ngx_hex_dump_value 0 s Hs) as (Hv & Hh & Hb & Hl). split; [|done].
  unfold ngx_hextoi. destruct s as [|c s]; [done|].
  change (ngx_hextoi_loop (2 ^ 59 - 1) 0 (ngx_hex_dump (c :: s)) = be_from 0 (c :: s)).
  rewrite (ngx_hextoi_loop_correct 59) by (done || lia).
  rewrite Hh, Hv. case_match; [done|lia].
Qed.

Lemma ngx_hex_dump_hextoi_witness :
  ngx_hextoi (ngx_hex_dump [1; 171; 255]) = 109567.
Proof.
  destruct (ngx_hex_dump_hextoi [1; 171; 255]) as [H _];
    [repeat constructor; vm_compute; intuition discriminate | discriminate | done |].
  exact H.
Defined.

(** ** Printing numbers and reading them back *)

(** The digit loops: enough room is left in [temp], and what they write are
    digits that denote the number. *)
Lemma sprintf_dec_correct room ui p :
  0 <= ui < 10 ^ Z.of_nat room -> (0 < room)%nat ->
  exists q, sprintf_dec room ui p = Some (q ++ p)
    /\ (forall v, dec_from v q = v * 10 ^ Z.of_nat (length q) + ui)
    /\ forallb is_digit q = true /\ (0 < length q <= room)%nat.
Proof.
  revert ui p. induction room as [|room IH]; intros ui p Hui Hroom; [lia|].
  cbn [sprintf_dec]. set (c := u8 (ui mod 10 + 48)).
  pose proof (Z.mod_pos_bound ui 10 ltac:(lia)).
  assert (c = ui mod 10 + 48) as Hc by (apply u8_small; lia).
  assert (is_digit c = true) as Hd by (unfold is_digit; lia).
  destruct (ui / 10 =? 0) eqn:Hz.
  - exists [c]. split_and!; [done| |by simpl; rewrite Hd|simpl; lia|simpl; lia].
    intros v. unfold dec_from. simpl. lia_mod.
  - rewrite Nat2Z.inj_succ, Z.pow_succ_r in Hui by lia.
    destruct room as [|room]; [simpl in Hui; lia_mod|].
    destruct (IH (ui / 10) (c :: p)) as (q & Hq & Hv & Hdig & Hlen);
      [split; [apply Z.div_pos; lia|apply Z.div_lt_upper_bound; lia]|lia|].
    exists (q ++ [c]). rewrite <- app_assoc. split_and!.
    + done.
    + intros v. rewrite dec_from_app, Hv. unfold dec_from. simpl.
      rewrite length_app, Nat2Z.inj_add, Z.pow_add_r by lia. simpl.
      pose proof (Z.div_mod ui 10). lia.
    + by rewrite forallb_app, Hdig; simpl; rewrite Hd.
    + rewrite length_app; simpl; lia.
    + rewrite length_app; simpl; lia.
Qed.

Lemma hex_from_app v l1 l2 : hex_from v (l1 ++ l2) = hex_from (hex_from v l1) l2.
Proof. apply fold_left_app. Qed.

Lemma sprintf_hex_correct hex room ui p :
  hex = hex_lower \/ hex = hex_upper ->
  0 <= ui < 16 ^ Z.of_nat room -> (0 < room)%nat ->
  exists q, sprintf_hex hex room ui p = Some (q ++ p)
    /\ (forall v, hex_from v q = v * 16 ^ Z.of_nat (length q) + ui)
    /\ forallb is_hex q = true /\ bytes_ok q /\ (0 < length q <= room)%nat.
Proof.
  intros Hhex. revert ui p. induction room as [|room IH]; intros ui p Hui Hroom; [lia|].
  cbn [sprintf_hex]. set (c := hex_digit hex (u32 (Z.land ui 15))).
  assert (Z.land ui 15 = ui mod 16) as Hland
    by (change 15 with (Z.ones 4); by rewrite Z.land_ones).
  pose proof (Z.mod_pos_bound ui 16 ltac:(lia)).
  destruct (hex_digit_val hex (u32 (Z.land ui 15))) as [Hc Hc8]; [done| |].
  { rewrite u32_small; lia. }
  rewrite u32_small in Hc by lia. rewrite Hland in Hc.
  assert (is_hex c = true) as Hd.
  { unfold is_hex, c. rewrite u32_small, Hland, Hc by lia. done. }
  replace (hex_digit hex (ui mod 16)) with c in Hc
    by (unfold c; rewrite u32_small, Hland by lia; done).
  rewrite (shiftr_div ui 4) by done. change (2 ^ 4) with 16.
  destruct (ui / 16 =? 0) eqn:Hz.
  - exists [c]. split_and!;
      [done| |by simpl; rewrite Hd|by constructor|simpl; lia|simpl; lia].
    intros v. unfold hex_from. simpl. rewrite Hc. simpl. lia_mod.
  - rewrite Nat2Z.inj_succ, Z.pow_succ_r in Hui by lia.
    destruct room as [|room]; [simpl in Hui; lia_mod|].
    destruct (IH (ui / 16) (c :: p)) as (q & Hq & Hv & Hdig & Hq8 & Hlen);
      [split; [apply Z.div_pos; lia|apply Z.div_lt_upper_bound; lia]|lia|].
    exists (q ++ [c]). rewrite <- app_assoc. split_and!.
    + done.
    + intros v. rewrite hex_from_app, Hv. unfold hex_from. simpl. rewrite Hc. simpl.
      rewrite length_app, Nat2Z.inj_add, Z.pow_add_r by lia. simpl.
      pose proof (Z.div_mod ui 16). lia.
    + by rewrite forallb_app, Hdig; simpl; rewrite Hd.
    + apply Forall_app; split; [done|by constructor].
    + rewrite length_app; simpl; lia.
    + rewrite length_app; simpl; lia.
Qed.

(** More room in [temp] changes nothing. *)
Lemma sprintf_hex_room hex room k ui p q :
  sprintf_hex hex room ui p = Some q -> sprintf_hex hex (room + k) ui p = Some q.
Proof.
  revert ui p. induction room as [|room IH]; intros ui p; [done|]. cbn.
  case_match; [done|]. apply IH.
Qed.

Lemma sprintf_pad_correct avail len width zero :
  exists k rest, sprintf_pad avail len width zero = (replicate k zero, rest)
    /\ (k + rest = avail)%nat
    /\ Z.of_nat k = Z.min (Z.max 0 (width - len)) (Z.of_nat avail).
Proof.
  revert len. induction avail as [|avail IH]; intros len; simpl.
  - exists 0%nat, 0%nat. split_and!; [done|done|lia].
  - destruct (len <? width) eqn:Hlt.
    + destruct (IH (len + 1)) as (k & rest & -> & Hk & Hmin).
      exists (S k), rest. split_and!; [done|lia|lia].
    + exists 0%nat, (S avail). split_and!; [done|lia|lia].
Qed.

(** The three digit loops at once: at most 20 characters of [temp] are used. *)
Definition num_digits (ui64 hexadecimal : Z) : option (list Z) :=
  if hexadecimal =? 0 then
    if ui64 <=? NGX_MAX_UINT32_VALUE
    then sprintf_dec NGX_INT64_LEN (u32 ui64) []
    else sprintf_dec NGX_INT64_LEN ui64 []
  else if hexadecimal =? 1
  then sprintf_hex hex_lower NGX_INT64_LEN ui64 []
  else sprintf_hex hex_upper NGX_INT64_LEN ui64 [].

Lemma num_digits_dec ui :
  0 <= ui < 2 ^ 64 ->
  exists q, num_digits ui 0 = Some q /\ dec_from 0 q = ui
    /\ forallb is_digit q = true /\ (0 < length q <= 20)%nat.
Proof.
  intros Hui. destruct (sprintf_dec_correct 20 ui []) as (q & Hq & Hv & Hd & Hl);
    [split; [lia|]; apply Z.lt_trans with (2 ^ 64); [lia|done]|lia|].
  rewrite app_nil_r in Hq. exists q. split_and!; [|by rewrite Hv|done|lia|lia].
  unfold num_digits. simpl (0 =? 0). cbn match.
  unfold NGX_INT64_LEN, NGX_MAX_UINT32_VALUE.
  case_match; [|done]. by rewrite u32_small by lia.
Qed.

Lemma sprintf_dec_more k room : forall ui p l,
  sprintf_dec room ui p = Some l -> sprintf_dec (room + k) ui p = Some l.
Proof.
  induction room as [|room IH]; intros ui p l H; [done|]. cbn [Nat.add sprintf_dec] in *.
  destruct (_ =? 0); [done|]. by apply IH.
Qed.

(** A number below [10 ^ n] has [n] digits at most. *)
Lemma num_digits_short ui n :
  0 <= ui < 10 ^ Z.of_nat n -> (0 < n <= 10)%nat ->
  exists q, num_digits ui 0 = Some q /\ forallb is_digit q = true /\ (length q <= n)%nat.
Proof.
  intros Hui Hn. assert (0 <= ui < 2 ^ 64) as Hw.
  { assert (10 ^ Z.of_nat n <= 10 ^ 10) by (apply Z.pow_le_mono_r; lia). lia. }
  destruct (num_digits_dec ui Hw) as (q' & Hq' & _ & Hd' & _).
  destruct (sprintf_dec_correct n ui []) as (q & Hq & _ & Hd & Hl); [lia|lia|].
  rewrite app_nil_r in Hq. apply (sprintf_dec_more (20 - n)) in Hq. replace (n + (20 - n))%nat with 20%nat in Hq by lia.
  exists q. split_and!; [|done|lia]. unfold num_digits. cbn [Z.eqb]. unfold NGX_INT64_LEN, NGX_MAX_UINT32_VALUE.
  case_match; [|done]. by rewrite u32_small by lia.
Qed.

Lemma num_digits_hex ui h :
  0 <= ui < 2 ^ 64 -> h <> 0 ->
  exists q, num_digits ui h = Some q /\ hex_from 0 q = ui
    /\ forallb is_hex q = true /\ bytes_ok q /\ (0 < length q <= 20)%nat.
Proof.
  intros Hui Hh.
  destruct (sprintf_hex_correct (if h =? 1 then hex_lower else hex_upper) 20 ui [])
    as (q & Hq & Hv & Hd & H8 & Hl);
    [case_match; eauto|split; [lia|]; apply Z.lt_trans with (2 ^ 64); [lia|done]|lia|].
  rewrite app_nil_r in Hq. exists q. split_and!; [|by rewrite Hv|done|done|lia|lia].
  unfold num_digits. replace (h =? 0) with false by lia. by destruct (h =? 1).
Qed.

Lemma ngx_sprintf_num_eq avail ui zero h width q :
  num_digits ui h = Some q ->
  exists k rest, (k + rest = avail)%nat
    /\ Z.of_nat k = Z.min (Z.max 0 (width - Z.of_nat (length q))) (Z.of_nat avail)
    /\ ngx_sprintf_num avail ui zero h width
       = Some (replicate k zero ++ take (Nat.min (length q) rest) q).
Proof.
  intros Hq. unfold ngx_sprintf_num. fold (num_digits ui h). rewrite Hq. simpl.
  destruct (sprintf_pad_correct avail (Z.of_nat (length q)) width zero)
    as (k & rest & -> & Hk & Hmin). eauto.
Qed.

(** [ngx_sprintf_num] is safe for every 64-bit number, width and room: its
    digits always fit in the 20-byte [temp] array, and it never writes past
    [last]; it writes the padded number whole when the room allows it. *)
Theorem ngx_sprintf_num_bounded (avail : nat) (ui64 zero h width : Z)
    (Hui : 0 <= ui64 < 2 ^ 64) :
  exists out, ngx_sprintf_num avail ui64 zero h width = Some out
    /\ (length out <= avail)%nat
    /\ (20 <= Z.of_nat avail -> width <= Z.of_nat avail -> width <= Z.of_nat (length out)).
Proof.
  assert (exists q, num_digits ui64 h = Some q /\ (length q <= 20)%nat) as (q & Hq & Hl).
  { destruct (decide (h = 0)) as [->|Hh].
    - destruct (num_digits_dec ui64) as (q & ? & ? & ? & ?); [done|]. eexists; split; [done|lia].
    - destruct (num_digits_hex ui64 h) as (q & ? & ? & ? & ? & ?); [done..|].
      eexists; split; [done|lia]. }
  destruct (ngx_sprintf_num_eq avail ui64 zero h width q Hq) as (k & rest & Hk & Hmin & ->).
  eexists. split; [done|]. rewrite length_app, length_replicate, length_take. lia.
Qed.

Lemma ngx_sprintf_num_bounded_witness :
  exists out, ngx_sprintf_num 3 (2 ^ 64 - 1) "0"%ch 0 30 = Some out /\ (length out <= 3)%nat.
Proof.
  destruct (ngx_sprintf_num_bounded 3 (2 ^ 64 - 1) "0"%ch 0 30) as (out & H & Hl & _); [lia|].
  exists out. split; [exact H | exact Hl].
Defined.

Lemma forallb_replicate {A} (P : A -> bool) k x :
  P x = true -> forallb P (replicate k x) = true.
Proof. intros Hx. induction k; simpl; [done|]. by rewrite Hx. Qed.

Lemma dec_from_zeros k q : dec_from 0 (replicate k 48 ++ q) = dec_from 0 q.
Proof. induction k; [done|]. by apply IHk. Qed.

Lemma hex_from_zeros k q : hex_from 0 (replicate k 48 ++ q) = hex_from 0 q.
Proof. induction k; [done|]. by apply IHk. Qed.

(** Printing and parsing are inverse: what [ngx_sprintf_num] prints for a
    number of an [ngx_int_t], zero-padded to any width that fits, is read back
    by [ngx_atoi] (decimal) and by [ngx_hextoi] (both hexadecimal forms). *)
Theorem ngx_sprintf_num_roundtrip (avail : nat) (v width : Z)
    (Hv : 0 <= v < 2 ^ 63) (Havail : 20 <= Z.of_nat avail)
    (Hwidth : width <= Z.of_nat avail - 20) :
  (exists out, ngx_sprintf_num avail v "0"%ch 0 width = Some out /\ ngx_atoi out = v)
  /\ forall h, h <> 0 ->
     exists out, ngx_sprintf_num avail v "0"%ch h width = Some out /\ ngx_hextoi out = v.
Proof.
  split.
  - destruct (num_digits_dec v) as (q & Hq & Hval & Hd & Hl); [lia|].
    destruct (ngx_sprintf_num_eq avail v 48 0 width q Hq) as (k & rest & Hk & Hmin & ->).
    eexists. split; [done|]. rewrite take_ge by lia.
    unfold ngx_atoi, ngx_ato.
    destruct (replicate k 48 ++ q) as [|c l] eqn:Hout.
    { apply app_eq_nil in Hout as [_ ->]. simpl in Hl. lia. }
    rewrite <- Hout, ngx_ato_loop_correct by (unfold NGX_MAX_INT_T_VALUE; lia).
    rewrite dec_from_zeros, Hval, forallb_app, Hd, forallb_replicate by done.
    simpl. unfold NGX_MAX_INT_T_VALUE. case_match; [done|lia].
  - intros h Hh.
    destruct (num_digits_hex v h) as (q & Hq & Hval & Hd & H8 & Hl); [lia|done|].
    destruct (ngx_sprintf_num_eq avail v 48 h width q Hq) as (k & rest & Hk & Hmin & ->).
    eexists. split; [done|]. rewrite take_ge by lia.
    unfold ngx_hextoi.
    destruct (replicate k 48 ++ q) as [|c l] eqn:Hout.
    { apply app_eq_nil in Hout as [_ ->]. simpl in Hl. lia. }
    rewrite <- Hout. change (NGX_MAX_INT_T_VALUE / 16) with (2 ^ 59 - 1).
    rewrite ngx_hextoi_loop_correct; [|apply Forall_app; split; [apply Forall_replicate;
      unfold is_u8; lia|done]|lia..].
    rewrite hex_from_zeros, Hval, forallb_app, Hd, forallb_replicate by done.
    simpl. case_match; [done|lia].
Qed.

Lemma ngx_sprintf_num_roundtrip_witness :
  exists out, ngx_sprintf_num 32 1234567890123 "0"%ch 0 12 = Some out
    /\ ngx_atoi out = 1234567890123.
Proof.
  destruct (ngx_sprintf_num_roundtrip 32 1234567890123 12) as [H _]; [lia..|]. exact H.
Defined.
