(* ===== verification/Base64.v ===== *)
(** * Base64: [ngx_encode_base64], [ngx_decode_base64] and the URL variants
    of ngx_string.c.

    A source or destination [ngx_str_t] is the list of its bytes.  The encoder
    writes to [dst] from the start; its result is the list of bytes written,
    whose length is the [dst->len] the code stores at the end. *)

From S2P Require Import Prelude.

(** ** Tables *)

Definition basis64_std : list Z :=
  bs "ABCDEFGHIJKLMNOPQRSTUVWXYZabcdefghijklmnopqrstuvwxyz0123456789+/".
Definition basis64_url : list Z :=
  bs "ABCDEFGHIJKLMNOPQRSTUVWXYZabcdefghijklmnopqrstuvwxyz0123456789-_".

Definition decode64_std : list Z := [
  77; 77; 77; 77; 77; 77; 77; 77; 77; 77; 77; 77; 77; 77; 77; 77;
  77; 77; 77; 77; 77; 77; 77; 77; 77; 77; 77; 77; 77; 77; 77; 77;
  77; 77; 77; 77; 77; 77; 77; 77; 77; 77; 77; 62; 77; 77; 77; 63;
  52; 53; 54; 55; 56; 57; 58; 59; 60; 61; 77; 77; 77; 77; 77; 77;
  77;  0;  1;  2;  3;  4;  5;  6;  7;  8;  9; 10; 11; 12; 13; 14;
  15; 16; 17; 18; 19; 20; 21; 22; 23; 24; 25; 77; 77; 77; 77; 77;
  77; 26; 27; 28; 29; 30; 31; 32; 33; 34; 35; 36; 37; 38; 39; 40;
  41; 42; 43; 44; 45; 46; 47; 48; 49; 50; 51; 77; 77; 77; 77; 77;

  77; 77; 77; 77; 77; 77; 77; 77; 77; 77; 77; 77; 77; 77; 77; 77;
  77; 77; 77; 77; 77; 77; 77; 77; 77; 77; 77; 77; 77; 77; 77; 77;
  77; 77; 77; 77; 77; 77; 77; 77; 77; 77; 77; 77; 77; 77; 77; 77;
  77; 77; 77; 77; 77; 77; 77; 77; 77; 77; 77; 77; 77; 77; 77; 77;
  77; 77; 77; 77; 77; 77; 77; 77; 77; 77; 77; 77; 77; 77; 77; 77;
  77; 77; 77; 77; 77; 77; 77; 77; 77; 77; 77; 77; 77; 77; 77; 77;
  77; 77; 77; 77; 77; 77; 77; 77; 77; 77; 77; 77; 77; 77; 77; 77;
  77; 77; 77; 77; 77; 77; 77; 77; 77; 77; 77; 77; 77; 77; 77; 77 ].

Definition decode64_url : list Z := [
  77; 77; 77; 77; 77; 77; 77; 77; 77; 77; 77; 77; 77; 77; 77; 77;
  77; 77; 77; 77; 77; 77; 77; 77; 77; 77; 77; 77; 77; 77; 77; 77;
  77; 77; 77; 77; 77; 77; 77; 77; 77; 77; 77; 77; 77; 62; 77; 77;
  52; 53; 54; 55; 56; 57; 58; 59; 60; 61; 77; 77; 77; 77; 77; 77;
  77;  0;  1;  2;  3;  4;  5;  6;  7;  8;  9; 10; 11; 12; 13; 14;
  15; 16; 17; 18; 19; 20; 21; 22; 23; 24; 25; 77; 77; 77; 77; 63;
  77; 26; 27; 28; 29; 30; 31; 32; 33; 34; 35; 36; 37; 38; 39; 40;
  41; 42; 43; 44; 45; 46; 47; 48; 49; 50; 51; 77; 77; 77; 77; 77;

  77; 77; 77; 77; 77; 77; 77; 77; 77; 77; 77; 77; 77; 77; 77; 77;
  77; 77; 77; 77; 77; 77; 77; 77; 77; 77; 77; 77; 77; 77; 77; 77;
  77; 77; 77; 77; 77; 77; 77; 77; 77; 77; 77; 77; 77; 77; 77; 77;
  77; 77; 77; 77; 77; 77; 77; 77; 77; 77; 77; 77; 77; 77; 77; 77;
  77; 77; 77; 77; 77; 77; 77; 77; 77; 77; 77; 77; 77; 77; 77; 77;
  77; 77; 77; 77; 77; 77; 77; 77; 77; 77; 77; 77; 77; 77; 77; 77;
  77; 77; 77; 77; 77; 77; 77; 77; 77; 77; 77; 77; 77; 77; 77; 77;
  77; 77; 77; 77; 77; 77; 77; 77; 77; 77; 77; 77; 77; 77; 77; 77 ].

(** [basis[i]]: both tables are indexed within their bounds. *)
Definition basis_at (basis : list Z) (i : Z) : Z := nth (Z.to_nat i) basis 77.

(** ** Encoding *)

(** [while (len > 2)] and the tail of one or two bytes. *)
Fixpoint ngx_encode_base64_internal (basis : list Z) (padding : bool) (s : list Z)
    : list Z :=
  match s with
  | s0 :: s1 :: s2 :: s' =>
      basis_at basis (Z.land (Z.shiftr s0 2) 0x3f)
      :: basis_at basis (Z.lor (Z.shiftl (Z.land s0 3) 4) (Z.shiftr s1 4))
      :: basis_at basis (Z.lor (Z.shiftl (Z.land s1 0x0f) 2) (Z.shiftr s2 6))
      :: basis_at basis (Z.land s2 0x3f)
      :: ngx_encode_base64_internal basis padding s'
  | [] => []
  | [s0] =>
      [basis_at basis (Z.land (Z.shiftr s0 2) 0x3f);
       basis_at basis (Z.shiftl (Z.land s0 3) 4)]
      ++ (if padding then ["="%ch] else [])
      ++ (if padding then ["="%ch] else [])
  | [s0; s1] =>
      [basis_at basis (Z.land (Z.shiftr s0 2) 0x3f);
       basis_at basis (Z.lor (Z.shiftl (Z.land s0 3) 4) (Z.shiftr s1 4));
       basis_at basis (Z.shiftl (Z.land s1 0x0f) 2)]
      ++ (if padding then ["="%ch] else [])
  end.

Definition ngx_encode_base64 (src : list Z) : list Z :=
  ngx_encode_base64_internal basis64_std true src.
Definition ngx_encode_base64url (src : list Z) : list Z :=
  ngx_encode_base64_internal basis64_url false src.

(** ** Decoding *)

(** The scan for the end of the data: [len] on the first "=" or at the end,
    [None] for [return NGX_ERROR] on a byte outside the alphabet. *)
Fixpoint decode64_len (basis : list Z) (src : list Z) : option nat :=
  match src with
  | [] => Some 0%nat
  | c :: src' =>
      if c =? "="%ch then Some 0%nat
      else if basis_at basis c =? 77 then None
      else S <$> decode64_len basis src'
  end.

(** The copy loop [while (len > 3)] and the two tail cases. *)
Fixpoint decode64_copy (basis : list Z) (s : list Z) : list Z :=
  match s with
  | s0 :: s1 :: s2 :: s3 :: s' =>
      u8 (Z.lor (Z.shiftl (basis_at basis s0) 2) (Z.shiftr (basis_at basis s1) 4))
      :: u8 (Z.lor (Z.shiftl (basis_at basis s1) 4) (Z.shiftr (basis_at basis s2) 2))
      :: u8 (Z.lor (Z.shiftl (basis_at basis s2) 6) (basis_at basis s3))
      :: decode64_copy basis s'
  | [s0; s1; s2] =>
      [u8 (Z.lor (Z.shiftl (basis_at basis s0) 2) (Z.shiftr (basis_at basis s1) 4));
       u8 (Z.lor (Z.shiftl (basis_at basis s1) 4) (Z.shiftr (basis_at basis s2) 2))]
  | [s0; s1] =>
      [u8 (Z.lor (Z.shiftl (basis_at basis s0) 2) (Z.shiftr (basis_at basis s1) 4))]
  | _ => []
  end.

(** [None] is [NGX_ERROR]; [Some dst] is [NGX_OK] with the bytes stored. *)
Definition ngx_decode_base64_internal (basis : list Z) (src : list Z)
    : option (list Z) :=
  len ← decode64_len basis src;
  if (len mod 4 =? 1)%nat then None
  else Some (decode64_copy basis (take len src)).

Definition ngx_decode_base64 (src : list Z) : option (list Z) :=
  ngx_decode_base64_internal decode64_std src.
Definition ngx_decode_base64url (src : list Z) : option (list Z) :=
  ngx_decode_base64_internal decode64_url src.

(** The buffer sizes of ngx_string.h: [ngx_base64_encoded_length] and
    [ngx_base64_decoded_length]. *)
Definition ngx_base64_encoded_length (len : Z) : Z := ((len + 2) / 3) * 4.
Definition ngx_base64_decoded_length (len : Z) : Z := ((len + 3) / 4) * 3.

(** ** The alphabet *)

(** What the round trip needs of a pair of tables. *)
Class Alphabet64 (enc dec : list Z) : Prop := {
  alphabet_inverse : forall i, 0 <= i < 64 ->
    basis_at dec (basis_at enc i) = i /\ basis_at enc i <> "="%ch;
  alphabet_values : forall c, 0 <= basis_at dec c < 64 \/ basis_at dec c = 77;
}.

Lemma table_values (t : list Z) (P : Z -> bool) :
  forallb P t = true -> P 77 = true -> forall c, P (basis_at t c) = true.
Proof.
  intros Ht H77 c. unfold basis_at. rewrite forallb_forall in Ht.
  destruct (nth_in_or_default (Z.to_nat c) t 77) as [Hin | ->]; auto.
Qed.

Lemma alphabet64_check (enc dec : list Z) :
  forallb (fun i => (basis_at dec (basis_at enc i) =? i)
                    && negb (basis_at enc i =? "="%ch)) (seqZ 0 64) = true ->
  forallb (fun v => (0 <=? v) && (v <? 64) || (v =? 77)) dec = true ->
  Alphabet64 enc dec.
Proof.
  intros Henc Hdec. constructor.
  - intros i Hi. rewrite forallb_forall in Henc.
    specialize (Henc i). destruct (andb_prop _ _ (Henc ltac:(
      apply list_elem_of_In, elem_of_seqZ; lia))). lia.
  - intros c. pose proof (table_values dec _ Hdec ltac:(done) c) as H. simpl in H. lia.
Qed.

#[export] Instance alphabet_std : Alphabet64 basis64_std decode64_std.
Proof. apply alphabet64_check; vm_compute; reflexivity. Qed.

#[export] Instance alphabet_url : Alphabet64 basis64_url decode64_url.
Proof. apply alphabet64_check; vm_compute; reflexivity. Qed.

(** ** Sextets *)

(** The four sextets of three bytes, arithmetically. *)
Lemma sextets a b c :
  is_u8 a -> is_u8 b -> is_u8 c ->
  Z.land (Z.shiftr a 2) 0x3f = a / 4
  /\ Z.lor (Z.shiftl (Z.land a 3) 4) (Z.shiftr b 4) = a mod 4 * 16 + b / 16
  /\ Z.lor (Z.shiftl (Z.land b 0x0f) 2) (Z.shiftr c 6) = b mod 16 * 4 + c / 64
  /\ Z.land c 0x3f = c mod 64.
Proof.
  unfold is_u8. intros Ha Hb Hc.
  change 0x3f with (Z.ones 6). change 0x0f with (Z.ones 4). change 3 with (Z.ones 2).
  rewrite !Z.land_ones, !shiftr_div by done.
  change (2 ^ 2) with 4. change (2 ^ 4) with 16. change (2 ^ 6) with 64.
  rewrite !lor_shiftl_add by lia_mod. split_and!; lia_mod.
Qed.

(** The three bytes that four sextets give back. *)
Lemma unsextets x y z w :
  0 <= x < 64 -> 0 <= y < 64 -> 0 <= z < 64 -> 0 <= w < 64 ->
  u8 (Z.lor (Z.shiftl x 2) (Z.shiftr y 4)) = (x * 4 + y / 16) mod 256
  /\ u8 (Z.lor (Z.shiftl y 4) (Z.shiftr z 2)) = (y * 16 + z / 4) mod 256
  /\ u8 (Z.lor (Z.shiftl z 6) w) = (z * 64 + w) mod 256.
Proof.
  intros Hx Hy Hz Hw. rewrite !shiftr_div by done.
  rewrite !lor_shiftl_add by lia_mod. done.
Qed.

(** A tail byte is encoded like a byte followed by zeros. *)
Lemma sextet_tail a : Z.shiftl a 4 = Z.lor (Z.shiftl a 4) (Z.shiftr 0 4).
Proof. by rewrite Z.shiftr_0_l, Z.lor_0_r. Qed.

Lemma sextet_tail2 a : Z.shiftl a 2 = Z.lor (Z.shiftl a 2) (Z.shiftr 0 6).
Proof. by rewrite Z.shiftr_0_l, Z.lor_0_r. Qed.

Section RoundTrip.
Context {enc dec : list Z} `{!Alphabet64 enc dec}.

Lemma alphabet_dec i : 0 <= i < 64 -> basis_at dec (basis_at enc i) = i.
Proof. intros. by apply alphabet_inverse. Qed.

Lemma decode64_len_step i l :
  0 <= i < 64 -> decode64_len dec (basis_at enc i :: l) = S <$> decode64_len dec l.
Proof.
  intros Hi. destruct (alphabet_inverse i Hi) as [Hd Hne]. simpl.
  rewrite Hd. replace (basis_at enc i =? 61) with false by lia.
  by replace (i =? 77) with false by lia.
Qed.

(** The data part of the encoding: no padding. *)
Lemma encode64_core s :
  bytes_ok s ->
  decode64_copy dec (ngx_encode_base64_internal enc false s) = s
  /\ (length (ngx_encode_base64_internal enc false s) mod 4 <> 1)%nat
  /\ forall pad, decode64_len dec pad = Some 0%nat ->
     decode64_len dec (ngx_encode_base64_internal enc false s ++ pad)
     = Some (length (ngx_encode_base64_internal enc false s)).
Proof.
  induction s as [|a|a b|a b c l IH] using list_ind3; intros Hs;
    repeat (apply Forall_cons_1 in Hs as [? Hs]);
    cbn [ngx_encode_base64_internal app].
  - done.
  - rewrite sextet_tail.
    destruct (sextets a 0 0) as (-> & -> & _ & _); [done|unfold is_u8; lia..|].
    unfold is_u8 in *. cbn [decode64_copy length].
    rewrite !alphabet_dec by lia_mod.
    destruct (unsextets (a / 4) (a mod 4 * 16 + 0 / 16) 0 0) as (-> & _ & _);
      [lia_mod..|].
    split_and!; [f_equal; lia_mod|done|].
    intros pad Hp. rewrite !decode64_len_step by lia_mod. by rewrite Hp.
  - rewrite sextet_tail2.
    destruct (sextets a b 0) as (-> & -> & -> & _); [done|done|unfold is_u8; lia|].
    unfold is_u8 in *. cbn [decode64_copy length].
    rewrite !alphabet_dec by lia_mod.
    destruct (unsextets (a / 4) (a mod 4 * 16 + b / 16) (b mod 16 * 4 + 0 / 64) 0)
      as (-> & -> & _); [lia_mod..|].
    split_and!; [repeat f_equal; lia_mod|done|].
    intros pad Hp. rewrite !decode64_len_step by lia_mod. by rewrite Hp.
  - destruct (IH Hs) as (IHc & IHl & IHp). clear IH.
    destruct (sextets a b c) as (-> & -> & -> & ->); [done..|].
    unfold is_u8 in *. cbn [decode64_copy length].
    rewrite !alphabet_dec by lia_mod.
    destruct (unsextets (a / 4) (a mod 4 * 16 + b / 16) (b mod 16 * 4 + c / 64)
                (c mod 64)) as (-> & -> & ->); [lia_mod..|].
    split_and!; [rewrite IHc; repeat f_equal; lia_mod| |].
    + replace (S (S (S (S (length (ngx_encode_base64_internal enc false l))))))
        with (length (ngx_encode_base64_internal enc false l) + 1 * 4)%nat by lia.
      by rewrite Nat.Div0.mod_add.
    + intros pad Hp. rewrite !decode64_len_step by lia_mod. by rewrite IHp.
Qed.

Lemma encode64_padded s :
  exists pad, ngx_encode_base64_internal enc true s
              = ngx_encode_base64_internal enc false s ++ pad
              /\ decode64_len dec pad = Some 0%nat.
Proof.
  induction s as [|a|a b|a b c l IH] using list_ind3.
  - by exists [].
  - by exists [61; 61].
  - by exists [61].
  - destruct IH as (pad & Heq & Hp). exists pad. split; [|done].
    cbn [ngx_encode_base64_internal app]. by rewrite Heq.
Qed.

Lemma encode64_decode padding s :
  bytes_ok s ->
  ngx_decode_base64_internal dec (ngx_encode_base64_internal enc padding s) = Some s.
Proof.
  intros Hs. destruct (encode64_core s Hs) as (Hc & Hl & Hp).
  assert (exists pad, ngx_encode_base64_internal enc padding s
            = ngx_encode_base64_internal enc false s ++ pad
            /\ decode64_len dec pad = Some 0%nat) as (pad & -> & Hpad).
  { destruct padding; [apply encode64_padded|]. exists []. by rewrite app_nil_r. }
  unfold ngx_decode_base64_internal. rewrite Hp by done. simpl.
  rewrite (proj2 (Nat.eqb_neq _ 1)) by done. by rewrite take_app_length, Hc.
Qed.
End RoundTrip.

(** C35: base64 round trip: decoding what the encoder wrote gives the source
    bytes back, with the standard alphabet and padding and with the URL
    alphabet and none. *)
Theorem ngx_base64_roundtrip (s : list Z) (Hs : bytes_ok s) :
  ngx_decode_base64 (ngx_encode_base64 s) = Some s
  /\ ngx_decode_base64url (ngx_encode_base64url s) = Some s.
Proof. split; by apply encode64_decode. Qed.

Lemma ngx_base64_roundtrip_witness :
  ngx_decode_base64 (ngx_encode_base64 (bs "light work.")) = Some (bs "light work.").
Proof.
  apply (ngx_base64_roundtrip (bs "light work.")).
  repeat constructor; vm_compute; intuition discriminate.
Defined.

(** ** Buffer bounds *)

Lemma encode64_length_padded enc s :
  Z.of_nat (length (ngx_encode_base64_internal enc true s))
  = ngx_base64_encoded_length (Z.of_nat (length s)).
Proof.
  unfold ngx_base64_encoded_length.
  induction s as [|a|a b|a b c l IH] using list_ind3; [done..|].
  cbn [ngx_encode_base64_internal length]. rewrite !Nat2Z.inj_succ, IH. lia_mod.
Qed.

Lemma encode64_length_le enc padding s :
  Z.of_nat (length (ngx_encode_base64_internal enc padding s))
  <= ngx_base64_encoded_length (Z.of_nat (length s)).
Proof.
  rewrite <- (encode64_length_padded enc). destruct padding; [done|].
  induction s as [|a|a b|a b c l IH] using list_ind3; [simpl; lia..|].
  cbn [ngx_encode_base64_internal length]. lia.
Qed.

Lemma decode64_copy_length dec s :
  Z.of_nat (length (decode64_copy dec s))
  <= ngx_base64_decoded_length (Z.of_nat (length s)).
Proof.
  unfold ngx_base64_decoded_length.
  induction s as [|a|a b|a b c|a b c d l IH] using list_ind4; [simpl; lia_mod..|].
  cbn [decode64_copy length]. rewrite !Nat2Z.inj_succ. lia_mod.
Qed.

Lemma decode64_copy_bytes dec s : bytes_ok (decode64_copy dec s).
Proof.
  induction s as [|a|a b|a b c|a b c d l IH] using list_ind4; cbn [decode64_copy];
    repeat (constructor; [apply u8_range|]); done.
Qed.

Lemma decode64_len_le dec src len :
  decode64_len dec src = Some len -> (len <= length src)%nat.
Proof.
  revert len. induction src as [|c src IH]; intros len; simpl; [intros [= <-]; lia|].
  repeat case_match; [intros [= <-]; lia|done|].
  destruct (decode64_len dec src) as [k|]; [|done]. simpl. intros [= <-].
  specialize (IH k eq_refl). lia.
Qed.

(** base64 buffer bounds: whatever the input, the encoders write at most
    [ngx_base64_encoded_length] bytes (the padded one exactly that many) and the
    decoders at most [ngx_base64_decoded_length], each of them a byte: the
    callers' buffers of these sizes are never overrun. *)
Theorem ngx_base64_bounds (s : list Z) :
  Z.of_nat (length (ngx_encode_base64 s)) = ngx_base64_encoded_length (Z.of_nat (length s))
  /\ Z.of_nat (length (ngx_encode_base64url s))
     <= ngx_base64_encoded_length (Z.of_nat (length s))
  /\ forall dst, ngx_decode_base64 s = Some dst \/ ngx_decode_base64url s = Some dst ->
     Z.of_nat (length dst) <= ngx_base64_decoded_length (Z.of_nat (length s))
     /\ bytes_ok dst.
Proof.
  split; [apply encode64_length_padded|]. split; [apply encode64_length_le|].
  assert (forall dec dst, ngx_decode_base64_internal dec s = Some dst ->
    Z.of_nat (length dst) <= ngx_base64_decoded_length (Z.of_nat (length s))
    /\ bytes_ok dst) as H; [|intros dst [?|?]; eauto].
  intros dec dst. unfold ngx_decode_base64_internal.
  destruct (decode64_len dec s) as [len|] eqn:Hlen; simpl; [|done].
  apply decode64_len_le in Hlen. case_match; [done|]. intros [= <-].
  split; [|apply decode64_copy_bytes]. etrans; [apply decode64_copy_length|].
  rewrite length_take. unfold ngx_base64_decoded_length. lia_mod.
Qed.

(** The part of a text before its first "=". *)
Fixpoint before_eq (src : list Z) : list Z :=
  match src with
  | c :: src' => if c =? "="%ch then [] else c :: before_eq src'
  | [] => []
  end.

Lemma before_eq_take src : take (length (before_eq src)) src = before_eq src.
Proof. induction src as [|c src IH]; [done|]. cbn. case_match; [done|]. cbn. by rewrite IH. Qed.

Lemma decode64_len_correct dec src :
  decode64_len dec src
  = if forallb (fun c => negb (basis_at dec c =? 77)) (before_eq src)
    then Some (length (before_eq src)) else None.
Proof.
  induction src as [|c src IH]; [done|]. simpl.
  destruct (c =? 61); [done|]. simpl. destruct (basis_at dec c =? 77); [done|].
  simpl. rewrite IH. by case_match.
Qed.

(** ** Base64 bit by bit

    The alphabets of RFC 4648 by ranges of characters, and the octets as the bits of the
    data taken eight at a time; bits that do not fill an octet are dropped. *)

Definition sextet (url : bool) (c : Z) : option Z :=
  if (c >=? "A"%ch) && (c <=? "Z"%ch) then Some (c - "A"%ch)
  else if (c >=? "a"%ch) && (c <=? "z"%ch) then Some (c - "a"%ch + 26)
  else if (c >=? "0"%ch) && (c <=? "9"%ch) then Some (c - "0"%ch + 52)
  else if c =? (if url then "-"%ch else "+"%ch) then Some 62
  else if c =? (if url then "_"%ch else "/"%ch) then Some 63
  else None.

(** The six bits of a sextet, the first the highest. *)
Definition bits6 (v : Z) : list bool :=
  [Z.testbit v 5; Z.testbit v 4; Z.testbit v 3; Z.testbit v 2; Z.testbit v 1; Z.testbit v 0].

Definition of_bits (l : list bool) : Z := fold_left (fun v b => 2 * v + Z.b2z b) l 0.

Fixpoint octets (l : list bool) : list Z :=
  match l with
  | b7 :: b6 :: b5 :: b4 :: b3 :: b2 :: b1 :: b0 :: l' =>
      of_bits [b7; b6; b5; b4; b3; b2; b1; b0] :: octets l'
  | _ => []
  end.

(** The contents of a text: its data are the characters before the first "=". *)
Definition base64_contents (url : bool) (src : list Z) : option (list Z) :=
  vals ← mapM (sextet url) (before_eq src);
  if (length vals mod 4 =? 1)%nat then None else Some (octets (concat (map bits6 vals))).

Example contents_light : base64_contents false (bs "bGlnaHQ=!") = Some (bs "light").
Proof. reflexivity. Qed.

(** The tables agree with the ranges. *)
Lemma decode64_sextet (url : bool) c :
  basis_at (if url then decode64_url else decode64_std) c = default 77 (sextet url c).
Proof.
  destruct (decide (0 <= c < 256)) as [Hc|Hc].
  - apply Z.eqb_eq. revert c Hc. apply (forall_u8 (fun c =>
      basis_at (if url then decode64_url else decode64_std) c =? default 77 (sextet url c))).
    by destruct url; vm_compute.
  - assert (sextet url c = None) as -> by (unfold sextet; destruct url; repeat case_match; (done || lia)).
    unfold basis_at. destruct (decide (c < 0)) as [Hneg|Hbig].
    + rewrite Z2Nat.nonpos by lia. by destruct url.
    + apply nth_overflow. by destruct url; vm_compute (length _); lia.
Qed.

Lemma sextet_range url c v : sextet url c = Some v -> 0 <= v < 64.
Proof. unfold sextet. repeat case_match; intros; simplify_eq; lia. Qed.

Lemma mapM_sextet (url : bool) (l : list Z) :
  let dec := if url then decode64_url else decode64_std in
  mapM (sextet url) l
  = if forallb (fun c => negb (basis_at dec c =? 77)) l then Some (map (basis_at dec) l) else None.
Proof.
  intros dec. induction l as [|c l IH]; [done|]. cbn [mapM forallb map]. rewrite IH.
  unfold dec. rewrite decode64_sextet. destruct (sextet url c) as [v|] eqn:Hv; [|done].
  apply sextet_range in Hv. change (default 77 (Some v)) with v. test_false (v =? 77). cbn [negb andb].
  match goal with |- context [if ?b then Some _ else None] => destruct b end; reflexivity.
Qed.

(** The octets of two sextets, by enumeration. *)
Lemma forall_sextets (P : Z -> Z -> bool) :
  forallb (fun x => forallb (P x) (seqZ 0 64)) (seqZ 0 64) = true ->
  forall x y, 0 <= x < 64 -> 0 <= y < 64 -> P x y = true.
Proof.
  intros H x y Hx Hy. rewrite forallb_forall in H.
  specialize (H x ltac:(apply list_elem_of_In, elem_of_seqZ; lia)). rewrite forallb_forall in H.
  apply H. apply list_elem_of_In, elem_of_seqZ. lia.
Qed.

Lemma octet_bits x y : 0 <= x < 64 -> 0 <= y < 64 ->
  of_bits (bits6 x ++ take 2 (bits6 y)) = u8 (Z.lor (Z.shiftl x 2) (Z.shiftr y 4))
  /\ of_bits (drop 2 (bits6 x) ++ take 4 (bits6 y)) = u8 (Z.lor (Z.shiftl x 4) (Z.shiftr y 2))
  /\ of_bits (drop 4 (bits6 x) ++ bits6 y) = u8 (Z.lor (Z.shiftl x 6) y).
Proof.
  intros Hx Hy. rewrite <- !Z.eqb_eq, <- !andb_true_iff. revert x y Hx Hy.
  refine (forall_sextets (fun x y => (of_bits (bits6 x ++ take 2 (bits6 y)) =? _)
    && ((of_bits (drop 2 (bits6 x) ++ take 4 (bits6 y)) =? _) && (_ =? _))) _).
  by vm_compute.
Qed.

Lemma decode64_copy_bits dec (l : list Z) :
  Forall (fun c => 0 <= basis_at dec c < 64) l ->
  decode64_copy dec l = octets (concat (map bits6 (map (basis_at dec) l))).
Proof.
  induction l as [|a|a b|a b c|a b c d l IH] using list_ind4; intros Hl;
    repeat (apply Forall_cons_1 in Hl as [? Hl]); cbn [decode64_copy map concat]; [done|done|..].
  - by rewrite <- (proj1 (octet_bits (basis_at dec a) (basis_at dec b) ltac:(done) ltac:(done))).
  - rewrite <- (proj1 (octet_bits (basis_at dec a) (basis_at dec b) ltac:(done) ltac:(done))).
    by rewrite <- (proj1 (proj2 (octet_bits (basis_at dec b) (basis_at dec c) ltac:(done) ltac:(done)))).
  - rewrite <- (proj1 (octet_bits (basis_at dec a) (basis_at dec b) ltac:(done) ltac:(done))).
    rewrite <- (proj1 (proj2 (octet_bits (basis_at dec b) (basis_at dec c) ltac:(done) ltac:(done)))).
    rewrite <- (proj2 (proj2 (octet_bits (basis_at dec c) (basis_at dec d) ltac:(done) ltac:(done)))).
    by rewrite IH.
Qed.

(** C36: the base64 decoders compute the base64 of RFC 4648, with either alphabet, on any
    text: they refuse exactly the texts whose data, the characters before the first "=",
    hold one outside the alphabet or leave one over when taken by four; and otherwise the
    result is the bits of the data, six of each character, taken eight at a time.  What
    follows the first "=" is never looked at, and bits that are left over are dropped. *)
Theorem ngx_decode_base64_correct (src : list Z) :
  ngx_decode_base64 src = base64_contents false src
  /\ ngx_decode_base64url src = base64_contents true src.
Proof.
  assert (forall url : bool, ngx_decode_base64_internal (if url then decode64_url else decode64_std) src
    = base64_contents url src) as H; [|split; [apply (H false)|apply (H true)]].
  intros url. unfold ngx_decode_base64_internal, base64_contents.
  rewrite decode64_len_correct, mapM_sextet. cbv zeta.
  set (dec := if url then decode64_url else decode64_std).
  destruct (forallb _ _) eqn:Hall; [|done]. cbn [mbind option_bind]. rewrite length_map.
  case_match; [done|]. f_equal. rewrite before_eq_take. apply decode64_copy_bits.
  rewrite forallb_forall in Hall. apply list.Forall_forall. intros c Hc.
  specialize (Hall c ltac:(by apply list_elem_of_In)). revert Hall. unfold dec. rewrite decode64_sextet.
  destruct (sextet url c) as [v|] eqn:Hv; [|done]. intros _. by apply sextet_range in Hv.
Qed.
