(* ===== verification/Utf8.v ===== *)
(** * Utf8: [ngx_utf8_decode], [ngx_utf8_length] and [ngx_utf8_cpystrn] of
    ngx_string.c.

    [u_char **p] is the memory from [*p] on, as a list; the functions return
    how far they moved [*p].  A read outside the list is [None]. *)

From S2P Require Import Prelude.

(** ** Decoding *)

(** The branch on the first byte: [u], [valid] and [len]; [None] is the
    branch that returns 0xffffffff. *)
Definition utf8_lead (u : Z) : option (Z * Z * nat) :=
  if u >=? 0xf0 then Some (Z.land u 0x07, 0xffff, 3%nat)
  else if u >=? 0xe0 then Some (Z.land u 0x0f, 0x7ff, 2%nat)
  else if u >=? 0xc2 then Some (Z.land u 0x1f, 0x7f, 1%nat)
  else None.

(** [while (len)], from the offset [adv] of [p], and the final test. *)
Fixpoint utf8_cont (s : list Z) (adv len : nat) (u valid : Z) : option (Z * nat) :=
  match len with
  | O => if u >? valid then Some (u, adv) else Some (0xffffffff, adv)
  | S len' =>
      i ← s !! adv;
      if i <? 0x80 then Some (0xffffffff, S adv)
      else utf8_cont s (S adv) len' (u32 (Z.lor (Z.shiftl u 6) (Z.land i 0x3f))) valid
  end.

(** The value and the number of bytes [*p] moved. *)
Definition ngx_utf8_decode (s : list Z) (n : Z) : option (Z * nat) :=
  u ← s !! 0%nat;
  match utf8_lead u with
  | None => Some (0xffffffff, 1%nat)
  | Some (u, valid, len) =>
      if u64 (n - 1) <? Z.of_nat len then Some (0xfffffffe, 0%nat)
      else utf8_cont s 1 len u valid
  end.

(** ** Counting characters *)

(** [for (len = 0; p < last; len++)] with [s] the memory from [p] to [last]
    and [n] the length of the whole text.  A decoded character moves [p], so
    fuel [length s] is enough. *)
Fixpoint utf8_length_loop (fuel : nat) (s : list Z) (len n : Z) : option Z :=
  match s with
  | [] => Some len
  | c :: s' =>
      match fuel with
      | O => None
      | S fuel' =>
          if c <? 0x80 then utf8_length_loop fuel' s' (len + 1) n
          else
            '(v, adv) ← ngx_utf8_decode s (Z.of_nat (length s));
            if v >? 0x10ffff then Some n
            else utf8_length_loop fuel' (drop adv s) (len + 1) n
      end
  end.

Definition ngx_utf8_length (s : list Z) : option Z :=
  utf8_length_loop (length s) s 0 (Z.of_nat (length s)).

(** ** Copying characters *)

(** [while (--n)] with [k] iterations left; the result is what is written to
    [dst], its final zero included. *)
Fixpoint utf8_cpystrn_loop (k : nat) (src : list Z) (len : Z) : option (list Z) :=
  match k with
  | O => Some [0]
  | S k' =>
      c ← src !! 0%nat;
      if c <? 0x80 then
        if negb (c =? 0) then
          out ← utf8_cpystrn_loop k' (drop 1 src) (u64 (len - 1));
          Some (c :: out)
        else Some [0]
      else
        '(v, next) ← ngx_utf8_decode src len;
        if v >? 0x10ffff then Some [0]
        else
          out ← utf8_cpystrn_loop k' (drop next src) (u64 (len - Z.of_nat next));
          Some (take next src ++ out)
  end.

Definition ngx_utf8_cpystrn (src : list Z) (n : nat) (len : Z) : option (list Z) :=
  match n with
  | O => Some []
  | S k => utf8_cpystrn_loop k src len
  end.

(** ** The Unicode encoding form, as the reference *)

Definition utf8_encode (cp : Z) : list Z :=
  if cp <? 0x80 then [cp]
  else if cp <? 0x800 then [0xc0 + cp / 64; 0x80 + cp mod 64]
  else if cp <? 0x10000 then
    [0xe0 + cp / 4096; 0x80 + cp / 64 mod 64; 0x80 + cp mod 64]
  else
    [0xf0 + cp / 262144; 0x80 + cp / 4096 mod 64; 0x80 + cp / 64 mod 64;
     0x80 + cp mod 64].

Definition is_codepoint (cp : Z) : Prop := 0 <= cp <= 0x10ffff.

(** One continuation byte: six more bits. *)
Lemma cont_step u i :
  0 <= u < 2 ^ 26 -> 0x80 <= i ->
  u32 (Z.lor (Z.shiftl u 6) (Z.land i 0x3f)) = u * 64 + i mod 64.
Proof.
  intros Hu Hi. change 0x3f with (Z.ones 6). rewrite Z.land_ones by done.
  rewrite lor_shiftl_add by lia_mod. rewrite u32_small; lia_mod.
Qed.

Lemma lead_small u k m :
  0 <= k -> m = 2 ^ k - 1 -> Z.land u m = u mod 2 ^ k.
Proof.
  intros Hk ->. replace (2 ^ k - 1) with (Z.ones k) by (rewrite Z.ones_equiv; lia).
  by apply Z.land_ones.
Qed.

Lemma utf8_cont_step s adv len u valid i :
  s !! adv = Some i -> 0x80 <= i -> 0 <= u < 2 ^ 26 ->
  utf8_cont s adv (S len) u valid = utf8_cont s (S adv) len (u * 64 + i mod 64) valid.
Proof.
  intros Hi Hge Hu. cbn [utf8_cont]. rewrite Hi. cbn [mbind option_bind].
  replace (i <? 128) with false by lia. by rewrite cont_step.
Qed.

(** ** Decoding inverts the encoding *)

Lemma utf8_decode_encode cp rest n :
  0x80 <= cp <= 0x10ffff ->
  Z.of_nat (length (utf8_encode cp)) <= n < 2 ^ 64 ->
  ngx_utf8_decode (utf8_encode cp ++ rest) n
  = Some (cp, length (utf8_encode cp)).
Proof.
  intros Hcp. unfold utf8_encode. replace (cp <? 128) with false by lia.
  destruct (cp <? 2048) eqn:H2; [|destruct (cp <? 65536) eqn:H3];
    intros Hn; cbn [length] in Hn; unfold ngx_utf8_decode;
    cbn [app lookup list_lookup mbind option_bind length]; unfold utf8_lead.
  - replace (192 + cp / 64 >=? 240) with false by lia_mod.
    replace (192 + cp / 64 >=? 224) with false by lia_mod.
    replace (192 + cp / 64 >=? 194) with true by lia_mod.
    rewrite (lead_small _ 5 31) by done. rewrite u64_small by lia.
    test_false (n - 1 <? Z.of_nat 1).
    erewrite utf8_cont_step; [|reflexivity|lia_mod|lia_mod]. cbn [utf8_cont].
    replace ((192 + cp / 64) mod 2 ^ 5 * 64 + (128 + cp mod 64) mod 64) with cp by lia_mod.
    by replace (cp >? 127) with true by lia.
  - replace (224 + cp / 4096 >=? 240) with false by lia_mod.
    replace (224 + cp / 4096 >=? 224) with true by lia_mod.
    rewrite (lead_small _ 4 15) by done. rewrite u64_small by lia.
    test_false (n - 1 <? Z.of_nat 2).
    do 2 (erewrite utf8_cont_step; [|reflexivity|lia_mod|lia_mod]). cbn [utf8_cont].
    replace (((224 + cp / 4096) mod 2 ^ 4 * 64 + (128 + cp / 64 mod 64) mod 64) * 64
             + (128 + cp mod 64) mod 64) with cp by lia_mod.
    by replace (cp >? 2047) with true by lia.
  - replace (240 + cp / 262144 >=? 240) with true by lia_mod.
    rewrite (lead_small _ 3 7) by done. rewrite u64_small by lia.
    test_false (n - 1 <? Z.of_nat 3).
    do 3 (erewrite utf8_cont_step; [|reflexivity|lia_mod|lia_mod]). cbn [utf8_cont].
    replace ((((240 + cp / 262144) mod 2 ^ 3 * 64 + (128 + cp / 4096 mod 64) mod 64) * 64
              + (128 + cp / 64 mod 64) mod 64) * 64 + (128 + cp mod 64) mod 64)
      with cp by lia_mod.
    by replace (cp >? 65535) with true by lia.
Qed.



(** ** Arbitrary bytes *)

Lemma utf8_cont_safe s adv len u valid :
  (adv + len <= length s)%nat -> 0 <= u ->
  exists v adv', utf8_cont s adv len u valid = Some (v, adv')
    /\ (adv' <= adv + len)%nat
    /\ (v = 0xffffffff \/ (adv' = adv + len)%nat /\ valid < v).
Proof.
  revert adv u. induction len as [|len IH]; intros adv u Hlen Hu; cbn [utf8_cont].
  - destruct (u >? valid) eqn:Hv; eexists _, _; (split; [done|]); (split; [lia|]); [|by left].
    right. split; [lia|]. lia.
  - destruct (lookup_lt_is_Some_2 s adv) as [i Hi]; [lia|]. rewrite Hi.
    cbn [mbind option_bind]. case_match.
    + eexists _, _. split; [done|]. split; [lia|by left].
    + destruct (IH (S adv) (u32 (Z.lor (Z.shiftl u 6) (Z.land i 63))))
        as (v & adv' & Heq & Hadv & Hv); [lia|apply Z.mod_pos_bound; lia|].
      exists v, adv'. split; [done|]. split; [lia|]. destruct Hv as [|[-> ?]]; [by left|].
      right. split; [lia|done].
Qed.

(** The least code point whose encoding has [k] bytes, less one. *)
Definition utf8_floor (k : nat) : Z :=
  match k with 2%nat => 0x7f | 3%nat => 0x7ff | _ => 0xffff end.

Lemma utf8_decode_safe s :
  bytes_ok s -> s <> [] -> Z.of_nat (length s) < 2 ^ 64 ->
  exists v adv, ngx_utf8_decode s (Z.of_nat (length s)) = Some (v, adv)
    /\ (adv <= length s)%nat
    /\ (v <= 0x10ffff -> (2 <= adv <= 4)%nat /\ utf8_floor adv < v).
Proof.
  intros Hs Hne Hlen. destruct s as [|b s]; [done|]. apply Forall_cons_1 in Hs as [Hb Hs].
  unfold ngx_utf8_decode. cbn [lookup list_lookup mbind option_bind].
  assert (forall m, 0 <= m -> 0 <= Z.land b m) as Hland
    by (intros; apply Z.land_nonneg; unfold is_u8 in Hb; lia).
  destruct (utf8_lead b) as [[[u valid] len]|] eqn:Hlead.
  - assert (0 <= u /\ (1 <= len <= 3)%nat /\ valid = utf8_floor (S len)) as (Hu & Hl & Hval).
    { unfold utf8_lead in Hlead.
      repeat case_match; simplify_eq; (split; [apply Hland; lia|]); (split; [lia|done]). }
    case_match eqn:Hn; [eexists _, _; split; [done|]; split; [lia|lia]|].
    rewrite u64_small in Hn by (cbn [length] in *; lia). apply Z.ltb_ge in Hn.
    destruct (utf8_cont_safe (b :: s) 1 len u valid) as (v & adv & -> & Hadv & Hv);
      [cbn [length] in *; lia|done|].
    exists v, adv. split; [done|]. cbn [length] in *. split; [lia|].
    intros Hmax. destruct Hv as [->|[-> ?]]; [lia|]. split; [lia|].
    change (utf8_floor (S len) < v). by rewrite <- Hval.
  - eexists _, _. split; [done|]. cbn [length]. split; [lia|lia].
Qed.

(** On any nonempty bytes the decoder reads and moves inside the text only,
    and when it reports a character, the character used two to four bytes and
    is too large for a shorter form: overlong sequences are never accepted. *)
Theorem ngx_utf8_decode_safe (s : list Z)
    (Hs : bytes_ok s) (Hne : s <> []) (Hlen : Z.of_nat (length s) < 2 ^ 64) :
  exists v adv, ngx_utf8_decode s (Z.of_nat (length s)) = Some (v, adv)
    /\ (adv <= length s)%nat
    /\ (v <= 0x10ffff -> (2 <= adv <= 4)%nat /\ utf8_floor adv < v).
Proof. by apply utf8_decode_safe. Qed.

Lemma ngx_utf8_decode_safe_witness :
  exists v adv, ngx_utf8_decode [0xe0; 0x80; 0xaf] 3 = Some (v, adv) /\ (adv <= 3)%nat.
Proof.
  destruct (ngx_utf8_decode_safe [0xe0; 0x80; 0xaf]) as (v & adv & H & Hle & _);
    [repeat constructor; vm_compute; intuition discriminate | discriminate | reflexivity |].
  exists v, adv. split; [exact H | exact Hle].
Defined.

(** The decoder is more lenient than UTF-8: a first byte above 0xf7 counts as a
    four-byte lead, and any byte from 0x80 on as a continuation. *)
Lemma ngx_utf8_decode_lenient :
  ngx_utf8_decode [0xf8; 0x90; 0x80; 0x80] 4 = Some (0x10000, 4%nat)
  /\ [0xf8; 0x90; 0x80; 0x80] <> utf8_encode 0x10000
  /\ ngx_utf8_decode [0xc3; 0xff] 2 = Some (0xff, 2%nat)
  /\ [0xc3; 0xff] <> utf8_encode 0xff.
Proof. vm_compute. split_and!; (reflexivity || discriminate). Qed.

(** ** Counting and copying whole characters *)

Definition utf8_text (cps : list Z) : list Z := flat_map utf8_encode cps.

Lemma utf8_encode_length cp : (1 <= length (utf8_encode cp) <= 4)%nat.
Proof. unfold utf8_encode. repeat case_match; simpl; lia. Qed.

(** The first byte tells the one-byte characters apart. *)
Lemma utf8_encode_lead cp :
  is_codepoint cp ->
  exists b t, utf8_encode cp = b :: t /\ (b <? 0x80) = (cp <? 0x80)
    /\ (cp < 0x80 -> b = cp /\ t = []).
Proof.
  unfold is_codepoint. intros Hcp. unfold utf8_encode.
  destruct (cp <? 128) eqn:H1; [|destruct (cp <? 2048) eqn:H2;
    [|destruct (cp <? 65536) eqn:H3]];
    (eexists _, _; split; [reflexivity|]; split; [apply eq_true_iff_eq; lia_mod|]; intros; first [done|lia]).
Qed.

Lemma utf8_length_loop_text cps : forall fuel len n,
  Forall is_codepoint cps -> (length (utf8_text cps) <= fuel)%nat ->
  Z.of_nat (length (utf8_text cps)) < 2 ^ 64 ->
  utf8_length_loop fuel (utf8_text cps) len n = Some (len + Z.of_nat (length cps)).
Proof.
  induction cps as [|cp cps IH]; intros fuel len n Hcps Hfuel Hmax.
  { destruct fuel; simpl; by rewrite Z.add_0_r. }
  apply Forall_cons_1 in Hcps as [Hcp Hcps].
  destruct (utf8_encode_lead cp Hcp) as (b & t & Henc & Hb & Hasc).
  assert (utf8_text (cp :: cps) = b :: t ++ utf8_text cps) as Htext
    by (unfold utf8_text; simpl; by rewrite Henc).
  rewrite Htext in Hfuel, Hmax |- *. cbn [length] in *. rewrite length_app in Hfuel, Hmax.
  destruct fuel as [|fuel]; [simpl in Hfuel; lia|]. cbn [utf8_length_loop]. rewrite Hb.
  destruct (cp <? 128) eqn:Hsmall.
  - destruct Hasc as [-> ->]; [lia|]. simpl app. rewrite IH by (done || simpl in *; lia).
    f_equal. lia.
  - change (b :: t ++ utf8_text cps) with ((b :: t) ++ utf8_text cps). rewrite <- Henc.
    rewrite utf8_decode_encode; [|unfold is_codepoint in Hcp; lia|].
    2:{ rewrite length_app, Henc. simpl. lia. }
    cbn [mbind option_bind]. unfold is_codepoint in Hcp.
    test_false (cp >? 1114111). rewrite drop_app_length.
    rewrite IH by (done || (simpl in *; lia)). f_equal. lia.
Qed.

(** [ngx_utf8_length] counts characters: on the UTF-8 text of any sequence
    of code points it returns the number of code points. *)
Theorem ngx_utf8_length_text (cps : list Z)
    (Hcps : Forall is_codepoint cps) (Hlen : Z.of_nat (length (utf8_text cps)) < 2 ^ 64) :
  ngx_utf8_length (utf8_text cps) = Some (Z.of_nat (length cps)).
Proof. unfold ngx_utf8_length. by rewrite utf8_length_loop_text by (done || lia). Qed.

Lemma ngx_utf8_length_text_witness :
  ngx_utf8_length [65; 0xe2; 0x82; 0xac; 0xc3; 0xa9] = Some 3.
Proof.
  apply (ngx_utf8_length_text [65; 0x20ac; 0xe9]);
    [repeat constructor; vm_compute; intuition discriminate | reflexivity].
Defined.

Lemma utf8_cpystrn_loop_text cps : forall k rest len,
  Forall (fun cp => is_codepoint cp /\ cp <> 0) cps ->
  Z.of_nat (length (utf8_text cps)) <= len < 2 ^ 64 ->
  utf8_cpystrn_loop k (utf8_text cps ++ 0 :: rest) len
  = Some (utf8_text (take k cps) ++ [0]).
Proof.
  induction cps as [|cp cps IH]; intros k rest len Hcps Hlen.
  { destruct k; [done|]. reflexivity. }
  destruct k as [|k]; [done|].
  apply Forall_cons_1 in Hcps as [[Hcp Hnz] Hcps].
  destruct (utf8_encode_lead cp Hcp) as (b & t & Henc & Hb & Hasc).
  assert (utf8_text (cp :: cps) = utf8_encode cp ++ utf8_text cps) as Htext by done.
  rewrite Htext in Hlen |- *. rewrite length_app in Hlen. rewrite <- app_assoc.
  cbn [utf8_cpystrn_loop take]. rewrite Henc at 1.
  cbn [app lookup list_lookup mbind option_bind]. rewrite Hb.
  destruct (cp <? 128) eqn:Hsmall.
  - destruct Hasc as [-> ->]; [lia|]. rewrite Henc in *. simpl in Hlen.
    test_false (cp =? 0). cbn [negb app].
    change (drop 1 (cp :: utf8_text cps ++ 0 :: rest)) with (utf8_text cps ++ 0 :: rest).
    rewrite u64_small by lia. rewrite IH by (done || lia). simpl.
    unfold utf8_text. simpl. by rewrite Henc.
  - rewrite utf8_decode_encode by (unfold is_codepoint in Hcp; lia).
    cbn [mbind option_bind]. unfold is_codepoint in Hcp. test_false (cp >? 1114111).
    rewrite drop_app_length, take_app_length.
    rewrite u64_small by lia. rewrite IH by (done || lia). simpl.
    unfold utf8_text. simpl. by rewrite app_assoc.
Qed.

(** [ngx_utf8_cpystrn] copies whole characters: given room for [n]
    characters it writes exactly the UTF-8 text of the first [n - 1] of the
    string (all of them when there are fewer) and the terminating zero; no
    character is ever split. *)
Theorem ngx_utf8_cpystrn_text (cps rest : list Z) (n : nat) (len : Z)
    (Hcps : Forall (fun cp => is_codepoint cp /\ cp <> 0) cps) (Hn : (0 < n)%nat)
    (Hlen : Z.of_nat (length (utf8_text cps)) <= len < 2 ^ 64) :
  ngx_utf8_cpystrn (utf8_text cps ++ 0 :: rest) n len
  = Some (utf8_text (take (n - 1) cps) ++ [0]).
Proof.
  destruct n as [|k]; [lia|]. simpl. rewrite Nat.sub_0_r.
  by apply utf8_cpystrn_loop_text.
Qed.

Lemma ngx_utf8_cpystrn_text_witness :
  ngx_utf8_cpystrn ([65; 0xe2; 0x82; 0xac; 0xc3; 0xa9] ++ 0 :: []) 3 6
  = Some ([65; 0xe2; 0x82; 0xac] ++ [0]).
Proof.
  apply (ngx_utf8_cpystrn_text [65; 0x20ac; 0xe9] [] 3 6);
    [repeat constructor; vm_compute; intuition discriminate | lia
    | split; [vm_compute; discriminate | reflexivity]].
Defined.
