(* ===== verification/Escape.v ===== *)
(** * Escape: [ngx_escape_uri], [ngx_unescape_uri], [ngx_escape_html] and
    [ngx_escape_json] of ngx_string.c.

    Each escaping function of the code is two functions in one: with
    [dst == NULL] it sizes the output, otherwise it writes it.  The model has a
    definition for each of the two, the written bytes as a list. *)

From S2P Require Import Prelude.

(** ** Escaping a URI *)

(** The escape types, [NGX_ESCAPE_URI] to [NGX_ESCAPE_MAIL_AUTH]. *)
Inductive escape_type :=
  | ESCAPE_URI | ESCAPE_ARGS | ESCAPE_URI_COMPONENT | ESCAPE_HTML
  | ESCAPE_REFRESH | ESCAPE_MEMCACHED | ESCAPE_MAIL_AUTH.

Definition uri : list Z := [
  0xffffffff; 0xd000002d; 0x50000000; 0xb8000001;
  0xffffffff; 0xffffffff; 0xffffffff; 0xffffffff ].

Definition args : list Z := [
  0xffffffff; 0xd800086d; 0x50000000; 0xb8000001;
  0xffffffff; 0xffffffff; 0xffffffff; 0xffffffff ].

Definition uri_component : list Z := [
  0xffffffff; 0xfc009fff; 0x78000001; 0xb8000001;
  0xffffffff; 0xffffffff; 0xffffffff; 0xffffffff ].

Definition html : list Z := [
  0xffffffff; 0x500000ad; 0x50000000; 0xb8000001;
  0xffffffff; 0xffffffff; 0xffffffff; 0xffffffff ].

Definition refresh : list Z := [
  0xffffffff; 0x50000085; 0x50000000; 0xd8000001;
  0xffffffff; 0xffffffff; 0xffffffff; 0xffffffff ].

Definition memcached : list Z := [
  0xffffffff; 0x00000021; 0x00000000; 0x00000000;
  0x00000000; 0x00000000; 0x00000000; 0x00000000 ].

(** [static uint32_t *map[]]. *)
Definition escape_map (type : escape_type) : list Z :=
  match type with
  | ESCAPE_URI => uri
  | ESCAPE_ARGS => args
  | ESCAPE_URI_COMPONENT => uri_component
  | ESCAPE_HTML => html
  | ESCAPE_REFRESH => refresh
  | ESCAPE_MEMCACHED => memcached
  | ESCAPE_MAIL_AUTH => memcached
  end.

(** [escape[c >> 5] & (1U << (c & 0x1f))]. *)
Definition escaped (escape : list Z) (c : Z) : bool :=
  negb (Z.land (nth (Z.to_nat (Z.shiftr c 5)) escape 0)
               (Z.shiftl 1 (Z.land c 0x1f)) =? 0).

(** [dst == NULL]: the number of the characters to be escaped. *)
Fixpoint escape_uri_count (escape : list Z) (src : list Z) : Z :=
  match src with
  | [] => 0
  | c :: src' =>
      if escaped escape c then 1 + escape_uri_count escape src'
      else escape_uri_count escape src'
  end.

Definition hex_upper_digit (i : Z) : Z := nth (Z.to_nat i) (bs "0123456789ABCDEF") 0.

Fixpoint escape_uri_write (escape : list Z) (src : list Z) : list Z :=
  match src with
  | [] => []
  | c :: src' =>
      if escaped escape c then
        "%"%ch :: hex_upper_digit (Z.shiftr c 4) :: hex_upper_digit (Z.land c 0xf)
        :: escape_uri_write escape src'
      else c :: escape_uri_write escape src'
  end.

Definition ngx_escape_uri_len (src : list Z) (type : escape_type) : Z :=
  escape_uri_count (escape_map type) src.
Definition ngx_escape_uri (src : list Z) (type : escape_type) : list Z :=
  escape_uri_write (escape_map type) src.

(** ** Unescaping a URI *)

Module Unescape.

Inductive state := sw_usual | sw_quoted | sw_quoted_second.

Definition NGX_UNESCAPE_URI : Z := 1.
Definition NGX_UNESCAPE_REDIRECT : Z := 2.

Definition has (type flag : Z) : bool := negb (Z.land type flag =? 0).

(** [*d++ = c] for each [c] of [out], before what is written next. *)
Definition emit (out : list Z) (next : list Z * list Z) : list Z * list Z :=
  (out ++ next.1, next.2).

(** The loop [while (size--)]: [src] is the memory at [s] and [prev] is
    [*(s - 1)] before the next byte is read.  The result is what is written
    from [d] on and the source left over when the loop is left by
    [goto done]. *)
Fixpoint loop (type : Z) (st : state) (decoded prev : Z) (src : list Z)
    : list Z * list Z :=
  match src with
  | [] => ([], [])
  | ch :: src' =>
      match st with
      | sw_usual =>
          if (ch =? "?"%ch) && has type (Z.lor NGX_UNESCAPE_URI NGX_UNESCAPE_REDIRECT)
          then ([ch], src')
          else if ch =? "%"%ch then loop type sw_quoted decoded ch src'
          else emit [ch] (loop type sw_usual decoded ch src')
      | sw_quoted =>
          if (ch >=? "0"%ch) && (ch <=? "9"%ch) then
            loop type sw_quoted_second (u8 (ch - "0"%ch)) ch src'
          else
            let c := u8 (Z.lor ch 0x20) in
            if (c >=? "a"%ch) && (c <=? "f"%ch) then
              loop type sw_quoted_second (u8 (c - "a"%ch + 10)) ch src'
            else emit [ch] (loop type sw_usual decoded ch src')
      | sw_quoted_second =>
          if (ch >=? "0"%ch) && (ch <=? "9"%ch) then
            let ch' := u8 (Z.shiftl decoded 4 + (ch - "0"%ch)) in
            if has type NGX_UNESCAPE_REDIRECT then
              if (ch' >? "%"%ch) && (ch' <? 0x7f) then
                emit [ch'] (loop type sw_usual decoded ch src')
              else emit ["%"%ch; prev; ch] (loop type sw_usual decoded ch src')
            else emit [ch'] (loop type sw_usual decoded ch src')
          else
            let c := u8 (Z.lor ch 0x20) in
            if (c >=? "a"%ch) && (c <=? "f"%ch) then
              let ch' := u8 (Z.shiftl decoded 4 + (c - "a"%ch) + 10) in
              if has type NGX_UNESCAPE_URI then
                if ch' =? "?"%ch then ([ch'], src')
                else emit [ch'] (loop type sw_usual decoded ch src')
              else if has type NGX_UNESCAPE_REDIRECT then
                if ch' =? "?"%ch then ([ch'], src')
                else if (ch' >? "%"%ch) && (ch' <? 0x7f) then
                  emit [ch'] (loop type sw_usual decoded ch src')
                else emit ["%"%ch; prev; ch] (loop type sw_usual decoded ch src')
              else emit [ch'] (loop type sw_usual decoded ch src')
            else loop type sw_usual decoded ch src'
      end
  end.

End Unescape.

(** What is written from [*dst] on, and the source from the final [*src] on. *)
Definition ngx_unescape_uri (src : list Z) (type : Z) : list Z * list Z :=
  Unescape.loop type Unescape.sw_usual 0 0 src.

(** ** Escaping HTML *)

Definition QUOT : Z := 34.

Fixpoint ngx_escape_html_len (src : list Z) : Z :=
  match src with
  | [] => 0
  | c :: src' =>
      (if c =? "<"%ch then 5 - 2
       else if c =? ">"%ch then 5 - 2
       else if c =? "&"%ch then 6 - 2
       else if c =? QUOT then 7 - 2
       else 0) + ngx_escape_html_len src'
  end.

Fixpoint ngx_escape_html (src : list Z) : list Z :=
  match src with
  | [] => []
  | ch :: src' =>
      (if ch =? "<"%ch then bs "&lt;"
       else if ch =? ">"%ch then bs "&gt;"
       else if ch =? "&"%ch then bs "&amp;"
       else if ch =? QUOT then bs "&quot;"
       else [ch]) ++ ngx_escape_html src'
  end.

(** ** Escaping JSON *)

Definition BSL : Z := 92.

Fixpoint ngx_escape_json_len (src : list Z) : Z :=
  match src with
  | [] => 0
  | ch :: src' =>
      (if (ch =? BSL) || (ch =? QUOT) then 1
       else if ch <=? 0x1f then
         if (ch =? 10) || (ch =? 13) || (ch =? 9) || (ch =? 8) || (ch =? 12) then 1
         else 7 - 2
       else 0) + ngx_escape_json_len src'
  end.

Fixpoint ngx_escape_json (src : list Z) : list Z :=
  match src with
  | [] => []
  | ch :: src' =>
      (if ch >? 0x1f then
         (if (ch =? BSL) || (ch =? QUOT) then [BSL] else []) ++ [ch]
       else
         BSL ::
         (if ch =? 10 then ["n"%ch]
          else if ch =? 13 then ["r"%ch]
          else if ch =? 9 then ["t"%ch]
          else if ch =? 8 then ["b"%ch]
          else if ch =? 12 then ["f"%ch]
          else
            let lo := Z.land ch 0xf in
            ["u"%ch; "0"%ch; "0"%ch; u8 ("0"%ch + Z.shiftr ch 4);
             u8 (if lo <? 10 then "0"%ch + lo else "A"%ch + lo - 10)]))
      ++ ngx_escape_json src'
  end.

(** ** Escaped URIs *)

Definition percent_escaped (escape : list Z) : bool := escaped escape "%"%ch.

(** What one escaped byte needs of a table: the hexadecimal digits are not
    escaped themselves, so the output is stable. *)
Definition hex_unescaped (escape : list Z) : bool :=
  forallb (fun i => negb (escaped escape (hex_upper_digit i))) (seqZ 0 16).

Lemma tables_hex_unescaped type : hex_unescaped (escape_map type) = true.
Proof. by destruct type. Qed.

Lemma tables_percent_escaped type :
  type <> ESCAPE_REFRESH -> percent_escaped (escape_map type) = true.
Proof. by destruct type. Qed.

Lemma nibbles c : is_u8 c -> 0 <= Z.shiftr c 4 < 16 /\ 0 <= Z.land c 0xf < 16.
Proof.
  unfold is_u8. intros Hc. rewrite shiftr_div by done.
  change 0xf with (Z.ones 4). rewrite Z.land_ones by done. lia_mod.
Qed.

Lemma hex_upper_digit_unescaped type i :
  0 <= i < 16 -> escaped (escape_map type) (hex_upper_digit i) = false.
Proof.
  intros Hi. pose proof (tables_hex_unescaped type) as H. unfold hex_unescaped in H.
  rewrite forallb_forall in H. apply negb_true_iff, H, list_elem_of_In, elem_of_seqZ. lia.
Qed.

Lemma escape_uri_write_length escape s :
  Z.of_nat (length (escape_uri_write escape s))
  = Z.of_nat (length s) + 2 * escape_uri_count escape s.
Proof.
  induction s as [|c s IH]; [done|]. cbn [escape_uri_write escape_uri_count length].
  case_match; cbn [length]; lia.
Qed.

(** The sizing pass of [ngx_escape_uri] is exact: with [n] its result on a
    text, the writing pass stores exactly [size + 2 * n] bytes, and every byte
    it stores is either the "%" of an escape or one that the table of the type
    allows. *)
Theorem ngx_escape_uri_output (s : list Z) (type : escape_type) (Hs : bytes_ok s) :
  Z.of_nat (length (ngx_escape_uri s type))
  = Z.of_nat (length s) + 2 * ngx_escape_uri_len s type
  /\ Forall (fun c => c = "%"%ch \/ escaped (escape_map type) c = false)
       (ngx_escape_uri s type).
Proof.
  split; [apply escape_uri_write_length|]. unfold ngx_escape_uri.
  induction Hs as [|c s Hc Hs IH]; [done|]. cbn [escape_uri_write].
  destruct (nibbles c Hc).
  destruct (escaped (escape_map type) c) eqn:He.
  - constructor; [by left|].
    do 2 (constructor; [right; by apply hex_upper_digit_unescaped|]). done.
  - constructor; [by right|done].
Qed.

Lemma ngx_escape_uri_output_witness :
  Z.of_nat (length (ngx_escape_uri (bs "/a b?") ESCAPE_URI)) = 5 + 2 * 2.
Proof.
  destruct (ngx_escape_uri_output (bs "/a b?") ESCAPE_URI) as [H _];
    [repeat constructor; vm_compute; intuition discriminate | exact H].
Defined.

(** ** Unescaping *)

Lemma emit_eq out next : Unescape.emit out next = (out ++ next.1, next.2).
Proof. done. Qed.

(** The two digits of an escape are read back, for an unescape type without
    flags. *)
Lemma unescape_hex c decoded prev l :
  is_u8 c ->
  Unescape.loop 0 Unescape.sw_quoted decoded prev
    (hex_upper_digit (Z.shiftr c 4) :: hex_upper_digit (Z.land c 0xf) :: l)
  = Unescape.emit [c]
      (Unescape.loop 0 Unescape.sw_usual (Z.shiftr c 4) (hex_upper_digit (Z.land c 0xf)) l).
Proof.
  intros Hc.
  assert (forall hi lo, hi ∈ seqZ 0 16 -> lo ∈ seqZ 0 16 ->
    Unescape.loop 0 Unescape.sw_quoted decoded prev
      (hex_upper_digit hi :: hex_upper_digit lo :: l)
    = Unescape.emit [hi * 16 + lo]
        (Unescape.loop 0 Unescape.sw_usual hi (hex_upper_digit lo) l)) as H.
  { intros hi lo Hhi Hlo. apply elem_of_seqZ in Hhi, Hlo.
    assert (forall P : Z -> Prop, (forall i : nat, (i < 16)%nat -> P (Z.of_nat i)) ->
              forall i, 0 <= i < 0 + 16 -> P i) as Hcase.
    { intros P HP i Hi. rewrite <- (Z2Nat.id i) by lia. apply HP. lia. }
    revert lo Hlo. apply Hcase. intros lo Hlo. revert hi Hhi. apply Hcase. intros hi Hhi.
    do 16 (destruct lo as [|lo]; [do 16 (destruct hi as [|hi]; [reflexivity|]); lia|]). lia. }
  destruct (nibbles c Hc) as [Hhi Hlo].
  rewrite H by (apply elem_of_seqZ; lia). do 2 f_equal.
  rewrite shiftr_div by done. change 0xf with (Z.ones 4). rewrite Z.land_ones by done. lia_mod.
Qed.

Lemma unescape_escape_uri type s :
  type <> ESCAPE_REFRESH -> bytes_ok s ->
  forall decoded prev,
  Unescape.loop 0 Unescape.sw_usual decoded prev (ngx_escape_uri s type) = (s, []).
Proof.
  intros Htype Hs. pose proof (tables_percent_escaped type Htype) as Hpc.
  unfold percent_escaped in Hpc. unfold ngx_escape_uri.
  induction Hs as [|c s Hc Hs IH]; intros decoded prev; [done|].
  cbn [escape_uri_write]. destruct (escaped (escape_map type) c) eqn:He.
  - change (Unescape.loop 0 Unescape.sw_usual decoded prev ("%"%ch :: ?l))
      with (Unescape.loop 0 Unescape.sw_quoted decoded "%"%ch l).
    rewrite unescape_hex by done. by rewrite IH.
  - cbn [Unescape.loop]. destruct (c =? 63) eqn:Hq; cbn [andb Unescape.has].
    + change (Unescape.has 0 _) with false. cbn match.
      test_false (c =? 37). by rewrite IH.
    + destruct (Z.eqb_spec c 37) as [->|]; [congruence|]. by rewrite IH.
Qed.



(** How many bytes of an unfinished escape the reader is ahead of the writer. *)
Definition pending (st : Unescape.state) : nat :=
  match st with
  | Unescape.sw_usual => 0
  | Unescape.sw_quoted => 1
  | Unescape.sw_quoted_second => 2
  end.

Lemma unescape_loop_bound type src : forall st decoded prev,
  (length (Unescape.loop type st decoded prev src).1
   + length (Unescape.loop type st decoded prev src).2 <= length src + pending st)%nat
  /\ exists used, src = used ++ (Unescape.loop type st decoded prev src).2.
Proof.
  induction src as [|ch src IH]; intros st decoded prev.
  { split; [simpl; lia|by exists []]. }
  assert (forall st' d' p' out, (length out + pending st' <= S (pending st))%nat ->
    (length (Unescape.emit out (Unescape.loop type st' d' p' src)).1
     + length (Unescape.emit out (Unescape.loop type st' d' p' src)).2
     <= length (ch :: src) + pending st)%nat
    /\ exists used, ch :: src = used ++ (Unescape.emit out (Unescape.loop type st' d' p' src)).2)
    as Hgo.
  { intros st' d' p' out Hout. destruct (IH st' d' p') as [Hlen (used & Hused)].
    rewrite emit_eq. cbn [fst snd length]. rewrite length_app. split; [lia|].
    exists (ch :: used). simpl. congruence. }
  assert (forall st' d' p', (pending st' <= S (pending st))%nat ->
    (length (Unescape.loop type st' d' p' src).1
     + length (Unescape.loop type st' d' p' src).2 <= length (ch :: src) + pending st)%nat
    /\ exists used, ch :: src = used ++ (Unescape.loop type st' d' p' src).2) as Hskip.
  { intros st' d' p' Hp. destruct (Hgo st' d' p' []) as [Hlen Hused]; [simpl; lia|]. done. }
  assert (forall c : Z, (length ([c], src).1 + length ([c], src).2
                         <= length (ch :: src) + pending st)%nat
            /\ exists used, ch :: src = used ++ ([c], src).2) as Hdone.
  { intros c. simpl. split; [lia|by exists [ch]]. }
  destruct st; cbn [Unescape.loop]; repeat case_match;
    first [apply Hdone | apply Hgo; simpl; lia | apply Hskip; simpl; lia].
Qed.

(** The same loop run in place, as most callers do ([*dst == *src]): the byte
    written to [d] overwrites the memory that [s] has already passed. *)
Fixpoint unescape_store (d : nat) (out : list Z) (mem : list Z) : list Z :=
  match out with
  | [] => mem
  | c :: out' => unescape_store (S d) out' (<[d:=c]> mem)
  end.

(** [ngx_unescape_uri] is safe in place: for every type, input and way to
    stop, the output and the source left over fit together in the source's own
    size, so the write pointer never passes the read pointer and the source
    left over is a suffix of the original that no write has touched. *)
Theorem ngx_unescape_uri_bounded (src : list Z) (type : Z) :
  let '(dst, rest) := ngx_unescape_uri src type in
  (length dst + length rest <= length src)%nat
  /\ exists used, src = used ++ rest
     /\ drop (length used) (unescape_store 0 dst src) = rest.
Proof.
  unfold ngx_unescape_uri.
  destruct (unescape_loop_bound type src Unescape.sw_usual 0 0) as [Hlen (used & Hused)].
  destruct (Unescape.loop type Unescape.sw_usual 0 0 src) as [dst rest].
  simpl in *. rewrite Nat.add_0_r in Hlen. split; [done|]. exists used. split; [done|].
  assert (forall d out mem k, (d + length out <= k)%nat ->
            drop k (unescape_store d out mem) = drop k mem) as Hstore.
  { intros d out. revert d. induction out as [|c out IH]; intros d mem k Hk; [done|].
    cbn [unescape_store length] in *. rewrite IH by lia. by rewrite drop_insert_lt by lia. }
  rewrite Hstore; [by rewrite Hused, drop_app_length|].
  apply (f_equal length) in Hused. rewrite length_app in Hused. simpl. lia.
Qed.

(** ** HTML *)

(** A browser's reading of the four entities the code writes. *)
Fixpoint html_unescape (fuel : nat) (l : list Z) : list Z :=
  match fuel with
  | O => []
  | S fuel' =>
      match l with
      | [] => []
      | c :: l' =>
          if bool_decide (take 4 l = bs "&lt;") then "<"%ch :: html_unescape fuel' (drop 4 l)
          else if bool_decide (take 4 l = bs "&gt;") then ">"%ch :: html_unescape fuel' (drop 4 l)
          else if bool_decide (take 5 l = bs "&amp;") then "&"%ch :: html_unescape fuel' (drop 5 l)
          else if bool_decide (take 6 l = bs "&quot;") then QUOT :: html_unescape fuel' (drop 6 l)
          else c :: html_unescape fuel' l'
      end
  end.

Lemma html_unescape_escape s : forall fuel,
  (length (ngx_escape_html s) <= fuel)%nat ->
  html_unescape (S fuel) (ngx_escape_html s) = s.
Proof.
  induction s as [|c s IH]; intros fuel Hfuel; [done|].
  cbn [ngx_escape_html] in *.
  destruct (Z.eqb_spec c 60) as [->|]; [|destruct (Z.eqb_spec c 62) as [->|];
    [|destruct (Z.eqb_spec c 38) as [->|]; [|destruct (Z.eqb_spec c QUOT) as [->|]]]].
  1-4: rewrite length_app in Hfuel; cbn [bs length] in Hfuel;
       (destruct fuel as [|fuel]; [simpl in Hfuel; lia|]);
       match goal with |- _ = ?c :: _ =>
         transitivity (c :: html_unescape (S fuel) (ngx_escape_html s)); [reflexivity|]
       end; by rewrite (IH fuel) by (simpl in Hfuel; lia).
  cbn [app length] in *. destruct fuel as [|fuel]; [lia|].
  specialize (IH fuel ltac:(lia)). revert IH. generalize (S fuel). intros f IH.
  cbn [html_unescape]. rewrite !bool_decide_eq_false_2; [by rewrite IH| | | |];
    cbn [bs take]; intros [= Heq]; done.
Qed.

(** [ngx_escape_html] output is safe in HTML text and attributes: it has no
    angle bracket and no double quote, the sizing pass is exact, and reading
    its four entities back gives the original text. *)
Theorem ngx_escape_html_correct (s : list Z) :
  Forall (fun c => c <> "<"%ch /\ c <> ">"%ch /\ c <> QUOT) (ngx_escape_html s)
  /\ Z.of_nat (length (ngx_escape_html s)) = Z.of_nat (length s) + ngx_escape_html_len s
  /\ html_unescape (S (length (ngx_escape_html s))) (ngx_escape_html s) = s.
Proof.
  split_and!; [| |by apply html_unescape_escape].
  - induction s as [|c s IH]; [done|]. cbn [ngx_escape_html].
    apply Forall_app. split; [|done].
    destruct (c =? 60) eqn:?; [|destruct (c =? 62) eqn:?; [|destruct (c =? 38) eqn:?;
      [|destruct (c =? QUOT) eqn:?]]].
    1-4: apply (Forall_check (fun c => negb (c =? 60) && negb (c =? 62) && negb (c =? QUOT)));
         [intros; lia|reflexivity].
    constructor; [lia|done].
  - induction s as [|c s IH]; [done|].
    cbn [ngx_escape_html ngx_escape_html_len length]. rewrite length_app.
    repeat case_match; cbn [bs length]; lia.
Qed.

(** ** JSON *)

(** The reading of a JSON string body, by RFC 8259: the escapes the code
    writes, [None] on a raw control character, a raw quote or another
    escape. *)
Definition json_hex (c : Z) : option Z :=
  if ("0"%ch <=? c) && (c <=? "9"%ch) then Some (c - "0"%ch)
  else if ("A"%ch <=? c) && (c <=? "F"%ch) then Some (c - "A"%ch + 10)
  else None.

Definition json_escape_of (e : Z) : option Z :=
  if e =? "n"%ch then Some 10 else if e =? "r"%ch then Some 13
  else if e =? "t"%ch then Some 9 else if e =? "b"%ch then Some 8
  else if e =? "f"%ch then Some 12 else if e =? QUOT then Some QUOT
  else if e =? BSL then Some BSL else None.

Fixpoint json_unescape (l : list Z) : option (list Z) :=
  match l with
  | [] => Some []
  | c :: l1 =>
      if c =? BSL then
        match l1 with
        | e :: l2 =>
            if e =? "u"%ch then
              match l2 with
              | z0 :: z1 :: h :: g :: l3 =>
                  if (z0 =? "0"%ch) && (z1 =? "0"%ch) then
                    hi ← json_hex h; lo ← json_hex g;
                    out ← json_unescape l3; Some (hi * 16 + lo :: out)
                  else None
              | _ => None
              end
            else
              v ← json_escape_of e; out ← json_unescape l2; Some (v :: out)
        | [] => None
        end
      else if (c <=? 0x1f) || (c =? QUOT) then None
      else out ← json_unescape l1; Some (c :: out)
  end.

Lemma ngx_escape_json_cons c s :
  ngx_escape_json (c :: s) = ngx_escape_json [c] ++ ngx_escape_json s.
Proof. cbn [ngx_escape_json]. by rewrite app_nil_r. Qed.

(** One escaped byte is read back, whatever follows. *)
Lemma json_unescape_step c l :
  is_u8 c ->
  json_unescape (ngx_escape_json [c] ++ l) = (out ← json_unescape l; Some (c :: out)).
Proof.
  intros Hc.
  assert (c = Z.of_nat (Z.to_nat c)) as Heq by (unfold is_u8 in Hc; lia).
  destruct (decide (c <= 0x1f)) as [Hle|Hgt].
  - rewrite Heq. assert (Z.to_nat c < 32)%nat as Hlt by (unfold is_u8 in Hc; lia).
    generalize dependent (Z.to_nat c). intros n _ Hn.
    do 32 (destruct n as [|n]; [reflexivity|]). lia.
  - cbn [ngx_escape_json]. replace (c >? 31) with true by lia. rewrite app_nil_r.
    destruct ((c =? BSL) || (c =? QUOT)) eqn:Hsp.
    + apply orb_prop in Hsp as [->%Z.eqb_eq | ->%Z.eqb_eq]; reflexivity.
    + apply orb_false_iff in Hsp as [Hb Hq]. cbn [app json_unescape].
      rewrite Hb, Hq. by replace (c <=? 31) with false by lia.
Qed.

(** C40: [ngx_escape_json] writes the body of a JSON string: it never writes a
    control character, the sizing pass is exact, and a JSON reader gets the
    original bytes back, which also shows that every quote and backslash of
    the output belongs to an escape. *)
Theorem ngx_escape_json_correct (s : list Z) (Hs : bytes_ok s) :
  json_unescape (ngx_escape_json s) = Some s
  /\ Forall (fun c => 0x1f < c < 256) (ngx_escape_json s)
  /\ Z.of_nat (length (ngx_escape_json s)) = Z.of_nat (length s) + ngx_escape_json_len s.
Proof.
  assert (forall c, is_u8 c ->
    forallb (fun x => (0x1f <? x) && (x <? 256)) (ngx_escape_json [c])
    && (Z.of_nat (length (ngx_escape_json [c])) =? 1 + ngx_escape_json_len [c]) = true)
    as Hone by (apply forall_u8; vm_compute; reflexivity).
  induction Hs as [|c s Hc Hs IH]; [done|]. destruct IH as (IH1 & IH2 & IH3).
  specialize (Hone c Hc). apply andb_prop in Hone as [Hrange Hlen].
  rewrite ngx_escape_json_cons. split_and!.
  - by rewrite json_unescape_step, IH1 by done.
  - apply Forall_app. split; [|done]. rewrite forallb_forall in Hrange.
    apply Forall_forall. intros x Hx. specialize (Hrange x Hx). lia.
  - rewrite length_app. cbn [ngx_escape_json_len length] in *. lia.
Qed.

Lemma ngx_escape_json_correct_witness :
  json_unescape (bs "a\u0001\\") = Some [97; 1; 92].
Proof.
  apply (ngx_escape_json_correct [97; 1; 92]);
    repeat constructor; vm_compute; intuition discriminate.
Defined.
