(* ===== verification/Scan.v ===== *)
(** * Scan: the loop of the incremental parsers

    The parsers of ngx_http_parse.c are state machines run by
    [for (p = b->pos; p < b->last; p++) { ch = *p; switch (state) ... }]: they
    load their locals from the request, run over the bytes received so far and,
    when these end, store the locals back and return [NGX_AGAIN], to be called
    again when more bytes have arrived.  This file has the loop, once, and the
    class of the parsers built on it, for which it proves that the way the input
    is split over calls does not matter. *)

From S2P Require Import Prelude.

(** What the body of the loop does with one byte: go on with new locals, or
    leave the loop by a [return] or [goto]. *)
Inductive action (L E : Type) :=
  | Next (l : L)
  | Exit (e : E).
Arguments Next {L E} l.
Arguments Exit {L E} e.

(** The part of [ngx_buf_t] the parsers use: [b->pos] and [b->last], as offsets
    into the memory that holds the input. *)
Record ngx_buf_t := { pos : nat; last : nat }.
#[export] Instance eta_buf : Eta ngx_buf_t := mk_eta (fun b =>
  Build_ngx_buf_t (pos b) (last b)).

Section Scan.
Context {L E : Type}.
(** The body: [step p ch l]; [None] when it reads outside the memory. *)
Variable step : nat -> Z -> L -> option (action L E).
Variable mem : list Z.

(** [n] iterations from [p]: either the input ran out, or the loop was left. *)
Fixpoint scan (p n : nat) (l : L) : option (action (nat * L) E) :=
  match n with
  | O => Some (Next (p, l))
  | S n' =>
      ch ← mem !! p;
      a ← step p ch l;
      match a with
      | Next l' => scan (S p) n' l'
      | Exit e => Some (Exit e)
      end
  end.

Lemma scan_split p n m l :
  scan p (n + m) l
  = a ← scan p n l;
    match a with
    | Next (p', l') => scan p' m l'
    | Exit e => Some (Exit e)
    end.
Proof.
  revert p l. induction n as [|n IH]; intros p l; [done|]. simpl.
  destruct (mem !! p) as [ch|]; [|done]. simpl.
  destruct (step p ch l) as [[l'|e]|]; simpl; [apply IH|done|done].
Qed.

Lemma scan_pos p n l p' l' : scan p n l = Some (Next (p', l')) -> p' = (p + n)%nat.
Proof.
  revert p l. induction n as [|n IH]; intros p l; simpl.
  - intros [= <- <-]. lia.
  - destruct (mem !! p) as [ch|]; [|done]. simpl.
    destruct (step p ch l) as [[?|?]|]; simpl; [|done..]. intros H%IH. lia.
Qed.

(** A property of the locals at each position, kept by the body. *)
Variable I : nat -> L -> Prop.
Variable P : E -> Prop.
Variable bound : nat.
Hypothesis step_ok : forall p ch l, (p < bound)%nat -> mem !! p = Some ch -> I p l ->
  exists a, step p ch l = Some a
    /\ match a with Next l' => I (S p) l' | Exit e => P e end.

Lemma scan_invariant p n l :
  I p l -> (p + n <= bound <= length mem)%nat ->
  exists a, scan p n l = Some a
    /\ match a with Next (p', l') => p' = (p + n)%nat /\ I p' l' | Exit e => P e end.
Proof.
  revert p l. induction n as [|n IH]; intros p l HI Hlen; simpl.
  - eexists; split; [done|]. split; [lia|done].
  - destruct (lookup_lt_is_Some_2 mem p) as [ch Hch]; [lia|]. rewrite Hch. simpl.
    destruct (step_ok p ch l ltac:(lia) Hch HI) as (a & -> & Ha). simpl.
    destruct a as [l'|e]; [|by eauto].
    destruct (IH (S p) l' Ha) as (a & -> & Ha'); [lia|].
    exists a. split; [done|]. destruct a as [[p' l'']|e]; [|done].
    destruct Ha' as [-> ?]. split; [lia|done].
Qed.

(** The same without totality, and with the position where the loop is left. *)
Lemma scan_partial p n l a :
  (forall p ch l a, mem !! p = Some ch -> I p l -> step p ch l = Some a ->
     match a with Next l' => I (S p) l' | Exit e => P e end) ->
  I p l -> scan p n l = Some a ->
  match a with Next (p', l') => I p' l' | Exit e => P e end.
Proof.
  intros Hstep. revert p l. induction n as [|n IH]; intros p l HI; simpl.
  - by intros [= <-].
  - destruct (mem !! p) as [ch|] eqn:Hch; [|done]. simpl.
    destruct (step p ch l) as [[l'|e]|] eqn:Hs; simpl; [| |done].
    + apply IH. by eapply (Hstep p ch l (Next l')).
    + intros [= <-]. by eapply (Hstep p ch l (Exit e)).
Qed.

(** The bytes of [s] are in memory at [p]. *)
Definition bytes_at (p : nat) (s : list Z) : Prop :=
  forall i c, s !! i = Some c -> mem !! (p + i)%nat = Some c.

Lemma bytes_at_cons p c s : bytes_at p (c :: s) -> mem !! p = Some c /\ bytes_at (S p) s.
Proof.
  intros H. split.
  - rewrite <- (Nat.add_0_r p). by apply (H 0%nat).
  - intros i d Hi. rewrite Nat.add_succ_comm. by apply (H (S i)).
Qed.

Lemma bytes_at_app p s t :
  bytes_at p (s ++ t) -> bytes_at p s /\ bytes_at (p + length s) t.
Proof.
  intros H. split; intros i c Hi.
  - apply H. by apply lookup_app_l_Some.
  - rewrite <- Nat.add_assoc. apply H. rewrite lookup_app_r by lia.
    by replace (length s + i - length s)%nat with i by lia.
Qed.

Lemma bytes_at_take p s : bytes_at p s -> take (length s) (drop p mem) = s.
Proof.
  intros H. apply list_eq_same_length with (n := length s); [done| |].
  - rewrite length_take, length_drop. destruct (decide (length s = 0%nat)) as [->|]; [done|].
    destruct (lookup_lt_is_Some_2 s (length s - 1)) as [c Hc]; [lia|].
    apply H, lookup_lt_Some in Hc. lia.
  - intros i x y Hi Hx Hy. rewrite lookup_take, decide_True, lookup_drop in Hx by lia.
    apply H in Hy. congruence.
Qed.

(** The loop over known bytes, none of which leaves it. *)
Lemma scan_over (J : nat -> L -> Prop) s p m l :
  bytes_at p s ->
  (forall i ch l, ch ∈ s -> J i l -> (p <= i < p + length s)%nat -> mem !! i = Some ch ->
     exists l', step i ch l = Some (Next l') /\ J (S i) l') ->
  J p l ->
  exists l', scan p (length s + m) l = scan (p + length s) m l' /\ J (p + length s)%nat l'.
Proof.
  revert p l. induction s as [|c s IH]; intros p l Hat Hstep HJ; cbn [length].
  - exists l. rewrite Nat.add_0_r. done.
  - apply bytes_at_cons in Hat as [Hc Hat].
    destruct (Hstep p c l) as (l1 & Hs & HJ1); [left|done|simpl; lia|done|].
    destruct (IH (S p) l1 Hat) as (l' & Hscan & HJ'); [|done|].
    { intros i ch l2 Hin Hi Hr. apply Hstep; [by right|done|simpl; lia]. }
    exists l'. replace (p + S (length s))%nat with (S p + length s)%nat by lia.
    split; [|done]. rewrite <- Hscan. cbn [scan Nat.add]. by rewrite Hc; cbn; rewrite Hs.
Qed.

(** One byte. *)
Lemma scan_step p n l c a :
  mem !! p = Some c -> step p c l = Some a ->
  scan p (S n) l
  = match a with Next l' => scan (S p) n l' | Exit e => Some (Exit e) end.
Proof. intros Hc Hs. cbn [scan]. rewrite Hc. cbn. by rewrite Hs. Qed.
End Scan.

(** ** Incremental parsers *)

(** The codes returned in the middle of the loop, with the values of
    ngx_http_request.h and ngx_core.h. *)
Inductive parse_error :=
  | INVALID_METHOD | INVALID_REQUEST | INVALID_VERSION | INVALID_HEADER
  | PARSE_ERROR.

Definition error_code (e : parse_error) : Z :=
  match e with
  | INVALID_METHOD => 10
  | INVALID_REQUEST => 11
  | INVALID_VERSION => 12
  | INVALID_HEADER => 14
  | PARSE_ERROR => NGX_ERROR
  end.

Definition is_error (rc : Z) : bool := (rc =? NGX_ERROR) || (rc >=? 10).

(** The two ways out of the loop: [return] of an error with the fields [f] of
    the request as they are, the saved locals and [b->pos] untouched; and
    [goto] a label [d] at position [p]. *)
Inductive exit (S F D : Type) :=
  | Return (e : parse_error) (f : F)
  | Goto (d : D) (p : nat) (s : S) (f : F).
Arguments Return {S F D} e f.
Arguments Goto {S F D} d p s f.

(** A parser of requests [R]: the locals [S] that live in the request between
    calls and the other fields [F], the body of the loop over a memory, and the
    code at the labels, which gives the result, the request and [b->pos] from
    the locals as they were loaded and as they are.  The laws say that no local
    is lost or mixed up between two calls, and that a label uses the stale
    copies only for what [parser_same], given the code returned, ignores. *)
Class IncrementalParser (R S F D : Type) := {
  parser_load : R -> S * F;
  parser_save : S -> F -> R;
  parser_step : list Z -> nat -> Z -> S * F -> option (action (S * F) (exit S F D));
  parser_label : D -> nat -> S -> S -> F -> Z * R * nat;
  parser_same : Z -> relation R;
  parser_same_equiv :: forall rc, Equivalence (parser_same rc);
  parser_load_save : forall s f, parser_load (parser_save s f) = (s, f);
  parser_save_load : forall r, parser_save (parser_load r).1 (parser_load r).2 = r;
  parser_label_rc : forall d p s0 s f, (parser_label d p s0 s f).1.1 <> NGX_AGAIN;
  parser_label_same : forall d p s0 s0' s f,
    let x := parser_label d p s0 s f in
    let y := parser_label d p s0' s f in
    x.1.1 = y.1.1 /\ x.2 = y.2 /\ (parser_load x.1.2).2 = (parser_load y.1.2).2
    /\ parser_same x.1.1 x.1.2 y.1.2;
}.

Section Parser.
Context {R S F D} `{!IncrementalParser R S F D}.

Definition after_loop (r : R) (b : ngx_buf_t)
    (a : action (nat * (S * F)) (exit S F D)) : Z * R * ngx_buf_t :=
  match a with
  | Next (p, (s, f)) => (NGX_AGAIN, parser_save s f, b <| pos := p |>)
  | Exit (Return e f) => (error_code e, parser_save (parser_load r).1 f, b)
  | Exit (Goto d p s f) =>
      let '(rc, r', p') := parser_label d p (parser_load r).1 s f in
      (rc, r', b <| pos := p' |>)
  end.

(** The whole function. *)
Definition run_parser (mem : list Z) (r : R) (b : ngx_buf_t)
    : option (Z * R * ngx_buf_t) :=
  after_loop r b <$> scan (parser_step mem) mem (pos b) (last b - pos b) (parser_load r).

(** Two results that a caller cannot tell apart: the same code, the same
    fields and, unless the code is an error, after which the request is
    finalized, the same position and the same request up to [parser_same]. *)
Definition same_result (x y : Z * R * ngx_buf_t) : Prop :=
  x.1.1 = y.1.1 /\ (parser_load x.1.2).2 = (parser_load y.1.2).2
  /\ (is_error x.1.1 = false -> parser_same x.1.1 x.1.2 y.1.2 /\ pos x.2 = pos y.2).

#[export] Instance same_result_refl : Reflexive same_result.
Proof. by intros x. Qed.
#[export] Instance same_result_sym : Symmetric same_result.
Proof.
  intros x y (Hrc & Hf & Hr). split_and!; [done..|].
  intros He. rewrite <- Hrc in *. by destruct (Hr He) as [-> ?].
Qed.
#[export] Instance same_result_trans : Transitive same_result.
Proof.
  intros x y z (Hrc & Hf & Hr) (Hrc' & Hf' & Hr'). split_and!; [congruence..|].
  intros He. destruct (Hr He) as [-> ->]. rewrite Hrc. apply Hr'. congruence.
Qed.

Lemma error_code_again e : error_code e <> NGX_AGAIN.
Proof. by destruct e. Qed.

Lemma is_error_code e : is_error (error_code e) = true.
Proof. by destruct e. Qed.

Lemma after_loop_again r b a r1 b1 :
  after_loop r b a = (NGX_AGAIN, r1, b1) ->
  exists p s f, a = Next (p, (s, f)) /\ r1 = parser_save s f /\ b1 = b <| pos := p |>.
Proof.
  destruct a as [[p [s f]]|[e f|d p s f]]; cbn [after_loop].
  - intros [= <- <-]. by exists p, s, f.
  - intros [= Hrc _ _]. by apply error_code_again in Hrc.
  - pose proof (parser_label_rc d p (parser_load r).1 s f) as Hrc.
    destruct (parser_label d p _ s f) as [[rc r'] p']. intros [= -> _ _]. done.
Qed.

Lemma after_loop_same r r' b b' a :
  is_Some (match a with Exit e => Some e | Next _ => None end) ->
  same_result (after_loop r b a) (after_loop r' b' a).
Proof.
  intros [e Ha]. destruct a as [|[e' f|d p s f]]; [done|..]; simplify_eq.
  - cbn [after_loop]. split; [done|]. cbn [fst snd]. split; [by rewrite !parser_load_save|].
    by rewrite is_error_code.
  - cbn [after_loop].
    pose proof (parser_label_same d p (parser_load r).1 (parser_load r').1 s f) as Hs.
    destruct (parser_label d p (parser_load r).1 s f) as [[rc1 r1] p1].
    destruct (parser_label d p (parser_load r').1 s f) as [[rc2 r2] p2].
    destruct Hs as (? & ? & ? & ?). by split_and!.
Qed.

(** Resuming: when the bytes up to [last1] are not enough, the next call,
    on the request and the position the first one left, gives the result
    that one call over all the bytes would have given; when they are enough,
    the bytes that follow do not matter. *)
Lemma run_parser_resume mem r p last1 last2 rc1 r1 b1 :
  (p <= last1 <= last2)%nat ->
  run_parser mem r {| pos := p; last := last1 |} = Some (rc1, r1, b1) ->
  if rc1 =? NGX_AGAIN then
    option_Forall2 same_result
      (run_parser mem r1 {| pos := pos b1; last := last2 |})
      (run_parser mem r {| pos := p; last := last2 |})
  else
    exists y, run_parser mem r {| pos := p; last := last2 |} = Some y
      /\ same_result (rc1, r1, b1) y.
Proof.
  intros Hp. unfold run_parser. cbn [pos last].
  replace (last2 - p)%nat with ((last1 - p) + (last2 - last1))%nat by lia.
  rewrite scan_split.
  destruct (scan (parser_step mem) mem p (last1 - p) (parser_load r)) as [a|] eqn:Hs;
    cbn [fmap option_map mbind option_bind]; [|done].
  intros [= Ha]. destruct (Z.eqb_spec rc1 NGX_AGAIN) as [->|Hrc].
  - apply after_loop_again in Ha as (p1 & s & f & -> & -> & ->).
    apply scan_pos in Hs as Hp1. cbn.
    replace (last2 - p1)%nat with (last2 - last1)%nat by lia.
    rewrite parser_load_save.
    destruct (scan (parser_step mem) mem p1 (last2 - last1) (s, f)) as [a|]; cbn;
      [|constructor].
    constructor. destruct a as [[p2 [s2 f2]]|e]; [done|].
    apply after_loop_same. eauto.
  - destruct a as [[p1 [s f]]|e]; [simpl in Ha; congruence|].
    eexists. split; [reflexivity|]. rewrite <- Ha. apply after_loop_same. eauto.
Qed.
End Parser.
