(* ===== verification/Http.v ===== *)
(** * Http: constants, tables and the request fields that the parsers of
    ngx_http_parse.c share. *)

From S2P Require Import Prelude Scan.

(** ** Methods, of ngx_http_request.h *)

Definition NGX_HTTP_UNKNOWN : Z := 0x00000001.
Definition NGX_HTTP_GET : Z := 0x00000002.
Definition NGX_HTTP_HEAD : Z := 0x00000004.
Definition NGX_HTTP_POST : Z := 0x00000008.
Definition NGX_HTTP_PUT : Z := 0x00000010.
Definition NGX_HTTP_DELETE : Z := 0x00000020.
Definition NGX_HTTP_MKCOL : Z := 0x00000040.
Definition NGX_HTTP_COPY : Z := 0x00000080.
Definition NGX_HTTP_MOVE : Z := 0x00000100.
Definition NGX_HTTP_OPTIONS : Z := 0x00000200.
Definition NGX_HTTP_PROPFIND : Z := 0x00000400.
Definition NGX_HTTP_PROPPATCH : Z := 0x00000800.
Definition NGX_HTTP_LOCK : Z := 0x00001000.
Definition NGX_HTTP_UNLOCK : Z := 0x00002000.
Definition NGX_HTTP_PATCH : Z := 0x00004000.
Definition NGX_HTTP_TRACE : Z := 0x00008000.
Definition NGX_HTTP_CONNECT : Z := 0x00010000.

Definition NGX_HTTP_BAD_REQUEST : Z := 400.

Definition NGX_HTTP_PARSE_HEADER_DONE : Z := 1.
Definition NGX_HTTP_PARSE_INVALID_09_METHOD : Z := 13.

(** ** The table of the characters that need no attention in a URI *)

Definition usual : list Z := [
  0x00000000; 0x7fff37d6; 0xffffffff; 0x7fffffff;
  0xffffffff; 0xffffffff; 0xffffffff; 0xffffffff ].

(** [usual[ch >> 5] & (1U << (ch & 0x1f))]. *)
Definition is_usual (ch : Z) : bool :=
  negb (Z.land (nth (Z.to_nat (Z.shiftr ch 5)) usual 0)
               (Z.shiftl 1 (Z.land ch 0x1f)) =? 0).

(** The characters with a meaning in a URI are not usual, and neither are
    controls and the space. *)
Lemma is_usual_spec c :
  is_u8 c ->
  is_usual c = negb ((c <=? " "%ch) || (c =? 0x7f) || (c =? "#"%ch) || (c =? "%"%ch)
                     || (c =? "+"%ch) || (c =? "."%ch) || (c =? "/"%ch) || (c =? "?"%ch)).
Proof.
  intros Hc. apply eqb_prop. revert c Hc.
  apply (forall_u8 (fun c => eqb (is_usual c) _)). vm_compute. reflexivity.
Qed.

(** What the parsers keep out of a URI: controls, the space and DEL. *)
Definition uri_byte (c : Z) : Prop := 0x20 < c /\ c <> 0x7f.

Lemma is_usual_uri_byte c : is_u8 c -> is_usual c = true -> uri_byte c.
Proof. intros Hc. rewrite is_usual_spec by done. unfold uri_byte. lia. Qed.

(** ** Reading words: the comparison macros *)

(** The load of an [uint32_t] at [m] on a little endian machine. *)
Definition load32 (mem : list Z) (m : nat) : option Z :=
  b0 ← mem !! m; b1 ← mem !! (m + 1)%nat; b2 ← mem !! (m + 2)%nat; b3 ← mem !! (m + 3)%nat;
  Some (Z.lor (Z.lor (Z.lor (Z.shiftl b3 24) (Z.shiftl b2 16)) (Z.shiftl b1 8)) b0).

(** [(c3 << 24) | (c2 << 16) | (c1 << 8) | c0]. *)
Definition pack32 (c0 c1 c2 c3 : Z) : Z :=
  Z.lor (Z.lor (Z.lor (Z.shiftl c3 24) (Z.shiftl c2 16)) (Z.shiftl c1 8)) c0.

(** The lazy conjunction of the C code, over tests that read memory. *)
Definition and_then (a b : option bool) : option bool :=
  match a with
  | Some true => b
  | _ => a
  end.

(** [m[i] == c]. *)
Definition byte_is (mem : list Z) (i : nat) (c : Z) : option bool :=
  b ← mem !! i; Some (b =? c).

Definition word_is (mem : list Z) (i : nat) (c0 c1 c2 c3 : Z) : option bool :=
  w ← load32 mem i; Some (w =? pack32 c0 c1 c2 c3).

(** The macros exist twice, for machines that can load an unaligned word and
    for the others; the parser is written against their interface. *)
Class StrCmp := {
  ngx_str3_cmp : list Z -> nat -> Z -> Z -> Z -> Z -> option bool;
  ngx_str3Ocmp : list Z -> nat -> Z -> Z -> Z -> Z -> option bool;
  ngx_str4cmp : list Z -> nat -> Z -> Z -> Z -> Z -> option bool;
  ngx_str5cmp : list Z -> nat -> Z -> Z -> Z -> Z -> Z -> option bool;
  ngx_str6cmp : list Z -> nat -> Z -> Z -> Z -> Z -> Z -> Z -> option bool;
  ngx_str7_cmp : list Z -> nat -> Z -> Z -> Z -> Z -> Z -> Z -> Z -> Z -> option bool;
  ngx_str8cmp : list Z -> nat -> Z -> Z -> Z -> Z -> Z -> Z -> Z -> Z -> option bool;
  ngx_str9cmp : list Z -> nat -> Z -> Z -> Z -> Z -> Z -> Z -> Z -> Z -> Z -> option bool;
}.

(** [NGX_HAVE_LITTLE_ENDIAN && NGX_HAVE_NONALIGNED]. *)
Definition cmp_nonaligned : StrCmp := {|
  ngx_str3_cmp mem m c0 c1 c2 c3 := word_is mem m c0 c1 c2 c3;
  ngx_str3Ocmp mem m c0 c1 c2 c3 := word_is mem m c0 c1 c2 c3;
  ngx_str4cmp mem m c0 c1 c2 c3 := word_is mem m c0 c1 c2 c3;
  ngx_str5cmp mem m c0 c1 c2 c3 c4 :=
    and_then (word_is mem m c0 c1 c2 c3) (byte_is mem (m + 4) c4);
  ngx_str6cmp mem m c0 c1 c2 c3 c4 c5 :=
    and_then (word_is mem m c0 c1 c2 c3)
      (w ← load32 mem (m + 4);
       Some (Z.land w 0xffff =? Z.lor (Z.shiftl c5 8) c4));
  ngx_str7_cmp mem m c0 c1 c2 c3 c4 c5 c6 c7 :=
    and_then (word_is mem m c0 c1 c2 c3) (word_is mem (m + 4) c4 c5 c6 c7);
  ngx_str8cmp mem m c0 c1 c2 c3 c4 c5 c6 c7 :=
    and_then (word_is mem m c0 c1 c2 c3) (word_is mem (m + 4) c4 c5 c6 c7);
  ngx_str9cmp mem m c0 c1 c2 c3 c4 c5 c6 c7 c8 :=
    and_then (and_then (word_is mem m c0 c1 c2 c3) (word_is mem (m + 4) c4 c5 c6 c7))
      (byte_is mem (m + 8) c8);
|}.

(** [m[0] == c0 && m[1] == c1 && ...], byte after byte. *)
Fixpoint bytes_are (mem : list Z) (m : nat) (cs : list Z) : option bool :=
  match cs with
  | [] => Some true
  | c :: cs' => and_then (byte_is mem m c) (bytes_are mem (S m) cs')
  end.

Definition cmp_portable : StrCmp := {|
  ngx_str3_cmp mem m c0 c1 c2 c3 := bytes_are mem m [c0; c1; c2];
  ngx_str3Ocmp mem m c0 c1 c2 c3 :=
    and_then (byte_is mem m c0) (bytes_are mem (m + 2) [c2; c3]);
  ngx_str4cmp mem m c0 c1 c2 c3 := bytes_are mem m [c0; c1; c2; c3];
  ngx_str5cmp mem m c0 c1 c2 c3 c4 := bytes_are mem m [c0; c1; c2; c3; c4];
  ngx_str6cmp mem m c0 c1 c2 c3 c4 c5 := bytes_are mem m [c0; c1; c2; c3; c4; c5];
  ngx_str7_cmp mem m c0 c1 c2 c3 c4 c5 c6 c7 :=
    bytes_are mem m [c0; c1; c2; c3; c4; c5; c6];
  ngx_str8cmp mem m c0 c1 c2 c3 c4 c5 c6 c7 :=
    bytes_are mem m [c0; c1; c2; c3; c4; c5; c6; c7];
  ngx_str9cmp mem m c0 c1 c2 c3 c4 c5 c6 c7 c8 :=
    bytes_are mem m [c0; c1; c2; c3; c4; c5; c6; c7; c8];
|}.

Lemma bytes_are_total mem m cs :
  (m + length cs <= length mem)%nat -> is_Some (bytes_are mem m cs).
Proof.
  revert m. induction cs as [|c cs IH]; intros m Hlen; [by eexists|].
  cbn [bytes_are length] in *. unfold byte_is.
  destruct (lookup_lt_is_Some_2 mem m) as [x ->]; [lia|]. cbn.
  destruct (x =? c); [|by eexists]. apply IH. lia.
Qed.

(** The value of a hexadecimal digit, as the two tests of the parsers have it. *)
Definition hex_value (ch : Z) : option Z :=
  if (ch >=? "0"%ch) && (ch <=? "9"%ch) then Some (ch - "0"%ch)
  else
    let c := u8 (Z.lor ch 0x20) in
    if (c >=? "a"%ch) && (c <=? "f"%ch) then Some (c - "a"%ch + 10) else None.

Lemma hex_value_range c v : hex_value c = Some v -> 0 <= v < 16.
Proof. unfold hex_value. repeat case_match; intros; simplify_eq; lia. Qed.
