(* ===== verification/RequestLine.v ===== *)
(** * RequestLine: [ngx_http_parse_request_line] of ngx_http_parse.c

    One definition per state of the C [switch], each the translation of its
    [case]; [step] is the [switch] and [ngx_http_parse_request_line] the whole
    function.  Pointers into the buffer are offsets; [NULL] is [None]. *)

From S2P Require Import Prelude Scan Http.

Inductive state :=
  | sw_start | sw_method | sw_spaces_before_uri | sw_schema | sw_schema_slash
  | sw_schema_slash_slash | sw_host_start | sw_host | sw_host_end
  | sw_host_ip_literal | sw_port | sw_after_slash_in_uri | sw_check_uri | sw_uri
  | sw_http_09 | sw_http_H | sw_http_HT | sw_http_HTT | sw_http_HTTP
  | sw_first_major_digit | sw_major_digit | sw_first_minor_digit | sw_minor_digit
  | sw_spaces_after_digit | sw_almost_done.

(** The fields of [ngx_http_request_t] that the request line sets. *)
Record fields := {
  request_start : option nat;
  request_end : option nat;
  method_end : option nat;
  method : Z;
  schema_start : option nat;
  schema_end : option nat;
  host_start : option nat;
  host_end : option nat;
  port_end : option nat;
  uri_start : option nat;
  uri_end : option nat;
  uri_ext : option nat;
  args_start : option nat;
  http_protocol : option nat;
  http_major : Z;
  http_minor : Z;
  http_version : Z;
  complex_uri : bool;
  quoted_uri : bool;
  plus_in_uri : bool;
  empty_path_in_uri : bool;
}.
#[export] Instance eta_fields : Eta fields := mk_eta (fun r =>
  Build_fields (request_start r) (request_end r) (method_end r) (method r)
    (schema_start r) (schema_end r) (host_start r) (host_end r) (port_end r)
    (uri_start r) (uri_end r) (uri_ext r) (args_start r) (http_protocol r)
    (http_major r) (http_minor r) (http_version r) (complex_uri r) (quoted_uri r)
    (plus_in_uri r) (empty_path_in_uri r)).

(** The request: [r->state], kept between calls, and the fields above. *)
Record request := { r_state : state; r_fields : fields }.

(** A request just allocated, all its bytes zero, [r->method] excepted:
    ngx_http_alloc_request sets it to [NGX_HTTP_UNKNOWN], and [http_version]
    to 1.0. *)
Definition new_request : request := {|
  r_state := sw_start;
  r_fields := {|
    request_start := None; request_end := None; method_end := None;
    method := NGX_HTTP_UNKNOWN; schema_start := None; schema_end := None;
    host_start := None; host_end := None; port_end := None; uri_start := None;
    uri_end := None; uri_ext := None; args_start := None; http_protocol := None;
    http_major := 0; http_minor := 0; http_version := 1000;
    complex_uri := false; quoted_uri := false; plus_in_uri := false;
    empty_path_in_uri := false;
  |}
|}.

(** ** The outcomes of a state *)

Definition outcome : Type := option (action (state * fields) (exit state fields unit)).

(** [state = st; break]. *)
Definition go (st : state) (r : fields) : outcome := Some (Next (st, r)).
(** [return e]. *)
Definition fail (e : parse_error) (r : fields) : outcome := Some (Exit (Return e r)).
(** [goto done]. *)
Definition goto_done (p : nat) (st : state) (r : fields) : outcome :=
  Some (Exit (Goto tt p st r)).

Definition is_lower_alpha (ch : Z) : bool :=
  let c := u8 (Z.lor ch 0x20) in (c >=? "a"%ch) && (c <=? "z"%ch).
Definition is_num (ch : Z) : bool := (ch >=? "0"%ch) && (ch <=? "9"%ch).

(** ** The method *)

(** [(ch < 'A' || ch > 'Z') && ch != '_' && ch != '-']. *)
Definition bad_method_char (ch : Z) : bool :=
  ((ch <? "A"%ch) || (ch >? "Z"%ch)) && negb (ch =? "_"%ch) && negb (ch =? "-"%ch).

Definition start_case (p : nat) (ch : Z) (r : fields) : outcome :=
  let r := r <| request_start := Some p |> in
  if (ch =? CR) || (ch =? LF) then go sw_start r
  else if bad_method_char ch then fail INVALID_METHOD r
  else go sw_method r.

(** The tests of one [case] of the switch on the length: the first that holds
    sets [r->method] and breaks. *)
Fixpoint first_match (tests : list (option bool * Z)) (method : Z) : option Z :=
  match tests with
  | [] => Some method
  | (test, value) :: tests' =>
      b ← test;
      if (b : bool) then Some value else first_match tests' method
  end.

(** The same without [break]: every test that holds sets [r->method]. *)
Fixpoint last_match (tests : list (option bool * Z)) (method : Z) : option Z :=
  match tests with
  | [] => Some method
  | (test, value) :: tests' =>
      b ← test;
      last_match tests' (if (b : bool) then value else method)
  end.

(** [switch (p - m)]: the new value of [r->method]. *)
Definition parse_method `{StrCmp} (mem : list Z) (m p : nat) (method : Z) : option Z :=
  match (p - m)%nat with
  | 3%nat =>
      first_match [
        (ngx_str3_cmp mem m "G"%ch "E"%ch "T"%ch " "%ch, NGX_HTTP_GET);
        (ngx_str3_cmp mem m "P"%ch "U"%ch "T"%ch " "%ch, NGX_HTTP_PUT)] method
  | 4%nat =>
      m1 ← mem !! (m + 1)%nat;
      if m1 =? "O"%ch then
        first_match [
          (ngx_str3Ocmp mem m "P"%ch "O"%ch "S"%ch "T"%ch, NGX_HTTP_POST);
          (ngx_str3Ocmp mem m "C"%ch "O"%ch "P"%ch "Y"%ch, NGX_HTTP_COPY);
          (ngx_str3Ocmp mem m "M"%ch "O"%ch "V"%ch "E"%ch, NGX_HTTP_MOVE);
          (ngx_str3Ocmp mem m "L"%ch "O"%ch "C"%ch "K"%ch, NGX_HTTP_LOCK)] method
      else
        first_match [(ngx_str4cmp mem m "H"%ch "E"%ch "A"%ch "D"%ch, NGX_HTTP_HEAD)] method
  | 5%nat =>
      first_match [
        (ngx_str5cmp mem m "M"%ch "K"%ch "C"%ch "O"%ch "L"%ch, NGX_HTTP_MKCOL);
        (ngx_str5cmp mem m "P"%ch "A"%ch "T"%ch "C"%ch "H"%ch, NGX_HTTP_PATCH);
        (ngx_str5cmp mem m "T"%ch "R"%ch "A"%ch "C"%ch "E"%ch, NGX_HTTP_TRACE)] method
  | 6%nat =>
      first_match [
        (ngx_str6cmp mem m "D"%ch "E"%ch "L"%ch "E"%ch "T"%ch "E"%ch, NGX_HTTP_DELETE);
        (ngx_str6cmp mem m "U"%ch "N"%ch "L"%ch "O"%ch "C"%ch "K"%ch, NGX_HTTP_UNLOCK)]
        method
  | 7%nat =>
      last_match [
        (ngx_str7_cmp mem m "O"%ch "P"%ch "T"%ch "I"%ch "O"%ch "N"%ch "S"%ch " "%ch,
         NGX_HTTP_OPTIONS);
        (ngx_str7_cmp mem m "C"%ch "O"%ch "N"%ch "N"%ch "E"%ch "C"%ch "T"%ch " "%ch,
         NGX_HTTP_CONNECT)] method
  | 8%nat =>
      last_match [
        (ngx_str8cmp mem m "P"%ch "R"%ch "O"%ch "P"%ch "F"%ch "I"%ch "N"%ch "D"%ch,
         NGX_HTTP_PROPFIND)] method
  | 9%nat =>
      last_match [
        (ngx_str9cmp mem m "P"%ch "R"%ch "O"%ch "P"%ch "P"%ch "A"%ch "T"%ch "C"%ch "H"%ch,
         NGX_HTTP_PROPPATCH)] method
  | _ => Some method
  end.

Definition method_case `{StrCmp} (mem : list Z) (p : nat) (ch : Z) (r : fields) : outcome :=
  if ch =? " "%ch then
    let r := r <| method_end := Some (p - 1)%nat |> in
    m ← request_start r;
    v ← parse_method mem m p (method r);
    go sw_spaces_before_uri (r <| method := v |>)
  else if bad_method_char ch then fail INVALID_METHOD r
  else go sw_method r.

(** ** The schema and the host of an absolute URI *)

Definition spaces_before_uri_case (p : nat) (ch : Z) (r : fields) : outcome :=
  if ch =? "/"%ch then go sw_after_slash_in_uri (r <| uri_start := Some p |>)
  else if is_lower_alpha ch then go sw_schema (r <| schema_start := Some p |>)
  else if ch =? " "%ch then go sw_spaces_before_uri r
  else fail INVALID_REQUEST r.

Definition schema_case (p : nat) (ch : Z) (r : fields) : outcome :=
  if is_lower_alpha ch then go sw_schema r
  else if is_num ch || (ch =? "+"%ch) || (ch =? "-"%ch) || (ch =? "."%ch) then
    go sw_schema r
  else if ch =? ":"%ch then go sw_schema_slash (r <| schema_end := Some p |>)
  else fail INVALID_REQUEST r.

Definition schema_slash_case (ch : Z) (r : fields) : outcome :=
  if ch =? "/"%ch then go sw_schema_slash_slash r else fail INVALID_REQUEST r.

Definition schema_slash_slash_case (ch : Z) (r : fields) : outcome :=
  if ch =? "/"%ch then go sw_host_start r else fail INVALID_REQUEST r.

(** The [case ' '] of [sw_host_end] and [sw_port]: the single "/" of the
    schema becomes the URI. *)
Definition no_path (r : fields) : outcome :=
  e ← schema_end r;
  go sw_http_09 (r <| uri_start := Some (e + 1)%nat |> <| uri_end := Some (e + 2)%nat |>).

Definition host_end_case (p : nat) (ch : Z) (r : fields) : outcome :=
  let r := r <| host_end := Some p |> in
  if ch =? ":"%ch then go sw_port r
  else if ch =? "/"%ch then go sw_after_slash_in_uri (r <| uri_start := Some p |>)
  else if ch =? "?"%ch then
    go sw_uri (r <| uri_start := Some p |> <| args_start := Some (p + 1)%nat |>
                 <| empty_path_in_uri := true |>)
  else if ch =? " "%ch then no_path r
  else fail INVALID_REQUEST r.

Definition host_case (p : nat) (ch : Z) (r : fields) : outcome :=
  if is_lower_alpha ch then go sw_host r
  else if is_num ch || (ch =? "."%ch) || (ch =? "-"%ch) then go sw_host r
  else host_end_case p ch r.

Definition host_start_case (p : nat) (ch : Z) (r : fields) : outcome :=
  let r := r <| host_start := Some p |> in
  if ch =? "["%ch then go sw_host_ip_literal r else host_case p ch r.

Definition host_ip_literal_case (ch : Z) (r : fields) : outcome :=
  if is_num ch then go sw_host_ip_literal r
  else if is_lower_alpha ch then go sw_host_ip_literal r
  else if ch =? ":"%ch then go sw_host_ip_literal r
  else if ch =? "]"%ch then go sw_host_end r
  else if existsb (Z.eqb ch) (bs "-._~") then go sw_host_ip_literal r
  else if existsb (Z.eqb ch) (bs "!$&'()*+,;=") then go sw_host_ip_literal r
  else fail INVALID_REQUEST r.

Definition port_case (p : nat) (ch : Z) (r : fields) : outcome :=
  if is_num ch then go sw_port r
  else if ch =? "/"%ch then
    go sw_after_slash_in_uri (r <| port_end := Some p |> <| uri_start := Some p |>)
  else if ch =? "?"%ch then
    go sw_uri (r <| port_end := Some p |> <| uri_start := Some p |>
                 <| args_start := Some (p + 1)%nat |> <| empty_path_in_uri := true |>)
  else if ch =? " "%ch then no_path (r <| port_end := Some p |>)
  else fail INVALID_REQUEST r.

(** ** The URI *)

(** The [case]s that end a URI: a space, CR or LF. *)
Definition end_of_uri (p : nat) (ch : Z) (st : state) (r : fields) : option outcome :=
  let r := r <| uri_end := Some p |> in
  if ch =? " "%ch then Some (go sw_http_09 r)
  else if ch =? CR then Some (go sw_almost_done (r <| http_minor := 9 |>))
  else if ch =? LF then Some (goto_done p st (r <| http_minor := 9 |>))
  else None.

Definition after_slash_in_uri_case (p : nat) (ch : Z) (r : fields) : outcome :=
  if is_usual ch then go sw_check_uri r
  else
    match end_of_uri p ch sw_after_slash_in_uri r with
    | Some o => o
    | None =>
        if ch =? "."%ch then go sw_uri (r <| complex_uri := true |>)
        else if ch =? "%"%ch then go sw_uri (r <| quoted_uri := true |>)
        else if ch =? "/"%ch then go sw_uri (r <| complex_uri := true |>)
        else if ch =? "?"%ch then go sw_uri (r <| args_start := Some (p + 1)%nat |>)
        else if ch =? "#"%ch then go sw_uri (r <| complex_uri := true |>)
        else if ch =? "+"%ch then go sw_after_slash_in_uri (r <| plus_in_uri := true |>)
        else if (ch <? 0x20) || (ch =? 0x7f) then fail INVALID_REQUEST r
        else go sw_check_uri r
    end.

Definition check_uri_case (p : nat) (ch : Z) (r : fields) : outcome :=
  if is_usual ch then go sw_check_uri r
  else if ch =? "/"%ch then go sw_after_slash_in_uri (r <| uri_ext := None |>)
  else if ch =? "."%ch then go sw_check_uri (r <| uri_ext := Some (p + 1)%nat |>)
  else
    match end_of_uri p ch sw_check_uri r with
    | Some o => o
    | None =>
        if ch =? "%"%ch then go sw_uri (r <| quoted_uri := true |>)
        else if ch =? "?"%ch then go sw_uri (r <| args_start := Some (p + 1)%nat |>)
        else if ch =? "#"%ch then go sw_uri (r <| complex_uri := true |>)
        else if ch =? "+"%ch then go sw_check_uri (r <| plus_in_uri := true |>)
        else if (ch <? 0x20) || (ch =? 0x7f) then fail INVALID_REQUEST r
        else go sw_check_uri r
    end.

Definition uri_case (p : nat) (ch : Z) (r : fields) : outcome :=
  if is_usual ch then go sw_uri r
  else
    match end_of_uri p ch sw_uri r with
    | Some o => o
    | None =>
        if ch =? "#"%ch then go sw_uri (r <| complex_uri := true |>)
        else if (ch <? 0x20) || (ch =? 0x7f) then fail INVALID_REQUEST r
        else go sw_uri r
    end.

(** ** The protocol version *)

Definition http_09_case (p : nat) (ch : Z) (r : fields) : outcome :=
  if ch =? " "%ch then go sw_http_09 r
  else if ch =? CR then go sw_almost_done (r <| http_minor := 9 |>)
  else if ch =? LF then goto_done p sw_http_09 (r <| http_minor := 9 |>)
  else if ch =? "H"%ch then go sw_http_H (r <| http_protocol := Some p |>)
  else fail INVALID_REQUEST r.

(** [sw_http_H] to [sw_http_HTTP]: one letter, then the next state. *)
Definition letter_case (expected : Z) (next : state) (ch : Z) (r : fields) : outcome :=
  if ch =? expected then go next r else fail INVALID_REQUEST r.

Definition first_major_digit_case (ch : Z) (r : fields) : outcome :=
  if (ch <? "1"%ch) || (ch >? "9"%ch) then fail INVALID_REQUEST r
  else
    let r := r <| http_major := ch - "0"%ch |> in
    if http_major r >? 1 then fail INVALID_VERSION r else go sw_major_digit r.

Definition major_digit_case (ch : Z) (r : fields) : outcome :=
  if ch =? "."%ch then go sw_first_minor_digit r
  else if (ch <? "0"%ch) || (ch >? "9"%ch) then fail INVALID_REQUEST r
  else
    let r := r <| http_major := http_major r * 10 + (ch - "0"%ch) |> in
    if http_major r >? 1 then fail INVALID_VERSION r else go sw_major_digit r.

Definition first_minor_digit_case (ch : Z) (r : fields) : outcome :=
  if (ch <? "0"%ch) || (ch >? "9"%ch) then fail INVALID_REQUEST r
  else go sw_minor_digit (r <| http_minor := ch - "0"%ch |>).

Definition minor_digit_case (p : nat) (ch : Z) (r : fields) : outcome :=
  if ch =? CR then go sw_almost_done r
  else if ch =? LF then goto_done p sw_minor_digit r
  else if ch =? " "%ch then go sw_spaces_after_digit r
  else if (ch <? "0"%ch) || (ch >? "9"%ch) then fail INVALID_REQUEST r
  else if http_minor r >? 99 then fail INVALID_REQUEST r
  else go sw_minor_digit (r <| http_minor := http_minor r * 10 + (ch - "0"%ch) |>).

Definition spaces_after_digit_case (p : nat) (ch : Z) (r : fields) : outcome :=
  if ch =? " "%ch then go sw_spaces_after_digit r
  else if ch =? CR then go sw_almost_done r
  else if ch =? LF then goto_done p sw_spaces_after_digit r
  else fail INVALID_REQUEST r.

Definition almost_done_case (p : nat) (ch : Z) (r : fields) : outcome :=
  let r := r <| request_end := Some (p - 1)%nat |> in
  if ch =? LF then goto_done p sw_almost_done r else fail INVALID_REQUEST r.

(** ** The function *)

Definition step `{StrCmp} (mem : list Z) (p : nat) (ch : Z) (l : state * fields) : outcome :=
  let '(st, r) := l in
  match st with
  | sw_start => start_case p ch r
  | sw_method => method_case mem p ch r
  | sw_spaces_before_uri => spaces_before_uri_case p ch r
  | sw_schema => schema_case p ch r
  | sw_schema_slash => schema_slash_case ch r
  | sw_schema_slash_slash => schema_slash_slash_case ch r
  | sw_host_start => host_start_case p ch r
  | sw_host => host_case p ch r
  | sw_host_end => host_end_case p ch r
  | sw_host_ip_literal => host_ip_literal_case ch r
  | sw_port => port_case p ch r
  | sw_after_slash_in_uri => after_slash_in_uri_case p ch r
  | sw_check_uri => check_uri_case p ch r
  | sw_uri => uri_case p ch r
  | sw_http_09 => http_09_case p ch r
  | sw_http_H => letter_case "T"%ch sw_http_HT ch r
  | sw_http_HT => letter_case "T"%ch sw_http_HTT ch r
  | sw_http_HTT => letter_case "P"%ch sw_http_HTTP ch r
  | sw_http_HTTP => letter_case "/"%ch sw_first_major_digit ch r
  | sw_first_major_digit => first_major_digit_case ch r
  | sw_major_digit => major_digit_case ch r
  | sw_first_minor_digit => first_minor_digit_case ch r
  | sw_minor_digit => minor_digit_case p ch r
  | sw_spaces_after_digit => spaces_after_digit_case p ch r
  | sw_almost_done => almost_done_case p ch r
  end.

(** The code at [done:], from [p]: the result, the request and [b->pos]. *)
Definition done_label (p : nat) (r : fields) : Z * request * nat :=
  let r := match request_end r with
           | None => r <| request_end := Some p |>
           | Some _ => r
           end in
  let r := r <| http_version := http_major r * 1000 + http_minor r |> in
  let rc := if (http_version r =? 9) && negb (method r =? NGX_HTTP_GET)
            then NGX_HTTP_PARSE_INVALID_09_METHOD else NGX_OK in
  (rc, {| r_state := sw_start; r_fields := r |}, (p + 1)%nat).

Definition ngx_http_parse_request_line `{StrCmp} (mem : list Z) (r : request)
    (b : ngx_buf_t) : option (Z * request * ngx_buf_t) :=
  a ← scan (step mem) mem (pos b) (last b - pos b) (r_state r, r_fields r);
  Some match a with
  | Next (p, (st, f)) => (NGX_AGAIN, {| r_state := st; r_fields := f |}, b <| pos := p |>)
  | Exit (Return e f) => (error_code e, {| r_state := r_state r; r_fields := f |}, b)
  | Exit (Goto _ p _ f) =>
      let '(rc, r', p') := done_label p f in (rc, r', b <| pos := p' |>)
  end.

(** ** The method names *)

Fixpoint eqb_bytes (l1 l2 : list Z) : bool :=
  match l1, l2 with
  | [], [] => true
  | c1 :: l1', c2 :: l2' => (c1 =? c2) && eqb_bytes l1' l2'
  | _, _ => false
  end.

Definition method_table : list (list Z * Z) := [
  (bs "GET", NGX_HTTP_GET); (bs "PUT", NGX_HTTP_PUT);
  (bs "POST", NGX_HTTP_POST); (bs "COPY", NGX_HTTP_COPY); (bs "MOVE", NGX_HTTP_MOVE);
  (bs "LOCK", NGX_HTTP_LOCK); (bs "HEAD", NGX_HTTP_HEAD);
  (bs "MKCOL", NGX_HTTP_MKCOL); (bs "PATCH", NGX_HTTP_PATCH); (bs "TRACE", NGX_HTTP_TRACE);
  (bs "DELETE", NGX_HTTP_DELETE); (bs "UNLOCK", NGX_HTTP_UNLOCK);
  (bs "OPTIONS", NGX_HTTP_OPTIONS); (bs "CONNECT", NGX_HTTP_CONNECT);
  (bs "PROPFIND", NGX_HTTP_PROPFIND); (bs "PROPPATCH", NGX_HTTP_PROPPATCH) ].

(** The value of a method name, [method] for an unknown one. *)
Definition method_of_name (name : list Z) (method : Z) : Z :=
  match find (fun entry => (length entry.1 =? length name)%nat && eqb_bytes name entry.1)
          method_table with
  | Some (_, v) => v
  | None => method
  end.

Section Method.
(** The method name at [m], the space at [p] and one more byte. *)
Variables (mem name : list Z) (m : nat) (x : Z).
Hypothesis name_ok : bytes_ok (name ++ [" "%ch; x]).
Hypothesis at_m : forall i c, (name ++ [" "%ch; x]) !! i = Some c -> mem !! (m + i)%nat = Some c.

Lemma byte_is_at i c b :
  (name ++ [" "%ch; x]) !! i = Some b -> byte_is mem (m + i) c = Some (b =? c).
Proof. intros Hi. unfold byte_is. by rewrite (at_m i b). Qed.

Lemma pack32_inj a0 a1 a2 a3 b0 b1 b2 b3 :
  is_u8 a0 -> is_u8 a1 -> is_u8 a2 -> is_u8 a3 ->
  is_u8 b0 -> is_u8 b1 -> is_u8 b2 -> is_u8 b3 ->
  (pack32 a0 a1 a2 a3 =? pack32 b0 b1 b2 b3)
  = (a0 =? b0) && (a1 =? b1) && (a2 =? b2) && (a3 =? b3).
Proof.
  unfold is_u8, pack32. intros.
  assert (forall c0 c1 c2 c3, 0 <= c0 < 256 -> 0 <= c1 < 256 -> 0 <= c2 < 256 ->
    0 <= c3 < 256 ->
    Z.lor (Z.lor (Z.lor (Z.shiftl c3 24) (Z.shiftl c2 16)) (Z.shiftl c1 8)) c0
    = c3 * 2 ^ 24 + c2 * 2 ^ 16 + c1 * 2 ^ 8 + c0) as Hsum.
  { intros c0 c1 c2 c3 ? ? ? ?.
    rewrite (lor_shiftl_add c3 (Z.shiftl c2 16) 24) by (rewrite ?shiftl_mul; lia).
    replace (c3 * 2 ^ 24 + Z.shiftl c2 16) with (Z.shiftl (c3 * 256 + c2) 16)
      by (rewrite !shiftl_mul; lia).
    rewrite lor_shiftl_add by (rewrite ?shiftl_mul; lia).
    replace ((c3 * 256 + c2) * 2 ^ 16 + Z.shiftl c1 8)
      with (Z.shiftl (c3 * 65536 + c2 * 256 + c1) 8) by (rewrite !shiftl_mul; lia).
    rewrite lor_shiftl_add by lia. lia. }
  rewrite !Hsum by lia. apply eq_true_iff_eq. lia.
Qed.

Lemma word_is_at i c0 c1 c2 c3 b0 b1 b2 b3 :
  (name ++ [" "%ch; x]) !! i = Some b0 ->
  (name ++ [" "%ch; x]) !! (i + 1)%nat = Some b1 ->
  (name ++ [" "%ch; x]) !! (i + 2)%nat = Some b2 ->
  (name ++ [" "%ch; x]) !! (i + 3)%nat = Some b3 ->
  is_u8 c0 -> is_u8 c1 -> is_u8 c2 -> is_u8 c3 ->
  word_is mem (m + i) c0 c1 c2 c3
  = Some ((b0 =? c0) && (b1 =? c1) && (b2 =? c2) && (b3 =? c3)).
Proof.
  intros H0 H1 H2 H3 ? ? ? ?. unfold word_is, load32.
  rewrite <- !Nat.add_assoc.
  rewrite (at_m _ _ H0), (at_m _ _ H1), (at_m _ _ H2), (at_m _ _ H3).
  cbn [mbind option_bind].
  change (Z.lor (Z.lor (Z.lor (Z.shiftl b3 24) (Z.shiftl b2 16)) (Z.shiftl b1 8)) b0)
    with (pack32 b0 b1 b2 b3).
  assert (forall j b, (name ++ [32; x]) !! j = Some b -> is_u8 b) as Hb
    by (intros j b Hj; by eapply Forall_lookup_1 in Hj).
  rewrite pack32_inj by eauto. done.
Qed.

Lemma half_word_at i c0 c1 b0 b1 b2 b3 :
  (name ++ [" "%ch; x]) !! i = Some b0 ->
  (name ++ [" "%ch; x]) !! (i + 1)%nat = Some b1 ->
  (name ++ [" "%ch; x]) !! (i + 2)%nat = Some b2 ->
  (name ++ [" "%ch; x]) !! (i + 3)%nat = Some b3 ->
  is_u8 c0 -> is_u8 c1 ->
  (w ← load32 mem (m + i); Some (Z.land w 0xffff =? Z.lor (Z.shiftl c1 8) c0))
  = Some ((b0 =? c0) && (b1 =? c1)).
Proof.
  intros H0 H1 H2 H3 Hc0 Hc1. unfold load32. rewrite <- !Nat.add_assoc.
  rewrite (at_m _ _ H0), (at_m _ _ H1), (at_m _ _ H2), (at_m _ _ H3).
  cbn [mbind option_bind].
  assert (forall j b, (name ++ [32; x]) !! j = Some b -> is_u8 b) as Hb
    by (intros j b Hj; by eapply Forall_lookup_1 in Hj).
  apply Hb in H0, H1, H2, H3. unfold is_u8 in *. f_equal.
  change 0xffff with (Z.ones 16). rewrite Z.land_lor_distr_l, Z.land_lor_distr_l,
    Z.land_lor_distr_l, !Z.land_ones by done.
  rewrite !shiftl_mul by done.
  replace ((b3 * 2 ^ 24) mod 2 ^ 16) with 0 by lia_mod.
  replace ((b2 * 2 ^ 16) mod 2 ^ 16) with 0 by lia_mod.
  rewrite !Z.lor_0_l, !Z.mod_small by lia.
  rewrite <- !shiftl_mul, !lor_shiftl_add by lia. apply eq_true_iff_eq. lia.
Qed.

Lemma bytes_are_at i cs :
  (i + length cs <= length (name ++ [" "%ch; x]))%nat ->
  bytes_are mem (m + i) cs
  = Some (eqb_bytes (take (length cs) (drop i (name ++ [" "%ch; x]))) cs).
Proof.
  revert i. induction cs as [|c cs IH]; intros i Hlen; [done|].
  cbn [length] in Hlen.
  destruct (lookup_lt_is_Some_2 (name ++ [32; x]) i) as [b Hb]; [lia|].
  rewrite (drop_S _ b i Hb). cbn [bytes_are length take eqb_bytes].
  rewrite (byte_is_at i c b Hb). cbn [and_then].
  destruct (b =? c); [|done]. rewrite plus_n_Sm. apply IH. lia.
Qed.
End Method.

(** Close a comparison of two nests of byte tests. *)
Ltac byte_tests :=
  repeat match goal with
  | |- context [?a =? ?b] =>
      lazymatch a with
      | context [_ =? _] => fail
      | _ => destruct (a =? b) eqn:?; cbn [andb and_then first_match last_match mbind option_bind]
      end
  end; first [reflexivity | exfalso; lia].

(** Both comparison interfaces, on a name of the text. *)
Ltac name_cases name :=
  destruct name as [|a0 [|a1 [|a2 [|a3 [|a4 [|a5 [|a6 [|a7 [|a8 [|a9 name]]]]]]]]]];
    [done..| | | | | | | |done].

Lemma parse_method_portable mem name m x old :
  (forall i c, (name ++ [" "%ch; x]) !! i = Some c -> mem !! (m + i)%nat = Some c) ->
  parse_method (H := cmp_portable) mem m (m + length name) old
  = Some (method_of_name name old).
Proof.
  intros Hat. unfold parse_method.
  replace (m + length name - m)%nat with (length name) by lia.
  pose proof (bytes_are_at mem name m x Hat 0) as H0.
  pose proof (bytes_are_at mem name m x Hat 2) as H2.
  pose proof (fun c b => byte_is_at mem name m x Hat 0 c b) as Hb.
  rewrite Nat.add_0_r in H0, Hb.
  name_cases name; cbn [length ngx_str3_cmp ngx_str3Ocmp ngx_str4cmp ngx_str5cmp
    ngx_str6cmp ngx_str7_cmp ngx_str8cmp ngx_str9cmp cmp_portable];
    try rewrite (Hat 1%nat a1 eq_refl);
    try rewrite !(Hb _ a0 eq_refl);
    try rewrite !H2 by (cbn [length app]; lia);
    try rewrite !H0 by (cbn [length app]; lia);
    unfold method_of_name;
    (let t := eval vm_compute in method_table in change method_table with t);
    cbn [find length Nat.eqb fst andb eqb_bytes take drop app
         mbind option_bind first_match last_match and_then];
    byte_tests.
Qed.

Lemma parse_method_nonaligned mem name m x old :
  bytes_ok (name ++ [" "%ch; x]) ->
  (forall i c, (name ++ [" "%ch; x]) !! i = Some c -> mem !! (m + i)%nat = Some c) ->
  parse_method (H := cmp_nonaligned) mem m (m + length name) old
  = Some (method_of_name name old).
Proof.
  intros Hok Hat. unfold parse_method.
  replace (m + length name - m)%nat with (length name) by lia.
  pose proof (word_is_at mem name m x Hok Hat 0) as H0. rewrite Nat.add_0_r in H0.
  pose proof (word_is_at mem name m x Hok Hat 4) as H4.
  pose proof (half_word_at mem name m x Hok Hat 4) as Hh.
  pose proof (byte_is_at mem name m x Hat) as Hb.
  name_cases name; cbn [length ngx_str3_cmp ngx_str3Ocmp ngx_str4cmp ngx_str5cmp
    ngx_str6cmp ngx_str7_cmp ngx_str8cmp ngx_str9cmp cmp_nonaligned];
    try rewrite (Hat 1%nat a1 eq_refl);
    repeat (erewrite H0 by first [reflexivity | unfold is_u8; lia]);
    repeat (erewrite H4 by first [reflexivity | unfold is_u8; lia]);
    repeat (erewrite Hh by first [reflexivity | unfold is_u8; lia]);
    repeat (erewrite Hb by reflexivity);
    unfold method_of_name;
    (let t := eval vm_compute in method_table in change method_table with t);
    cbn [find length Nat.eqb fst andb eqb_bytes mbind option_bind first_match last_match
         and_then];
    byte_tests.
Qed.

(** What the parser needs of the comparison macros, however they read the
    memory. *)
Class StrCmpOk (cmp : StrCmp) : Prop :=
  cmp_correct : forall mem name m x old,
    bytes_ok (name ++ [" "%ch; x]) ->
    (forall i c, (name ++ [" "%ch; x]) !! i = Some c -> mem !! (m + i)%nat = Some c) ->
    parse_method (H := cmp) mem m (m + length name) old = Some (method_of_name name old).

#[export] Instance cmp_nonaligned_ok : StrCmpOk cmp_nonaligned.
Proof. intros mem name m x old. apply parse_method_nonaligned. Qed.
#[export] Instance cmp_portable_ok : StrCmpOk cmp_portable.
Proof. intros mem name m x old _. apply parse_method_portable. Qed.

(** The word-wise method comparisons are what the portable ones are: for
    every method name between [request_start] and the space that ends it, both
    versions of the macros classify the name as the table of method names
    does, and an unknown name leaves [r->method] as it was.  The word-wise
    version reads one byte after the space. *)
Theorem parse_method_correct (mem name : list Z) (m : nat) (x old : Z)
    (Hok : bytes_ok (name ++ [" "%ch; x]))
    (Hat : forall i c, (name ++ [" "%ch; x]) !! i = Some c -> mem !! (m + i)%nat = Some c) :
  parse_method (H := cmp_nonaligned) mem m (m + length name) old
  = Some (method_of_name name old)
  /\ parse_method (H := cmp_portable) mem m (m + length name) old
  = Some (method_of_name name old).
Proof.
  split; [by eapply parse_method_nonaligned|by eapply parse_method_portable].
Qed.

Lemma parse_method_correct_witness :
  parse_method (H := cmp_nonaligned) (bs "PROPFIND / ") 0 8 1 = Some NGX_HTTP_PROPFIND.
Proof.
  apply (parse_method_correct (bs "PROPFIND / ") (bs "PROPFIND") 0 "/"%ch 1).
  - repeat constructor; vm_compute; intuition discriminate.
  - intros i c Hi. do 10 (destruct i as [|i]; [exact Hi|]). discriminate.
Defined.

(** ** Resuming *)

Lemma request_eta r : {| r_state := r_state r; r_fields := r_fields r |} = r.
Proof. by destruct r. Qed.

Lemma done_label_rc p r : (done_label p r).1.1 <> NGX_AGAIN.
Proof. unfold done_label. cbn [fst]. by case_match. Qed.

#[export] Instance request_line_parser `{StrCmp} :
  IncrementalParser request state fields unit := {|
  parser_load r := (r_state r, r_fields r);
  parser_save st f := {| r_state := st; r_fields := f |};
  parser_step := step;
  parser_label _ p _ _ f := done_label p f;
  parser_same _ := eq;
  parser_load_save _ _ := eq_refl;
  parser_save_load := request_eta;
  parser_label_rc _ p _ _ f := done_label_rc p f;
  parser_label_same _ _ _ _ _ _ := conj eq_refl (conj eq_refl (conj eq_refl eq_refl));
|}.

Lemma ngx_http_parse_request_line_run `{StrCmp} mem r b :
  ngx_http_parse_request_line mem r b = run_parser mem r b.
Proof.
  unfold ngx_http_parse_request_line, run_parser. cbn [parser_step parser_load request_line_parser].
  destruct (scan _ _ _ _ _) as [[[p [st f]]|[e f|[] p st f]]|]; done.
Qed.

(** The request line may arrive in any number of pieces: when the bytes up
    to [last1] are not enough, the next call over the bytes up to [last2], on
    the request and buffer the first one left, gives what a single call would
    have given; and once a result is known, bytes that follow do not change
    it. *)
Theorem ngx_http_parse_request_line_resume `{StrCmp} (mem : list Z) (r : request)
    (p last1 last2 : nat) (rc1 : Z) (r1 : request) (b1 : ngx_buf_t)
    (Hp : (p <= last1 <= last2)%nat)
    (Hrun : ngx_http_parse_request_line mem r {| pos := p; last := last1 |}
            = Some (rc1, r1, b1)) :
  if rc1 =? NGX_AGAIN then
    option_Forall2 same_result
      (ngx_http_parse_request_line mem r1 {| pos := pos b1; last := last2 |})
      (ngx_http_parse_request_line mem r {| pos := p; last := last2 |})
  else
    exists y, ngx_http_parse_request_line mem r {| pos := p; last := last2 |} = Some y
      /\ same_result (rc1, r1, b1) y.
Proof.
  rewrite !ngx_http_parse_request_line_run in *.
  by apply (run_parser_resume mem r p last1 last2).
Qed.

Lemma ngx_http_parse_request_line_resume_witness :
  let mem := bs "GET /a HTTP/1.1" ++ [CR; LF] in
  exists r1 b1,
    option_Forall2 (@same_result _ _ _ _ (@request_line_parser cmp_portable))
      (ngx_http_parse_request_line (H := cmp_portable) mem r1 {| pos := pos b1; last := 17 |})
      (ngx_http_parse_request_line (H := cmp_portable) mem new_request
         {| pos := 0; last := 17 |}).
Proof.
  intros mem. eexists _, _.
  apply (ngx_http_parse_request_line_resume (H := cmp_portable) mem new_request 0 6 17
           NGX_AGAIN _ _); [lia | vm_compute; reflexivity].
Defined.

(** ** What a request line can make of the request *)

Section Safety.
Context {cmp : StrCmp} `{!StrCmpOk cmp}.
Variable mem : list Z.
Hypothesis mem_ok : bytes_ok mem.
(** The bytes from [us] to [ue] are bytes of a URI. *)
Definition uri_region (us ue : nat) : Prop :=
  forall i c, (us <= i < ue)%nat -> mem !! i = Some c -> uri_byte c.

Definition in_uri (p : nat) (r : fields) : Prop :=
  exists us, uri_start r = Some us /\ (us < p)%nat /\ uri_region us p.

Definition has_uri (p : nat) (r : fields) : Prop :=
  exists us ue, uri_start r = Some us /\ uri_end r = Some ue
    /\ (us < ue <= p)%nat /\ uri_region us ue.

(** What holds of the fields in each state before the byte at [p] is read. *)
Definition line_inv (p : nat) (l : state * fields) : Prop :=
  let '(st, r) := l in
  match st with
  | sw_start | sw_spaces_before_uri | sw_schema => True
  | sw_method => exists m, request_start r = Some m /\ (m < p)%nat
  | sw_schema_slash => exists e, schema_end r = Some e /\ p = (e + 1)%nat
  | sw_schema_slash_slash =>
      exists e, schema_end r = Some e /\ p = (e + 2)%nat /\ mem !! (e + 1)%nat = Some "/"%ch
  | sw_host_start | sw_host | sw_host_end | sw_host_ip_literal | sw_port =>
      exists e, schema_end r = Some e /\ (e + 2 <= p)%nat
        /\ mem !! (e + 1)%nat = Some "/"%ch
  | sw_after_slash_in_uri | sw_check_uri | sw_uri => in_uri p r
  | _ => has_uri p r
  end.

Lemma uri_region_snoc us p c :
  uri_region us p -> mem !! p = Some c -> uri_byte c -> uri_region us (S p).
Proof.
  intros Hr Hc Hb i d Hi Hd. destruct (decide (i = p)) as [->|]; [congruence|].
  apply (Hr i); [lia|done].
Qed.

Lemma uri_region_one p c : mem !! p = Some c -> uri_byte c -> uri_region p (S p).
Proof. intros Hc Hb i d Hi Hd. replace i with p in Hd by lia. congruence. Qed.

Lemma parse_method_total m p old :
  (m < p)%nat -> (p + 1 < length mem)%nat -> mem !! p = Some " "%ch ->
  parse_method mem m p old
  = Some (method_of_name (take (p - m) (drop m mem)) old).
Proof.
  intros Hm Hp Hsp. set (name := take (p - m) (drop m mem)).
  assert (length name = p - m)%nat as Hlen
    by (unfold name; rewrite length_take, length_drop; lia).
  destruct (lookup_lt_is_Some_2 mem (p + 1)) as [x Hx]; [done|].
  replace p with (m + length name)%nat at 1 by lia.
  assert (forall i c, (name ++ [" "%ch; x]) !! i = Some c -> mem !! (m + i)%nat = Some c)
    as Hat.
  { intros i c. rewrite lookup_app_Some. intros [Hi|[Hge Hi]].
    - unfold name in Hi. apply lookup_take_Some in Hi as [Hi _].
      by rewrite lookup_drop in Hi.
    - rewrite Hlen in *.
      destruct (i - (p - m))%nat as [|[|k]] eqn:Hk; simplify_eq/=.
      + by replace (m + i)%nat with p by lia.
      + by replace (m + i)%nat with (p + 1)%nat by lia. }
  apply (cmp_correct mem name m x old); [|done].
  apply Forall_lookup_2. intros i c Hi%Hat. by eapply Forall_lookup_1 in Hi.
Qed.

(** [b->last], with at least one byte of the buffer behind it. *)
Variable lim : nat.
Hypothesis lim_ok : (lim < length mem)%nat.

Definition line_exit (e : exit state fields unit) : Prop :=
  match e with
  | Return _ _ => True
  | Goto _ p _ r => (p < lim)%nat /\ has_uri p r
  end.

(** The outcomes of a state that keep the invariant. *)
Definition keeps (p : nat) (o : outcome) : Prop :=
  exists a, o = Some a
    /\ match a with Next l => line_inv (S p) l | Exit e => line_exit e end.

Lemma line_keeps_go p st r : line_inv (S p) (st, r) -> keeps p (go st r).
Proof. intros. by exists (Next (st, r)). Qed.

Lemma line_keeps_fail p e r : keeps p (fail e r).
Proof. by exists (Exit (Return e r)). Qed.

Lemma keeps_done p st r : (p < lim)%nat -> has_uri p r -> keeps p (goto_done p st r).
Proof. intros. by exists (Exit (Goto tt p st r)). Qed.

Lemma has_uri_S p r : has_uri p r -> has_uri (S p) r.
Proof. intros (us & ue & ? & ? & ? & ?). exists us, ue. split_and!; auto with lia. Qed.

Lemma in_uri_S p ch r r' :
  mem !! p = Some ch -> uri_byte ch -> in_uri p r -> uri_start r' = uri_start r ->
  in_uri (S p) r'.
Proof.
  intros Hch Hb (us & Hus & Hlt & Hreg) Heq. exists us.
  split_and!; [congruence|lia|by eapply uri_region_snoc].
Qed.

Lemma in_uri_start p ch r :
  mem !! p = Some ch -> uri_byte ch -> uri_start r = Some p -> in_uri (S p) r.
Proof. intros. exists p. split_and!; [done|lia|by eapply uri_region_one]. Qed.

Lemma in_uri_end p r r' :
  in_uri p r -> uri_start r' = uri_start r -> uri_end r' = Some p -> has_uri p r'.
Proof.
  intros (us & Hus & Hlt & Hreg) Heq Hend. exists us, p. split_and!; [congruence|done|lia|lia|done].
Qed.

Lemma no_path_keeps p r r' e :
  schema_end r' = Some e -> (e + 2 <= p)%nat -> mem !! (e + 1)%nat = Some "/"%ch ->
  schema_end r = schema_end r' -> keeps p (no_path r).
Proof.
  intros He Hle Hslash Heq. unfold no_path. rewrite Heq, He. cbn [mbind option_bind].
  apply line_keeps_go. exists (e + 1)%nat, (e + 2)%nat. split_and!; [done|done|lia|lia|].
  intros i c Hi Hc. replace i with (e + 1)%nat in Hc by lia. simplify_eq.
  unfold uri_byte. lia.
Qed.

Lemma end_of_uri_keeps p ch st r o :
  (p < lim)%nat -> in_uri p r -> end_of_uri p ch st r = Some o -> keeps p o.
Proof.
  intros Hp Hin. unfold end_of_uri. repeat case_match; intros; simplify_eq;
    first [apply line_keeps_go, has_uri_S | apply keeps_done; [done|]]; by eapply in_uri_end.
Qed.

Lemma end_of_uri_none p ch st r :
  end_of_uri p ch st r = None -> (ch <? 0x20) || (ch =? 0x7f) = false -> uri_byte ch.
Proof. unfold end_of_uri, uri_byte. repeat case_match; intros; simplify_eq; lia. Qed.

(** The states inside the URI: whatever is not refused and does not end it
    extends the region. *)
Lemma uri_states_keep p ch st r :
  (p < lim)%nat -> mem !! p = Some ch -> in_uri p r ->
  st = sw_after_slash_in_uri \/ st = sw_check_uri \/ st = sw_uri ->
  keeps p (step mem p ch (st, r)).
Proof.
  intros Hp Hch Hin Hst.
  assert (is_u8 ch) as Hu8 by by eapply Forall_lookup_1 in Hch.
  assert (forall st' r', is_usual ch = true ->
    st' = sw_after_slash_in_uri \/ st' = sw_check_uri \/ st' = sw_uri ->
    uri_start r' = uri_start r -> keeps p (go st' r')) as Husual.
  { intros st' r' Hu Hst' Heq. apply line_keeps_go.
    pose proof (in_uri_S p ch r r' Hch (is_usual_uri_byte ch Hu8 Hu) Hin Heq).
    by destruct Hst' as [->|[->| ->]]. }
  assert (forall st' r', uri_byte ch ->
    st' = sw_after_slash_in_uri \/ st' = sw_check_uri \/ st' = sw_uri ->
    uri_start r' = uri_start r -> keeps p (go st' r')) as Hgo.
  { intros st' r' Hu Hst' Heq. apply line_keeps_go.
    pose proof (in_uri_S p ch r r' Hch Hu Hin Heq).
    by destruct Hst' as [->|[->| ->]]. }
  destruct Hst as [->|[->| ->]]; cbn [step];
    unfold after_slash_in_uri_case, check_uri_case, uri_case; repeat case_match;
    first [ apply line_keeps_fail
          | by eapply end_of_uri_keeps
          | apply Husual; by auto
          | apply Hgo; [unfold uri_byte; lia|by auto|done]
          | apply Hgo; [by eapply end_of_uri_none|by auto|done] ].
Qed.

Lemma host_states_keep p ch st r e :
  mem !! p = Some ch ->
  schema_end r = Some e -> (e + 2 <= p)%nat -> mem !! (e + 1)%nat = Some "/"%ch ->
  st = sw_host_start \/ st = sw_host \/ st = sw_host_end \/ st = sw_host_ip_literal
    \/ st = sw_port ->
  keeps p (step mem p ch (st, r)).
Proof.
  intros Hch He Hle Hslash Hst.
  assert (forall st' r', schema_end r' = Some e ->
    st' = sw_host_start \/ st' = sw_host \/ st' = sw_host_end \/ st' = sw_host_ip_literal
    \/ st' = sw_port -> keeps p (go st' r')) as Hgo.
  { intros st' r' He' Hst'. apply line_keeps_go.
    assert (exists e, schema_end r' = Some e /\ (e + 2 <= S p)%nat
            /\ mem !! (e + 1)%nat = Some 47) by eauto with lia.
    by destruct Hst' as [->|[->|[->|[->| ->]]]]. }
  assert (forall st' r', uri_byte ch -> st' = sw_after_slash_in_uri \/ st' = sw_uri ->
    uri_start r' = Some p -> keeps p (go st' r')) as Huri.
  { intros st' r' Hb Hst' Hus. apply line_keeps_go.
    pose proof (in_uri_start p ch r' Hch Hb Hus). by destruct Hst' as [-> | ->]. }
  destruct Hst as [->|[->|[->|[->| ->]]]]; cbn [step];
    unfold host_start_case, host_case, host_end_case, host_ip_literal_case, port_case;
    repeat case_match;
    first [ apply line_keeps_fail
          | apply Hgo; [done|by auto]
          | apply Huri; [unfold uri_byte; lia|by auto|done]
          | by eapply no_path_keeps
          | apply Hgo; [done|tauto] ].
Qed.

(** The states after the URI keep what was found of it. *)
Lemma version_states_keep p ch st r :
  (p < lim)%nat -> has_uri p r ->
  match st with
  | sw_http_09 | sw_http_H | sw_http_HT | sw_http_HTT | sw_http_HTTP
  | sw_first_major_digit | sw_major_digit | sw_first_minor_digit | sw_minor_digit
  | sw_spaces_after_digit | sw_almost_done => True
  | _ => False
  end -> keeps p (step mem p ch (st, r)).
Proof.
  intros Hp Hu Hst.
  assert (forall st' r', line_inv (S p) (st', r') = has_uri (S p) r' ->
    uri_start r' = uri_start r -> uri_end r' = uri_end r -> keeps p (go st' r')) as Hgo.
  { intros st' r' Heq Hs He. apply line_keeps_go. rewrite Heq. apply has_uri_S.
    unfold has_uri. by rewrite Hs, He. }
  assert (forall r', uri_start r' = uri_start r -> uri_end r' = uri_end r ->
    has_uri p r') as Hr'.
  { intros r' Hs He. unfold has_uri. by rewrite Hs, He. }
  destruct st; try contradiction Hst; cbn [step];
    unfold http_09_case, letter_case, first_major_digit_case,
      major_digit_case, first_minor_digit_case, minor_digit_case, spaces_after_digit_case,
      almost_done_case; repeat case_match;
    first [ apply line_keeps_fail | by apply keeps_done; [|apply Hr'] | by apply Hgo ].
Qed.

Lemma line_start_keeps p ch r :
  (p < lim)%nat -> keeps p (start_case p ch r).
Proof.
  intros Hp. unfold start_case. repeat case_match; [by apply line_keeps_go|apply line_keeps_fail|].
  apply line_keeps_go. exists p. split; [done|lia].
Qed.

Lemma method_keeps p ch r m :
  (p < lim)%nat -> mem !! p = Some ch ->
  request_start r = Some m -> (m < p)%nat -> keeps p (method_case mem p ch r).
Proof.
  intros Hp Hch Hm Hlt. unfold method_case.
  destruct (Z.eqb_spec ch 32) as [->|_]; [|case_match; [apply line_keeps_fail|]].
  - cbn [request_start field_set]. rewrite Hm. cbn [mbind option_bind].
    rewrite parse_method_total by (done || lia). cbn [mbind option_bind].
    by apply line_keeps_go.
  - apply line_keeps_go. exists m. split; [done|lia].
Qed.

Lemma schema_states_keep p ch st r :
  mem !! p = Some ch -> line_inv p (st, r) ->
  st = sw_spaces_before_uri \/ st = sw_schema \/ st = sw_schema_slash
    \/ st = sw_schema_slash_slash ->
  keeps p (step mem p ch (st, r)).
Proof.
  intros Hch Hinv [->|[->|[->| ->]]]; cbn [step line_inv] in *;
    unfold spaces_before_uri_case, schema_case, schema_slash_case, schema_slash_slash_case;
    repeat case_match; try apply line_keeps_fail; apply line_keeps_go; try exact I.
  - apply (in_uri_start p ch); [done|unfold uri_byte; lia|done].
  - exists p. split; [done|lia].
  - destruct Hinv as (e & He & ->). exists e. split_and!; [done|lia|].
    rewrite Hch. f_equal. lia.
  - destruct Hinv as (e & He & -> & Hs). exists e. split_and!; [done|lia|done].
Qed.

Lemma line_step_keeps p ch l :
  (p < lim)%nat -> mem !! p = Some ch -> line_inv p l ->
  keeps p (step mem p ch l).
Proof.
  intros Hp Hch Hinv. destruct l as [st r]. destruct st;
    first [ by apply line_start_keeps
          | by destruct Hinv as (m & ? & ?); eapply method_keeps
          | apply schema_states_keep; by auto
          | by apply uri_states_keep; auto
          | by apply version_states_keep
          | by destruct Hinv as (e & He & Hle & Hslash);
               eapply host_states_keep; eauto 10 ].
Qed.

(** Whatever bytes arrive, the loop stays inside the memory and leaves the
    fields as [line_inv] and [line_exit] say. *)
Lemma request_line_scan p n st r :
  line_inv p (st, r) -> (p + n <= lim)%nat ->
  exists a, scan (step mem) mem p n (st, r) = Some a
    /\ match a with
       | Next (p', l) => p' = (p + n)%nat /\ line_inv p' l
       | Exit e => line_exit e
       end.
Proof.
  intros Hinv Hlen.
  apply (scan_invariant (step mem) mem line_inv line_exit lim);
    [|done|lia].
  intros p' ch l Hp' Hch Hl. apply line_step_keeps; [lia|done..].
Qed.
End Safety.

(** C22: on any input the request line parser reads only received bytes, plus at
    most one byte after them, and returns; and when it accepts, it has found a
    URI: [uri_start] and [uri_end] are set, [uri_start < uri_end], and between
    them there is no space, no control character and no DEL. *)
Theorem ngx_http_parse_request_line_uri {cmp : StrCmp} `{!StrCmpOk cmp} (mem : list Z)
    (r : request) (b : ngx_buf_t)
    (Hmem : bytes_ok mem) (Hst : r_state r = sw_start)
    (Hlast : (pos b <= last b < length mem)%nat) :
  exists rc r' b', ngx_http_parse_request_line mem r b = Some (rc, r', b')
    /\ (rc = NGX_OK ->
        exists us ue, uri_start (r_fields r') = Some us /\ uri_end (r_fields r') = Some ue
          /\ (us < ue)%nat /\ (ue < pos b' <= last b)%nat
          /\ forall i c, (us <= i < ue)%nat -> mem !! i = Some c -> uri_byte c).
Proof.
  destruct (request_line_scan mem Hmem (last b) ltac:(lia) (pos b) (last b - pos b)
              sw_start (r_fields r)) as (a & Ha & Hpost); [done|lia|].
  unfold ngx_http_parse_request_line. rewrite Hst, Ha. cbn [mbind option_bind].
  destruct a as [[p [st f]]|[e f|[] p st f]].
  - eexists _, _, _. by split.
  - eexists _, _, _. split; [done|]. by destruct e.
  - destruct Hpost as [Hp (us & ue & Hus & Hue & Hle & Hreg)]. unfold done_label.
    eexists _, _, _. split; [reflexivity|]. intros _. exists us, ue.
    cbn [r_fields uri_start uri_end pos].
    split_and!; [by destruct (request_end f)..|lia|cbn; lia|cbn; lia|exact Hreg].
Qed.

Lemma ngx_http_parse_request_line_uri_witness :
  exists rc r' b', ngx_http_parse_request_line (H := cmp_nonaligned)
      (bs "DELETE /a%20b HTTP/1.1" ++ [LF; 0]) new_request {| pos := 0; last := 23 |}
      = Some (rc, r', b')
    /\ rc = NGX_OK /\ uri_start (r_fields r') = Some 7%nat.
Proof.
  destruct (ngx_http_parse_request_line_uri (cmp := cmp_nonaligned)
      (bs "DELETE /a%20b HTTP/1.1" ++ [LF; 0]) new_request {| pos := 0; last := 23 |})
    as (rc & r' & b' & H & _).
  - by apply bytes_ok_check.
  - reflexivity.
  - vm_compute. lia.
  - exists rc, r', b'. split; [exact H|]. revert H. vm_compute.
    intros [= <- <- <-]. by split.
Defined.

(** ** What a well-formed request line gives *)

Section Accept.
Context {cmp : StrCmp} `{!StrCmpOk cmp}.
Variable mem : list Z.
Hypothesis mem_ok : bytes_ok mem.

(** Upper case letters, "_" and "-". *)
Definition method_char (c : Z) : Prop := bad_method_char c = false.

Lemma scan_method name s n r :
  bytes_at mem s (name ++ [" "%ch]) -> (s + length name + 1 < length mem)%nat ->
  name <> [] -> Forall method_char name ->
  exists r', scan (step mem) mem s (length name + S n) (sw_start, r)
    = scan (step mem) mem (s + length name + 1) n (sw_spaces_before_uri, r')
    /\ request_start r' = Some s /\ request_end r' = request_end r
    /\ method r' = method_of_name name (method r).
Proof.
  intros Hat Hlen Hne Hname. destruct name as [|c name]; [done|].
  apply Forall_cons_1 in Hname as [Hc Hname].
  apply bytes_at_cons in Hat as Hat'. destruct Hat' as [Hm Hat'].
  apply bytes_at_app in Hat' as [Hbn Hsp]. apply bytes_at_cons in Hsp as [Hsp _].
  assert (step mem s c (sw_start, r)
          = Some (Next (sw_method, r <| request_start := Some s |>))) as Hs0.
  { cbn [step]. unfold start_case. rewrite Hc.
    destruct ((c =? CR) || (c =? LF)) eqn:E; [|done].
    exfalso. revert Hc E. unfold method_char, bad_method_char, CR, LF. lia. }
  cbn [length Nat.add]. erewrite scan_step by done.
  destruct (scan_over (step mem) mem
    (fun _ l => l = (sw_method, r <| request_start := Some s |>)) name (S s) (S n)
    (sw_method, r <| request_start := Some s |>) Hbn) as (l' & -> & ->); [|done|].
  - intros i ch l Hin -> _ _. eexists. split; [|done]. cbn [step]. unfold method_case.
    eapply Stdlib.Lists.List.Forall_forall in Hname; [|by apply list_elem_of_In].
    destruct (Z.eqb_spec ch 32) as [->|_]; [done|]. by rewrite Hname.
  - set (r' := r <| request_start := Some s |> <| method_end := Some (S s + length name - 1)%nat |>).
    exists (r' <| method := method_of_name (c :: name) (method r) |>).
    split; [|done].
    erewrite (scan_step (step mem)); [|exact Hsp|].
    2: { cbn [step]. unfold method_case. fold r'. change (request_start r') with (Some s).
         test_true (32 =? 32). cbn [mbind option_bind].
         rewrite (parse_method_total mem mem_ok); [reflexivity|lia|cbn [length] in Hlen; lia|done]. }
    cbn beta iota. f_equal; [simpl; lia|]. do 2 f_equal.
    replace (S s + length name - s)%nat with (length (c :: name)) by (simpl; lia).
    apply bytes_at_app in Hat as [Hat _]. by rewrite (bytes_at_take mem s (c :: name) Hat).
Qed.

Definition in_path (st : state) : Prop :=
  st = sw_after_slash_in_uri \/ st = sw_check_uri \/ st = sw_uri.

(** The fields of [r'] that the URI and the version do not change. *)
Definition same_method (r r' : fields) : Prop :=
  request_start r' = request_start r /\ method r' = method r.

Lemma uri_byte_stays p ch st r :
  in_path st -> uri_byte ch ->
  exists st' r', step mem p ch (st, r) = Some (Next (st', r')) /\ in_path st'
    /\ same_method r r' /\ request_end r' = request_end r /\ uri_start r' = uri_start r.
Proof.
  intros Hst Hb.
  assert (end_of_uri p ch st r = None) as He.
  { unfold end_of_uri. unfold uri_byte, CR, LF in *. by repeat case_match; try lia. }
  assert ((ch <? 32) || (ch =? 127) = false) as Hc by (unfold uri_byte in Hb; lia).
  destruct Hst as [->|[->| ->]]; cbn [step];
    unfold after_slash_in_uri_case, check_uri_case, uri_case; rewrite ?He, ?Hc;
    repeat case_match; unfold go; do 2 eexists;
    (split; [reflexivity|]); unfold in_path, same_method; auto 10.
Qed.

Lemma scan_uri uri s n r :
  bytes_at mem s ("/"%ch :: uri) -> Forall uri_byte uri ->
  exists st r', scan (step mem) mem s (S (length uri) + n) (sw_spaces_before_uri, r)
    = scan (step mem) mem (s + S (length uri)) n (st, r')
    /\ in_path st /\ same_method r r' /\ request_end r' = request_end r
    /\ uri_start r' = Some s.
Proof.
  intros Hat Huri. apply bytes_at_cons in Hat as [Hs Hat].
  cbn [Nat.add]. erewrite scan_step; [|exact Hs|reflexivity]. cbn beta iota.
  destruct (scan_over (step mem) mem (fun _ l =>
    in_path l.1 /\ same_method r l.2 /\ request_end l.2 = request_end r
    /\ uri_start l.2 = Some s) uri (S s) n
    (sw_after_slash_in_uri, r <| uri_start := Some s |>) Hat) as ([st r'] & -> & H).
  - intros i ch [st r'] Hin (Hst & Hsm & Hre & Hus) _ _. cbn [fst snd] in *.
    eapply Stdlib.Lists.List.Forall_forall in Huri; [|by apply list_elem_of_In].
    destruct (uri_byte_stays i ch st r' Hst Huri) as (st' & r'' & Hs' & Hst' & Hsm' & Hre' & Hus').
    exists (st', r''). split; [done|]. cbn [fst snd]. unfold same_method in *.
    intuition congruence.
  - split; [by left|by split_and!].
  - exists st, r'. split; [f_equal; lia|]. by destruct H as (? & ? & ? & ?).
Qed.

Lemma scan_version s d st r :
  bytes_at mem s (bs " HTTP/1." ++ [d; CR; LF]) -> "0"%ch <= d <= "9"%ch -> in_path st ->
  request_end r = None ->
  exists st' r', scan (step mem) mem s 11 (st, r) = Some (Exit (Goto tt (s + 10)%nat st' r'))
    /\ same_method r r' /\ uri_start r' = uri_start r /\ uri_end r' = Some s
    /\ request_end r' = Some (s + 9)%nat /\ http_protocol r' = Some (s + 1)%nat
    /\ http_major r' = 1 /\ http_minor r' = d - "0"%ch.
Proof.
  intros Hat Hd Hst Hre. cbn [bs app] in Hat.
  repeat (apply bytes_at_cons in Hat as [? Hat]).
  assert (forall st, in_path st -> step mem s 32 (st, r)
    = Some (Next (sw_http_09, r <| uri_end := Some s |>))) as Hsp
    by by intros ? [->|[->| ->]].
  erewrite scan_step; [|eassumption|by apply Hsp]. cbn beta iota.
  do 7 (erewrite scan_step; [|eassumption|reflexivity]; cbn beta iota).
  erewrite scan_step; [|eassumption|].
  2: { cbn [step]. unfold first_minor_digit_case. by test_false ((d <? 48) || (d >? 57)). }
  cbn beta iota. erewrite scan_step; [|eassumption|reflexivity]. cbn beta iota.
  erewrite scan_step; [|eassumption|reflexivity]. cbn beta iota.
  replace (s + 10)%nat with (S (S (S (S (S (S (S (S (S (S s)))))))))) by lia.
  do 2 eexists. split; [reflexivity|].
  split_and!; try reflexivity; [by split|..].
  - transitivity (Some (S (S (S (S (S (S (S (S (S (S s))))))))) - 1)%nat); [done|f_equal; lia].
  - transitivity (Some (S s)); [done|f_equal; lia].
Qed.
End Accept.

(** C27: a well-formed HTTP/1.x request line is understood.  For any method name
    of upper case letters, "_" and "-", any path of bytes that may stand in a
    URI and any minor version digit, the parser returns NGX_OK with
    [b->pos] after the LF, the method the table of names gives, the URI
    delimited exactly, the version [1000 + minor], and [request_end] at the CR. *)
Theorem ngx_http_parse_request_line_accepts {cmp : StrCmp} `{!StrCmpOk cmp}
    (mem name uri : list Z) (d : Z) (b : ngx_buf_t)
    (Hmem : bytes_ok mem)
    (Hat : bytes_at mem (pos b)
             (name ++ bs " /" ++ uri ++ bs " HTTP/1." ++ [d; CR; LF]))
    (Hlast : last b = (pos b + length name + length uri + 13)%nat)
    (Hname : name <> []) (Hchars : Forall method_char name)
    (Huri : Forall uri_byte uri) (Hd : "0"%ch <= d <= "9"%ch) :
  exists r', ngx_http_parse_request_line mem new_request b
      = Some (NGX_OK, r', b <| pos := last b |>)
    /\ method (r_fields r') = method_of_name name NGX_HTTP_UNKNOWN
    /\ request_start (r_fields r') = Some (pos b)
    /\ uri_start (r_fields r') = Some (pos b + length name + 1)%nat
    /\ uri_end (r_fields r') = Some (pos b + length name + 2 + length uri)%nat
    /\ http_version (r_fields r') = 1000 + (d - "0"%ch)
    /\ request_end (r_fields r') = Some (last b - 2)%nat
    /\ r_state r' = sw_start.
Proof.
  assert (last b <= length mem)%nat as Hlen.
  { apply bytes_at_take, (f_equal length) in Hat. revert Hat. rewrite length_take.
    rewrite !length_app. cbn. rewrite length_drop. lia. }
  change (bs " /" ++ ?l) with ([" "%ch] ++ "/"%ch :: l) in Hat.
  rewrite app_assoc in Hat. apply bytes_at_app in Hat as [Hn Hat].
  rewrite app_comm_cons in Hat. apply bytes_at_app in Hat as [Hu Hv].
  rewrite length_app in Hu, Hv. cbn [length] in Hu, Hv.
  unfold ngx_http_parse_request_line. rewrite Hlast.
  replace (pos b + length name + length uri + 13 - pos b)%nat
    with (length name + S (S (length uri) + 11))%nat by lia.
  destruct (scan_method mem Hmem name (pos b) (S (length uri) + 11)
              (r_fields new_request) Hn) as (r1 & E1 & Hrs1 & Hre1 & Hm1); [lia|done..|].
  rewrite <- Nat.add_assoc in E1.
  destruct (scan_uri mem uri (pos b + (length name + 1)) 11 r1 Hu Huri)
    as (st2 & r2 & E2 & Hst2 & [Hrs2 Hm2] & Hre2 & Hus2).
  destruct (scan_version mem _ d st2 r2 Hv Hd Hst2) as
    (st3 & r3 & E3 & [Hrs3 Hm3] & Hus3 & Hue3 & Hre3 & _ & Hma3 & Hmi3);
    [by rewrite Hre2, Hre1|].
  change (r_state new_request) with sw_start. rewrite E1, E2, E3. cbn [mbind option_bind].
  assert (done_label (pos b + (length name + 1) + S (length uri) + 10) r3
    = (NGX_OK, {| r_state := sw_start;
                  r_fields := r3 <| http_version := 1000 + (d - 48) |> |}, last b)) as ->.
  { unfold done_label. rewrite Hre3. cbv zeta. rewrite Hma3, Hmi3.
    assert ((1000 + (d - 48) =? 9) = false) as Hv9 by lia.
    change (http_version (_ <| http_version := ?v |>)) with v.
    rewrite Z.mul_1_l, Hv9. cbn [andb]. f_equal. lia. }
  eexists. rewrite Hlast. split; [reflexivity|]. cbn [r_fields r_state].
  change (method (_ <| http_version := _ |>)) with (method r3).
  change (request_start (_ <| http_version := _ |>)) with (request_start r3).
  change (uri_start (_ <| http_version := _ |>)) with (uri_start r3).
  change (uri_end (_ <| http_version := _ |>)) with (uri_end r3).
  change (request_end (_ <| http_version := _ |>)) with (request_end r3).
  rewrite Hm3, Hm2, Hm1, Hrs3, Hrs2, Hrs1, Hus3, Hus2, Hue3, Hre3.
  split_and!; try reflexivity; f_equal; lia.
Qed.

Lemma ngx_http_parse_request_line_accepts_witness :
  exists r', ngx_http_parse_request_line (H := cmp_nonaligned)
      (bs "MKCOL /dav/new%20dir HTTP/1.1" ++ [CR; LF]) new_request {| pos := 0; last := 31 |}
      = Some (NGX_OK, r', {| pos := 31; last := 31 |})
    /\ method (r_fields r') = NGX_HTTP_MKCOL.
Proof.
  destruct (ngx_http_parse_request_line_accepts (cmp := cmp_nonaligned)
      (bs "MKCOL /dav/new%20dir HTTP/1.1" ++ [CR; LF]) (bs "MKCOL") (bs "dav/new%20dir")
      "1"%ch {| pos := 0; last := 31 |}) as (r' & H1 & H2 & _).
  - by apply bytes_ok_check.
  - intros i c Hi. exact Hi.
  - reflexivity.
  - discriminate.
  - repeat constructor.
  - apply (Forall_check (fun c => (0x20 <? c) && negb (c =? 0x7f))); [|vm_compute; reflexivity].
    intros c. unfold uri_byte. lia.
  - lia.
  - exists r'. split; [exact H1|exact H2].
Defined.
