(* ===== verification/HeaderLine.v ===== *)
(** * HeaderLine: [ngx_http_parse_header_line] of ngx_http_parse.c

    The parser of one header line, "Name: value" CRLF, used for the headers of
    requests and of upstream responses.  Besides delimiting the name and the
    value it hashes the lower-cased name and copies it into the ring
    [r->lowcase_header] of 32 bytes. *)

From S2P Require Import Prelude Scan Http.

Inductive state :=
  | sw_start | sw_name | sw_space_before_value | sw_value | sw_space_after_value
  | sw_ignore_line | sw_almost_done | sw_header_almost_done.

(** The fields of [ngx_http_request_t] that the parser sets. *)
Record fields := {
  header_name_start : option nat;
  header_name_end : option nat;
  header_start : option nat;
  header_end : option nat;
  invalid_header : bool;
  lowcase_header : list Z;
}.
#[export] Instance eta_fields : Eta fields := mk_eta (fun r =>
  Build_fields (header_name_start r) (header_name_end r) (header_start r) (header_end r)
    (invalid_header r) (lowcase_header r)).

(** The locals, which [r->state], [r->header_hash] and [r->lowcase_index] keep
    between two calls. *)
Record locals := { l_state : state; l_hash : Z; l_i : Z }.

Record request := {
  r_state : state;
  r_header_hash : Z;
  r_lowcase_index : Z;
  r_fields : fields;
}.

Definition NGX_HTTP_LC_HEADER_LEN : Z := 32.

(** [ngx_hash(key, c)], of ngx_hash.h. *)
Definition ngx_hash (key c : Z) : Z := u64 (key * 31 + c).

(** The table of the characters of a valid header name, in lower case. *)
Definition lowcase : list Z := Eval vm_compute in
  repeat 0 32
  ++ repeat 0 13 ++ bs "-" ++ repeat 0 2 ++ bs "0123456789" ++ repeat 0 6
  ++ [0] ++ bs "abcdefghijklmnopqrstuvwxyz" ++ repeat 0 5
  ++ [0] ++ bs "abcdefghijklmnopqrstuvwxyz" ++ repeat 0 5
  ++ repeat 0 128.

Definition lowcase_of (ch : Z) : Z := nth (Z.to_nat ch) lowcase 0.

Section HeaderLine.
(** [r->upstream]: the headers are those of an upstream response. *)
Variable upstream : bool.
Variable allow_underscores : bool.

Inductive label := done | header_done.

Definition outcome : Type :=
  option (action (locals * fields) (exit locals fields label)).

Definition go (st : state) (hash i : Z) (r : fields) : outcome :=
  Some (Next ({| l_state := st; l_hash := hash; l_i := i |}, r)).
Definition fail (r : fields) : outcome := Some (Exit (Return INVALID_HEADER r)).
Definition goto (d : label) (p : nat) (l : locals) (r : fields) : outcome :=
  Some (Exit (Goto d p l r)).

(** [r->lowcase_header[j] = c], in an array of 32 bytes. *)
Definition set_name (j : Z) (c : Z) (r : fields) : fields :=
  r <| lowcase_header := <[Z.to_nat j := c]> (lowcase_header r) |>.
Definition put_name (j : Z) (c : Z) (r : fields) : option fields :=
  if j <? NGX_HTTP_LC_HEADER_LEN then Some (set_name j c r) else None.

Definition start_case (p : nat) (ch : Z) (l : locals) (r : fields) : outcome :=
  let r := r <| header_name_start := Some p |> <| invalid_header := false |> in
  if ch =? CR then go sw_header_almost_done (l_hash l) (l_i l) (r <| header_end := Some p |>)
  else if ch =? LF then goto header_done p l (r <| header_end := Some p |>)
  else
    let c := lowcase_of ch in
    if negb (c =? 0) then
      r ← put_name 0 c r; go sw_name (ngx_hash 0 c) 1 r
    else if ch =? "_"%ch then
      if allow_underscores then r ← put_name 0 ch r; go sw_name (ngx_hash 0 ch) 1 r
      else go sw_name 0 0 (r <| invalid_header := true |>)
    else if (ch <=? 0x20) || (ch =? 0x7f) || (ch =? ":"%ch) then
      fail (r <| header_end := Some p |>)
    else go sw_name 0 0 (r <| invalid_header := true |>).

(** [r->lowcase_header[i++] = c; i &= (NGX_HTTP_LC_HEADER_LEN - 1)]. *)
Definition next_name (c : Z) (l : locals) (r : fields) : outcome :=
  r ← put_name (l_i l) c r;
  go sw_name (ngx_hash (l_hash l) c) (Z.land (l_i l + 1) (NGX_HTTP_LC_HEADER_LEN - 1)) r.

Definition name_case (mem : list Z) (p : nat) (ch : Z) (l : locals) (r : fields) : outcome :=
  let c := lowcase_of ch in
  if negb (c =? 0) then next_name c l r
  else if ch =? "_"%ch then
    if allow_underscores then next_name ch l r
    else go sw_name (l_hash l) (l_i l) (r <| invalid_header := true |>)
  else if ch =? ":"%ch then
    go sw_space_before_value (l_hash l) (l_i l) (r <| header_name_end := Some p |>)
  else if ch =? CR then
    go sw_almost_done (l_hash l) (l_i l)
      (r <| header_name_end := Some p |> <| header_start := Some p |> <| header_end := Some p |>)
  else if ch =? LF then
    goto done p l
      (r <| header_name_end := Some p |> <| header_start := Some p |> <| header_end := Some p |>)
  else
    ns ← header_name_start r;
    http ← (if (ch =? "/"%ch) && upstream && (p - ns =? 4)%nat
            then bytes_are mem ns (bs "HTTP") else Some false);
    if (http : bool) then go sw_ignore_line (l_hash l) (l_i l) r
    else if (ch <=? 0x20) || (ch =? 0x7f) then fail (r <| header_end := Some p |>)
    else go sw_name (l_hash l) (l_i l) (r <| invalid_header := true |>).

Definition space_before_value_case (p : nat) (ch : Z) (l : locals) (r : fields) : outcome :=
  if ch =? " "%ch then go sw_space_before_value (l_hash l) (l_i l) r
  else if ch =? CR then
    go sw_almost_done (l_hash l) (l_i l) (r <| header_start := Some p |> <| header_end := Some p |>)
  else if ch =? LF then
    goto done p l (r <| header_start := Some p |> <| header_end := Some p |>)
  else if ch =? 0 then fail (r <| header_end := Some p |>)
  else go sw_value (l_hash l) (l_i l) (r <| header_start := Some p |>).

Definition value_case (p : nat) (ch : Z) (l : locals) (r : fields) : outcome :=
  if ch =? " "%ch then
    go sw_space_after_value (l_hash l) (l_i l) (r <| header_end := Some p |>)
  else if ch =? CR then go sw_almost_done (l_hash l) (l_i l) (r <| header_end := Some p |>)
  else if ch =? LF then goto done p l (r <| header_end := Some p |>)
  else if ch =? 0 then fail (r <| header_end := Some p |>)
  else go sw_value (l_hash l) (l_i l) r.

Definition space_after_value_case (p : nat) (ch : Z) (l : locals) (r : fields) : outcome :=
  if ch =? " "%ch then go sw_space_after_value (l_hash l) (l_i l) r
  else if ch =? CR then go sw_almost_done (l_hash l) (l_i l) r
  else if ch =? LF then goto done p l r
  else if ch =? 0 then fail (r <| header_end := Some p |>)
  else go sw_value (l_hash l) (l_i l) r.

Definition ignore_line_case (ch : Z) (l : locals) (r : fields) : outcome :=
  if ch =? LF then go sw_start (l_hash l) (l_i l) r
  else go sw_ignore_line (l_hash l) (l_i l) r.

Definition almost_done_case (p : nat) (ch : Z) (l : locals) (r : fields) : outcome :=
  if ch =? LF then goto done p l r
  else if ch =? CR then go sw_almost_done (l_hash l) (l_i l) r
  else fail r.

Definition header_almost_done_case (p : nat) (ch : Z) (l : locals) (r : fields) : outcome :=
  if ch =? LF then goto header_done p l r else fail r.

Definition step (mem : list Z) (p : nat) (ch : Z) (lr : locals * fields) : outcome :=
  let '(l, r) := lr in
  match l_state l with
  | sw_start => start_case p ch l r
  | sw_name => name_case mem p ch l r
  | sw_space_before_value => space_before_value_case p ch l r
  | sw_value => value_case p ch l r
  | sw_space_after_value => space_after_value_case p ch l r
  | sw_ignore_line => ignore_line_case ch l r
  | sw_almost_done => almost_done_case p ch l r
  | sw_header_almost_done => header_almost_done_case p ch l r
  end.

(** The loads before the loop and the stores when the input runs out. *)
Definition load (r : request) : locals * fields :=
  ({| l_state := r_state r; l_hash := r_header_hash r; l_i := r_lowcase_index r |},
   r_fields r).
Definition save (l : locals) (f : fields) : request :=
  {| r_state := l_state l; r_header_hash := l_hash l; r_lowcase_index := l_i l;
     r_fields := f |}.

(** The code at [done:] and [header_done:]; the latter does not store the
    hash and the index: [r] keeps those it had, the loaded ones [l0]. *)
Definition label_code (d : label) (p : nat) (l0 l : locals) (f : fields)
    : Z * request * nat :=
  match d with
  | done =>
      (NGX_OK,
       {| r_state := sw_start; r_header_hash := l_hash l; r_lowcase_index := l_i l;
          r_fields := f |}, (p + 1)%nat)
  | header_done =>
      (NGX_HTTP_PARSE_HEADER_DONE,
       {| r_state := sw_start; r_header_hash := l_hash l0; r_lowcase_index := l_i l0;
          r_fields := f |}, (p + 1)%nat)
  end.

Definition ngx_http_parse_header_line (mem : list Z) (r : request) (b : ngx_buf_t)
    : option (Z * request * ngx_buf_t) :=
  a ← scan (step mem) mem (pos b) (last b - pos b) (load r);
  Some match a with
  | Next (p, (l, f)) => (NGX_AGAIN, save l f, b <| pos := p |>)
  | Exit (Return e f) => (error_code e, save (load r).1 f, b)
  | Exit (Goto d p l f) =>
      let '(rc, r', p') := label_code d p (load r).1 l f in (rc, r', b <| pos := p' |>)
  end.
End HeaderLine.

(** A request as allocated; [lowcase_header] is an array in it. *)
Definition new_request : request := {|
  r_state := sw_start; r_header_hash := 0; r_lowcase_index := 0;
  r_fields := {|
    header_name_start := None; header_name_end := None; header_start := None;
    header_end := None; invalid_header := false; lowcase_header := repeat 0 32 |}
|}.

Example header_line_host :
  let mem := bs "Host:  a b  " ++ [CR; LF] in
  option_map (fun '(rc, r, b) => (rc, header_name_end (r_fields r), header_start (r_fields r),
                header_end (r_fields r), r_lowcase_index r, pos b))
    (ngx_http_parse_header_line false false mem new_request {| pos := 0; last := 14 |})
  = Some (NGX_OK, Some 4%nat, Some 7%nat, Some 10%nat, 4, 14%nat).
Proof. reflexivity. Qed.

(** ** Resuming *)

(** After the end of the headers the hash and the index of the last name are
    not used, and may be those of the call's beginning. *)
Definition same_but_name (r1 r2 : request) : Prop :=
  r_state r1 = r_state r2 /\ r_fields r1 = r_fields r2.

Definition header_same (rc : Z) : relation request :=
  if rc =? NGX_HTTP_PARSE_HEADER_DONE then same_but_name else eq.

#[export] Instance header_same_equiv rc : Equivalence (header_same rc).
Proof.
  unfold header_same. destruct (rc =? _); [|apply _]. unfold same_but_name.
  split; [by intros ?|by intros ?? [-> ->]|by intros ??? [-> ->]].
Qed.

#[export] Program Instance header_line_parser upstream allow :
  IncrementalParser request locals fields label := {|
  parser_load := load;
  parser_save := save;
  parser_step := step upstream allow;
  parser_label := label_code;
  parser_same := header_same;
|}.
Next Obligation. by intros _ _ [???] f. Qed.
Next Obligation. by intros _ _ []. Qed.
Next Obligation. by intros _ _ [] p s0 s f. Qed.
Next Obligation. by intros _ _ [] p s0 s0' s f. Qed.

Lemma ngx_http_parse_header_line_run upstream allow mem r b :
  ngx_http_parse_header_line upstream allow mem r b
  = run_parser (IncrementalParser0 := header_line_parser upstream allow) mem r b.
Proof.
  unfold ngx_http_parse_header_line, run_parser.
  destruct (scan _ _ _ _ _) as [[[p [l f]]|[e f|d p l f]]|]; done.
Qed.

(** The byte hashed and copied for a name byte; 0 when it makes the header
    invalid. *)
Definition name_lc (allow : bool) (ch : Z) : Z :=
  if negb (lowcase_of ch =? 0) then lowcase_of ch
  else if (ch =? "_"%ch) && allow then ch else 0.

Definition name_hash (allow : bool) (name : list Z) : Z :=
  fold_left (fun h c => ngx_hash h (name_lc allow c)) name 0.

(** a header line may arrive in any number of pieces: a call that runs out
    of input leaves in the request all that the next call needs to give what a
    single call over all the bytes would have given, and bytes after the end of
    the line do not matter. *)
Theorem ngx_http_parse_header_line_resume (upstream allow : bool) (mem : list Z) (r : request)
    (p last1 last2 : nat) (rc1 : Z) (r1 : request) (b1 : ngx_buf_t)
    (Hp : (p <= last1 <= last2)%nat)
    (Hrun : ngx_http_parse_header_line upstream allow mem r {| pos := p; last := last1 |}
            = Some (rc1, r1, b1)) :
  let same := same_result (IncrementalParser0 := header_line_parser upstream allow) in
  let parse := ngx_http_parse_header_line upstream allow mem in
  if rc1 =? NGX_AGAIN then
    option_Forall2 same (parse r1 {| pos := pos b1; last := last2 |})
                        (parse r {| pos := p; last := last2 |})
  else
    exists y, parse r {| pos := p; last := last2 |} = Some y /\ same (rc1, r1, b1) y.
Proof.
  cbv zeta. rewrite !ngx_http_parse_header_line_run in *.
  by apply (run_parser_resume mem r p last1 last2).
Qed.

Lemma ngx_http_parse_header_line_resume_witness :
  let parse := ngx_http_parse_header_line true false (bs "HTTP/1.1 200 OK" ++ [LF; CR; LF]) in
  exists r1, r_state r1 = sw_ignore_line /\
    option_Forall2 (same_result (IncrementalParser0 := header_line_parser true false))
      (parse r1 {| pos := 9; last := 18 |})
      (parse new_request {| pos := 0; last := 18 |}).
Proof.
  intros parse.
  exists (save {| l_state := sw_ignore_line; l_hash := name_hash true (bs "HTTP"); l_i := 4 |}
    {| header_name_start := Some 0%nat; header_name_end := None; header_start := None;
       header_end := None; invalid_header := false;
       lowcase_header := bs "http" ++ repeat 0 28 |}).
  split; [reflexivity|].
  refine (ngx_http_parse_header_line_resume true false (bs "HTTP/1.1 200 OK" ++ [LF; CR; LF])
            new_request 0 9 18 NGX_AGAIN _ {| pos := 9; last := 9 |} _ _);
    [lia | vm_compute; reflexivity].
Defined.

(** ** What is found of a header line *)

Definition name_byte (c : Z) : Prop := 0x20 < c /\ c <> 0x7f /\ c <> ":"%ch.
Definition value_byte (c : Z) : Prop := c <> CR /\ c <> LF /\ c <> 0.

Lemma lowcase_of_name_byte c : is_u8 c -> lowcase_of c <> 0 -> name_byte c.
Proof.
  intros Hc H. assert (((lowcase_of c =? 0) || ((0x20 <? c) && negb (c =? 0x7f) && negb (c =? 58))) = true)
    as Hb; [|unfold name_byte; lia].
  revert c Hc H. intros c Hc _. revert c Hc. apply forall_u8. vm_compute. reflexivity.
Qed.

Section Found.
Variables upstream allow : bool.
Variable mem : list Z.
Hypothesis mem_ok : bytes_ok mem.
Variable lim : nat.

Definition sub (s e : nat) : list Z := take (e - s) (drop s mem).

(** The ring of the lower-cased name, in every state: never written outside. *)
Definition ring_ok (l : locals) (r : fields) : Prop :=
  0 <= l_i l < 32 /\ length (lowcase_header r) = 32%nat.

(** What the name up to [p] gives when no byte of it was invalid. *)
Definition valid_name (l : locals) (r : fields) (s e : nat) : Prop :=
  invalid_header r = false ->
  Forall (fun c => name_lc allow c <> 0) (sub s e)
  /\ l_hash l = name_hash allow (sub s e)
  /\ l_i l = Z.of_nat (e - s) mod 32
  /\ (e - s <= 32 -> take (e - s) (lowcase_header r) = map (name_lc allow) (sub s e))%nat.

Definition name_upto (l : locals) (r : fields) (p : nat) : Prop :=
  exists ns, header_name_start r = Some ns /\ (ns < p)%nat
    /\ Forall name_byte (sub ns p) /\ valid_name l r ns p.

Definition name_found (l : locals) (r : fields) (ns ne p : nat) : Prop :=
  header_name_start r = Some ns /\ header_name_end r = Some ne /\ (ns < ne < p)%nat
  /\ Forall name_byte (sub ns ne) /\ valid_name l r ns ne.

(** The value from [hs] to [he]: no CR, LF or NUL, and no space at either end. *)
Definition trimmed (hs he : nat) : Prop :=
  (hs < he)%nat /\ Forall value_byte (sub hs he)
  /\ mem !! hs <> Some " "%ch /\ mem !! (he - 1)%nat <> Some " "%ch.

Definition line_found (l : locals) (r : fields) (p : nat) : Prop :=
  exists ns ne hs he, name_found l r ns ne (S p)
    /\ header_start r = Some hs /\ header_end r = Some he
    /\ (ne <= hs <= he)%nat /\ (he <= p)%nat /\ (hs = he \/ trimmed hs he).

(** The value so far, from [hs] to [p]. *)
Definition in_value (l : locals) (r : fields) (p hs : nat) : Prop :=
  exists ns ne, name_found l r ns ne p
    /\ header_start r = Some hs /\ (ne <= hs < p)%nat
    /\ Forall value_byte (sub hs p) /\ mem !! hs <> Some " "%ch.

Definition header_inv (p : nat) (lr : locals * fields) : Prop :=
  let '(l, r) := lr in
  ring_ok l r /\
  match l_state l with
  | sw_start | sw_ignore_line | sw_header_almost_done => True
  | sw_name => name_upto l r p
  | sw_space_before_value => exists ns ne, name_found l r ns ne p
  | sw_value => exists hs, in_value l r p hs /\ mem !! (p - 1)%nat <> Some " "%ch
  | sw_space_after_value =>
      exists hs he, in_value l r p hs /\ header_end r = Some he /\ (he <= p)%nat
        /\ trimmed hs he
  | sw_almost_done => line_found l r p
  end.

Definition header_exit (e : exit locals fields label) : Prop :=
  match e with
  | Return _ _ => True
  | Goto done p l r => (p < lim)%nat /\ ring_ok l r /\ line_found l r p
  | Goto header_done p _ _ => (p < lim)%nat
  end.

Definition keeps (p : nat) (o : outcome) : Prop :=
  exists a, o = Some a
    /\ match a with Next l => header_inv (S p) l | Exit e => header_exit e end.

Lemma header_keeps_go p st h i r :
  header_inv (S p) ({| l_state := st; l_hash := h; l_i := i |}, r) -> keeps p (go st h i r).
Proof. intros H. eexists. split; [done|exact H]. Qed.

Lemma header_keeps_fail p r : keeps p (fail r).
Proof. by eexists. Qed.

Lemma keeps_goto d p l r : header_exit (Goto d p l r) -> keeps p (goto d p l r).
Proof. intros H. eexists. split; [done|exact H]. Qed.

Lemma sub_snoc s p c : (s <= p)%nat -> mem !! p = Some c -> sub s (S p) = sub s p ++ [c].
Proof.
  intros Hs Hc. unfold sub. replace (S p - s)%nat with (S (p - s)) by lia.
  apply take_S_r. rewrite lookup_drop. rewrite <- Hc. f_equal. lia.
Qed.

Lemma sub_one p c : mem !! p = Some c -> sub p (S p) = [c].
Proof.
  intros Hc. rewrite (sub_snoc p p c) by (done || lia). unfold sub.
  by rewrite Nat.sub_diag.
Qed.

Lemma sub_length s e : (e <= length mem)%nat -> length (sub s e) = (e - s)%nat.
Proof. intros. unfold sub. rewrite length_take, length_drop. lia. Qed.

Lemma put_name_ring l st h i j c r :
  ring_ok l r -> 0 <= i < 32 ->
  ring_ok {| l_state := st; l_hash := h; l_i := i |} (set_name j c r).
Proof. intros [? ?] Hi. split; [done|]. cbn. by rewrite length_insert. Qed.

Lemma land_31 i : 0 <= i -> Z.land (i + 1) (NGX_HTTP_LC_HEADER_LEN - 1) = (i + 1) mod 32.
Proof. intros. apply (land_ones_mod _ 5). lia. Qed.

Lemma put_name_in j c r : j < 32 -> put_name j c r = Some (set_name j c r).
Proof.
  intros. unfold put_name, NGX_HTTP_LC_HEADER_LEN. by test_true (j <? 32).
Qed.

Lemma next_name_keeps p ch l r :
  mem !! p = Some ch -> name_byte ch -> name_lc allow ch <> 0 ->
  ring_ok l r -> name_upto l r p -> keeps p (next_name (name_lc allow ch) l r).
Proof.
  intros Hch Hb Hlc [Hi Hlen] (ns & Hns & Hlt & Hname & Hval).
  unfold next_name. rewrite put_name_in by lia. cbn [mbind option_bind].
  apply header_keeps_go. rewrite land_31 by lia. split.
  { eapply put_name_ring; [by split|]. apply Z.mod_pos_bound. lia. }
  exists ns. rewrite (sub_snoc ns p ch) by (done || lia). unfold valid_name.
  rewrite (sub_snoc ns p ch) by (done || lia). cbn [header_name_start set_name].
  split_and!; [done|lia|by apply Forall_app; auto|].
  intros Hinv. destruct (Hval Hinv) as (Hall & Hhash & Hidx & Htake).
  cbn [l_hash l_i]. split_and!.
  - apply Forall_app; auto.
  - unfold name_hash. rewrite fold_left_app. cbn. by rewrite Hhash.
  - rewrite Hidx. rewrite Zplus_mod_idemp_l. f_equal. lia.
  - intros Hle. replace (S p - ns)%nat with (S (p - ns)) by lia.
    rewrite map_app, <- Htake by lia.
    assert (Z.to_nat (l_i l) = (p - ns)%nat) as Hk.
    { rewrite Hidx, Z.mod_small by lia. lia. }
    cbn [lowcase_header set_name field_set]. rewrite Hk.
    erewrite take_S_r by (apply list_lookup_insert_eq; lia).
    by rewrite take_insert_ge by lia.
Qed.

Lemma invalid_keeps p ch l r h i :
  mem !! p = Some ch -> name_byte ch -> ring_ok l r -> l_i l = i -> name_upto l r p ->
  keeps p (go sw_name h i (r <| invalid_header := true |>)).
Proof.
  intros Hch Hb [Hi Hlen] <- (ns & Hns & Hlt & Hname & _). apply header_keeps_go.
  split; [by split|]. exists ns. rewrite (sub_snoc ns p ch) by (done || lia).
  split_and!; [done|lia|by apply Forall_app; auto|done].
Qed.

Lemma first_name_keeps p ch l r :
  mem !! p = Some ch -> name_byte ch -> name_lc allow ch <> 0 -> ring_ok l r ->
  header_name_start r = Some p ->
  keeps p (go sw_name (ngx_hash 0 (name_lc allow ch)) 1 (set_name 0 (name_lc allow ch) r)).
Proof.
  intros Hch Hb Hlc [Hi Hlen] Hns. apply header_keeps_go. split; [by apply (put_name_ring l)|].
  exists p. unfold valid_name. rewrite (sub_one p ch) by done.
  cbn [l_hash l_i]. split_and!; [done|lia|by apply Forall_singleton|].
  intros _. split_and!; [by apply Forall_singleton|done|by replace (S p - p)%nat with 1%nat by lia|].
  intros _. replace (S p - p)%nat with 1%nat by lia.
  cbn [set_name lowcase_header field_set]. by destruct (lowcase_header r).
Qed.

Lemma header_start_keeps p ch l r :
  (p < lim)%nat -> mem !! p = Some ch -> ring_ok l r ->
  keeps p (start_case allow p ch l r).
Proof.
  intros Hp Hch Hring. unfold start_case.
  assert (is_u8 ch) as Hu8 by by eapply Forall_lookup_1 in Hch.
  assert (forall r', lowcase_header r' = lowcase_header r ->
    header_name_start r' = Some p -> name_byte ch ->
    keeps p (go sw_name 0 0 (r' <| invalid_header := true |>))) as Hbad.
  { intros r' Hlow Hns Hb. apply header_keeps_go. destruct Hring as [_ Hlen].
    split; [split; [simpl; lia|by rewrite <- Hlow in Hlen]|]. exists p.
    rewrite (sub_one p ch) by done. split_and!; [done|lia|by apply Forall_singleton|done]. }
  destruct (Z.eqb_spec ch CR) as [_|]; [by apply header_keeps_go|].
  destruct (Z.eqb_spec ch LF) as [_|]; [by apply keeps_goto|].
  destruct (Z.eqb_spec (lowcase_of ch) 0) as [Hz|Hnz]; cbn [negb].
  - destruct (Z.eqb_spec ch 95) as [Hus|_].
    + destruct allow eqn:Ha; [|apply Hbad; [done..|unfold name_byte; lia]].
      replace ch with (name_lc allow ch).
      2: { unfold name_lc. by rewrite Hz, Hus, Ha. }
      apply (first_name_keeps p ch l);
        [done|unfold name_byte; lia| |done|done].
      unfold name_lc. by rewrite Hz, Hus, Ha.
    + destruct ((ch <=? 32) || (ch =? 127) || (ch =? 58)) eqn:E; [apply header_keeps_fail|].
      apply Hbad; [done..|unfold name_byte; lia].
  - assert (lowcase_of ch = name_lc allow ch) as Heq.
    { unfold name_lc. by test_false (lowcase_of ch =? 0). }
    rewrite Heq. apply (first_name_keeps p ch l); [done|by apply lowcase_of_name_byte| |done|done].
    congruence.
Qed.

(** The fields of the name are the same in [r'] as in [r]. *)
Definition same_name (r r' : fields) : Prop :=
  header_name_start r' = header_name_start r /\ invalid_header r' = invalid_header r
  /\ lowcase_header r' = lowcase_header r.

Definition same_locals (l l' : locals) : Prop := l_hash l' = l_hash l /\ l_i l' = l_i l.

Lemma ring_ok_same l l' r r' :
  same_locals l l' -> same_name r r' -> ring_ok l r -> ring_ok l' r'.
Proof. unfold ring_ok. by intros [? ->] (? & ? & ->). Qed.

Lemma valid_name_same l l' r r' s e :
  same_locals l l' -> same_name r r' -> valid_name l r s e -> valid_name l' r' s e.
Proof. unfold valid_name. by intros [-> ->] (? & -> & ->). Qed.

Lemma name_ends l r l' r' p :
  same_locals l l' -> same_name r r' -> header_name_end r' = Some p ->
  name_upto l r p -> exists ns, name_found l' r' ns p (S p).
Proof.
  intros Hl Hr He (ns & Hns & Hlt & Hname & Hval). exists ns.
  split_and!; [|done|lia..|done|by eapply valid_name_same].
  destruct Hr as [-> _]. done.
Qed.

Lemma name_found_same l l' r r' ns ne p p' :
  same_locals l l' -> same_name r r' -> header_name_end r' = header_name_end r ->
  (p <= p')%nat -> name_found l r ns ne p -> name_found l' r' ns ne p'.
Proof.
  intros Hl Hr He Hp (Hns & Hne & Hlt & Hname & Hval).
  split_and!; [|congruence|lia..|done|by eapply valid_name_same].
  destruct Hr as [-> _]. done.
Qed.

(** An empty value, and the end of the line after it. *)
Lemma empty_value_found l r ns ne p :
  name_found l r ns ne (S p) -> header_start r = Some p -> header_end r = Some p ->
  line_found l r p.
Proof.
  intros Hn Hs He. exists ns, ne, p, p. split_and!; [done..| | |lia|by left].
  all: destruct Hn as (_ & _ & ? & _); lia.
Qed.

Lemma line_found_same l l' r p p' :
  same_locals l l' -> (p <= p')%nat -> line_found l r p -> line_found l' r p'.
Proof.
  intros Hl Hp (ns & ne & hs & he & Hn & Hs & He & Hle & Hlep & Hv).
  exists ns, ne, hs, he. split_and!; [|done..|lia|lia|lia|done].
  apply (name_found_same l l' r r ns ne (S p)); [done..|lia|done].
Qed.

Lemma bytes_are_in ns p :
  (p - ns = 4)%nat -> (p < length mem)%nat -> is_Some (bytes_are mem ns (bs "HTTP")).
Proof. intros. apply bytes_are_total. cbn. lia. Qed.

Lemma name_keeps p ch l r :
  (p < lim)%nat -> mem !! p = Some ch -> ring_ok l r -> name_upto l r p ->
  keeps p (name_case upstream allow mem p ch l r).
Proof.
  intros Hp Hch Hring Hname. unfold name_case.
  assert (is_u8 ch) as Hu8 by by eapply Forall_lookup_1 in Hch.
  assert (forall r', same_name r r' -> header_name_end r' = Some p ->
    header_start r' = Some p -> header_end r' = Some p ->
    forall l', same_locals l l' -> line_found l' r' p) as Hend.
  { intros r' Hr' Hne Hhs Hhe l' Hl'.
    destruct (name_ends l r l' r' p Hl' Hr' Hne Hname) as [ns Hns].
    by eapply empty_value_found. }
  destruct (Z.eqb_spec (lowcase_of ch) 0) as [Hz|Hnz]; cbn [negb].
  2: { assert (lowcase_of ch = name_lc allow ch) as Heq
         by (unfold name_lc; by test_false (lowcase_of ch =? 0)).
       rewrite Heq. apply next_name_keeps;
         [done|by apply lowcase_of_name_byte|congruence|done|done]. }
  destruct (Z.eqb_spec ch 95) as [Hus|_].
  { destruct allow eqn:Ha; [|by apply (invalid_keeps p ch l); [|unfold name_byte; lia|..]].
    assert (name_lc allow ch = ch) as Heq by (unfold name_lc; by rewrite Hz, Hus, Ha).
    rewrite <- Heq. apply next_name_keeps; [done|unfold name_byte; lia|congruence|done|done]. }
  destruct (Z.eqb_spec ch 58) as [_|Hcolon].
  { apply header_keeps_go. split; [by eapply ring_ok_same|]. cbn [l_state].
    edestruct name_ends as [ns Hns]; [| | |exact Hname|by exists ns, p]; done. }
  destruct (Z.eqb_spec ch CR) as [_|_].
  { apply header_keeps_go. split; [by eapply ring_ok_same|]. cbn [l_state].
    eapply line_found_same; [|apply Nat.le_succ_diag_r|by apply Hend]. done. }
  destruct (Z.eqb_spec ch LF) as [_|_].
  { apply keeps_goto. split_and!; [done|by eapply ring_ok_same|by apply Hend]. }
  destruct Hname as (ns & Hns & Hname). rewrite Hns. cbn [mbind option_bind].
  assert (is_Some (if (ch =? 47) && upstream && (p - ns =? 4)%nat
                   then bytes_are mem ns (bs "HTTP") else Some false)) as [http ->].
  { case_match eqn:E; [|by eexists]. apply bytes_are_in with p.
    - apply andb_prop in E as [_ E]. by apply Nat.eqb_eq.
    - by eapply lookup_lt_Some. }
  cbn [mbind option_bind]. destruct http; [by apply header_keeps_go|].
  destruct ((ch <=? 32) || (ch =? 127)) eqn:E; [apply header_keeps_fail|].
  apply invalid_keeps with (ch := ch) (l := l); [done|unfold name_byte; lia|done..|by exists ns].
Qed.

Lemma in_value_S p ch l l' r r' hs :
  mem !! p = Some ch -> value_byte ch -> same_locals l l' -> same_name r r' ->
  header_name_end r' = header_name_end r -> header_start r' = header_start r ->
  in_value l r p hs -> in_value l' r' (S p) hs.
Proof.
  intros Hch Hb Hl Hr Hne Hhs (ns & ne & Hn & Hs & Hle & Hv & Hsp).
  exists ns, ne. rewrite (sub_snoc hs p ch) by (done || lia).
  split_and!; [|congruence|lia|lia|by apply Forall_app; auto|done].
  apply (name_found_same l l' r r' ns ne p); [done..|lia|done].
Qed.

Lemma value_found p l l' r r' hs he :
  same_locals l l' -> same_name r r' ->
  header_name_end r' = header_name_end r -> header_start r' = header_start r ->
  in_value l r p hs -> header_end r' = Some he -> (he <= p)%nat -> trimmed hs he ->
  line_found l' r' p.
Proof.
  intros Hl Hr Hne Hhs (ns & ne & Hn & Hs & Hle & Hv & Hsp) He Hhe Ht.
  exists ns, ne, hs, he. pose proof Ht as [Hlt _].
  split_and!; [|congruence|done|lia|lia|lia|by right].
  apply (name_found_same l l' r r' ns ne p); [done..|lia|done].
Qed.

Lemma in_value_trimmed p l r hs :
  in_value l r p hs -> mem !! (p - 1)%nat <> Some " "%ch -> trimmed hs p.
Proof. intros (ns & ne & _ & _ & Hle & Hv & Hsp) Hlast. split_and!; [lia|done..]. Qed.

Lemma space_before_value_keeps p ch l r ns ne :
  (p < lim)%nat -> mem !! p = Some ch -> ring_ok l r -> name_found l r ns ne p ->
  keeps p (space_before_value_case p ch l r).
Proof.
  intros Hp Hch Hring Hn. unfold space_before_value_case.
  assert (forall l' r', same_locals l l' -> same_name r r' ->
    header_name_end r' = header_name_end r -> name_found l' r' ns ne (S p)) as HnS.
  { intros l' r' Hl Hr Hne. apply (name_found_same l l' r r' ns ne p); [done..|lia|done]. }
  destruct (Z.eqb_spec ch 32) as [_|Hnsp].
  { apply header_keeps_go. split; [by eapply ring_ok_same|]. exists ns, ne. by apply HnS. }
  destruct (Z.eqb_spec ch CR) as [_|Hcr].
  { apply header_keeps_go. split; [by eapply ring_ok_same|]. cbn [l_state].
    apply (line_found_same l _ _ p); [done|lia|]. apply (empty_value_found _ _ ns ne); [|done..].
    by apply HnS. }
  destruct (Z.eqb_spec ch LF) as [_|Hlf].
  { apply keeps_goto. split_and!; [done|by eapply ring_ok_same|].
    apply (empty_value_found _ _ ns ne); [|done..]. by apply HnS. }
  destruct (Z.eqb_spec ch 0) as [_|Hnul]; [apply header_keeps_fail|].
  apply header_keeps_go. split; [by eapply ring_ok_same|]. exists p.
  replace (S p - 1)%nat with p by lia. rewrite Hch. split; [|congruence].
  exists ns, ne. rewrite (sub_one p ch) by done.
  split_and!; [by apply HnS|done| |lia|by apply Forall_singleton|congruence].
  destruct Hn as (_ & _ & ? & _). lia.
Qed.

Lemma value_keeps p ch l r hs :
  (p < lim)%nat -> mem !! p = Some ch -> ring_ok l r -> in_value l r p hs ->
  mem !! (p - 1)%nat <> Some " "%ch -> keeps p (value_case p ch l r).
Proof.
  intros Hp Hch Hring Hin Hlast. unfold value_case.
  pose proof (in_value_trimmed p l r hs Hin Hlast) as Ht.
  destruct (Z.eqb_spec ch 32) as [->|Hnsp].
  { apply header_keeps_go. split; [by eapply ring_ok_same|]. exists hs, p.
    split_and!; [by apply (in_value_S p 32 l _ r)|done|lia|done]. }
  destruct (Z.eqb_spec ch CR) as [_|Hcr].
  { apply header_keeps_go. split; [by eapply ring_ok_same|]. cbn [l_state].
    apply (line_found_same l _ _ p); [done|lia|]. by apply (value_found p l l r _ hs p). }
  destruct (Z.eqb_spec ch LF) as [_|Hlf].
  { apply keeps_goto. split_and!; [done|by eapply ring_ok_same|].
    by apply (value_found p l l r _ hs p). }
  destruct (Z.eqb_spec ch 0) as [_|Hnul]; [apply header_keeps_fail|].
  apply header_keeps_go. split; [by eapply ring_ok_same|]. exists hs.
  replace (S p - 1)%nat with p by lia. rewrite Hch. split; [|congruence].
  by apply (in_value_S p ch l _ r).
Qed.

Lemma space_after_value_keeps p ch l r hs he :
  (p < lim)%nat -> mem !! p = Some ch -> ring_ok l r -> in_value l r p hs ->
  header_end r = Some he -> (he <= p)%nat -> trimmed hs he ->
  keeps p (space_after_value_case p ch l r).
Proof.
  intros Hp Hch Hring Hin He Hhe Ht. unfold space_after_value_case.
  destruct (Z.eqb_spec ch 32) as [->|Hnsp].
  { apply header_keeps_go. split; [by eapply ring_ok_same|]. exists hs, he.
    split_and!; [by apply (in_value_S p 32 l _ r)|done|lia|done]. }
  destruct (Z.eqb_spec ch CR) as [_|Hcr].
  { apply header_keeps_go. split; [by eapply ring_ok_same|]. cbn [l_state].
    apply (line_found_same l _ _ p); [done|lia|]. by apply (value_found p l l r _ hs he). }
  destruct (Z.eqb_spec ch LF) as [_|Hlf].
  { apply keeps_goto. split_and!; [done|by eapply ring_ok_same|].
    by apply (value_found p l l r _ hs he). }
  destruct (Z.eqb_spec ch 0) as [_|Hnul]; [apply header_keeps_fail|].
  apply header_keeps_go. split; [by eapply ring_ok_same|]. exists hs.
  replace (S p - 1)%nat with p by lia. rewrite Hch. split; [|congruence].
  by apply (in_value_S p ch l _ r).
Qed.

Lemma header_step_keeps p ch lr :
  (p < lim)%nat -> mem !! p = Some ch -> header_inv p lr ->
  keeps p (step upstream allow mem p ch lr).
Proof.
  intros Hp Hch Hinv. destruct lr as [l r]. destruct Hinv as [Hring Hinv].
  unfold step. destruct (l_state l).
  - by apply header_start_keeps.
  - by apply name_keeps.
  - destruct Hinv as (ns & ne & Hn). by eapply space_before_value_keeps.
  - destruct Hinv as (hs & Hin & Hlast). by eapply value_keeps.
  - destruct Hinv as (hs & he & Hin & He & Hle & Ht). by eapply space_after_value_keeps.
  - unfold ignore_line_case. case_match; by apply header_keeps_go.
  - unfold almost_done_case. repeat case_match; [by apply keeps_goto| |apply header_keeps_fail].
    apply header_keeps_go. split; [by eapply ring_ok_same|].
    apply (line_found_same l _ _ p); [done|lia|done].
  - unfold header_almost_done_case. case_match; [by apply keeps_goto|apply header_keeps_fail].
Qed.
End Found.

(** C24: on any bytes, a header line parsed from its start is read and copied
    within bounds: the parser returns, never indexes [lowcase_header] outside its
    32 bytes, and when it finds a line (NGX_OK) the name is not empty and has no
    control character, space, DEL or colon, the value comes after it, has no
    CR, LF or NUL and neither starts nor ends with a space, and [b->pos] is
    after both.  If no byte of the name was invalid, [header_hash] is the hash
    of the lower-cased name, [lowcase_index] its length modulo 32, and a name of
    at most 32 bytes is in [lowcase_header]. *)
Theorem ngx_http_parse_header_line_found (upstream allow : bool) (mem : list Z)
    (r : request) (b : ngx_buf_t)
    (Hmem : bytes_ok mem) (Hst : r_state r = sw_start)
    (Hi : 0 <= r_lowcase_index r < 32)
    (Hlow : length (lowcase_header (r_fields r)) = 32%nat)
    (Hlast : (pos b <= last b <= length mem)%nat) :
  exists rc r' b', ngx_http_parse_header_line upstream allow mem r b = Some (rc, r', b')
    /\ (rc = NGX_OK ->
        let f := r_fields r' in
        exists ns ne hs he, header_name_start f = Some ns /\ header_name_end f = Some ne
          /\ header_start f = Some hs /\ header_end f = Some he
          /\ (ns < ne <= hs)%nat /\ (hs <= he < pos b')%nat /\ (pos b' <= last b)%nat
          /\ Forall name_byte (sub mem ns ne)
          /\ (hs = he \/ trimmed mem hs he)
          /\ (invalid_header f = false ->
              r_header_hash r' = name_hash allow (sub mem ns ne)
              /\ r_lowcase_index r' = Z.of_nat (ne - ns) mod 32
              /\ (ne - ns <= 32 ->
                  take (ne - ns) (lowcase_header f) = map (name_lc allow) (sub mem ns ne))%nat)).
Proof.
  destruct (scan_invariant (step upstream allow mem) mem (header_inv allow mem)
              (header_exit allow mem (last b)) (last b)) with
    (p := pos b) (n := (last b - pos b)%nat) (l := load r) as (a & Ha & Hpost);
    [by intros; apply header_step_keeps| |lia|].
  { split; [by split|]. cbn [l_state load]. by rewrite Hst. }
  unfold ngx_http_parse_header_line. rewrite Ha. cbn [mbind option_bind].
  destruct a as [[p [l f]]|[e f|[] p l f]].
  - eexists _, _, _. by split.
  - eexists _, _, _. split; [done|]. by destruct e.
  - eexists _, _, _. split; [reflexivity|]. intros _. cbv zeta.
    destruct Hpost as (Hp & _ & ns & ne & hs & he & (Hns & Hne & Hlt & Hname & Hval)
      & Hhs & Hhe & Hle & Hhep & Hv).
    exists ns, ne, hs, he. cbn [r_fields r_header_hash r_lowcase_index].
    split_and!; [done..|lia|lia|lia|cbn; lia|cbn; lia|done|done|].
    intros Hinv. by destruct (Hval Hinv) as (_ & ? & ? & ?).
  - eexists _, _, _. by split.
Qed.

Lemma ngx_http_parse_header_line_found_witness :
  exists rc r' b', ngx_http_parse_header_line false true (bs "X_Y-z: a b " ++ [CR; LF])
      new_request {| pos := 0; last := 13 |} = Some (rc, r', b')
    /\ rc = NGX_OK /\ take 5 (lowcase_header (r_fields r')) = bs "x_y-z".
Proof.
  destruct (ngx_http_parse_header_line_found false true (bs "X_Y-z: a b " ++ [CR; LF])
              new_request {| pos := 0; last := 13 |}) as (rc & r' & b' & H & _).
  - by apply bytes_ok_check.
  - reflexivity.
  - by vm_compute.
  - reflexivity.
  - vm_compute. lia.
  - exists rc, r', b'. split; [exact H|]. revert H. vm_compute.
    intros [= <- <- <-]. by split.
Defined.
