(* ===== verification/StatusLine.v ===== *)
(** * StatusLine: [ngx_http_parse_status_line] of ngx_http_parse.c

    The parser of the status line of an upstream response, "HTTP/1.1 200 OK". *)

From S2P Require Import Prelude Scan Http.

Inductive state :=
  | sw_start | sw_H | sw_HT | sw_HTT | sw_HTTP | sw_first_major_digit | sw_major_digit
  | sw_first_minor_digit | sw_minor_digit | sw_status | sw_space_after_status
  | sw_status_text | sw_almost_done.

(** The fields of [ngx_http_request_t] and of [ngx_http_status_t] that are set. *)
Record fields := {
  http_major : Z;
  http_minor : Z;
  http_version : Z;
  code : Z;
  count : Z;
  start : option nat;
  end_ : option nat;
}.
#[export] Instance eta_fields : Eta fields := mk_eta (fun r =>
  Build_fields (http_major r) (http_minor r) (http_version r) (code r) (count r) (start r)
    (end_ r)).

Record request := { r_state : state; r_fields : fields }.

Definition outcome : Type := option (action (state * fields) (exit state fields unit)).
Definition go (st : state) (r : fields) : outcome := Some (Next (st, r)).
Definition fail (r : fields) : outcome := Some (Exit (Return PARSE_ERROR r)).
Definition goto_done (p : nat) (st : state) (r : fields) : outcome :=
  Some (Exit (Goto tt p st r)).

(** [sw_start] to [sw_HTTP]. *)
Definition letter_case (expected : Z) (next : state) (ch : Z) (r : fields) : outcome :=
  if ch =? expected then go next r else fail r.

Definition not_digit (ch : Z) : bool := (ch <? "0"%ch) || (ch >? "9"%ch).

Definition first_major_digit_case (ch : Z) (r : fields) : outcome :=
  if (ch <? "1"%ch) || (ch >? "9"%ch) then fail r
  else go sw_major_digit (r <| http_major := ch - "0"%ch |>).

Definition major_digit_case (ch : Z) (r : fields) : outcome :=
  if ch =? "."%ch then go sw_first_minor_digit r
  else if not_digit ch then fail r
  else if http_major r >? 99 then fail r
  else go sw_major_digit (r <| http_major := http_major r * 10 + (ch - "0"%ch) |>).

Definition first_minor_digit_case (ch : Z) (r : fields) : outcome :=
  if not_digit ch then fail r
  else go sw_minor_digit (r <| http_minor := ch - "0"%ch |>).

Definition minor_digit_case (ch : Z) (r : fields) : outcome :=
  if ch =? " "%ch then go sw_status r
  else if not_digit ch then fail r
  else if http_minor r >? 99 then fail r
  else go sw_minor_digit (r <| http_minor := http_minor r * 10 + (ch - "0"%ch) |>).

Definition status_case (p : nat) (ch : Z) (r : fields) : outcome :=
  if ch =? " "%ch then go sw_status r
  else if not_digit ch then fail r
  else
    let r := r <| code := u64 (code r * 10 + (ch - "0"%ch)) |>
               <| count := u64 (count r + 1) |> in
    if count r =? 3 then go sw_space_after_status (r <| start := Some (p - 2)%nat |>)
    else go sw_status r.

Definition space_after_status_case (p : nat) (ch : Z) (r : fields) : outcome :=
  if ch =? " "%ch then go sw_status_text r
  else if ch =? "."%ch then go sw_status_text r
  else if ch =? CR then go sw_almost_done r
  else if ch =? LF then goto_done p sw_space_after_status r
  else fail r.

Definition status_text_case (p : nat) (ch : Z) (r : fields) : outcome :=
  if ch =? CR then go sw_almost_done r
  else if ch =? LF then goto_done p sw_status_text r
  else go sw_status_text r.

Definition almost_done_case (p : nat) (ch : Z) (r : fields) : outcome :=
  let r := r <| end_ := Some (p - 1)%nat |> in
  if ch =? LF then goto_done p sw_almost_done r else fail r.

Definition step (p : nat) (ch : Z) (l : state * fields) : outcome :=
  let '(st, r) := l in
  match st with
  | sw_start => letter_case "H"%ch sw_H ch r
  | sw_H => letter_case "T"%ch sw_HT ch r
  | sw_HT => letter_case "T"%ch sw_HTT ch r
  | sw_HTT => letter_case "P"%ch sw_HTTP ch r
  | sw_HTTP => letter_case "/"%ch sw_first_major_digit ch r
  | sw_first_major_digit => first_major_digit_case ch r
  | sw_major_digit => major_digit_case ch r
  | sw_first_minor_digit => first_minor_digit_case ch r
  | sw_minor_digit => minor_digit_case ch r
  | sw_status => status_case p ch r
  | sw_space_after_status => space_after_status_case p ch r
  | sw_status_text => status_text_case p ch r
  | sw_almost_done => almost_done_case p ch r
  end.

(** The code at [done:]. *)
Definition done_label (p : nat) (r : fields) : Z * request * nat :=
  let r := match end_ r with None => r <| end_ := Some p |> | Some _ => r end in
  let r := r <| http_version := http_major r * 1000 + http_minor r |> in
  (NGX_OK, {| r_state := sw_start; r_fields := r |}, (p + 1)%nat).

Definition ngx_http_parse_status_line (mem : list Z) (r : request) (b : ngx_buf_t)
    : option (Z * request * ngx_buf_t) :=
  a ← scan step mem (pos b) (last b - pos b) (r_state r, r_fields r);
  Some match a with
  | Next (p, (st, f)) => (NGX_AGAIN, {| r_state := st; r_fields := f |}, b <| pos := p |>)
  | Exit (Return e f) => (error_code e, {| r_state := r_state r; r_fields := f |}, b)
  | Exit (Goto _ p _ f) => let '(rc, r', p') := done_label p f in (rc, r', b <| pos := p' |>)
  end.

(** The request and a zeroed [ngx_http_status_t]. *)
Definition new_request : request := {|
  r_state := sw_start;
  r_fields := {| http_major := 0; http_minor := 0; http_version := 0; code := 0; count := 0;
                 start := None; end_ := None |} |}.

#[export] Program Instance status_line_parser : IncrementalParser request state fields unit := {|
  parser_load r := (r_state r, r_fields r);
  parser_save st f := {| r_state := st; r_fields := f |};
  parser_step _ := step;
  parser_label _ p _ _ f := done_label p f;
  parser_same _ := eq;
|}.
Next Obligation. done. Qed.
Next Obligation. by intros []. Qed.
Next Obligation. done. Qed.
Next Obligation. done. Qed.

Lemma ngx_http_parse_status_line_run mem r b :
  ngx_http_parse_status_line mem r b = run_parser mem r b.
Proof.
  unfold ngx_http_parse_status_line, run_parser.
  change (parser_step mem) with step. change (parser_load r) with (r_state r, r_fields r).
  by destruct (scan _ _ _ _ _) as [[[p [st f]]|[e f|[] p st f]]|].
Qed.

(** a status line may arrive in any number of pieces. *)
Theorem ngx_http_parse_status_line_resume (mem : list Z) (r : request) (p last1 last2 : nat)
    (rc1 : Z) (r1 : request) (b1 : ngx_buf_t)
    (Hp : (p <= last1 <= last2)%nat)
    (Hrun : ngx_http_parse_status_line mem r {| pos := p; last := last1 |} = Some (rc1, r1, b1)) :
  if rc1 =? NGX_AGAIN then
    option_Forall2 same_result
      (ngx_http_parse_status_line mem r1 {| pos := pos b1; last := last2 |})
      (ngx_http_parse_status_line mem r {| pos := p; last := last2 |})
  else
    exists y, ngx_http_parse_status_line mem r {| pos := p; last := last2 |} = Some y
      /\ same_result (rc1, r1, b1) y.
Proof.
  rewrite ngx_http_parse_status_line_run in Hrun.
  pose proof (run_parser_resume mem r p last1 last2 rc1 r1 b1 Hp Hrun) as H.
  case_match; [by rewrite !ngx_http_parse_status_line_run|].
  setoid_rewrite ngx_http_parse_status_line_run. exact H.
Qed.

Lemma ngx_http_parse_status_line_resume_witness :
  let parse := ngx_http_parse_status_line (bs "HTTP/1.1 200 OK" ++ [CR; LF]) in
  exists r1, r_state r1 = sw_status /\
    option_Forall2 same_result
      (parse r1 {| pos := 11; last := 17 |}) (parse new_request {| pos := 0; last := 17 |}).
Proof.
  intros parse.
  exists {| r_state := sw_status;
            r_fields := {| http_major := 1; http_minor := 1; http_version := 0; code := 20;
                           count := 2; start := None; end_ := None |} |}.
  split; [reflexivity|].
  exact (ngx_http_parse_status_line_resume (bs "HTTP/1.1 200 OK" ++ [CR; LF])
           new_request 0 11 17 NGX_AGAIN _ {| pos := 11; last := 11 |} ltac:(lia) eq_refl).
Defined.

(** ** The fields after a status line *)

Definition end_before (r : fields) (q : nat) : Prop := forall e, end_ r = Some e -> (e < q)%nat.

(** [count] is the number of digits read and [code] their value. *)
Definition status_inv (p : nat) (l : state * fields) : Prop :=
  let '(st, r) := l in
  0 <= http_major r <= 999 /\ 0 <= http_minor r <= 999
  /\ 0 <= count r <= 3 /\ 0 <= code r < 10 ^ count r
  /\ match st with
     | sw_space_after_status | sw_status_text | sw_almost_done =>
         count r = 3 /\ exists s, start r = Some s /\ (s < p)%nat
     | _ => count r < 3
     end
  /\ end_before r p.

Definition status_exit (lim : nat) (e : exit state fields unit) : Prop :=
  match e with
  | Return _ _ => True
  | Goto _ p _ r => (p < lim)%nat /\ (0 <= http_major r <= 999 /\ 0 <= http_minor r <= 999)
      /\ count r = 3 /\ 0 <= code r <= 999
      /\ (exists s, start r = Some s /\ (s < p)%nat)
      /\ end_before r (S p)
  end.

Lemma status_case_keeps p ch r :
  status_inv p (sw_status, r) ->
  exists a, status_case p ch r = Some a
    /\ match a with Next l' => status_inv (S p) l' | Exit e => exists f, e = Return PARSE_ERROR f end.
Proof.
  intros (Hma & Hmi & Hct & Hcode & Hst & Hend).
  assert (end_before r (S p)) as Hend' by (intros e He; specialize (Hend e He); lia).
  unfold status_case, not_digit.
  destruct (Z.eqb_spec ch 32); [by eexists|].
  destruct ((ch <? 48) || (ch >? 57)) eqn:Hd; [eexists; split; [done|by eexists]|].
  assert (10 ^ (count r + 1) = 10 * 10 ^ count r) as Hpow by (rewrite Z.pow_add_r; lia).
  assert (10 ^ count r <= 10 ^ 2) as Hle by (apply Z.pow_le_mono_r; lia).
  cbn [count field_set]. rewrite (u64_small (count r + 1)) by lia.
  rewrite (u64_small (code r * 10 + (ch - 48))) by lia.
  destruct (Z.eqb_spec (count r + 1) 3) as [H3|H3]; eexists; (split; [reflexivity|]);
    cbn [status_inv http_major http_minor count code start end_ field_set]; rewrite Hpow;
    split_and!; try done; try lia.
  eexists. split; [done|lia].
Qed.

Lemma status_step_keeps lim p ch l :
  (p < lim)%nat -> status_inv p l ->
  exists a, step p ch l = Some a
    /\ match a with Next l' => status_inv (S p) l' | Exit e => status_exit lim e end.
Proof.
  intros Hp. destruct l as [st r]. intros Hinv. pose proof Hinv as (Hma & Hmi & Hct & Hcode & Hst & Hend).
  assert (end_before r (S p)) as Hend' by (intros e He; specialize (Hend e He); lia).
  destruct st; cbn [step];
    try (destruct (status_case_keeps p ch r Hinv) as (a & Ha & Hpost); exists a; split; [done|];
         destruct a as [|e]; [done|by destruct Hpost as [? ->]]);
    unfold letter_case, first_major_digit_case, major_digit_case, first_minor_digit_case,
      minor_digit_case, space_after_status_case, status_text_case, almost_done_case, not_digit;
    try destruct Hst as (H3 & s & Hs & Hlt);
    repeat case_match; eexists; (split; [reflexivity|]);
    cbn [status_inv status_exit http_major http_minor count code start end_ field_set];
    try done; rewrite ?H3 in *; split_and!; try done; try lia.
  all: try (exists s; split; [done|lia]).
  intros e [= <-]. lia.
Qed.

(** a status line parsed from its start gives fields within their bounds, on
    any bytes: the parser returns, and on NGX_OK exactly three digits have been
    taken, so the code is at most 999; the version is [major * 1000 + minor] with
    both at most 999; and [start] and [end], which delimit the text kept of the
    line, are set and lie before [b->pos]. *)
Theorem ngx_http_parse_status_line_found (mem : list Z) (r : request) (b : ngx_buf_t)
    (Hr : r = new_request) (Hlast : (pos b <= last b <= length mem)%nat) :
  exists rc r' b', ngx_http_parse_status_line mem r b = Some (rc, r', b')
    /\ (rc = NGX_OK ->
        let f := r_fields r' in
        count f = 3 /\ 0 <= code f <= 999
        /\ http_version f = http_major f * 1000 + http_minor f
        /\ 0 <= http_major f <= 999 /\ 0 <= http_minor f <= 999
        /\ (exists s e, start f = Some s /\ end_ f = Some e /\ (s < pos b')%nat
              /\ (e < pos b')%nat)
        /\ (pos b' <= last b)%nat).
Proof.
  destruct (scan_invariant step mem status_inv (status_exit (last b)) (last b)) with
    (p := pos b) (n := (last b - pos b)%nat) (l := (r_state r, r_fields r)) as (a & Ha & Hpost);
    [by intros; apply status_step_keeps| |lia|].
  { subst r. cbn. split_and!; (lia || done). }
  unfold ngx_http_parse_status_line. rewrite Ha. cbn [mbind option_bind].
  destruct a as [[p [st f]]|[e f|[] p st f]].
  - eexists _, _, _. by split.
  - eexists _, _, _. split; [done|]. by destruct e.
  - destruct Hpost as (Hp & (Hma & Hmi) & Hct & Hcode & (s & Hs & Hlt) & Hend).
    unfold done_label. eexists _, _, _. split; [reflexivity|]. intros _. cbv zeta.
    destruct (end_ f) as [e|] eqn:He; cbn [r_fields count code http_version http_major http_minor
      start end_ field_set pos].
    + specialize (Hend e He). split_and!; try done; try lia.
      exists s, e. split_and!; (done || lia).
    + split_and!; try done; try lia. exists s, p. split_and!; (done || lia).
Qed.

Lemma ngx_http_parse_status_line_found_witness :
  exists rc r' b', ngx_http_parse_status_line (bs "HTTP/1.0 404 Not Found" ++ [CR; LF])
      new_request {| pos := 0; last := 24 |} = Some (rc, r', b')
    /\ rc = NGX_OK /\ code (r_fields r') = 404 /\ http_version (r_fields r') = 1000.
Proof.
  destruct (ngx_http_parse_status_line_found (bs "HTTP/1.0 404 Not Found" ++ [CR; LF])
      new_request {| pos := 0; last := 24 |} eq_refl) as (rc & r' & b' & H & _).
  - vm_compute. lia.
  - exists rc, r', b'. split; [exact H|]. revert H. vm_compute. by intros [= <- <- <-].
Defined.
