(* ===== verification/Chunked.v ===== *)
(** * Chunked: [ngx_http_parse_chunked] of ngx_http_parse.c and the filters of
    chunked bodies around it

    The parser of the chunked transfer coding; [ngx_http_request_body_chunked_filter]
    and [ngx_http_discard_request_body_filter] of ngx_http_request_body.c, which
    call it until a buffer is used up; and [ngx_http_chunked_body_filter] of
    ngx_http_chunked_filter_module.c, which writes the coding. *)

From S2P Require Import Prelude Numbers Scan Http.

(** ** The parser *)

Inductive state :=
  | sw_chunk_start | sw_chunk_size | sw_chunk_extension | sw_chunk_extension_almost_done
  | sw_chunk_data | sw_after_data | sw_after_data_almost_done
  | sw_last_chunk_extension | sw_last_chunk_extension_almost_done
  | sw_trailer | sw_trailer_almost_done | sw_trailer_header | sw_trailer_header_almost_done.

#[export] Instance state_eq_dec : EqDecision state.
Proof. solve_decision. Defined.

Record ngx_http_chunked_t := { c_state : state; c_size : Z; c_length : Z }.
#[export] Instance eta_chunked : Eta ngx_http_chunked_t := mk_eta (fun c =>
  Build_ngx_http_chunked_t (c_state c) (c_size c) (c_length c)).

(** As [ngx_pcalloc] leaves it. *)
Definition new_chunked : ngx_http_chunked_t :=
  {| c_state := sw_chunk_start; c_size := 0; c_length := 0 |}.

(** Out of the loop: [goto invalid], [goto data] with [rc = NGX_OK], [goto done]. *)
Inductive leave :=
  | Invalid (size : Z)
  | Data (pos : nat) (st : state) (size : Z)
  | Done (pos : nat) (size : Z).

Definition outcome : Type := option (action (state * Z) leave).
Definition go (st : state) (size : Z) : outcome := Some (Next (st, size)).
Definition invalid (size : Z) : outcome := Some (Exit (Invalid size)).

Definition chunk_start_case (ch size : Z) : outcome :=
  match hex_value ch with
  | Some v => go sw_chunk_size v
  | None => invalid size
  end.

Definition last_chunk_case (ch size : Z) : outcome :=
  if ch =? CR then go sw_last_chunk_extension_almost_done size
  else if ch =? LF then go sw_trailer size
  else if (ch =? ";"%ch) || (ch =? " "%ch) || (ch =? 9) then go sw_last_chunk_extension size
  else invalid size.

Definition chunk_size_case (ch size : Z) : outcome :=
  if size >? NGX_MAX_OFF_T_VALUE / 16 then invalid size
  else
    match hex_value ch with
    | Some v => go sw_chunk_size (i64 (size * 16 + v))
    | None =>
        if size =? 0 then last_chunk_case ch size
        else if ch =? CR then go sw_chunk_extension_almost_done size
        else if ch =? LF then go sw_chunk_data size
        else if (ch =? ";"%ch) || (ch =? " "%ch) || (ch =? 9) then go sw_chunk_extension size
        else invalid size
    end.

(** Bytes skipped up to the end of the line. *)
Definition line_case (st almost_done next : state) (ch size : Z) : outcome :=
  if ch =? CR then go almost_done size
  else if ch =? LF then go next size
  else go st size.

(** The LF that must follow a CR. *)
Definition lf_case (next : state) (ch size : Z) : outcome :=
  if ch =? LF then go next size else invalid size.

Definition after_data_case (ch size : Z) : outcome :=
  if ch =? CR then go sw_after_data_almost_done size
  else if ch =? LF then go sw_chunk_start size
  else invalid size.

Definition trailer_case (p : nat) (ch size : Z) : outcome :=
  if ch =? CR then go sw_trailer_almost_done size
  else if ch =? LF then Some (Exit (Done p size))
  else go sw_trailer_header size.

Definition trailer_almost_done_case (p : nat) (ch size : Z) : outcome :=
  if ch =? LF then Some (Exit (Done p size)) else invalid size.

Definition step (p : nat) (ch : Z) (l : state * Z) : outcome :=
  let '(st, size) := l in
  match st with
  | sw_chunk_start => chunk_start_case ch size
  | sw_chunk_size => chunk_size_case ch size
  | sw_chunk_extension =>
      line_case sw_chunk_extension sw_chunk_extension_almost_done sw_chunk_data ch size
  | sw_chunk_extension_almost_done => lf_case sw_chunk_data ch size
  | sw_chunk_data => Some (Exit (Data p sw_chunk_data size))
  | sw_after_data => after_data_case ch size
  | sw_after_data_almost_done => lf_case sw_chunk_start ch size
  | sw_last_chunk_extension =>
      line_case sw_last_chunk_extension sw_last_chunk_extension_almost_done sw_trailer ch size
  | sw_last_chunk_extension_almost_done => lf_case sw_trailer ch size
  | sw_trailer => trailer_case p ch size
  | sw_trailer_almost_done => trailer_almost_done_case p ch size
  | sw_trailer_header =>
      line_case sw_trailer_header sw_trailer_header_almost_done sw_trailer ch size
  | sw_trailer_header_almost_done => lf_case sw_trailer ch size
  end.

(** [ctx->length]: how many more bytes the body has at least. *)
Definition min_length (st : state) (size : Z) : Z :=
  match st with
  | sw_chunk_start => 3
  | sw_chunk_size => i64 (1 + (if negb (size =? 0) then size + 4 else 1))
  | sw_chunk_extension | sw_chunk_extension_almost_done => i64 (1 + size + 4)
  | sw_chunk_data => i64 (size + 4)
  | sw_after_data | sw_after_data_almost_done => 4
  | sw_last_chunk_extension | sw_last_chunk_extension_almost_done => 2
  | sw_trailer | sw_trailer_almost_done => 1
  | sw_trailer_header | sw_trailer_header_almost_done => 2
  end.

(** The code at [data:]. *)
Definition data_label (rc : Z) (p : nat) (st : state) (size : Z)
    (ctx : ngx_http_chunked_t) (b : ngx_buf_t) : Z * ngx_http_chunked_t * ngx_buf_t :=
  let ctx := ctx <| c_state := st |> <| c_size := size |> in
  let b := b <| pos := p |> in
  if size >? NGX_MAX_OFF_T_VALUE - 5 then (NGX_ERROR, ctx, b)
  else (rc, ctx <| c_length := min_length st size |>, b).

(** The state the loop starts from. *)
Definition entry (st : state) (size : Z) : state :=
  match st with
  | sw_chunk_data => if size =? 0 then sw_after_data else sw_chunk_data
  | st => st
  end.

Definition ngx_http_parse_chunked (mem : list Z) (b : ngx_buf_t) (ctx : ngx_http_chunked_t)
    : option (Z * ngx_http_chunked_t * ngx_buf_t) :=
  a ← scan step mem (pos b) (last b - pos b) (entry (c_state ctx) (c_size ctx), c_size ctx);
  Some match a with
  | Next (p, (st, size)) => data_label NGX_AGAIN p st size ctx b
  | Exit (Data p st size) => data_label NGX_OK p st size ctx b
  | Exit (Done p size) =>
      (NGX_DONE, ctx <| c_size := size |> <| c_state := sw_chunk_start |>,
       b <| pos := (p + 1)%nat |>)
  | Exit (Invalid size) => (NGX_ERROR, ctx <| c_size := size |>, b)
  end.

Example parse_chunked_ok :
  ngx_http_parse_chunked (bs "1a;x=y" ++ [CR; LF] ++ bs "abc") {| pos := 0; last := 11 |}
    new_chunked
  = Some (NGX_OK, {| c_state := sw_chunk_data; c_size := 26; c_length := 30 |},
          {| pos := 8; last := 11 |}).
Proof. reflexivity. Qed.

(** ** The filter of chunked request bodies *)

Definition NGX_HTTP_REQUEST_ENTITY_TOO_LARGE : Z := 413.

(** [while (n) { *dst++ = *src++; n--; }]. *)
Fixpoint copy_forward (mem : list Z) (dst src n : nat) : option (list Z) :=
  match n with
  | O => Some mem
  | S n' => c ← mem !! src; copy_forward (<[dst := c]> mem) (S dst) (S src) n'
  end.

(** [ngx_memmove(dst, src, n)]. *)
Definition ngx_memmove (mem : list Z) (dst src n : nat) : list Z :=
  take dst mem ++ take n (drop src mem) ++ drop (dst + n) mem.

Record conf := { client_max_body_size : Z; large_client_header_buffers_size : Z }.

(** The state of the inner loop over one input buffer [cl->buf]: the memory,
    the buffer, the output buffers made so far, in order, as [(pos, last)], the
    last of which is [b]; and [rb->chunked], [rb->rest] and
    [r->headers_in.content_length_n]. *)
Record body_state := {
  bd_mem : list Z;
  bd_buf : ngx_buf_t;
  bd_out : list (nat * nat);
  bd_chunked : ngx_http_chunked_t;
  bd_rest : Z;
  bd_length : Z;
  bd_last_buf : bool;
}.
#[export] Instance eta_body : Eta body_state := mk_eta (fun s =>
  Build_body_state (bd_mem s) (bd_buf s) (bd_out s) (bd_chunked s) (bd_rest s) (bd_length s)
    (bd_last_buf s)).

Definition available (b : ngx_buf_t) : Z := Z.of_nat (last b) - Z.of_nat (pos b).

(** A small chunk is moved to the end [b_last] of the previous output buffer. *)
Definition append_chunk (s : body_state) (front : list (nat * nat)) (b_pos b_last : nat)
    : option body_state :=
  let size := c_size (bd_chunked s) in
  let n := Z.to_nat size in
  let src := pos (bd_buf s) in
  mem ← (if size <? 8 then copy_forward (bd_mem s) b_last src n
         else Some (ngx_memmove (bd_mem s) b_last src n));
  Some (s <| bd_length := i64 (bd_length s + size) |>
          <| bd_mem := mem |>
          <| bd_out := front ++ [(b_pos, (b_last + n)%nat)] |>
          <| bd_buf := (bd_buf s) <| pos := (src + n)%nat |> |>
          <| bd_chunked := (bd_chunked s) <| c_size := 0 |> |>).

(** The skip over the data in the buffer, for both filters: the new [pos],
    [chunked->size] and how many bytes it is. *)
Definition skip_data (b : ngx_buf_t) (ctx : ngx_http_chunked_t)
    : ngx_buf_t * ngx_http_chunked_t * Z :=
  let size := available b in
  if size >? c_size ctx then
    (b <| pos := (pos b + Z.to_nat (c_size ctx))%nat |>, ctx <| c_size := 0 |>, c_size ctx)
  else (b <| pos := last b |>, ctx <| c_size := i64 (c_size ctx - size) |>, size).

(** A new output buffer for the data of a chunk. *)
Definition new_chunk (s : body_state) : body_state :=
  let '(b', ctx', n) := skip_data (bd_buf s) (bd_chunked s) in
  s <| bd_length := i64 (bd_length s + n) |> <| bd_buf := b' |> <| bd_chunked := ctx' |>
    <| bd_out := bd_out s ++ [(pos (bd_buf s), pos b')] |>.

Definition ngx_max (a b : Z) : Z := if a <? b then b else a.

(** The body of the inner loop: [inl] to [continue], [inr] to leave it, with
    NGX_OK for [break] or the status returned. *)
Definition chunked_filter_step (cf : conf) (s : body_state)
    : option (body_state + Z * body_state) :=
  '(rc, ctx, b) ← ngx_http_parse_chunked (bd_mem s) (bd_buf s) (bd_chunked s);
  let s := s <| bd_chunked := ctx |> <| bd_buf := b |> in
  if rc =? NGX_OK then
    if negb (client_max_body_size cf =? 0)
       && (client_max_body_size cf - bd_length s <? c_size ctx)
    then Some (inr (NGX_HTTP_REQUEST_ENTITY_TOO_LARGE, s))
    else
      match list.last (bd_out s) with
      | Some (b_pos, b_last) =>
          if (c_size ctx <=? 128) && (available b >=? c_size ctx) then
            s ← append_chunk s (take (length (bd_out s) - 1) (bd_out s)) b_pos b_last;
            Some (inl s)
          else Some (inl (new_chunk s))
      | None => Some (inl (new_chunk s))
      end
  else if rc =? NGX_DONE then
    Some (inr (NGX_OK, s <| bd_rest := 0 |> <| bd_last_buf := true |>))
  else if rc =? NGX_AGAIN then
    Some (inr (NGX_OK, s <| bd_rest := ngx_max (c_length ctx)
                                         (large_client_header_buffers_size cf) |>))
  else Some (inr (NGX_HTTP_BAD_REQUEST, s)).

Fixpoint chunked_filter_loop (fuel : nat) (cf : conf) (s : body_state)
    : option (Z * body_state) :=
  match fuel with
  | O => None
  | S fuel' =>
      r ← chunked_filter_step cf s;
      match r with
      | inl s' => chunked_filter_loop fuel' cf s'
      | inr res => Some res
      end
  end.

(** The iteration of the outer loop for one buffer of the chain; every
    [continue] takes at least one byte, so the fuel is enough. *)
Definition ngx_http_request_body_chunked_buf (cf : conf) (mem : list Z) (b : ngx_buf_t)
    (rest : Z) (ctx : ngx_http_chunked_t) (length_n : Z) : option (Z * body_state) :=
  chunked_filter_loop (S (last b - pos b)) cf
    {| bd_mem := mem; bd_buf := b; bd_out := []; bd_chunked := ctx; bd_rest := rest;
       bd_length := length_n; bd_last_buf := false |}.

(** What the filter keeps between calls, [rest], the context and the length, and
    what it has handed to [ngx_http_top_request_body_filter] so far: the body and
    the [last_buf] mark. *)
Record filtered := {
  f_body : list Z;
  f_last_buf : bool;
  f_rest : Z;
  f_chunked : ngx_http_chunked_t;
  f_length : Z;
}.
#[export] Instance eta_filtered : Eta filtered := mk_eta (fun f =>
  Build_filtered (f_body f) (f_last_buf f) (f_rest f) (f_chunked f) (f_length f)).

Definition out_bytes (s : body_state) : list Z :=
  concat (map (fun '(p, l) => take (l - p) (drop p (bd_mem s))) (bd_out s)).

(** The chain [out] of one call: what its buffers hold, and whether one has [last_buf]. *)
Definition out_chain : Type := list Z * bool.

(** The loop over the buffers of the chain, each with its memory, up to the first
    [return]. *)
Fixpoint chunked_filter_chain (cf : conf) (chain : list (list Z * ngx_buf_t)) (out : out_chain)
    (f : filtered) : option (Z * out_chain * filtered) :=
  match chain with
  | [] => Some (NGX_OK, out, f)
  | (mem, b) :: chain' =>
      '(rc, s) ← ngx_http_request_body_chunked_buf cf mem b (f_rest f) (f_chunked f) (f_length f);
      let f := f <| f_rest := bd_rest s |> <| f_chunked := bd_chunked s |>
                 <| f_length := bd_length s |> in
      let out := (out.1 ++ out_bytes s, out.2 || bd_last_buf s) in
      if rc =? NGX_OK then chunked_filter_chain cf chain' out f else Some (rc, out, f)
  end.

(** [if (rb->rest == -1)]: the first call. *)
Definition chunked_filter_start (cf : conf) (f : filtered) : filtered :=
  if f_rest f =? -1 then
    f <| f_chunked := new_chunked |> <| f_length := 0 |>
      <| f_rest := large_client_header_buffers_size cf |>
  else f.

(** The whole filter.  It hands [out] on only after the loop: when the loop
    returns 400 or 413, what this call has collected is not passed on.  (The code of
    the next filter, which the function returns, is taken to be [NGX_OK].) *)
Definition ngx_http_request_body_chunked_filter (cf : conf) (chain : list (list Z * ngx_buf_t))
    (f : filtered) : option (Z * filtered) :=
  '(rc, out, f) ← chunked_filter_chain cf chain ([], false) (chunked_filter_start cf f);
  Some (if rc =? NGX_OK then
          (rc, f <| f_body := f_body f ++ out.1 |> <| f_last_buf := f_last_buf f || out.2 |>)
        else (rc, f)).

(** Before the first call. *)
Definition new_filtered : filtered :=
  {| f_body := []; f_last_buf := false; f_rest := -1; f_chunked := new_chunked; f_length := -1 |}.

(** The chunked half of [ngx_http_discard_request_body_filter]: the code, the
    buffer, the context and [content_length_n], which it sets at the end. *)
Fixpoint discard_loop (fuel : nat) (cf : conf) (mem : list Z) (b : ngx_buf_t)
    (ctx : ngx_http_chunked_t) : option (Z * ngx_buf_t * ngx_http_chunked_t * option Z) :=
  match fuel with
  | O => None
  | S fuel' =>
      '(rc, ctx, b) ← ngx_http_parse_chunked mem b ctx;
      if rc =? NGX_OK then
        let '(b', ctx', _) := skip_data b ctx in discard_loop fuel' cf mem b' ctx'
      else if rc =? NGX_DONE then Some (NGX_OK, b, ctx, Some 0)
      else if rc =? NGX_AGAIN then
        Some (NGX_OK, b, ctx,
              Some (ngx_max (c_length ctx) (large_client_header_buffers_size cf)))
      else Some (NGX_HTTP_BAD_REQUEST, b, ctx, None)
  end.

Definition ngx_http_discard_request_body_filter (cf : conf) (chunked : bool) (mem : list Z)
    (b : ngx_buf_t) (ctx : ngx_http_chunked_t) (length_n : Z)
    : option (Z * ngx_buf_t * ngx_http_chunked_t * Z) :=
  if chunked then
    '(rc, b', ctx', n) ← discard_loop (S (last b - pos b)) cf mem b ctx;
    Some (rc, b', ctx', default length_n n)
  else
    if available b >? length_n then
      Some (NGX_OK, b <| pos := (pos b + Z.to_nat length_n)%nat |>, ctx, 0)
    else Some (NGX_OK, b <| pos := last b |>, ctx, i64 (length_n - available b)).

Example filter_two_chunks :
  let mem := bs "2" ++ [LF] ++ bs "ab" ++ [LF] ++ bs "1" ++ [CR; LF] ++ bs "c" ++ [LF]
             ++ bs "0" ++ [LF; LF] in
  option_map (fun '(rc, f) => (rc, f_body f, f_last_buf f, f_length f))
    (ngx_http_request_body_chunked_filter
       {| client_max_body_size := 0; large_client_header_buffers_size := 1024 |}
       [(mem, {| pos := 0; last := 4 |}); (mem, {| pos := 4; last := 13 |})] new_filtered)
  = Some (NGX_OK, bs "abc", true, 3).
Proof. reflexivity. Qed.

(** The data before an error is not passed on. *)
Example filter_bad_chunk :
  option_map (fun '(rc, f) => (rc, f_body f, f_rest f, f_length f))
    (ngx_http_request_body_chunked_filter
       {| client_max_body_size := 0; large_client_header_buffers_size := 1024 |}
       [(bs "1" ++ [LF] ++ bs "a" ++ [LF] ++ bs "g", {| pos := 0; last := 5 |})] new_filtered)
  = Some (NGX_HTTP_BAD_REQUEST, [], 1024, 1).
Proof. reflexivity. Qed.

(** ** The coding, a byte at a time

    What the filters are to do with a stream of bytes, however it is cut into
    buffers: each byte of the data of a chunk is passed on, every other one goes
    through [step]. *)

Inductive verdict := Running (st : state) (size : Z) | Finished (rest : list Z) | Malformed.

(** The largest size of a chunk. *)
Definition max_size : Z := NGX_MAX_OFF_T_VALUE - 5.

Fixpoint decode (st : state) (size : Z) (input : list Z) : list Z * verdict :=
  match input with
  | [] => ([], Running (entry st size) size)
  | c :: input' =>
      match entry st size with
      | sw_chunk_data =>
          let '(body, v) := decode sw_chunk_data (size - 1) input' in (c :: body, v)
      | st' =>
          match step 0 c (st', size) with
          | Some (Next (st'', size')) =>
              if size' >? max_size then ([], Malformed) else decode st'' size' input'
          | Some (Exit (Done _ _)) => ([], Finished input')
          | _ => ([], Malformed)
          end
      end
  end.

(** The states a context can be in: the size is that of a chunk, and not zero
    where a chunk of data must follow. *)
Definition chunk_ok (st : state) (size : Z) : Prop :=
  0 <= size <= max_size
  /\ (st = sw_chunk_extension \/ st = sw_chunk_extension_almost_done -> 0 < size).

Definition data_state (st : state) : Prop :=
  st = sw_chunk_extension \/ st = sw_chunk_extension_almost_done \/ st = sw_chunk_data.

(** What one step does: go on, end, or fail; the same at any position. *)
Inductive step_result (p : nat) (c : Z) (st : state) (size : Z) : Prop :=
  | step_next st' size'
      (_ : step p c (st, size) = Some (Next (st', size')))
      (_ : step 0 c (st, size) = Some (Next (st', size')))
      (_ : 0 <= size' <= NGX_MAX_OFF_T_VALUE)
      (_ : max_size < size' -> st' = sw_chunk_size)
      (_ : data_state st' -> 0 < size')
  | step_done
      (_ : step p c (st, size) = Some (Exit (Done p size)))
      (_ : step 0 c (st, size) = Some (Exit (Done 0 size)))
  | step_invalid
      (_ : step p c (st, size) = invalid size)
      (_ : step 0 c (st, size) = invalid size).

Lemma step_cases p c st size :
  chunk_ok st size -> st <> sw_chunk_data -> step_result p c st size.
Proof.
  intros [Hs Hext] Hst. unfold max_size, NGX_MAX_OFF_T_VALUE in Hs.
  assert (forall st' size', step p c (st, size) = go st' size' ->
    step 0 c (st, size) = go st' size' ->
    0 <= size' <= max_size -> (data_state st' -> 0 < size') -> step_result p c st size) as Hgo.
  { intros st' size' Hp H0 Hs' Hd. apply (step_next _ _ _ _ st' size'); [done..| | |done].
    - unfold max_size in Hs'. lia.
    - lia. }
  assert (forall v, hex_value c = Some v -> 0 <= v < 16) as Hhex by apply hex_value_range.
  assert (step p c (st, size) = invalid size -> step 0 c (st, size) = invalid size ->
    step_result p c st size) as Hinv by apply step_invalid.
  assert (forall v, i64 (size * 16 + v) = size * 16 + v -> 0 <= size * 16 + v < 2 ^ 63 ->
    step p c (st, size) = go sw_chunk_size (i64 (size * 16 + v)) ->
    step 0 c (st, size) = go sw_chunk_size (i64 (size * 16 + v)) ->
    step_result p c st size) as Hdigit.
  { intros v -> Hv Hp H0. eapply step_next; [exact Hp|exact H0| |done|].
    - unfold NGX_MAX_OFF_T_VALUE. lia.
    - by intros [?|[?|?]]. }
  assert (step p c (st, size) = Some (Exit (Done p size)) ->
    step 0 c (st, size) = Some (Exit (Done 0 size)) -> step_result p c st size) as Hdone
    by apply step_done.
  unfold max_size, NGX_MAX_OFF_T_VALUE in Hgo.
  destruct st; try done; cbn [step] in Hgo, Hinv, Hdigit, Hdone;
    unfold chunk_start_case, chunk_size_case, line_case, lf_case, after_data_case,
      last_chunk_case, trailer_case, trailer_almost_done_case, NGX_MAX_OFF_T_VALUE in *;
    repeat case_match;
    first [ apply Hinv; reflexivity
          | apply Hdone; reflexivity
          | eapply Hgo; [reflexivity..|lia|
              unfold data_state; intuition (try discriminate; lia)]
          | specialize (Hhex _ eq_refl); eapply Hgo; [reflexivity..|lia|
              unfold data_state; intuition discriminate]
          | specialize (Hhex _ eq_refl);
            change (9223372036854775807 / 16) with 576460752303423487 in *;
            match goal with H : hex_value c = Some ?z |- _ => apply (Hdigit z) end;
            [apply i64_small; lia|lia|reflexivity..] ].
Qed.

Lemma decode_cons st size c input :
  entry st size <> sw_chunk_data ->
  decode st size (c :: input)
  = match step 0 c (entry st size, size) with
    | Some (Next (st'', size')) =>
        if size' >? max_size then ([], Malformed) else decode st'' size' input
    | Some (Exit (Done _ _)) => ([], Finished input)
    | _ => ([], Malformed)
    end.
Proof. intros H. cbn [decode]. by destruct (entry st size). Qed.

Lemma entry_idemp st size : entry (entry st size) size = entry st size.
Proof. destruct st; cbn; try done. destruct (size =? 0) eqn:E; cbn; by rewrite ?E. Qed.

(** Once the size is too large, any byte is an error. *)
Lemma too_large mem p n size :
  max_size < size -> (p + S n <= length mem)%nat ->
  scan step mem p (S n) (sw_chunk_size, size) = Some (Exit (Invalid size)).
Proof.
  intros Hs Hlen. destruct (lookup_lt_is_Some_2 mem p) as [c Hc]; [lia|].
  rewrite (scan_step step mem p n _ c (Exit (Invalid size))); [done|done|].
  cbn [step]. unfold chunk_size_case.
  replace (size >? NGX_MAX_OFF_T_VALUE / 16) with true; [done|].
  symmetry. unfold max_size, NGX_MAX_OFF_T_VALUE in *.
  change (9223372036854775807 / 16) with 576460752303423487. lia.
Qed.

(** The bytes of [mem] from [p] to [e]. *)
Definition slice (mem : list Z) (p e : nat) : list Z := take (e - p) (drop p mem).

Lemma slice_cons mem p e c :
  (p < e)%nat -> mem !! p = Some c -> slice mem p e = c :: slice mem (S p) e.
Proof.
  intros Hp Hc. unfold slice. rewrite (drop_S _ _ _ Hc).
  by replace (e - p)%nat with (S (e - S p)) by lia.
Qed.

Lemma slice_nil mem p : slice mem p p = [].
Proof. unfold slice. by rewrite Nat.sub_diag. Qed.

(** The loop of the parser against the byte-wise coding: it takes the bytes up
    to the data of the next chunk, or all of them. *)
Lemma scan_decode mem n p st size :
  chunk_ok st size -> entry st size = st -> (p + n <= length mem)%nat ->
  let d := decode st size (slice mem p (p + n)) in
  match scan step mem p n (st, size) with
  | Some (Next (p', (st', size'))) =>
      p' = (p + n)%nat /\
      if size' >? max_size then d = ([], Malformed)
      else d = ([], Running st' size') /\ chunk_ok st' size' /\ entry st' size' = st'
  | Some (Exit (Data p' st' size')) =>
      st' = sw_chunk_data /\ (p <= p' < p + n)%nat /\ 0 < size' <= max_size
      /\ d = decode sw_chunk_data size' (slice mem p' (p + n))
  | Some (Exit (Done p' size')) =>
      (p <= p' < p + n)%nat /\ d = ([], Finished (slice mem (S p') (p + n)))
  | Some (Exit (Invalid _)) => d = ([], Malformed)
  | None => False
  end.
Proof.
  revert p st size. induction n as [|n IH]; intros p st size Hok Hent Hlen.
  { cbn [scan]. rewrite Nat.add_0_r, slice_nil. cbn [decode]. split; [done|].
    rewrite Hent. destruct Hok as [Hs ?].
    test_false (size >? max_size). by split_and!. }
  cbv zeta. destruct (lookup_lt_is_Some_2 mem p) as [c Hc]; [lia|].
  destruct (decide (st = sw_chunk_data)) as [->|Hst].
  { rewrite (scan_step step mem p n _ c (Exit (Data p sw_chunk_data size)) Hc) by done.
    destruct Hok as [Hs _]. cbn [entry] in Hent.
    destruct (Z.eqb_spec size 0); [done|]. split_and!; [done|lia..|done]. }
  rewrite (slice_cons mem p _ c) by (done || lia).
  rewrite decode_cons, Hent by (by rewrite Hent).
  destruct (step_cases p c st size Hok Hst) as [st' size' Hp H0 Hs' Hmax Hd|Hp H0|Hp H0];
    rewrite H0, (scan_step step mem p n _ c _ Hc Hp); cbn beta iota.
  - destruct (size' >? max_size) eqn:Hbig.
    + rewrite Hmax in * by lia. destruct n as [|n].
      * cbn [scan]. split; [lia|]. by rewrite Hbig.
      * rewrite too_large; [done|lia|lia].
    + replace (p + S n)%nat with (S p + n)%nat by lia.
      assert (chunk_ok st' size') as Hok'.
      { split; [lia|]. intros Hx. apply Hd. unfold data_state. intuition. }
      assert (entry st' size' = st') as Hent'.
      { destruct st'; try done. cbn [entry].
        specialize (Hd ltac:(unfold data_state; auto)). by test_false (size' =? 0). }
      specialize (IH (S p) st' size' Hok' Hent' ltac:(lia)). cbv zeta in IH.
      destruct (scan step mem (S p) n (st', size')) as [[[p' [? ?]]|[?|? ? ?|? ?]]|];
        [done|done| | |done].
      * destruct IH as (? & ? & ? & ?). split_and!; [done|lia|lia|lia|lia|done].
      * destruct IH as (? & ?). split_and!; [lia|lia|done].
  - split_and!; [lia|lia|done].
  - done.
Qed.

Lemma decode_entry st size input : decode (entry st size) size input = decode st size input.
Proof. destruct input; cbn [decode]; by rewrite entry_idemp. Qed.

Lemma chunk_ok_entry st size : chunk_ok st size -> chunk_ok (entry st size) size.
Proof.
  intros [Hs Hext]. split; [done|]. destruct st; cbn [entry]; try done.
  case_match; intros [?|?]; done.
Qed.

(** What a call returns, in terms of the coding. *)
Inductive parsed (mem : list Z) (b : ngx_buf_t) (ctx : ngx_http_chunked_t)
    : Z -> ngx_http_chunked_t -> ngx_buf_t -> Prop :=
  | parsed_again st size
      (_ : decode (c_state ctx) (c_size ctx) (slice mem (pos b) (last b))
           = ([], Running st size))
      (_ : chunk_ok st size) (_ : entry st size = st) :
      parsed mem b ctx NGX_AGAIN
        {| c_state := st; c_size := size; c_length := min_length st size |}
        (b <| pos := last b |>)
  | parsed_chunk p size
      (_ : decode (c_state ctx) (c_size ctx) (slice mem (pos b) (last b))
           = decode sw_chunk_data size (slice mem p (last b)))
      (_ : 0 < size <= max_size) (_ : (pos b <= p < last b)%nat) :
      parsed mem b ctx NGX_OK
        {| c_state := sw_chunk_data; c_size := size;
           c_length := min_length sw_chunk_data size |} (b <| pos := p |>)
  | parsed_done p ctx'
      (_ : decode (c_state ctx) (c_size ctx) (slice mem (pos b) (last b))
           = ([], Finished (slice mem p (last b))))
      (_ : (pos b < p <= last b)%nat) (_ : c_state ctx' = sw_chunk_start) :
      parsed mem b ctx NGX_DONE ctx' (b <| pos := p |>)
  | parsed_error ctx' b'
      (_ : decode (c_state ctx) (c_size ctx) (slice mem (pos b) (last b)) = ([], Malformed))
      (_ : last b' = last b) :
      parsed mem b ctx NGX_ERROR ctx' b'.

Lemma parse_chunked_parsed mem b ctx :
  chunk_ok (c_state ctx) (c_size ctx) -> (pos b <= last b <= length mem)%nat ->
  exists rc ctx' b', ngx_http_parse_chunked mem b ctx = Some (rc, ctx', b')
    /\ parsed mem b ctx rc ctx' b'.
Proof.
  intros Hok Hb. unfold ngx_http_parse_chunked.
  pose proof (scan_decode mem (last b - pos b) (pos b) (entry (c_state ctx) (c_size ctx))
    (c_size ctx) (chunk_ok_entry _ _ Hok) (entry_idemp _ _) ltac:(lia)) as H.
  replace (pos b + (last b - pos b))%nat with (last b) in H by lia.
  cbv zeta in H. rewrite decode_entry in H.
  destruct (scan _ _ _ _ _) as [[[p [st size]]|[size|p st size|p size]]|]; [| | | |done];
    cbn [mbind option_bind].
  - destruct H as [-> H]. unfold data_label. destruct (size >? max_size) eqn:Hbig;
      fold max_size; rewrite Hbig.
    + do 3 eexists. split; [reflexivity|]. by apply parsed_error.
    + destruct H as (Hd & Hok' & Hent). do 3 eexists. split; [reflexivity|].
      by apply parsed_again.
  - do 3 eexists. split; [reflexivity|]. by apply parsed_error.
  - destruct H as (-> & Hp & Hs & Hd). unfold data_label. fold max_size.
    test_false (size >? max_size). do 3 eexists. split; [reflexivity|].
    by apply parsed_chunk.
  - destruct H as (Hp & Hd). do 3 eexists. split; [reflexivity|].
    replace (p + 1)%nat with (S p) by lia. apply parsed_done; [done|lia|done].
Qed.

(** ** [ctx->length] *)

(** Every byte takes at most one off the least length of what is left. *)
Lemma min_length_step c st size st' size' :
  chunk_ok st size -> st <> sw_chunk_data -> step 0 c (st, size) = Some (Next (st', size')) ->
  size' <= max_size -> min_length st size <= min_length (entry st' size') size' + 1.
Proof.
  intros [Hs Hext] Hst Hstep Hmax. unfold max_size, NGX_MAX_OFF_T_VALUE in *.
  assert (forall v, hex_value c = Some v -> 0 <= v < 16) as Hhex by apply hex_value_range.
  assert (size <= 576460752303423487 -> forall v, hex_value c = Some v ->
    i64 (size * 16 + v) = size * 16 + v) as Hi.
  { intros Hle v Hv. specialize (Hhex v Hv). apply i64_small. lia. }
  destruct st; try done; cbn [step] in Hstep;
    unfold chunk_start_case, chunk_size_case, line_case, lf_case, after_data_case,
      last_chunk_case, trailer_case, trailer_almost_done_case, NGX_MAX_OFF_T_VALUE in *;
    change (9223372036854775807 / 16) with 576460752303423487 in *;
    repeat case_match; unfold go, invalid in Hstep; simplify_eq; cbn [entry min_length];
    rewrite ?Hi in * by (done || lia);
    try specialize (Hhex _ eq_refl); try specialize (Hext (or_introl eq_refl));
    try specialize (Hext (or_intror eq_refl));
    repeat case_match; cbn [min_length]; autorewrite with cint; lia.
Qed.

Lemma decode_min_length st size input body rest :
  chunk_ok st size -> decode st size input = (body, Finished rest) ->
  min_length (entry st size) size <= Z.of_nat (length input) - Z.of_nat (length rest).
Proof.
  revert st size body. induction input as [|c input IH]; intros st size body Hok Hd; [done|].
  destruct (decide (entry st size = sw_chunk_data)) as [He|He].
  - cbn [decode] in Hd. rewrite He in Hd.
    destruct (decode sw_chunk_data (size - 1) input) as [body' v] eqn:Hd'.
    simplify_eq. destruct Hok as [Hs _].
    assert (0 < size) as Hpos.
    { destruct st; cbn [entry] in He; try done. destruct (Z.eqb_spec size 0); [done|lia]. }
    apply IH in Hd'; [|split; [lia|by intros [?|?]]].
    rewrite He. cbn [min_length length]. revert Hd'. unfold max_size, NGX_MAX_OFF_T_VALUE in Hs.
    cbn [entry]. case_match; cbn [min_length]; autorewrite with cint; lia.
  - rewrite decode_cons in Hd by done.
    pose proof (chunk_ok_entry _ _ Hok) as Hok'.
    destruct (step_cases 0 c (entry st size) size Hok' He) as [st' size' _ H0 Hs' Hmax Hda|_ H0|_ H0];
      rewrite H0 in Hd; [|simplify_eq|done].
    + destruct (size' >? max_size) eqn:Hbig; [done|].
      apply IH in Hd; [|split; [lia|intros; apply Hda; unfold data_state; tauto]].
      pose proof (min_length_step c _ size st' size' Hok' He H0 ltac:(lia)).
      cbn [length]. lia.
    + cbn [length].
      assert (min_length (entry st size) size <= 1); [|lia].
      destruct (entry st size); cbn [step] in H0;
        unfold chunk_start_case, chunk_size_case, line_case, lf_case, after_data_case,
          last_chunk_case, trailer_case, trailer_almost_done_case in H0;
        repeat case_match; done.
Qed.

(** [ctx->length] never promises too much: when the parser wants more bytes
    (NGX_AGAIN), [ctx->length] is positive and at most the number of bytes that
    the body still has, whatever they turn out to be; so a caller that reads
    [ctx->length] bytes does not read past the end of the body. *)
Theorem ngx_http_parse_chunked_length (mem : list Z) (b b' : ngx_buf_t)
    (ctx ctx' : ngx_http_chunked_t)
    (Hok : chunk_ok (c_state ctx) (c_size ctx)) (Hb : (pos b <= last b <= length mem)%nat)
    (Hparse : ngx_http_parse_chunked mem b ctx = Some (NGX_AGAIN, ctx', b'))
    (more body rest : list Z)
    (Hmore : decode (c_state ctx') (c_size ctx') more = (body, Finished rest)) :
  0 < c_length ctx' <= Z.of_nat (length more) - Z.of_nat (length rest).
Proof.
  destruct (parse_chunked_parsed mem b ctx Hok Hb) as (rc & ctx1 & b1 & H & Hp).
  rewrite Hparse in H. simplify_eq. inversion Hp as [st size Hd Hok' Hent| | |]; subst.
  cbn [c_length c_state c_size] in *. apply decode_min_length in Hmore; [|done].
  rewrite Hent in Hmore. split; [|done].
  destruct Hok' as [Hs _]. unfold max_size, NGX_MAX_OFF_T_VALUE in Hs.
  destruct st; cbn [min_length]; repeat case_match; autorewrite with cint; lia.
Qed.

Lemma ngx_http_parse_chunked_length_witness :
  0 < 6 <= Z.of_nat (length (bs "x" ++ [LF] ++ bs "a" ++ [LF] ++ bs "0" ++ [LF; LF] ++ bs "GET"))
             - Z.of_nat (length (bs "GET")).
Proof.
  apply (ngx_http_parse_chunked_length (bs "1;") {| pos := 0; last := 2 |}
    {| pos := 2; last := 2 |} new_chunked
    {| c_state := sw_chunk_extension; c_size := 1; c_length := 6 |}) with (body := bs "a").
  - split; [vm_compute; intuition discriminate|by intros [?|?]].
  - vm_compute. lia.
  - vm_compute. reflexivity.
  - vm_compute. reflexivity.
Defined.

(** ** The filters *)

(** The data of a chunk is passed on, whatever follows. *)
Lemma decode_data size data input :
  Z.of_nat (length data) <= size ->
  decode sw_chunk_data size (data ++ input)
  = let '(body, v) := decode sw_chunk_data (size - Z.of_nat (length data)) input in
    (data ++ body, v).
Proof.
  revert size. induction data as [|c data IH]; intros size Hs; cbn [length app] in *.
  - rewrite Z.sub_0_r. by destruct (decode _ _ _).
  - cbn [decode]. cbn [entry]. test_false (size =? 0).
    rewrite IH by lia. replace (size - 1 - Z.of_nat (length data))
      with (size - Z.of_nat (S (length data))) by lia.
    by destruct (decode _ _ _).
Qed.

Lemma slice_lookup mem p e i :
  slice mem p e !! i = if decide (i < e - p)%nat then mem !! (p + i)%nat else None.
Proof. unfold slice. rewrite lookup_take. case_decide; [by rewrite lookup_drop|done]. Qed.

Lemma slice_ext mem mem' p p' n :
  (forall i, (i < n)%nat -> mem !! (p + i)%nat = mem' !! (p' + i)%nat) ->
  slice mem p (p + n) = slice mem' p' (p' + n).
Proof.
  intros H. apply list_eq. intros i. rewrite !slice_lookup.
  repeat case_decide; (lia || done || auto with lia).
Qed.

Lemma slice_app mem p q e :
  (p <= q <= e)%nat -> slice mem p e = slice mem p q ++ slice mem q e.
Proof.
  intros H. unfold slice.
  replace (e - p)%nat with ((q - p) + (e - q))%nat by lia.
  rewrite <- take_take_drop, drop_drop. do 3 f_equal. lia.
Qed.

Lemma slice_length mem p e : (p <= e <= length mem)%nat -> length (slice mem p e) = (e - p)%nat.
Proof. intros. unfold slice. rewrite length_take, length_drop. lia. Qed.

(** [n] bytes moved down from [src] to [dst]. *)
Definition moved (mem mem' : list Z) (dst src n : nat) : Prop :=
  length mem' = length mem
  /\ forall i, mem' !! i = if decide (dst <= i < dst + n)%nat then mem !! (src + (i - dst))%nat
                           else mem !! i.

Lemma copy_forward_moved mem dst src n :
  (dst <= src)%nat -> (src + n <= length mem)%nat ->
  exists mem', copy_forward mem dst src n = Some mem' /\ moved mem mem' dst src n.
Proof.
  revert mem dst src. induction n as [|n IH]; intros mem dst src Hd Hl; cbn [copy_forward].
  - exists mem. split; [done|]. split; [done|]. intros i. by case_decide; [lia|].
  - destruct (lookup_lt_is_Some_2 mem src) as [c Hc]; [lia|]. rewrite Hc. cbn [mbind option_bind].
    destruct (IH (<[dst:=c]> mem) (S dst) (S src)) as (mem' & -> & Hlen & Hm);
      [lia|rewrite length_insert; lia|].
    exists mem'. split; [done|]. rewrite length_insert in Hlen. split; [done|].
    intros i. rewrite Hm. destruct (decide (i = dst)) as [->|Hi].
    + rewrite decide_False by lia. rewrite decide_True by lia.
      rewrite list_lookup_insert_eq by lia. rewrite Nat.sub_diag, Nat.add_0_r. done.
    + repeat case_decide; try lia; rewrite list_lookup_insert_ne by lia; [|done].
      f_equal. lia.
Qed.

Lemma memmove_moved mem dst src n :
  (dst <= src)%nat -> (src + n <= length mem)%nat ->
  moved mem (ngx_memmove mem dst src n) dst src n.
Proof.
  intros Hd Hl. unfold ngx_memmove.
  assert (length (take dst mem) = dst) as H1 by (rewrite length_take; lia).
  assert (length (take n (drop src mem)) = n) as H2
    by (rewrite length_take, length_drop; lia).
  split.
  - rewrite !length_app, H1, H2, length_drop. lia.
  - intros i. case_decide.
    + rewrite lookup_app_r, lookup_app_l by lia. rewrite H1, lookup_take_lt by lia.
      by rewrite lookup_drop.
    + destruct (decide (i < dst)%nat).
      * by rewrite lookup_app_l, lookup_take_lt by lia.
      * rewrite lookup_app_r, lookup_app_r by lia. rewrite H1, H2, lookup_drop.
        f_equal. lia.
Qed.

(** Output buffers in order, one after another, ending at or before [bound]. *)
Fixpoint out_ok (from : nat) (out : list (nat * nat)) (bound : nat) : Prop :=
  match out with
  | [] => (from <= bound)%nat
  | (p, l) :: out' => (from <= p <= l)%nat /\ out_ok l out' bound
  end.

Definition slices (mem : list Z) (out : list (nat * nat)) : list Z :=
  concat (map (fun '(p, l) => slice mem p l) out).

Lemma slices_app mem out1 out2 : slices mem (out1 ++ out2) = slices mem out1 ++ slices mem out2.
Proof. unfold slices. by rewrite map_app, concat_app. Qed.

Lemma out_ok_app from out p l bound :
  out_ok from (out ++ [(p, l)]) bound
  <-> exists mid, out_ok from out mid /\ (mid <= p <= l)%nat /\ (l <= bound)%nat.
Proof.
  revert from. induction out as [|[q m] out IH]; intros from; cbn [out_ok app].
  - split; [intros (? & ?); exists from; lia|intros (? & ? & ? & ?); lia].
  - rewrite IH. split; [intros (? & mid & ? & ?); exists mid; auto
                       |intros (mid & (? & ?) & ?); eauto].
Qed.

Lemma out_ok_mono from out b1 b2 : (b1 <= b2)%nat -> out_ok from out b1 -> out_ok from out b2.
Proof.
  intros Hb. revert from. induction out as [|[q m] out IH]; intros from; cbn [out_ok]; [lia|].
  intros [? ?]. auto.
Qed.

Lemma slices_moved mem mem' dst src n from out bound :
  moved mem mem' dst src n -> (bound <= dst)%nat -> out_ok from out bound ->
  slices mem' out = slices mem out.
Proof.
  intros [_ Hm] Hb. revert from. induction out as [|[p l] out IH]; intros from; [done|].
  cbn [out_ok]. intros [Hpl Hok]. unfold slices. cbn [map concat].
  fold (slices mem' out) (slices mem out). rewrite (IH l Hok). f_equal.
  assert (l <= bound)%nat as Hl.
  { clear -Hok. revert l Hok. induction out as [|[q m] out IH]; intros l; cbn [out_ok]; [done|].
    intros [? ?%IH]. lia. }
  replace l with (p + (l - p))%nat by lia. apply slice_ext. intros i Hi. rewrite Hm.
  by rewrite decide_False by lia.
Qed.

Definition decode_ctx (ctx : ngx_http_chunked_t) (input : list Z) : list Z * verdict :=
  decode (c_state ctx) (c_size ctx) input.

Definition prepend (out : list Z) (d : list Z * verdict) : list Z * verdict :=
  (out ++ d.1, d.2).

Lemma prepend_app out1 out2 d : prepend (out1 ++ out2) d = prepend out1 (prepend out2 d).
Proof. unfold prepend. cbn. by rewrite app_assoc. Qed.

Section Filter.
Variable cf : conf.
(** The input: [b0->pos], [b0->last], the length so far, and what the coding
    makes of the buffer. *)
Variables (start lim : nat) (n0 : Z) (whole : list Z * verdict).
Hypothesis n0_ok : 0 <= n0 /\ n0 + Z.of_nat (lim - start) < 2 ^ 63.
Hypothesis n0_limit : client_max_body_size cf <> 0 -> n0 <= client_max_body_size cf.

(** What is passed on and what is left to decode are the whole. *)
Record body_inv (s : body_state) : Prop := {
  bi_ctx : chunk_ok (c_state (bd_chunked s)) (c_size (bd_chunked s));
  bi_pos : (start <= pos (bd_buf s) <= last (bd_buf s))%nat;
  bi_last : last (bd_buf s) = lim;
  bi_mem : (lim <= length (bd_mem s))%nat;
  bi_out : out_ok start (bd_out s) (pos (bd_buf s));
  bi_length : bd_length s = n0 + Z.of_nat (length (out_bytes s));
  bi_short : (length (out_bytes s) <= pos (bd_buf s) - start)%nat;
  bi_limit : client_max_body_size cf <> 0 -> bd_length s <= client_max_body_size cf;
  bi_whole : whole
    = prepend (out_bytes s) (decode_ctx (bd_chunked s) (slice (bd_mem s) (pos (bd_buf s)) lim));
  bi_not_last : bd_last_buf s = false;
}.

(** The ways the loop over the buffer ends. *)
Definition body_end (rc : Z) (s : body_state) : Prop :=
  (rc = NGX_OK /\ bd_last_buf s = true /\ bd_rest s = 0
   /\ exists rest, whole = (out_bytes s, Finished rest))
  \/ (rc = NGX_OK /\ bd_last_buf s = false
      /\ chunk_ok (c_state (bd_chunked s)) (c_size (bd_chunked s))
      /\ whole = prepend (out_bytes s) (decode_ctx (bd_chunked s) [])
      /\ bd_rest s = ngx_max (c_length (bd_chunked s)) (large_client_header_buffers_size cf))
  \/ (rc = NGX_HTTP_BAD_REQUEST /\ whole = (out_bytes s, Malformed))
  \/ (rc = NGX_HTTP_REQUEST_ENTITY_TOO_LARGE /\ client_max_body_size cf <> 0
      /\ bd_length s = n0 + Z.of_nat (length (out_bytes s))
      /\ exists size tail, 0 < size /\ client_max_body_size cf < bd_length s + size
         /\ whole = prepend (out_bytes s) (decode sw_chunk_data size tail)).

Lemma chunk_ok_data size : 0 <= size <= max_size -> chunk_ok sw_chunk_data size.
Proof. intros. split; [done|by intros [?|?]]. Qed.

(** After a chunk has been found: the data at [pos] is still to be passed on. *)
Record chunk_inv (s : body_state) : Prop := {
  ci_inv : body_inv s;
  ci_state : c_state (bd_chunked s) = sw_chunk_data;
  ci_size : 0 < c_size (bd_chunked s) <= max_size;
  ci_pos : (pos (bd_buf s) < lim)%nat;
  ci_fits : client_max_body_size cf <> 0 ->
    bd_length s + c_size (bd_chunked s) <= client_max_body_size cf;
}.

(** The common part: [n] bytes of data go from [pos] to the end of the output,
    by whatever buffers. *)
Lemma pass_data s n mem' out' s' :
  chunk_inv s ->
  (0 < n <= lim - pos (bd_buf s))%nat -> Z.of_nat n <= c_size (bd_chunked s) ->
  length mem' = length (bd_mem s) ->
  slice mem' (pos (bd_buf s) + n) lim = slice (bd_mem s) (pos (bd_buf s) + n) lim ->
  out_ok start out' (pos (bd_buf s) + n) ->
  slices mem' out'
  = out_bytes s ++ slice (bd_mem s) (pos (bd_buf s)) (pos (bd_buf s) + n) ->
  bd_mem s' = mem' -> bd_out s' = out' ->
  bd_buf s' = (bd_buf s) <| pos := (pos (bd_buf s) + n)%nat |> ->
  bd_length s' = i64 (bd_length s + Z.of_nat n) ->
  c_state (bd_chunked s') = sw_chunk_data ->
  c_size (bd_chunked s') = c_size (bd_chunked s) - Z.of_nat n ->
  bd_last_buf s' = bd_last_buf s ->
  body_inv s' /\ (pos (bd_buf s) < pos (bd_buf s'))%nat.
Proof.
  intros [Hinv Hst Hsz Hp Hfit] Hn Hns Hlen Hrest Hok Hslices Hm Ho Hb Hl Hcs Hcz Hlb.
  destruct Hinv as [Hctx Hpos Hlast Hmem Hout Hlength Hshort Hlimit Hwhole Hnl].
  assert (out_bytes s' = out_bytes s ++ slice (bd_mem s) (pos (bd_buf s)) (pos (bd_buf s) + n))
    as Hbytes.
  { rewrite <- Hslices. unfold out_bytes. by rewrite Hm, Ho. }
  assert (length (slice (bd_mem s) (pos (bd_buf s)) (pos (bd_buf s) + n)) = n) as Hsl.
  { rewrite slice_length; lia. }
  assert (bd_length s' = bd_length s + Z.of_nat n) as Hl'.
  { rewrite Hl. apply i64_small. lia. }
  split; [|rewrite Hb; cbn; lia].
  split; rewrite ?Hb; cbn [pos last field_set].
  - rewrite Hcs, Hcz. apply chunk_ok_data. lia.
  - lia.
  - done.
  - rewrite Hm. lia.
  - by rewrite Ho.
  - rewrite Hl', Hbytes, length_app, Hsl. lia.
  - rewrite Hbytes, length_app, Hsl. lia.
  - intros Hmax. specialize (Hfit Hmax). lia.
  - rewrite Hwhole, Hbytes, prepend_app. f_equal. unfold decode_ctx.
    rewrite Hst, Hcs, Hcz, Hm, Hrest.
    rewrite (slice_app (bd_mem s) (pos (bd_buf s)) (pos (bd_buf s) + n) lim) by lia.
    rewrite decode_data by (rewrite Hsl; lia). rewrite Hsl.
    unfold prepend. by destruct (decode _ _ _).
  - congruence.
Qed.

Lemma slices_one mem p l : slices mem [(p, l)] = slice mem p l.
Proof. unfold slices. cbn. apply app_nil_r. Qed.

Lemma new_chunk_inv s :
  chunk_inv s -> body_inv (new_chunk s) /\ (pos (bd_buf s) < pos (bd_buf (new_chunk s)))%nat.
Proof.
  intros Hc. pose proof Hc as [Hinv Hst Hsz Hp Hfit].
  pose proof (bi_last s Hinv) as Hlast. pose proof (bi_pos s Hinv) as Hpos.
  pose proof (bi_out s Hinv) as Hout.
  assert (forall n b' ctx',
    skip_data (bd_buf s) (bd_chunked s) = (b', ctx', Z.of_nat n) ->
    b' = (bd_buf s) <| pos := (pos (bd_buf s) + n)%nat |> ->
    c_state ctx' = sw_chunk_data -> c_size ctx' = c_size (bd_chunked s) - Z.of_nat n ->
    (0 < n <= lim - pos (bd_buf s))%nat -> Z.of_nat n <= c_size (bd_chunked s) ->
    body_inv (new_chunk s) /\ (pos (bd_buf s) < pos (bd_buf (new_chunk s)))%nat) as Hskip.
  { intros n b' ctx' Hsk -> Hcs Hcz Hn Hns. unfold new_chunk. rewrite Hsk.
    apply (pass_data s n (bd_mem s)
             (bd_out s ++ [(pos (bd_buf s), (pos (bd_buf s) + n)%nat)])); try done.
    - apply out_ok_app. exists (pos (bd_buf s)). split_and!; [done|lia..].
    - by rewrite slices_app, slices_one. }
  unfold skip_data, available in Hskip. rewrite Hlast in Hskip.
  destruct (Z.of_nat lim - Z.of_nat (pos (bd_buf s)) >? c_size (bd_chunked s)) eqn:Hgt.
  - eapply (Hskip (Z.to_nat (c_size (bd_chunked s))));
      [by rewrite Z2Nat.id by lia|done|done|cbn [c_size field_set]; lia|lia|lia].
  - eapply (Hskip (lim - pos (bd_buf s))%nat).
    + f_equal. lia.
    + cbn [field_set]. f_equal. lia.
    + done.
    + cbn [c_size field_set]. rewrite i64_small; unfold max_size, NGX_MAX_OFF_T_VALUE in *; lia.
    + lia.
    + lia.
Qed.

Lemma append_chunk_inv s front bp bl :
  chunk_inv s -> bd_out s = front ++ [(bp, bl)] ->
  c_size (bd_chunked s) <= available (bd_buf s) ->
  exists s', append_chunk s front bp bl = Some s'
    /\ body_inv s' /\ (pos (bd_buf s) < pos (bd_buf s'))%nat.
Proof.
  intros Hc Hfront Havail. pose proof Hc as [Hinv Hst Hsz Hp Hfit].
  pose proof (bi_last s Hinv) as Hlast. pose proof (bi_mem s Hinv) as Hmem.
  pose proof (bi_out s Hinv) as Hout. rewrite Hfront in Hout.
  apply out_ok_app in Hout as (mid & Hok & Hmid & Hbl).
  unfold available in Havail. rewrite Hlast in Havail.
  set (n := Z.to_nat (c_size (bd_chunked s))). set (src := pos (bd_buf s)) in *.
  assert (exists mem', (if c_size (bd_chunked s) <? 8 then copy_forward (bd_mem s) bl src n
            else Some (ngx_memmove (bd_mem s) bl src n)) = Some mem'
          /\ moved (bd_mem s) mem' bl src n) as (mem' & Hcopy & Hmoved).
  { case_match.
    - apply copy_forward_moved; lia.
    - eexists. split; [done|]. apply memmove_moved; lia. }
  unfold append_chunk. fold src n. rewrite Hcopy. cbn [mbind option_bind].
  eexists. split; [reflexivity|].
  apply (pass_data s n mem' (front ++ [(bp, (bl + n)%nat)])); try done; fold src.
  - lia.
  - lia.
  - apply Hmoved.
  - replace lim with ((src + n) + (lim - (src + n)))%nat by lia. apply slice_ext.
    intros i Hi. destruct Hmoved as [_ ->]. by rewrite decide_False by lia.
  - apply out_ok_app. exists mid. split_and!; [done|lia..].
  - rewrite slices_app, slices_one. unfold out_bytes.
    change (concat _) with (slices (bd_mem s) (bd_out s)).
    rewrite Hfront, slices_app, slices_one, <- app_assoc.
    rewrite (slices_moved (bd_mem s) mem' bl src n start front mid) by (done || lia).
    f_equal. rewrite (slice_app mem' bp bl (bl + n)) by lia. destruct Hmoved as [_ Hm].
    f_equal; [replace bl with (bp + (bl - bp))%nat by lia|]; apply slice_ext;
      intros i Hi; rewrite Hm; [by rewrite decide_False by lia|].
    rewrite decide_True by lia. f_equal. lia.
  - cbn [bd_length field_set]. f_equal. lia.
  - cbn [c_size bd_chunked field_set]. lia.
Qed.

Lemma last_snoc (out : list (nat * nat)) x :
  list.last out = Some x -> out = take (length out - 1) out ++ [x].
Proof.
  intros Hl. apply last_Some in Hl as [l' ->].
  rewrite length_app. cbn [length]. rewrite Nat.add_sub.
  by rewrite take_app_length.
Qed.

(** After the parser, in the state it leaves. *)
Lemma parsed_inv s rc ctx b :
  body_inv s -> parsed (bd_mem s) (bd_buf s) (bd_chunked s) rc ctx b ->
  let s' := s <| bd_chunked := ctx |> <| bd_buf := b |> in
  (rc = NGX_OK
   /\ ((client_max_body_size cf <> 0 ->
         bd_length s + c_size ctx <= client_max_body_size cf) -> chunk_inv s')
   /\ (pos (bd_buf s) <= pos b)%nat /\ 0 < c_size ctx
   /\ exists tail, whole = prepend (out_bytes s) (decode sw_chunk_data (c_size ctx) tail))
  \/ (rc = NGX_DONE /\ exists rest, whole = (out_bytes s, Finished rest))
  \/ (rc = NGX_AGAIN /\ chunk_ok (c_state ctx) (c_size ctx)
      /\ whole = prepend (out_bytes s) (decode_ctx ctx []))
  \/ (rc = NGX_ERROR /\ whole = (out_bytes s, Malformed)).
Proof.
  intros Hinv Hp. cbv zeta. pose proof Hinv as [Hctx Hpos Hlast Hmem Hout Hlength Hshort Hlimit Hwhole Hnl].
  unfold decode_ctx in Hwhole.
  destruct Hp as [st size Hd Hok Hent|p size Hd Hs Hp|p ctx' Hd Hp Hst|ctx' b' Hd Hb];
    rewrite Hlast in Hd; rewrite Hd in Hwhole.
  - right. right. left. split_and!; [done|done|]. rewrite Hwhole. unfold decode_ctx.
    cbn [c_state c_size decode]. by rewrite Hent.
  - left. split_and!; [done| |cbn; lia|cbn; lia|by eexists]. intros Hfit. split; [|done|done| |done].
    + split; cbn [bd_mem bd_buf bd_out bd_chunked bd_length bd_last_buf field_set pos last
        c_state c_size]; try done.
      * apply chunk_ok_data. lia.
      * lia.
      * eapply out_ok_mono; [|done]. lia.
      * change (out_bytes _) with (out_bytes s). lia.
    + cbn. lia.
  - right. left. split; [done|]. eexists. rewrite Hwhole. unfold prepend. cbn.
    by rewrite app_nil_r.
  - right. right. right. split; [done|]. rewrite Hwhole. unfold prepend. cbn.
    by rewrite app_nil_r.
Qed.

Lemma filter_step s :
  body_inv s ->
  exists r, chunked_filter_step cf s = Some r
    /\ match r with
       | inl s' => body_inv s' /\ (pos (bd_buf s) < pos (bd_buf s'))%nat
       | inr (rc, s') => body_end rc s'
           /\ (client_max_body_size cf <> 0 -> bd_length s' <= client_max_body_size cf)
           /\ bd_length s' = n0 + Z.of_nat (length (out_bytes s'))
       end.
Proof.
  intros Hinv. pose proof (bi_pos s Hinv) as Hpos. pose proof (bi_last s Hinv) as Hlast.
  destruct (parse_chunked_parsed (bd_mem s) (bd_buf s) (bd_chunked s) (bi_ctx s Hinv))
    as (rc & ctx & b & Hp & Hparsed).
  { split; [lia|]. rewrite Hlast. apply (bi_mem s Hinv). }
  unfold chunked_filter_step. rewrite Hp. cbn [mbind option_bind].
  pose proof (bi_limit s Hinv) as Hlim. pose proof (bi_length s Hinv) as Hlen.
  destruct (parsed_inv s rc ctx b Hinv Hparsed)
    as [(-> & Hci & Hle & Hpos' & tail & Hw)|[(-> & rest & Hw)|[(-> & Hok & Hw)|(-> & Hw)]]].
  - cbn [Z.eqb NGX_OK]. set (s1 := s <| bd_chunked := ctx |> <| bd_buf := b |>) in *.
    destruct (negb (client_max_body_size cf =? 0)
              && (client_max_body_size cf - bd_length s1 <? c_size ctx)) eqn:Hbig.
    + eexists. split; [reflexivity|]. split; [|done]. right. right. right.
      cbn in Hbig. split_and!; [done|lia|exact Hlen|]. exists (c_size ctx), tail.
      change (bd_length s1) with (bd_length s). split_and!; [done|lia|exact Hw].
    + assert (chunk_inv s1) as Hc by (apply Hci; cbn in Hbig; lia).
      assert (forall s', body_inv s' /\ (pos (bd_buf s1) < pos (bd_buf s'))%nat ->
        body_inv s' /\ (pos (bd_buf s) < pos (bd_buf s'))%nat) as Hstep.
      { intros s' [Hi Hl]. split; [done|]. cbn in Hl. lia. }
      destruct (list.last (bd_out s1)) as [[bp bl]|] eqn:Hout.
      2: { eexists. split; [reflexivity|]. by apply Hstep, new_chunk_inv. }
      destruct ((c_size ctx <=? 128) && (available b >=? c_size ctx)) eqn:Hsmall.
      2: { eexists. split; [reflexivity|]. by apply Hstep, new_chunk_inv. }
      destruct (append_chunk_inv s1 _ bp bl Hc (last_snoc _ _ Hout)) as (s' & -> & Hs');
        [cbn; lia|].
      eexists. split; [reflexivity|]. by apply Hstep.
  - eexists. split; [reflexivity|]. split; [|done]. left. split_and!; [done..|]. by exists rest.
  - eexists. split; [reflexivity|]. split; [|done]. right. left.
    split_and!; [done|apply (bi_not_last s Hinv)|done|done|done].
  - eexists. split; [reflexivity|]. split; [|done]. right. right. left. by split.
Qed.

Lemma filter_loop fuel s :
  body_inv s -> (lim - pos (bd_buf s) < fuel)%nat ->
  exists rc s', chunked_filter_loop fuel cf s = Some (rc, s') /\ body_end rc s'
    /\ (client_max_body_size cf <> 0 -> bd_length s' <= client_max_body_size cf)
    /\ bd_length s' = n0 + Z.of_nat (length (out_bytes s')).
Proof.
  revert s. induction fuel as [|fuel IH]; intros s Hinv Hfuel; [lia|].
  cbn [chunked_filter_loop]. destruct (filter_step s Hinv) as (r & -> & Hr).
  cbn [mbind option_bind]. destruct r as [s'|[rc s']].
  - destruct Hr as [Hinv' Hlt]. pose proof (bi_pos s' Hinv') as Hp.
    pose proof (bi_last s' Hinv') as Hl. apply IH; [done|]. lia.
  - destruct Hr as (He & Hlim & Hlen). exists rc, s'. by split_and!.
Qed.
End Filter.

(** Any cut of the stream will do. *)
Lemma decode_app st size input1 input2 :
  decode st size (input1 ++ input2)
  = match decode st size input1 with
    | (body, Running st' size') => prepend body (decode st' size' input2)
    | (body, Finished rest) => (body, Finished (rest ++ input2))
    | (body, Malformed) => (body, Malformed)
    end.
Proof.
  revert st size. induction input1 as [|c input1 IH]; intros st size; cbn [app].
  - cbn [decode]. rewrite decode_entry. unfold prepend. cbn. by destruct (decode _ _ _).
  - destruct (decide (entry st size = sw_chunk_data)) as [He|He].
    + cbn [decode]. rewrite He, IH. destruct (decode sw_chunk_data (size - 1) input1) as [body v].
      destruct v; [|done..]. unfold prepend. cbn.
      by destruct (decode _ _ _).
    + rewrite !decode_cons by done. destruct (step 0 c _) as [[[st' size']|[]]|]; try done.
      case_match; [done|apply IH].
Qed.

Lemma decode_short st size input : (length (decode st size input).1 <= length input)%nat.
Proof.
  revert st size. induction input as [|c input IH]; intros st size; [done|].
  destruct (decide (entry st size = sw_chunk_data)) as [He|He].
  - cbn [decode]. rewrite He. specialize (IH sw_chunk_data (size - 1)).
    destruct (decode sw_chunk_data (size - 1) input) as [body v]. cbn in *. lia.
  - rewrite decode_cons by done. cbn [length].
    destruct (step 0 c _) as [[[st' size']|[]]|]; cbn; try lia.
    case_match; cbn; [lia|]. specialize (IH st' size'). lia.
Qed.

Definition stream (chain : list (list Z * ngx_buf_t)) : list Z :=
  concat (map (fun '(mem, b) => slice mem (pos b) (last b)) chain).

Lemma chunked_buf_decode cf mem b r ctx n0 :
  chunk_ok (c_state ctx) (c_size ctx) -> (pos b <= last b <= length mem)%nat ->
  0 <= n0 -> n0 + Z.of_nat (last b - pos b) < 2 ^ 63 ->
  (client_max_body_size cf <> 0 -> n0 <= client_max_body_size cf) ->
  exists rc s, ngx_http_request_body_chunked_buf cf mem b r ctx n0 = Some (rc, s)
    /\ body_end cf n0 (decode_ctx ctx (slice mem (pos b) (last b))) rc s
    /\ (client_max_body_size cf <> 0 -> bd_length s <= client_max_body_size cf)
    /\ bd_length s = n0 + Z.of_nat (length (out_bytes s)).
Proof.
  intros Hok Hb Hn0 Hmax Hlim. unfold ngx_http_request_body_chunked_buf.
  apply (filter_loop cf (pos b) (last b) n0); [lia|done| |cbn; lia].
  split; cbn; try done; try lia. unfold prepend. cbn. by destruct (decode_ctx _ _).
Qed.

(** What the loop over the chain answers for a stream that decodes to [body] and [v];
    a body that is too large is one that gets larger than the limit however it goes on. *)
Definition chain_answer (cf : conf) (input : list Z) (out : out_chain) (f : filtered)
    (body : list Z) (v : verdict) (rc : Z) (out' : out_chain) (f' : filtered) : Prop :=
  (rc = NGX_OK /\ out'.1 = out.1 ++ body
   /\ f_length f' = f_length f + Z.of_nat (length body)
   /\ match v with
      | Finished _ => out'.2 = true /\ f_rest f' = 0
      | Running _ _ =>
          out'.2 = out.2 /\ chunk_ok (c_state (f_chunked f')) (c_size (f_chunked f'))
          /\ decode_ctx (f_chunked f') [] = ([], v)
      | Malformed => False
      end)
  \/ (rc = NGX_HTTP_BAD_REQUEST /\ v = Malformed)
  \/ (rc = NGX_HTTP_REQUEST_ENTITY_TOO_LARGE /\ client_max_body_size cf <> 0
      /\ forall more body' rest, decode_ctx (f_chunked f) (input ++ more) = (body', Finished rest) ->
           client_max_body_size cf < f_length f + Z.of_nat (length body')).

(** The decoding continues where a part that does not end the body leaves it. *)
Lemma decode_ctx_running ctx ctx1 part rest body1 :
  decode_ctx ctx part = prepend body1 (decode_ctx ctx1 []) ->
  decode_ctx ctx (part ++ rest) = prepend body1 (decode_ctx ctx1 rest).
Proof.
  unfold decode_ctx. intros H. rewrite decode_app, H. unfold prepend at 1.
  cbn [decode fst snd]. by rewrite decode_entry, app_nil_r.
Qed.

(** All the data of a chunk comes before the end of the body. *)
Lemma decode_data_least size input body rest :
  decode sw_chunk_data size input = (body, Finished rest) -> 0 <= size ->
  size <= Z.of_nat (length body).
Proof.
  revert size body. induction input as [|c input IH]; intros size body; [done|].
  cbn [decode entry]. destruct (Z.eqb_spec size 0); [intros; lia|].
  destruct (decode sw_chunk_data (size - 1) input) as [body' v] eqn:Hd. intros [= <- ->] Hs.
  apply IH in Hd; [|lia]. cbn [length]. lia.
Qed.

(** A chunk of [size] bytes after [body1], however the input goes on. *)
Lemma decode_ctx_chunk ctx part more body1 size tail body rest :
  decode_ctx ctx part = prepend body1 (decode sw_chunk_data size tail) -> 0 < size ->
  decode_ctx ctx (part ++ more) = (body, Finished rest) ->
  Z.of_nat (length body1) + size <= Z.of_nat (length body).
Proof.
  unfold decode_ctx. intros Hp Hs. rewrite decode_app, Hp. unfold prepend at 1.
  destruct (decode sw_chunk_data size tail) as [b v] eqn:Hd. cbn [fst snd].
  intros Hf.
  assert (exists b', body = body1 ++ b' /\ exists rest', decode sw_chunk_data size (tail ++ more) = (b', Finished rest'))
    as (b' & -> & rest' & Hd').
  { rewrite decode_app, Hd. destruct v as [st' size'|rest0|]; [|injection Hf as <- <-; eauto|done].
    destruct (decode st' size' more) as [b2 v2]. unfold prepend in *. cbn [fst snd] in *.
    injection Hf as <- ->. rewrite <- app_assoc. eauto. }
  apply decode_data_least in Hd'; [|lia]. rewrite length_app. lia.
Qed.

(** The loop over the chain computes the coding, byte by byte, for a chain of buffers
    that cuts the stream anywhere.  (The body may end in the last buffer only: the caller
    stops then.) *)
Lemma filter_chain_decode (cf : conf) (chain : list (list Z * ngx_buf_t)) (out : out_chain) (f : filtered)
    (Hok : chunk_ok (c_state (f_chunked f)) (c_size (f_chunked f)))
    (Hbufs : Forall (fun '(mem, b) => (pos b <= last b <= length mem)%nat) chain)
    (Hlen : 0 <= f_length f /\ f_length f + Z.of_nat (length (stream chain)) < 2 ^ 63)
    (Hlim : client_max_body_size cf <> 0 -> f_length f <= client_max_body_size cf)
    (Hopen : forall chain1 x chain2 body rest, chain = chain1 ++ x :: chain2 ->
       decode_ctx (f_chunked f) (stream chain1) <> (body, Finished rest)) :
  exists rc out' f' body v, chunked_filter_chain cf chain out f = Some (rc, out', f')
    /\ decode_ctx (f_chunked f) (stream chain) = (body, v)
    /\ f_body f' = f_body f /\ f_last_buf f' = f_last_buf f
    /\ (client_max_body_size cf <> 0 -> f_length f' <= client_max_body_size cf)
    /\ chain_answer cf (stream chain) out f body v rc out' f'.
Proof.
  revert out f Hok Hlen Hlim Hopen.
  induction Hbufs as [|[mem b] chain Hb Hbufs IH]; intros out f Hok Hlen Hlim Hopen.
  { exists NGX_OK, out, f, [], (decode_ctx (f_chunked f) []).2. split_and!; [done..|].
    left. cbn. rewrite app_nil_r. split_and!; [done|done|lia|done|done|done]. }
  set (part := slice mem (pos b) (last b)).
  assert (stream ((mem, b) :: chain) = part ++ stream chain) as Hst by done.
  rewrite Hst, length_app in Hlen. unfold part in Hlen. rewrite slice_length in Hlen by lia.
  destruct (chunked_buf_decode cf mem b (f_rest f) (f_chunked f) (f_length f) Hok Hb)
    as (rc & s & Hbuf & Hend & Hl & Hn); [lia|lia|done|]. fold part in Hend.
  cbn [chunked_filter_chain]. rewrite Hbuf. cbn [mbind option_bind]. rewrite Hst.
  set (f1 := f <| f_rest := bd_rest s |> <| f_chunked := bd_chunked s |> <| f_length := bd_length s |>).
  destruct Hend as [(-> & Hlb & Hr & rest & Hw)|[(-> & Hlb & Hok' & Hw & Hr)
    |[(-> & Hw)|(-> & Hm & Hn' & size & tail & Hs & Hbig & Hw)]]]; cbn [Z.eqb NGX_OK NGX_HTTP_BAD_REQUEST
      NGX_HTTP_REQUEST_ENTITY_TOO_LARGE].
  - destruct chain as [|x chain].
    2: { destruct (Hopen [(mem, b)] x chain (out_bytes s) rest eq_refl).
         cbn [stream map concat]. by rewrite app_nil_r. }
    cbn [stream map concat]. rewrite app_nil_r, Hw.
    do 5 eexists. split; [reflexivity|]. split; [reflexivity|]. split_and!; [done..|].
    left. cbn. rewrite Hlb, orb_true_r. split_and!; done.
  - pose proof (decode_short (c_state (f_chunked f)) (c_size (f_chunked f)) part) as Hshort.
    fold (decode_ctx (f_chunked f) part) in Hshort. rewrite Hw in Hshort. unfold part in Hshort.
    rewrite slice_length in Hshort by lia. cbn in Hshort. rewrite app_nil_r in Hshort.
    assert (forall rest, decode_ctx (f_chunked f) (part ++ rest)
      = prepend (out_bytes s) (decode_ctx (f_chunked f1) rest)) as Hcont
      by (intros rest; by apply decode_ctx_running).
    destruct (IH (out.1 ++ out_bytes s, out.2 || bd_last_buf s) f1)
      as (rc & out' & f' & body & v & Hf & Hd & Hfb & Hfl & Hlim' & Hans).
    + done.
    + cbn. lia.
    + done.
    + intros chain1 x chain2 body rest Hc Hd.
      apply (Hopen ((mem, b) :: chain1) x chain2 (out_bytes s ++ body) rest); [by rewrite Hc|].
      change (stream ((mem, b) :: chain1)) with (part ++ stream chain1). by rewrite Hcont, Hd.
    + exists rc, out', f', (out_bytes s ++ body), v. rewrite Hcont, Hd.
      split_and!; [done..|]. cbn [f_length f1 field_set] in Hans.
      destruct Hans as [(-> & Ho & Hl1 & Hv)|[(-> & Hv)|(-> & Hm & Hmore)]].
      * left. rewrite length_app. cbn [fst] in Ho. rewrite Ho, app_assoc.
        split_and!; [done|done|rewrite Hl1; cbn [f_length]; lia|].
        cbn [snd] in Hv. by rewrite Hlb, orb_false_r in Hv.
      * right. left. done.
      * right. right. split_and!; [done|done|]. intros more body' rest. rewrite <- app_assoc, Hcont.
        destruct (decode_ctx (f_chunked f1) (stream chain ++ more)) as [b2 v2] eqn:Hd2.
        unfold prepend. cbn [fst snd]. intros [= <- ->]. apply Hmore in Hd2.
        cbn [f_length] in Hd2. rewrite length_app. lia.
  - unfold decode_ctx in *. rewrite decode_app, Hw.
    do 5 eexists. split; [reflexivity|]. split; [reflexivity|].
    split_and!; [done..|]. right. left. by split_and!.
  - destruct (decode_ctx (f_chunked f) (part ++ stream chain)) as [body v].
    do 5 eexists. split; [reflexivity|]. split; [reflexivity|]. split_and!; [done..|].
    right. right. split_and!; [done|done|]. intros more body' rest. rewrite <- app_assoc. intros Hd.
    pose proof (decode_ctx_chunk _ _ _ _ _ _ _ _ Hw Hs Hd). lia.
Qed.

(** ** The filter that writes the coding *)

Definition CRLF : list Z := [CR; LF].

(** [r->headers_out.trailers]: those with [hash == 0] are not sent. *)
Record ngx_table_elt_t := { hash : Z; key : list Z; value : list Z }.

Definition trailer_line (h : ngx_table_elt_t) : list Z :=
  if hash h =? 0 then [] else key h ++ bs ": " ++ value h ++ CRLF.

(** The content of the buffer of the last chunk and the trailers. *)
Definition ngx_http_chunked_create_trailers (trailers : list ngx_table_elt_t) : list Z :=
  let len := length (concat (map trailer_line trailers)) in
  if (len =? 0)%nat then CRLF ++ bs "0" ++ CRLF ++ CRLF
  else CRLF ++ bs "0" ++ CRLF ++ concat (map trailer_line trailers) ++ CRLF.

(** One call: the contents of the buffers of the chain [in], whether the last
    one has [last_buf], and what goes to the next filter.  The size is printed
    with "%xO" into a buffer of [sizeof("0000000000000000" CRLF) - 1] bytes. *)
Definition ngx_http_chunked_body_filter (chunked header_only : bool)
    (input : list (list Z)) (last_buf : bool) (trailers : list ngx_table_elt_t)
    : option (list Z) :=
  let data := concat input in
  if bool_decide (input = []) || negb chunked || header_only then Some data
  else
    let size := Z.of_nat (length data) in
    head ← (if negb (size =? 0) then
              digits ← ngx_sprintf_num 18 size " "%ch 1 0;
              Some (digits ++ CRLF)
            else Some []);
    Some (head ++ data
          ++ (if last_buf then
                let t := ngx_http_chunked_create_trailers trailers in
                if size =? 0 then drop 2 t else t
              else if size >? 0 then CRLF else [])).

Example body_filter_twice :
  ngx_http_chunked_body_filter true false [bs "hello "; bs "chunked world"] false []
  = Some (bs "13" ++ CRLF ++ bs "hello chunked world" ++ CRLF)
  /\ ngx_http_chunked_body_filter true false [[]] true
       [{| hash := 1; key := bs "X"; value := bs "y" |}]
     = Some (bs "0" ++ CRLF ++ bs "X: y" ++ CRLF ++ CRLF).
Proof. split; reflexivity. Qed.

(** ** Round trip *)

Lemma hex_value_val c d : hex_val c = Some d -> hex_value c = Some d.
Proof.
  intros Hv. unfold hex_value. rewrite <- hextoi_digit; [done|].
  unfold is_u8. revert Hv. unfold hex_val, is_digit. repeat case_match; intros; simplify_eq; lia.
Qed.

Lemma decode_digits q v rest :
  forallb is_hex q = true -> 0 <= v -> hex_from v q <= max_size ->
  decode sw_chunk_size v (q ++ rest) = decode sw_chunk_size (hex_from v q) rest.
Proof.
  revert v. induction q as [|c q IH]; intros v; [done|].
  cbn [forallb app]. intros [Hc Hq]%andb_prop Hv Hmax.
  apply bool_decide_eq_true in Hc as [d Hd].
  pose proof (hex_val_range c d Hd) as Hr.
  assert (hex_from v (c :: q) = hex_from (v * 16 + d) q) as He
    by (unfold hex_from; cbn; by rewrite Hd).
  rewrite He in *. pose proof (hex_from_ge (v * 16 + d) q ltac:(lia) Hq) as Hge.
  rewrite decode_cons by done. cbn [entry step]. unfold chunk_size_case.
  unfold max_size, NGX_MAX_OFF_T_VALUE in *.
  change (9223372036854775807 / 16) with 576460752303423487.
  test_false (v >? 576460752303423487). rewrite (hex_value_val c d Hd). unfold go.
  rewrite i64_small by lia. test_false (v * 16 + d >? 9223372036854775807 - 5).
  apply IH; [done|lia|done].
Qed.

Lemma decode_first size q rest :
  forallb is_hex q = true -> q <> [] ->
  decode sw_chunk_start size (q ++ rest) = decode sw_chunk_size 0 (q ++ rest).
Proof.
  destruct q as [|c q]; [done|]. cbn [forallb]. intros [Hc _]%andb_prop _.
  apply bool_decide_eq_true in Hc as [d Hd]. cbn [app].
  pose proof (hex_val_range c d Hd) as Hr.
  rewrite !decode_cons by done. cbn [entry step]. unfold chunk_start_case, chunk_size_case.
  rewrite (hex_value_val c d Hd). unfold go. cbn.
  rewrite i64_small by lia. done.
Qed.

(** The largest chunk the parser takes: the test that keeps the next digit from
    overflowing is made before any byte after the size. *)
Definition max_chunk : Z := NGX_MAX_OFF_T_VALUE / 16.

(** One chunk as the filter writes it. *)
Lemma decode_chunk q data rest :
  forallb is_hex q = true -> q <> [] -> hex_from 0 q = Z.of_nat (length data) ->
  0 < Z.of_nat (length data) <= max_chunk ->
  decode sw_chunk_start 0 (q ++ CRLF ++ data ++ rest)
  = prepend data (decode sw_chunk_data 0 rest).
Proof.
  intros Hq Hne Hv Hs. change max_chunk with 576460752303423487 in Hs.
  rewrite decode_first, decode_digits, Hv
    by (done || lia || (rewrite Hv; unfold max_size, NGX_MAX_OFF_T_VALUE; lia)).
  set (size := Z.of_nat (length data)) in *.
  assert (size >? max_size = false) as Hmax by (unfold max_size, NGX_MAX_OFF_T_VALUE; lia).
  unfold CRLF. cbn [app].
  rewrite decode_cons by done. cbn [entry step]. unfold chunk_size_case.
  change (NGX_MAX_OFF_T_VALUE / 16) with 576460752303423487.
  test_false (size >? 576460752303423487). test_false (size =? 0).
  change (hex_value CR) with (@None Z). cbn [Z.eqb CR Pos.eqb go]. rewrite Hmax.
  rewrite decode_cons by done. cbn [entry step lf_case Z.eqb LF Pos.eqb go]. rewrite Hmax.
  rewrite decode_data by done. fold size. rewrite Z.sub_diag.
  unfold prepend. by destruct (decode _ _ _).
Qed.

Lemma decode_after_data rest :
  decode sw_chunk_data 0 (CRLF ++ rest) = decode sw_chunk_start 0 rest.
Proof. reflexivity. Qed.

(** A trailer that cannot be taken for the end of the headers. *)
Definition trailer_ok (h : ngx_table_elt_t) : Prop :=
  Forall (fun c => c <> CR /\ c <> LF) (key h ++ value h).

Lemma decode_header_line line rest :
  Forall (fun c => c <> CR /\ c <> LF) line ->
  decode sw_trailer_header 0 (line ++ CRLF ++ rest) = decode sw_trailer 0 rest.
Proof.
  induction 1 as [|c line [Hcr Hlf] Hl IH]; [reflexivity|]. cbn [app].
  rewrite decode_cons by done. cbn [entry step]. unfold line_case.
  test_false (c =? CR). test_false (c =? LF). apply IH.
Qed.

Lemma decode_trailers trailers rest :
  Forall trailer_ok trailers ->
  decode sw_trailer 0 (concat (map trailer_line trailers) ++ CRLF ++ rest)
  = ([], Finished rest).
Proof.
  induction 1 as [|h trailers Hh _ IH]; [reflexivity|]. cbn [map concat].
  unfold trailer_line at 1. destruct (hash h =? 0); [exact IH|].
  assert (Forall (fun c => c <> CR /\ c <> LF) (key h ++ bs ": " ++ value h)) as Hline.
  { apply Forall_app in Hh as [Hk Hv]. repeat apply Forall_app_2; try done.
    repeat (apply List.Forall_cons; [done|]). apply List.Forall_nil. }
  rewrite <- !app_assoc. rewrite (app_assoc (key h)), (app_assoc (key h ++ bs ": ")).
  rewrite <- (app_assoc (key h)).
  destruct (key h ++ bs ": " ++ value h) as [|c line] eqn:E.
  { apply (f_equal length) in E. revert E. rewrite !length_app. cbn. lia. }
  apply Forall_cons_1 in Hline as [[Hcr Hlf] Hline]. cbn [app].
  rewrite decode_cons by done. cbn [entry step]. unfold trailer_case.
  test_false (c =? CR). test_false (c =? LF).
  unfold go. change (0 >? max_size) with false. cbv beta iota.
  rewrite decode_header_line by done. exact IH.
Qed.

(** The calls of the filter for one response: contents without [last_buf], then
    the last one. *)
Fixpoint chunked_response (calls : list (list (list Z))) (final : list (list Z))
    (trailers : list ngx_table_elt_t) : option (list Z) :=
  match calls with
  | [] => ngx_http_chunked_body_filter true false final true trailers
  | input :: calls' =>
      out ← ngx_http_chunked_body_filter true false input false trailers;
      more ← chunked_response calls' final trailers;
      Some (out ++ more)
  end.

Lemma size_digits size :
  0 < size <= max_chunk ->
  exists q, ngx_sprintf_num 18 size " "%ch 1 0 = Some q /\ hex_from 0 q = size
    /\ forallb is_hex q = true /\ q <> [] /\ (length (q ++ CRLF) <= 18)%nat.
Proof.
  intros Hs. change max_chunk with 576460752303423487 in Hs.
  destruct (sprintf_hex_correct hex_lower 16 size []) as (q & Hq & Hv & Hh & _ & Hl);
    [by left|split; [lia|]; apply Z.lt_trans with (2 ^ 60); [lia|done]|lia|].
  rewrite app_nil_r in Hq. exists q.
  assert (num_digits size 1 = Some q) as Hd by by apply (sprintf_hex_room _ 16 4) in Hq.
  destruct (ngx_sprintf_num_eq 18 size 32 1 0 q Hd) as (k & rest & Hk & Hmin & ->).
  replace k with 0%nat by lia. cbn [replicate app]. rewrite take_ge by lia.
  split_and!; [done|rewrite Hv; lia|done|intros ->; simpl in Hl; lia|rewrite length_app; cbn; lia].
Qed.

Lemma decode_final final trailers rest :
  Forall trailer_ok trailers -> final <> [] ->
  Z.of_nat (length (concat final)) <= max_chunk ->
  exists out, ngx_http_chunked_body_filter true false final true trailers = Some out
    /\ decode sw_chunk_start 0 (out ++ rest) = (concat final, Finished rest).
Proof.
  intros Ht Hne Hs. unfold ngx_http_chunked_body_filter.
  rewrite bool_decide_eq_false_2 by done. cbn [negb orb].
  assert (decode sw_chunk_start 0 (drop 2 (ngx_http_chunked_create_trailers trailers) ++ rest)
          = ([], Finished rest)) as Hlast.
  { unfold ngx_http_chunked_create_trailers. case_match eqn:E; [reflexivity|].
    change (drop 2 (CRLF ++ ?l)) with l. rewrite <- !app_assoc.
    change (decode sw_chunk_start 0 (bs "0" ++ CRLF ++ ?l)) with (decode sw_trailer 0 l).
    by apply decode_trailers. }
  assert (ngx_http_chunked_create_trailers trailers
          = CRLF ++ drop 2 (ngx_http_chunked_create_trailers trailers)) as Hcrlf.
  { unfold ngx_http_chunked_create_trailers. by case_match. }
  destruct (Z.eqb_spec (Z.of_nat (length (concat final))) 0) as [Hz|Hnz]; cbn [negb].
  - destruct (concat final); [|done]. eexists. split; [reflexivity|]. exact Hlast.
  - destruct (size_digits (Z.of_nat (length (concat final)))) as (q & -> & Hv & Hq & Hq0 & _);
      [lia|]. cbn [mbind option_bind]. eexists. split; [reflexivity|].
    rewrite <- !app_assoc, decode_chunk by (done || lia).
    rewrite Hcrlf, <- app_assoc, decode_after_data, Hlast. unfold prepend. cbn.
    by rewrite app_nil_r.
Qed.

Lemma decode_part input trailers rest :
  input <> [] -> Z.of_nat (length (concat input)) <= max_chunk ->
  exists out, ngx_http_chunked_body_filter true false input false trailers = Some out
    /\ decode sw_chunk_start 0 (out ++ rest)
       = prepend (concat input) (decode sw_chunk_start 0 rest).
Proof.
  intros Hne Hs. unfold ngx_http_chunked_body_filter.
  rewrite bool_decide_eq_false_2 by done. cbn [negb orb].
  destruct (Z.eqb_spec (Z.of_nat (length (concat input))) 0) as [Hz|Hnz]; cbn [negb].
  - destruct (concat input); [|done]. eexists. split; [reflexivity|]. cbn [app length].
    unfold prepend. by destruct (decode _ _ _).
  - destruct (size_digits (Z.of_nat (length (concat input)))) as (q & -> & Hv & Hq & Hq0 & _);
      [lia|]. cbn [mbind option_bind]. eexists. split; [reflexivity|].
    test_true (Z.of_nat (length (concat input)) >? 0).
    by rewrite <- !app_assoc, decode_chunk, decode_after_data by (done || lia).
Qed.

(** C26: what nginx writes in the chunked coding nginx reads back: for any sequence
    of calls of [ngx_http_chunked_body_filter], with any contents of up to
    [max_chunk] bytes a call and any trailers without CR and LF, decoding its
    output gives the contents, joined, and stops exactly at the end, whatever
    bytes follow; the printed sizes fit the buffer allocated for them. *)
Theorem chunked_roundtrip (calls : list (list (list Z))) (final : list (list Z))
    (trailers : list ngx_table_elt_t) (rest : list Z)
    (Htrailers : Forall trailer_ok trailers)
    (Hcalls : Forall (fun input => input <> []
       /\ Z.of_nat (length (concat input)) <= max_chunk) (calls ++ [final])) :
  exists out, chunked_response calls final trailers = Some out
    /\ decode_ctx new_chunked (out ++ rest)
       = (concat (concat (calls ++ [final])), Finished rest).
Proof.
  unfold decode_ctx. cbn [new_chunked c_state c_size].
  induction calls as [|input calls IH]; cbn [app concat chunked_response] in *.
  - apply Forall_cons_1 in Hcalls as [[Hne Hs] _]. rewrite app_nil_r.
    by apply decode_final.
  - apply Forall_cons_1 in Hcalls as [[Hne Hs] Hcalls].
    destruct (IH Hcalls) as (more & -> & Hm).
    destruct (decode_part input trailers (more ++ rest) Hne Hs) as (out & -> & Ho).
    cbn [mbind option_bind]. eexists. split; [reflexivity|].
    rewrite <- app_assoc, Ho, Hm. unfold prepend. cbn [fst snd]. by rewrite (concat_app input).
Qed.

Lemma chunked_roundtrip_witness :
  exists out, chunked_response [[bs "GET"; bs ""]; [bs " /"]] [[]]
      [{| hash := 1; key := bs "A"; value := bs "b" |}] = Some out
    /\ decode_ctx new_chunked (out ++ bs "next") = (bs "GET /", Finished (bs "next")).
Proof.
  apply (chunked_roundtrip [[bs "GET"; bs ""]; [bs " /"]] [[]]
      [{| hash := 1; key := bs "A"; value := bs "b" |}] (bs "next")).
  - apply Forall_singleton.
    apply (Forall_check (fun c => negb (c =? CR) && negb (c =? LF))); [|reflexivity].
    unfold CR, LF. lia.
  - repeat (apply List.Forall_cons; [split; [discriminate|vm_compute; discriminate]|]).
    apply List.Forall_nil.
Defined.

(** ** Discarding *)

Lemma decode_skip b ctx mem b' ctx' n :
  c_state ctx = sw_chunk_data -> 0 < c_size ctx <= max_size ->
  (pos b < last b <= length mem)%nat -> skip_data b ctx = (b', ctx', n) ->
  last b' = last b /\ (pos b < pos b' <= last b)%nat
  /\ c_state ctx' = sw_chunk_data /\ 0 <= c_size ctx' <= max_size
  /\ exists body, decode_ctx ctx (slice mem (pos b) (last b))
       = prepend body (decode_ctx ctx' (slice mem (pos b') (last b))).
Proof.
  intros Hst Hs Hb. unfold skip_data, available.
  assert (forall k, (0 < k <= last b - pos b)%nat -> Z.of_nat k <= c_size ctx ->
    exists body, decode_ctx ctx (slice mem (pos b) (last b))
      = prepend body (decode sw_chunk_data (c_size ctx - Z.of_nat k)
                        (slice mem (pos b + k) (last b)))) as Hk.
  { intros k Hk Hks. exists (slice mem (pos b) (pos b + k)). unfold decode_ctx. rewrite Hst.
    rewrite (slice_app mem (pos b) (pos b + k) (last b)) by lia.
    rewrite decode_data by (rewrite slice_length; lia).
    rewrite slice_length by lia. replace (pos b + k - pos b)%nat with k by lia.
    unfold prepend. by destruct (decode _ _ _). }
  unfold decode_ctx. destruct (Z.of_nat (last b) - Z.of_nat (pos b) >? c_size ctx) eqn:Hgt;
    intros [= <- <- <-]; cbn [pos last c_state c_size field_set].
  - split_and!; [done|lia|lia|done|lia|lia|].
    destruct (Hk (Z.to_nat (c_size ctx))) as [body Hd]; [lia|lia|]. exists body.
    rewrite Z2Nat.id, Z.sub_diag in Hd by lia. unfold decode_ctx in Hd. by rewrite Hst in *.
  - assert (i64 (c_size ctx - (Z.of_nat (last b) - Z.of_nat (pos b)))
            = c_size ctx - Z.of_nat (last b - pos b)) as Hi.
    { rewrite i64_small; unfold max_size, NGX_MAX_OFF_T_VALUE in *; lia. }
    rewrite Hi. split_and!; [done|lia|lia|done|lia|lia|].
    destruct (Hk (last b - pos b)%nat) as [body Hd]; [lia|lia|]. exists body.
    replace (pos b + (last b - pos b))%nat with (last b) in Hd by lia.
    unfold decode_ctx in Hd. by rewrite Hst in *.
Qed.

Lemma discard_loop_decode fuel cf mem b ctx :
  chunk_ok (c_state ctx) (c_size ctx) -> (pos b <= last b <= length mem)%nat ->
  (last b - pos b < fuel)%nat ->
  exists rc b' ctx' n, discard_loop fuel cf mem b ctx = Some (rc, b', ctx', n)
    /\ match (decode_ctx ctx (slice mem (pos b) (last b))).2 with
       | Finished rest =>
           rc = NGX_OK /\ n = Some 0 /\ rest = slice mem (pos b') (last b)
       | Running st size =>
           rc = NGX_OK /\ pos b' = last b /\ c_state ctx' = st /\ c_size ctx' = size
           /\ n = Some (ngx_max (min_length st size) (large_client_header_buffers_size cf))
       | Malformed => rc = NGX_HTTP_BAD_REQUEST
       end.
Proof.
  revert b ctx. induction fuel as [|fuel IH]; intros b ctx Hok Hb Hfuel; [lia|].
  cbn [discard_loop].
  destruct (parse_chunked_parsed mem b ctx Hok Hb) as (rc & ctx1 & b1 & Hp & Hparsed).
  rewrite Hp. cbn [mbind option_bind]. clear Hp. unfold decode_ctx at 1.
  destruct Hparsed as [st size Hd Hok' Hent|p size Hd Hs Hp|p ctx' Hd Hp Hst|ctx' b' Hd Hl];
    rewrite Hd; cbn [Z.eqb NGX_AGAIN NGX_OK NGX_DONE NGX_ERROR Pos.eqb].
  - do 4 eexists. split; [reflexivity|]. cbn. by split_and!.
  - set (ctx1 := {| c_state := sw_chunk_data; c_size := size; c_length := _ |}).
    set (b1 := b <| pos := p |>).
    destruct (skip_data b1 ctx1) as [[b2 ctx2] n2] eqn:Hsk.
    destruct (decode_skip b1 ctx1 mem b2 ctx2 n2) as (Hl & Hp2 & Hst2 & Hs2 & body & Hd2);
      [done|done|cbn; lia|done|].
    change (last b1) with (last b) in *. change (pos b1) with p in *.
    destruct (IH b2 ctx2) as (rc & b3 & ctx3 & n3 & He & Hpost); [|lia|lia|].
    { rewrite Hst2. by apply chunk_ok_data. }
    exists rc, b3, ctx3, n3. split; [done|].
    change (decode sw_chunk_data size (slice mem p (last b)))
      with (decode_ctx ctx1 (slice mem p (last b))).
    rewrite Hd2. cbn [prepend snd]. by rewrite <- Hl.
  - do 4 eexists. split; [reflexivity|]. cbn. by split_and!.
  - do 4 eexists. split; [reflexivity|]. done.
Qed.

(** discarding agrees with reading: [ngx_http_discard_request_body_filter]
    returns; when the coding ends in the buffer it leaves [b->pos] at the byte
    after the body, where the next request starts, and [content_length_n] zero;
    when it does not, the context is where the coding is and the amount wanted
    next is not zero; and it answers 400 exactly to a malformed body. *)
Theorem ngx_http_discard_request_body_filter_decode (cf : conf) (mem : list Z) (b : ngx_buf_t)
    (ctx : ngx_http_chunked_t) (n0 : Z)
    (Hok : chunk_ok (c_state ctx) (c_size ctx)) (Hb : (pos b <= last b <= length mem)%nat) :
  exists rc b' ctx' n,
    ngx_http_discard_request_body_filter cf true mem b ctx n0 = Some (rc, b', ctx', n)
    /\ match (decode_ctx ctx (slice mem (pos b) (last b))).2 with
       | Finished rest => rc = NGX_OK /\ n = 0 /\ rest = slice mem (pos b') (last b)
       | Running st size =>
           rc = NGX_OK /\ pos b' = last b /\ c_state ctx' = st /\ c_size ctx' = size
           /\ min_length st size <= n /\ large_client_header_buffers_size cf <= n
       | Malformed => rc = NGX_HTTP_BAD_REQUEST
       end.
Proof.
  unfold ngx_http_discard_request_body_filter.
  destruct (discard_loop_decode (S (last b - pos b)) cf mem b ctx Hok Hb ltac:(lia))
    as (rc & b' & ctx' & n & -> & Hpost).
  cbn [mbind option_bind]. do 4 eexists. split; [reflexivity|].
  destruct (decode_ctx _ _) as [body []]; cbn [snd] in *.
  - destruct Hpost as (-> & ? & ? & ? & ->). split_and!; try done; cbn; unfold ngx_max;
      case_match; lia.
  - by destruct Hpost as (-> & -> & ?).
  - done.
Qed.

Lemma ngx_http_discard_request_body_filter_decode_witness :
  exists rc b' ctx' n,
    ngx_http_discard_request_body_filter
      {| client_max_body_size := 0; large_client_header_buffers_size := 8192 |} true
      (bs "1" ++ [LF] ++ bs "a" ++ [LF] ++ bs "0" ++ [LF; LF] ++ bs "GET")
      {| pos := 0; last := 10 |} new_chunked 77 = Some (rc, b', ctx', n)
    /\ rc = NGX_OK /\ n = 0 /\ pos b' = 7%nat.
Proof.
  destruct (ngx_http_discard_request_body_filter_decode
      {| client_max_body_size := 0; large_client_header_buffers_size := 8192 |}
      (bs "1" ++ [LF] ++ bs "a" ++ [LF] ++ bs "0" ++ [LF; LF] ++ bs "GET")
      {| pos := 0; last := 10 |} new_chunked 77) as (rc & b' & ctx' & n & H & _).
  - split; [vm_compute; intuition discriminate|by intros [?|?]].
  - vm_compute. lia.
  - exists rc, b', ctx', n. split; [exact H|]. revert H. vm_compute.
    by intros [= <- <- <- <-].
Defined.
