(* ===== verification/ChunkedGrammar.v ===== *)
(** * ChunkedGrammar: the chunked coding as a grammar

    What a body in the chunked coding is, by the productions of RFC 9112 with the
    liberties that nginx takes, and independently of the parser of Chunked; and that
    the parser, its filter and the stretches they work in follow it. *)

From S2P Require Import Prelude Numbers Scan Http Chunked.

(** ** The grammar *)

(** The end of a line. *)
Definition eol (nl : list Z) : Prop := nl = [LF] \/ nl = [CR; LF].

Definition no_eol (s : list Z) : Prop := Forall (fun c => c <> CR /\ c <> LF) s.

(** What may stand between the size of a chunk and the end of the line. *)
Definition extension (ext : list Z) : Prop :=
  ext = [] \/ exists c s, ext = c :: s /\ (c = ";"%ch \/ c = " "%ch \/ c = 9) /\ no_eol s.

(** The trailers and the empty line after them. *)
Definition header_line (l : list Z) : Prop :=
  exists s nl, l = s ++ nl /\ s <> [] /\ no_eol s /\ eol nl.
Definition trailer_part (t : list Z) : Prop :=
  exists lines nl, t = concat lines ++ nl /\ Forall header_line lines /\ eol nl.

(** A size in hexadecimal; the largest is [max_chunk], the greatest [off_t] over 16. *)
Definition chunk_size (q : list Z) (size : Z) : Prop :=
  q <> [] /\ forallb is_hex q = true /\ hex_from 0 q = size /\ size <= max_chunk.

(** [chunked_body body t]: the text [t] is a complete coding of [body]. *)
Inductive chunked_body : list Z -> list Z -> Prop :=
  | body_last q ext nl t
      (_ : chunk_size q 0) (_ : extension ext) (_ : eol nl) (_ : trailer_part t) :
      chunked_body [] (q ++ ext ++ nl ++ t)
  | body_chunk q ext nl data nl' body t
      (_ : chunk_size q (Z.of_nat (length data))) (_ : data <> [])
      (_ : extension ext) (_ : eol nl) (_ : eol nl') (_ : chunked_body body t) :
      chunked_body (data ++ body) (q ++ ext ++ nl ++ data ++ nl' ++ t).

(** *** What is left of a body

    For each state between two bytes, what may still come: [remaining st size body t]
    when [t] completes the coding and [body] is what it adds to the body. *)

(** The data of a chunk of [size] bytes, and what follows. *)
Definition chunk_rest (size : Z) (body t : list Z) : Prop :=
  exists data nl body' t', t = data ++ nl ++ t' /\ Z.of_nat (length data) = size /\ eol nl
    /\ body = data ++ body' /\ chunked_body body' t'.

(** After the line of the size. *)
Definition after_line (size : Z) (body t : list Z) : Prop :=
  if size =? 0 then body = [] /\ trailer_part t else chunk_rest size body t.

(** After the digits of the size. *)
Definition after_size (size : Z) (body t : list Z) : Prop :=
  exists ext nl t', t = ext ++ nl ++ t' /\ extension ext /\ eol nl /\ after_line size body t'.

(** Within a line that nothing is read from. *)
Definition in_line (P : list Z -> Prop) (t : list Z) : Prop :=
  exists s nl t', t = s ++ nl ++ t' /\ no_eol s /\ eol nl /\ P t'.

(** After a CR. *)
Definition at_lf (P : list Z -> Prop) (t : list Z) : Prop := exists t', t = LF :: t' /\ P t'.

Definition remaining (st : state) (size : Z) (body t : list Z) : Prop :=
  match st with
  | sw_chunk_start => chunked_body body t
  | sw_chunk_size =>
      exists q t', t = q ++ t' /\ forallb is_hex q = true /\ hex_from size q <= max_chunk
        /\ after_size (hex_from size q) body t'
  | sw_chunk_extension => in_line (chunk_rest size body) t
  | sw_chunk_extension_almost_done => at_lf (chunk_rest size body) t
  | sw_chunk_data => chunk_rest size body t
  | sw_after_data => chunk_rest 0 body t
  | sw_after_data_almost_done => at_lf (chunked_body body) t
  | sw_last_chunk_extension => body = [] /\ in_line trailer_part t
  | sw_last_chunk_extension_almost_done => body = [] /\ at_lf trailer_part t
  | sw_trailer => body = [] /\ trailer_part t
  | sw_trailer_almost_done => body = [] /\ t = [LF]
  | sw_trailer_header => body = [] /\ in_line trailer_part t
  | sw_trailer_header_almost_done => body = [] /\ at_lf trailer_part t
  end.

(** What the context is waiting for. *)
Definition rest_of (ctx : ngx_http_chunked_t) : list Z -> list Z -> Prop :=
  remaining (c_state ctx) (c_size ctx).

(** ** The shape of a body *)

Lemma chunked_body_inv body t :
  chunked_body body t <->
  exists q t', t = q ++ t' /\ q <> [] /\ forallb is_hex q = true /\ hex_from 0 q <= max_chunk
    /\ after_size (hex_from 0 q) body t'.
Proof.
  split.
  - intros [q ext nl t' (Hne & Hq & Hv & Hm) He Hn Ht
           |q ext nl data nl' body' t' (Hne & Hq & Hv & Hm) Hd He Hn Hn' Hb].
    + exists q, (ext ++ nl ++ t'). rewrite Hv. split_and!; try done. by exists ext, nl, t'.
    + exists q, (ext ++ nl ++ data ++ nl' ++ t'). rewrite Hv. split_and!; try done.
      exists ext, nl, (data ++ nl' ++ t'). split_and!; try done. unfold after_line.
      destruct (Z.eqb_spec (Z.of_nat (length data)) 0); [by destruct data|].
      by exists data, nl', body', t'.
  - intros (q & t0 & -> & Hne & Hq & Hm & ext & nl & t' & -> & He & Hn & Ha).
    unfold after_line in Ha. destruct (Z.eqb_spec (hex_from 0 q) 0) as [Hz|Hz].
    + destruct Ha as [-> Ht]. by apply body_last.
    + destruct Ha as (data & nl' & body' & t'' & -> & Hl & Hn' & -> & Hb).
      apply body_chunk; [by split_and!; [..|lia]|intros ->; cbn in Hl; lia|done..].
Qed.

(** A digit of the parser is one of the grammar. *)
Lemma hex_value_digit c v : is_u8 c -> hex_value c = Some v -> hex_val c = Some v.
Proof.
  intros Hc Hv. rewrite <- Hv. symmetry. apply (bool_decide_eq_true_1 (hex_value c = hex_val c)). clear Hv. revert c Hc.
  apply (forall_u8 (fun c => bool_decide (hex_value c = hex_val c))). by vm_compute.
Qed.

Lemma hex_from_cons v c q d : hex_val c = Some d -> hex_from v (c :: q) = hex_from (v * 16 + d) q.
Proof. intros Hd. unfold hex_from. cbn [fold_left]. by rewrite Hd. Qed.

Lemma in_line_cons (P : list Z -> Prop) c t : c <> CR -> c <> LF -> in_line P t -> in_line P (c :: t).
Proof.
  intros H1 H2 (s & nl & t' & -> & Hs & Hn & Ht). exists (c :: s), nl, t'.
  split_and!; [done|by constructor|done|done].
Qed.

Lemma in_line_lf (P : list Z -> Prop) t : P t -> in_line P (LF :: t).
Proof. intros H. exists [], [LF], t. split_and!; [done|constructor|by left|done]. Qed.

Lemma in_line_cr (P : list Z -> Prop) t : at_lf P t -> in_line P (CR :: t).
Proof. intros (t' & -> & H). exists [], [CR; LF], t'. split_and!; [done|constructor|by right|done]. Qed.

Lemma after_size_line size body t : in_line (after_line size body) t ->
  forall c, c = ";"%ch \/ c = " "%ch \/ c = 9 -> after_size size body (c :: t).
Proof.
  intros (s & nl & t' & -> & Hs & Hn & Ha) c Hc. exists (c :: s), nl, t'.
  split_and!; [done|right; by exists c, s|done|done].
Qed.

Lemma after_size_lf size body t : after_line size body t -> after_size size body (LF :: t).
Proof. intros H. exists [], [LF], t. split_and!; [done|by left|by left|done]. Qed.

Lemma after_size_cr size body t : at_lf (after_line size body) t -> after_size size body (CR :: t).
Proof. intros (t' & -> & H). exists [], [CR; LF], t'. split_and!; [done|by left|by right|done]. Qed.

Lemma trailer_part_line t : in_line trailer_part t -> forall c, c <> CR -> c <> LF -> trailer_part (c :: t).
Proof.
  intros (s & nl & t' & -> & Hs & Hn & lines & nl' & -> & Hl & Hn') c H1 H2.
  exists ((c :: s ++ nl) :: lines), nl'. split_and!; [|constructor; [|done]|done].
  - cbn. by rewrite <- !app_assoc.
  - exists (c :: s), nl. split_and!; [done|done|by constructor|done].
Qed.

(** The digits go on, or the size is complete. *)
Lemma remaining_size_end size body t :
  0 <= size <= max_chunk -> after_size size body t -> remaining sw_chunk_size size body t.
Proof. intros Hs Ha. exists [], t. change (hex_from size []) with size. split_and!; [done|done|lia|done]. Qed.

(** ** The parser follows the grammar *)

(** The same after the first digit. *)
Lemma size_step c size st' size' body t :
  is_u8 c -> 0 <= size -> chunk_size_case c size = go st' size' ->
  remaining st' size' body t -> remaining sw_chunk_size size body (c :: t).
Proof.
  intros Hc Hs Hstep Ht. unfold chunk_size_case, last_chunk_case in Hstep.
  destruct (size >? NGX_MAX_OFF_T_VALUE / 16) eqn:Hbig; [done|].
  assert (0 <= size <= max_chunk) as Hs' by (unfold max_chunk; lia).
  destruct (hex_value c) as [v|] eqn:Hv.
  - injection Hstep as <- <-. pose proof (hex_value_range c v Hv) as Hr.
    apply hex_value_digit in Hv; [|done].
    rewrite i64_small in Ht by (change max_chunk with 576460752303423487 in Hs'; lia).
    destruct Ht as (q & t' & -> & Hq & Hm & Ha). exists (c :: q), t'.
    rewrite (hex_from_cons size c q v Hv). split_and!; try done.
    cbn [forallb]. unfold is_hex at 1. by rewrite Hv.
  - clear Hv Hbig. apply remaining_size_end; [done|].
    assert (forall P, in_line P t -> (c =? ";"%ch) || (c =? " "%ch) || (c =? 9) = true ->
      P = after_line size body -> after_size size body (c :: t)) as Hline.
    { intros P HP Hor ->. apply after_size_line; [done|]. lia. }
    destruct (Z.eqb_spec size 0) as [Hz|Hz].
    + assert (after_line size body = fun t => body = [] /\ trailer_part t) as Hal
        by (unfold after_line; by rewrite (proj2 (Z.eqb_eq _ _) Hz)).
      destruct (Z.eqb_spec c CR) as [->|]; [injection Hstep as <- <-|].
      { apply after_size_cr. destruct Ht as (-> & t' & -> & Ht). exists t'. by rewrite Hal. }
      destruct (Z.eqb_spec c LF) as [->|]; [injection Hstep as <- <-|].
      { apply after_size_lf. by rewrite Hal. }
      destruct (_ || _) eqn:Hor; [|done]. injection Hstep as <- <-.
      destruct Ht as (-> & s & nl & t' & -> & H1 & H2 & H3).
      apply after_size_line; [|lia]. exists s, nl, t'. by rewrite Hal.
    + assert (after_line size body = chunk_rest size body) as Hal
        by (unfold after_line; by rewrite (proj2 (Z.eqb_neq _ _) Hz)).
      destruct (Z.eqb_spec c CR) as [->|]; [injection Hstep as <- <-|].
      { apply after_size_cr. by rewrite Hal. }
      destruct (Z.eqb_spec c LF) as [->|]; [injection Hstep as <- <-|].
      { apply after_size_lf. by rewrite Hal. }
      destruct (_ || _) eqn:Hor; [|done]. injection Hstep as <- <-.
      apply after_size_line; [by rewrite Hal|lia].
Qed.

(** One step backwards: what is left before the byte [c]. *)
Lemma remaining_step c st size st' size' body t :
  is_u8 c -> chunk_ok st size -> st <> sw_chunk_data ->
  step 0 c (st, size) = Some (Next (st', size')) ->
  remaining st' size' body t -> remaining st size body (c :: t).
Proof.
  intros Hc [Hs Hext] Hst Hstep.
  destruct st; try done; cbn [step] in Hstep;
    unfold chunk_start_case, line_case, lf_case, after_data_case,
      trailer_case, trailer_almost_done_case in Hstep.
  - destruct (hex_value c) as [v|] eqn:Hv; [|done]. injection Hstep as <- <-.
    apply hex_value_digit in Hv; [|done].
    intros (q & t' & -> & Hq & Hm & Ha). cbn [remaining]. apply chunked_body_inv.
    exists (c :: q), t'. rewrite (hex_from_cons 0 c q v Hv), Z.add_0_l.
    split_and!; try done. cbn [forallb]. unfold is_hex at 1. by rewrite Hv.
  - by apply size_step; [|lia|].
  - destruct (Z.eqb_spec c CR) as [->|]; [|destruct (Z.eqb_spec c LF) as [->|]];
      injection Hstep as <- <-; [by apply in_line_cr|by apply in_line_lf|by apply in_line_cons].
  - destruct (Z.eqb_spec c LF) as [->|]; [|done]. injection Hstep as <- <-. by exists t.
  - destruct (Z.eqb_spec c CR) as [->|]; [|destruct (Z.eqb_spec c LF) as [->|]; [|done]];
      injection Hstep as <- <-; cbn [remaining].
    + intros (t' & -> & Hb). exists [], [CR; LF], body, t'. by split_and!; [..|right| |].
    + intros Hb. exists [], [LF], body, t. by split_and!; [..|left| |].
  - destruct (Z.eqb_spec c LF) as [->|]; [|done]. injection Hstep as <- <-. by exists t.
  - destruct (Z.eqb_spec c CR) as [->|]; [|destruct (Z.eqb_spec c LF) as [->|]];
      injection Hstep as <- <-; intros [-> Ht]; (split; [done|]);
      [by apply in_line_cr|by apply in_line_lf|by apply in_line_cons].
  - destruct (Z.eqb_spec c LF) as [->|]; [|done]. injection Hstep as <- <-.
    intros [-> Ht]. split; [done|]. by exists t.
  - destruct (Z.eqb_spec c CR) as [->|]; [|destruct (Z.eqb_spec c LF) as [->|]; [done|]];
      injection Hstep as <- <-; intros [-> Ht]; (split; [done|]).
    + subst t. exists [], [CR; LF]. by split_and!; [|constructor|right].
    + by apply trailer_part_line.
  - by destruct (c =? LF).
  - destruct (Z.eqb_spec c CR) as [->|]; [|destruct (Z.eqb_spec c LF) as [->|]];
      injection Hstep as <- <-; intros [-> Ht]; (split; [done|]);
      [by apply in_line_cr|by apply in_line_lf|by apply in_line_cons].
  - destruct (Z.eqb_spec c LF) as [->|]; [|done]. injection Hstep as <- <-.
    intros [-> Ht]. split; [done|]. by exists t.
Qed.

(** The last byte. *)
Lemma remaining_done c st size :
  st <> sw_chunk_data -> step 0 c (st, size) = Some (Exit (Done 0 size)) ->
  remaining st size [] [c].
Proof.
  intros Hst Hstep. destruct st; try done; cbn [step] in Hstep;
    unfold chunk_start_case, chunk_size_case, last_chunk_case, line_case, lf_case, after_data_case,
      trailer_case, trailer_almost_done_case in Hstep; repeat (case_match; try done);
    apply Z.eqb_eq in H || apply Z.eqb_eq in H0; subst; (split; [done|]); [|done].
  exists [], [LF]. by split_and!; [|constructor|left].
Qed.

Lemma remaining_entry st size : remaining (entry st size) size = remaining st size.
Proof. destruct st; try done. cbn [entry]. by destruct (Z.eqb_spec size 0) as [->|]. Qed.

(** What the parser takes for a body is one. *)
Lemma decode_sound st size input body rest :
  bytes_ok input -> chunk_ok st size -> decode st size input = (body, Finished rest) ->
  exists t, input = t ++ rest /\ remaining st size body t.
Proof.
  intros Hin. revert st size body. induction Hin as [|c input Hc Hin IH]; intros st size body Hok Hd; [done|].
  rewrite <- remaining_entry. destruct (decide (entry st size = sw_chunk_data)) as [He|He].
  - cbn [decode] in Hd. rewrite He in Hd.
    destruct (decode sw_chunk_data (size - 1) input) as [body' v] eqn:Hd'.
    injection Hd as <- ->. destruct Hok as [Hs _].
    assert (0 < size) as Hpos.
    { destruct st; cbn [entry] in He; try done. destruct (Z.eqb_spec size 0); [done|lia]. }
    apply IH in Hd' as (t & -> & data & nl & b & t' & -> & Hl & Hn & -> & Hb);
      [|apply chunk_ok_data; lia].
    exists (c :: data ++ nl ++ t'). split; [done|]. rewrite He. exists (c :: data), nl, b, t'.
    split_and!; try done. cbn [length]. lia.
  - rewrite decode_cons in Hd by done. pose proof (chunk_ok_entry _ _ Hok) as Hok'.
    destruct (step_cases 0 c (entry st size) size Hok' He) as [st' size' _ H0 Hs' Hmax Hda|_ H0|_ H0];
      rewrite H0 in Hd; [|injection Hd as <- <-|done].
    + destruct (size' >? max_size) eqn:Hbig; [done|].
      apply IH in Hd as (t & -> & Ht); [|split; [lia|intros; apply Hda; unfold data_state; tauto]].
      exists (c :: t). split; [done|]. by eapply remaining_step.
    + exists [c]. split; [done|]. by apply remaining_done.
Qed.

(** Every body is taken, and nothing after it. *)
Section Complete.
Variables (size : Z) (rest : list Z).
Hypothesis size_ok : 0 <= size <= max_size.

Lemma size_small : (size >? max_size) = false.
Proof. lia. Qed.

Lemma decode_next st c st' input :
  entry st size <> sw_chunk_data -> step 0 c (entry st size, size) = go st' size ->
  decode st size (c :: input) = decode st' size input.
Proof. intros He Hs. rewrite decode_cons, Hs by done. unfold go. by rewrite size_small. Qed.

Lemma decode_in_line st almost next (P : list Z -> Prop) t r :
  entry st size = st -> st <> sw_chunk_data -> entry almost size = almost -> almost <> sw_chunk_data ->
  (forall c, step 0 c (st, size) = line_case st almost next c size) ->
  (forall c, step 0 c (almost, size) = lf_case next c size) ->
  in_line P t -> (forall t', P t' -> decode next size (t' ++ rest) = r) ->
  decode st size (t ++ rest) = r.
Proof.
  intros He1 Hd1 He2 Hd2 Hs1 Hs2 (s & nl & t' & -> & Hs & Hn & Ht) Hp. apply Hp in Ht as <-.
  induction Hs as [|c s [Hcr Hlf] Hs IH]; cbn [app].
  - destruct Hn as [-> | ->]; cbn [app].
    + apply decode_next; rewrite He1; [done|]. by rewrite Hs1.
    + rewrite (decode_next st CR almost); rewrite ?He1; [|done|by rewrite Hs1].
      apply decode_next; rewrite He2; [done|]. by rewrite Hs2.
  - rewrite (decode_next st c st); rewrite ?He1; [exact IH|done|]. rewrite Hs1. unfold line_case.
    by rewrite (proj2 (Z.eqb_neq c CR) Hcr), (proj2 (Z.eqb_neq c LF) Hlf).
Qed.

Lemma decode_at_lf st next (P : list Z -> Prop) t r :
  entry st size = st -> st <> sw_chunk_data -> (forall c, step 0 c (st, size) = lf_case next c size) ->
  at_lf P t -> (forall t', P t' -> decode next size (t' ++ rest) = r) ->
  decode st size (t ++ rest) = r.
Proof.
  intros He Hd Hs (t' & -> & Ht) Hp. apply Hp in Ht as <-. cbn [app].
  apply decode_next; rewrite He; [done|]. by rewrite Hs.
Qed.

Lemma decode_trailer_part t :
  trailer_part t -> decode sw_trailer size (t ++ rest) = ([], Finished rest).
Proof.
  intros (lines & nl & -> & Hl & Hn). induction Hl as [|l lines (s & nl' & -> & Hne & Hs & Hn') Hl IH].
  - destruct Hn as [-> | ->]; cbn [concat app]; [by rewrite decode_cons|].
    rewrite (decode_next sw_trailer CR sw_trailer_almost_done) by done. by rewrite decode_cons.
  - cbn [concat]. destruct Hs as [|c s [Hcr Hlf] Hs]; [done|]. rewrite <- !app_assoc. cbn [app].
    rewrite (decode_next sw_trailer c sw_trailer_header); [|done|].
    2: { cbn [entry step]. unfold trailer_case.
         by rewrite (proj2 (Z.eqb_neq c CR) Hcr), (proj2 (Z.eqb_neq c LF) Hlf). }
    replace (s ++ nl' ++ concat lines ++ nl ++ rest) with ((s ++ nl' ++ concat lines ++ nl) ++ rest)
      by (by rewrite <- !app_assoc).
    rewrite <- app_assoc in IH.
    eapply (decode_in_line sw_trailer_header sw_trailer_header_almost_done sw_trailer (fun t' => t' = concat lines ++ nl));
      try done; [by exists s, nl', (concat lines ++ nl)|]. intros t' ->. by rewrite <- app_assoc.
Qed.

(** After the digits. *)
Lemma decode_after_size (P : list Z -> Prop) ext nl t' r :
  size <= max_chunk -> extension ext -> eol nl -> P t' ->
  (forall t', P t' -> decode (if size =? 0 then sw_trailer else sw_chunk_data) size (t' ++ rest) = r) ->
  decode sw_chunk_size size ((ext ++ nl ++ t') ++ rest) = r.
Proof.
  intros Hm He Hn Ha Hp. apply Hp in Ha as Hr.
  assert (size >? NGX_MAX_OFF_T_VALUE / 16 = false) as Hbig by (unfold max_chunk in Hm; lia).
  assert (forall c st', hex_value c = None ->
    (if size =? 0 then last_chunk_case c size
     else if c =? CR then go sw_chunk_extension_almost_done size
     else if c =? LF then go sw_chunk_data size
     else if (c =? ";"%ch) || (c =? " "%ch) || (c =? 9) then go sw_chunk_extension size
     else invalid size) = go st' size ->
    forall input, decode sw_chunk_size size (c :: input) = decode st' size input) as Hc.
  { intros c st' Hv Hgo input. apply decode_next; [done|]. cbn [entry step]. unfold chunk_size_case.
    by rewrite Hbig, Hv. }
  destruct He as [-> |(c & s & -> & Hsep & Hs)]; cbn [app].
  - destruct Hn as [-> | ->]; cbn [app]; destruct (Z.eqb_spec size 0) as [Hz|Hz].
    + rewrite (Hc LF sw_trailer); [exact Hr|done|]. by rewrite ?(proj2 (Z.eqb_eq size 0) Hz).
    + rewrite (Hc LF sw_chunk_data); [exact Hr|done|]. by rewrite ?(proj2 (Z.eqb_neq size 0) Hz).
    + rewrite (Hc CR sw_last_chunk_extension_almost_done); [|done|by rewrite ?(proj2 (Z.eqb_eq size 0) Hz)].
      rewrite (decode_next _ LF sw_trailer); [exact Hr|done..].
    + rewrite (Hc CR sw_chunk_extension_almost_done); [|done|by rewrite ?(proj2 (Z.eqb_neq size 0) Hz)].
      rewrite (decode_next _ LF sw_chunk_data); [exact Hr|done..].
  - assert (hex_value c = None /\ c =? CR = false /\ c =? LF = false
      /\ (c =? ";"%ch) || (c =? " "%ch) || (c =? 9) = true) as (Hv & H1 & H2 & H3)
      by (destruct Hsep as [-> |[-> | ->]]; done).
    assert (in_line P (s ++ nl ++ t')) as Hin by by exists s, nl, t'.
    destruct (Z.eqb_spec size 0) as [Hz|Hz].
    + rewrite (Hc c sw_last_chunk_extension); [|done|].
      2: { rewrite ?(proj2 (Z.eqb_eq size 0) Hz). unfold last_chunk_case. by rewrite H1, H2, H3. }
      eapply (decode_in_line _ sw_last_chunk_extension_almost_done sw_trailer); try done; exact Hp.
    + rewrite (Hc c sw_chunk_extension); [|done|].
      2: { rewrite ?(proj2 (Z.eqb_neq size 0) Hz). by rewrite H1, H2, H3. }
      eapply (decode_in_line _ sw_chunk_extension_almost_done sw_chunk_data); try done; exact Hp.
Qed.
End Complete.

(** The digits of a size. *)
Lemma decode_size size q input :
  0 <= size -> forallb is_hex q = true -> hex_from size q <= max_chunk ->
  decode sw_chunk_size size (q ++ input) = decode sw_chunk_size (hex_from size q) input
  /\ 0 <= hex_from size q <= max_size.
Proof.
  intros Hs Hq Hm. pose proof (hex_from_ge size q Hs Hq). change max_chunk with 576460752303423487 in Hm.
  assert (0 <= hex_from size q <= max_size) as H' by (unfold max_size, NGX_MAX_OFF_T_VALUE; lia).
  split; [|done]. apply decode_digits; [done|done|lia].
Qed.

(** The data of a chunk, and the end of the line. *)
Lemma decode_data_eol data nl t' body' rest :
  Z.of_nat (length data) <= max_size -> eol nl ->
  (forall size, 0 <= size <= max_size ->
     decode sw_chunk_start size (t' ++ rest) = (body', Finished rest)) ->
  decode sw_chunk_data (Z.of_nat (length data)) ((data ++ nl ++ t') ++ rest)
  = (data ++ body', Finished rest).
Proof.
  intros Hl Hn IH. rewrite <- app_assoc, decode_data, Z.sub_diag by lia.
  assert (decode sw_chunk_data 0 ((nl ++ t') ++ rest) = (body', Finished rest)) as ->; [|done].
  destruct Hn as [-> | ->]; cbn [app].
  - rewrite (decode_next 0 ltac:(done) sw_chunk_data LF sw_chunk_start) by done. by apply IH.
  - rewrite (decode_next 0 ltac:(done) sw_chunk_data CR sw_after_data_almost_done) by done.
    rewrite (decode_next 0 ltac:(done) sw_after_data_almost_done LF sw_chunk_start) by done. by apply IH.
Qed.

Lemma chunked_body_complete body t rest :
  chunked_body body t -> forall size, 0 <= size <= max_size ->
  decode sw_chunk_start size (t ++ rest) = (body, Finished rest).
Proof.
  assert (max_chunk <= max_size) as Hmax by done.
  induction 1 as [q ext nl t (Hne & Hq & Hv & Hm) He Hn Ht
                 |q ext nl data nl' body t (Hne & Hq & Hv & Hm) Hd He Hn Hn' Hb IH]; intros size Hs;
    rewrite <- app_assoc, decode_first by done.
  - destruct (decode_size 0 q ((ext ++ nl ++ t) ++ rest)) as [-> Hb]; [lia|done|lia|].
    rewrite Hv. apply (decode_after_size 0 rest ltac:(done) trailer_part); try done.
    intros t' Ht'. by apply decode_trailer_part.
  - destruct (decode_size 0 q ((ext ++ nl ++ data ++ nl' ++ t) ++ rest)) as [-> Hb']; [lia|done|lia|].
    rewrite Hv.
    apply (decode_after_size (Z.of_nat (length data)) rest ltac:(lia) (fun t' => t' = data ++ nl' ++ t)); try done.
    intros t' ->. assert (length data <> 0)%nat by by destruct data.
    test_false (Z.of_nat (length data) =? 0). apply decode_data_eol; [lia|done|exact IH].
Qed.

Lemma chunk_rest_complete size body t rest :
  0 <= size <= max_size -> chunk_rest size body t ->
  decode sw_chunk_data size (t ++ rest) = (body, Finished rest).
Proof.
  intros Hs (data & nl & body' & t' & -> & Hl & Hn & -> & Hb). rewrite <- Hl.
  apply decode_data_eol; [lia|done|]. intros sz Hsz. by apply chunked_body_complete.
Qed.

(** Whatever completes the coding is taken for that. *)
Lemma decode_complete st size body t rest :
  chunk_ok st size -> remaining st size body t ->
  decode st size (t ++ rest) = (body, Finished rest).
Proof.
  intros [Hs Hext] Ht. pose proof (fun t' => chunk_rest_complete size body t' rest Hs) as Hrest.
  pose proof (fun t' => decode_trailer_part size rest Hs t') as Htr.
  destruct st; cbn [remaining] in Ht.
  - by apply chunked_body_complete.
  - destruct Ht as (q & t' & -> & Hq & Hm & ext & nl & t0 & -> & He & Hn & Ha).
    destruct (decode_size size q ((ext ++ nl ++ t0) ++ rest)) as [Hd Hb]; [lia|done|lia|].
    rewrite <- app_assoc, Hd.
    apply (decode_after_size (hex_from size q) rest Hb (after_line (hex_from size q) body)); try done.
    intros t' Ht'. unfold after_line in Ht'. destruct (hex_from size q =? 0).
    + destruct Ht' as [-> Ht']. by apply decode_trailer_part.
    + by apply chunk_rest_complete.
  - by eapply (decode_in_line size rest Hs _ sw_chunk_extension_almost_done sw_chunk_data).
  - by eapply (decode_at_lf size rest Hs _ sw_chunk_data).
  - by apply Hrest.
  - destruct Ht as (data & nl & b & t' & -> & Hl & Hn & -> & Hb).
    destruct data; [|cbn in Hl; lia]. cbn [app].
    apply (chunked_body_complete _ _ rest) with (size := size) in Hb; [|done].
    destruct Hn as [-> | ->]; cbn [app].
    + by rewrite (decode_next size Hs sw_after_data LF sw_chunk_start).
    + rewrite (decode_next size Hs sw_after_data CR sw_after_data_almost_done) by done.
      by rewrite (decode_next size Hs sw_after_data_almost_done LF sw_chunk_start).
  - eapply (decode_at_lf size rest Hs _ sw_chunk_start); [done|done|done|exact Ht|].
    intros t' Hb. by apply chunked_body_complete.
  - destruct Ht as [-> Ht].
    by eapply (decode_in_line size rest Hs _ sw_last_chunk_extension_almost_done sw_trailer).
  - destruct Ht as [-> Ht]. by eapply (decode_at_lf size rest Hs _ sw_trailer).
  - destruct Ht as [-> Ht]. by apply Htr.
  - destruct Ht as [-> ->]. cbn [app]. by rewrite decode_cons.
  - destruct Ht as [-> Ht].
    by eapply (decode_in_line size rest Hs _ sw_trailer_header_almost_done sw_trailer).
  - destruct Ht as [-> Ht]. by eapply (decode_at_lf size rest Hs _ sw_trailer).
Qed.

(** Both ways: what is left of a body, and what the decoding takes. *)
Lemma rest_of_decode ctx body input :
  chunk_ok (c_state ctx) (c_size ctx) -> bytes_ok input ->
  rest_of ctx body input <-> decode_ctx ctx input = (body, Finished []).
Proof.
  intros Hok Hin. split.
  - intros Ht. rewrite <- (app_nil_r input). by apply decode_complete.
  - intros Hd. apply decode_sound in Hd as (t & Ht & Hr); [|done|done].
    rewrite app_nil_r in Ht. by subst.
Qed.

Lemma decode_no_body ctx input body t rest :
  chunk_ok (c_state ctx) (c_size ctx) -> (decode_ctx ctx input).2 = Malformed ->
  input = t ++ rest -> ~ rest_of ctx body t.
Proof.
  intros Hok Hd -> Ht. apply (decode_complete _ _ _ _ rest Hok) in Ht.
  unfold decode_ctx in Hd. by rewrite Ht in Hd.
Qed.

Lemma malformed_app ctx input more :
  (decode_ctx ctx input).2 = Malformed -> (decode_ctx ctx (input ++ more)).2 = Malformed.
Proof.
  unfold decode_ctx. rewrite decode_app. by destruct (decode _ _ input) as [body []].
Qed.

(** The grammar has a completion for every state, but for a size that is too large. *)
Lemma remaining_exists st size :
  chunk_ok st size -> st = sw_chunk_size /\ max_chunk < size \/
  exists body t, bytes_ok t /\ remaining st size body t.
Proof.
  intros [Hs _].
  assert (chunked_body [] (bs "0" ++ [] ++ [LF] ++ [LF])) as Hbody.
  { apply body_last; [by split_and!|by left|by left|]. exists [], [LF]. by split_and!; [|constructor|left]. }
  assert (trailer_part [LF]) as Htr by (exists [], [LF]; by split_and!; [|constructor|left]).
  assert (bytes_ok (bs "0" ++ [] ++ [LF] ++ [LF]) /\ is_u8 LF /\ is_u8 CR) as (Hb0 & Hlf & Hcr)
    by (split; [by apply bytes_ok_check|by vm_compute]).
  assert (forall n, exists body t, bytes_ok t /\ chunk_rest (Z.of_nat n) body t) as Hrest.
  { intros n. exists (replicate n 0 ++ []), (replicate n 0 ++ [LF] ++ (bs "0" ++ [] ++ [LF] ++ [LF])).
    split.
    - apply Forall_app_2; [apply Forall_replicate; by vm_compute|]. by constructor.
    - exists (replicate n 0), [LF], [], (bs "0" ++ [] ++ [LF] ++ [LF]).
      split_and!; [done|by rewrite length_replicate|by left|done|done]. }
  assert (forall n, 0 <= n -> exists body t, bytes_ok t /\ chunk_rest n body t) as Hrest'.
  { intros n Hn. rewrite <- (Z2Nat.id n) by done. apply Hrest. }
  assert (forall P : list Z -> Prop, forall t, P t -> in_line P (LF :: t)) as Hline by apply in_line_lf.
  destruct (Hrest' size ltac:(lia)) as (body & t & Ht & Hr).
  destruct st; cbn [remaining].
  - right. by exists [], (bs "0" ++ [] ++ [LF] ++ [LF]).
  - destruct (decide (max_chunk < size)); [by left|right].
    assert (exists body t, bytes_ok t /\ after_line size body t) as (b1 & t1 & Ht1 & H1).
    { unfold after_line. destruct (size =? 0); [|by eauto]. exists [], [LF]. by repeat constructor. }
    exists b1, (LF :: t1). split; [by constructor|]. apply remaining_size_end; [lia|].
    by apply after_size_lf.
  - right. exists body, (LF :: t). split; [by constructor|by apply Hline].
  - right. exists body, (LF :: t). split; [by constructor|by exists t].
  - right. by exists body, t.
  - right. by apply Hrest'.
  - right. exists [], (LF :: bs "0" ++ [] ++ [LF] ++ [LF]). split; [by constructor|by eexists].
  - right. exists [], [LF; LF]. split; [by repeat constructor|split; [done|by apply Hline]].
  - right. exists [], [LF; LF]. split; [by repeat constructor|split; [done|by exists [LF]]].
  - right. exists [], [LF]. by repeat constructor.
  - right. exists [], [LF]. by repeat constructor.
  - right. exists [], [LF; LF]. split; [by repeat constructor|split; [done|by apply Hline]].
  - right. exists [], [LF; LF]. split; [by repeat constructor|split; [done|by exists [LF]]].
Qed.

(** ** The parser *)

Lemma slice_bytes mem p e : bytes_ok mem -> bytes_ok (slice mem p e).
Proof. intros H. by apply Forall_take, Forall_drop. Qed.

(** A stretch that adds nothing to the body. *)
Lemma rest_of_same ctx ctx' input input' :
  chunk_ok (c_state ctx) (c_size ctx) -> chunk_ok (c_state ctx') (c_size ctx') ->
  bytes_ok input -> bytes_ok input' ->
  (forall more, decode_ctx ctx (input ++ more) = decode_ctx ctx' (input' ++ more)) ->
  forall body more, bytes_ok more ->
    rest_of ctx body (input ++ more) <-> rest_of ctx' body (input' ++ more).
Proof.
  intros H1 H2 Hi Hi' Hd body more Hm.
  rewrite !rest_of_decode by (done || by apply Forall_app_2). by rewrite Hd.
Qed.

(** C28: [ngx_http_parse_chunked] reads the chunked coding as the grammar has it, a stretch
    at a time: from a context in any state between calls, on any bytes, it returns within
    the buffer, and: with NGX_AGAIN the buffer is used up and adds nothing to the body, and
    what completes the coding after it is exactly what the new context waits for, of which
    there are at least [ctx->length] bytes, more than none, and there is something (unless
    the size read so far is too large, which the next byte will show); with NGX_OK the same
    holds of the bytes up to [b->pos], where the data of a chunk starts, of [ctx->size]
    bytes, at least one and without overflow; with NGX_DONE the bytes up to [b->pos] complete
    the coding; and with NGX_ERROR no bytes to come make the buffer the beginning of a coding,
    or of anything that begins with one. *)
Theorem ngx_http_parse_chunked_follows_grammar (mem : list Z) (b : ngx_buf_t)
    (ctx : ngx_http_chunked_t) (Hmem : bytes_ok mem)
    (Hok : chunk_ok (c_state ctx) (c_size ctx)) (Hb : (pos b <= last b <= length mem)%nat) :
  exists rc ctx' b', ngx_http_parse_chunked mem b ctx = Some (rc, ctx', b') /\ last b' = last b
    /\ let input := slice mem (pos b) (last b) in
       (rc = NGX_AGAIN /\ pos b' = last b /\ chunk_ok (c_state ctx') (c_size ctx')
        /\ (forall body more, bytes_ok more ->
              rest_of ctx body (input ++ more) <-> rest_of ctx' body more)
        /\ 0 < c_length ctx'
        /\ (forall body t, rest_of ctx' body t -> c_length ctx' <= Z.of_nat (length t))
        /\ (c_state ctx' = sw_chunk_size /\ max_chunk < c_size ctx'
            \/ exists body t, bytes_ok t /\ rest_of ctx' body t))
       \/ (rc = NGX_OK /\ c_state ctx' = sw_chunk_data /\ 0 < c_size ctx' <= max_size
           /\ (pos b <= pos b' < last b)%nat
           /\ forall body more, bytes_ok more ->
                rest_of ctx body (input ++ more)
                <-> rest_of ctx' body (slice mem (pos b') (last b) ++ more))
       \/ (rc = NGX_DONE /\ c_state ctx' = sw_chunk_start /\ (pos b < pos b' <= last b)%nat
           /\ rest_of ctx [] (slice mem (pos b) (pos b')))
       \/ (rc = NGX_ERROR
           /\ forall body t rest more, input ++ more = t ++ rest -> ~ rest_of ctx body t).
Proof.
  destruct (parse_chunked_parsed mem b ctx Hok Hb) as (rc & ctx' & b' & H & Hp).
  exists rc, ctx', b'. split; [done|]. pose proof (slice_bytes mem (pos b) (last b) Hmem) as Hin.
  destruct Hp as [st size Hd Hok' Hent|p size Hd Hs Hp|p ctx' Hd Hp Hst|ctx' b' Hd Hl]; cbn [last field_set].
  - split; [done|]. left. set (ctx' := {| c_state := st |}) in *.
    assert (forall more, decode_ctx ctx (slice mem (pos b) (last b) ++ more) = decode_ctx ctx' more) as Hc.
    { intros more. rewrite (decode_ctx_running ctx ctx' _ more []).
      - unfold prepend. by destruct (decode_ctx ctx' more).
      - unfold decode_ctx. rewrite Hd. unfold prepend. cbn. by rewrite Hent. }
    assert (forall body t, rest_of ctx' body t -> 0 < c_length ctx' <= Z.of_nat (length t)) as Hlen.
    { intros body t Ht.
      apply (decode_complete _ _ _ _ [] Hok') in Ht. rewrite app_nil_r in Ht.
      pose proof (ngx_http_parse_chunked_length mem b _ ctx ctx' Hok Hb H t body [] Ht) as Hl.
      cbn [length] in Hl. lia. }
    split_and!; [done|done|done| | | |by apply remaining_exists].
    + by apply (rest_of_same ctx ctx' _ []).
    + cbn [c_length ctx']. destruct Hok' as [Hs _]. unfold max_size, NGX_MAX_OFF_T_VALUE in Hs.
      destruct st; cbn [min_length]; repeat case_match; autorewrite with cint; lia.
    + intros body t Ht. by apply Hlen in Ht as [_ ?].
  - split; [done|]. right. left. set (ctx' := {| c_state := sw_chunk_data |}) in *.
    change (c_size ctx') with size. cbn [pos field_set]. split_and!; [done|done|lia..|].
    apply rest_of_same; [done|by apply chunk_ok_data; cbn; lia|done|by apply slice_bytes|].
    intros more. unfold decode_ctx. rewrite !decode_app, Hd. done.
  - split; [done|]. right. right. left. cbn [pos field_set]. split_and!; [done|done|lia..|].
    apply decode_sound in Hd as (t & Ht & Hr); [|done|done].
    rewrite (slice_app mem (pos b) p (last b)) in Ht by lia. apply app_inj_2 in Ht as [-> _]; [|done].
    exact Hr.
  - split; [done|]. right. right. right. split; [done|]. intros body t rest more Ht.
    eapply decode_no_body; [done| |exact Ht]. apply malformed_app. unfold decode_ctx. by rewrite Hd.
Qed.

Lemma ngx_http_parse_chunked_follows_grammar_witness :
  exists ctx' b', ngx_http_parse_chunked (bs "3" ++ [CR; LF] ++ bs "abc" ++ [CR]) {| pos := 6; last := 7 |}
      {| c_state := sw_chunk_data; c_size := 0; c_length := 4 |} = Some (NGX_AGAIN, ctx', b')
    /\ forall body more, bytes_ok more ->
         rest_of {| c_state := sw_chunk_data; c_size := 0; c_length := 4 |} body ([CR] ++ more)
         <-> at_lf (chunked_body body) more.
Proof.
  destruct (ngx_http_parse_chunked_follows_grammar (bs "3" ++ [CR; LF] ++ bs "abc" ++ [CR])
      {| pos := 6; last := 7 |} {| c_state := sw_chunk_data; c_size := 0; c_length := 4 |})
    as (rc & ctx' & b' & H & _ & Hcases).
  - by apply bytes_ok_check.
  - split; [vm_compute; intuition discriminate|by intros [?|?]].
  - vm_compute. lia.
  - exists ctx', b'. revert H. vm_compute (ngx_http_parse_chunked _ _ _). intros [= <- <- <-].
    split; [reflexivity|].
    destruct Hcases as [(_ & _ & _ & Hiff & _)|[(? & _)|[(? & _)|(? & _)]]]; [exact Hiff|done..].
Defined.

(** ** The filter of request bodies *)

(** What the filter answers to [input], from the state [f] of the call before. *)
Definition filter_answer (cf : conf) (f : filtered) (input : list Z) (rc : Z) (f' : filtered) : Prop :=
  (exists body t rest, rc = NGX_OK /\ input = t ++ rest /\ rest_of (f_chunked f) body t
     /\ f_body f' = f_body f ++ body /\ f_last_buf f' = true /\ f_rest f' = 0
     /\ f_length f' = f_length f + Z.of_nat (length body))
  \/ (exists body, rc = NGX_OK /\ f_body f' = f_body f ++ body /\ f_last_buf f' = f_last_buf f
     /\ f_length f' = f_length f + Z.of_nat (length body)
     /\ chunk_ok (c_state (f_chunked f')) (c_size (f_chunked f'))
     /\ forall whole more, bytes_ok more ->
          rest_of (f_chunked f) whole (input ++ more)
          <-> exists body', whole = body ++ body' /\ rest_of (f_chunked f') body' more)
  \/ (rc = NGX_HTTP_BAD_REQUEST /\ f_body f' = f_body f /\ f_last_buf f' = f_last_buf f
     /\ forall body t rest more, input ++ more = t ++ rest -> ~ rest_of (f_chunked f) body t)
  \/ (rc = NGX_HTTP_REQUEST_ENTITY_TOO_LARGE /\ f_body f' = f_body f /\ f_last_buf f' = f_last_buf f
     /\ client_max_body_size cf <> 0
     /\ forall body t rest more, input ++ more = t ++ rest -> rest_of (f_chunked f) body t ->
          client_max_body_size cf < f_length f + Z.of_nat (length body)).

Lemma stream_bytes chain :
  Forall (fun '(mem, b) => bytes_ok mem /\ (pos b <= last b <= length mem)%nat) chain ->
  bytes_ok (stream chain).
Proof.
  induction 1 as [|[mem b] chain [Hm _] _ IH]; [constructor|].
  apply Forall_app_2; [by apply slice_bytes|exact IH].
Qed.

(** C2: [ngx_http_request_body_chunked_filter] reads the body as the grammar has it.  For a
    chain of buffers that cuts the stream anywhere, from the first call or a state between
    calls, it returns, although it skips over the data of chunks and moves small chunks
    together in place, and: it ends the body, with [last_buf], exactly when the buffers
    complete the coding, and then has passed on all that the coding codes; it answers NGX_OK
    without an end when the body may go on, has passed on the data so far, and the context
    waits for exactly what completes the coding; it answers 400 only if no bytes to come make
    the stream begin with a coding, and 413 only if any coding that the stream may begin
    with is of a body larger than [client_max_body_size], and then passes on nothing of this
    call; and [content_length_n] is the length of the body and never over the limit.  (The
    body may end in the last buffer only: the caller stops then.) *)
Theorem ngx_http_request_body_chunked_filter_follows_grammar (cf : conf)
    (chain : list (list Z * ngx_buf_t)) (f f0 : filtered)
    (Hstart : f0 = chunked_filter_start cf f)
    (Hok : chunk_ok (c_state (f_chunked f0)) (c_size (f_chunked f0)))
    (Hbufs : Forall (fun '(mem, b) => bytes_ok mem /\ (pos b <= last b <= length mem)%nat) chain)
    (Hlen : 0 <= f_length f0 /\ f_length f0 + Z.of_nat (length (stream chain)) < 2 ^ 63)
    (Hlim : client_max_body_size cf <> 0 -> f_length f0 <= client_max_body_size cf)
    (Hopen : forall chain1 x chain2 body t rest, chain = chain1 ++ x :: chain2 ->
       rest_of (f_chunked f0) body t -> stream chain1 <> t ++ rest) :
  exists rc f', ngx_http_request_body_chunked_filter cf chain f = Some (rc, f')
    /\ (client_max_body_size cf <> 0 -> f_length f' <= client_max_body_size cf)
    /\ filter_answer cf f0 (stream chain) rc f'.
Proof.
  pose proof (stream_bytes _ Hbufs) as Hin.
  destruct (filter_chain_decode cf chain ([], false) f0) as (rc & out & f' & body & v & Hf & Hd & Hfb & Hfl & Hl & Hans);
    [done| |done|done| |].
  { eapply Forall_impl; [|exact Hbufs]. by intros [mem b] [_ ?]. }
  { intros chain1 x chain2 body rest Hc Hd.
    apply decode_sound in Hd as (t & Ht & Hr); [by eapply Hopen|  |done].
    apply stream_bytes. rewrite Hc in Hbufs. by apply Forall_app in Hbufs as [? _]. }
  unfold ngx_http_request_body_chunked_filter. rewrite <- Hstart, Hf. cbn [mbind option_bind].
  destruct Hans as [(-> & Ho & Hlen' & Hv)|[(-> & ->)|(-> & Hm & Hbig)]]; cbn [Z.eqb NGX_OK].
  - do 2 eexists. split; [reflexivity|]. split; [done|]. cbn [fst app] in Ho.
    destruct v as [st size|rest|]; [| |done].
    + right. left. destruct Hv as (Hlb & Hok' & Hv). exists body.
      cbn [f_body f_last_buf f_length f_chunked field_set]. rewrite Ho, Hfb, Hfl, Hlb, orb_false_r.
      split_and!; try done. intros whole more Hmore.
      rewrite !rest_of_decode by (done || by apply Forall_app_2).
      rewrite (decode_ctx_running _ (f_chunked f') _ _ body)
        by (rewrite Hd, Hv; unfold prepend; cbn; by rewrite app_nil_r).
      destruct (decode_ctx (f_chunked f') more) as [b2 v2] eqn:Hd2. unfold prepend. cbn [fst snd]. split.
      * intros [= <- ->]. exists b2. split; [done|]. by apply (rest_of_decode (f_chunked f') b2 more Hok' Hmore).
      * intros (b' & -> & Hr). apply rest_of_decode in Hr; [|done|done]. rewrite Hd2 in Hr.
        by injection Hr as -> ->.
    + left. destruct Hv as (Hlb & Hr). apply decode_sound in Hd as (t & Ht & Hrem); [|done|done].
      exists body, t, rest. cbn [f_body f_last_buf f_length f_rest field_set].
      rewrite Ho, Hfb, Hlb, orb_true_r. by split_and!.
  - do 2 eexists. split; [reflexivity|]. split; [done|]. right. right. left.
    split_and!; [done..|]. intros b t rest more Ht.
    eapply decode_no_body; [done| |exact Ht]. apply malformed_app. by rewrite Hd.
  - do 2 eexists. split; [reflexivity|]. split; [done|]. right. right. right.
    split_and!; [done..|]. intros b t rest more Ht Hr. apply (Hbig more b rest). rewrite Ht.
    by apply decode_complete.
Qed.

Lemma ngx_http_request_body_chunked_filter_follows_grammar_witness :
  let mem := bs "2" ++ [LF] ++ bs "ab" ++ [LF] ++ bs "1" ++ [CR; LF] ++ bs "c" ++ [LF]
             ++ bs "0" ++ [LF; LF] in
  let cf := {| client_max_body_size := 3; large_client_header_buffers_size := 1024 |} in
  exists f', ngx_http_request_body_chunked_filter cf
      [(mem, {| pos := 0; last := 3 |}); (mem, {| pos := 3; last := 13 |})] new_filtered
    = Some (NGX_OK, f') /\ chunked_body (bs "abc") mem /\ f_body f' = bs "abc" /\ f_length f' <= 3.
Proof.
  intros mem cf.
  destruct (ngx_http_request_body_chunked_filter_follows_grammar cf
      [(mem, {| pos := 0; last := 3 |}); (mem, {| pos := 3; last := 13 |})] new_filtered
      (chunked_filter_start cf new_filtered)) as (rc & f' & H & Hlim & Hans).
  - reflexivity.
  - split; [vm_compute; intuition discriminate|by intros [?|?]].
  - repeat apply List.Forall_cons; [split; [by apply bytes_ok_check|vm_compute; lia]..|apply List.Forall_nil].
  - vm_compute. intuition discriminate.
  - vm_compute. intuition discriminate.
  - intros chain1 x chain2 body t rest Hc Hr Hs.
    apply (decode_complete _ _ _ _ rest) in Hr; [|split; [vm_compute; intuition discriminate|by intros [?|?]]].
    rewrite <- Hs in Hr. clear Hs t.
    destruct chain1 as [|y [|z chain1]]; simplify_list_eq; [..|by destruct chain1];
      vm_compute in Hr; discriminate Hr.
  - exists f'. specialize (Hlim ltac:(vm_compute; discriminate)).
    revert H. vm_compute (ngx_http_request_body_chunked_filter _ _ _). intros [= <- <-].
    split; [reflexivity|].
    destruct Hans as [(body & t & rest & _ & Ht & Hr & Hb & _)|[(b & _ & _ & Hlb & _)|[(? & _)|(? & _)]]]; [|done..].
    cbn in Hb. subst body. change (rest_of _ _ _) with (chunked_body (bs "abc") t) in Hr.
    assert (t = mem) as ->; [|by split].
    apply (decode_complete sw_chunk_start 0 _ _ rest) in Hr; [|split; [vm_compute; intuition discriminate|by intros [?|?]]].
    rewrite <- Ht in Hr. vm_compute in Hr. injection Hr as <-. rewrite app_nil_r in Ht. by rewrite <- Ht.
Defined.
