(* ===== verification/ComplexUri.v ===== *)
(** * ComplexUri: [ngx_http_parse_complex_uri] of ngx_http_parse.c

    The normalization of a request URI: percent-decoding, merging of slashes,
    resolution of "." and ".." and the split into path, extension and
    arguments.  The output buffer [r->uri.data] is a list of its allocated
    length and [u] an offset into it; a write or read outside it, and a read
    outside the memory of the request, make the function [None]. *)

From S2P Require Import Prelude Scan Http.

Inductive state := sw_usual | sw_slash | sw_dot | sw_dot_dot | sw_quoted | sw_quoted_second.

#[export] Instance uri_state_eq_dec : EqDecision state.
Proof. solve_decision. Defined.

(** The locals, the output and the fields of the request. *)
Record locals := {
  st : state;
  quoted_state : state;
  decoded : Z;
  ch : Z;
  p : nat;
  u : Z;
  data : list Z;
  uri_ext : option Z;
  args_start : option nat;
  quoted_uri : bool;
  plus_in_uri : bool;
}.
#[export] Instance eta_locals : Eta locals := mk_eta (fun l =>
  Build_locals (st l) (quoted_state l) (decoded l) (ch l) (p l) (u l) (data l) (uri_ext l)
    (args_start l) (quoted_uri l) (plus_in_uri l)).

(** What an iteration ends in: another one, [goto done], [goto args], or
    [return NGX_HTTP_PARSE_INVALID_REQUEST]. *)
Inductive outcome := Loop (l : locals) | Done (l : locals) | Args (l : locals) | Invalid.

Section Loop.
Variable mem : list Z.
Variable merge_slashes : bool.

(** [*u++ = c]. *)
Definition put (c : Z) (l : locals) : option locals :=
  if (0 <=? u l) && (u l <? Z.of_nat (length (data l)))
  then Some (l <| data := <[Z.to_nat (u l) := c]> (data l) |> <| u := u l + 1 |>)
  else None.

(** [ch = *p++]. *)
Definition next (l : locals) : option locals :=
  c ← mem !! p l; Some (l <| ch := c |> <| p := (p l + 1)%nat |>).

(** [*u++ = ch; ch = *p++; break]. *)
Definition copy (l : locals) : option outcome :=
  l ← put (ch l) l; l ← next l; Some (Loop l).

(** [quoted_state = state; state = sw_quoted; ch = *p++; break]. *)
Definition quote (l : locals) : option outcome :=
  l ← next (l <| quoted_state := st l |> <| st := sw_quoted |>); Some (Loop l).

(** [case '+'] and [default]: the segment goes on. *)
Definition segment (l : locals) : option outcome :=
  let l := if ch l =? "+"%ch then l <| plus_in_uri := true |> else l in
  copy (l <| st := sw_usual |>).

Definition usual_case (l : locals) : option outcome :=
  if is_usual (ch l) then copy l
  else if ch l =? "/"%ch then copy (l <| uri_ext := None |> <| st := sw_slash |>)
  else if ch l =? "%"%ch then quote l
  else if ch l =? "?"%ch then Some (Args (l <| args_start := Some (p l) |>))
  else if ch l =? "#"%ch then Some (Done l)
  else if ch l =? "."%ch then copy (l <| uri_ext := Some (u l + 1) |>)
  else segment l.

Definition slash_case (l : locals) : option outcome :=
  if is_usual (ch l) then copy (l <| st := sw_usual |>)
  else if ch l =? "/"%ch then
    l ← (if negb merge_slashes then put (ch l) l else Some l);
    l ← next l; Some (Loop l)
  else if ch l =? "."%ch then copy (l <| st := sw_dot |>)
  else if ch l =? "%"%ch then quote l
  else if ch l =? "?"%ch then Some (Args (l <| args_start := Some (p l) |>))
  else if ch l =? "#"%ch then Some (Done l)
  else segment l.

Definition dot_case (l : locals) : option outcome :=
  if is_usual (ch l) then copy (l <| st := sw_usual |>)
  else if ch l =? "/"%ch then
    l ← next (l <| st := sw_slash |> <| u := u l - 1 |>); Some (Loop l)
  else if ch l =? "."%ch then copy (l <| st := sw_dot_dot |>)
  else if ch l =? "%"%ch then quote l
  else if ch l =? "?"%ch then
    Some (Args (l <| u := u l - 1 |> <| args_start := Some (p l) |>))
  else if ch l =? "#"%ch then Some (Done (l <| u := u l - 1 |>))
  else segment l.

(** [for ( ;; )] back to the previous slash, from [u]: the new [u], or
    [None] inside when [u < r->uri.data]. *)
Fixpoint back (fuel : nat) (data : list Z) (u : Z) : option (option Z) :=
  match fuel with
  | O => None
  | S fuel' =>
      if u <? 0 then Some None
      else
        c ← data !! Z.to_nat u;
        if c =? "/"%ch then Some (Some (u + 1)) else back fuel' data (u - 1)
  end.

(** [u -= 4; for ( ;; ) ...]; [None] inside for [return]. *)
Definition up (l : locals) : option (option locals) :=
  r ← back (S (length (data l))) (data l) (u l - 4);
  Some (u' ← r; Some (l <| u := u' |>)).

Definition dot_dot_case (l : locals) : option outcome :=
  if is_usual (ch l) then copy (l <| st := sw_usual |>)
  else if (ch l =? "/"%ch) || (ch l =? "?"%ch) || (ch l =? "#"%ch) then
    r ← up l;
    match r with
    | None => Some Invalid
    | Some l =>
        if ch l =? "?"%ch then Some (Args (l <| args_start := Some (p l) |>))
        else if ch l =? "#"%ch then Some (Done l)
        else l ← next (l <| st := sw_slash |>); Some (Loop l)
    end
  else if ch l =? "%"%ch then quote l
  else segment l.

Definition quoted_case (l : locals) : option outcome :=
  let l := l <| quoted_uri := true |> in
  match hex_value (ch l) with
  | Some v =>
      l ← next (l <| decoded := u8 v |> <| st := sw_quoted_second |>); Some (Loop l)
  | None => Some Invalid
  end.

Definition quoted_second_case (l : locals) : option outcome :=
  if (ch l >=? "0"%ch) && (ch l <=? "9"%ch) then
    let l := l <| ch := u8 (Z.shiftl (decoded l) 4 + (ch l - "0"%ch)) |> in
    if (ch l =? "%"%ch) || (ch l =? "#"%ch) then copy (l <| st := sw_usual |>)
    else if ch l =? 0 then Some Invalid
    else Some (Loop (l <| st := quoted_state l |>))
  else
    let c := u8 (Z.lor (ch l) 0x20) in
    if (c >=? "a"%ch) && (c <=? "f"%ch) then
      let l := l <| ch := u8 (Z.shiftl (decoded l) 4 + (c - "a"%ch) + 10) |> in
      if ch l =? "?"%ch then copy (l <| st := sw_usual |>)
      else
        let l := if ch l =? "+"%ch then l <| plus_in_uri := true |> else l in
        Some (Loop (l <| st := quoted_state l |>))
    else Some Invalid.

Definition iteration (l : locals) : option outcome :=
  match st l with
  | sw_usual => usual_case l
  | sw_slash => slash_case l
  | sw_dot => dot_case l
  | sw_dot_dot => dot_dot_case l
  | sw_quoted => quoted_case l
  | sw_quoted_second => quoted_second_case l
  end.

(** After the loop, when the input ran out. *)
Definition at_end (l : locals) : option outcome :=
  match st l with
  | sw_quoted | sw_quoted_second => Some Invalid
  | sw_dot => Some (Done (l <| u := u l - 1 |>))
  | sw_dot_dot => r ← up l; Some match r with None => Invalid | Some l => Done l end
  | _ => Some (Done l)
  end.

(** [while (p <= r->uri_end)]; the second hexadecimal digit of an escape is
    the only iteration that does not advance [p]. *)
Fixpoint loop (fuel : nat) (uri_end : nat) (l : locals) : option outcome :=
  match fuel with
  | O => None
  | S fuel' =>
      if (p l <=? uri_end)%nat then
        o ← iteration l;
        match o with
        | Loop l' => loop fuel' uri_end l'
        | _ => Some o
        end
      else at_end l
  end.

(** The loop at [args:]: the position after the first "#" in [p, uri_end). *)
Fixpoint find_fragment (n : nat) (p : nat) : option (option nat) :=
  match n with
  | O => Some None
  | S n' => c ← mem !! p; if c =? "#"%ch then Some (Some (S p)) else find_fragment n' (S p)
  end.
End Loop.

(** The fields of the request the function reads, and those it sets. *)
Record uri_in := { uri_start : nat; uri_end : nat; empty_path_in_uri : bool }.
Record uri_out := {
  uri : list Z;
  exten : option (Z * Z);             (** offset in [uri] and length *)
  args : option (nat * nat);          (** offset and length, when "#" follows *)
  o_args_start : option nat;
  o_quoted_uri : bool;
  o_plus_in_uri : bool;
}.

(** [r->uri.len = u - r->uri.data] and [r->exten]. *)
Definition result (l : locals) (args : option (nat * nat)) (args_start : option nat) : uri_out :=
  {| uri := take (Z.to_nat (u l)) (data l);
     exten := e ← uri_ext l; Some (e, u l - e);
     args := args; o_args_start := args_start; o_quoted_uri := quoted_uri l;
     o_plus_in_uri := plus_in_uri l |}.

(** [buffer] is [r->uri.data] as allocated; [q] and [pl] are the flags
    [r->quoted_uri] and [r->plus_in_uri] at the call. *)
Definition ngx_http_parse_complex_uri (mem : list Z) (merge_slashes : bool) (r : uri_in)
    (q pl : bool) (buffer : list Z) : option (Z * option uri_out) :=
  let l := {| st := sw_usual; quoted_state := sw_usual; decoded := 0; ch := 0;
              p := uri_start r; u := 0; data := buffer; uri_ext := None; args_start := None;
              quoted_uri := q; plus_in_uri := pl |} in
  l ← (if empty_path_in_uri r then put "/"%ch l else Some l);
  l ← next mem l;
  o ← loop mem merge_slashes (2 * (uri_end r - uri_start r) + 2) (uri_end r) l;
  match o with
  | Loop _ => None
  | Invalid => Some (error_code INVALID_REQUEST, None)
  | Done l => Some (NGX_OK, Some (result l None None))
  | Args l =>
      a ← args_start l;
      f ← find_fragment mem (uri_end r - p l) (p l);
      Some (NGX_OK, Some match f with
                         | Some p' => result l (Some (a, p' - 1 - a)%nat) None
                         | None => result l None (Some a)
                         end)
  end.

Definition complex_path (s : list Z) : option (list Z) :=
  r ← ngx_http_parse_complex_uri (s ++ [LF]) true
        {| uri_start := 0; uri_end := length s; empty_path_in_uri := false |}
        false false (repeat 0 (length s));
  o ← r.2; Some (uri o).

Example complex_uri_dots :
  complex_path (bs "/a//b/./%2e%2E/c%23.x/?y=/../z") = Some (bs "/a/c#.x/").
Proof. reflexivity. Qed.
Example complex_uri_root : complex_path (bs "/a/../..") = None.
Proof. reflexivity. Qed.

(** ** The path a URI names

    Decoding first, which stops at the first "?" or "#" that is not escaped;
    then the segments between slashes, resolved one after another. *)

Inductive path_end := EndPath | EndQuery (query : list Z) | EndFragment.

Fixpoint decode_path (s : list Z) : option (list Z * path_end) :=
  match s with
  | [] => Some ([], EndPath)
  | c :: s1 =>
      if c =? "?"%ch then Some ([], EndQuery s1)
      else if c =? "#"%ch then Some ([], EndFragment)
      else if c =? "%"%ch then
        match s1 with
        | h1 :: h2 :: s2 =>
            a ← hex_value h1; b ← hex_value h2;
            if a * 16 + b =? 0 then None
            else x ← decode_path s2; Some (a * 16 + b :: x.1, x.2)
        | _ => None
        end
      else x ← decode_path s1; Some (c :: x.1, x.2)
  end.

Definition dot : list Z := bs ".".
Definition dot_dot : list Z := bs "..".

(** The segments of a path, [cur] being the beginning of the first. *)
Fixpoint split_path (cur path : list Z) : list (list Z) :=
  match path with
  | [] => [cur]
  | c :: path' =>
      if c =? "/"%ch then cur :: split_path [] path' else split_path (cur ++ [c]) path'
  end.

(** The directory [stack], innermost segment first, after a segment that a
    slash ends. *)
Definition enter (merge : bool) (stack : list (list Z)) (seg : list Z)
    : option (list (list Z)) :=
  if decide (seg = dot) then Some stack
  else if decide (seg = dot_dot) then
    match stack with [] => None | _ :: stack' => Some stack' end
  else if decide (seg = []) then Some (if merge then stack else [] :: stack)
  else Some (seg :: stack).

(** After the last segment. *)
Definition finish (stack : list (list Z)) (seg : list Z) : option (list (list Z)) :=
  if decide (seg = dot) then Some ([] :: stack)
  else if decide (seg = dot_dot) then
    match stack with [] => None | _ :: stack' => Some ([] :: stack') end
  else Some (seg :: stack).

Fixpoint resolve (merge : bool) (stack : list (list Z)) (segs : list (list Z))
    : option (list (list Z)) :=
  match segs with
  | [] => Some stack
  | [seg] => finish stack seg
  | seg :: segs' => stack' ← enter merge stack seg; resolve merge stack' segs'
  end.

Definition render (stack : list (list Z)) : list Z := concat (map (cons "/"%ch) (rev stack)).

(** The normalized form of an absolute path; there is none above the root. *)
Definition normalize (merge : bool) (path : list Z) : option (list Z) :=
  match path with
  | c :: path' =>
      if c =? "/"%ch then render <$> resolve merge [] (split_path [] path') else None
  | [] => None
  end.

(** What stands before and after the last dot of a segment. *)
Fixpoint last_dot (seg : list Z) : option (list Z * list Z) :=
  match seg with
  | [] => None
  | c :: seg' =>
      match last_dot seg' with
      | Some (base, ext) => Some (c :: base, ext)
      | None => if c =? "."%ch then Some ([], seg') else None
      end
  end.

(** The extension: what follows the last dot, unless nothing but a dot or two precede it. *)
Definition extension (seg : list Z) : option (list Z) :=
  '(base, ext) ← last_dot seg;
  if decide (base = [] \/ base = dot \/ base = dot_dot) then None else Some ext.

(** The extension of a path, that of its last segment. *)
Definition path_extension (path : list Z) : option (list Z) :=
  seg ← list.last (split_path [] path); extension seg.

Example extension_cases :
  map path_extension
    [bs "/a.b/c.tar.gz"; bs "/a.b/c"; bs "/.profile"; bs "/...x"; bs "/a."]
  = [Some (bs "gz"); None; None; None; Some []].
Proof. reflexivity. Qed.

(** Whether an escape, and whether a "+" occur in the path. *)
Fixpoint has_escape (s : list Z) : bool :=
  match s with
  | [] => false
  | c :: s' =>
      if (c =? "?"%ch) || (c =? "#"%ch) then false else (c =? "%"%ch) || has_escape s'
  end.

Definition has_plus (path : list Z) : bool := existsb (fun c => c =? "+"%ch) path.

(** The same, byte after byte. *)
Fixpoint run (merge : bool) (stack : list (list Z)) (cur path : list Z)
    : option (list (list Z)) :=
  match path with
  | [] => finish stack cur
  | c :: path' =>
      if c =? "/"%ch then stack' ← enter merge stack cur; run merge stack' [] path'
      else run merge stack (cur ++ [c]) path'
  end.

Lemma split_path_cons cur path : exists seg segs, split_path cur path = seg :: segs.
Proof.
  revert cur. induction path as [|c path IH]; intros cur; cbn; [by eauto|].
  case_match; [by eauto|apply IH].
Qed.

Lemma run_resolve merge stack cur path :
  run merge stack cur path = resolve merge stack (split_path cur path).
Proof.
  revert stack cur. induction path as [|c path IH]; intros stack cur; [done|].
  cbn [run split_path]. destruct (c =? 47); [|apply IH].
  destruct (split_path_cons [] path) as (seg & segs & E).
  cbn [resolve]. rewrite E. rewrite <- E.
  destruct (enter merge stack cur) as [stack'|]; [|done]. cbn. apply IH.
Qed.

Lemma render_cons seg stack : render (seg :: stack) = render stack ++ "/"%ch :: seg.
Proof. unfold render. cbn. rewrite map_app, concat_app. cbn. by rewrite app_nil_r. Qed.

(** ** The loop against the path *)

(** The state after the bytes [cur] of a segment. *)
Definition cstate (cur : list Z) : state :=
  if decide (cur = []) then sw_slash
  else if decide (cur = dot) then sw_dot
  else if decide (cur = dot_dot) then sw_dot_dot
  else sw_usual.

(** Where the extension of the segment [cur] begins, when [u] is the end. *)
Definition ext_at (cur : list Z) (u : Z) : option Z :=
  e ← extension cur; Some (u - Z.of_nat (length e)).

Lemma last_dot_snoc seg c :
  last_dot (seg ++ [c])
  = if c =? "."%ch then Some (seg, []) else '(b, e) ← last_dot seg; Some (b, e ++ [c]).
Proof.
  induction seg as [|x seg IH]; cbn [app last_dot].
  - by case_match.
  - rewrite IH. case_match; [done|]. destruct (last_dot seg) as [[b e]|]; [done|].
    cbn [mbind option_bind]. by case_match.
Qed.

Lemma ext_at_cstate cur u : cstate cur <> sw_usual -> ext_at cur u = None.
Proof. unfold cstate. repeat case_decide; by subst. Qed.

Lemma extension_snoc cur c :
  extension (cur ++ [c])
  = if c =? "."%ch then (if decide (cstate cur = sw_usual) then Some [] else None)
    else e ← extension cur; Some (e ++ [c]).
Proof.
  unfold extension. rewrite last_dot_snoc. destruct (c =? 46).
  - cbn [mbind option_bind]. unfold cstate. by repeat case_decide; subst; try tauto.
  - destruct (last_dot cur) as [[b e]|]; [|done]. cbn [mbind option_bind]. by case_decide.
Qed.

Lemma ext_at_snoc cur c u :
  ext_at (cur ++ [c]) (u + 1)
  = if c =? "."%ch then (if decide (cstate cur = sw_usual) then Some (u + 1) else None)
    else ext_at cur u.
Proof.
  unfold ext_at. rewrite extension_snoc. destruct (c =? 46).
  - case_decide; [|done]. cbn. f_equal. lia.
  - destruct (extension cur) as [e|]; [|done]. cbn [mbind option_bind].
    rewrite length_app. cbn [length]. f_equal. lia.
Qed.

Definition no_slash (seg : list Z) : Prop := Forall (fun c => c <> "/"%ch) seg.

(** What is written of the output. *)
Record written (l : locals) (out : list Z) : Prop := {
  w_u : u l = Z.of_nat (length out);
  w_data : take (length out) (data l) = out;
  w_fits : (length out <= length (data l))%nat;
}.

Record in_path (l : locals) (stack : list (list Z)) (cur : list Z) : Prop := {
  ip_state : st l = cstate cur;
  ip_out : written l (render stack ++ "/"%ch :: cur);
  ip_stack : Forall no_slash stack;
  ip_cur : no_slash cur;
  ip_ext : uri_ext l = ext_at cur (u l);
}.

Lemma put_written l out c :
  written l out -> (length out < length (data l))%nat ->
  exists l', put c l = Some l' /\ written l' (out ++ [c])
    /\ l' = l <| data := <[length out := c]> (data l) |> <| u := u l + 1 |>.
Proof.
  intros [Hu Hd Hf] Hlen. unfold put. rewrite Hu, Nat2Z.id.
  test_true (0 <=? Z.of_nat (length out)). cbn [andb].
  replace (Z.of_nat (length out) <? Z.of_nat (length (data l))) with true by lia.
  eexists. split; [reflexivity|]. split; [|done].
  split; cbn [u data field_set].
  - rewrite length_app. cbn. lia.
  - rewrite length_app. cbn [length]. rewrite Nat.add_1_r.
    erewrite take_S_r by (apply list_lookup_insert_eq; lia).
    by rewrite take_insert_ge, Hd by lia.
  - rewrite length_app, length_insert. cbn. lia.
Qed.

Lemma back_slash fuel data A B n :
  take n data = A ++ "/"%ch :: B -> n = length (A ++ "/"%ch :: B) -> no_slash B ->
  (length B < fuel)%nat ->
  back fuel data (Z.of_nat n - 1) = Some (Some (Z.of_nat (length A) + 1)).
Proof.
  revert fuel data n. induction B as [|b B IH] using rev_ind; intros fuel data0 n Ht Hn HB Hf.
  - destruct fuel as [|fuel]; [lia|]. cbn [back].
    rewrite length_app in Hn. cbn in Hn. test_false (Z.of_nat n - 1 <? 0).
    replace (Z.to_nat (Z.of_nat n - 1)) with (length A) by lia.
    assert (data0 !! length A = Some 47) as ->.
    { rewrite <- (lookup_take_lt data0 n) by lia. rewrite Ht.
      rewrite lookup_app_r, Nat.sub_diag by lia. done. }
    cbn. do 2 f_equal. lia.
  - destruct fuel as [|fuel]; [lia|]. cbn [back].
    rewrite app_comm_cons, app_assoc in Ht, Hn.
    rewrite (length_app _ [b]) in Hn. cbn [length] in Hn.
    apply Forall_app in HB as [HB Hb]. rewrite length_app in Hf. cbn in Hf.
    set (X := A ++ 47 :: B) in *.
    test_false (Z.of_nat n - 1 <? 0).
    replace (Z.to_nat (Z.of_nat n - 1)) with (length X) by lia.
    assert (data0 !! length X = Some b) as ->.
    { rewrite <- (lookup_take_lt data0 n) by lia. rewrite Ht.
      rewrite lookup_app_r, Nat.sub_diag by lia. done. }
    cbn [mbind option_bind]. apply Forall_cons_1 in Hb as [Hb _]. rewrite (proj2 (Z.eqb_neq b 47) Hb).
    replace (Z.of_nat n - 1 - 1) with (Z.of_nat (length X) - 1) by lia.
    apply IH; [|done|done|lia].
    apply (f_equal (take (length X))) in Ht. rewrite take_take, take_app_length in Ht.
    by rewrite Nat.min_l in Ht by lia.
Qed.

Lemma written_back l A B : written l (A ++ B) -> written (l <| u := Z.of_nat (length A) |>) A.
Proof.
  intros [_ Hd Hf]. rewrite length_app in *. split; cbn [u data field_set]; [done| |lia].
  apply (f_equal (take (length A))) in Hd. rewrite take_take, take_app_length in Hd.
  by rewrite Nat.min_l in Hd by lia.
Qed.

Lemma up_spec l stack :
  written l (render stack ++ "/"%ch :: dot_dot) -> Forall no_slash stack ->
  match stack with
  | [] => up l = Some None
  | seg :: stack' =>
      exists l', up l = Some (Some l') /\ written l' (render stack' ++ ["/"%ch])
        /\ l' = l <| u := Z.of_nat (length (render stack')) + 1 |>
  end.
Proof.
  intros Hw Hns. pose proof Hw as [Hu Hd Hf]. unfold up. rewrite Hu.
  rewrite length_app in *. cbn [length dot_dot bs] in *.
  destruct stack as [|seg stack].
  { cbn [render rev map concat length Nat.add]. cbn [back].
    test_true (Z.of_nat 3 - 4 <? 0). done. }
  apply Forall_cons_1 in Hns as [Hseg Hns]. rewrite render_cons in *.
  replace (Z.of_nat (length (render stack ++ 47 :: seg) + 3) - 4)
    with (Z.of_nat (length (render stack ++ 47 :: seg)) - 1) by lia.
  rewrite (back_slash _ (data l) (render stack) seg); [|  |done|done|].
  - eexists. split; [reflexivity|]. split; [|done].
    rewrite (cons_middle 47 _ seg), <- !app_assoc in Hw.
    rewrite app_assoc in Hw. apply written_back in Hw.
    rewrite length_app in Hw. cbn [length] in Hw.
    by replace (Z.of_nat (length (render stack)) + 1)
      with (Z.of_nat (length (render stack) + 1)) by lia.
  - apply (f_equal (take (length (render stack ++ 47 :: seg)))) in Hd.
    rewrite take_take, take_app_length in Hd. rewrite Nat.min_l in Hd by lia. done.
  - revert Hf. rewrite length_app. cbn. lia.
Qed.

Section Refine.
Variable mem : list Z.
Variable merge : bool.
Variable ue : nat.
Hypothesis ue_ok : (ue < length mem)%nat.

Definition slice (s e : nat) : list Z := take (e - s) (drop s mem).

Lemma path_slice_cons s c : (s < ue)%nat -> mem !! s = Some c -> slice s ue = c :: slice (S s) ue.
Proof.
  intros Hs Hc. unfold slice. rewrite (drop_S _ _ _ Hc).
  by replace (ue - s)%nat with (S (ue - S s)) by lia.
Qed.

(** [s] is the byte [ch] and what follows up to [uri_end]. *)
Definition at_rest (l : locals) (s : list Z) : Prop :=
  match s with
  | [] => p l = S ue
  | c :: s' => (p l <= ue)%nat /\ ch l = c /\ s' = slice (p l) ue
  end.

Lemma next_rest l :
  (p l <= ue)%nat ->
  exists c, next mem l = Some (l <| ch := c |> <| p := (p l + 1)%nat |>)
    /\ at_rest (l <| ch := c |> <| p := (p l + 1)%nat |>) (slice (p l) ue).
Proof.
  intros Hp. destruct (lookup_lt_is_Some_2 mem (p l)) as [c Hc]; [lia|].
  exists c. unfold next. rewrite Hc. split; [done|].
  destruct (decide (p l = ue)) as [Heq|Hne].
  - unfold slice. rewrite Heq, Nat.sub_diag, take_0. cbn. lia.
  - rewrite (path_slice_cons (p l) c) by (done || lia). cbn. split_and!; [lia|done|].
    f_equal. lia.
Qed.

(** The same output and input; the state, the extension and [plus_in_uri] may differ. *)
Definition same_io (l l' : locals) : Prop :=
  u l' = u l /\ data l' = data l /\ p l' = p l /\ ch l' = ch l /\ quoted_uri l' = quoted_uri l.

Lemma copy_ok l out :
  written l out -> (length out < length (data l))%nat -> (p l <= ue)%nat ->
  exists l', copy mem l = Some (Loop l') /\ written l' (out ++ [ch l])
    /\ at_rest l' (slice (p l) ue) /\ length (data l') = length (data l)
    /\ st l' = st l /\ uri_ext l' = uri_ext l
    /\ u l' = u l + 1 /\ quoted_uri l' = quoted_uri l /\ plus_in_uri l' = plus_in_uri l.
Proof.
  intros Hw Hlen Hp. unfold copy.
  destruct (put_written l out (ch l) Hw Hlen) as (l1 & -> & Hw1 & Hl1).
  assert (p l1 = p l) as Hp1 by by rewrite Hl1.
  destruct (next_rest l1) as (c & Hn & Hr); [lia|]. rewrite Hp1 in Hn, Hr.
  cbn [mbind option_bind]. rewrite Hn. cbn [mbind option_bind].
  eexists. split; [reflexivity|]. destruct Hw1 as [? ? ?].
  split_and!; [by split|done| |by rewrite Hl1..].
  rewrite Hl1. cbn. apply length_insert.
Qed.

Lemma cstate_cases cur :
  match cstate cur with
  | sw_slash => cur = []
  | sw_dot => cur = dot
  | sw_dot_dot => cur = dot_dot
  | sw_usual => cur <> [] /\ cur <> dot /\ cur <> dot_dot
  | _ => False
  end.
Proof. unfold cstate. by repeat case_decide. Qed.

Lemma cstate_snoc cur c :
  cstate (cur ++ [c])
  = if c =? "."%ch then
      match cstate cur with
      | sw_slash => sw_dot
      | sw_dot => sw_dot_dot
      | _ => sw_usual
      end
    else sw_usual.
Proof.
  pose proof (cstate_cases cur) as Hc. destruct (Z.eqb_spec c 46) as [->|Hne].
  - destruct (cstate cur); try contradiction Hc.
    + destruct Hc as (? & ? & ?). unfold cstate.
      rewrite !decide_False; [done| | |].
      * intros E. change dot_dot with (dot ++ [46]) in E. by apply app_inj_tail in E as [? _].
      * intros E. change dot with ([] ++ [46]) in E. by apply app_inj_tail in E as [? _].
      * by destruct cur.
    + by subst.
    + by subst.
    + by subst.
  - unfold cstate. rewrite !decide_False; [done| | |].
    + intros E. change dot_dot with (dot ++ [46]) in E. by apply app_inj_tail in E as [_ [= ?]].
    + intros E. change dot with ([] ++ [46]) in E. by apply app_inj_tail in E as [_ [= ?]].
    + by destruct cur.
Qed.

Lemma not_usual c : is_u8 c ->
  c = "/"%ch \/ c = "."%ch \/ c = "%"%ch \/ c = "?"%ch \/ c = "#"%ch -> is_usual c = false.
Proof. intros Hc H. rewrite is_usual_spec by done. lia. Qed.

(** A byte that is not a slash goes to the output and to the segment. *)
Lemma byte_copied l stack cur :
  in_path l stack cur -> is_u8 (ch l) ->
  ch l <> "/"%ch -> ch l <> "%"%ch -> ch l <> "?"%ch -> ch l <> "#"%ch ->
  exists l1, iteration mem merge l = copy mem l1 /\ same_io l l1
    /\ st l1 = cstate (cur ++ [ch l])
    /\ uri_ext l1 = ext_at (cur ++ [ch l]) (u l + 1)
    /\ plus_in_uri l1 = plus_in_uri l || (ch l =? "+"%ch).
Proof.
  intros [Hst Hout Hss Hcs Hext] Hu8 Hsl Hpc Hq Hh.
  rewrite cstate_snoc, ext_at_snoc. unfold iteration. rewrite Hst.
  assert (is_usual (ch l) = true -> ch l =? 43 = false) as Hplus
    by (rewrite is_usual_spec by done; lia).
  assert (ch l = "."%ch -> is_usual (ch l) = false) as Hdot
    by (intros ->; by rewrite is_usual_spec).
  assert (cstate cur <> sw_usual -> uri_ext l = None) as Hnone
    by (intros; rewrite Hext; by apply ext_at_cstate).
  pose proof (cstate_cases cur) as Hc.
  destruct (cstate cur) eqn:Ecs; try contradiction Hc;
    unfold usual_case, slash_case, dot_case, dot_dot_case, segment;
    rewrite ?(proj2 (Z.eqb_neq (ch l) 47) Hsl), ?(proj2 (Z.eqb_neq (ch l) 37) Hpc),
      ?(proj2 (Z.eqb_neq (ch l) 63) Hq), ?(proj2 (Z.eqb_neq (ch l) 35) Hh); cbn [orb];
    destruct (Z.eqb_spec (ch l) 46) as [E|E]; rewrite ?Hdot by done;
    repeat case_match;
    (eexists; split; [reflexivity|]; split; [done|]; split; [done|]);
    cbn [uri_ext plus_in_uri field_set]; (split; [first [done|exact Hext|by apply Hnone]|]); 
    first [by rewrite orb_false_r|by rewrite orb_true_r|by rewrite E, orb_false_r
          |by rewrite (Hplus eq_refl), orb_false_r].
Qed.

Definition out_length (stack : list (list Z)) (cur : list Z) : nat :=
  length (render stack ++ "/"%ch :: cur).

(** One byte moved the loop from [l] to the directory [stack'] and [cur']. *)
Definition moves (l : locals) (stack : list (list Z)) (cur : list Z)
    (stack' : list (list Z)) (cur' : list Z) : Prop :=
  exists l', iteration mem merge l = Some (Loop l') /\ in_path l' stack' cur'
    /\ at_rest l' (slice (p l) ue) /\ length (data l') = length (data l)
    /\ (out_length stack' cur' <= S (out_length stack cur))%nat
    /\ quoted_uri l' = quoted_uri l /\ plus_in_uri l' = plus_in_uri l || (ch l =? "+"%ch).

Lemma other_byte l stack cur :
  in_path l stack cur -> is_u8 (ch l) ->
  ch l <> "/"%ch -> ch l <> "%"%ch -> ch l <> "?"%ch -> ch l <> "#"%ch ->
  (p l <= ue)%nat -> (out_length stack cur < length (data l))%nat ->
  moves l stack cur stack (cur ++ [ch l]).
Proof.
  intros Hin Hu8 Hsl Hpc Hq Hh Hp Hlen.
  destruct (byte_copied l stack cur Hin Hu8 Hsl Hpc Hq Hh)
    as (l1 & Hit & (Hu1 & Hd1 & Hp1 & Hc1 & Hq1) & Hst1 & Hext1 & Hpl1).
  destruct Hin as [Hst [Hu Hd Hf] Hss Hcs Hext]. fold (out_length stack cur) in *.
  destruct (copy_ok l1 (render stack ++ "/"%ch :: cur))
    as (l' & Hcp & Hw & Hr & Hl & Hst' & Hext' & Hu' & Hq' & Hpl').
  { split; [by rewrite Hu1, Hu|by rewrite Hd1|by rewrite Hd1]. }
  { fold (out_length stack cur). by rewrite Hd1. }
  { lia. }
  exists l'. rewrite Hit, Hcp. rewrite Hp1, Hd1 in *. rewrite <- app_assoc, Hc1 in Hw.
  split_and!; [done| |done|done| |congruence|congruence].
  - split; [congruence|exact Hw|done|by apply Forall_app_2, Forall_singleton|].
    by rewrite Hext', Hext1, Hu', Hu1.
  - unfold out_length. rewrite !length_app. cbn [length]. rewrite length_app. cbn. lia.
Qed.

(** A slash enters the segment. *)
Lemma slash_byte l stack cur :
  in_path l stack cur -> ch l = "/"%ch ->
  (p l <= ue)%nat -> (out_length stack cur < length (data l))%nat ->
  match enter merge stack cur with
  | None => iteration mem merge l = Some Invalid
  | Some stack' => moves l stack cur stack' []
  end.
Proof.
  intros [Hst Hw Hss Hcs Hext] Hch Hp Hlen.
  assert (is_usual (ch l) = false) as Hus by by rewrite Hch.
  assert (cstate cur <> sw_usual -> uri_ext l = None) as Hnone
    by (intros; rewrite Hext; by apply ext_at_cstate).
  pose proof (cstate_cases cur) as Hc. unfold moves, iteration, enter. rewrite Hst.
  destruct (cstate cur) eqn:Ecs; try contradiction Hc.
  - destruct Hc as (H1 & H2 & H3). rewrite !decide_False by done.
    unfold usual_case. rewrite Hus, Hch. cbn [Z.eqb Pos.eqb].
    destruct (copy_ok (l <| uri_ext := None |> <| st := sw_slash |>)
                (render stack ++ "/"%ch :: cur))
      as (l' & Hcp & Hw' & Hr & Hl & Hst' & Hext' & Hu' & Hq' & Hpl'); [by destruct Hw; split|done|done|].
    exists l'. split_and!; [done| |done|done| |done|by rewrite Hpl', ?Hch, orb_false_r].
    + split; [done| |by constructor|by constructor|by rewrite Hext'].
      rewrite render_cons. cbn in Hw'. by rewrite Hch in Hw'.
    + unfold out_length. rewrite render_cons, !length_app. cbn [length]. lia.
  - subst cur. rewrite decide_False, decide_False, decide_True by done.
    unfold slash_case. rewrite Hus, Hch. cbn [Z.eqb Pos.eqb].
    destruct merge; cbn [negb].
    + destruct (next_rest l Hp) as (c & Hn & Hr). cbn [mbind option_bind]. rewrite Hn.
      cbn [mbind option_bind]. eexists. split; [reflexivity|].
      split_and!; [|done|done|lia|done|by rewrite ?Hch, orb_false_r].
      split; [done|by destruct Hw; split|done|by constructor|]. by apply Hnone.
    + destruct (copy_ok l (render stack ++ ["/"%ch])) as (l' & Hcp & Hw' & Hr & Hl & Hst' & Hext' & Hu' & Hq' & Hpl');
        [done|done|done|].
      unfold copy in Hcp. rewrite Hch in Hcp, Hw'. exists l'. split_and!; [done| |done|done| |done|by rewrite Hpl', ?Hch, orb_false_r].
      * split; [by rewrite Hst', Hst| |by repeat constructor|done|].
        { by rewrite render_cons. }
        { rewrite Hext'. by apply Hnone. }
      * unfold out_length. rewrite render_cons, !length_app. cbn [length]. lia.
  - subst cur. rewrite decide_True by done. unfold dot_case. rewrite Hus, Hch.
    cbn [Z.eqb Pos.eqb].
    destruct (next_rest (l <| st := sw_slash |> <| u := u l - 1 |>)) as (c & Hn & Hr);
      [exact Hp|].
    rewrite Hn. cbn [mbind option_bind]. eexists. split; [reflexivity|].
    split_and!; [|done|done|unfold out_length; rewrite !length_app; cbn [length]; lia
                |done|by rewrite ?Hch, orb_false_r].
    split; [done| |done|by constructor|by apply Hnone].
    change (render stack ++ "/"%ch :: dot) with (render stack ++ ["/"%ch] ++ dot) in Hw.
    rewrite app_assoc in Hw. pose proof (w_u _ _ Hw) as Hu. apply written_back in Hw.
    destruct Hw as [Hu' ? ?]. split; cbn [u data field_set] in *; [|done|done].
    rewrite Hu. rewrite (length_app _ dot). cbn [length dot bs]. lia.
  - subst cur. rewrite decide_False, decide_True by done. unfold dot_dot_case.
    rewrite Hus, Hch. cbn [Z.eqb Pos.eqb orb]. pose proof (up_spec l stack Hw Hss) as Hup.
    destruct stack as [|seg stack].
    { rewrite Hup. done. }
    destruct Hup as (l1 & -> & Hw1 & Hl1). cbn [mbind option_bind].
    assert (ch l1 = ch l /\ p l1 = p l /\ uri_ext l1 = uri_ext l /\ data l1 = data l
      /\ quoted_uri l1 = quoted_uri l /\ plus_in_uri l1 = plus_in_uri l)
      as (Hch1 & Hp1 & Hext1 & Hd1 & Hq1 & Hpl1) by by rewrite Hl1.
    rewrite Hch1, Hch. cbn [Z.eqb Pos.eqb].
    destruct (next_rest (l1 <| st := sw_slash |>)) as (c & Hn & Hr); [cbn; lia|].
    rewrite Hn. cbn [mbind option_bind]. eexists. split; [reflexivity|].
    split_and!; [|rewrite <- Hp1; exact Hr|cbn; by rewrite Hd1|
      unfold out_length; rewrite render_cons, !length_app; cbn [length]; lia
      |done|cbn; by rewrite Hpl1, ?Hch, orb_false_r].
    apply Forall_cons_1 in Hss as [_ Hss].
    split; [done|by destruct Hw1; split|done|by constructor|cbn; rewrite Hext1; by apply Hnone].
Qed.

Lemma one_byte l stack cur :
  in_path l stack cur -> is_u8 (ch l) ->
  ch l <> "%"%ch -> ch l <> "?"%ch -> ch l <> "#"%ch ->
  (p l <= ue)%nat -> (out_length stack cur < length (data l))%nat ->
  match (if ch l =? "/"%ch then stack' ← enter merge stack cur; Some (stack', [])
         else Some (stack, cur ++ [ch l])) with
  | None => iteration mem merge l = Some Invalid
  | Some (stack', cur') => moves l stack cur stack' cur'
  end.
Proof.
  intros Hin Hu8 Hpc Hq Hh Hp Hlen. destruct (Z.eqb_spec (ch l) 47) as [E|E].
  - pose proof (slash_byte l stack cur Hin E Hp Hlen) as H.
    by destruct (enter merge stack cur).
  - by apply other_byte.
Qed.

(** The output at the end of the path, and the extension of its last segment. *)
Definition final (l : locals) (stack : list (list Z)) : Prop :=
  written l (render stack) /\ Forall no_slash stack
  /\ exists seg stack', stack = seg :: stack' /\ uri_ext l = ext_at seg (u l).

Lemma finish_written l stack cur :
  in_path l stack cur ->
  match finish stack cur with
  | None => cstate cur = sw_dot_dot /\ up l = Some None
  | Some stack' =>
      exists l', final l' stack' /\ p l' = p l /\ ch l' = ch l
        /\ quoted_uri l' = quoted_uri l /\ plus_in_uri l' = plus_in_uri l
        /\ match cstate cur with
           | sw_dot => l' = l <| u := u l - 1 |>
           | sw_dot_dot => up l = Some (Some l')
           | _ => l' = l
           end
  end.
Proof.
  intros [Hst Hw Hss Hcs Hext].
  assert (cstate cur <> sw_usual -> uri_ext l = None) as Hnone
    by (intros; rewrite Hext; by apply ext_at_cstate).
  pose proof (cstate_cases cur) as Hc. unfold finish.
  assert (forall stack' x, Forall no_slash stack' -> uri_ext x = None -> written x (render ([] :: stack')) ->
    final x ([] :: stack')) as Hfin.
  { intros stack' x Hs Hx Hwx. split_and!; [done|by repeat constructor|by exists [], stack']. }
  destruct (cstate cur) eqn:Ecs; try contradiction Hc.
  - destruct Hc as (H1 & H2 & H3). rewrite !decide_False by done.
    exists l. split_and!; try done. split_and!; [by rewrite render_cons|by constructor|].
    by exists cur, stack.
  - subst cur. rewrite !decide_False by done. exists l. split_and!; try done.
    apply Hfin; [done|by apply Hnone|by rewrite render_cons].
  - subst cur. rewrite decide_True by done.
    exists (l <| u := u l - 1 |>). split_and!; [|done..].
    apply Hfin; [done|by apply Hnone|]. rewrite render_cons.
    change (render stack ++ "/"%ch :: dot) with (render stack ++ ["/"%ch] ++ dot) in Hw.
    rewrite app_assoc in Hw. pose proof (w_u _ _ Hw) as Hu. apply written_back in Hw.
    destruct Hw as [Hu' ? ?]. split; cbn [u data field_set] in *; [|done|done].
    rewrite Hu. rewrite (length_app _ dot). cbn [length dot bs]. lia.
  - subst cur. rewrite decide_False, decide_True by done.
    pose proof (up_spec l stack Hw Hss) as Hup. destruct stack as [|seg stack]; [done|].
    destruct Hup as (l1 & Hl & Hw1 & Hl1). exists l1. apply Forall_cons_1 in Hss as [_ Hss].
    split_and!; [|by rewrite Hl1..|done].
    apply Hfin; [done|rewrite Hl1; by apply Hnone|by rewrite render_cons].
Qed.

(** What the loop returns for the rest [s] of the URI, with the flags [q] and [pl] so far. *)
Definition outcome_ok (q pl : bool) (stack : list (list Z)) (cur s : list Z) (o : outcome) : Prop :=
  match (x ← decode_path s; stack' ← run merge stack cur x.1; Some (x.1, stack', x.2)) with
  | None => o = Invalid
  | Some (path, stack', e) =>
      exists l', final l' stack' /\ quoted_uri l' = q || has_escape s
        /\ plus_in_uri l' = pl || has_plus path /\
        match e with
        | EndQuery query =>
            o = Args l' /\ args_start l' = Some (p l') /\ (p l' <= ue)%nat
            /\ query = slice (p l') ue
        | _ => o = Done l'
        end
  end.

Lemma end_ok l stack cur :
  in_path l stack cur ->
  exists o, at_end l = Some o /\ outcome_ok (quoted_uri l) (plus_in_uri l) stack cur [] o.
Proof.
  intros Hin. pose proof (finish_written l stack cur Hin) as Hf.
  unfold at_end, outcome_ok. rewrite (ip_state _ _ _ Hin).
  pose proof (cstate_cases cur) as Hc.
  cbn [decode_path mbind option_bind fst snd run has_escape].
  rewrite !orb_false_r. destruct (finish stack cur) as [stack'|]; cbn [mbind option_bind].
  - destruct Hf as (l' & Hfin & Hp & Hch & Hq & Hpl & Hl'). 
    destruct (cstate cur); try contradiction Hc; rewrite ?Hl'; cbn [mbind option_bind];
      (eexists; split; [reflexivity|]); exists l'; (split; [done|]); (split; [done|]);
      (split; [by rewrite orb_false_r|]); by rewrite ?Hl'.
  - destruct Hf as [-> ->]. by eexists.
Qed.

Lemma stop_ok l stack cur s :
  in_path l stack cur -> at_rest l s ->
  forall c s', s = c :: s' -> c = "?"%ch \/ c = "#"%ch ->
  exists o, iteration mem merge l = Some o /\ (forall l', o <> Loop l')
    /\ outcome_ok (quoted_uri l) (plus_in_uri l) stack cur s o.
Proof.
  intros Hin Hr c s' -> Hc. destruct Hr as (Hp & Hch & Hs').
  pose proof (finish_written l stack cur Hin) as Hf.
  assert (is_usual (ch l) = false) as Hus by (rewrite Hch; by destruct Hc as [-> | ->]).
  unfold iteration, outcome_ok. rewrite (ip_state _ _ _ Hin).
  pose proof (cstate_cases cur) as Hcs.
  assert (decode_path (c :: s') = Some ([], if c =? "?"%ch then EndQuery s' else EndFragment))
    as -> by (by destruct Hc as [-> | ->]).
  assert (has_escape (c :: s') = false) as -> by (by destruct Hc as [-> | ->]).
  cbn [mbind option_bind fst snd run].
  destruct (finish stack cur) as [stack'|]; cbn [mbind option_bind].
  - destruct Hf as (l' & [Hw He] & Hp' & Hch' & Hq & Hpl & Hl').
    destruct Hc as [-> | ->]; cbn [Z.eqb Pos.eqb]; destruct (cstate cur);
      try contradiction Hcs; unfold usual_case, slash_case, dot_case, dot_dot_case;
      rewrite Hus, ?Hl'; cbn [mbind option_bind]; rewrite ?Hch', Hch;
      cbn [Z.eqb Pos.eqb orb]; (eexists; split; [reflexivity|]; split; [done|]).
    1-4: exists (l' <| args_start := Some (p l') |>); (split; [by split; [destruct Hw; split|]|]);
      cbn [quoted_uri plus_in_uri field_set p args_start]; rewrite Hq, Hpl, !orb_false_r;
      (split; [done|]); (split; [done|]); subst; cbn; rewrite ?Hp'; by split_and!.
    all: exists l'; rewrite Hq, Hpl, !orb_false_r; (split; [by split|]);
      (split; [done|]); (split; [done|]); by subst.
  - destruct Hf as [-> Hup].
    destruct Hc as [-> | ->]; unfold dot_dot_case; rewrite Hus, Hch, Hup;
      cbn [Z.eqb Pos.eqb orb mbind option_bind]; by eexists.
Qed.

Fixpoint path_length (s : list Z) : nat :=
  match s with
  | [] => O
  | c :: s' => if (c =? "?"%ch) || (c =? "#"%ch) then O else S (path_length s')
  end.

(** A byte of the path, raw or escaped, and the rest. *)
Lemma outcome_byte q pl q' pl' stack cur v s s2 o :
  decode_path s = (x ← decode_path s2; Some (v :: x.1, x.2)) ->
  q' || has_escape s2 = q || has_escape s -> pl' = pl || (v =? "+"%ch) ->
  match (if v =? "/"%ch then stack' ← enter merge stack cur; Some (stack', [])
         else Some (stack, cur ++ [v])) with
  | None => o = Invalid
  | Some (stack', cur') => outcome_ok q' pl' stack' cur' s2 o
  end ->
  outcome_ok q pl stack cur s o.
Proof.
  unfold outcome_ok. intros -> <- ->.
  destruct (decode_path s2) as [[path e]|]; cbn [mbind option_bind fst snd].
  - assert (pl || has_plus (v :: path) = pl || (v =? 43) || has_plus path) as Hp
      by apply orb_assoc.
    cbn [run]. destruct (v =? 47).
    + destruct (enter merge stack cur); [|done]. cbn [mbind option_bind].
      destruct (run merge _ _ path); [|done]. cbn [mbind option_bind]. by rewrite Hp.
    + destruct (run merge _ _ path); [|done]. cbn [mbind option_bind]. by rewrite Hp.
  - destruct (v =? 47); [|done]. by destruct (enter merge stack cur).
Qed.

Lemma quote_iteration l stack cur :
  in_path l stack cur -> ch l = "%"%ch -> iteration mem merge l = quote mem l.
Proof.
  intros Hin Hch. unfold iteration. rewrite (ip_state _ _ _ Hin).
  pose proof (cstate_cases cur) as Hcs. assert (is_usual (ch l) = false) as Hus by by rewrite Hch.
  destruct (cstate cur); try contradiction Hcs;
    unfold usual_case, slash_case, dot_case, dot_dot_case; by rewrite Hus, Hch.
Qed.

Definition is_literal (v : Z) : bool := (v =? "%"%ch) || (v =? "#"%ch) || (v =? "?"%ch).

(** The second digit of an escape: the byte [v] is taken as it is, refused, or
    put in the place of the escape. *)
Lemma quoted_second_spec l a :
  decoded l = a -> 0 <= a < 16 -> is_u8 (ch l) ->
  match hex_value (ch l) with
  | None => quoted_second_case mem l = Some Invalid
  | Some b =>
      let v := a * 16 + b in
      is_u8 v /\
      if is_literal v then
        quoted_second_case mem l = copy mem (l <| ch := v |> <| st := sw_usual |>)
      else if v =? 0 then quoted_second_case mem l = Some Invalid
      else exists l', quoted_second_case mem l = Some (Loop l') /\ ch l' = v
             /\ st l' = quoted_state l /\ u l' = u l /\ data l' = data l /\ p l' = p l
             /\ uri_ext l' = uri_ext l /\ quoted_uri l' = quoted_uri l
             /\ plus_in_uri l' || (v =? "+"%ch) = plus_in_uri l || (v =? "+"%ch)
  end.
Proof.
  intros Hd Ha Hu8. unfold quoted_second_case. rewrite Hd.
  assert (forall b, 0 <= b < 16 -> u8 (Z.shiftl a 4 + b) = a * 16 + b) as Hv.
  { intros b Hb. rewrite shiftl_mul by lia. apply u8_small. lia. }
  destruct ((ch l >=? 48) && (ch l <=? 57)) eqn:Hdig.
  - assert (hex_value (ch l) = Some (ch l - 48)) as -> by (unfold hex_value; by rewrite Hdig).
    rewrite Hv by lia. cbv zeta. cbn [ch field_set].
    split; [unfold is_u8; lia|].
    unfold is_literal. destruct (Z.eqb_spec (a * 16 + (ch l - 48)) 63); [lia|].
    rewrite orb_false_r. case_match; [done|].
    destruct (a * 16 + (ch l - 48) =? 0); [done|]. eexists. split; [reflexivity|done].
  - unfold hex_value. rewrite Hdig. cbv zeta.
    destruct ((u8 (Z.lor (ch l) 32) >=? 97) && (u8 (Z.lor (ch l) 32) <=? 102)) eqn:Hx; [|done].
    rewrite <- Z.add_assoc, Hv by lia. cbn [ch field_set].
    set (v := a * 16 + (u8 (Z.lor (ch l) 32) - 97 + 10)) in *.
    assert (v <> 37 /\ v <> 35 /\ v <> 0) as (H1 & H2 & H3) by (unfold v; lia).
    split; [unfold is_u8, v; lia|]. unfold is_literal.
    rewrite (proj2 (Z.eqb_neq v 37) H1), (proj2 (Z.eqb_neq v 35) H2),
      (proj2 (Z.eqb_neq v 0) H3). cbn [orb].
    destruct (v =? 63); [done|]. eexists. split; [reflexivity|].
    case_match; split_and!; try done. by rewrite !orb_true_r.
Qed.

Lemma hex_value_u8 c v : hex_value c = Some v -> u8 v = v.
Proof. intros H%hex_value_range. apply u8_small. lia. Qed.

Lemma loop_next fuel l l' :
  (p l <= ue)%nat -> iteration mem merge l = Some (Loop l') ->
  loop mem merge (S fuel) ue l = loop mem merge fuel ue l'.
Proof. intros Hp Hi. cbn [loop]. rewrite (proj2 (Nat.leb_le _ _) Hp), Hi. done. Qed.

Lemma loop_stop fuel l o :
  (p l <= ue)%nat -> iteration mem merge l = Some o -> (forall l', o <> Loop l') ->
  loop mem merge (S fuel) ue l = Some o.
Proof.
  intros Hp Hi Ho. cbn [loop]. rewrite (proj2 (Nat.leb_le _ _) Hp), Hi. cbn.
  destruct o; [by destruct (Ho l0)|done..].
Qed.

Lemma loop_end fuel l :
  p l = S ue -> loop mem merge (S fuel) ue l = at_end l.
Proof. intros Hp. cbn [loop]. by rewrite Hp, (proj2 (Nat.leb_gt _ _)) by lia. Qed.

(** The conditions of the loop at [l], with [s] to come. *)
Record ready (fuel : nat) (l : locals) (stack : list (list Z)) (cur s : list Z) : Prop := {
  rd_path : in_path l stack cur;
  rd_rest : at_rest l s;
  rd_bytes : bytes_ok s;
  rd_room : (out_length stack cur + path_length s <= length (data l))%nat;
  rd_fuel : (2 * length s < fuel)%nat;
}.

Definition correct (n : nat) : Prop :=
  forall s l stack cur fuel, (length s <= n)%nat -> ready fuel l stack cur s ->
  exists o, loop mem merge fuel ue l = Some o
    /\ outcome_ok (quoted_uri l) (plus_in_uri l) stack cur s o.

(** A byte [ch l] that is neither a delimiter nor an escape, then [s2]. *)
Lemma byte_ok n fuel l stack cur s2 :
  correct n -> (length s2 <= n)%nat ->
  in_path l stack cur -> (p l <= ue)%nat -> s2 = slice (p l) ue ->
  is_u8 (ch l) -> is_literal (ch l) = false -> bytes_ok s2 ->
  (S (out_length stack cur + path_length s2) <= length (data l))%nat ->
  (S (2 * length s2) < fuel)%nat ->
  exists o, loop mem merge fuel ue l = Some o
    /\ match (if ch l =? "/"%ch then stack' ← enter merge stack cur; Some (stack', [])
              else Some (stack, cur ++ [ch l])) with
       | None => o = Invalid
       | Some (stack', cur') =>
           outcome_ok (quoted_uri l) (plus_in_uri l || (ch l =? "+"%ch)) stack' cur' s2 o
       end.
Proof.
  intros Hn Hlen Hin Hp Hs Hu8 Hlit Hok Hroom Hfuel.
  apply orb_false_elim in Hlit as [[Hpc Hh]%orb_false_elim Hq].
  apply Z.eqb_neq in Hpc, Hh, Hq. destruct fuel as [|fuel]; [lia|].
  pose proof (one_byte l stack cur Hin Hu8 Hpc Hq Hh Hp ltac:(lia)) as H.
  destruct (if ch l =? 47 then _ else _) as [[stack' cur']|].
  - destruct H as (l' & Hit & Hin' & Hr' & Hd' & Hout' & Hq' & Hpl').
    rewrite (loop_next fuel l l' Hp Hit), <- Hq', <- Hpl'. apply Hn; [lia|].
    split; [done|by rewrite Hs|done|lia|lia].
  - rewrite (loop_stop fuel l Invalid Hp H) by done. by eexists.
Qed.

(** A byte copied into the segment whatever it is. *)
Lemma literal_ok n fuel l l0 stack cur v s2 :
  correct n -> (length s2 <= n)%nat ->
  in_path l stack cur -> (p l0 <= ue)%nat -> s2 = slice (p l0) ue ->
  iteration mem merge l0 = copy mem (l0 <| ch := v |> <| st := sw_usual |>) ->
  u l0 = u l -> data l0 = data l -> uri_ext l0 = uri_ext l ->
  is_literal v = true -> bytes_ok s2 ->
  (S (out_length stack cur + path_length s2) <= length (data l))%nat ->
  (S (2 * length s2) < fuel)%nat ->
  exists o, loop mem merge fuel ue l0 = Some o
    /\ outcome_ok (quoted_uri l0) (plus_in_uri l0) stack (cur ++ [v]) s2 o.
Proof.
  intros Hn Hlen [Hst Hw Hss Hcs Hext] Hp Hs Hit Hu Hd He Hlit Hok Hroom Hfuel.
  destruct fuel as [|fuel]; [lia|].
  assert (v <> "/"%ch /\ v <> "."%ch) as [Hsl Hdot] by (unfold is_literal in Hlit; lia).
  assert (cstate (cur ++ [v]) = sw_usual) as Hcs'
    by (rewrite cstate_snoc; by rewrite (proj2 (Z.eqb_neq v 46) Hdot)).
  destruct (copy_ok (l0 <| ch := v |> <| st := sw_usual |>) (render stack ++ "/"%ch :: cur))
    as (l' & Hcp & Hw' & Hr & Hl & Hst' & Hext' & Hu' & Hq' & Hpl').
  { destruct Hw as [? ? ?]. split; cbn; by rewrite ?Hu, ?Hd. }
  { cbn. rewrite Hd. fold (out_length stack cur). lia. }
  { exact Hp. }
  rewrite Hcp in Hit. rewrite (loop_next fuel l0 l' Hp Hit).
  cbn in Hw', Hl, Hr. rewrite <- app_assoc in Hw'.
  replace (quoted_uri l0) with (quoted_uri l') by done.
  replace (plus_in_uri l0) with (plus_in_uri l') by done.
  apply (Hn s2 l' stack (cur ++ [v]) fuel); [done|].
  split; [|by rewrite Hs|done| |lia].
  - split; [by rewrite Hst', Hcs'|exact Hw'|done|by apply Forall_app_2, Forall_singleton|].
    rewrite Hext', Hu'. cbn [uri_ext u field_set]. rewrite He, Hext, Hu, ext_at_snoc.
    by test_false (v =? "."%ch).
  - rewrite Hl, Hd. unfold out_length in *. rewrite !length_app in *. cbn [length] in *.
    rewrite length_app. cbn. lia.
Qed.

Lemma hex_not_stop c v : hex_value c = Some v -> (c =? "?"%ch) || (c =? "#"%ch) = false.
Proof.
  intros H. destruct (Z.eqb_spec c 63) as [->|]; [discriminate|].
  destruct (Z.eqb_spec c 35) as [->|]; [discriminate|]. done.
Qed.

(** An escape. *)
Lemma escape_ok n fuel l stack cur s1 :
  correct n -> (length s1 <= n)%nat -> ready fuel l stack cur ("%"%ch :: s1) ->
  exists o, loop mem merge fuel ue l = Some o
    /\ outcome_ok (quoted_uri l) (plus_in_uri l) stack cur ("%"%ch :: s1) o.
Proof.
  intros Hn Hlen [Hin (Hp & Hch & Hs1) Hok Hroom Hfuel]. cbn [length] in Hfuel.
  apply Forall_cons_1 in Hok as [_ Hok].
  destruct fuel as [|[|[|fuel]]]; [lia..|].
  pose proof (quote_iteration l stack cur Hin Hch) as Hit. unfold quote in Hit.
  destruct (next_rest (l <| quoted_state := st l |> <| st := sw_quoted |>)) as (h1 & Hn1 & Hr1);
    [exact Hp|].
  rewrite Hn1 in Hit. cbn [mbind option_bind] in Hit.
  set (l1 := (l <| quoted_state := st l |> <| st := sw_quoted |>)
               <| ch := h1 |> <| p := _ |>) in *.
  rewrite (loop_next _ l l1 Hp Hit).
  change (at_rest l1 (slice (p l) ue)) in Hr1. rewrite <- Hs1 in Hr1.
  destruct s1 as [|c1 s1]; [rewrite (loop_end _ l1 Hr1); by exists Invalid|].
  destruct Hr1 as (Hp1 & Hc1 & Hs2). apply Forall_cons_1 in Hok as [Hu1 Hok].
  assert (iteration mem merge l1 = quoted_case mem l1) as Hit1 by done.
  unfold quoted_case in Hit1. change (ch (l1 <| quoted_uri := true |>)) with (ch l1) in Hit1.
  rewrite Hc1 in Hit1.
  destruct (hex_value c1) as [a|] eqn:Ha.
  2: { rewrite (loop_stop _ l1 Invalid Hp1 Hit1) by done. exists Invalid. split; [done|].
       unfold outcome_ok. by destruct s1; cbn; rewrite ?Ha. }
  pose proof (hex_value_range c1 a Ha) as Har. rewrite (hex_value_u8 c1 a Ha) in Hit1.
  destruct (next_rest (l1 <| quoted_uri := true |> <| decoded := a |> <| st := sw_quoted_second |>))
    as (h2 & Hn2 & Hr2); [exact Hp1|].
  rewrite Hn2 in Hit1. cbn [mbind option_bind] in Hit1.
  set (l2 := (l1 <| quoted_uri := true |> <| decoded := a |> <| st := sw_quoted_second |>)
               <| ch := h2 |> <| p := _ |>) in *.
  rewrite (loop_next _ l1 l2 Hp1 Hit1).
  change (at_rest l2 (slice (p l1) ue)) in Hr2. rewrite <- Hs2 in Hr2.
  destruct s1 as [|c2 s2]; [rewrite (loop_end _ l2 Hr2); by exists Invalid|].
  destruct Hr2 as (Hp2 & Hc2 & Hs3). apply Forall_cons_1 in Hok as [Hu2 Hok].
  assert (iteration mem merge l2 = quoted_second_case mem l2) as Hit2 by done.
  pose proof (quoted_second_spec l2 a eq_refl Har) as H2. rewrite Hc2 in H2.
  specialize (H2 Hu2). cbn [length] in *. cbn [path_length] in Hroom.
  rewrite <- Hit2 in H2.
  destruct (hex_value c2) as [b|] eqn:Hb.
  2: { rewrite (loop_stop _ l2 Invalid Hp2 H2) by done. exists Invalid. split; [done|].
       unfold outcome_ok. cbn. by rewrite Ha, Hb. }
  destruct H2 as [Hv8 H2]. set (v := a * 16 + b) in *.
  rewrite (hex_not_stop c1 a Ha), (hex_not_stop c2 b Hb) in Hroom. cbn [Z.eqb Pos.eqb orb] in Hroom.
  assert (decode_path ("%"%ch :: c1 :: c2 :: s2)
    = if v =? 0 then None else x ← decode_path s2; Some (v :: x.1, x.2)) as Hdec
    by (cbn [decode_path Z.eqb Pos.eqb]; by rewrite Ha, Hb).
  assert (forall q, true || has_escape s2 = q || has_escape ("%"%ch :: c1 :: c2 :: s2)) as Hesc
    by (intros q; cbn; by rewrite orb_true_r).
  assert (in_path l stack cur) as Hin' by done. destruct Hin' as [Hst Hw Hss Hcs Hext].
  destruct (is_literal v) eqn:Hlit.
  - assert (v =? 0 = false /\ v =? 47 = false /\ v =? 43 = false) as (Hv0 & Hv47 & Hv43)
      by (unfold is_literal in Hlit; lia). rewrite Hv0 in Hdec.
    destruct (literal_ok n (S fuel) l l2 stack cur v s2) as (o & Ho & Hpost);
      try done; [lia|lia|lia|].
    exists o. split; [done|]. eapply (outcome_byte _ _ true _ stack cur v _ s2);
      [exact Hdec|apply Hesc|by rewrite Hv43, orb_false_r|]. by rewrite Hv47.
  - destruct (v =? 0) eqn:Hv0; rewrite ?Hv0 in Hdec.
    { rewrite (loop_stop _ l2 Invalid Hp2 H2) by done. exists Invalid. split; [done|].
      unfold outcome_ok. by rewrite Hdec. }
    destruct H2 as (l3 & Hit3 & Hch3 & Hst3 & Hu3 & Hd3 & Hp3 & He3 & Hq3 & Hpl3).
    rewrite (loop_next _ l2 l3 Hp2 Hit3).
    destruct (byte_ok n fuel l3 stack cur s2) as (o & Ho & Hpost);
      rewrite ?Hch3, ?Hd3, ?Hp3; try done; [lia| |unfold l2, l1; cbn [data field_set]; lia|lia|].
    { split; [by rewrite Hst3| |done|done|by rewrite He3, Hu3].
      destruct Hw as [? ? ?]. by split; rewrite ?Hu3, ?Hd3. }
    rewrite Hch3, Hq3, Hpl3 in Hpost. exists o. split; [done|].
    by eapply (outcome_byte _ _ true _ stack cur v _ s2);
      [exact Hdec|apply Hesc|reflexivity|exact Hpost].
Qed.

Lemma loop_ok n : correct n.
Proof.
  induction n as [|n IH]; intros s l stack cur fuel Hlen Hr;
    pose proof Hr as [Hin Hrest Hok Hroom Hfuel].
  { destruct s; [|simpl in Hlen; lia]. destruct fuel as [|fuel]; [lia|].
    rewrite (loop_end fuel l Hrest). by apply (end_ok l). }
  destruct s as [|c s'].
  { destruct fuel as [|fuel]; [lia|]. rewrite (loop_end fuel l Hrest). by apply (end_ok l). }
  cbn [length] in Hlen, Hfuel.
  destruct (decide (c = "?"%ch \/ c = "#"%ch)) as [Hstop|Hstop].
  { destruct (stop_ok l stack cur (c :: s') Hin Hrest c s' eq_refl Hstop)
      as (o & Ho & Hnl & Hpost).
    destruct fuel as [|fuel]; [lia|]. exists o.
    by rewrite (loop_stop fuel l o (proj1 Hrest) Ho Hnl). }
  destruct (decide (c = "%"%ch)) as [->|Hpc].
  { apply (escape_ok n); [done|lia|done]. }
  pose proof Hrest as (Hp & Hch & Hs'). apply Forall_cons_1 in Hok as [Hu8 Hok].
  assert ((c =? 63) || (c =? 35) = false) as Hns by lia.
  cbn [path_length] in Hroom. rewrite Hns in Hroom.
  destruct (byte_ok n fuel l stack cur s') as (o & Ho & Hpost);
    rewrite ?Hch; try done; [lia|unfold is_literal; lia|lia|lia|].
  exists o. split; [done|]. rewrite Hch in Hpost.
  apply orb_false_elim in Hns as [Hq Hh].
  eapply (outcome_byte _ _ _ _ stack cur c _ s'); [| |reflexivity|done]; cbn;
    rewrite Hq, Hh; by rewrite (proj2 (Z.eqb_neq c 37) Hpc).
Qed.
End Refine.

(** ** The whole function *)

Fixpoint before_hash (s : list Z) : list Z :=
  match s with
  | [] => []
  | c :: s' => if c =? "#"%ch then [] else c :: before_hash s'
  end.

Lemma find_fragment_spec mem ue p :
  (p <= ue < length mem)%nat ->
  exists f, find_fragment mem (ue - p) p = Some f
    /\ before_hash (slice mem p ue)
       = match f with
         | Some p' => take (p' - 1 - p) (drop p mem)
         | None => slice mem p ue
         end
    /\ match f with Some p' => (p < p' <= ue)%nat | None => True end.
Proof.
  remember (ue - p)%nat as n eqn:Hn. revert p Hn.
  induction n as [|n IH]; intros p Hn Hp; cbn [find_fragment].
  - exists None. split_and!; [done| |done]. unfold slice. rewrite <- Hn. by rewrite take_0.
  - destruct (lookup_lt_is_Some_2 mem p) as [c Hc]; [lia|]. rewrite Hc. cbn [mbind option_bind].
    rewrite (path_slice_cons mem ue) with (c := c) by (done || lia). cbn [before_hash].
    destruct (c =? 35).
    + exists (Some (S p)). split_and!; [done| |lia|lia].
      replace (S p - 1 - p)%nat with 0%nat by lia. by rewrite take_0.
    + destruct (IH (S p)) as (f & -> & Hb & Hf); [lia|lia|]. exists f. split; [done|].
      rewrite Hb. destruct f as [p'|]; [|done].
      split; [|lia]. rewrite (drop_S _ _ _ Hc).
      by replace (p' - 1 - p)%nat with (S (p' - 1 - S p)) by lia.
Qed.

(** [r->args] as the caller of the function sees it: what the function set, or
    else from [args_start] to the end of the URI. *)
Definition args_of (mem : list Z) (ue : nat) (o : uri_out) : list Z :=
  match args o with
  | Some (a, n) => take n (drop a mem)
  | None => match o_args_start o with Some a => slice mem a ue | None => [] end
  end.

(** The URI in memory. *)
Definition uri_of (mem : list Z) (r : uri_in) : list Z := slice mem (uri_start r) (uri_end r).

(** The path, the query and the first byte: a URI without a path begins at "?". *)
Definition named_path (merge : bool) (r : uri_in) (s : list Z) : option (list Z * path_end) :=
  x ← decode_path s;
  out ← normalize merge (if empty_path_in_uri r then "/"%ch :: x.1 else x.1);
  Some (out, x.2).

Definition needed (r : uri_in) (s : list Z) : nat :=
  (path_length s + if empty_path_in_uri r then 1 else 0)%nat.

(** Whether the decoded path holds a "+". *)
Definition plus_in_path (s : list Z) : bool :=
  match decode_path s with Some x => has_plus x.1 | None => false end.

(** What the function is to return: the path and its end, and the two flags. *)
Definition returns (mem : list Z) (ue : nat) (named : option (list Z * path_end))
    (quoted plus : bool) (rc : Z) (o : option uri_out) : Prop :=
  match named with
  | None => rc = error_code INVALID_REQUEST /\ o = None
  | Some (out, e) =>
      rc = NGX_OK /\ exists o', o = Some o' /\ uri o' = out
        /\ args_of mem ue o' = match e with EndQuery q => before_hash q | _ => [] end
        /\ exten o' = (ext ← path_extension out;
                        Some (Z.of_nat (length out) - Z.of_nat (length ext),
                              Z.of_nat (length ext)))
        /\ o_quoted_uri o' = quoted /\ o_plus_in_uri o' = plus
  end.

Lemma split_path_segment cur seg rest :
  no_slash seg -> split_path cur (seg ++ "/"%ch :: rest) = (cur ++ seg) :: split_path [] rest.
Proof.
  intros Hs. revert cur. induction Hs as [|c seg Hc _ IH]; intros cur; cbn.
  - by rewrite app_nil_r.
  - rewrite (proj2 (Z.eqb_neq c 47) Hc), IH. by rewrite <- app_assoc.
Qed.

Lemma split_path_last cur seg : no_slash seg -> split_path cur seg = [cur ++ seg].
Proof.
  intros Hs. revert cur. induction Hs as [|c seg Hc _ IH]; intros cur; cbn.
  - by rewrite app_nil_r.
  - rewrite (proj2 (Z.eqb_neq c 47) Hc), IH. by rewrite <- app_assoc.
Qed.

Lemma split_path_segments seg segs :
  Forall no_slash (seg :: segs) ->
  split_path [] (seg ++ concat (map (cons "/"%ch) segs)) = seg :: segs.
Proof.
  revert seg. induction segs as [|s segs IH]; intros seg [Hseg Hsegs]%Forall_cons_1.
  - cbn. rewrite app_nil_r. by apply split_path_last.
  - cbn [map concat app]. by rewrite split_path_segment, IH.
Qed.

(** The segments of a rendered stack are those of the stack. *)
Lemma split_render stack :
  stack <> [] -> Forall no_slash stack ->
  exists path, render stack = "/"%ch :: path /\ split_path [] path = rev stack.
Proof.
  intros Hne Hs. unfold render. destruct (rev stack) as [|seg segs] eqn:E.
  { by apply (f_equal (@rev _)) in E; rewrite rev_involutive in E. }
  assert (Forall no_slash (seg :: segs)) as Hs'.
  { rewrite <- E. by apply Forall_rev. }
  exists (seg ++ concat (map (cons 47) segs)). split; [done|]. by apply split_path_segments.
Qed.

(** The extension is an end of the path. *)
Lemma last_dot_eq seg base ext : last_dot seg = Some (base, ext) -> seg = base ++ "."%ch :: ext.
Proof.
  revert base. induction seg as [|c seg IH]; intros base; [done|]. cbn [last_dot].
  destruct (last_dot seg) as [[b e]|].
  - intros [= <- <-]. by rewrite (IH b eq_refl).
  - destruct (Z.eqb_spec c 46) as [->|]; [|done]. by intros [= <- <-].
Qed.

Lemma last_segment_suffix cur path seg :
  list.last (split_path cur path) = Some seg -> exists pre, cur ++ path = pre ++ seg.
Proof.
  revert cur. induction path as [|c path IH]; intros cur; cbn [split_path].
  - intros [= <-]. exists []. by rewrite app_nil_r.
  - destruct (c =? 47).
    + destruct (split_path_cons [] path) as (x & xs & E). specialize (IH []). rewrite E in IH |- *.
      intros Hl. destruct (IH Hl) as [pre Hp]. cbn in Hp. exists (cur ++ c :: pre).
      by rewrite Hp, <- app_assoc.
    + intros [pre Hp]%IH. exists pre. by rewrite <- Hp, <- app_assoc.
Qed.

Lemma path_extension_suffix path ext : path_extension path = Some ext -> exists pre, path = pre ++ ext.
Proof.
  unfold path_extension, extension. destruct (list.last _) as [seg|] eqn:Hl; [|done].
  apply last_segment_suffix in Hl as [pre Hp]. cbn in Hp. subst path. cbn [mbind option_bind].
  destruct (last_dot seg) as [[b e]|] eqn:Hd; [|done]. cbn [mbind option_bind].
  case_decide; [done|]. intros [= ->]. apply last_dot_eq in Hd as ->.
  exists (pre ++ b ++ ["."%ch]). by rewrite <- !app_assoc.
Qed.

Lemma run_no_slash merge stack cur path stack' :
  Forall no_slash stack -> no_slash cur -> run merge stack cur path = Some stack' ->
  Forall no_slash stack'.
Proof.
  revert stack cur. induction path as [|c path IH]; intros stack cur Hst Hcur; cbn [run].
  - unfold finish. repeat case_decide; intros Hf; [by simplify_eq; repeat constructor| |].
    + destruct stack as [|x stack]; simplify_eq. apply Forall_cons_1 in Hst as [_ Hst].
      by repeat constructor.
    + simplify_eq. by constructor.
  - destruct (Z.eqb_spec c 47) as [->|Hc].
    + unfold enter. repeat case_decide; cbn [mbind option_bind].
      * apply IH; [done|constructor].
      * destruct stack as [|x stack]; [done|]. apply Forall_cons_1 in Hst as [_ Hst].
        apply IH; [done|constructor].
      * apply IH; [|constructor]. by destruct merge; repeat constructor.
      * apply IH; [|constructor]. by constructor.
    + apply IH; [done|]. by apply Forall_app_2, Forall_singleton.
Qed.

Lemma path_extension_render seg stack :
  Forall no_slash (seg :: stack) -> path_extension (render (seg :: stack)) = extension seg.
Proof.
  intros Hs. destruct (split_render (seg :: stack)) as (path & -> & Hsp); [done|done|].
  unfold path_extension. cbn [split_path Z.eqb Pos.eqb]. rewrite Hsp. cbn [rev].
  rewrite app_comm_cons, last_snoc. done.
Qed.

Lemma result_ok mem ue l stack a s e rc o q pl :
  final l stack -> args_of mem ue (result l a s) = match e with EndQuery q => before_hash q | _ => [] end ->
  quoted_uri l = q -> plus_in_uri l = pl ->
  rc = NGX_OK -> o = Some (result l a s) -> returns mem ue (Some (render stack, e)) q pl rc o.
Proof.
  intros ([Hu Hd Hf] & Hns & seg & stack' & -> & Hext) Ha Hq Hpl -> ->. split; [done|].
  eexists. split; [done|]. split_and!; [|done| |done|done].
  - cbn [uri result]. by rewrite Hu, Nat2Z.id, Hd.
  - rewrite path_extension_render by done. cbn [exten result]. rewrite Hext, Hu. unfold ext_at.
    destruct (extension seg); [|done]. cbn [mbind option_bind]. do 2 f_equal. lia.
Qed.

(** The code after the loop. *)
Lemma outcome_returns mem merge ue l fuel q pl stack cur s o named :
  (ue < length mem)%nat ->
  loop mem merge fuel ue l = Some o -> outcome_ok mem merge ue q pl stack cur s o ->
  named = (x ← decode_path s; stack' ← run merge stack cur x.1; Some (render stack', x.2)) ->
  exists rc out,
    (o ← loop mem merge fuel ue l;
     match o with
     | Loop _ => None
     | Invalid => Some (error_code INVALID_REQUEST, None)
     | Done l => Some (NGX_OK, Some (result l None None))
     | Args l =>
         a ← args_start l;
         f ← find_fragment mem (ue - p l) (p l);
         Some (NGX_OK, Some match f with
                            | Some p' => result l (Some (a, p' - 1 - a)%nat) None
                            | None => result l None (Some a)
                            end)
     end) = Some (rc, out)
    /\ returns mem ue named (q || has_escape s) (pl || plus_in_path s) rc out.
Proof.
  intros Hue Hloop Hok Hnamed. rewrite Hloop. cbn [mbind option_bind]. unfold outcome_ok, plus_in_path in *.
  destruct (decode_path s) as [[path e]|]; cbn [mbind option_bind fst snd] in *.
  2: { subst o named. by do 2 eexists. }
  destruct (run merge stack cur path) as [stack'|]; cbn [mbind option_bind] in *.
  2: { subst o named. by do 2 eexists. }
  subst named. destruct Hok as (l' & Hfin & Hq & Hpl & Ho). destruct e as [|query|].
  - subst o. do 2 eexists. split; [reflexivity|]. by apply (result_ok mem ue l' stack' None None).
  - destruct Ho as (-> & Ha & Hp & ->). rewrite Ha. cbn [mbind option_bind].
    destruct (find_fragment_spec mem ue (p l')) as (f & -> & Hb & Hf); [lia|].
    cbn [mbind option_bind]. do 2 eexists. split; [reflexivity|].
    destruct f as [p'|];
      (eapply result_ok; [done| |done|done|reflexivity|reflexivity]; by rewrite Hb).
  - subst o. do 2 eexists. split; [reflexivity|]. by apply (result_ok mem ue l' stack' None None).
Qed.

Lemma normalize_run merge path (e : path_end) :
  (out ← normalize merge ("/"%ch :: path); Some (out, e))
  = (stack ← run merge [] [] path; Some (render stack, e)).
Proof.
  cbn [normalize]. test_true ("/"%ch =? "/"%ch). rewrite run_resolve.
  by destruct (resolve merge [] (split_path [] path)).
Qed.

Lemma decode_path_slash s :
  decode_path ("/"%ch :: s) = x ← decode_path s; Some ("/"%ch :: x.1, x.2).
Proof. reflexivity. Qed.

(** A URI that begins with its query. *)
Lemma complex_uri_query mem (merge : bool) r (q pl : bool) (buffer : list Z) :
  (uri_start r < uri_end r < length mem)%nat -> mem !! uri_start r = Some 63 ->
  let s' := slice mem (S (uri_start r)) (uri_end r) in
  empty_path_in_uri r = true -> (needed r (63%Z :: s') <= length buffer)%nat ->
  exists rc o, ngx_http_parse_complex_uri mem merge r q pl buffer = Some (rc, o)
    /\ returns mem (uri_end r) (named_path merge r (63 :: s'))
         (q || has_escape (63%Z :: s')) (pl || plus_in_path (63%Z :: s')) rc o.
Proof.
  intros Hr Hc s' Hempty Hroom. unfold ngx_http_parse_complex_uri.
  set (l0 := {| st := sw_usual |}). unfold needed, named_path in *. rewrite Hempty in *.
  replace (2 * (uri_end r - uri_start r) + 2)%nat
    with (S (2 * (uri_end r - uri_start r) + 1)) by lia.
  destruct (put_written l0 [] 47) as (l1 & Hput & Hw & Hl1);
    [by split; [| |simpl; lia]|cbn in *; lia|].
  rewrite Hput. cbn [mbind option_bind].
  set (l2 := l1 <| ch := 63 |> <| p := (uri_start r + 1)%nat |>).
  assert (next mem l1 = Some l2) as Hn.
  { assert (p l1 = uri_start r) as Hp1 by by rewrite Hl1.
    unfold next. rewrite Hp1, Hc. done. }
  rewrite Hn. cbn [mbind option_bind].
  assert (iteration mem merge l2 = Some (Args (l2 <| args_start := Some (p l2) |>))) as Hit.
  { unfold iteration. assert (st l2 = sw_usual) as -> by (cbn; by rewrite Hl1). done. }
  eapply (outcome_returns mem merge (uri_end r) l2 _ q pl [] [] (63 :: s')); [lia| | |].
  + apply loop_stop; [cbn; lia|exact Hit|done].
  + exists (l2 <| args_start := Some (p l2) |>). split.
    * split; [by destruct Hw; split|]. split; [by repeat constructor|]. exists [], []. split; [done|]. cbn. by rewrite Hl1.
    * assert (quoted_uri l2 = q /\ plus_in_uri l2 = pl) as [Hq2 Hpl2] by (cbn; by rewrite Hl1).
      cbn [has_escape Z.eqb Pos.eqb orb]. rewrite !orb_false_r.
      split; [exact Hq2|]. split; [exact Hpl2|]. split_and!; [done|done|cbn; lia|]. cbn. unfold s'. by rewrite Nat.add_1_r.
  + done.
Qed.

(** A URI that begins with its path. *)
Lemma complex_uri_path mem (merge : bool) r (q pl : bool) (buffer : list Z) :
  (uri_start r < uri_end r < length mem)%nat -> mem !! uri_start r = Some 47 ->
  let s' := slice mem (S (uri_start r)) (uri_end r) in bytes_ok s' ->
  empty_path_in_uri r = false -> (needed r (47%Z :: s') <= length buffer)%nat ->
  exists rc o, ngx_http_parse_complex_uri mem merge r q pl buffer = Some (rc, o)
    /\ returns mem (uri_end r) (named_path merge r (47 :: s'))
         (q || has_escape (47%Z :: s')) (pl || plus_in_path (47%Z :: s')) rc o.
Proof.
  intros Hr Hc s' Hok Hempty Hroom. unfold ngx_http_parse_complex_uri.
  set (l0 := {| st := sw_usual |}). unfold needed, named_path in *. rewrite Hempty in *.
  replace (2 * (uri_end r - uri_start r) + 2)%nat
    with (S (2 * (uri_end r - uri_start r) + 1)) by lia.
  cbn [mbind option_bind].
  assert (next mem l0 = Some (l0 <| ch := 47 |> <| p := (uri_start r + 1)%nat |>)) as Hn
    by (unfold next; cbn; by rewrite Hc).
  rewrite Hn. cbn [mbind option_bind].
  set (l1 := l0 <| ch := 47 |> <| p := _ |>) in *.
  cbn [path_length Z.eqb Pos.eqb orb] in Hroom.
  destruct (copy_ok mem (uri_end r)) with (l := l1 <| uri_ext := None |> <| st := sw_slash |>)
    (out := @nil Z) as (l2 & Hcp & Hw & Hr2 & Hd2 & Hst2 & He2 & _ & Hq2 & Hpl2);
    [lia|by split; [| |cbn; lia]|cbn; lia|cbn; lia|].
  assert (iteration mem merge l1 = Some (Loop l2)) as Hit by (rewrite <- Hcp; done).
  rewrite (loop_next mem merge (uri_end r) _ l1 l2) by (done || (cbn; lia)).
  destruct (loop_ok mem merge (uri_end r) ltac:(lia) (length s') s' l2 [] []
    (2 * (uri_end r - uri_start r) + 1)%nat) as (o & Ho & Hpost); [lia| |].
  { split; [| |done| |].
    - split; [by rewrite Hst2|exact Hw|by constructor|by constructor|by rewrite He2].
    - cbn in Hr2. by rewrite Nat.add_1_r in Hr2.
    - rewrite Hd2. unfold out_length. cbn. lia.
    - unfold s', slice. rewrite length_take, length_drop. lia. }
  rewrite Hq2, Hpl2 in Hpost.
  assert (plus_in_path (47 :: s') = plus_in_path s') as ->
    by (unfold plus_in_path; rewrite decode_path_slash; by destruct (decode_path s')).
  change (has_escape (47%Z :: s')) with (has_escape s').
  apply (outcome_returns mem merge (uri_end r) l2 _ q pl [] [] s' o); [lia|done|done|].
  rewrite decode_path_slash. destruct (decode_path s') as [[path e]|]; [|done].
  cbn [mbind option_bind fst snd]. apply normalize_run.
Qed.

(** Both kinds of URI. *)
Lemma complex_uri_returns (mem : list Z) (merge : bool) (r : uri_in)
    (q pl : bool) (buffer : list Z)
    (Hmem : bytes_ok mem) (Hr : (uri_start r < uri_end r < length mem)%nat)
    (Hfirst : head (uri_of mem r) = Some (if empty_path_in_uri r then "?"%ch else "/"%ch))
    (Hroom : (needed r (uri_of mem r) <= length buffer)%nat) :
  exists rc o, ngx_http_parse_complex_uri mem merge r q pl buffer = Some (rc, o)
    /\ returns mem (uri_end r) (named_path merge r (uri_of mem r))
         (q || has_escape (uri_of mem r)) (pl || plus_in_path (uri_of mem r)) rc o.
Proof.
  destruct (lookup_lt_is_Some_2 mem (uri_start r)) as [c Hc]; [lia|].
  assert (uri_of mem r = c :: slice mem (S (uri_start r)) (uri_end r)) as Huri
    by (unfold uri_of; apply path_slice_cons; (done || lia)).
  rewrite Huri in Hfirst, Hroom |- *.
  destruct (empty_path_in_uri r) eqn:Hempty; injection Hfirst as ->.
  - by apply complex_uri_query.
  - apply complex_uri_path; try done. by apply Forall_take, Forall_drop.
Qed.

(** C1: [ngx_http_parse_complex_uri] computes the normal form of the path.  For
    any URI in memory that begins as the request line parser leaves it, with
    "/" or, without a path, with "?", and with one byte after it, and any
    buffer with room for the bytes before the first "?" or "#", the function
    stays inside both, returns, and: it refuses the URI exactly when an escape
    is malformed or NUL before the path ends, or ".." leads above the root;
    otherwise the output is the decoded path with its dot segments resolved
    (and, with [merge_slashes], empty segments dropped), the arguments are what
    stands between "?" and "#", the extension is set exactly when the last segment of the
    output has one (a dot after something else than nothing or one or two dots) and is
    what follows its last dot, and the flags [quoted_uri] and [plus_in_uri] are set
    exactly when the path holds an escape, and a "+". *)
Theorem ngx_http_parse_complex_uri_normalizes (mem : list Z) (merge : bool) (r : uri_in)
    (q pl : bool) (buffer : list Z)
    (Hmem : bytes_ok mem) (Hr : (uri_start r < uri_end r < length mem)%nat)
    (Hfirst : head (uri_of mem r) = Some (if empty_path_in_uri r then "?"%ch else "/"%ch))
    (Hroom : (needed r (uri_of mem r) <= length buffer)%nat) :
  exists rc o, ngx_http_parse_complex_uri mem merge r q pl buffer = Some (rc, o)
    /\ returns mem (uri_end r) (named_path merge r (uri_of mem r))
         (q || has_escape (uri_of mem r)) (pl || plus_in_path (uri_of mem r)) rc o.
Proof. by apply complex_uri_returns. Qed.

Lemma ngx_http_parse_complex_uri_normalizes_witness :
  let mem := bs "GET /x/%2E%2E/a//./b%2fc.html?k=v#f HTTP/1.1" in
  exists rc o, ngx_http_parse_complex_uri mem true
      {| uri_start := 4; uri_end := 35; empty_path_in_uri := false |} false false (repeat 0 25)
      = Some (rc, Some o)
    /\ rc = NGX_OK /\ uri o = bs "/a/b/c.html" /\ args_of mem 35 o = bs "k=v"
    /\ exten o = Some (7, 4) /\ o_quoted_uri o = true /\ o_plus_in_uri o = false.
Proof.
  intros mem.
  destruct (ngx_http_parse_complex_uri_normalizes mem true
      {| uri_start := 4; uri_end := 35; empty_path_in_uri := false |} false false (repeat 0 25))
    as (rc & o & H & Hret).
  - by apply bytes_ok_check.
  - vm_compute. lia.
  - reflexivity.
  - vm_compute. lia.
  - revert Hret. vm_compute (named_path _ _ _).
    intros (-> & o' & -> & Hu & Ha & He & Hq & Hp). exists NGX_OK, o'.
    split_and!; [exact H|reflexivity|exact Hu|exact Ha|exact He|exact Hq|exact Hp].
Defined.

(** ** Below the root *)

Definition plain_segment (seg : list Z) : Prop := seg <> dot /\ seg <> dot_dot /\ no_slash seg.

(** A directory: plain segments, none empty when slashes are merged. *)
Definition plain_stack (merge : bool) (stack : list (list Z)) : Prop :=
  Forall (fun seg => plain_segment seg /\ (merge = true -> seg <> [])) stack.

Lemma run_plain merge stack cur path stack' :
  plain_stack merge stack -> no_slash cur -> run merge stack cur path = Some stack' ->
  exists seg stack0, stack' = seg :: stack0 /\ plain_segment seg /\ plain_stack merge stack0.
Proof.
  revert stack cur. induction path as [|c path IH]; intros stack cur Hst Hcur; cbn [run].
  - unfold finish, plain_segment. repeat case_decide; intros Hf.
    + simplify_eq. exists [], stack. split_and!; (done || constructor).
    + destruct stack as [|x stack]; simplify_eq. apply Forall_cons_1 in Hst as [_ Hst].
      exists [], stack. split_and!; (done || constructor).
    + simplify_eq. by exists cur, stack.
  - destruct (Z.eqb_spec c 47) as [->|Hc].
    + unfold enter. repeat case_decide; cbn [mbind option_bind].
      * apply IH; [done|constructor].
      * destruct stack as [|x stack]; [done|]. apply Forall_cons_1 in Hst as [_ Hst].
        apply IH; [done|constructor].
      * apply IH; [|constructor]. destruct merge; [done|].
        constructor; [by split; [split_and!; [..|constructor]|]|done].
      * apply IH; [|constructor]. by constructor.
    + apply IH; [done|]. by apply Forall_app_2, Forall_singleton.
Qed.

(** C25: whatever a client sends, an accepted URI names a file below the root: when
    [ngx_http_parse_complex_uri] returns NGX_OK, the output begins with a slash
    and none of its segments is "." or ".."; with [merge_slashes], none but the
    last is empty. *)
Theorem ngx_http_parse_complex_uri_below_root (mem : list Z) (merge : bool) (r : uri_in)
    (q pl : bool) (buffer : list Z) (o : uri_out)
    (Hmem : bytes_ok mem) (Hr : (uri_start r < uri_end r < length mem)%nat)
    (Hfirst : head (uri_of mem r) = Some (if empty_path_in_uri r then "?"%ch else "/"%ch))
    (Hroom : (needed r (uri_of mem r) <= length buffer)%nat)
    (Hok : ngx_http_parse_complex_uri mem merge r q pl buffer = Some (NGX_OK, Some o)) :
  exists path segs last, uri o = "/"%ch :: path /\ split_path [] path = segs ++ [last]
    /\ Forall (fun seg => seg <> dot /\ seg <> dot_dot) (segs ++ [last])
    /\ (merge = true -> Forall (fun seg => seg <> []) segs).
Proof.
  destruct (complex_uri_returns mem merge r q pl buffer Hmem Hr Hfirst Hroom)
    as (rc & o' & H & Hret).
  rewrite Hok in H. simplify_eq. unfold returns, named_path in Hret.
  destruct (decode_path (uri_of mem r)) as [[path e]|]; [|by destruct Hret].
  cbn [mbind option_bind fst snd] in Hret.
  assert (exists path', normalize merge (if empty_path_in_uri r then "/"%ch :: path else path)
            = render <$> run merge [] [] path' \/
          normalize merge (if empty_path_in_uri r then "/"%ch :: path else path) = None)
    as (path' & [Hn|Hn]).
  { generalize (if empty_path_in_uri r then 47 :: path else path).
    intros [|c l]; [by exists []; right|].
    cbn [normalize]. destruct (c =? 47); [|by exists []; right].
    exists l. left. by rewrite run_resolve. }
  2: { rewrite Hn in Hret. by destruct Hret. }
  rewrite Hn in Hret. destruct (run merge [] [] path') as [stack|] eqn:Hrun; [|by destruct Hret].
  cbn in Hret. destruct Hret as (_ & o'' & [= <-] & Hu & _).
  apply run_plain in Hrun as (seg & stack0 & -> & (H1 & H2 & H3) & Hst); [|constructor..].
  destruct (split_render (seg :: stack0)) as (p0 & Hr0 & Hsp); [done| |].
  { constructor; [done|]. eapply Forall_impl; [|exact Hst]. by intros x [(? & ? & ?) _]. }
  exists p0, (rev stack0), seg. rewrite Hu, Hr0. split; [done|]. split; [done|]. split.
  - apply Forall_app_2; [|by apply Forall_singleton]. apply Forall_rev.
    eapply Forall_impl; [|exact Hst]. by intros x [(? & ? & ?) _].
  - intros Hm. apply Forall_rev. eapply Forall_impl; [|exact Hst].
    intros x [_ Hx]. by apply Hx.
Qed.

Lemma ngx_http_parse_complex_uri_below_root_witness :
  let mem := bs "/a/%2e./b/../c HTTP" in
  exists o, ngx_http_parse_complex_uri mem false
      {| uri_start := 0; uri_end := 14; empty_path_in_uri := false |} false false (repeat 0 15)
      = Some (NGX_OK, Some o)
    /\ exists path, uri o = "/"%ch :: path
    /\ Forall (fun seg => seg <> dot /\ seg <> dot_dot) (split_path [] path).
Proof.
  intros mem. eexists. split; [vm_compute; reflexivity|].
  destruct (ngx_http_parse_complex_uri_below_root mem false
      {| uri_start := 0; uri_end := 14; empty_path_in_uri := false |} false false (repeat 0 15)
      {| uri := bs "/c"; exten := None; args := None; o_args_start := None;
         o_quoted_uri := true; o_plus_in_uri := false |})
    as (path & segs & last & Hu & Hs & Hf & _).
  - by apply bytes_ok_check.
  - vm_compute. lia.
  - reflexivity.
  - vm_compute. lia.
  - vm_compute. reflexivity.
  - exists path. rewrite Hs. by split.
Defined.
