(* ===== verification/Bits.v ===== *)
(** * Bits: strings of bits

    Numbers as their binary digits, the most significant first, as the Huffman
    code and the radix tree see them. *)

From S2P Require Import Prelude.

(** The [w] low bits of [v]. *)
Fixpoint bits_of (w : nat) (v : Z) : list bool :=
  match w with
  | O => []
  | S w' => Z.testbit v (Z.of_nat w') :: bits_of w' v
  end.

Fixpoint val (l : list bool) : Z :=
  match l with
  | [] => 0
  | b :: l' => Z.b2z b * 2 ^ Z.of_nat (length l') + val l'
  end.

(** The bits of a sequence of bytes. *)
Definition bits_of_bytes (l : list Z) : list bool := flat_map (bits_of 8) l.

Lemma length_bits_of w v : length (bits_of w v) = w.
Proof. induction w; simpl; congruence. Qed.

Lemma length_bits_of_bytes l : length (bits_of_bytes l) = (8 * length l)%nat.
Proof.
  induction l as [|c l IH]; [done|]. unfold bits_of_bytes in *. cbn [flat_map].
  rewrite length_app, IH, length_bits_of. cbn [length]. lia.
Qed.

Lemma bits_of_bytes_app l1 l2 :
  bits_of_bytes (l1 ++ l2) = bits_of_bytes l1 ++ bits_of_bytes l2.
Proof. apply flat_map_app. Qed.

Lemma pow2_S n : 2 ^ Z.of_nat (S n) = 2 * 2 ^ Z.of_nat n.
Proof. rewrite Nat2Z.inj_succ, Z.pow_succ_r; lia. Qed.

Lemma pow2_add m n : 2 ^ Z.of_nat (m + n) = 2 ^ Z.of_nat m * 2 ^ Z.of_nat n.
Proof. rewrite Nat2Z.inj_add, Z.pow_add_r; lia. Qed.

Lemma pow2_pos n : 0 < 2 ^ Z.of_nat n.
Proof. apply Z.pow_pos_nonneg; lia. Qed.
#[export] Hint Resolve pow2_pos : core.

Lemma val_range l : 0 <= val l < 2 ^ Z.of_nat (length l).
Proof.
  induction l as [|b l IH]; [done|]. cbn [val length]. rewrite pow2_S.
  destruct b; cbn [Z.b2z]; lia.
Qed.

Lemma val_app a b : val (a ++ b) = val a * 2 ^ Z.of_nat (length b) + val b.
Proof.
  induction a as [|x a IH]; [done|]. cbn [val app].
  rewrite IH, length_app, pow2_add. lia.
Qed.

Lemma val_ones n : val (repeat true n) = 2 ^ Z.of_nat n - 1.
Proof.
  induction n as [|n IH]; [done|]. cbn [repeat val Z.b2z].
  rewrite IH, repeat_length, pow2_S. lia.
Qed.

Lemma val_bits_of w v : val (bits_of w v) = v mod 2 ^ Z.of_nat w.
Proof.
  induction w as [|w IH]; [by rewrite Z.mod_1_r|].
  cbn [bits_of val]. rewrite IH, length_bits_of, pow2_S.
  rewrite Z.testbit_spec' by lia.
  pose proof (pow2_pos w) as Hp. set (q := 2 ^ Z.of_nat w) in *.
  rewrite (Z.mul_comm 2 q), Z.rem_mul_r by lia. lia.
Qed.

Lemma val_inj a b : length a = length b -> val a = val b -> a = b.
Proof.
  revert b. induction a as [|x a IH]; intros [|y b]; try done.
  intros [= Hl]. cbn [val]. rewrite Hl. intros Hv.
  pose proof (val_range a) as Ha. pose proof (val_range b) as Hb. rewrite Hl in Ha.
  assert (x = y) as -> by (destruct x, y; cbn [Z.b2z] in Hv; try done; lia).
  f_equal. apply IH; [done|lia].
Qed.

Lemma bits_of_val w l : length l = w -> bits_of w (val l) = l.
Proof.
  intros <-. apply val_inj; [apply length_bits_of|].
  rewrite val_bits_of, Z.mod_small by apply val_range. done.
Qed.

Lemma bits_of_mod w v : bits_of w (v mod 2 ^ Z.of_nat w) = bits_of w v.
Proof. rewrite <- val_bits_of. apply bits_of_val, length_bits_of. Qed.

Lemma bits_of_app m n v : bits_of (m + n) v = bits_of m (v / 2 ^ Z.of_nat n) ++ bits_of n v.
Proof.
  apply val_inj; [by rewrite length_app, !length_bits_of|].
  rewrite val_app, !val_bits_of, length_bits_of, pow2_add.
  pose proof (pow2_pos m). pose proof (pow2_pos n).
  rewrite (Z.mul_comm (2 ^ _)), Z.rem_mul_r by lia. lia.
Qed.

Lemma bits_of_u8 n v : bits_of 8 (u8 (v / 2 ^ Z.of_nat n)) = bits_of 8 (v / 2 ^ Z.of_nat n).
Proof. apply (bits_of_mod 8). Qed.

(** [a || b] with [a] above the bits of [b]. *)
Lemma val_lor a b k :
  0 <= k -> 0 <= b < 2 ^ k -> Z.lor (a * 2 ^ k) b = a * 2 ^ k + b.
Proof. intros Hk Hb. rewrite <- (lor_shiftl_add a b k) by done. by rewrite shiftl_mul. Qed.
