(* ===== verification/Huffman.v ===== *)
(** * Huffman: [ngx_http_huff_encode] and [ngx_http_huff_decode]

    The Huffman coding of header strings of HTTP/2 and HTTP/3, of
    ngx_http_huff_encode.c and ngx_http_huff_decode.c.  The encoder collects the
    codes in a machine word (here of 64 bits) and stores it when it is full; the
    decoder is the automaton of HuffTable, four bits a step.  Both are proved
    against the code as a tree. *)

From Stdlib Require Import ZifyNat.
From S2P Require Import Prelude Bits HuffTable.

(** ** The decoder *)

(** The automaton: [*state], the flag [ending] and what is written to [*dst]. *)
Record decoder := { d_state : Z; d_ending : Z; d_dst : list Z }.

(** [ngx_http_huff_decode_codes[*state][bits]]. *)
Definition code_at (state bits : Z) : option ngx_http_huff_decode_code_t :=
  row ← ngx_http_huff_decode_codes !! Z.to_nat state; row !! Z.to_nat bits.

Definition ngx_http_huff_decode_bits (d : decoder) (bits : Z) : option (Z * decoder) :=
  code ← code_at (d_state d) bits;
  if next code =? d_state d then Some (NGX_ERROR, d)
  else
    let dst := if negb (emit code =? 0) then d_dst d ++ [sym code] else d_dst d in
    Some (NGX_OK, {| d_state := next code; d_ending := ending code; d_dst := dst |}).

(** [while (src != end)]. *)
Fixpoint decode_loop (d : decoder) (src : list Z) : option (Z * decoder) :=
  match src with
  | [] => Some (NGX_OK, d)
  | ch :: src' =>
      '(rc, d) ← ngx_http_huff_decode_bits d (Z.shiftr ch 4);
      if negb (rc =? NGX_OK) then Some (NGX_ERROR, d)
      else
        '(rc, d) ← ngx_http_huff_decode_bits d (Z.land ch 0xf);
        if negb (rc =? NGX_OK) then Some (NGX_ERROR, d)
        else decode_loop d src'
  end.

(** The result, [*state] and all that is written to [*dst]. *)
Definition ngx_http_huff_decode (state : Z) (src dst : list Z) (last : bool)
    : option (Z * Z * list Z) :=
  '(rc, d) ← decode_loop {| d_state := state; d_ending := 1; d_dst := dst |} src;
  Some (if negb (rc =? NGX_OK) then (NGX_ERROR, d_state d, d_dst d)
        else if last then
          if d_ending d =? 0 then (NGX_ERROR, d_state d, d_dst d)
          else (NGX_OK, 0, d_dst d)
        else (NGX_OK, d_state d, d_dst d)).

(** ** The encoder *)

(** The bytes of a word, as [ngx_http_huff_encode_buf] stores them. *)
Definition word_bytes (buf : Z) : list Z :=
  map (fun k => u8 (Z.shiftr buf k)) [56; 48; 40; 32; 24; 16; 8; 0].

(** Stores [bytes] at [dst[hlen]]; [None] if that is out of bounds. *)
Definition store (dst : list Z) (hlen : nat) (bytes : list Z) : option (list Z) :=
  if (hlen + length bytes <=? length dst)%nat
  then Some (take hlen dst ++ bytes ++ drop (hlen + length bytes) dst)
  else None.

Record encoder := { e_dst : list Z; e_hlen : nat; e_buf : Z; e_pending : Z }.

(** One iteration: [inr] is [return 0]. *)
Definition encode_step (table : list ngx_http_huff_encode_code_t) (size : nat) (c : Z)
    (e : encoder) : option (encoder + encoder) :=
  next ← table !! Z.to_nat c;
  let pending := e_pending e + len next in
  if pending <? 64 then
    Some (inl {| e_dst := e_dst e; e_hlen := e_hlen e; e_pending := pending;
                 e_buf := Z.lor (e_buf e) (u64 (Z.shiftl (code next) (64 - pending))) |})
  else if (size <=? e_hlen e + 8)%nat then Some (inr e)
  else
    let pending := pending - 64 in
    let buf := Z.lor (e_buf e) (Z.shiftr (code next) pending) in
    dst ← store (e_dst e) (e_hlen e) (word_bytes buf);
    Some (inl {| e_dst := dst; e_hlen := (e_hlen e + 8)%nat; e_pending := pending;
                 e_buf := if negb (pending =? 0)
                          then u64 (Z.shiftl (code next) (64 - pending)) else 0 |}).

(** [while (src != end)]. *)
Fixpoint encode_loop (table : list ngx_http_huff_encode_code_t) (size : nat) (src : list Z)
    (e : encoder) : option (encoder + encoder) :=
  match src with
  | [] => Some (inl e)
  | c :: src' =>
      r ← encode_step table size c e;
      match r with
      | inl e' => encode_loop table size src' e'
      | inr e' => Some (inr e')
      end
  end.

Definition ngx_align (d a : Z) : Z := Z.land (d + (a - 1)) (Z.lnot (a - 1)).

(** [do { pending -= 8; dst[hlen++] = buf >> pending } while (pending)], for
    [n] bytes. *)
Fixpoint flush_loop (n : nat) (buf : Z) (dst : list Z) (hlen : nat) : option (list Z * nat) :=
  match n with
  | O => Some (dst, hlen)
  | S n' =>
      dst ← store dst hlen [u8 (Z.shiftr buf (8 * Z.of_nat n'))];
      flush_loop n' buf dst (S hlen)
  end.

(** The end of the function: the bits that are left, padded with ones. *)
Definition encode_end (size : nat) (e : encoder) : option (nat * list Z) :=
  if e_pending e =? 0 then Some (e_hlen e, e_dst e)
  else
    let buf := Z.lor (e_buf e) (Z.shiftr (2 ^ 64 - 1) (e_pending e)) in
    let pending := ngx_align (e_pending e) 8 in
    if (size <=? e_hlen e + Z.to_nat (pending / 8))%nat then Some (0%nat, e_dst e)
    else
      '(dst, hlen) ← flush_loop (Z.to_nat (pending / 8)) (Z.shiftr buf (64 - pending))
                       (e_dst e) (e_hlen e);
      Some (hlen, dst).

(** [len] is the length of [src]; the result is the value returned and [dst]. *)
Definition ngx_http_huff_encode (src dst : list Z) (lower : bool) : option (nat * list Z) :=
  let table := if lower then ngx_http_huff_encode_table_lc else ngx_http_huff_encode_table in
  r ← encode_loop table (length src) src
        {| e_dst := dst; e_hlen := 0; e_buf := 0; e_pending := 0 |};
  match r with
  | inl e => encode_end (length src) e
  | inr e => Some (0%nat, e_dst e)
  end.

Example huff_encode_www :
  ngx_http_huff_encode (bs "www.example.com") (repeat 0 15) false
  = Some (12%nat, [0xf1; 0xe3; 0xc2; 0xe5; 0xf2; 0x3a; 0x6b; 0xa0; 0xab; 0x90; 0xf4; 0xff;
                   0; 0; 0]).
Proof. reflexivity. Qed.
Example huff_decode_www :
  ngx_http_huff_decode 0
    [0xf1; 0xe3; 0xc2; 0xe5; 0xf2; 0x3a; 0x6b; 0xa0; 0xab; 0x90; 0xf4; 0xff] [] true
  = Some (NGX_OK, 0, bs "www.example.com").
Proof. reflexivity. Qed.

(** ** The code as a tree

    [true] goes to the right; the path of thirty ones, which stands for the end
    of the string, is a hole. *)

Inductive htree := Hole | Leaf (c : Z) | Node (zero one : htree).

Definition code_bits_of (e : ngx_http_huff_encode_code_t) : list bool :=
  bits_of (Z.to_nat (len e)) (code e).

(** The code of a byte. *)
Definition code_bits (c : Z) : list bool :=
  match ngx_http_huff_encode_table !! Z.to_nat c with
  | Some e => code_bits_of e
  | None => []
  end.

Definition codes (l : list Z) : list bool := flat_map code_bits l.

Fixpoint insert_code (bits : list bool) (c : Z) (t : htree) : htree :=
  match bits with
  | [] => Leaf c
  | b :: bits' =>
      let '(l, r) := match t with Node l r => (l, r) | _ => (Hole, Hole) end in
      if b then Node l (insert_code bits' c r) else Node (insert_code bits' c l) r
  end.

Definition code_tree : htree := Eval vm_compute in
  fold_right (fun c => insert_code (code_bits c) c) Hole all_u8.

Fixpoint descend (t : htree) (path : list bool) {struct path} : htree :=
  match path with
  | [] => t
  | b :: path' =>
      match t with Node l r => descend (if b then r else l) path' | _ => Hole end
  end.

(** Reading bits from an inner node: the symbols, and the node where it ends;
    [None] when it runs into the hole. *)
Fixpoint walk (t : htree) (bits : list bool) : list Z * option htree :=
  match bits with
  | [] => ([], Some t)
  | b :: bits' =>
      match t with
      | Node l r =>
          match (if b then r else l) with
          | Leaf c => prod_map (cons c) id (walk code_tree bits')
          | Node _ _ as t1 => walk t1 bits'
          | Hole => ([], None)
          end
      | _ => ([], None)
      end
  end.

Fixpoint leaves (t : htree) : list (list bool * Z) :=
  match t with
  | Hole => []
  | Leaf c => [([], c)]
  | Node l r => (prod_map (cons false) id <$> leaves l)
                ++ (prod_map (cons true) id <$> leaves r)
  end.

(** The inner nodes with their paths, in the order of the decoder's states. *)
Fixpoint inner (t : htree) : list (list bool * htree) :=
  match t with
  | Node l r => ([], t) :: (prod_map (cons false) id <$> inner l)
                ++ (prod_map (cons true) id <$> inner r)
  | _ => []
  end.

Definition is_node (t : htree) : Prop := match t with Node _ _ => True | _ => False end.

Lemma descend_leaves t path c : descend t path = Leaf c -> (path, c) ∈ leaves t.
Proof.
  revert path. induction t as [|c'|l IHl r IHr]; intros [|b path]; cbn; try done.
  - intros [= ->]. by apply list_elem_of_singleton.
  - rewrite elem_of_app. destruct b; intros Hd; [right|left];
      apply (list_elem_of_fmap_2' (prod_map _ id) _ (path, c)); auto.
Qed.

Lemma descend_inner t path : is_node (descend t path) -> (path, descend t path) ∈ inner t.
Proof.
  revert path. induction t as [|c'|l IHl r IHr]; intros [|b path]; cbn; try done.
  - intros _. apply elem_of_cons. by left.
  - rewrite elem_of_cons, elem_of_app. destruct b; intros Hd; right;
      [right; apply (list_elem_of_fmap_2' (prod_map _ id) _ (path, descend r path))
      |left; apply (list_elem_of_fmap_2' (prod_map _ id) _ (path, descend l path))]; auto.
Qed.

(** Equality of trees, as a test for the checks below. *)
Fixpoint htree_eqb (t1 t2 : htree) : bool :=
  match t1, t2 with
  | Hole, Hole => true
  | Leaf c1, Leaf c2 => c1 =? c2
  | Node l1 r1, Node l2 r2 => htree_eqb l1 l2 && htree_eqb r1 r2
  | _, _ => false
  end.

Lemma htree_eqb_eq t1 t2 : htree_eqb t1 t2 = true <-> t1 = t2.
Proof.
  revert t2. induction t1 as [|c1|l1 IHl r1 IHr]; intros [|c2|l2 r2]; cbn; try done.
  - rewrite Z.eqb_eq. split; congruence.
  - rewrite andb_true_iff, IHl, IHr. split; [by intros [-> ->]|by intros [= -> ->]].
Qed.

(** The leaves are the bytes, each at the end of its code. *)
Lemma code_tree_leaf c : is_u8 c -> descend code_tree (code_bits c) = Leaf c.
Proof.
  intros Hc. apply htree_eqb_eq.
  apply (forall_u8 (fun c => htree_eqb (descend code_tree (code_bits c)) (Leaf c)));
    [vm_compute; reflexivity|done].
Qed.

Lemma leaf_code path c : descend code_tree path = Leaf c -> is_u8 c /\ path = code_bits c.
Proof.
  intros Hd%descend_leaves.
  assert (Forall (fun e => is_u8 e.2 /\ e.1 = code_bits e.2) (leaves code_tree)) as Hall.
  { apply (Forall_check (fun e => (0 <=? e.2) && (e.2 <? 256)
                                  && bool_decide (e.1 = code_bits e.2)));
      [|vm_compute; reflexivity].
    intros e [He ?%bool_decide_eq_true]%andb_prop. split; [unfold is_u8; lia|done]. }
  rewrite list.Forall_forall in Hall. exact (Hall _ Hd).
Qed.

Lemma codes_app l1 l2 : codes (l1 ++ l2) = codes l1 ++ codes l2.
Proof. apply flat_map_app. Qed.

Lemma descend_app t p1 p2 : descend t (p1 ++ p2) = descend (descend t p1) p2.
Proof.
  revert t. induction p1 as [|b p1 IH]; intros t; [done|].
  destruct t as [| |l r]; [by destruct p2|by destruct p2|apply IH].
Qed.

Lemma code_tree_node : is_node code_tree.
Proof. done. Qed.

Lemma walk_app t a b :
  walk t (a ++ b) =
    match walk t a with
    | (out, Some t') => prod_map (app out) id (walk t' b)
    | (out, None) => (out, None)
    end.
Proof.
  revert t. induction a as [|x a IH]; intros t; cbn [app walk].
  - by destruct (walk t b).
  - destruct t as [| |l r]; try done.
    destruct (if x then r else l) as [|c|l1 r1]; [done| |apply IH].
    rewrite IH. destruct (walk code_tree a) as [out1 [t1|]]; [|done]. cbn.
    by destruct (walk t1 b).
Qed.

(** What a walk from the node at [pre] has read, and where it ends. *)
Lemma walk_sound pre bits out o :
  is_node (descend code_tree pre) -> walk (descend code_tree pre) bits = (out, o) ->
  exists pre', bytes_ok out /\ pre ++ bits = codes out ++ pre'
    /\ forall t, o = Some t -> t = descend code_tree pre' /\ is_node t.
Proof.
  revert pre out o. induction bits as [|b bits IH]; intros pre out o Hn; cbn [walk].
  { intros [= <- <-]. exists pre. rewrite app_nil_r. repeat split; [constructor|..]; congruence. }
  pose proof (descend_app code_tree pre [b]) as Hd.
  destruct (descend code_tree pre) as [| |l r] eqn:Ht; try done. cbn [descend] in Hd.
  destruct (if b then r else l) as [|c|l1 r1]; intros Hw.
  - injection Hw as <- <-. by exists (pre ++ b :: bits).
  - destruct (walk code_tree bits) as [out1 o1] eqn:Hw1. simplify_eq/=.
    destruct (IH [] out1 o code_tree_node Hw1) as (pre' & Ho & He & Hend).
    destruct (leaf_code _ _ Hd) as [Hc Hp].
    exists pre'. repeat split; [by constructor| |by apply Hend..].
    cbn [codes flat_map]. rewrite <- Hp, <- !app_assoc. cbn. do 2 f_equal. exact He.
  - rewrite <- Hd in Hw. destruct (IH (pre ++ [b]) out o ltac:(by rewrite Hd) Hw)
      as (pre' & Ho & He & Hend).
    exists pre'. repeat split; [done| |by apply Hend..]. rewrite <- He, <- app_assoc. done.
Qed.

(** Conversely, along a path and over the codes of symbols. *)
Lemma walk_path t path : is_node (descend t path) -> walk t path = ([], Some (descend t path)).
Proof.
  revert t. induction path as [|b path IH]; intros t; [done|]. cbn [descend walk].
  destruct t as [| |l r]; try done. intros Hn. specialize (IH _ Hn).
  destruct (if b then r else l) as [|c|]; [by destruct path..|done].
Qed.

Lemma walk_leaf t path c rest :
  is_node t -> descend t path = Leaf c ->
  walk t (path ++ rest) = prod_map (cons c) id (walk code_tree rest).
Proof.
  revert t. induction path as [|b path IH]; intros t Hn; cbn [descend]; [by intros ->|].
  destruct t as [| |l r]; try done. cbn [app walk]. intros Hd.
  destruct (if b then r else l) as [|c'|l1 r1]; [by destruct path| |by apply IH].
  destruct path; [|done]. by simplify_eq/=.
Qed.

Lemma walk_codes l rest :
  bytes_ok l -> walk code_tree (codes l ++ rest) = prod_map (app l) id (walk code_tree rest).
Proof.
  induction 1 as [|c l Hc Hl IH]; cbn [codes flat_map app].
  { by destruct (walk code_tree rest). }
  rewrite <- app_assoc, (walk_leaf code_tree (code_bits c) c)
    by (apply code_tree_node || by apply code_tree_leaf).
  fold (codes l). rewrite IH. by destruct (walk code_tree rest).
Qed.

(** The nodes where the input may end: fewer than thirty ones. *)
Definition ones_tree (k : nat) : htree := descend code_tree (repeat true k).
Definition padding_trees : list htree := Eval vm_compute in map ones_tree (seq 0 30).

Lemma padding_ones path :
  is_node (descend code_tree path) ->
  existsb (htree_eqb (descend code_tree path)) padding_trees = true <->
  exists k, (k < 30)%nat /\ path = repeat true k.
Proof.
  intros Hn. assert (Forall (fun e => existsb (htree_eqb e.2) padding_trees = true ->
    exists k, (k < 30)%nat /\ e.1 = repeat true k) (inner code_tree)) as Hall.
  { apply (Forall_check (fun e => implb (existsb (htree_eqb e.2) padding_trees)
      ((length e.1 <? 30)%nat && bool_decide (e.1 = repeat true (length e.1)))));
      [|vm_compute; reflexivity].
    intros e He Hex. rewrite Hex in He. cbn in He.
    apply andb_prop in He as [Hl%Nat.leb_le Hp%bool_decide_eq_true].
    exists (length e.1). split; [lia|done]. }
  rewrite list.Forall_forall in Hall. split.
  - intros Hex. exact (Hall _ (descend_inner _ _ Hn) Hex).
  - intros (k & Hk & ->). change padding_trees with (map ones_tree (seq 0 30)).
    apply existsb_exists. exists (ones_tree k). split.
    + apply in_map, in_seq. lia.
    + by apply htree_eqb_eq.
Qed.

(** ** The decoder against the tree *)

(** The states of the automaton are the inner nodes, in preorder. *)
Definition state_trees : list htree := Eval vm_compute in map snd (inner code_tree).
Definition tree_at (state : Z) : htree := default Hole (state_trees !! Z.to_nat state).
Definition may_end (t : htree) : bool := existsb (htree_eqb t) padding_trees.

(** An entry of the table does what four bits do in the tree. *)
Definition entry_ok (state bits : Z) : bool :=
  match code_at state bits with
  | Some e =>
      match walk (tree_at state) (bits_of 4 bits) with
      | (out, Some t) =>
          negb (next e =? state) && bool_decide (out = if negb (emit e =? 0) then [sym e] else [])
          && ((0 <=? next e) && (next e <? 256)) && htree_eqb (tree_at (next e)) t
          && Bool.eqb (negb (ending e =? 0)) (may_end t)
      | (out, None) => (next e =? state) && bool_decide (out = [])
      end
  | None => false
  end.

Lemma entries_ok state bits : is_u8 state -> 0 <= bits < 16 -> entry_ok state bits = true.
Proof.
  intros Hs Hb.
  assert (forallb (fun s => forallb (entry_ok s) (seqZ 0 16)) all_u8 = true) as Hall
    by (vm_compute; reflexivity).
  pose proof (forall_u8 _ Hall state Hs) as Hrow. cbn beta in Hrow.
  rewrite forallb_forall in Hrow. apply Hrow, list_elem_of_In, elem_of_seqZ. lia.
Qed.

(** What the automaton has to do with the tree. *)
Record follows (d : decoder) (t : htree) : Prop := {
  follows_state : is_u8 (d_state d);
  follows_tree : tree_at (d_state d) = t;
  follows_ending : negb (d_ending d =? 0) = may_end t;
}.

(** Some bits decoded: what the walk emits is appended, and the automaton
    follows or, if the walk fails, the decoder does. *)
Definition decodes (d : decoder) (bits : list bool) (r : option (Z * decoder)) : Prop :=
  exists d', d_dst d' = d_dst d ++ (walk (tree_at (d_state d)) bits).1
    /\ match (walk (tree_at (d_state d)) bits).2 with
       | Some t => r = Some (NGX_OK, d') /\ follows d' t
       | None => r = Some (NGX_ERROR, d')
       end.

Lemma decode_bits_walk d bits :
  is_u8 (d_state d) -> 0 <= bits < 16 ->
  decodes d (bits_of 4 bits) (ngx_http_huff_decode_bits d bits).
Proof.
  intros Hs Hb. pose proof (entries_ok _ _ Hs Hb) as He.
  unfold entry_ok, decodes, ngx_http_huff_decode_bits in *.
  destruct (code_at _ _) as [e|]; [|done]. cbn [mbind option_bind].
  destruct (walk _ _) as [out [t|]]; rewrite !andb_true_iff in He; cbn [fst snd].
  - destruct He as ((((Hn & Hout) & Hrange) & Ht) & Hend).
    apply negb_true_iff in Hn. apply bool_decide_eq_true in Hout as ->.
    apply htree_eqb_eq in Ht. apply Bool.eqb_prop in Hend. rewrite Hn. eexists.
    split; [|split; [done|constructor; cbn; [unfold is_u8; lia|done|done]]].
    cbn. destruct (emit e =? 0); cbn; [by rewrite app_nil_r|done].
  - destruct He as [-> ->%bool_decide_eq_true]. exists d. by rewrite app_nil_r.
Qed.

Lemma byte_nibbles c : is_u8 c ->
  bits_of 8 c = bits_of 4 (Z.shiftr c 4) ++ bits_of 4 (Z.land c 0xf)
  /\ 0 <= Z.shiftr c 4 < 16 /\ 0 <= Z.land c 0xf < 16.
Proof.
  unfold is_u8. intros Hc. rewrite shiftr_div by done. change 0xf with (Z.ones 4).
  rewrite land_ones_mod by done. split; [|split; lia_mod].
  rewrite (bits_of_app 4 4). f_equal. symmetry. apply (bits_of_mod 4).
Qed.

(** The second part after the first one, if that did not fail. *)
Lemma decodes_app d b1 b2 r1 r2 r :
  decodes d b1 r1 ->
  (forall d1, r1 = Some (NGX_ERROR, d1) -> r = r1) ->
  (forall d1 t, r1 = Some (NGX_OK, d1) -> follows d1 t -> decodes d1 b2 (r2 d1) /\ r = r2 d1) ->
  decodes d (b1 ++ b2) r.
Proof.
  unfold decodes. intros (d1 & Hd1 & H1) Herr Hok. rewrite walk_app.
  destruct (walk (tree_at (d_state d)) b1) as [out1 [t1|]]; cbn [fst snd] in *.
  - destruct H1 as [-> Hf]. destruct (Hok d1 t1 eq_refl Hf) as [(d2 & Hd2 & H2) ->].
    rewrite (follows_tree _ _ Hf) in *.
    exists d2. destruct (walk t1 b2) as [out2 o2]; cbn [prod_map fst snd] in *.
    by rewrite Hd2, Hd1, <- app_assoc.
  - exists d1. split; [done|]. by rewrite (Herr d1) by done.
Qed.

Lemma decode_loop_walk d src :
  bytes_ok src -> is_u8 (d_state d) -> (src = [] -> follows d (tree_at (d_state d))) ->
  decodes d (bits_of_bytes src) (decode_loop d src).
Proof.
  intros Hok. revert d. induction Hok as [|c src Hc Hok IH]; intros d Hs Hf.
  { exists d. cbn. rewrite app_nil_r. by split_and!; [..|apply Hf]. }
  destruct (byte_nibbles c Hc) as (Hbits & Hhi & Hlo).
  unfold bits_of_bytes in *. cbn [flat_map decode_loop]. rewrite Hbits, <- app_assoc.
  eapply decodes_app; [by apply decode_bits_walk|by intros d1 ->|].
  intros d1 t1 -> Hf1. split; [|reflexivity]. cbn [mbind option_bind negb].
  eapply decodes_app; [by apply decode_bits_walk; [apply Hf1|]|by intros d2 ->|].
  intros d2 t2 -> Hf2. split; [|reflexivity].
  apply IH; [apply Hf2|]. by rewrite (follows_tree _ _ Hf2).
Qed.

(** ** What the decoder accepts *)

(** [src] codes [out]: the codes one after another, then fewer than 30 ones. *)
Definition codes_for (out src : list Z) : Prop :=
  bytes_ok out
  /\ exists k, (k < 30)%nat /\ bits_of_bytes src = codes out ++ repeat true k.

Lemma start_follows dst :
  follows {| d_state := 0; d_ending := 1; d_dst := dst |} code_tree.
Proof. constructor; [done|reflexivity|reflexivity]. Qed.

Lemma codes_for_walk out src :
  codes_for out src ->
  exists t, walk code_tree (bits_of_bytes src) = (out, Some t) /\ may_end t = true.
Proof.
  intros (Hok & k & Hk & Hbits).
  assert (is_node (ones_tree k)) as Hn.
  { assert (Forall (fun k => is_node (ones_tree k)) (seq 0 30)) as Hall.
    { apply (Forall_check (fun k => match ones_tree k with Node _ _ => true | _ => false end));
        [|vm_compute; reflexivity]. intros k'. by destruct (ones_tree k'). }
    rewrite list.Forall_forall in Hall. apply Hall, elem_of_seq. lia. }
  exists (ones_tree k). rewrite Hbits, walk_codes, walk_path by done. cbn [prod_map fst snd].
  rewrite app_nil_r. split; [done|]. apply padding_ones; eauto.
Qed.

Lemma walk_codes_for src out t :
  walk code_tree (bits_of_bytes src) = (out, Some t) -> may_end t = true -> codes_for out src.
Proof.
  intros Hw Hend. destruct (walk_sound [] _ _ _ code_tree_node Hw) as (pre & Hok & He & Hend').
  destruct (Hend' t eq_refl) as [-> Hn].
  apply padding_ones in Hend as (k & Hk & ->); [|done]. split; [done|]. eauto.
Qed.

(** A string that arrives in pieces: [last] is set for the last one. *)
Fixpoint decode_pieces (state : Z) (dst : list Z) (pieces : list (list Z)) (src : list Z)
    : option (Z * Z * list Z) :=
  match pieces with
  | [] => ngx_http_huff_decode state src dst true
  | piece :: pieces' =>
      '(rc, state, dst) ← ngx_http_huff_decode state piece dst false;
      if negb (rc =? NGX_OK) then Some (rc, state, dst)
      else decode_pieces state dst pieces' src
  end.

(** The result after all of the bits: whether the walk may end where it does. *)
Definition decoded (t : htree) (bits : list bool) (dst : list Z)
    (r : option (Z * Z * list Z)) : Prop :=
  exists rc st, r = Some (rc, st, dst ++ (walk t bits).1)
    /\ match (walk t bits).2 with
       | Some t' => if may_end t' then rc = NGX_OK /\ st = 0 else rc = NGX_ERROR
       | None => rc = NGX_ERROR
       end.

Lemma decode_last state src dst :
  bytes_ok src -> is_u8 state -> (src = [] -> may_end (tree_at state) = true) ->
  decoded (tree_at state) (bits_of_bytes src) dst (ngx_http_huff_decode state src dst true).
Proof.
  intros Hok Hs Hend. unfold ngx_http_huff_decode, decoded.
  pose proof (decode_loop_walk {| d_state := state; d_ending := 1; d_dst := dst |} src Hok Hs)
    as (d & Hd & Hr).
  { intros ->. constructor; [done..|]. symmetry. by apply Hend. }
  cbn [d_state d_dst] in *. rewrite <- Hd.
  destruct (walk _ _) as [out [t|]]; cbn [fst snd] in *.
  - destruct Hr as [-> Hf]. rewrite <- (follows_ending _ _ Hf).
    cbn [mbind option_bind negb Z.eqb]. destruct (d_ending d =? 0); cbn; eauto.
  - rewrite Hr. cbn. eauto.
Qed.

Lemma code_bits_length c : is_u8 c -> (5 <= length (code_bits c))%nat.
Proof.
  intros Hc. apply Nat.leb_le.
  apply (forall_u8 (fun c => (5 <=? length (code_bits c))%nat)); [vm_compute; reflexivity|done].
Qed.

Lemma codes_length l : bytes_ok l -> (5 * length l <= length (codes l))%nat.
Proof.
  induction 1 as [|c l Hc Hl IH]; [done|]. cbn [codes flat_map length]. rewrite length_app.
  pose proof (code_bits_length c Hc). fold (codes l). lia.
Qed.

Lemma walk_bound src : (5 * length (walk code_tree (bits_of_bytes src)).1 <= 8 * length src)%nat.
Proof.
  destruct (walk code_tree _) as [out o] eqn:Hw.
  destruct (walk_sound [] _ _ _ code_tree_node Hw) as (pre & Ho & He & _).
  pose proof (codes_length out Ho). rewrite <- length_bits_of_bytes. cbn [app fst] in *.
  rewrite He, length_app. lia.
Qed.

(** A piece that is not the last one. *)
Lemma decode_piece state src dst :
  bytes_ok src -> is_u8 state ->
  exists rc st,
    ngx_http_huff_decode state src dst false
    = Some (rc, st, dst ++ (walk (tree_at state) (bits_of_bytes src)).1)
    /\ match (walk (tree_at state) (bits_of_bytes src)).2 with
       | Some t => rc = NGX_OK /\ is_u8 st /\ tree_at st = t
       | None => rc = NGX_ERROR
       end.
Proof.
  intros Hok Hs. destruct (decide (src = [])) as [->|Hne].
  { exists NGX_OK, state. cbn. by rewrite app_nil_r. }
  unfold ngx_http_huff_decode.
  pose proof (decode_loop_walk {| d_state := state; d_ending := 1; d_dst := dst |} src
    Hok Hs ltac:(done)) as (d & Hd & Hr).
  cbn [d_state d_dst] in *. rewrite <- Hd.
  destruct (walk _ _) as [out [t|]]; cbn [fst snd] in *.
  - destruct Hr as [-> Hf]. exists NGX_OK, (d_state d).
    split_and!; [done..|by apply Hf|by apply follows_tree].
  - rewrite Hr. by exists NGX_ERROR, (d_state d).
Qed.

Lemma decode_pieces_walk pieces state src dst :
  Forall bytes_ok pieces -> bytes_ok src -> is_u8 state ->
  (src = [] -> pieces = [] /\ may_end (tree_at state) = true) ->
  decoded (tree_at state) (bits_of_bytes (concat pieces ++ src)) dst
    (decode_pieces state dst pieces src).
Proof.
  intros Hp Hok. revert state dst. induction Hp as [|piece pieces Hpiece Hp IH];
    intros state dst Hs Hend; cbn [decode_pieces concat app].
  { apply decode_last; [done..|]. intros ->. by apply Hend. }
  assert (src <> []) as Hsrc by (intros ->; destruct Hend; done).
  destruct (decide (piece = [])) as [->|Hne]; [by apply IH|].
  rewrite <- app_assoc, bits_of_bytes_app. unfold decoded.
  destruct (decode_piece state piece dst Hpiece Hs) as (rc & st & -> & Hr). rewrite walk_app.
  destruct (walk _ (bits_of_bytes piece)) as [out [t|]]; cbn [fst snd] in *.
  - destruct Hr as (-> & Hst & <-). cbn [mbind option_bind negb Z.eqb NGX_OK].
    destruct (IH st (dst ++ out) Hst ltac:(done)) as (rc & st' & -> & Hw). exists rc, st'.
    destruct (walk (tree_at st) _) as [out2 o2]; cbn [prod_map fst snd] in *.
    by rewrite <- app_assoc.
  - rewrite Hr. cbn. eauto.
Qed.

(** C20: [ngx_http_huff_decode], on a string that arrives in any pieces, always returns, within the table and without writing more than the 8/5 of the length that its callers allocate; it accepts exactly the codes of some bytes, one after another, padded with fewer than 30 ones, and then yields these bytes. *)
Theorem ngx_http_huff_decode_correct (pieces : list (list Z)) (src dst : list Z)
    (Hp : Forall bytes_ok pieces) (Hsrc : bytes_ok src) (Hlast : src = [] -> pieces = []) :
  let input := concat pieces ++ src in
  exists rc st out,
    decode_pieces 0 dst pieces src = Some (rc, st, dst ++ out)
    /\ (5 * length out <= 8 * length input)%nat
    /\ ((rc = NGX_OK /\ st = 0 /\ codes_for out input)
        \/ (rc = NGX_ERROR /\ forall out', ~ codes_for out' input)).
Proof.
  cbn zeta. destruct (decode_pieces_walk pieces 0 src dst Hp Hsrc ltac:(done))
    as (rc & st & -> & Hend); [by auto|].
  change (tree_at 0) with code_tree in *.
  pose proof (walk_bound (concat pieces ++ src)) as Hbound.
  destruct (walk code_tree _) as [out o] eqn:Hw. cbn [fst snd] in *.
  exists rc, st, out. split_and!; [done|done|].
  assert (forall out', codes_for out' (concat pieces ++ src) ->
    exists t, o = Some t /\ may_end t = true) as Hcode.
  { intros out' (t & Ht & Hm)%codes_for_walk. rewrite Hw in Ht. simplify_eq. eauto. }
  destruct o as [t|]; [destruct (may_end t) eqn:Hm|].
  - left. destruct Hend as [-> ->]. split_and!; [done..|]. by apply (walk_codes_for _ _ t).
  - right. split; [done|]. intros out' (t' & ? & ?)%Hcode. simplify_eq. congruence.
  - right. split; [done|]. intros out' (t' & ? & ?)%Hcode. done.
Qed.

(** The bytes 0xf1 0xe3, then 0xff, which is padding for the second one's code. *)
Lemma ngx_http_huff_decode_correct_witness :
  decode_pieces 0 [] [[0xf1]; [0xe3]] [0xff] = Some (NGX_OK, 0, bs "ww")
  /\ exists rc st out, decode_pieces 0 [] [[0xf1]; [0xe3]] [0xff] = Some (rc, st, [] ++ out)
    /\ (5 * length out <= 8 * 3)%nat
    /\ ((rc = NGX_OK /\ st = 0 /\ codes_for out [0xf1; 0xe3; 0xff])
        \/ (rc = NGX_ERROR /\ forall out', ~ codes_for out' [0xf1; 0xe3; 0xff])).
Proof.
  split; [vm_compute; reflexivity|].
  apply (ngx_http_huff_decode_correct [[0xf1]; [0xe3]] [0xff] []).
  - repeat constructor; done.
  - by apply bytes_ok_check.
  - done.
Defined.

(** ** What the encoder writes *)

(** [ngx_tolower], of ngx_string.h. *)
Definition ngx_tolower (c : Z) : Z := if (c >=? "A"%ch) && (c <=? "Z"%ch) then Z.lor c 0x20 else c.
Definition fold_byte (lower : bool) (c : Z) : Z := if lower then ngx_tolower c else c.
Definition folded (lower : bool) (src : list Z) : list Z := map (fold_byte lower) src.

(** An entry of the tables with the bits it stands for. *)
Record entry_bits (e : ngx_http_huff_encode_code_t) (bits : list bool) : Prop := {
  entry_code : code e = val bits;
  entry_len : len e = Z.of_nat (length bits);
  entry_short : (0 < length bits < 64)%nat;
}.

Definition table_of (lower : bool) : list ngx_http_huff_encode_code_t :=
  if lower then ngx_http_huff_encode_table_lc else ngx_http_huff_encode_table.

Lemma table_entry lower c : is_u8 c ->
  exists e, table_of lower !! Z.to_nat c = Some e
    /\ entry_bits e (code_bits (fold_byte lower c)).
Proof.
  intros Hc. set (bits c := code_bits (fold_byte lower c)).
  assert (forallb (fun c => match table_of lower !! Z.to_nat c with
    | Some e => (code e =? val (bits c)) && (len e =? Z.of_nat (length (bits c)))
                && ((1 <=? length (bits c)) && (length (bits c) <=? 63))%nat
    | None => false end) all_u8 = true) as Hall by (by destruct lower; vm_compute).
  pose proof (forall_u8 _ Hall c Hc) as He. cbn beta in He.
  destruct (table_of lower !! Z.to_nat c) as [e|]; [|done]. exists e. split; [done|].
  rewrite !andb_true_iff, !Z.eqb_eq, !Nat.leb_le in He. subst bits. cbn beta in He.
  constructor; [apply He..|]. lia.
Qed.

Lemma word_bytes_bits buf : bits_of_bytes (word_bytes buf) = bits_of 64 buf.
Proof.
  unfold word_bytes, bits_of_bytes. cbn [map flat_map].
  rewrite !shiftr_div by done.
  change 56 with (Z.of_nat 56). change 48 with (Z.of_nat 48). change 40 with (Z.of_nat 40).
  change 32 with (Z.of_nat 32). change 24 with (Z.of_nat 24). change 16 with (Z.of_nat 16).
  change (2 ^ 8) with (2 ^ Z.of_nat 8). change (2 ^ 0) with (2 ^ Z.of_nat 0).
  rewrite !bits_of_u8, app_nil_r. change (2 ^ Z.of_nat 0) with 1. rewrite Z.div_1_r.
  rewrite (bits_of_app 8 56), (bits_of_app 8 48), (bits_of_app 8 40), (bits_of_app 8 32),
    (bits_of_app 8 24), (bits_of_app 8 16), (bits_of_app 8 8). done.
Qed.

Lemma store_ok dst h bytes :
  (h + length bytes <= length dst)%nat ->
  exists dst', store dst h bytes = Some dst' /\ length dst' = length dst
    /\ take (h + length bytes) dst' = take h dst ++ bytes
    /\ forall n, (h + length bytes <= n)%nat -> drop n dst' = drop n dst.
Proof.
  intros Hlen. unfold store. rewrite (proj2 (Nat.leb_le _ _)) by done.
  eexists. split; [done|]. split_and!.
  - rewrite !length_app, length_take, length_drop. lia.
  - rewrite app_assoc, take_app_length'; [done|]. rewrite length_app, length_take_le by lia. done.
  - intros n Hn. rewrite app_assoc, drop_app_ge, drop_drop
      by (rewrite length_app, length_take; lia).
    f_equal. rewrite length_app, length_take. lia.
Qed.

(** The bits so far: those stored, then those pending, at the top of [buf]. *)
Record encodes (dst0 : list Z) (size : nat) (bits : list bool) (e : encoder)
    (pend : list bool) : Prop := {
  encodes_bits : bits = bits_of_bytes (take (e_hlen e) (e_dst e)) ++ pend;
  encodes_bytes : bytes_ok (take (e_hlen e) (e_dst e));
  encodes_pending : e_pending e = Z.of_nat (length pend);
  encodes_room : (length pend < 64)%nat;
  encodes_buf : e_buf e = val pend * 2 ^ Z.of_nat (64 - length pend);
  encodes_hlen : e_hlen e = 0%nat \/ (e_hlen e < size)%nat;
  encodes_length : length (e_dst e) = length dst0;
  encodes_rest : drop size (e_dst e) = drop size dst0;
}.

(** A code that fits under the pending bits of the word. *)
Lemma join_codes a b w :
  (length a + length b <= w)%nat ->
  Z.lor (val a * 2 ^ Z.of_nat (w - length a)) (val b * 2 ^ Z.of_nat (w - (length a + length b)))
  = val (a ++ b) * 2 ^ Z.of_nat (w - (length a + length b)).
Proof.
  intros Hw. pose proof (val_range b) as Hb.
  assert (2 ^ Z.of_nat (w - length a)
          = 2 ^ Z.of_nat (length b) * 2 ^ Z.of_nat (w - (length a + length b))) as Hpow
    by (rewrite <- pow2_add; do 2 f_equal; lia).
  pose proof (pow2_pos (w - (length a + length b))).
  rewrite val_lor; [|lia|].
  - rewrite val_app, Hpow. lia.
  - rewrite Hpow. nia.
Qed.

Lemma val_div_drop a b : val (a ++ b) / 2 ^ Z.of_nat (length b) = val a.
Proof.
  pose proof (val_range b). rewrite val_app, Z.div_add_l, Z.div_small; lia.
Qed.

(** The low bits of a code, moved to the top of the word. *)
Lemma keep_low a b :
  (length b <= 64)%nat ->
  u64 (val (a ++ b) * 2 ^ Z.of_nat (64 - length b)) = val b * 2 ^ Z.of_nat (64 - length b).
Proof.
  intros Hb. pose proof (val_range b) as Hv. unfold u64.
  assert (2 ^ 64 = 2 ^ Z.of_nat (length b) * 2 ^ Z.of_nat (64 - length b)) as Hp.
  { rewrite <- pow2_add. change 64 with (Z.of_nat 64) at 1. do 2 f_equal. lia. }
  pose proof (pow2_pos (64 - length b)).
  rewrite val_app, Hp. rewrite Z.mul_mod_distr_r by lia. f_equal.
  rewrite Z.add_comm, Z.mod_add, Z.mod_small; lia.
Qed.

Lemma length_word_bytes buf : length (word_bytes buf) = 8%nat.
Proof. done. Qed.

Lemma word_bytes_ok buf : bytes_ok (word_bytes buf).
Proof. apply Forall_map, Forall_true. intros k. apply u8_range. Qed.

Lemma pow2_64 n : (n <= 64)%nat -> 2 ^ (64 - Z.of_nat n) = 2 ^ Z.of_nat (64 - n).
Proof. intros. f_equal. lia. Qed.

Lemma encodes_length_bits dst0 size bits e pend :
  encodes dst0 size bits e pend -> (size <= length dst0)%nat ->
  length bits = (8 * e_hlen e + length pend)%nat.
Proof.
  intros [-> _ _ _ _ Hh Hl _] Hs.
  rewrite length_app, length_bits_of_bytes, length_take. lia.
Qed.

(** A code that fits in the word is added to it. *)
Lemma encodes_fits dst0 size bits e pend cb :
  encodes dst0 size bits e pend -> (length pend + length cb < 64)%nat ->
  let n := Z.of_nat (length pend + length cb) in
  encodes dst0 size (bits ++ cb)
    {| e_dst := e_dst e; e_hlen := e_hlen e; e_pending := n;
       e_buf := Z.lor (e_buf e) (u64 (Z.shiftl (val cb) (64 - n))) |} (pend ++ cb).
Proof.
  intros [Hb Hbytes Hp Hr Hbuf Hh Hl Hrest] Hlt n. subst n.
  rewrite shiftl_mul, pow2_64 by lia.
  constructor; cbn [e_hlen e_dst e_pending e_buf]; rewrite ?length_app; try done.
  - by rewrite Hb, <- app_assoc.
  - rewrite u64_small; [rewrite Hbuf; apply join_codes; lia|].
    pose proof (val_range cb). set (w := (64 - (length pend + length cb))%nat).
    assert (2 ^ Z.of_nat (length cb) * 2 ^ Z.of_nat w <= 2 ^ 64)
      by (rewrite <- pow2_add; apply Z.pow_le_mono_r; lia).
    pose proof (pow2_pos w). nia.
Qed.

(** A code of which [c1] fills the word, which is stored, and [c2] is left. *)
Lemma encodes_fills dst0 size bits e pend c1 c2 :
  encodes dst0 size bits e pend -> (length pend + length c1 = 64)%nat ->
  (length c2 < 64)%nat -> (e_hlen e + 8 < size)%nat -> (size <= length dst0)%nat ->
  let n := Z.of_nat (length c2) in
  exists dst',
    store (e_dst e) (e_hlen e) (word_bytes (Z.lor (e_buf e) (Z.shiftr (val (c1 ++ c2)) n)))
      = Some dst'
    /\ encodes dst0 size (bits ++ c1 ++ c2)
         {| e_dst := dst'; e_hlen := (e_hlen e + 8)%nat; e_pending := n;
            e_buf := if negb (n =? 0) then u64 (Z.shiftl (val (c1 ++ c2)) (64 - n)) else 0 |}
         c2.
Proof.
  intros [Hb Hbytes Hp Hr Hbuf Hh Hl Hrest] Hc1 Hc2 Hfit Hs n. subst n.
  rewrite shiftr_div, shiftl_mul, pow2_64, val_div_drop, keep_low by lia.
  pose proof (join_codes pend c1 64 ltac:(lia)) as Hj.
  replace (64 - (length pend + length c1))%nat with 0%nat in Hj by lia.
  rewrite !Z.mul_1_r in Hj. rewrite Hbuf, Hj.
  destruct (store_ok (e_dst e) (e_hlen e) (word_bytes (val (pend ++ c1))))
    as (dst' & -> & Hdl & Hdt & Hdr); rewrite length_word_bytes in *; [lia|]. exists dst'. split; [done|].
  constructor; cbn [e_hlen e_dst e_pending e_buf]; try done; try lia.
  - rewrite Hdt, bits_of_bytes_app, word_bytes_bits, bits_of_val by (rewrite length_app; lia).
    by rewrite Hb, <- !app_assoc.
  - rewrite Hdt. apply Forall_app_2; [done|apply word_bytes_ok].
  - destruct (Z.eqb_spec (Z.of_nat (length c2)) 0) as [H0|H0]; [by destruct c2|done].
  - by rewrite Hdr by lia.
Qed.

Lemma encode_step_spec dst0 size lower bits e pend c :
  encodes dst0 size bits e pend -> is_u8 c -> (size <= length dst0)%nat ->
  let bits' := bits ++ code_bits (fold_byte lower c) in
  (exists e' pend', encode_step (table_of lower) size c e = Some (inl e')
     /\ encodes dst0 size bits' e' pend')
  \/ (encode_step (table_of lower) size c e = Some (inr e) /\ (8 * size <= length bits')%nat).
Proof.
  intros He Hc Hs bits'. pose proof (encodes_length_bits _ _ _ _ _ He Hs) as Hbl.
  destruct (table_entry lower c Hc) as (n & Hn & [Hcode Hlen Hshort]).
  subst bits'. revert Hcode Hlen Hshort. generalize (code_bits (fold_byte lower c)) as cb.
  intros cb Hcode Hlen Hshort. unfold encode_step. rewrite Hn. cbn [mbind option_bind].
  pose proof (encodes_room _ _ _ _ _ He) as Hroom.
  rewrite (encodes_pending _ _ _ _ _ He), Hlen, Hcode, <- Nat2Z.inj_add.
  destruct (Z.ltb_spec (Z.of_nat (length pend + length cb)) 64) as [Hlt|Hge].
  { left. eexists _, _. split; [done|]. apply encodes_fits; [done|lia]. }
  destruct (Nat.leb_spec size (e_hlen e + 8)) as [Hfull|Hfit].
  { right. split; [done|]. rewrite length_app. lia. }
  left. set (k := (64 - length pend)%nat).
  assert (exists c1 c2, cb = c1 ++ c2 /\ length c1 = k) as (c1 & c2 & -> & Hc1).
  { exists (take k cb), (drop k cb). rewrite take_drop, length_take. split; [done|lia]. }
  rewrite length_app in *.
  replace (Z.of_nat (length pend + (length c1 + length c2)) - 64)
    with (Z.of_nat (length c2)) by lia.
  destruct (encodes_fills _ _ _ _ _ c1 c2 He ltac:(lia) ltac:(lia) Hfit Hs) as (dst' & -> & He').
  eexists _, _. split; [reflexivity|exact He'].
Qed.

Lemma encode_loop_spec dst0 size lower src bits e pend :
  encodes dst0 size bits e pend -> bytes_ok src -> (size <= length dst0)%nat ->
  let bits' := bits ++ codes (folded lower src) in
  (exists e' pend', encode_loop (table_of lower) size src e = Some (inl e')
     /\ encodes dst0 size bits' e' pend')
  \/ (exists e' bits1 pend', encode_loop (table_of lower) size src e = Some (inr e')
        /\ encodes dst0 size bits1 e' pend' /\ (8 * size <= length bits')%nat).
Proof.
  intros He Hok Hs. revert bits e pend He.
  induction Hok as [|c src Hc Hok IH]; intros bits e pend He bits'; subst bits'.
  { left. exists e, pend. split; [done|]. cbn. by rewrite app_nil_r. }
  cbn [encode_loop folded map codes flat_map]. rewrite app_assoc.
  destruct (encode_step_spec dst0 size lower bits e pend c He Hc Hs)
    as [(e1 & pend1 & -> & He1)|[-> Hbig]]; cbn [mbind option_bind].
  - apply (IH _ _ _ He1).
  - right. exists e, bits, pend. split_and!; [done..|]. rewrite length_app. lia.
Qed.

Lemma flush_loop_spec n v dst h :
  (h + n <= length dst)%nat ->
  exists dst' bytes, flush_loop n v dst h = Some (dst', (h + n)%nat)
    /\ length dst' = length dst /\ take (h + n) dst' = take h dst ++ bytes
    /\ bits_of_bytes bytes = bits_of (8 * n) v /\ bytes_ok bytes
    /\ forall m, (h + n <= m)%nat -> drop m dst' = drop m dst.
Proof.
  revert dst h. induction n as [|n IH]; intros dst h Hlen; cbn [flush_loop].
  { exists dst, []. rewrite Nat.add_0_r, app_nil_r. by split_and!. }
  set (b := u8 (Z.shiftr v (8 * Z.of_nat n))).
  destruct (store_ok dst h [b]) as (dst1 & -> & Hl1 & Ht1 & Hr1); [cbn [length]; lia|].
  cbn [mbind option_bind length] in *.
  destruct (IH dst1 (S h) ltac:(lia)) as (dst' & bytes & -> & Hl' & Ht' & Hb' & Hok' & Hr').
  exists dst', (b :: bytes). replace (h + S n)%nat with (S h + n)%nat by lia. split_and!; [done|congruence| | |constructor; [apply u8_range|done]|].
  - rewrite Ht'. replace (S h) with (h + 1)%nat by lia. by rewrite Ht1, <- app_assoc.
  - change (b :: bytes) with ([b] ++ bytes). rewrite bits_of_bytes_app, Hb'.
    replace (8 * S n)%nat with (8 + 8 * n)%nat by lia. rewrite bits_of_app. f_equal.
    unfold bits_of_bytes, b. cbn [flat_map]. rewrite app_nil_r, shiftr_div by lia.
    replace (8 * Z.of_nat n) with (Z.of_nat (8 * n)) by lia. apply bits_of_u8.
  - intros m Hm. rewrite Hr' by lia. apply Hr1. lia.
Qed.

Lemma ngx_align_8 p : ngx_align (Z.of_nat p) 8 = Z.of_nat (8 * ((p + 7) / 8)).
Proof.
  unfold ngx_align. change (8 - 1) with (Z.ones 3).
  rewrite <- Z.ldiff_land, Z.ldiff_ones_r by lia.
  rewrite shiftl_mul, shiftr_div by lia. change (Z.ones 3) with 7. change (2 ^ 3) with 8.
  rewrite Nat2Z.inj_mul, Nat2Z.inj_div. change (Z.of_nat 8) with 8.
  rewrite Nat2Z.inj_add. change (Z.of_nat 7) with 7. lia.
Qed.

(** The pending bits padded with ones, in a word and in its [8 * m] top bits. *)
Lemma pad_word pend :
  (length pend < 64)%nat ->
  Z.lor (val pend * 2 ^ Z.of_nat (64 - length pend))
    (Z.shiftr (2 ^ 64 - 1) (Z.of_nat (length pend)))
  = val (pend ++ repeat true (64 - length pend)).
Proof.
  intros Hp. pose proof (join_codes pend (repeat true (64 - length pend)) 64) as Hj.
  rewrite repeat_length in Hj. specialize (Hj ltac:(lia)).
  replace (64 - (length pend + (64 - length pend)))%nat with 0%nat in Hj by lia.
  rewrite !Z.mul_1_r in Hj. rewrite <- Hj. f_equal. rewrite val_ones, <- pow2_64 by lia.
  replace (2 ^ 64 - 1) with (Z.ones 64) by done.
  rewrite Z.shiftr_div_pow2, Z.ones_div_pow2 by lia. rewrite Z.ones_equiv. lia.
Qed.

Lemma pad_bits pend m :
  (length pend <= 8 * m <= 64)%nat ->
  val (pend ++ repeat true (64 - length pend)) / 2 ^ (64 - Z.of_nat (8 * m))
  = val (pend ++ repeat true (8 * m - length pend)).
Proof.
  intros Hm. replace (64 - length pend)%nat with ((8 * m - length pend) + (64 - 8 * m))%nat by lia.
  rewrite repeat_app, app_assoc, pow2_64 by lia.
  rewrite <- (repeat_length true (64 - 8 * m)) at 2. apply val_div_drop.
Qed.

Lemma encode_end_spec dst0 size bits e pend :
  encodes dst0 size bits e pend -> (size <= length dst0)%nat ->
  let total := ((length bits + 7) / 8)%nat in
  exists n dst', encode_end size e = Some (n, dst')
    /\ length dst' = length dst0 /\ drop size dst' = drop size dst0
    /\ ((total < size)%nat -> n = total
        /\ bytes_ok (take n dst')
        /\ bits_of_bytes (take n dst') = bits ++ repeat true (8 * n - length bits))
    /\ ((size <= total)%nat -> n = 0%nat).
Proof.
  intros He Hs total. pose proof (encodes_length_bits _ _ _ _ _ He Hs) as Hbl.
  destruct He as [Hb Hbytes Hp Hr Hbuf Hh Hl Hrest]. unfold encode_end. rewrite Hp.
  destruct (Z.eqb_spec (Z.of_nat (length pend)) 0) as [H0|H0].
  { assert (pend = []) as -> by (by destruct pend). cbn [length] in *.
    assert (total = e_hlen e) as Ht by (subst total; rewrite Hbl; lia_mod).
    exists (e_hlen e), (e_dst e). split_and!; [done..| |lia].
    intros _. split_and!; [done..|]. replace (8 * e_hlen e - length bits)%nat with 0%nat by lia.
    by rewrite Hb, !app_nil_r. }
  rewrite ngx_align_8. set (m := ((length pend + 7) / 8)%nat).
  assert (total = e_hlen e + m)%nat as Ht by (subst total m; rewrite Hbl; lia_mod).
  assert (length pend <= 8 * m < length pend + 8)%nat as Hm by (subst m; lia_mod).
  replace (Z.of_nat (8 * m) / 8) with (Z.of_nat m) by lia_mod. rewrite Nat2Z.id.
  destruct (Nat.leb_spec size (e_hlen e + m)) as [Hbig|Hfit].
  { exists 0%nat, (e_dst e). split_and!; [done..|lia|done]. }
  rewrite Hbuf, pad_word, shiftr_div, pad_bits by lia.
  destruct (flush_loop_spec m (val (pend ++ repeat true (8 * m - length pend))) (e_dst e)
    (e_hlen e)) as (dst' & bytes & -> & Hl' & Ht' & Hb' & Hok' & Hr'); [lia|].
  cbn [mbind option_bind]. exists (e_hlen e + m)%nat, dst'. split_and!; [done|congruence| | |lia].
  - rewrite Hr' by lia. done.
  - intros _. rewrite Ht'. split_and!; [done|by apply Forall_app_2|].
    rewrite bits_of_bytes_app, Hb', bits_of_val
      by (rewrite length_app, repeat_length; lia).
    rewrite Hb at 1. rewrite <- app_assoc. do 3 f_equal. lia.
Qed.

Lemma encode_spec src dst lower :
  bytes_ok src -> (length src <= length dst)%nat ->
  let bits := codes (folded lower src) in
  let total := ((length bits + 7) / 8)%nat in
  exists n dst', ngx_http_huff_encode src dst lower = Some (n, dst')
    /\ length dst' = length dst /\ drop (length src) dst' = drop (length src) dst
    /\ ((total < length src)%nat -> n = total
        /\ bytes_ok (take n dst')
        /\ bits_of_bytes (take n dst') = bits ++ repeat true (8 * n - length bits))
    /\ ((length src <= total)%nat -> n = 0%nat).
Proof.
  intros Hok Hs bits total. unfold ngx_http_huff_encode. fold (table_of lower).
  destruct (encode_loop_spec dst (length src) lower src []
    {| e_dst := dst; e_hlen := 0; e_buf := 0; e_pending := 0 |} [])
    as [(e & pend & -> & He)|(e & bits1 & pend & -> & He & Hbig)]; [|done|done| |].
  - constructor; cbn; auto with lia.
  - cbn [mbind option_bind]. by apply (encode_end_spec _ _ _ _ _ He).
  - cbn [mbind option_bind app] in *. exists 0%nat, (e_dst e).
    split_and!; [done|apply He..| |done].
    intros Ht. exfalso. subst total. revert Ht Hbig. fold bits. intros. lia_mod.
Qed.

Lemma folded_ok lower src : bytes_ok src -> bytes_ok (folded lower src).
Proof.
  intros Hok. apply Forall_map. eapply Forall_impl; [|exact Hok]. intros c Hc.
  assert (forallb (fun c => (0 <=? fold_byte lower c) && (fold_byte lower c <? 256)) all_u8 = true)
    as Hall by (by destruct lower; vm_compute).
  pose proof (forall_u8 _ Hall c Hc) as H. cbn beta in H. unfold is_u8. lia.
Qed.

(** C19: [ngx_http_huff_encode] stores nothing outside the first [len] bytes of [dst]; it returns the length of the coded string, in lower case if asked, when that is shorter than the string, and 0 otherwise; and from what it stored the decoder gets the string back, in however many pieces it arrives. *)
Theorem ngx_http_huff_roundtrip (src dst : list Z) (lower : bool)
    (Hok : bytes_ok src) (Hroom : (length src <= length dst)%nat) :
  let total := ((length (codes (folded lower src)) + 7) / 8)%nat in
  exists n dst',
    ngx_http_huff_encode src dst lower = Some (n, dst')
    /\ length dst' = length dst /\ drop (length src) dst' = drop (length src) dst
    /\ n = (if decide (total < length src)%nat then total else 0%nat)
    /\ (n <> 0%nat -> forall pieces last out,
         last <> [] -> concat pieces ++ last = take n dst' ->
         decode_pieces 0 out pieces last = Some (NGX_OK, 0, out ++ folded lower src)).
Proof.
  intros total. destruct (encode_spec src dst lower Hok Hroom)
    as (n & dst' & He & Hl & Hd & Hsmall & Hbig). fold total in Hsmall, Hbig.
  exists n, dst'. split_and!; [done..| |].
  { destruct (decide _) as [Ht|Ht]; [by apply Hsmall|apply Hbig; lia]. }
  intros Hn pieces last out Hlast Hcut.
  destruct (decide (total < length src)%nat) as [Ht|Ht]; [|exfalso; apply Hn, Hbig; lia].
  destruct (Hsmall Ht) as (-> & Hbytes & Hbits).
  assert (codes_for (folded lower src) (take total dst')) as Hcodes.
  { split; [by apply folded_ok|]. eexists. split; [|exact Hbits]. subst total. lia_mod. }
  destruct (codes_for_walk _ _ Hcodes) as (t & Hw & Hend).
  rewrite <- Hcut in Hw. assert (bytes_ok (concat pieces ++ last)) as [Hp Hlo]%Forall_app
    by (by rewrite Hcut).
  destruct (decode_pieces_walk pieces 0 last out) as (rc & st & -> & Hr); [|done|done|done|].
  { by apply Forall_concat. }
  change (tree_at 0) with code_tree in *. rewrite Hw in *. cbn [fst snd] in *. rewrite Hend in Hr.
  by destruct Hr as [-> ->].
Qed.

(** "AAaa" in lower case. *)
Lemma ngx_http_huff_roundtrip_witness :
  ngx_http_huff_encode (bs "AAaa") [0; 0; 0; 0; 7] true
    = Some (3%nat, [0x18; 0xc6; 0x3f; 0; 7])
  /\ decode_pieces 0 [] [[0x18]; [0xc6]] [0x3f] = Some (NGX_OK, 0, bs "aaaa").
Proof.
  split; [vm_compute; reflexivity|].
  destruct (ngx_http_huff_roundtrip (bs "AAaa") [0; 0; 0; 0; 7] true) as
    (n & dst' & He & _ & _ & _ & Hd).
  - by apply bytes_ok_check.
  - cbn; lia.
  - assert (Some (n, dst') = Some (3%nat, [0x18; 0xc6; 0x3f; 0; 7])) as Heq
      by (rewrite <- He; vm_compute; reflexivity).
    injection Heq as -> ->. by apply Hd.
Defined.

(** Padding of more than seven bits is accepted, up to the 29 ones that are not
    yet the code of the end of the string. *)
Example huff_long_padding : ngx_http_huff_decode 0 [0xff; 0xff] [] true = Some (NGX_OK, 0, []).
Proof. reflexivity. Qed.
