(* ===== verification/HpackTable.v ===== *)
(** * HpackTable: the dynamic table of ngx_http_v2_table.c

    The static and the dynamic table of header compression in HTTP/2.  The bytes
    of the dynamic entries are in a ring of 4096 bytes, the entries themselves are
    objects that are used again after they are evicted, and the pointers to them
    are in a second ring, which grows.  All this is proved to be a list of header
    fields with a limit on its size. *)

From S2P Require Import Prelude.

Definition NGX_HTTP_V2_TABLE_SIZE : nat := Z.to_nat 4096.

(** A header field, as its name and its value. *)
Definition header : Type := list Z * list Z.

Definition ngx_http_v2_static_table : list header := [
  (bs ":authority", []);
  (bs ":method", bs "GET");
  (bs ":method", bs "POST");
  (bs ":path", bs "/");
  (bs ":path", bs "/index.html");
  (bs ":scheme", bs "http");
  (bs ":scheme", bs "https");
  (bs ":status", bs "200");
  (bs ":status", bs "204");
  (bs ":status", bs "206");
  (bs ":status", bs "304");
  (bs ":status", bs "400");
  (bs ":status", bs "404");
  (bs ":status", bs "500");
  (bs "accept-charset", []);
  (bs "accept-encoding", bs "gzip, deflate");
  (bs "accept-language", []);
  (bs "accept-ranges", []);
  (bs "accept", []);
  (bs "access-control-allow-origin", []);
  (bs "age", []);
  (bs "allow", []);
  (bs "authorization", []);
  (bs "cache-control", []);
  (bs "content-disposition", []);
  (bs "content-encoding", []);
  (bs "content-language", []);
  (bs "content-length", []);
  (bs "content-location", []);
  (bs "content-range", []);
  (bs "content-type", []);
  (bs "cookie", []);
  (bs "date", []);
  (bs "etag", []);
  (bs "expect", []);
  (bs "expires", []);
  (bs "from", []);
  (bs "host", []);
  (bs "if-match", []);
  (bs "if-modified-since", []);
  (bs "if-none-match", []);
  (bs "if-range", []);
  (bs "if-unmodified-since", []);
  (bs "last-modified", []);
  (bs "link", []);
  (bs "location", []);
  (bs "max-forwards", []);
  (bs "proxy-authenticate", []);
  (bs "proxy-authorization", []);
  (bs "range", []);
  (bs "referer", []);
  (bs "refresh", []);
  (bs "retry-after", []);
  (bs "server", []);
  (bs "set-cookie", []);
  (bs "strict-transport-security", []);
  (bs "transfer-encoding", []);
  (bs "user-agent", []);
  (bs "vary", []);
  (bs "via", []);
  (bs "www-authenticate", []) ].

(** ** The representation *)

(** [ngx_http_v2_header_t] of a dynamic entry: the lengths and the offsets of the
    [data] pointers in [storage]. *)
Record entry := { name_len : nat; name_data : nat; value_len : nat; value_data : nat }.

(** [ngx_http_v2_hpack_t].  The entries are [objects], and [entries] holds
    pointers to them: their positions there; [None] is what has not been
    initialized.  [entries] is [NULL] at first, like [storage]. *)
Record ngx_http_v2_hpack_t := {
  entries : option (list (option nat));
  objects : list entry;
  added : nat;
  deleted : nat;
  reused : nat;
  allocated : nat;
  size : Z;
  free : Z;
  storage : list Z;
  pos : nat;
}.
#[export] Instance eta_hpack : Eta ngx_http_v2_hpack_t := mk_eta (fun h =>
  Build_ngx_http_v2_hpack_t (entries h) (objects h) (added h) (deleted h) (reused h)
    (allocated h) (size h) (free h) (storage h) (pos h)).

(** As [ngx_pcalloc] leaves it. *)
Definition new_hpack : ngx_http_v2_hpack_t :=
  {| entries := None; objects := []; added := 0; deleted := 0; reused := 0; allocated := 0;
     size := 0; free := 0; storage := []; pos := 0 |}.

(** [entries[i]], and the object it points to. *)
Definition slot (h : ngx_http_v2_hpack_t) (i : nat) : option nat :=
  es ← entries h; o ← es !! i; o.
Definition object (h : ngx_http_v2_hpack_t) (id : nat) : option entry := objects h !! id.

(** Copies out of and into an array, within its bounds. *)
Definition read (mem : list Z) (p n : nat) : option (list Z) :=
  if (p + n <=? length mem)%nat then Some (take n (drop p mem)) else None.
Definition write (mem : list Z) (p : nat) (bytes : list Z) : option (list Z) :=
  if (p + length bytes <=? length mem)%nat
  then Some (take p mem ++ bytes ++ drop (p + length bytes) mem) else None.

(** ** Lookup *)

(** A string of an entry, copied out of the ring. *)
Definition read_string (h : ngx_http_v2_hpack_t) (data len : nat) : option (list Z) :=
  let rest := (NGX_HTTP_V2_TABLE_SIZE - data)%nat in
  if (rest <? len)%nat then
    a ← read (storage h) data rest; b ← read (storage h) 0 (len - rest); Some (a ++ b)
  else read (storage h) data len.

(** [old] is [h2c->state.header] at the call. *)
Definition ngx_http_v2_get_indexed_header (h : ngx_http_v2_hpack_t) (index : nat)
    (name_only : bool) (old : header) : option (Z * header) :=
  match index with
  | O => Some (NGX_ERROR, old)
  | S index =>
      match ngx_http_v2_static_table !! index with
      | Some e => Some (NGX_OK, e)
      | None =>
          let index := (index - length ngx_http_v2_static_table)%nat in
          if (index <? added h - deleted h)%nat then
            id ← slot h ((added h - index - 1) mod allocated h);
            e ← object h id;
            name ← read_string h (name_data e) (name_len e);
            if name_only then Some (NGX_OK, (name, old.2))
            else
              value ← read_string h (value_data e) (value_len e);
              Some (NGX_OK, (name, value))
          else Some (NGX_ERROR, old)
      end
  end.

(** ** Eviction *)

(** [entry = entries[deleted++ % allocated]; free += 32 + ...]. *)
Definition delete_oldest (h : ngx_http_v2_hpack_t) : option ngx_http_v2_hpack_t :=
  id ← slot h (deleted h mod allocated h);
  e ← object h id;
  Some (h <| deleted := (deleted h + 1)%nat |>
          <| free := free h + (32 + Z.of_nat (name_len e) + Z.of_nat (value_len e)) |>).

(** [do ... while (size > free)]; every iteration deletes an entry. *)
Fixpoint account_loop (fuel : nat) (sz : Z) (h : ngx_http_v2_hpack_t)
    : option ngx_http_v2_hpack_t :=
  match fuel with
  | O => None
  | S fuel' =>
      h ← delete_oldest h;
      if sz >? free h then account_loop fuel' sz h else Some h
  end.

Definition ngx_http_v2_table_account (h : ngx_http_v2_hpack_t) (sz : Z)
    : option (Z * ngx_http_v2_hpack_t) :=
  let sz := sz + 32 in
  if sz <=? free h then Some (NGX_OK, h <| free := free h - sz |>)
  else if sz >? size h then
    Some (NGX_DECLINED, h <| deleted := added h |> <| free := size h |>)
  else
    h ← account_loop (S (added h - deleted h)) sz h;
    Some (NGX_OK, h <| free := free h - sz |>).

(** [while (needed > (ssize_t) free)]. *)
Fixpoint resize_loop (fuel : nat) (needed : Z) (h : ngx_http_v2_hpack_t)
    : option ngx_http_v2_hpack_t :=
  if needed >? free h then
    match fuel with
    | O => None
    | S fuel' => h ← delete_oldest h; resize_loop fuel' needed h
    end
  else Some h.

Definition ngx_http_v2_table_size (h : ngx_http_v2_hpack_t) (sz : Z)
    : option (Z * ngx_http_v2_hpack_t) :=
  if sz >? Z.of_nat NGX_HTTP_V2_TABLE_SIZE then Some (NGX_ERROR, h)
  else
    let needed := size h - sz in
    h ← resize_loop (added h - deleted h) needed h;
    Some (NGX_OK, h <| size := sz |> <| free := free h - needed |>).

(** ** Insertion *)

(** A string stored at [pos], where [avail] bytes are taken to be left before the
    end: the storage, the new [pos] and the new [avail]. *)
Definition store_string (mem : list Z) (p : nat) (avail : Z) (bytes : list Z)
    : option (list Z * nat * Z) :=
  let len := Z.of_nat (length bytes) in
  if avail >=? len then
    mem ← write mem p bytes; Some (mem, (p + length bytes)%nat, u64 (avail - len))
  else
    let n := Z.to_nat avail in
    mem ← write mem p (take n bytes);
    mem ← write mem 0 (drop n bytes);
    Some (mem, (length bytes - n)%nat, u64 (Z.of_nat NGX_HTTP_V2_TABLE_SIZE - len)).

(** The first insertion allocates the table. *)
Definition create (h : ngx_http_v2_hpack_t) : ngx_http_v2_hpack_t :=
  match entries h with
  | Some _ => h
  | None => h <| allocated := 64%nat |> <| size := Z.of_nat NGX_HTTP_V2_TABLE_SIZE |>
              <| free := Z.of_nat NGX_HTTP_V2_TABLE_SIZE |>
              <| entries := Some (repeat None 64) |>
              <| storage := repeat 0 NGX_HTTP_V2_TABLE_SIZE |> <| pos := 0%nat |>
  end.

(** The object of the new entry: a new one, or the oldest that was evicted. *)
Definition new_object (h : ngx_http_v2_hpack_t) : option (nat * ngx_http_v2_hpack_t) :=
  if (reused h =? deleted h)%nat then
    Some (length (objects h),
          h <| objects := objects h ++ [{| name_len := 0; name_data := 0; value_len := 0;
                                          value_data := 0 |}] |>)
  else
    id ← slot h (reused h mod allocated h);
    Some (id, h <| reused := (reused h + 1)%nat |>).

(** The pointers moved to an array with 64 more. *)
Definition grow (h : ngx_http_v2_hpack_t) : option ngx_http_v2_hpack_t :=
  if (allocated h =? added h - deleted h)%nat then
    es ← entries h;
    let index := (deleted h mod allocated h)%nat in
    Some (h <| entries := Some (drop index es ++ take index es ++ repeat None 64) |>
            <| added := allocated h |> <| deleted := 0%nat |> <| reused := 0%nat |>
            <| allocated := (allocated h + 64)%nat |>)
  else Some h.

Definition ngx_http_v2_add_header (h : ngx_http_v2_hpack_t) (hd : header)
    : option (Z * ngx_http_v2_hpack_t) :=
  let h := create h in
  '(rc, h) ← ngx_http_v2_table_account h (Z.of_nat (length hd.1 + length hd.2));
  if negb (rc =? NGX_OK) then Some (NGX_OK, h)
  else
    '(id, h) ← new_object h;
    let avail := Z.of_nat NGX_HTTP_V2_TABLE_SIZE - Z.of_nat (pos h) in
    let name_data := pos h in
    '(st, p, avail) ← store_string (storage h) name_data avail hd.1;
    let value_data := p in
    '(st, p, _) ← store_string st value_data avail hd.2;
    let e := {| name_len := length hd.1; name_data := name_data;
                value_len := length hd.2; value_data := value_data |} in
    let h := h <| storage := st |> <| pos := p |> <| objects := <[id := e]> (objects h) |> in
    h ← grow h;
    es ← entries h;
    Some (NGX_OK, h <| entries := Some (<[(added h mod allocated h)%nat := Some id]> es) |>
                    <| added := (added h + 1)%nat |>).

Example hpack_add_get :
  (r ← ngx_http_v2_add_header new_hpack (bs "a", bs "b");
   r ← ngx_http_v2_add_header r.2 (bs "cc", bs "d");
   x ← ngx_http_v2_get_indexed_header r.2 63 false ([], []);
   y ← ngx_http_v2_get_indexed_header r.2 62 true ([], bs "old");
   Some (x, y))
  = Some ((NGX_OK, (bs "a", bs "b")), (NGX_OK, (bs "cc", bs "old"))).
Proof. vm_compute. reflexivity. Qed.

(** ** Rings

    [contents] are the last elements that were put into the array [arr] of [n]
    elements, up to but not including the position [stop], which counts all of
    them. *)

Definition ring {A} (n : nat) (arr : list A) (stop : nat) (contents : list A) : Prop :=
  (length contents <= stop)%nat /\ (length contents <= n)%nat /\ length arr = n
  /\ forall j x, contents !! j = Some x ->
       arr !! ((stop - length contents + j) mod n)%nat = Some x.

(** The array index [d] is that of the position [v]; it may be just past the end. *)
Definition at_pos (n d v : nat) : Prop := (d <= n)%nat /\ (d mod n = v mod n)%nat.

Lemma mod_inj n a b : (a mod n = b mod n -> a <= b < a + n -> a = b)%nat.
Proof.
  intros Hm Hab. pose proof (Nat.Div0.div_mod a n). pose proof (Nat.Div0.div_mod b n).
  assert (a / n = b / n)%nat by nia. nia.
Qed.

Lemma at_pos_mod n d v k :
  at_pos n d v -> (d + k < n)%nat -> ((v + k) mod n = d + k)%nat.
Proof.
  intros [Hd Hm] Hk. rewrite Nat.Div0.add_mod, <- Hm, <- Nat.Div0.add_mod.
  apply Nat.mod_small. lia.
Qed.

Lemma at_pos_add n d v k : at_pos n d v -> (d + k <= n)%nat -> at_pos n (d + k) (v + k).
Proof.
  intros [Hd Hm] Hk. split; [done|].
  by rewrite Nat.Div0.add_mod, Hm, <- Nat.Div0.add_mod.
Qed.

Lemma at_pos_wrap n d v : at_pos n d v -> at_pos n 0 (v + (n - d)).
Proof.
  intros [Hd Hm]. split; [lia|].
  rewrite <- (Nat.Div0.add_mod_idemp_l v), <- Hm, Nat.Div0.add_mod_idemp_l.
  replace (d + (n - d))%nat with n by lia. by rewrite Nat.Div0.mod_same, Nat.Div0.mod_0_l.
Qed.

Lemma ring_drop {A} n (arr : list A) stop a b : ring n arr stop (a ++ b) -> ring n arr stop b.
Proof.
  unfold ring. rewrite length_app. intros (H1 & H2 & H3 & Hr). split_and!; [lia..|done|].
  intros j x Hj. replace (stop - length b + j)%nat
    with (stop - (length a + length b) + (length a + j))%nat by lia.
  apply Hr. rewrite lookup_app_r by lia. by replace (length a + j - length a)%nat with j by lia.
Qed.

Lemma ring_push {A} n (arr : list A) stop c x :
  ring n arr stop c -> (length c < n)%nat ->
  ring n (<[(stop mod n)%nat := x]> arr) (S stop) (c ++ [x]).
Proof.
  intros (H1 & H2 & H3 & Hr) Hn. unfold ring. rewrite length_app, length_insert. cbn [length].
  split_and!; [lia..|done|]. intros j y Hj.
  replace (S stop - (length c + 1) + j)%nat with (stop - length c + j)%nat by lia.
  apply lookup_app_Some in Hj as [Hj|[Hl Hj]].
  - pose proof (lookup_lt_Some _ _ _ Hj).
    rewrite list_lookup_insert_ne; [by apply Hr|].
    intros He. symmetry in He. apply mod_inj in He; lia.
  - apply list_lookup_singleton_Some in Hj as [Hz ->].
    replace (stop - length c + j)%nat with stop by lia.
    apply list_lookup_insert_eq. rewrite H3. apply Nat.mod_upper_bound. lia.
Qed.

Lemma write_lookup mem p b mem' i :
  write mem p b = Some mem' ->
  mem' !! i = if decide (p <= i < p + length b)%nat then b !! (i - p)%nat else mem !! i.
Proof.
  unfold write. destruct (Nat.leb_spec (p + length b) (length mem)); [|done].
  intros [= <-]. destruct (decide _) as [Hi|Hi].
  - rewrite lookup_app_r by (rewrite length_take; lia).
    rewrite length_take, lookup_app_l by lia. f_equal. lia.
  - destruct (decide (i < p)%nat).
    + rewrite lookup_app_l by (rewrite length_take; lia). by rewrite lookup_take_lt by lia.
    + rewrite app_assoc, lookup_app_r by (rewrite length_app, length_take; lia).
      rewrite lookup_drop, length_app, length_take. f_equal. lia.
Qed.

Lemma write_ok mem p b :
  (p + length b <= length mem)%nat ->
  exists mem', write mem p b = Some mem' /\ length mem' = length mem.
Proof.
  intros Hp. unfold write. rewrite (proj2 (Nat.leb_le _ _)) by done. eexists. split; [done|].
  rewrite !length_app, length_take, length_drop. lia.
Qed.

Lemma ring_write n mem stop c p b :
  ring n mem stop c -> at_pos n p stop -> (p + length b <= n)%nat ->
  (length c + length b <= n)%nat ->
  exists mem', write mem p b = Some mem' /\ ring n mem' (stop + length b) (c ++ b)
    /\ at_pos n (p + length b) (stop + length b).
Proof.
  intros (H1 & H2 & H3 & Hr) Hp Hb Hc. destruct (write_ok mem p b) as (mem' & Hw & Hl); [lia|].
  exists mem'. split_and!; [done| |by apply at_pos_add].
  unfold ring. rewrite length_app. split_and!; [lia..|]. intros j x Hj.
  rewrite (write_lookup _ _ _ _ _ Hw).
  replace (stop + length b - (length c + length b) + j)%nat with (stop - length c + j)%nat by lia.
  apply lookup_app_Some in Hj as [Hj|[Hcj Hj]]; pose proof (lookup_lt_Some _ _ _ Hj).
  - rewrite decide_False; [by apply Hr|]. intros Hi.
    set (i := ((stop - length c + j) mod n)%nat) in *.
    assert (i < n)%nat by (apply Nat.mod_upper_bound; lia).
    pose proof (at_pos_mod n p stop (i - p) Hp ltac:(lia)) as He.
    replace (p + (i - p))%nat with i in He by lia. subst i.
    symmetry in He. apply mod_inj in He; lia.
  - replace (stop - length c + j)%nat with (stop + (j - length c))%nat by lia.
    rewrite (at_pos_mod n p) by (done || lia). rewrite decide_True by lia.
    rewrite <- Hj. f_equal. lia.
Qed.

(** A string of the ring is read back, in one or two pieces. *)
Lemma read_ok mem p (x : list Z) :
  (p + length x <= length mem)%nat ->
  (forall k, (k < length x)%nat -> mem !! (p + k)%nat = x !! k) ->
  read mem p (length x) = Some x.
Proof.
  intros Hp Hx. unfold read. rewrite (proj2 (Nat.leb_le _ _)) by done. f_equal.
  apply list_eq. intros k. destruct (decide (k < length x)%nat).
  - rewrite lookup_take_lt, lookup_drop by done. by apply Hx.
  - rewrite lookup_take_ge, (lookup_ge_None_2 x) by lia. done.
Qed.

Lemma read_ring n mem stop a x b p :
  ring n mem stop (a ++ x ++ b) -> at_pos n p (stop - length (x ++ b)) ->
  (p + length x <= n)%nat -> read mem p (length x) = Some x.
Proof.
  intros Hr Hp Hx. apply ring_drop in Hr as (H1 & H2 & H3 & Hr).
  apply read_ok; [lia|]. intros k Hk.
  rewrite <- (at_pos_mod n p _ k Hp) by lia.
  destruct (lookup_lt_is_Some_2 x k Hk) as [y Hy]. rewrite Hy.
  apply Hr. by rewrite lookup_app_l.
Qed.

Abbreviation SIZE := NGX_HTTP_V2_TABLE_SIZE.

Lemma SIZE_eq : Z.of_nat SIZE = 4096.
Proof. reflexivity. Qed.

Lemma read_string_ring h stop a x b d :
  ring SIZE (storage h) stop (a ++ x ++ b) -> at_pos SIZE d (stop - length (x ++ b)) ->
  read_string h d (length x) = Some x.
Proof.
  unfold read_string. generalize SIZE as n. intros n Hr Hd. pose proof Hd as [Hle _].
  destruct (Nat.ltb_spec (n - d) (length x)) as [Hlt|Hge].
  - pose proof Hr as (H1 & H2 & H3 & _). rewrite !length_app in H1, H2.
    rewrite <- (take_drop (n - d) x) in Hr. set (x1 := take (n - d) x) in *.
    set (x2 := drop (n - d) x) in *.
    assert (length x1 = (n - d)%nat) as Hl1 by (subst x1; rewrite length_take; lia).
    assert (length x2 = (length x - (n - d))%nat) as Hl2 by (subst x2; by rewrite length_drop).
    rewrite <- app_assoc in Hr. rewrite <- Hl2, <- Hl1.
    rewrite (read_ring n _ stop a x1 (x2 ++ b) d Hr); [| |lia].
    2: { rewrite app_assoc. subst x1 x2. by rewrite take_drop. }
    cbn [mbind option_bind]. rewrite app_assoc in Hr.
    rewrite (read_ring n _ stop (a ++ x1) x2 b 0 Hr); [| |lia].
    + cbn. subst x1 x2. by rewrite take_drop.
    + apply at_pos_wrap in Hd. rewrite !length_app in *.
      replace (stop - (length x2 + length b))%nat
        with (stop - (length x + length b) + (n - d))%nat by lia. done.
  - by apply (read_ring n _ stop a x b d Hr); [|lia].
Qed.

(** A string is stored behind the others: there is room for it, and [avail] is
    what is left to the end, or enough. *)
Lemma store_string_ring mem stop c p avail x :
  ring SIZE mem stop c -> at_pos SIZE p stop -> (length c + length x <= SIZE)%nat ->
  (avail = Z.of_nat (SIZE - p) \/ Z.of_nat (length x) <= avail <= Z.of_nat (SIZE - p)) ->
  exists mem' p' avail', store_string mem p avail x = Some (mem', p', avail')
    /\ ring SIZE mem' (stop + length x) (c ++ x) /\ at_pos SIZE p' (stop + length x)
    /\ (avail = Z.of_nat (SIZE - p) -> avail' = Z.of_nat (SIZE - p')
        \/ Z.of_nat (SIZE - length x) <= avail' <= Z.of_nat (SIZE - p')).
Proof.
  unfold store_string. pose proof SIZE_eq as Hn. revert Hn. generalize SIZE as n.
  intros n Hn Hr Hp Hc Hav. pose proof Hp as [Hple _].
  destruct (Z.geb_spec avail (Z.of_nat (length x))) as [Hge|Hlt].
  - destruct (ring_write n mem stop c p x Hr Hp) as (mem' & -> & Hr' & Hp'); [lia..|].
    eexists _, _, _. split; [done|]. split_and!; [done..|].
    rewrite u64_small; lia.
  - assert (avail = Z.of_nat (n - p)) as -> by lia. rewrite Nat2Z.id.
    set (m := (n - p)%nat). pose proof Hr as (_ & Hcn & _).
    destruct (ring_write n mem stop c p (take m x) Hr Hp)
      as (mem1 & -> & Hr1 & Hp1); [rewrite length_take; lia..|].
    cbn [mbind option_bind]. rewrite length_take_le in Hr1, Hp1 by lia.
    destruct (ring_write n mem1 (stop + m) (c ++ take m x) 0 (drop m x) Hr1)
      as (mem2 & -> & Hr2 & Hp2).
    { by apply at_pos_wrap. }
    { rewrite length_drop. lia. }
    { rewrite length_app, length_take, length_drop. lia. }
    eexists _, _, _. split; [reflexivity|].
    rewrite length_drop, <- app_assoc, take_drop in *. rewrite Nat.add_0_l in Hp2.
    replace (stop + m + (length x - m))%nat with (stop + length x)%nat in * by lia.
    split_and!; [done..|]. rewrite u64_small; lia.
Qed.

(** ** The table as a list

    The fields, the oldest first, each of the size the protocol gives it; a limit
    on the sum is kept by dropping the oldest ones. *)

Definition field_bytes (f : header) : list Z := f.1 ++ f.2.
Definition field_size (f : header) : Z := Z.of_nat (length (field_bytes f)) + 32.
Definition total (fs : list header) : Z := foldr (fun f n => field_size f + n) 0 fs.

Fixpoint evict (limit : Z) (fs : list header) : list header :=
  match fs with
  | [] => []
  | _ :: fs' => if total fs <=? limit then fs else evict limit fs'
  end.

(** [started]: a field has been inserted, which sets the limit to 4096. *)
Record table := { limit : Z; fields : list header; started : bool }.

Definition empty_table : table := {| limit := 0; fields := []; started := false |}.

Definition table_add (t : table) (f : header) : table :=
  let limit := if started t then limit t else Z.of_nat NGX_HTTP_V2_TABLE_SIZE in
  {| limit := limit; fields := evict limit (fields t ++ [f]); started := true |}.

Definition table_resize (t : table) (n : Z) : table :=
  {| limit := n; fields := evict n (fields t); started := started t |}.

(** Index 1 is the first static field, and 62 the newest dynamic one. *)
Definition table_get (t : table) (index : nat) : option header :=
  match index with
  | O => None
  | S i =>
      match ngx_http_v2_static_table !! i with
      | Some f => Some f
      | None => reverse (fields t) !! (i - length ngx_http_v2_static_table)%nat
      end
  end.

Definition bytes_of (fs : list header) : list Z := concat (map field_bytes fs).

Lemma field_size_pos f : 32 <= field_size f.
Proof. unfold field_size. lia. Qed.

Lemma total_cons f fs : total (f :: fs) = field_size f + total fs.
Proof. done. Qed.

Lemma total_app a b : total (a ++ b) = total a + total b.
Proof. induction a as [|f a IH]; [done|]. cbn [app]. rewrite !total_cons, IH. lia. Qed.

Lemma total_bytes fs : total fs = Z.of_nat (length (bytes_of fs)) + 32 * Z.of_nat (length fs).
Proof.
  induction fs as [|f fs IH]; [done|]. rewrite total_cons, IH. unfold bytes_of.
  cbn [map concat length]. rewrite length_app. unfold field_size. lia.
Qed.

Lemma total_nonneg fs : 0 <= total fs.
Proof. rewrite total_bytes. lia. Qed.

Lemma evict_fits limit fs : total fs <= limit -> evict limit fs = fs.
Proof.
  destruct fs as [|f fs]; [done|]. intros Hl. cbn [evict].
  by rewrite (proj2 (Z.leb_le _ _)).
Qed.

Lemma evict_cons limit f fs :
  limit < total (f :: fs) -> evict limit (f :: fs) = evict limit fs.
Proof. intros Hl. cbn [evict]. by rewrite (proj2 (Z.leb_gt _ _)). Qed.

Lemma evict_total limit fs : 0 <= limit -> total (evict limit fs) <= limit.
Proof.
  intros Hl. induction fs as [|f fs IH]; [done|]. cbn [evict].
  destruct (Z.leb_spec (total (f :: fs)) limit); [done|exact IH].
Qed.

(** Evicting for a new field and then adding it. *)
Lemma evict_snoc limit fs f :
  field_size f <= limit -> evict limit (fs ++ [f]) = evict (limit - field_size f) fs ++ [f].
Proof.
  intros Hl. induction fs as [|g fs IH]; cbn [app].
  { cbn [evict app]. rewrite total_cons. cbn [total foldr].
    by rewrite (proj2 (Z.leb_le _ _)) by lia. }
  assert (total ((g :: fs) ++ [f]) = total (g :: fs) + field_size f) as Ht
    by (rewrite total_app, (total_cons f); cbn; lia).
  cbn [evict app] in *. rewrite Ht.
  destruct (Z.leb_spec (total (g :: fs) + field_size f) limit);
    destruct (Z.leb_spec (total (g :: fs)) (limit - field_size f)); [done|lia..|exact IH].
Qed.

Lemma evict_snoc_big limit fs f :
  0 <= limit < field_size f -> evict limit (fs ++ [f]) = [].
Proof.
  intros Hl. induction fs as [|g fs IH]; cbn [app].
  - rewrite evict_cons; [done|]. rewrite total_cons. cbn. lia.
  - rewrite evict_cons; [exact IH|]. rewrite total_cons, total_app, total_cons. cbn.
    pose proof (field_size_pos g). pose proof (total_nonneg fs). lia.
Qed.

(** ** How the representation holds the list *)

(** The object [id] is that of a field whose bytes start at the position [v]. *)
Definition object_ok (objs : list entry) (id : nat) (f : header) (v : nat) : Prop :=
  exists e, objs !! id = Some e /\ name_len e = length f.1 /\ value_len e = length f.2
    /\ at_pos SIZE (name_data e) v /\ at_pos SIZE (value_data e) (v + length f.1).

(** The objects [ids] are those of the fields, whose bytes end at [stop]. *)
Fixpoint laid (objs : list entry) (stop : nat) (ids : list nat) (fs : list header) : Prop :=
  match ids, fs with
  | [], [] => True
  | id :: ids', f :: fs' =>
      object_ok objs id f (stop - length (bytes_of fs)) /\ laid objs stop ids' fs'
  | _, _ => False
  end.

Lemma laid_length objs stop ids fs : laid objs stop ids fs -> length ids = length fs.
Proof.
  revert fs. induction ids as [|id ids IH]; intros [|f fs]; cbn; try done.
  intros [_ H]. by rewrite (IH fs).
Qed.

(** Other objects may change. *)
Lemma laid_objects objs objs' stop ids fs :
  (forall id, id ∈ ids -> objs' !! id = objs !! id) -> laid objs stop ids fs ->
  laid objs' stop ids fs.
Proof.
  revert fs. induction ids as [|id ids IH]; intros [|f fs] Ho; cbn [laid]; try done.
  intros [(e & He & Hf) Hl]. split.
  - exists e. rewrite Ho by (apply elem_of_cons; by left). done.
  - apply IH; [|done]. intros i Hi. apply Ho, elem_of_cons. by right.
Qed.

Lemma bytes_of_app a b : bytes_of (a ++ b) = bytes_of a ++ bytes_of b.
Proof. unfold bytes_of. by rewrite map_app, concat_app. Qed.

Lemma laid_snoc objs stop ids fs id f :
  laid objs stop ids fs -> object_ok objs id f stop ->
  laid objs (stop + length (field_bytes f)) (ids ++ [id]) (fs ++ [f]).
Proof.
  revert fs. induction ids as [|id0 ids IH]; intros [|f0 fs]; cbn [laid app]; try done.
  - intros _ Hf. split; [|done]. unfold bytes_of. cbn [map concat]. rewrite app_nil_r.
    by replace (stop + length (field_bytes f) - length (field_bytes f))%nat with stop by lia.
  - intros [Hf0 Hl] Hf. split; [|by apply IH].
    change (f0 :: fs ++ [f]) with ((f0 :: fs) ++ [f]).
    rewrite bytes_of_app, length_app.
    replace (length (bytes_of [f])) with (length (field_bytes f))
      by (unfold bytes_of; cbn [map concat]; by rewrite app_nil_r).
    by replace (stop + length (field_bytes f) - (length (bytes_of (f0 :: fs))
                + length (field_bytes f)))%nat with (stop - length (bytes_of (f0 :: fs)))%nat by lia.
Qed.

Lemma laid_lookup objs stop ids fs j f :
  laid objs stop ids fs -> fs !! j = Some f ->
  exists id, ids !! j = Some id
    /\ object_ok objs id f (stop - length (bytes_of (drop j fs))).
Proof.
  revert fs j. induction ids as [|id ids IH]; intros [|f0 fs] j; cbn [laid]; try done.
  intros [Hf0 Hl]. destruct j as [|j]; [|exact (IH fs j Hl)].
  intros [= ->]. by exists id.
Qed.

(** The invariant: [ids] are the objects from [reused] to [added], in the ring of
    pointers, the live ones hold the fields [fs], and their bytes end at the
    position [stop] of the ring of bytes. *)
Record core (h : ngx_http_v2_hpack_t) (es : list (option nat)) (ids : list nat) (stop : nat)
    (fs : list header) : Prop := {
  core_entries : entries h = Some es;
  core_ring : ring (allocated h) es (added h) (Some <$> ids);
  core_length : (length ids = added h - reused h)%nat;
  core_order : (reused h <= deleted h <= added h)%nat;
  core_nodup : NoDup ids;
  core_objects : Forall (fun id => id < length (objects h))%nat ids;
  core_laid : laid (objects h) stop (drop (deleted h - reused h) ids) fs;
  core_storage : ring SIZE (storage h) stop (bytes_of fs);
  core_pos : at_pos SIZE (pos h) stop;
  core_allocated : (0 < allocated h)%nat;
}.

Lemma core_room h es ids stop fs :
  core h es ids stop fs -> (length ids <= allocated h)%nat /\ (length ids <= added h)%nat
    /\ length fs = (added h - deleted h)%nat.
Proof.
  intros C. destruct (core_ring _ _ _ _ _ C) as (H1 & H2 & _). rewrite length_fmap in *.
  pose proof (laid_length _ _ _ _ (core_laid _ _ _ _ _ C)) as Hl.
  rewrite length_drop, (core_length _ _ _ _ _ C) in Hl.
  pose proof (core_order _ _ _ _ _ C). lia.
Qed.

Lemma slot_ok h es ids stop fs j id :
  core h es ids stop fs -> ids !! j = Some id ->
  slot h ((reused h + j) mod allocated h) = Some id.
Proof.
  intros C Hj. pose proof (core_room _ _ _ _ _ C) as (_ & Hl & _).
  destruct (core_ring _ _ _ _ _ C) as (_ & _ & _ & Hr).
  unfold slot. rewrite (core_entries _ _ _ _ _ C). cbn.
  specialize (Hr j (Some id)). rewrite list_lookup_fmap, Hj, length_fmap in Hr.
  rewrite (core_length _ _ _ _ _ C) in Hr, Hl. pose proof (core_order _ _ _ _ _ C).
  replace (added h - (added h - reused h) + j)%nat with (reused h + j)%nat in Hr by lia.
  by rewrite Hr.
Qed.

Lemma delete_oldest_ok h es ids stop f fs :
  core h es ids stop (f :: fs) ->
  exists h', delete_oldest h = Some h' /\ core h' es ids stop fs
    /\ free h' = free h + field_size f /\ size h' = size h.
Proof.
  intros C. pose proof (core_room _ _ _ _ _ C) as (_ & _ & Hn). cbn [length] in Hn.
  pose proof (core_order _ _ _ _ _ C) as Ho.
  destruct (laid_lookup _ _ _ _ 0 f (core_laid _ _ _ _ _ C) eq_refl)
    as (id & Hid & e & He & Hnl & Hvl & _).
  rewrite lookup_drop, Nat.add_0_r in Hid.
  pose proof (slot_ok _ _ _ _ _ _ _ C Hid) as Hs.
  replace (reused h + (deleted h - reused h))%nat with (deleted h) in Hs by lia.
  unfold delete_oldest, object. rewrite Hs. cbn [mbind option_bind]. rewrite He.
  eexists. split; [done|]. cbn. split_and!; [|unfold field_size, field_bytes|done].
  - destruct C as [C1 C2 C3 C4 C5 C6 C7 C8 C9 C10]. constructor; cbn; try done; [lia| |].
    + replace (deleted h + 1 - reused h)%nat with (1 + (deleted h - reused h))%nat by lia.
      rewrite Nat.add_comm, <- drop_drop. revert C7.
      destruct (drop _ ids); [done|]. by intros [_ ?].
    + by apply (ring_drop _ _ _ (field_bytes f)).
  - rewrite length_app, Hnl, Hvl. lia.
Qed.

Lemma account_loop_ok fuel sz h es ids stop fs :
  core h es ids stop fs -> free h = size h - total fs -> free h < sz <= size h ->
  (length fs <= fuel)%nat ->
  exists h', account_loop fuel sz h = Some h' /\ size h' = size h
    /\ core h' es ids stop (evict (size h - sz) fs)
    /\ free h' = size h - total (evict (size h - sz) fs).
Proof.
  revert h fs. induction fuel as [|fuel IH]; intros h [|f fs] C Hf Hsz Hl; cbn [length] in Hl;
    try (cbn in Hf; lia).
  destruct (delete_oldest_ok _ _ _ _ _ _ C) as (h1 & Hd & C1 & Hf1 & Hs1).
  cbn [account_loop]. rewrite Hd. cbn [mbind option_bind]. rewrite total_cons in Hf.
  rewrite evict_cons by (rewrite total_cons; lia).
  destruct (Z.gtb_spec sz (free h1)) as [Hgt|Hle].
  - rewrite <- Hs1. apply IH; [done|lia..].
  - rewrite evict_fits by lia. exists h1. split_and!; [done..|lia].
Qed.

Lemma account_ok h sz es ids stop fs :
  core h es ids stop fs -> free h = size h - total fs -> 0 <= sz ->
  exists rc h', ngx_http_v2_table_account h sz = Some (rc, h') /\ size h' = size h
    /\ ((rc = NGX_OK /\ sz + 32 <= size h
         /\ core h' es ids stop (evict (size h - (sz + 32)) fs)
         /\ free h' = size h - total (evict (size h - (sz + 32)) fs) - (sz + 32))
        \/ (rc = NGX_DECLINED /\ size h < sz + 32 /\ core h' es ids stop [] /\ free h' = size h)).
Proof.
  intros C Hf Hsz. pose proof (core_room _ _ _ _ _ C) as (_ & _ & Hn).
  pose proof (total_nonneg fs). unfold ngx_http_v2_table_account.
  destruct (Z.leb_spec (sz + 32) (free h)) as [Hle|Hgt].
  { eexists _, _. split_and!; [done..|]. left. rewrite evict_fits by lia. cbn.
    split_and!; [done|lia| |lia]. by destruct C. }
  destruct (Z.gtb_spec (sz + 32) (size h)) as [Hbig|Hfit].
  { eexists _, _. split_and!; [done..|]. right. cbn. split_and!; [done|lia| |done].
    destruct C as [C1 C2 C3 C4 C5 C6 C7 C8 C9 C10]. constructor; cbn; try done; [lia| |].
    - by rewrite drop_ge by lia.
    - apply (ring_drop _ _ _ (bytes_of fs)). by rewrite app_nil_r. }
  destruct (account_loop_ok (S (added h - deleted h)) (sz + 32) h es ids stop fs)
    as (h' & -> & Hs' & C' & Hf'); [done|done|lia|lia|].
  eexists _, _. split_and!; [done|done|]. left. cbn. split_and!; [done|lia| |lia].
  by destruct C'.
Qed.

Lemma resize_loop_ok fuel needed h es ids stop fs :
  core h es ids stop fs -> free h = size h - total fs -> needed <= size h ->
  (length fs <= fuel)%nat ->
  exists h', resize_loop fuel needed h = Some h' /\ size h' = size h
    /\ core h' es ids stop (evict (size h - needed) fs)
    /\ free h' = size h - total (evict (size h - needed) fs).
Proof.
  revert h fs. induction fuel as [|fuel IH]; intros h fs C Hf Hn Hl; cbn [resize_loop];
    destruct (Z.gtb_spec needed (free h)) as [Hgt|Hle];
    try (rewrite evict_fits by lia; by exists h);
    destruct fs as [|f fs]; cbn [length] in Hl; try (cbn in Hf; lia).
  destruct (delete_oldest_ok _ _ _ _ _ _ C) as (h1 & Hd & C1 & Hf1 & Hs1).
  rewrite Hd. cbn [mbind option_bind]. rewrite evict_cons by lia.
  rewrite total_cons in Hf. rewrite <- Hs1. apply IH; [done|lia..].
Qed.

(** What insertion leaves alone until it stores the strings. *)
Definition same_bytes (h h' : ngx_http_v2_hpack_t) : Prop :=
  storage h' = storage h /\ pos h' = pos h /\ size h' = size h /\ free h' = free h.

Lemma new_object_ok h es ids stop fs :
  core h es ids stop fs ->
  exists id h' ids', new_object h = Some (id, h') /\ core h' es ids' stop fs
    /\ same_bytes h h' /\ (id < length (objects h'))%nat /\ id ∉ ids'
    /\ (reused h' = deleted h' \/ (length ids' < allocated h')%nat).
Proof.
  intros C. pose proof (core_room _ _ _ _ _ C) as (Hr & _ & _).
  pose proof (core_order _ _ _ _ _ C) as Ho. pose proof (core_length _ _ _ _ _ C) as Hl.
  unfold new_object. destruct (Nat.eqb_spec (reused h) (deleted h)) as [He|Hne].
  - eexists _, _, ids. split; [done|]. split_and!; try done; cbn.
    + destruct C as [C1 C2 C3 C4 C5 C6 C7 C8 C9 C10]. constructor; cbn; try done.
      * eapply Forall_impl; [|exact C6]. cbn. intros id. rewrite length_app. cbn. lia.
      * apply (laid_objects (objects h)); [|done]. intros id Hid. apply lookup_app_l.
        rewrite list.Forall_forall in C6. apply C6.
        rewrite <- (take_drop (deleted h - reused h) ids), elem_of_app. by right.
    + rewrite length_app. cbn. lia.
    + intros Hin. pose proof (core_objects _ _ _ _ _ C) as Hf. rewrite list.Forall_forall in Hf.
      apply Hf in Hin. lia.
    + by left.
  - destruct ids as [|id ids]; [cbn in Hl; lia|].
    pose proof (slot_ok _ _ _ _ _ 0 id C eq_refl) as Hs. rewrite Nat.add_0_r in Hs.
    rewrite Hs. cbn [mbind option_bind]. eexists _, _, ids. split; [done|].
    pose proof (core_nodup _ _ _ _ _ C) as [Hnin Hnd]%list.NoDup_cons.
    pose proof (core_objects _ _ _ _ _ C) as [Hid Hids]%Forall_cons_1.
    split_and!; try done; cbn; [|right; cbn in Hr; lia].
    destruct C as [C1 C2 C3 C4 C5 C6 C7 C8 C9 C10]. constructor; cbn; try done.
    + by apply (ring_drop _ _ _ [Some id]).
    + cbn in Hl. lia.
    + lia.
    + replace (deleted h - reused h)%nat with (S (deleted h - (reused h + 1))) in C7 by lia.
      exact C7.
Qed.

(** All of a full ring, moved to the beginning of a longer one. *)
Lemma ring_rotate {A} n (arr : list A) stop c rest :
  ring n arr stop c -> length c = n -> (0 < n)%nat ->
  let i := ((stop - n) mod n)%nat in
  ring (n + length rest) (drop i arr ++ take i arr ++ rest) n c.
Proof.
  intros (H1 & _ & H3 & Hr) Hc Hn i.
  assert (i < n)%nat as Hi by (apply Nat.mod_upper_bound; lia).
  unfold ring. rewrite !length_app, length_drop, length_take. split_and!; [lia..|].
  intros j x Hj. pose proof (lookup_lt_Some _ _ _ Hj) as Hjn.
  specialize (Hr j x Hj). rewrite Hc in *. rewrite Nat.sub_diag, Nat.add_0_l.
  rewrite Nat.mod_small by lia.
  rewrite <- Nat.Div0.add_mod_idemp_l in Hr. fold i in Hr.
  destruct (decide (i + j < n)%nat).
  - rewrite Nat.mod_small in Hr by lia.
    rewrite lookup_app_l by (rewrite length_drop; lia). by rewrite lookup_drop.
  - replace (i + j)%nat with ((i + j - n) + 1 * n)%nat in Hr by lia.
    rewrite Nat.Div0.mod_add, Nat.mod_small in Hr by lia.
    rewrite lookup_app_r, length_drop by (rewrite length_drop; lia).
    rewrite lookup_app_l by (rewrite length_take; lia).
    rewrite lookup_take_lt by lia. by replace (j - (length arr - i))%nat with (i + j - n)%nat by lia.
Qed.

Lemma grow_ok h es ids stop fs :
  core h es ids stop fs -> reused h = deleted h \/ (length ids < allocated h)%nat ->
  exists h' es', grow h = Some h' /\ core h' es' ids stop fs /\ same_bytes h h'
    /\ objects h' = objects h /\ (length ids < allocated h')%nat.
Proof.
  intros C Hfull. pose proof (core_room _ _ _ _ _ C) as (Hr & _ & _).
  pose proof (core_order _ _ _ _ _ C) as Ho. pose proof (core_length _ _ _ _ _ C) as Hl.
  pose proof (core_allocated _ _ _ _ _ C) as Ha.
  unfold grow. destruct (Nat.eqb_spec (allocated h) (added h - deleted h)) as [He|Hne].
  - rewrite (core_entries _ _ _ _ _ C). cbn [mbind option_bind].
    eexists _, _. split; [done|]. split_and!; [|done|done|cbn; lia].
    destruct C as [C1 C2 C3 C4 C5 C6 C7 C8 C9 C10]. constructor; cbn; try done; try lia.
    + replace (deleted h) with (added h - allocated h)%nat by lia.
      apply (ring_rotate (allocated h) es (added h) _ (repeat None 64)); [done| |done].
      rewrite length_fmap. lia.
    + replace (deleted h - reused h)%nat with 0%nat in C7 by lia. done.
  - exists h, es. split_and!; [done..|]. lia.
Qed.

(** The two strings of the new field. *)
Lemma store_field h es ids stop fs f :
  core h es ids stop fs -> total fs + field_size f <= Z.of_nat SIZE ->
  exists mem p avail mem' p' avail',
    store_string (storage h) (pos h) (Z.of_nat SIZE - Z.of_nat (pos h)) f.1
      = Some (mem, p, avail)
    /\ store_string mem p avail f.2 = Some (mem', p', avail')
    /\ at_pos SIZE p (stop + length f.1)
    /\ ring SIZE mem' (stop + length (field_bytes f)) (bytes_of (fs ++ [f]))
    /\ at_pos SIZE p' (stop + length (field_bytes f)).
Proof.
  intros C Hfit. rewrite total_bytes in Hfit. unfold field_size, field_bytes in Hfit.
  rewrite length_app in Hfit.
  pose proof (core_pos _ _ _ _ _ C) as [Hp _].
  destruct (store_string_ring (storage h) stop (bytes_of fs) (pos h)
    (Z.of_nat SIZE - Z.of_nat (pos h)) f.1) as (mem & p & avail & He & Hr & Hp' & Hav);
    [apply C|apply C|lia|lia|].
  destruct (store_string_ring mem (stop + length f.1) (bytes_of fs ++ f.1) p avail f.2)
    as (mem' & p' & avail' & He' & Hr' & Hp'' & _); [done|done|rewrite length_app; lia| |].
  { destruct Hav; [lia|by left|right; lia]. }
  exists mem, p, avail, mem', p', avail'.
  rewrite bytes_of_app. unfold bytes_of at 2, field_bytes. cbn [map concat].
  rewrite app_nil_r, length_app, Nat.add_assoc, app_assoc. by split_and!.
Qed.

Definition with_field (h : ngx_http_v2_hpack_t) (mem : list Z) (p id : nat) (e : entry) :=
  h <| storage := mem |> <| pos := p |> <| objects := <[id := e]> (objects h) |>.

Lemma grow_with_field h mem p id e :
  grow (with_field h mem p id e) = (fun h' => with_field h' mem p id e) <$> grow h.
Proof.
  unfold grow, with_field. cbn.
  destruct (allocated h =? added h - deleted h)%nat; [|done]. by destruct (entries h).
Qed.

(** The new field becomes the last one. *)
Lemma insert_ok h es ids stop fs id f mem p p' :
  core h es ids stop fs -> (length ids < allocated h)%nat ->
  (id < length (objects h))%nat -> id ∉ ids ->
  at_pos SIZE p (stop + length f.1) ->
  ring SIZE mem (stop + length (field_bytes f)) (bytes_of (fs ++ [f])) ->
  at_pos SIZE p' (stop + length (field_bytes f)) ->
  let e := {| name_len := length f.1; name_data := pos h;
              value_len := length f.2; value_data := p |} in
  let es' := <[(added h mod allocated h)%nat := Some id]> es in
  core ((with_field h mem p' id e) <| entries := Some es' |> <| added := (added h + 1)%nat |>)
    es' (ids ++ [id]) (stop + length (field_bytes f)) (fs ++ [f]).
Proof.
  intros C Hroom Hid Hnew Hp Hmem Hp' e es'.
  assert (<[id:=e]> (objects h) !! id = Some e) as He by by apply list_lookup_insert_eq.
  destruct C as [C1 C2 C3 C4 C5 C6 C7 C8 C9 C10]. constructor; cbn; try done.
  - rewrite fmap_app, Nat.add_1_r. apply ring_push; [done|]. by rewrite length_fmap.
  - rewrite length_app. cbn. lia.
  - lia.
  - apply list.NoDup_app. split_and!; [done| |apply list.NoDup_singleton].
    intros i Hi ->%list_elem_of_singleton. done.
  - rewrite length_insert. apply Forall_app_2; [done|by constructor].
  - rewrite drop_app_le by lia. apply laid_snoc.
    + apply (laid_objects (objects h)); [|done]. intros i Hi. apply list_lookup_insert_ne.
      intros ->. apply Hnew.
      rewrite <- (take_drop (deleted h - reused h) ids), elem_of_app. by right.
    + exists e. split_and!; [exact He|reflexivity|reflexivity|exact C9|exact Hp].
Qed.

(** ** The refinement *)

(** The representation of a table, before and after the first insertion. *)
Record repr (h : ngx_http_v2_hpack_t) (t : table) : Prop := {
  repr_size : size h = limit t;
  repr_limit : 0 <= limit t <= Z.of_nat SIZE;
  repr_fits : total (fields t) <= limit t;
  repr_free : free h = limit t - total (fields t);
  repr_core : if started t then exists es ids stop, core h es ids stop (fields t)
              else entries h = None /\ fields t = []
                   /\ added h = 0%nat /\ deleted h = 0%nat /\ reused h = 0%nat
                   /\ objects h = [];
}.

Lemma ring_empty {A} n (arr : list A) : length arr = n -> ring n arr 0 [].
Proof. intros Hl. unfold ring. cbn. by split_and!; [lia..| |]. Qed.

Lemma create_ok h t :
  repr h t ->
  exists es ids stop, core (create h) es ids stop (fields t)
    /\ size (create h) = (if started t then limit t else Z.of_nat SIZE)
    /\ 0 <= size (create h) <= Z.of_nat SIZE
    /\ free (create h) = size (create h) - total (fields t).
Proof.
  intros [Hs Hl Hfits Hf Hc]. unfold create. destruct (started t).
  - destruct Hc as (es & ids & stop & C). rewrite (core_entries _ _ _ _ _ C).
    exists es, ids, stop. split_and!; [done|lia..].
  - destruct Hc as (-> & -> & Ha & Hd & Hr & Ho). exists (repeat None 64), [], 0%nat.
    pose proof SIZE_eq. split_and!; [|done|cbn; lia..].
    constructor; cbn; rewrite ?Ha, ?Hd, ?Hr.
    + done.
    + by apply ring_empty.
    + done.
    + lia.
    + by apply list.NoDup_nil.
    + done.
    + done.
    + apply ring_empty, repeat_length.
    + split; [lia|reflexivity].
    + lia.
Qed.

Lemma add_header_ok h t f :
  repr h t ->
  exists h', ngx_http_v2_add_header h f = Some (NGX_OK, h') /\ repr h' (table_add t f).
Proof.
  intros R. destruct (create_ok h t R) as (es & ids & stop & C & Hs & Hlim & Hf).
  unfold ngx_http_v2_add_header.
  assert (Z.of_nat (length f.1 + length f.2) + 32 = field_size f) as Hsz
    by (unfold field_size, field_bytes; rewrite length_app; lia).
  destruct (account_ok (create h) (Z.of_nat (length f.1 + length f.2)) es ids stop (fields t))
    as (rc & h1 & -> & Hs1 & Hrc); [done|done|lia|].
  rewrite Hsz in Hrc. cbn [mbind option_bind].
  destruct Hrc as [(-> & Hfit & C1 & Hf1)|(-> & Hbig & C1 & Hf1)].
  2: { eexists. split; [done|]. unfold table_add. rewrite <- Hs. constructor; cbn [limit fields started].
    - done.
    - done.
    - apply evict_total. lia.
    - rewrite Hf1, evict_snoc_big by lia. cbn. lia.
    - rewrite evict_snoc_big by lia. eauto. }
  cbn [negb Z.eqb NGX_OK]. set (fs := evict (size (create h) - field_size f) (fields t)) in *.
  assert (total fs <= size (create h) - field_size f) as Ht by (apply evict_total; lia).
  destruct (new_object_ok _ _ _ _ _ C1) as (id & h2 & ids2 & -> & C2 & (E1 & E2 & E3 & E4) &
    Hid & Hnew & Hroom). cbn [mbind option_bind].
  destruct (store_field h2 es ids2 stop fs f C2) as (mem & p & av & mem' & p' & av' & -> & He2 &
    Hp & Hr' & Hp'); [lia|].
  cbn [mbind option_bind]. rewrite He2. cbn [mbind option_bind].
  set (e := {| name_len := _ |}).
  change (h2 <| storage := mem' |> <| pos := p' |> <| objects := <[id := e]> (objects h2) |>)
    with (with_field h2 mem' p' id e).
  rewrite grow_with_field.
  destruct (grow_ok _ _ _ _ _ C2 Hroom) as (h3 & es3 & -> & C3 & (G1 & G2 & G3 & G4) & G5 &
    Hroom3).
  cbn [fmap option_fmap option_map mbind option_bind].
  change (entries (with_field h3 mem' p' id e)) with (entries h3).
  rewrite (core_entries _ _ _ _ _ C3). cbn [mbind option_bind].
  eexists. split; [reflexivity|]. unfold table_add. rewrite <- Hs.
  constructor; cbn [limit fields started].
  - cbn. congruence.
  - done.
  - apply evict_total. lia.
  - cbn. rewrite evict_snoc, total_app, total_cons by lia. fold fs. cbn [total foldr].
    rewrite G4, E4, Hf1. lia.
  - rewrite evict_snoc by lia. fold fs. eexists _, _, _.
    subst e. rewrite <- G2. apply (insert_ok h3 es3 ids2 stop fs id f mem' p p' C3);
      [done|by rewrite G5|done..].
Qed.

Lemma table_size_ok h t n :
  repr h t -> 0 <= n ->
  exists rc h', ngx_http_v2_table_size h n = Some (rc, h')
    /\ if n <=? Z.of_nat SIZE then rc = NGX_OK /\ repr h' (table_resize t n)
       else rc = NGX_ERROR /\ h' = h.
Proof.
  intros [Hs Hl Hfits Hf Hc] Hn. unfold ngx_http_v2_table_size.
  rewrite Z.gtb_ltb, Z.leb_antisym. destruct (Z.ltb_spec (Z.of_nat SIZE) n) as [Hbig|Hfit];
    cbn [negb]; [by eexists _, _|].
  destruct (started t) eqn:Hst.
  - destruct Hc as (es & ids & stop & C). pose proof (core_room _ _ _ _ _ C) as (_ & _ & Hlen).
    rewrite <- Hs in *.
    destruct (resize_loop_ok (added h - deleted h) (size h - n) h es ids stop (fields t) C Hf)
      as (h' & -> & Hs' & C' & Hf'); [lia..|].
    cbn [mbind option_bind]. eexists _, _. split_and!; [reflexivity|done|].
    replace (size h - (size h - n)) with n in * by lia.
    constructor; cbn -[total evict]; [done|lia|by apply evict_total|lia|]. rewrite Hst. exists es, ids, stop. by destruct C'.
  - destruct Hc as (He & Hfs & Ha & Hd & Hr & Ho). rewrite Ha, Hd. cbn [Nat.sub resize_loop].
    rewrite Hfs in Hf. cbn in Hf. rewrite Z.gtb_ltb, (proj2 (Z.ltb_ge _ _)) by lia.
    cbn [mbind option_bind]. eexists _, _. split_and!; [reflexivity|done|].
    constructor; cbn; rewrite ?Hst, ?Hfs; cbn; [done|lia..|]. by rewrite Ha, Hd, Hr.
Qed.

(** The strings of a live field are read from the ring of bytes. *)
Lemma read_fields h stop fs j f :
  ring SIZE (storage h) stop (bytes_of fs) -> fs !! j = Some f ->
  forall e, name_len e = length f.1 -> value_len e = length f.2 ->
  let v := (stop - length (bytes_of (drop j fs)))%nat in
  at_pos SIZE (name_data e) v -> at_pos SIZE (value_data e) (v + length f.1) ->
  read_string h (name_data e) (name_len e) = Some f.1
  /\ read_string h (value_data e) (value_len e) = Some f.2.
Proof.
  intros Hr Hf e Hnl Hvl v Hn Hv. subst v.
  pose proof Hr as (Hstop & _). rewrite <- (take_drop_middle _ _ _ Hf), !bytes_of_app in Hr, Hstop.
  change (bytes_of (f :: drop (S j) fs)) with ((f.1 ++ f.2) ++ bytes_of (drop (S j) fs)) in *.
  assert (drop j fs = f :: drop (S j) fs) as Hd by (by apply drop_S). rewrite Hd in Hn, Hv.
  change (bytes_of (f :: drop (S j) fs)) with ((f.1 ++ f.2) ++ bytes_of (drop (S j) fs)) in *.
  rewrite <- app_assoc in *. rewrite Hnl, Hvl. split.
  - eapply read_string_ring; [exact Hr|exact Hn].
  - rewrite app_assoc in Hr. eapply read_string_ring; [exact Hr|].
    replace (stop - length (f.2 ++ bytes_of (drop (S j) fs)))%nat with
      (stop - length (f.1 ++ f.2 ++ bytes_of (drop (S j) fs)) + length f.1)%nat; [done|].
    rewrite !length_app in *. lia.
Qed.

Lemma get_indexed_header_ok h t index old :
  repr h t ->
  ngx_http_v2_get_indexed_header h index false old
    = Some match table_get t index with
           | Some f => (NGX_OK, f)
           | None => (NGX_ERROR, old)
           end
  /\ exists o, ngx_http_v2_get_indexed_header h index true old
      = Some match table_get t index with
             | Some f => (NGX_OK, (f.1, o))
             | None => (NGX_ERROR, old)
             end.
Proof.
  intros [_ _ _ _ Hc]. unfold ngx_http_v2_get_indexed_header, table_get.
  destruct index as [|i]; [split; [done|by exists []]|].
  destruct (_ !! i) as [[n v]|]; [split; [done|by exists v]|].
  set (k := (i - _)%nat).
  assert (length (fields t) = added h - deleted h)%nat as Hlen.
  { destruct (started t).
    - destruct Hc as (es & ids & stop & C). by apply (core_room _ _ _ _ _ C).
    - by destruct Hc as (_ & -> & -> & -> & _). }
  destruct (Nat.ltb_spec k (added h - deleted h)) as [Hk|Hk].
  2: { rewrite (lookup_ge_None_2 (reverse _)) by (rewrite length_reverse; lia). split; [done|by exists []]. }
  destruct (started t); [|by destruct Hc as (_ & Hfs & _); rewrite Hfs in Hlen; cbn in Hlen; lia].
  destruct Hc as (es & ids & stop & C).
  destruct (lookup_lt_is_Some_2 (reverse (fields t)) k) as [f Hf]; [rewrite length_reverse; lia|].
  rewrite Hf. rewrite reverse_lookup, Hlen in Hf by lia.
  destruct (laid_lookup _ _ _ _ _ _ (core_laid _ _ _ _ _ C) Hf)
    as (id & Hid & e & He & Hnl & Hvl & Hn & Hv).
  rewrite lookup_drop in Hid. pose proof (core_order _ _ _ _ _ C) as Ho.
  pose proof (slot_ok _ _ _ _ _ _ _ C Hid) as Hs.
  replace (reused h + (deleted h - reused h + (added h - deleted h - S k)))%nat
    with (added h - k - 1)%nat in Hs by lia.
  unfold object. rewrite Hs. cbn [mbind option_bind]. rewrite He. cbn [mbind option_bind].
  destruct (read_fields h stop (fields t) _ f (core_storage _ _ _ _ _ C) Hf e Hnl Hvl Hn Hv)
    as [-> ->].
  destruct f as [n v]. split; [done|by exists old.2].
Qed.

(** The operations that change the table, on the representation and on the list,
    with the codes they return. *)
Inductive op := Add (f : header) | Resize (n : Z).

Definition hpack_op (h : ngx_http_v2_hpack_t) (o : op) : option (Z * ngx_http_v2_hpack_t) :=
  match o with
  | Add f => ngx_http_v2_add_header h f
  | Resize n => ngx_http_v2_table_size h n
  end.

Fixpoint hpack_run (h : ngx_http_v2_hpack_t) (ops : list op)
    : option (list Z * ngx_http_v2_hpack_t) :=
  match ops with
  | [] => Some ([], h)
  | o :: ops' => '(rc, h) ← hpack_op h o; '(rcs, h) ← hpack_run h ops'; Some (rc :: rcs, h)
  end.

Definition table_op (t : table) (o : op) : Z * table :=
  match o with
  | Add f => (NGX_OK, table_add t f)
  | Resize n => if n <=? Z.of_nat SIZE then (NGX_OK, table_resize t n) else (NGX_ERROR, t)
  end.

Fixpoint table_run (t : table) (ops : list op) : list Z * table :=
  match ops with
  | [] => ([], t)
  | o :: ops' => let '(rc, t) := table_op t o in let '(rcs, t) := table_run t ops' in (rc :: rcs, t)
  end.

Definition op_ok (o : op) : Prop := match o with Add _ => True | Resize n => 0 <= n end.

Lemma hpack_op_ok h t o :
  repr h t -> op_ok o ->
  exists h', hpack_op h o = Some ((table_op t o).1, h') /\ repr h' (table_op t o).2.
Proof.
  intros R Ho. destruct o as [f|n]; cbn [hpack_op table_op].
  - by apply add_header_ok.
  - destruct (table_size_ok h t n R Ho) as (rc & h' & -> & Hr).
    destruct (n <=? _); destruct Hr as [-> Hr]; exists h'; split; [done..|done|by subst h'].
Qed.

Lemma hpack_run_ok h t ops :
  repr h t -> Forall op_ok ops ->
  exists h', hpack_run h ops = Some ((table_run t ops).1, h') /\ repr h' (table_run t ops).2.
Proof.
  intros R Hops. revert h t R. induction Hops as [|o ops Ho Hops IH]; intros h t R.
  { by exists h. }
  destruct (hpack_op_ok h t o R Ho) as (h1 & He & R1). cbn [hpack_run table_run].
  rewrite He. cbn [mbind option_bind]. destruct (table_op t o) as [rc t1]. cbn [fst snd] in *.
  destruct (IH h1 t1 R1) as (h2 & -> & R2). exists h2.
  by destruct (table_run t1 ops).
Qed.

Lemma new_hpack_repr : repr new_hpack empty_table.
Proof. constructor; cbn; lia || by split_and!. Qed.

(** C5: After any insertions and size updates since the connection began, [ngx_http_v2_add_header] and [ngx_http_v2_table_size] have stayed within the rings of bytes and of pointers, and returned what they should; the fields in them are those of the list that drops its oldest fields to stay below the limit, whole and in their order under every index, however the rings wrapped, grew and reused their entries; and the list stays below the limit, which stays below 4096. *)
Theorem ngx_http_v2_table_refines (ops : list op) (Hops : Forall op_ok ops) :
  let '(rcs, t) := table_run empty_table ops in
  exists h, hpack_run new_hpack ops = Some (rcs, h)
    /\ total (fields t) <= limit t <= Z.of_nat NGX_HTTP_V2_TABLE_SIZE
    /\ forall index old,
         ngx_http_v2_get_indexed_header h index false old
           = Some match table_get t index with
                  | Some f => (NGX_OK, f)
                  | None => (NGX_ERROR, old)
                  end
         /\ exists value, ngx_http_v2_get_indexed_header h index true old
              = Some match table_get t index with
                     | Some f => (NGX_OK, (f.1, value))
                     | None => (NGX_ERROR, old)
                     end.
Proof.
  destruct (hpack_run_ok new_hpack empty_table ops new_hpack_repr Hops) as (h & Hrun & R).
  destruct (table_run empty_table ops) as [rcs t]. exists h. split; [done|].
  split; [|intros index old; by apply get_indexed_header_ok].
  split; [apply R|apply R].
Qed.

(** An insertion, an update that evicts it, one that is too large, and two more. *)
Definition table_witness_ops : list op :=
  [Add (bs "a", bs "b"); Resize 33; Resize 5000; Resize 70; Add (bs "c", bs "d");
   Add (bs "ef", [])].

Lemma ngx_http_v2_table_refines_witness :
  table_run empty_table table_witness_ops
    = ([NGX_OK; NGX_OK; NGX_ERROR; NGX_OK; NGX_OK; NGX_OK],
       {| limit := 70; fields := [(bs "c", bs "d"); (bs "ef", [])]; started := true |})
  /\ exists h, hpack_run new_hpack table_witness_ops
               = Some ([NGX_OK; NGX_OK; NGX_ERROR; NGX_OK; NGX_OK; NGX_OK], h)
       /\ ngx_http_v2_get_indexed_header h 63 false ([], []) = Some (NGX_OK, (bs "c", bs "d")).
Proof.
  split; [vm_compute; reflexivity|].
  pose proof (ngx_http_v2_table_refines table_witness_ops) as H.
  destruct (table_run empty_table table_witness_ops) as [rcs t] eqn:Hr.
  vm_compute in Hr. injection Hr as <- <-.
  destruct H as (h & Hh & _ & Hget); [repeat constructor; cbn; lia|].
  exists h. split; [exact Hh|]. destruct (Hget 63%nat ([], [])) as [-> _]. reflexivity.
Defined.

(** The limit set before the first insertion does not last. *)
Example early_resize_is_lost :
  limit (table_run empty_table [Resize 0; Add (bs "a", bs "b")]).2 = 4096.
Proof. reflexivity. Qed.
