(* ===== verification/Hpack.v ===== *)
(** * Hpack: the integers and strings of header compression

    [ngx_http_v2_write_int] and [ngx_http_v2_string_encode] of
    ngx_http_v2_encode.c, and [ngx_http_v2_parse_int] of ngx_http_v2.c, which may
    find the integer cut off, by the end of the data received so far or by the end
    of the header block. *)

From S2P Require Import Prelude Bits HuffTable Huffman.

Definition NGX_HTTP_V2_INT_OCTETS : nat := 4.
Definition NGX_HTTP_V2_ENCODE_RAW : Z := 0.
Definition NGX_HTTP_V2_ENCODE_HUFF : Z := 0x80.

(** [ngx_http_v2_prefix(bits)]. *)
Definition ngx_http_v2_prefix (bits : Z) : Z := Z.shiftl 1 bits - 1.

(** ** Writing *)

(** [while (value >= 128)] and the last octet; a 64-bit value takes at most ten. *)
Fixpoint write_int_loop (fuel : nat) (value : Z) : option (list Z) :=
  match fuel with
  | O => None
  | S fuel' =>
      if value >=? 128 then
        l ← write_int_loop fuel' (value / 128); Some (u8 (value mod 128 + 128) :: l)
      else Some [u8 value]
  end.

(** [first] is the octet at [pos], whose high bits are set already. *)
Definition ngx_http_v2_write_int (first prefix value : Z) : option (list Z) :=
  if value <? prefix then Some [u8 (Z.lor first value)]
  else l ← write_int_loop 10 (value - prefix); Some (u8 (Z.lor first prefix) :: l).

(** What is written at [dst], and [tmp], which has room for the string. *)
Definition ngx_http_v2_string_encode (src tmp : list Z) (lower : bool)
    : option (list Z * list Z) :=
  '(hlen, tmp) ← ngx_http_huff_encode src tmp lower;
  if (0 <? hlen)%nat then
    l ← ngx_http_v2_write_int NGX_HTTP_V2_ENCODE_HUFF (ngx_http_v2_prefix 7) (Z.of_nat hlen);
    Some (l ++ take hlen tmp, tmp)
  else
    l ← ngx_http_v2_write_int NGX_HTTP_V2_ENCODE_RAW (ngx_http_v2_prefix 7)
          (Z.of_nat (length src));
    Some (l ++ if lower then map ngx_tolower src else src, tmp).

(** ** Reading *)

(** [for (shift = 0; p != end; shift += 7)]: the value and the position, or [None]
    inside when the end is reached. *)
Fixpoint parse_int_loop (n : nat) (mem : list Z) (p : nat) (shift value : Z)
    : option (option (Z * nat)) :=
  match n with
  | O => Some None
  | S n' =>
      octet ← mem !! p;
      let value := u64 (value + Z.shiftl (Z.land octet 0x7f) shift) in
      if octet <? 128 then Some (Some (value, S p))
      else parse_int_loop n' mem (S p) (shift + 7) value
  end.

(** [length] is [h2c->state.length], the rest of the header block; the result is
    the value or the error code, the new position and the new length. *)
Definition ngx_http_v2_parse_int (mem : list Z) (pos end_ : nat) (prefix : Z) (length : nat)
    : option (Z * nat * nat) :=
  c ← mem !! pos;
  let value := Z.land c prefix in
  if negb (value =? prefix) then
    match length with
    | O => Some (NGX_ERROR, pos, length)
    | S length' => Some (value, S pos, length')
    end
  else
    let end_ := if (NGX_HTTP_V2_INT_OCTETS <? end_ - pos)%nat
                then (pos + NGX_HTTP_V2_INT_OCTETS)%nat else end_ in
    r ← parse_int_loop (end_ - S pos) mem (S pos) 0 value;
    Some match r with
         | Some (value, p) =>
             if (length <? p - pos)%nat then (NGX_ERROR, pos, length)
             else (value, p, (length - (p - pos))%nat)
         | None =>
             if (length <=? end_ - pos)%nat then (NGX_ERROR, pos, length)
             else if (end_ =? pos + NGX_HTTP_V2_INT_OCTETS)%nat then (NGX_DECLINED, pos, length)
             else (NGX_AGAIN, pos, length)
         end.

Example write_int_1337 : ngx_http_v2_write_int 0x80 31 1337 = Some [0x9f; 0x9a; 10].
Proof. reflexivity. Qed.
Example parse_int_1337 :
  ngx_http_v2_parse_int [0x9f; 0x9a; 10; 0] 0 4 31 4 = Some (1337, 3%nat, 1%nat).
Proof. reflexivity. Qed.

(** ** The integers of a header block

    The integer at the beginning of the rest of a block, or the error. *)

Fixpoint octets (n : nat) (shift value : Z) (block : list Z) {struct block} : Z + Z * list Z :=
  match block with
  | [] => inl NGX_ERROR
  | o :: block' =>
      match n with
      | O => inl NGX_DECLINED
      | S n' =>
          let value := value + o mod 128 * 2 ^ shift in
          if o <? 128 then inr (value, block') else octets n' (shift + 7) value block'
      end
  end.

Definition block_int (prefix : Z) (block : list Z) : Z + Z * list Z :=
  match block with
  | [] => inl NGX_ERROR
  | c :: block' =>
      if Z.land c prefix =? prefix then octets 3 0 prefix block'
      else inr (Z.land c prefix, block')
  end.

(** How many octets decide what [block_int] finds. *)
Definition int_needs (prefix : Z) (block : list Z) : nat :=
  match block_int prefix block with
  | inr (_, rest) => length block - length rest
  | inl _ => NGX_HTTP_V2_INT_OCTETS `min` length block
  end.

Lemma octets_rest n shift v block v' rest :
  octets n shift v block = inr (v', rest) ->
  (length rest < length block <= length rest + n)%nat /\ rest = drop (length block - length rest) block.
Proof.
  revert n shift v. induction block as [|o block IH]; intros [|n] shift v; try done.
  cbn [octets]. destruct (o <? 128).
  - intros [= <- <-]. cbn [length]. split; [lia|].
    by replace (S (length block) - length block)%nat with 1%nat by lia.
  - intros [Hl Hr]%IH. cbn [length]. split; [lia|].
    by replace (S (length block) - length rest)%nat with (S (length block - length rest)) by lia.
Qed.

Lemma octets_error n shift v block rc :
  octets n shift v block = inl rc ->
  (rc = NGX_ERROR /\ (length block <= n)%nat) \/ (rc = NGX_DECLINED /\ (n < length block)%nat).
Proof.
  revert n shift v. induction block as [|o block IH]; intros n shift v; cbn [octets].
  { intros [= <-]. left. cbn. split; [done|lia]. }
  destruct n as [|n]; [intros [= <-]; right; cbn; split; [done|lia]|].
  destruct (o <? 128); [done|]. intros [[-> Hl]|[-> Hl]]%IH; cbn; [left|right]; (split; [done|lia]).
Qed.

Lemma octets_nonneg n shift v block v' rest :
  octets n shift v block = inr (v', rest) -> 0 <= v -> 0 <= shift -> 0 <= v'.
Proof.
  revert n shift v. induction block as [|o block IH]; intros [|n] shift v; try done.
  cbn [octets]. intros Ho Hv Hs. pose proof (Z.mod_pos_bound o 128 ltac:(lia)).
  assert (0 <= o mod 128 * 2 ^ shift) by (apply Z.mul_nonneg_nonneg; [lia|by apply Z.pow_nonneg]).
  destruct (o <? 128); [injection Ho as <- _; lia|]. eapply IH; [exact Ho|lia..].
Qed.

(** Of a block that is long enough, the rest does not matter, but for the error. *)
Lemma octets_take n shift v block l :
  (n <= l)%nat -> (l <= length block)%nat ->
  match octets n shift v block with
  | inl _ => exists rc, octets n shift v (take l block) = inl rc
  | inr (v', rest) =>
      octets n shift v (take l block) = inr (v', take (l - (length block - length rest)) rest)
  end.
Proof.
  revert n shift v l. induction block as [|o block IH]; intros n shift v l Hn Hl.
  { rewrite take_nil. by eexists. }
  destruct l as [|l]; [destruct n; [by eexists|lia]|]. cbn [take octets]. destruct n as [|n]; [by eexists|].
  destruct (o <? 128).
  - cbn [length]. do 3 f_equal. lia.
  - cbn [length] in *. specialize (IH n (shift + 7) (v + o mod 128 * 2 ^ shift) l ltac:(lia) ltac:(lia)).
    destruct (octets n _ _ block) as [rc|[v' rest]] eqn:Ho; [done|].
    apply octets_rest in Ho as [Ho _]. rewrite IH. do 3 f_equal. lia.
Qed.

Lemma block_int_rest prefix block v rest :
  block_int prefix block = inr (v, rest) ->
  (length rest < length block <= length rest + 4)%nat
  /\ rest = drop (length block - length rest) block.
Proof.
  destruct block as [|c block]; [done|]. cbn [block_int]. destruct (_ =? _).
  - intros [Hl Hr]%octets_rest. cbn [length]. split; [lia|].
    by replace (S (length block) - length rest)%nat with (S (length block - length rest)) by lia.
  - intros [= _ <-]. cbn [length]. split; [lia|].
    by replace (S (length block) - length block)%nat with 1%nat by lia.
Qed.

Lemma block_int_nonneg prefix block v rest :
  block_int prefix block = inr (v, rest) -> 0 <= prefix -> 0 <= v.
Proof.
  destruct block as [|c block]; [done|]. cbn [block_int]. intros Hb Hp.
  destruct (_ =? _); [by eapply octets_nonneg|]. injection Hb as <- _. apply Z.land_nonneg. by right.
Qed.

Lemma block_int_error prefix block rc :
  block_int prefix block = inl rc -> rc = NGX_ERROR \/ rc = NGX_DECLINED.
Proof.
  destruct block as [|c block]; [intros [= <-]; by left|]. cbn [block_int].
  destruct (_ =? _); [|done]. intros [[-> _]|[-> _]]%octets_error; [by left|by right].
Qed.

Lemma block_int_take prefix block l :
  (NGX_HTTP_V2_INT_OCTETS <= l)%nat -> (l <= length block)%nat ->
  match block_int prefix block with
  | inl rc => (rc = NGX_DECLINED \/ l = length block) /\ exists rc', block_int prefix (take l block) = inl rc'
  | inr (v, rest) =>
      block_int prefix (take l block) = inr (v, take (l - (length block - length rest)) rest)
  end.
Proof.
  unfold NGX_HTTP_V2_INT_OCTETS. intros H4 Hl.
  destruct block as [|c block]; [cbn in Hl; lia|]. destruct l as [|l]; [lia|].
  cbn [take block_int length] in *. destruct (_ =? _).
  - pose proof (octets_take 3 0 prefix block l ltac:(lia) ltac:(lia)) as Ht.
    destruct (octets 3 0 prefix block) as [rc|[v rest]] eqn:Ho.
    + split; [|done]. apply octets_error in Ho as [[_ Ho]|[-> _]]; [right; lia|by left].
    + apply octets_rest in Ho as [Ho _]. rewrite Ht. do 3 f_equal. lia.
  - do 3 f_equal. lia.
Qed.

(** One octet more does not overflow. *)
Lemma octet_step m shift value o :
  0 <= shift -> 0 <= value ->
  value + Z.of_nat (S m) * 2 ^ (shift + 7 * Z.of_nat (S m)) < 2 ^ 64 -> 0 <= o < 256 ->
  let value' := value + o mod 128 * 2 ^ shift in
  u64 (value + Z.shiftl (Z.land o 0x7f) shift) = value' /\ 0 <= value'
  /\ value' + Z.of_nat m * 2 ^ ((shift + 7) + 7 * Z.of_nat m) < 2 ^ 64.
Proof.
  intros Hs Hv Hb Ho value'. change 0x7f with (Z.ones 7).
  rewrite land_ones_mod, shiftl_mul by lia. fold value'.
  pose proof (Z.mod_pos_bound o 128 ltac:(lia)) as Hm.
  assert (0 < 2 ^ shift) by (apply Z.pow_pos_nonneg; lia).
  replace (shift + 7 + 7 * Z.of_nat m) with (shift + 7 * Z.of_nat (S m)) by lia.
  assert (2 ^ (shift + 7) <= 2 ^ (shift + 7 * Z.of_nat (S m))) by (apply Z.pow_le_mono_r; lia).
  assert (2 ^ (shift + 7) = 2 ^ shift * 128) as Hpow by (rewrite Z.pow_add_r; lia).
  assert (value' <= value + 2 ^ (shift + 7 * Z.of_nat (S m))) by (subst value'; nia).
  assert (0 <= value') by (subst value'; nia).
  rewrite u64_small by nia. split_and!; [done|done|nia].
Qed.

Section ParseInt.
Variable mem : list Z.
Hypothesis mem_ok : bytes_ok mem.

(** The [n] octets of [mem] at [p] are those of the block, as far as both go. *)
Definition agrees (p n : nat) (block : list Z) : Prop :=
  forall i, (i < n)%nat -> (i < length block)%nat -> mem !! (p + i)%nat = block !! i.

Lemma loop_octets m n p shift value block :
  (n <= m)%nat -> (p + n <= length mem)%nat -> agrees p n block -> 0 <= shift -> 0 <= value ->
  value + Z.of_nat m * 2 ^ (shift + 7 * Z.of_nat m) < 2 ^ 64 ->
  exists r, parse_int_loop n mem p shift value = Some r
    /\ match octets m shift value block with
       | inr (v, rest) =>
           r = if decide (length block - length rest <= n)%nat
               then Some (v, (p + (length block - length rest))%nat) else None
       | inl _ => forall v q, r = Some (v, q) -> (length block < q - p <= n)%nat
       end.
Proof.
  revert n p shift value block. induction m as [|m IH];
    intros n p shift value block Hn Hp Ha Hs Hv Hb.
  { assert (n = 0%nat) as -> by lia. exists None. split; [done|]. by destruct block. }
  destruct n as [|n].
  { exists None. split; [done|]. destruct (octets _ _ _ _) as [|[v rest]] eqn:Ho; [done|].
    apply octets_rest in Ho as [Ho _]. by rewrite decide_False by lia. }
  destruct (lookup_lt_is_Some_2 mem p ltac:(lia)) as [o Ho]. cbn [parse_int_loop].
  rewrite Ho. cbn [mbind option_bind].
  assert (is_u8 o) as Hou by (eapply Forall_lookup_1; eauto). unfold is_u8 in Hou.
  pose proof (octet_step m shift value o Hs Hv Hb Hou) as (-> & Hv' & Hb').
  set (value' := value + o mod 128 * 2 ^ shift) in *.
  destruct block as [|o' block]; cbn [octets].
  - destruct (Z.ltb_spec o 128).
    + eexists. split; [done|]. intros v q [= <- <-]. cbn. lia.
    + destruct (IH n (S p) (shift + 7) value' []) as (r & -> & Hr); [lia|lia| |lia|lia|lia|].
      { intros i _ Hi. cbn in Hi. lia. }
      exists r. split; [done|]. cbn [octets] in Hr. intros v q Hq.
      specialize (Hr v q Hq). cbn in *. lia.
  - assert (o' = o) as ->.
    { specialize (Ha 0%nat ltac:(lia) ltac:(cbn; lia)). rewrite Nat.add_0_r, Ho in Ha.
      by injection Ha. }
    fold value'. destruct (Z.ltb_spec o 128).
    + eexists. split; [done|]. cbn [length].
      replace (S (length block) - length block)%nat with 1%nat by lia.
      rewrite decide_True by lia. by rewrite Nat.add_1_r.
    + destruct (IH n (S p) (shift + 7) value' block) as (r & -> & Hr); [lia|lia| |lia|lia|lia|].
      { intros i Hi Hl. specialize (Ha (S i) ltac:(lia) ltac:(cbn; lia)).
        by rewrite <- Nat.add_succ_comm in Ha. }
      exists r. split; [done|]. destruct (octets m _ _ block) as [rc|[v rest]] eqn:Hoc.
      * intros v q Hq. specialize (Hr v q Hq). cbn [length]. lia.
      * apply octets_rest in Hoc as [Hl _]. rewrite Hr. cbn [length].
        repeat case_decide; try lia; [|done]. do 2 f_equal. lia.
Qed.

(** The parser on the data received so far: the octets from [pos] to [end_] agree
    with the rest of the block. *)
Lemma parse_int_ok pos end_ prefix block :
  (pos < end_ <= length mem)%nat -> 0 <= prefix < 128 -> agrees pos (end_ - pos) block ->
  ngx_http_v2_parse_int mem pos end_ prefix (length block)
  = Some (if decide (end_ - pos < int_needs prefix block)%nat
          then (NGX_AGAIN, pos, length block)
          else match block_int prefix block with
               | inl rc => (rc, pos, length block)
               | inr (v, rest) => (v, (pos + (length block - length rest))%nat, length rest)
               end).
Proof.
  intros Hpos Hprefix Ha. unfold ngx_http_v2_parse_int, int_needs, NGX_HTTP_V2_INT_OCTETS.
  destruct (lookup_lt_is_Some_2 mem pos ltac:(lia)) as [c Hc]. rewrite Hc.
  cbn [mbind option_bind].
  assert (forall c' block', block = c' :: block' -> c' = c) as Hhead.
  { intros c' block' ->. specialize (Ha 0%nat ltac:(lia) ltac:(cbn; lia)).
    rewrite Nat.add_0_r, Hc in Ha. by injection Ha. }
  destruct (Z.eqb_spec (Z.land c prefix) prefix) as [He|Hne]; cbn [negb].
  2: { destruct block as [|c' block]; cbn [length block_int].
    - rewrite decide_False by (cbn; lia). done.
    - rewrite (Hhead c' block eq_refl), (proj2 (Z.eqb_neq _ _)) by done.
      rewrite decide_False by lia. do 2 f_equal. f_equal; lia. }
  set (e := if (4 <? end_ - pos)%nat then (pos + 4)%nat else end_).
  assert ((e - pos = (end_ - pos) `min` 4)%nat /\ (pos < e <= end_)%nat) as [Hemin Hele].
  { subst e. destruct (Nat.ltb_spec 4 (end_ - pos)); lia. }
  rewrite He. set (b' := tl block).
  destruct (loop_octets 3 (e - S pos) (S pos) 0 prefix b') as (r & -> & Hr); [lia|lia| |lia|lia|lia|].
  { intros i Hi Hl. subst b'. destruct block as [|c' block]; [cbn in Hl; lia|].
    specialize (Ha (S i) ltac:(lia) ltac:(cbn in *; lia)). by rewrite <- Nat.add_succ_comm in Ha. }
  cbn [mbind option_bind]. f_equal.
  destruct block as [|c' block]; subst b'; cbn [tl length block_int octets] in *.
  { rewrite decide_False by (cbn; lia). destruct r as [[v q]|]; [|done].
    specialize (Hr v q eq_refl). by rewrite (proj2 (Nat.ltb_lt _ _)) by lia. }
  rewrite (Hhead c' block eq_refl), He, Z.eqb_refl.
  destruct (octets 3 0 prefix block) as [rc|[v rest]] eqn:Ho.
  - apply octets_error in Ho. destruct r as [[v q]|].
    + specialize (Hr v q eq_refl). rewrite (proj2 (Nat.ltb_lt _ _)) by lia.
      rewrite decide_False by lia. destruct Ho as [[-> _]|[-> Ho]]; [done|lia].
    + destruct (Nat.leb_spec (S (length block)) (e - pos));
        [|destruct (Nat.eqb_spec e (pos + 4))]; case_decide;
        destruct Ho as [[-> Ho]|[-> Ho]]; done || lia.
  - apply octets_rest in Ho as [Hl _]. subst r. repeat case_decide; try lia.
    + destruct (Nat.ltb_spec (S (length block)) (S pos + (length block - length rest) - pos));
        [lia|]. f_equal; [f_equal|]; lia.
    + destruct (Nat.leb_spec (S (length block)) (e - pos)); [lia|].
      destruct (Nat.eqb_spec e (pos + 4)); [lia|done].
Qed.
End ParseInt.

(** ** Round trip *)

Lemma write_int_loop_octets fuel value shift acc rest n :
  0 <= value < 2 ^ (7 * (Z.of_nat n)) -> (0 < n <= 3)%nat -> (n <= fuel)%nat -> 0 <= shift ->
  exists l, write_int_loop fuel value = Some l /\ bytes_ok l /\ (length l <= n)%nat
    /\ octets n shift acc (l ++ rest) = inr (acc + value * 2 ^ shift, rest).
Proof.
  revert fuel value shift acc. induction n as [|n IH]; intros [|fuel] value shift acc Hv Hn Hf Hs;
    try lia.
  cbn [write_int_loop]. destruct (Z.geb_spec value 128) as [Hge|Hlt].
  - destruct n as [|n]; [cbn in Hv; lia|].
    assert (2 ^ (7 * Z.of_nat (S (S n))) = 128 * 2 ^ (7 * Z.of_nat (S n))) as Hpow
      by (replace (7 * Z.of_nat (S (S n))) with (7 + 7 * Z.of_nat (S n)) by lia;
          by rewrite Z.pow_add_r by lia).
    destruct (IH fuel (value / 128) (shift + 7) (acc + value mod 128 * 2 ^ shift))
      as (l & -> & Hl & Hlen & Ho); [|lia..|].
    { split; [lia_mod|]. apply Z.div_lt_upper_bound; lia. }
    cbn [mbind option_bind]. pose proof (Z.mod_pos_bound value 128 ltac:(lia)).
    rewrite u8_small by lia. eexists. split; [done|].
    split_and!; [constructor; [unfold is_u8; lia|done]|cbn; lia|].
    cbn [app octets]. replace ((value mod 128 + 128) mod 128) with (value mod 128) by lia_mod.
    rewrite (proj2 (Z.ltb_ge _ _)) by lia. rewrite Ho.
    rewrite Z.pow_add_r by lia. do 2 f_equal.
    rewrite (Z.div_mod value 128) at 3 by lia. lia.
  - eexists. split; [done|]. rewrite u8_small by lia.
    split_and!; [constructor; [unfold is_u8; lia|constructor]|cbn; lia|].
    cbn [app octets]. rewrite Z.mod_small by lia. by rewrite (proj2 (Z.ltb_lt _ _)) by lia.
Qed.

(** The first octet: the flags above the prefix, and the prefix. *)
Lemma prefix_land first k v :
  0 <= k -> Z.land first (Z.ones k) = 0 -> 0 <= v <= Z.ones k ->
  Z.land (Z.lor first v) (Z.ones k) = v.
Proof.
  intros Hk Hf Hv. rewrite Z.land_lor_distr_l, Hf, Z.lor_0_l, Z.land_ones by done.
  apply Z.mod_small. rewrite Z.ones_equiv in Hv. lia.
Qed.

Lemma lor_u8 a b : is_u8 a -> 0 <= b < 128 -> is_u8 (Z.lor a b).
Proof.
  intros Ha Hb. apply (forall_u8 (fun a => forallb (fun b =>
    (0 <=? Z.lor a b) && (Z.lor a b <? 256)) (seqZ 0 128))) in Ha; [|vm_compute; reflexivity].
  rewrite forallb_forall in Ha. specialize (Ha b). unfold is_u8.
  rewrite andb_true_iff, Z.leb_le, Z.ltb_lt in Ha. apply Ha, list_elem_of_In, elem_of_seqZ. lia.
Qed.

(** The flags of the first octet do not meet the prefix. *)
Definition flags_ok (first k : Z) : Prop :=
  is_u8 first /\ 0 < k <= 7 /\ Z.land first (ngx_http_v2_prefix k) = 0.

Lemma write_int_block first k value rest :
  flags_ok first k -> 0 <= value < ngx_http_v2_prefix k + 2 ^ 21 ->
  exists l, ngx_http_v2_write_int first (ngx_http_v2_prefix k) value = Some l /\ bytes_ok l
    /\ (0 < length l <= NGX_HTTP_V2_INT_OCTETS)%nat
    /\ block_int (ngx_http_v2_prefix k) (l ++ rest) = inr (value, rest).
Proof.
  unfold flags_ok, ngx_http_v2_prefix. rewrite Z.shiftl_1_l. intros (Hu & Hk & Hf) Hv.
  assert (2 ^ k - 1 = Z.ones k) as Hones by (rewrite Z.ones_equiv; lia).
  assert (2 ^ k <= 2 ^ 7) by (apply Z.pow_le_mono_r; lia).
  assert (2 ^ 1 <= 2 ^ k) by (apply Z.pow_le_mono_r; lia).
  rewrite Hones in *. unfold ngx_http_v2_write_int, NGX_HTTP_V2_INT_OCTETS.
  destruct (Z.ltb_spec value (Z.ones k)) as [Hlt|Hge].
  - eexists. split; [done|]. pose proof (lor_u8 first value Hu ltac:(lia)) as Hu'.
    rewrite u8_small by exact Hu'. split_and!; [by constructor|cbn; lia|cbn; lia|].
    cbn [app block_int]. rewrite prefix_land by lia.
    by rewrite (proj2 (Z.eqb_neq _ _)) by lia.
  - destruct (write_int_loop_octets 10 (value - Z.ones k) 0 (Z.ones k) rest 3)
      as (l & -> & Hl & Hlen & Ho); [|lia..|].
    { change (2 ^ (7 * Z.of_nat 3)) with (2 ^ 21). lia. }
    cbn [mbind option_bind]. eexists. split; [done|].
    pose proof (lor_u8 first (Z.ones k) Hu ltac:(lia)) as Hu'.
    rewrite u8_small by exact Hu'. split_and!; [by constructor|cbn; lia|cbn; lia|].
    cbn [app block_int]. rewrite prefix_land, Z.eqb_refl, Ho by lia.
    by replace (Z.ones k + (value - Z.ones k) * 2 ^ 0) with value by lia.
Qed.

(** On the octets received so far [ngx_http_v2_parse_int] stays within them and finds the integer at the beginning of the rest of the header block, without overflow, or its error (too long, or cut off by the end of the block), or asks for more exactly when the octets that decide are not there yet; then it changes nothing. *)
Theorem ngx_http_v2_parse_int_correct (mem : list Z) (pos end_ : nat) (prefix : Z) (block : list Z)
    (Hmem : bytes_ok mem) (Hpos : (pos < end_ <= length mem)%nat) (Hprefix : 0 <= prefix < 128)
    (Hblock : agrees mem pos (end_ - pos) block) :
  ngx_http_v2_parse_int mem pos end_ prefix (length block)
  = Some (if decide (end_ - pos < int_needs prefix block)%nat
          then (NGX_AGAIN, pos, length block)
          else match block_int prefix block with
               | inl rc => (rc, pos, length block)
               | inr (v, rest) => (v, (pos + (length block - length rest))%nat, length rest)
               end).
Proof. by apply parse_int_ok. Qed.

(** Two octets of the block are there, of which the second may be the last. *)
Lemma ngx_http_v2_parse_int_correct_witness :
  ngx_http_v2_parse_int [7; 31; 0x9a; 10] 1 3 31 3 = Some (NGX_AGAIN, 1%nat, 3%nat)
  /\ ngx_http_v2_parse_int [7; 31; 0x9a; 10] 1 3 31 2 = Some (NGX_ERROR, 1%nat, 2%nat).
Proof.
  split.
  - refine (eq_trans (ngx_http_v2_parse_int_correct [7; 31; 0x9a; 10] 1 3 31 [31; 0x9a; 10]
      _ _ _ _) _); [by apply bytes_ok_check|cbn; lia|lia| |vm_compute; reflexivity].
    intros [|[|[|i]]] Hi Hl; cbn in *; try lia; reflexivity.
  - refine (eq_trans (ngx_http_v2_parse_int_correct [7; 31; 0x9a; 10] 1 3 31 [31; 0x9a]
      _ _ _ _) _); [by apply bytes_ok_check|cbn; lia|lia| |vm_compute; reflexivity].
    intros [|[|i]] Hi Hl; cbn in *; try lia; reflexivity.
Defined.

(** C30: Every integer that fits in four octets is read back by [ngx_http_v2_parse_int] from what [ngx_http_v2_write_int] writes, wherever the data received ends: with fewer octets it asks for more. *)
Theorem ngx_http_v2_int_roundtrip (first k value : Z) (before rest : list Z)
    (Hfirst : flags_ok first k) (Hvalue : 0 <= value < ngx_http_v2_prefix k + 2 ^ 21)
    (Hbefore : bytes_ok before) (Hrest : bytes_ok rest) :
  exists l, ngx_http_v2_write_int first (ngx_http_v2_prefix k) value = Some l
    /\ (length l <= NGX_HTTP_V2_INT_OCTETS)%nat
    /\ forall n, (0 < n <= length (l ++ rest))%nat ->
         let pos := length before in
         ngx_http_v2_parse_int (before ++ l ++ rest) pos (pos + n) (ngx_http_v2_prefix k)
           (length (l ++ rest))
         = Some (if decide (n < length l)%nat then (NGX_AGAIN, pos, length (l ++ rest))
                 else (value, (pos + length l)%nat, length rest)).
Proof.
  destruct (write_int_block first k value rest Hfirst Hvalue) as (l & Hw & Hl & Hlen & Hb).
  exists l. split_and!; [done|lia|]. intros n Hn pos.
  destruct Hfirst as (_ & Hk & _).
  assert (0 <= ngx_http_v2_prefix k < 128) as Hprefix.
  { unfold ngx_http_v2_prefix. rewrite Z.shiftl_1_l.
    assert (2 ^ k <= 2 ^ 7) by (apply Z.pow_le_mono_r; lia).
    assert (2 ^ 1 <= 2 ^ k) by (apply Z.pow_le_mono_r; lia). lia. }
  rewrite parse_int_ok; [|by repeat apply Forall_app_2| |done|].
  - unfold int_needs. rewrite Hb, length_app.
    replace (length l + length rest - length rest)%nat with (length l) by lia.
    by replace (pos + n - pos)%nat with n by lia.
  - rewrite length_app. subst pos. lia.
  - intros i Hi Hli. subst pos. rewrite lookup_app_r by lia. f_equal. lia.
Qed.

Lemma ngx_http_v2_int_roundtrip_witness :
  exists l, ngx_http_v2_write_int 0x80 (ngx_http_v2_prefix 7) 2000 = Some l
    /\ ngx_http_v2_parse_int ([5] ++ l ++ [9]) 1 (1 + 4) (ngx_http_v2_prefix 7) (length (l ++ [9]))
      = Some (2000, 4%nat, 1%nat).
Proof.
  destruct (ngx_http_v2_int_roundtrip 0x80 7 2000 [5] [9]) as (l & Hl & _ & Hp).
  - repeat split; reflexivity || lia.
  - split; [lia|vm_compute; reflexivity].
  - by apply bytes_ok_check.
  - by apply bytes_ok_check.
  - exists l. split; [exact Hl|]. vm_compute in Hl. injection Hl as <-.
    apply (Hp 4%nat). cbn. lia.
Defined.
