(* ===== verification/Radix.v ===== *)
(** * Radix: the radix tree of ngx_radix_tree.c

    The tree that maps networks to values.  Nodes are in a store, linked by
    [right], [left] and [parent] pointers; a node that is deleted goes to a free
    list and is used again.  [ngx_radix32tree_insert], [_delete] and [_find] and
    their [ngx_radix128tree_] twins are the same code over two kinds of keys,
    which the class [RadixKey] states. *)

From stdpp Require Import gmap.
From S2P Require Import Prelude Bits.

Definition NGX_RADIX_NO_VALUE : Z := 0xffffffffffffffff.

Record ngx_radix_node_t := {
  right : option nat;
  left : option nat;
  parent : option nat;
  value : Z;
}.
#[export] Instance eta_node : Eta ngx_radix_node_t := mk_eta (fun n =>
  Build_ngx_radix_node_t (right n) (left n) (parent n) (value n)).

(** [nodes] is the memory; a pointer is the number of a node.  [start] is the next
    node of the page, of which [size] bytes are left, and [pages] is where the next
    page will be. *)
Record ngx_radix_tree_t := {
  root : option nat;
  free : option nat;
  start : nat;
  size : Z;
  pages : nat;
  nodes : gmap nat ngx_radix_node_t;
}.
#[export] Instance eta_tree : Eta ngx_radix_tree_t := mk_eta (fun t =>
  Build_ngx_radix_tree_t (root t) (free t) (start t) (size t) (pages t) (nodes t)).

Definition sizeof_node : Z := 32.

(** [p->field = v], for a pointer that is valid. *)
Definition update (p : nat) (f : ngx_radix_node_t -> ngx_radix_node_t) (t : ngx_radix_tree_t)
    : option ngx_radix_tree_t :=
  n ← nodes t !! p; Some (t <| nodes := <[p := f n]> (nodes t) |>).

Definition set_child (b : bool) (c : option nat) (n : ngx_radix_node_t) : ngx_radix_node_t :=
  if b then n <| right := c |> else n <| left := c |>.
Definition child (b : bool) (n : ngx_radix_node_t) : option nat :=
  if b then right n else left n.

Section Alloc.
Variable ngx_pagesize : Z.

(** The content of a new node is left to the caller. *)
Definition ngx_radix_alloc (t : ngx_radix_tree_t) : option (nat * ngx_radix_tree_t) :=
  match free t with
  | Some p => n ← nodes t !! p; Some (p, t <| free := right n |>)
  | None =>
      let t := if size t <? sizeof_node
               then t <| start := pages t |> <| size := ngx_pagesize |>
                      <| pages := (pages t + Z.to_nat (ngx_pagesize / sizeof_node))%nat |>
               else t in
      Some (start t, t <| start := S (start t) |> <| size := size t - sizeof_node |>)
  end.

(** A node without children or value. *)
Definition new_node (par : option nat) : ngx_radix_node_t :=
  {| right := None; left := None; parent := par; value := NGX_RADIX_NO_VALUE |}.

(** ** Keys

    A cursor is a place in the key: [bit], or [i] and [bit].  [masked] is the test
    of the loops on the mask and [keyed] the test on the key, which may be out of
    bounds; [step] moves on, or leaves the loop at the end of the key, and
    [step_find] moves on in the search. *)
Class RadixKey (K C : Type) := {
  first : C;
  masked : K -> C -> option bool;
  keyed : K -> C -> option bool;
  step : C -> option C;
  step_find : C -> C;
  width : nat;
}.
End Alloc.

(** [bit = 0x80000000], tested and shifted. *)
#[export] Instance radix32 : RadixKey Z Z := {|
  first := 0x80000000;
  masked mask bit := Some (negb (Z.land bit mask =? 0));
  keyed key bit := Some (negb (Z.land key bit =? 0));
  step bit := Some (Z.shiftr bit 1);
  step_find bit := Z.shiftr bit 1;
  width := 32;
|}.

(** [i = 0, bit = 0x80]; the loops that look at the mask end when [++i == 16]. *)
#[export] Instance radix128 : RadixKey (list Z) (nat * Z) := {|
  first := (0%nat, 0x80);
  masked mask c := m ← mask !! c.1; Some (negb (Z.land c.2 m =? 0));
  keyed key c := k ← key !! c.1; Some (negb (Z.land k c.2 =? 0));
  step c :=
    let bit := Z.shiftr c.2 1 in
    if bit =? 0 then if (S c.1 =? 16)%nat then None else Some (S c.1, 0x80)
    else Some (c.1, bit);
  step_find c :=
    let bit := Z.shiftr c.2 1 in if bit =? 0 then (S c.1, 0x80) else (c.1, bit);
  width := 128;
|}.

Section Operations.
Variable ngx_pagesize : Z.
Context {K C : Type} `{RadixKey K C}.

(** ** Insertion *)

(** The first loop: along the key while the mask lasts and there are nodes; the
    cursor, the node and [next]. *)
Fixpoint insert_down (fuel : nat) (t : ngx_radix_tree_t) (key mask : K) (c : C) (node : nat)
    : option (C * nat * option nat) :=
  match fuel with
  | O => None
  | S fuel' =>
      m ← masked mask c;
      if (m : bool) then
        b ← keyed key c;
        n ← nodes t !! node;
        match child b n with
        | None => Some (c, node, None)
        | Some next =>
            match step c with
            | Some c' => insert_down fuel' t key mask c' next
            | None => Some (c, next, Some next)
            end
        end
      else Some (c, node, Some node)
  end.

(** The second loop: a new node for every bit of the mask that is left. *)
Fixpoint insert_new (fuel : nat) (t : ngx_radix_tree_t) (key mask : K) (c : C) (node : nat)
    : option (ngx_radix_tree_t * nat) :=
  match fuel with
  | O => None
  | S fuel' =>
      m ← masked mask c;
      if (m : bool) then
        '(next, t) ← ngx_radix_alloc ngx_pagesize t;
        let t := t <| nodes := <[next := new_node (Some node)]> (nodes t) |> in
        b ← keyed key c;
        t ← update node (set_child b (Some next)) t;
        match step c with
        | Some c' => insert_new fuel' t key mask c' next
        | None => Some (t, next)
        end
      else Some (t, node)
  end.

Definition ngx_radix_insert (t : ngx_radix_tree_t) (key mask : K) (v : Z)
    : option (Z * ngx_radix_tree_t) :=
  r ← root t;
  '(c, node, next) ← insert_down (S width) t key mask first r;
  match next with
  | Some _ =>
      n ← nodes t !! node;
      if negb (value n =? NGX_RADIX_NO_VALUE) then Some (NGX_BUSY, t)
      else t ← update node (fun n => n <| value := v |>) t; Some (NGX_OK, t)
  | None =>
      '(t, node) ← insert_new (S width) t key mask c node;
      t ← update node (fun n => n <| value := v |>) t;
      Some (NGX_OK, t)
  end.

(** ** Deletion *)

Fixpoint delete_down (fuel : nat) (t : ngx_radix_tree_t) (key mask : K) (c : C)
    (node : option nat) : option (option nat) :=
  match fuel with
  | O => None
  | S fuel' =>
      match node with
      | None => Some None
      | Some p =>
          m ← masked mask c;
          if (m : bool) then
            b ← keyed key c;
            n ← nodes t !! p;
            match step c with
            | Some c' => delete_down fuel' t key mask c' (child b n)
            | None => Some (child b n)
            end
          else Some node
      end
  end.

(** [for ( ;; )]: unlink the node and free it, then its parent if that is of no
    use any more and not the root. *)
Fixpoint prune (fuel : nat) (t : ngx_radix_tree_t) (node : nat) : option ngx_radix_tree_t :=
  match fuel with
  | O => None
  | S fuel' =>
      n ← nodes t !! node;
      par ← parent n;
      pn ← nodes t !! par;
      t ← update par (set_child (bool_decide (right pn = Some node)) None) t;
      t ← update node (fun n => n <| right := free t |>) t;
      let t := t <| free := Some node |> in
      n ← nodes t !! par;
      match right n, left n with
      | None, None =>
          if negb (value n =? NGX_RADIX_NO_VALUE) then Some t
          else match parent n with None => Some t | Some _ => prune fuel' t par end
      | _, _ => Some t
      end
  end.

Definition ngx_radix_delete (t : ngx_radix_tree_t) (key mask : K)
    : option (Z * ngx_radix_tree_t) :=
  node ← delete_down (S width) t key mask first (root t);
  match node with
  | None => Some (NGX_ERROR, t)
  | Some p =>
      n ← nodes t !! p;
      match right n, left n with
      | None, None => t ← prune (S width) t p; Some (NGX_OK, t)
      | _, _ =>
          if negb (value n =? NGX_RADIX_NO_VALUE) then
            t ← update p (fun n => n <| value := NGX_RADIX_NO_VALUE |>) t; Some (NGX_OK, t)
          else Some (NGX_ERROR, t)
      end
  end.

(** ** Search *)

Fixpoint find_down (fuel : nat) (t : ngx_radix_tree_t) (key : K) (c : C) (node : option nat)
    (v : Z) : option Z :=
  match node with
  | None => Some v
  | Some p =>
      match fuel with
      | O => None
      | S fuel' =>
          n ← nodes t !! p;
          let v := if negb (value n =? NGX_RADIX_NO_VALUE) then value n else v in
          b ← keyed key c;
          find_down fuel' t key (step_find c) (child b n) v
      end
  end.

Definition ngx_radix_find (t : ngx_radix_tree_t) (key : K) : option Z :=
  find_down (S width) t key first (root t) NGX_RADIX_NO_VALUE.
End Operations.

Section Create.
Variable ngx_pagesize : Z.

(** [do { ... key += inc } while (key)]. *)
Fixpoint create_keys (fuel : nat) (t : ngx_radix_tree_t) (key mask inc : Z)
    : option (option ngx_radix_tree_t) :=
  match fuel with
  | O => None
  | S fuel' =>
      '(rc, t) ← ngx_radix_insert ngx_pagesize t key mask NGX_RADIX_NO_VALUE;
      if negb (rc =? NGX_OK) then Some None
      else
        let key := u32 (key + inc) in
        if negb (key =? 0) then create_keys fuel' t key mask inc else Some (Some t)
  end.

(** [while (preallocate--)], for [n] iterations. *)
Fixpoint create_levels (n : nat) (t : ngx_radix_tree_t) (mask inc : Z)
    : option (option ngx_radix_tree_t) :=
  match n with
  | O => Some (Some t)
  | S n' =>
      let mask := Z.lor (Z.shiftr mask 1) 0x80000000 in
      r ← create_keys (S (Z.to_nat (2 ^ 32 / inc))) t 0 mask inc;
      match r with
      | Some t => create_levels n' t mask (Z.shiftr inc 1)
      | None => Some None
      end
  end.

(** [None] inside for [return NULL]. *)
Definition ngx_radix_tree_create (preallocate : Z) : option (option ngx_radix_tree_t) :=
  '(r, t) ← ngx_radix_alloc ngx_pagesize
              {| root := None; free := None; start := 0; size := 0; pages := 0; nodes := ∅ |};
  let t := t <| nodes := <[r := new_node None]> (nodes t) |> <| root := Some r |> in
  if preallocate =? 0 then Some (Some t)
  else
    let preallocate :=
      if preallocate =? -1 then
        if ngx_pagesize / sizeof_node =? 128 then 6
        else if ngx_pagesize / sizeof_node =? 256 then 7 else 8
      else preallocate in
    create_levels (Z.to_nat preallocate) t 0 0x80000000.
End Create.

Example radix_find_longest :
  (t ← ngx_radix_tree_create 4096 2; t ← t;
   t ← ngx_radix_insert 4096 t 0x0a000000 0xff000000 1;
   t ← ngx_radix_insert 4096 t.2 0x0a010000 0xffff0000 2;
   a ← ngx_radix_find t.2 0x0a010203;
   t ← ngx_radix_delete t.2 0x0a010000 0xffff0000;
   b ← ngx_radix_find t.2 0x0a010203;
   c ← ngx_radix_find t.2 0x0b000001;
   Some (a, t.1, b, c)) = Some (2, NGX_OK, 1, NGX_RADIX_NO_VALUE).
Proof. vm_compute. reflexivity. Qed.

(** ** The tree behind the pointers *)

Inductive rtree := Nil | Node (p : nat) (v : Z) (l r : rtree).

Definition ptr (t : rtree) : option nat := match t with Nil => None | Node p _ _ _ => Some p end.

Fixpoint ptrs (t : rtree) : list nat :=
  match t with Nil => [] | Node p _ l r => p :: ptrs l ++ ptrs r end.

Fixpoint depth (t : rtree) : nat :=
  match t with Nil => 0 | Node _ _ l r => S (depth l `max` depth r) end.

(** The nodes of [t], a child of [par], are those of the store. *)
Fixpoint stored (h : gmap nat ngx_radix_node_t) (par : option nat) (t : rtree) : Prop :=
  match t with
  | Nil => True
  | Node p v l r =>
      h !! p = Some {| right := ptr r; left := ptr l; parent := par; value := v |}
      /\ stored h (Some p) l /\ stored h (Some p) r
  end.

(** A place in the tree: the nodes above it, the nearest first, each with the side
    the place is on, and the other subtree. *)
Record frame := { f_side : bool; f_ptr : nat; f_value : Z; f_other : rtree }.

Definition fill (f : frame) (t : rtree) : rtree :=
  if f_side f then Node (f_ptr f) (f_value f) (f_other f) t
  else Node (f_ptr f) (f_value f) t (f_other f).

Fixpoint plug (k : list frame) (t : rtree) : rtree :=
  match k with [] => t | f :: k' => plug k' (fill f t) end.

Definition above (k : list frame) : option nat := match k with [] => None | f :: _ => Some (f_ptr f) end.
Definition path_of (k : list frame) : list bool := rev (map f_side k).

Fixpoint frame_ptrs (k : list frame) : list nat :=
  match k with [] => [] | f :: k' => f_ptr f :: ptrs (f_other f) ++ frame_ptrs k' end.

(** The nodes above a place whose own node is [hole]. *)
Fixpoint stored_above (h : gmap nat ngx_radix_node_t) (k : list frame) (hole : option nat) : Prop :=
  match k with
  | [] => True
  | f :: k' =>
      h !! f_ptr f = Some (set_child (f_side f) hole
        (set_child (negb (f_side f)) (ptr (f_other f)) (new_node (above k')))
        <| value := f_value f |>)
      /\ stored h (Some (f_ptr f)) (f_other f) /\ stored_above h k' (Some (f_ptr f))
  end.

Lemma ptr_fill f t : ptr (fill f t) = Some (f_ptr f).
Proof. unfold fill. by destruct (f_side f). Qed.

Lemma stored_plug h k t :
  stored h None (plug k t) <-> stored_above h k (ptr t) /\ stored h (above k) t.
Proof.
  revert t. induction k as [|f k IH]; intros t; cbn [plug stored_above]; [by split; [|intros [_ ?]]|].
  rewrite IH, ptr_fill. unfold fill. destruct f as [[] p v o]; cbn; tauto.
Qed.

Lemma ptrs_plug k t : ptrs (plug k t) ≡ₚ ptrs t ++ frame_ptrs k.
Proof.
  revert t. induction k as [|f k IH]; intros t; cbn [plug frame_ptrs]; [by rewrite app_nil_r|].
  rewrite IH. unfold fill. destruct f as [[] p v o]; cbn; solve_Permutation.
Qed.

(** What is stored depends on its own nodes only. *)
Lemma stored_other h h' par t :
  (forall p, p ∈ ptrs t -> h' !! p = h !! p) -> stored h par t -> stored h' par t.
Proof.
  revert par. induction t as [|p v l IHl r IHr]; intros par Hh; cbn [stored]; [done|].
  intros (Hp & Hl & Hr). cbn [ptrs] in Hh. split_and!.
  - rewrite Hh; [done|]. apply elem_of_cons. by left.
  - apply IHl; [|done]. intros q Hq. apply Hh, elem_of_cons. right. apply elem_of_app. by left.
  - apply IHr; [|done]. intros q Hq. apply Hh, elem_of_cons. right. apply elem_of_app. by right.
Qed.

Lemma stored_above_other h h' k hole :
  (forall p, p ∈ frame_ptrs k -> h' !! p = h !! p) -> stored_above h k hole ->
  stored_above h' k hole.
Proof.
  revert hole. induction k as [|f k IH]; intros hole Hh; cbn [stored_above]; [done|].
  intros (Hp & Ho & Hk). cbn [frame_ptrs] in Hh. split_and!.
  - rewrite Hh; [done|]. apply elem_of_cons. by left.
  - apply (stored_other h); [|done]. intros q Hq. apply Hh, elem_of_cons. right.
    apply elem_of_app. by left.
  - apply IH; [|done]. intros q Hq. apply Hh, elem_of_cons. right. apply elem_of_app. by right.
Qed.

(** ** Values along paths *)

Definition child_of (b : bool) (t : rtree) : rtree :=
  match t with Nil => Nil | Node _ _ l r => if b then r else l end.
Definition value_of (t : rtree) : Z :=
  match t with Nil => NGX_RADIX_NO_VALUE | Node _ v _ _ => v end.

Fixpoint subtree (t : rtree) (path : list bool) : rtree :=
  match path with [] => t | b :: path' => subtree (child_of b t) path' end.

(** The value at a path, or [NGX_RADIX_NO_VALUE]. *)
Definition get (t : rtree) (path : list bool) : Z := value_of (subtree t path).

Lemma subtree_nil path : subtree Nil path = Nil.
Proof. by induction path. Qed.

Lemma get_nil path : get Nil path = NGX_RADIX_NO_VALUE.
Proof. unfold get. by rewrite subtree_nil. Qed.

Lemma subtree_app t p1 p2 : subtree t (p1 ++ p2) = subtree (subtree t p1) p2.
Proof. revert t. induction p1 as [|b p1 IH]; intros t; [done|apply IH]. Qed.

Lemma child_fill f t : child_of (f_side f) (fill f t) = t.
Proof. unfold fill. by destruct (f_side f). Qed.

Lemma subtree_plug k t : subtree (plug k t) (path_of k) = t.
Proof.
  revert t. induction k as [|f k IH]; intros t; [done|].
  unfold path_of. cbn [plug map rev]. rewrite subtree_app.
  fold (path_of k). rewrite IH. cbn. apply child_fill.
Qed.

(** Two trees that differ at one place only have the same values elsewhere. *)
Lemma get_fill f t t' path :
  (forall q, get t q = get t' q) -> get (fill f t) path = get (fill f t') path.
Proof.
  intros Ht. destruct path as [|b path]; unfold get, fill in *; destruct f as [[] p v o]; try done;
    destruct b; cbn; apply Ht || done.
Qed.

Lemma get_plug_same k t t' path :
  (forall q, get t q = get t' q) -> get (plug k t) path = get (plug k t') path.
Proof.
  revert t t'. induction k as [|f k IH]; intros t t' Ht; cbn [plug]; [apply Ht|].
  apply IH. intros q. by apply get_fill.
Qed.

(** A change of the value of the node at a place. *)
Lemma get_plug_value k p v v' l r path :
  get (plug k (Node p v' l r)) path
  = if decide (path = path_of k) then v' else get (plug k (Node p v l r)) path.
Proof.
  destruct (decide (path = path_of k)) as [->|Hne].
  { unfold get. by rewrite subtree_plug. }
  assert (forall t t', (forall q, q <> [] -> get t q = get t' q) ->
    get (plug k t) path = get (plug k t') path) as Hgen.
  { revert path Hne. induction k as [|f k IH] using rev_ind.
    - intros path Hne t t' Ht. apply Ht. done.
    - intros path Hne t t' Ht.
      assert (forall t, plug (k ++ [f]) t = fill f (plug k t)) as Hp.
      { clear. induction k as [|g k IH]; intros t; [done|]. cbn. apply IH. }
      rewrite !Hp. unfold path_of in Hne. rewrite map_app, rev_app_distr in Hne. cbn in Hne.
      destruct path as [|b path]; [unfold get, fill; by destruct (f_side f)|].
      destruct (decide (b = f_side f)) as [->|Hb].
      + unfold get. cbn [subtree]. rewrite !child_fill. apply IH; [|done].
        intros ->. by apply Hne.
      + unfold get, fill. cbn [subtree]. destruct (f_side f), b; done. }
  apply Hgen. intros [|b q] Hq; [done|]. by destruct b.
Qed.

(** ** The path of a key under a mask *)

(** The ones at the beginning of the mask. *)
Fixpoint leading (l : list bool) : nat :=
  match l with true :: l' => S (leading l') | _ => 0 end.

(** What the loops need of a kind of keys: [bits] are those of a key, [at_depth] is
    the cursor at one of them.  Keys are [readable] as far as insertion and deletion
    go, and [searchable] one bit further. *)
Class RadixKeyOk (K C : Type) `{RadixKey K C} := {
  bits : K -> list bool;
  readable : K -> Prop;
  searchable : K -> Prop;
  at_depth : C -> nat -> Prop;
  width_pos : (0 < width)%nat;
  bits_length key : readable key -> length (bits key) = width;
  searchable_readable key : searchable key -> readable key;
  first_ok : at_depth first 0;
  masked_ok mask c d b :
    readable mask -> at_depth c d -> bits mask !! d = Some b -> masked mask c = Some b;
  keyed_ok key c d b :
    readable key -> at_depth c d -> bits key !! d = Some b -> keyed key c = Some b;
  keyed_end key c : searchable key -> at_depth c width -> exists b, keyed key c = Some b;
  step_ok c d : at_depth c d -> (d < width)%nat ->
    match step c with
    | Some c' => at_depth c' (S d) /\ (S d = width -> forall mask, masked mask c' = Some false)
    | None => S d = width
    end;
  step_find_ok c d : at_depth c d -> (d < width)%nat -> at_depth (step_find c) (S d);
}.

Definition path {K C} `{RadixKeyOk K C} (key mask : K) : list bool :=
  take (leading (bits mask)) (bits key).

Lemma leading_lookup l d :
  (d < leading l -> l !! d = Some true)%nat
  /\ (d = leading l -> l !! d = None \/ l !! d = Some false)%nat.
Proof.
  revert d. induction l as [|[] l IH]; intros d; cbn [leading].
  - split; [lia|by left].
  - destruct d as [|d]; cbn; [split; [done|lia]|].
    destruct (IH d) as [H1 H2]. split; [intros; apply H1; lia|intros; apply H2; lia].
  - split; [lia|]. intros ->. by right.
Qed.

Lemma leading_length l : (leading l <= length l)%nat.
Proof. induction l as [|[] l IH]; cbn; lia. Qed.

Lemma lookup_bits_of w v d : (d < w)%nat ->
  bits_of w v !! d = Some (Z.testbit v (Z.of_nat w - 1 - Z.of_nat d)).
Proof.
  revert d. induction w as [|w IH]; intros d Hd; [lia|]. cbn [bits_of].
  destruct d as [|d]; cbn [lookup list_lookup]; [f_equal; f_equal; lia|].
  rewrite IH by lia. do 2 f_equal. lia.
Qed.

Lemma lookup_bits_of_bytes l d :
  bits_of_bytes l !! d = x ← l !! (d `div` 8)%nat; Some (Z.testbit x (7 - Z.of_nat d mod 8)).
Proof.
  revert d. induction l as [|x l IH]; intros d; [done|].
  change (bits_of_bytes (x :: l)) with (bits_of 8 x ++ bits_of_bytes l).
  destruct (decide (d < 8)%nat) as [Hd|Hd].
  - rewrite lookup_app_l by (rewrite length_bits_of; lia).
    rewrite Nat.div_small by done. cbn [lookup list_lookup mbind option_bind].
    rewrite lookup_bits_of by lia. do 2 f_equal. rewrite Z.mod_small; lia.
  - rewrite lookup_app_r by (rewrite length_bits_of; lia). rewrite length_bits_of, IH.
    replace (d `div` 8)%nat with (S ((d - 8) `div` 8)).
    2: { replace (d `div` 8)%nat with ((d - 8 + 1 * 8) `div` 8)%nat by (f_equal; lia).
         rewrite Nat.div_add by lia. lia. }
    cbn [lookup list_lookup]. destruct (l !! _); [|done]. cbn [mbind option_bind].
    do 3 f_equal. rewrite Nat2Z.inj_sub by lia. change (Z.of_nat 8) with 8.
    replace (Z.of_nat d) with (Z.of_nat d - 8 + 1 * 8) at 2 by lia.
    by rewrite Z.mod_add.
Qed.

(** [bit >>= 1]. *)
Lemma shift32 d : (d < 32)%nat ->
  Z.shiftr (if decide (d < 32)%nat then 2 ^ (31 - Z.of_nat d) else 0) 1
  = if decide (S d < 32)%nat then 2 ^ (31 - Z.of_nat (S d)) else 0.
Proof.
  intros Hd. rewrite decide_True by done. destruct (decide (S d < 32)%nat).
  - rewrite shiftr_div by lia.
    replace (31 - Z.of_nat d) with (Z.succ (31 - Z.of_nat (S d))) by lia.
    rewrite Z.pow_succ_r, (Z.mul_comm 2) by lia. apply Z.div_mul. lia.
  - by replace d with 31%nat by lia.
Qed.

#[export] Instance radix32_ok : RadixKeyOk Z Z.
Proof.
  refine {|
    bits := bits_of 32;
    readable _ := True;
    searchable _ := True;
    at_depth bit d := bit = if decide (d < 32)%nat then 2 ^ (31 - Z.of_nat d) else 0;
  |}; cbn [masked keyed step step_find width first radix32].
  - lia.
  - intros. apply length_bits_of.
  - done.
  - done.
  - intros mask c d b _ -> Hb. pose proof (lookup_lt_Some _ _ _ Hb) as Hd.
    rewrite length_bits_of in Hd. rewrite lookup_bits_of in Hb by done.
    rewrite decide_True by done. rewrite Z.land_comm, land_pow2 by lia.
    rewrite <- Hb. do 2 f_equal; lia.
  - intros key c d b _ -> Hb. pose proof (lookup_lt_Some _ _ _ Hb) as Hd.
    rewrite length_bits_of in Hd. rewrite lookup_bits_of in Hb by done.
    rewrite decide_True by done. rewrite land_pow2 by lia. rewrite <- Hb. do 2 f_equal; lia.
  - eauto.
  - intros c d -> Hd. rewrite shift32 by done. split; [done|]. intros Hw mask.
    by rewrite decide_False by lia.
  - intros c d -> Hd. by apply shift32.
Defined.

(** [bit] at depth [d] of the 16 bytes, and what follows it. *)
Definition cursor128 (d : nat) : nat * Z := ((d `div` 8)%nat, 2 ^ (7 - Z.of_nat d mod 8)).

Lemma step128 d :
  (let bit := Z.shiftr (cursor128 d).2 1 in
   if bit =? 0 then (S (cursor128 d).1, 0x80) else ((cursor128 d).1, bit)) = cursor128 (S d)
  /\ (Z.shiftr (cursor128 d).2 1 =? 0) = (d mod 8 =? 7)%nat.
Proof.
  unfold cursor128. cbn [fst snd].
  pose proof (Nat.div_mod_eq d 8) as Hd. pose proof (Nat.mod_upper_bound d 8 ltac:(lia)) as Hr.
  set (q := (d `div` 8)%nat) in *. set (r := (d mod 8)%nat) in *.
  assert (Z.of_nat d mod 8 = Z.of_nat r) as ->.
  { rewrite Hd, Nat2Z.inj_add, Nat2Z.inj_mul, Z.add_comm, Z.mul_comm, Z.mod_add by done.
    apply Z.mod_small. lia. }
  destruct (decide (r = 7%nat)) as [->|Hne].
  - split; [|done]. replace (S d) with ((S q) * 8)%nat by lia.
    rewrite Nat.div_mul, Nat2Z.inj_mul, Z.mod_mul by lia. done.
  - assert (Z.shiftr (2 ^ (7 - Z.of_nat r)) 1 = 2 ^ (7 - Z.of_nat (S r))) as ->.
    { rewrite shiftr_div by lia.
      replace (7 - Z.of_nat r) with (Z.succ (7 - Z.of_nat (S r))) by lia.
      rewrite Z.pow_succ_r, (Z.mul_comm 2) by lia. apply Z.div_mul. lia. }
    pose proof (pow2_pos (6 - r)) as Hp.
    replace (Z.of_nat (6 - r)) with (7 - Z.of_nat (S r)) in Hp by lia.
    test_false (2 ^ (7 - Z.of_nat (S r)) =? 0). split; [|symmetry; by apply Nat.eqb_neq].
    replace (S d) with (S r + q * 8)%nat by lia.
    rewrite Nat.div_add, Nat.div_small by lia. f_equal.
    rewrite Nat2Z.inj_add, Nat2Z.inj_mul, Z.mod_add by done. rewrite (Z.mod_small (Z.of_nat (S r))); lia.
Qed.

#[export] Instance radix128_ok : RadixKeyOk (list Z) (nat * Z).
Proof.
  refine {|
    bits key := bits_of_bytes (take 16 key);
    readable key := (16 <= length key)%nat;
    searchable key := (17 <= length key)%nat;
    at_depth c d := c = cursor128 d;
  |}; cbn [width radix128].
  - lia.
  - intros key Hk. rewrite length_bits_of_bytes, length_take. lia.
  - lia.
  - done.
  - intros mask c d b Hm -> Hb. cbn [masked radix128 cursor128 fst snd].
    rewrite lookup_bits_of_bytes in Hb. apply bind_Some in Hb as (x & Hx & [= <-]).
    apply lookup_take_Some in Hx as [-> _]. cbn [mbind option_bind].
    rewrite Z.land_comm, land_pow2; [done|]. pose proof (Z.mod_pos_bound (Z.of_nat d) 8). lia.
  - intros key c d b Hm -> Hb. cbn [keyed radix128 cursor128 fst snd].
    rewrite lookup_bits_of_bytes in Hb. apply bind_Some in Hb as (x & Hx & [= <-]).
    apply lookup_take_Some in Hx as [-> _]. cbn [mbind option_bind].
    rewrite land_pow2; [done|]. pose proof (Z.mod_pos_bound (Z.of_nat d) 8). lia.
  - intros key c Hk ->. cbn [keyed radix128 cursor128 fst snd].
    destruct (lookup_lt_is_Some_2 key 16) as [x Hx]; [lia|].
    change (128 `div` 8)%nat with 16%nat. rewrite Hx. cbn [mbind option_bind]. eauto.
  - intros c d -> Hd. cbn [step radix128]. destruct (step128 d) as [Hs Hb]. cbv zeta in Hs |- *.
    rewrite Hb in Hs |- *. destruct (Nat.eqb_spec (d mod 8) 7) as [H7|H7].
    + cbn [cursor128 fst]. destruct (Nat.eqb_spec (S (d `div` 8)) 16) as [He|He].
      * pose proof (Nat.div_mod_eq d 8). lia.
      * split; [done|]. intros Hw mask. by replace d with 127%nat in He by lia.
    + split; [done|]. intros Hw mask. by replace d with 127%nat in H7 by lia.
  - intros c d -> Hd. apply step128.
Defined.

(** ** The memory *)

(** The list of free nodes, linked by [right]. *)
Fixpoint chain (h : gmap nat ngx_radix_node_t) (first : option nat) (l : list nat) : Prop :=
  match l with
  | [] => first = None
  | p :: l' => first = Some p /\ exists n, h !! p = Some n /\ chain h (right n) l'
  end.

(** [used] are the nodes of the tree: they and the free ones are all different, and
    below what is yet to be handed out. *)
Record pool (t : ngx_radix_tree_t) (used unused : list nat) : Prop := {
  pool_chain : chain (nodes t) (free t) unused;
  pool_nodup : NoDup (used ++ unused);
  pool_start : Forall (fun p => p < start t)%nat (used ++ unused);
  pool_size : 0 <= size t;
  pool_pages : (start t + Z.to_nat (size t / sizeof_node) <= pages t)%nat;
}.

Lemma chain_other h h' first l :
  (forall p, p ∈ l -> h' !! p = h !! p) -> chain h first l -> chain h' first l.
Proof.
  revert first. induction l as [|p l IH]; intros first Hh; cbn [chain]; [done|].
  intros [-> (n & Hp & Hl)]. split; [done|]. exists n. split.
  - rewrite Hh; [done|]. apply elem_of_cons. by left.
  - apply IH; [|done]. intros q Hq. apply Hh, elem_of_cons. by right.
Qed.

Lemma pool_perm t used used' unused : used ≡ₚ used' -> pool t used unused -> pool t used' unused.
Proof. intros Hp [Hc Hn Hs H0 Hpg]. split; try done; by rewrite <- Hp. Qed.

(** A store to a node of the tree. *)
Lemma pool_store t used unused p n :
  p ∈ used -> pool t used unused -> pool (t <| nodes := <[p := n]> (nodes t) |>) used unused.
Proof.
  intros Hp [Hc Hn Hs H0 Hpg]. split; try done. cbn.
  apply (chain_other (nodes t)); [|done]. intros q Hq. apply lookup_insert_ne. intros ->.
  apply list.NoDup_app in Hn as (_ & Hd & _). by apply (Hd q).
Qed.

(** A node goes to the free list. *)
Lemma pool_free t used unused p n :
  right n = free t -> pool t (p :: used) unused ->
  pool (t <| nodes := <[p := n]> (nodes t) |> <| free := Some p |>) used (p :: unused).
Proof.
  intros Hr Hpool. assert (Permutation ((p :: used) ++ unused) (used ++ p :: unused)) as Hperm
    by solve_Permutation.
  destruct (pool_store _ _ _ p n ltac:(by left) Hpool) as [Hc Hn Hs H0 Hpg].
  cbn in Hc, Hs, H0, Hpg. split; cbn; try done.
  - split; [done|]. exists n. rewrite lookup_insert_eq, Hr. done.
  - by rewrite <- Hperm.
  - by rewrite <- Hperm.
Qed.

(** The next node of the page. *)
Lemma carve s used t :
  NoDup used -> Forall (fun p => p < s)%nat used ->
  free t = None -> (s <= start t)%nat -> 32 <= size t ->
  (start t + Z.to_nat (size t / 32) <= pages t)%nat ->
  ~ (start t ∈ used) /\ forall n, exists unused',
    pool (t <| start := S (start t) |> <| size := size t - 32 |>
             <| nodes := <[start t := n]> (nodes t) |>) (start t :: used) unused'.
Proof.
  intros Hn Hs Hf Hst Hsz Hp. assert (~ (start t ∈ used)) as Hfresh.
  { intros Hin. rewrite list.Forall_forall in Hs. specialize (Hs _ Hin). lia. }
  split; [done|]. intros n. exists [].
  split; cbn; rewrite ?app_nil_r; try done; [by apply list.NoDup_cons| |lia|].
  - constructor; [lia|]. eapply Forall_impl; [|exact Hs]. intros x. cbn. lia.
  - unfold sizeof_node. replace (size t) with (size t - 32 + 1 * 32) in Hp by lia.
    rewrite Z.div_add in Hp by done. pose proof (Z.div_pos (size t - 32) 32). lia.
Qed.

Section Allocation.
Variable ngx_pagesize : Z.
Hypothesis pagesize_ok : sizeof_node <= ngx_pagesize.

(** Allocation gives a node that is not in the tree, and changes no node. *)
Lemma alloc_ok t used unused : pool t used unused ->
  exists p t', ngx_radix_alloc ngx_pagesize t = Some (p, t')
    /\ root t' = root t /\ nodes t' = nodes t /\ ~ (p ∈ used)
    /\ forall n, exists unused', pool (t' <| nodes := <[p := n]> (nodes t') |>) (p :: used) unused'.
Proof.
  intros [Hc Hn Hs H0 Hpg]. unfold ngx_radix_alloc. destruct (free t) as [p|] eqn:Hfree.
  - destruct unused as [|p' unused]; [by simplify_eq/=|].
    cbn [chain] in Hc. destruct Hc as [[= <-] (n & Hp & Hc)]. rewrite Hp.
    assert (Permutation (used ++ p :: unused) ((p :: used) ++ unused)) as Hperm
      by solve_Permutation.
    rewrite Hperm in Hn, Hs. exists p. eexists. split; [done|]. cbn. split_and!; try done.
    + cbn in Hn. apply list.NoDup_cons in Hn as [Hnp _]. intros ?. apply Hnp, elem_of_app. by left.
    + intros n'. exists unused. split; cbn; try done.
      apply (chain_other (nodes t)); [|done]. intros q Hq. apply lookup_insert_ne. intros ->.
      cbn in Hn. apply list.NoDup_cons in Hn as [Hnp _]. apply Hnp, elem_of_app. by right.
  - destruct unused as [|p' unused]; [|by destruct Hc as [? _]].
    rewrite app_nil_r in Hn, Hs. unfold sizeof_node in *.
    pose proof (fun t2 => carve (start t) used t2 Hn Hs) as Hcarve.
    destruct (Z.ltb_spec (size t) 32) as [Hsz|Hsz].
    + eexists _, _. split; [done|]. split; [done|]. split; [done|].
      apply (Hcarve (t <| start := pages t |> <| size := ngx_pagesize |>
        <| pages := (pages t + Z.to_nat (ngx_pagesize / 32))%nat |>)); cbn; try done; lia.
    + eexists _, _. split; [done|]. split; [done|]. split; [done|].
      apply (Hcarve t); try done; lia.
Qed.
End Allocation.

(** ** What the store holds *)

Record rep (w : nat) (t : ngx_radix_tree_t) (T : rtree) : Prop := {
  rep_root : root t = ptr T;
  rep_some : T <> Nil;
  rep_stored : stored (nodes t) None T;
  rep_pool : exists unused, pool t (ptrs T) unused;
  rep_depth : (depth T <= S w)%nat;
}.

Lemma depth_plug_length k t : (length k + depth t <= depth (plug k t))%nat.
Proof.
  revert t. induction k as [|f k IH]; intros t; cbn [plug length]; [lia|].
  specialize (IH (fill f t)). unfold fill in *. destruct (f_side f); cbn [depth] in IH; lia.
Qed.

Lemma depth_plug k t t' N :
  (length k + depth t' <= N -> depth (plug k t) <= N -> depth (plug k t') <= N)%nat.
Proof.
  revert t t'. induction k as [|f k IH]; intros t t'; cbn [plug length]; [lia|].
  intros Ht' Hd. apply (IH (fill f t)); [|done].
  pose proof (depth_plug_length k (fill f t)) as Hl. unfold fill in *.
  destruct (f_side f); cbn [depth] in *; lia.
Qed.

Lemma plug_some k t : t <> Nil -> plug k t <> Nil.
Proof.
  revert t. induction k as [|f k IH]; intros t Ht; [done|]. cbn. apply IH.
  unfold fill. by destruct (f_side f).
Qed.

(** A step down, to the child on the side [b]. *)
Definition frame_of (b : bool) (p : nat) (v : Z) (l r : rtree) : frame :=
  {| f_side := b; f_ptr := p; f_value := v; f_other := if b then l else r |}.

Lemma fill_frame_of b p v l r :
  fill (frame_of b p v l r) (if b then r else l) = Node p v l r.
Proof. by destruct b. Qed.

Lemma path_of_cons f k : path_of (f :: k) = path_of k ++ [f_side f].
Proof. done. Qed.

Lemma length_path_of k : length (path_of k) = length k.
Proof. unfold path_of. by rewrite length_rev, length_map. Qed.

(** The node of a place. *)
Lemma stored_node h k p v l r :
  stored h None (plug k (Node p v l r)) ->
  h !! p = Some {| right := ptr r; left := ptr l; parent := above k; value := v |}.
Proof. intros Hs. by apply stored_plug in Hs as [_ (? & _)]. Qed.

Section Insert.
Context {K C : Type} `{RadixKeyOk K C}.
Variables key mask : K.
Hypothesis key_ok : readable key.
Hypothesis mask_ok : readable mask.

Abbreviation n := (leading (bits mask)).

Lemma leading_width : (n <= width)%nat.
Proof. pose proof (leading_length (bits mask)). rewrite bits_length in *; done. Qed.

(** The test on the mask: true above depth [n], and false there. *)
Lemma masked_above c d : at_depth c d -> (d < n)%nat -> masked mask c = Some true.
Proof. intros Hc Hd. apply (masked_ok _ _ d); [done..|]. by apply leading_lookup. Qed.

Lemma masked_at c : at_depth c n -> (n = width -> masked mask c = Some false) ->
  masked mask c = Some false.
Proof.
  intros Hc Hw. destruct (leading_lookup (bits mask) n) as [_ Hl]. destruct (Hl eq_refl) as [Hn|Hn].
  - apply lookup_ge_None in Hn. rewrite bits_length in Hn by done. pose proof leading_width.
    apply Hw. lia.
  - by apply (masked_ok _ _ n).
Qed.

Lemma keyed_above c d : at_depth c d -> (d < n)%nat ->
  exists b, keyed key c = Some b /\ take (S d) (bits key) = take d (bits key) ++ [b].
Proof.
  intros Hc Hd. pose proof leading_width. destruct (lookup_lt_is_Some_2 (bits key) d) as [b Hb].
  { rewrite bits_length by done. lia. }
  exists b. split; [by apply (keyed_ok _ _ d)|]. by apply take_S_r.
Qed.

(** A cursor good for depth [d], the end of the key included. *)
Definition good (c : C) (d : nat) : Prop :=
  at_depth c d /\ (d = width -> masked mask c = Some false).

Lemma step_good c d : good c d -> (d < n)%nat ->
  match step c with Some c' => good c' (S d) | None => S d = n end.
Proof.
  intros [Hc Hw] Hd. pose proof leading_width. pose proof (step_ok c d Hc ltac:(lia)) as Hs.
  destruct (step c); [|lia]. destruct Hs as [Hs Hm]. split; [done|]. auto.
Qed.

Lemma first_good : good first 0.
Proof. split; [apply first_ok|]. pose proof width_pos. lia. Qed.

(** The first loop ends at the place of the path, or where the next node is missing. *)
Lemma insert_down_ok fuel t k c p v l r :
  stored (nodes t) None (plug k (Node p v l r)) ->
  good c (length k) -> (length k <= n)%nat -> path_of k = take (length k) (bits key) ->
  (n - length k < fuel)%nat ->
  exists k' c' p' v' l' r' next,
    insert_down fuel t key mask c p = Some (c', p', next)
    /\ plug k (Node p v l r) = plug k' (Node p' v' l' r')
    /\ path_of k' = take (length k') (bits key)
    /\ match next with
       | Some _ => length k' = n
       | None => (length k' < n)%nat /\ good c' (length k')
           /\ forall b, keyed key c' = Some b -> (if b then r' else l') = Nil
       end.
Proof.
  revert k c p v l r. induction fuel as [|fuel IH]; intros k c p v l r Hst Hc Hk Hp Hf; [lia|].
  cbn [insert_down]. destruct (decide (length k = n)) as [He|Hne].
  { rewrite masked_at by (rewrite <- He; apply Hc). cbn [mbind option_bind].
    exists k, c, p, v, l, r, (Some p). done. }
  rewrite (masked_above c (length k)) by (apply Hc || lia). cbn [mbind option_bind].
  destruct (keyed_above c (length k)) as (b & Hb & Htake); [apply Hc|lia|].
  rewrite Hb. cbn [mbind option_bind]. rewrite (stored_node _ _ _ _ _ _ Hst).
  cbn [mbind option_bind].
  assert (child b {| right := ptr r; left := ptr l; parent := above k; value := v |}
    = ptr (if b then r else l)) as -> by by destruct b.
  destruct (if b then r else l) as [|p' v' l' r'] eqn:Hchild; cbn [ptr].
  { exists k, c, p, v, l, r, None. split_and!; try done; [lia|].
    intros b' Hb'. rewrite Hb in Hb'. by simplify_eq. }
  pose proof (fill_frame_of b p v l r) as Hfill. rewrite Hchild in Hfill.
  pose proof (step_good _ _ Hc ltac:(lia)) as Hs.
  assert (path_of (frame_of b p v l r :: k) = take (S (length k)) (bits key)) as Hpath.
  { by rewrite path_of_cons, Hp, Htake. }
  destruct (step c) as [c'|].
  - destruct (IH (frame_of b p v l r :: k) c' p' v' l' r')
      as (k' & c2 & p2 & v2 & l2 & r2 & next & Hr & Hplug & Hrest); cbn [length plug];
      rewrite ?Hfill; try done; try lia.
    exists k', c2, p2, v2, l2, r2, next. cbn [plug] in Hplug. rewrite Hfill in Hplug. done.
  - exists (frame_of b p v l r :: k), c, p', v', l', r', (Some p'). cbn [plug length].
    rewrite Hfill. done.
Qed.
End Insert.

(** ** One node changes *)

Lemma stored_ne h par t p n : ~ (p ∈ ptrs t) -> stored h par t -> stored (<[p := n]> h) par t.
Proof.
  intros Hp. apply stored_other. intros q Hq. apply lookup_insert_ne. by intros ->.
Qed.

Lemma stored_above_ne h k hole p n :
  ~ (p ∈ frame_ptrs k) -> stored_above h k hole -> stored_above (<[p := n]> h) k hole.
Proof.
  intros Hp. apply stored_above_other. intros q Hq. apply lookup_insert_ne. by intros ->.
Qed.

(** The nodes of a tree with a node [p] at a place: they differ from [p]. *)
Lemma nodup_place k p v l r :
  NoDup (ptrs (plug k (Node p v l r))) ->
  ~ (p ∈ ptrs l) /\ ~ (p ∈ ptrs r) /\ ~ (p ∈ frame_ptrs k).
Proof.
  rewrite ptrs_plug. cbn [ptrs app]. intros [Hp _]%list.NoDup_cons.
  rewrite !elem_of_app in Hp. tauto.
Qed.

Lemma stored_set h k p v l r v' l' r' :
  NoDup (ptrs (plug k (Node p v l r))) -> stored h None (plug k (Node p v l r)) ->
  let h' := <[p := {| right := ptr r'; left := ptr l'; parent := above k; value := v' |}]> h in
  stored h' (Some p) l' -> stored h' (Some p) r' -> stored h' None (plug k (Node p v' l' r')).
Proof.
  intros Hn Hs h' Hl Hr. apply stored_plug in Hs as [Ha Hs].
  destruct (nodup_place _ _ _ _ _ Hn) as (_ & _ & Hk).
  apply stored_plug. split; [by apply stored_above_ne|].
  cbn [stored]. unfold h'. rewrite lookup_insert_eq. done.
Qed.

Lemma ptr_plug k t t' : ptr t = ptr t' -> ptr (plug k t) = ptr (plug k t').
Proof.
  revert t t'. induction k as [|f k IH]; intros t t' Ht; [done|]. apply IH. by rewrite !ptr_fill.
Qed.

(** Only the value changes. *)
Lemma set_value_ok w t k p v l r v' :
  rep w t (plug k (Node p v l r)) ->
  exists t', update p (fun n => n <| value := v' |>) t = Some t'
    /\ rep w t' (plug k (Node p v' l r)).
Proof.
  intros [Hroot Hsome Hst [unused Hpool] Hd]. unfold update.
  pose proof (pool_nodup _ _ _ Hpool) as Hn. apply list.NoDup_app in Hn as (Hn & _).
  destruct (nodup_place _ _ _ _ _ Hn) as (Hl & Hr & _).
  rewrite (stored_node _ _ _ _ _ _ Hst). cbn [mbind option_bind]. eexists. split; [done|].
  assert (Permutation (ptrs (plug k (Node p v l r))) (ptrs (plug k (Node p v' l r)))) as Hperm
    by by rewrite !ptrs_plug.
  apply stored_plug in Hst as Hst'. destruct Hst' as [_ (_ & Hsl & Hsr)].
  split; cbn.
  - rewrite Hroot. by apply ptr_plug.
  - by apply plug_some.
  - eapply stored_set; [done..|by apply stored_ne|by apply stored_ne].
  - exists unused. apply pool_store; [rewrite <- Hperm, ptrs_plug; by left|].
    by apply (pool_perm _ _ _ _ Hperm).
  - apply (depth_plug k (Node p v l r)); [|done].
    pose proof (depth_plug_length k (Node p v l r)) as Hlen. cbn [depth] in *. lia.
Qed.


(** ** Insertion *)

Section Insertion.
Variable ngx_pagesize : Z.
Hypothesis pagesize_ok : sizeof_node <= ngx_pagesize.

Definition leaf (q : nat) : rtree := Node q NGX_RADIX_NO_VALUE Nil Nil.

(** A new node is linked where there was none; no value changes. *)
Lemma link_new_ok w t k p v l r (b : bool) :
  rep w t (plug k (Node p v l r)) -> (if b then r else l) = Nil -> (length k < w)%nat ->
  exists (q : nat) t1 t2, ngx_radix_alloc ngx_pagesize t = Some (q, t1)
    /\ update p (set_child b (Some q)) (t1 <| nodes := <[q := new_node (Some p)]> (nodes t1) |>)
       = Some t2
    /\ rep w t2 (plug (frame_of b p v l r :: k) (leaf q))
    /\ forall path, get (plug (frame_of b p v l r :: k) (leaf q)) path
         = get (plug k (Node p v l r)) path.
Proof.
  intros [Hroot Hsome Hst [unused Hpool] Hd] Hchild Hk.
  destruct (alloc_ok ngx_pagesize pagesize_ok t _ _ Hpool)
    as (q & t1 & Halloc & Hroot1 & Hnodes & Hfresh & Hpool1).
  pose proof (pool_nodup _ _ _ Hpool) as Hn. apply list.NoDup_app in Hn as (Hn & _).
  destruct (nodup_place _ _ _ _ _ Hn) as (Hl & Hr & _).
  assert (p ∈ ptrs (plug k (Node p v l r))) as Hp by (rewrite ptrs_plug; by left).
  assert (q <> p) as Hqp by (intros ->; done).
  assert (~ (q ∈ ptrs l) /\ ~ (q ∈ ptrs r)) as [Hql Hqr].
  { rewrite ptrs_plug in Hfresh. cbn [ptrs app] in Hfresh.
    rewrite elem_of_cons, !elem_of_app in Hfresh. tauto. }
  pose proof (stored_ne _ _ _ q (new_node (Some p)) Hfresh Hst) as Hst1.
  exists q, t1. eexists. split; [done|]. unfold update. cbn [nodes field_set].
  rewrite Hnodes, (stored_node _ _ _ _ _ _ Hst1). cbn [mbind option_bind]. split; [done|].
  pose (l' := if b then l else leaf q). pose (r' := if b then leaf q else r).
  assert (plug (frame_of b p v l r :: k) (leaf q) = plug k (Node p v l' r')) as ->
    by by destruct b.
  destruct (Hpool1 (new_node (Some p))) as [unused' Hpool2].
  rewrite Hnodes in Hpool2.
  assert (Permutation (q :: ptrs (plug k (Node p v l r))) (ptrs (plug k (Node p v l' r')))) as Hperm.
  { rewrite !ptrs_plug. unfold l', r'. destruct b; rewrite Hchild; cbn [ptrs app];
      solve_Permutation. }
  split; [split|].
  - cbn. rewrite Hroot1, Hroot. by apply ptr_plug.
  - by apply plug_some.
  - cbn.
    pose proof (stored_set _ _ _ _ _ _ v l' r' Hn Hst1) as Hset. cbv zeta in Hset.
    assert (set_child b (Some q) {| right := ptr r; left := ptr l; parent := above k; value := v |}
      = {| right := ptr r'; left := ptr l'; parent := above k; value := v |}) as -> by by destruct b.
    apply stored_plug in Hst1 as [_ (_ & Hsl & Hsr)].
    assert (forall n, stored (<[p := n]> (<[q := new_node (Some p)]> (nodes t))) (Some p) (leaf q))
      as Hleaf.
    { intros n. unfold leaf. cbn [stored]. by rewrite lookup_insert_ne, lookup_insert_eq. }
    apply Hset; unfold l', r'; destruct b; try apply Hleaf; by apply stored_ne.
  - exists unused'. apply (pool_perm _ _ _ _ Hperm).
    refine (pool_store _ _ _ p _ _ Hpool2). by right.
  - apply (depth_plug k (Node p v l r)); [|done].
    pose proof (depth_plug_length k (Node p v l r)) as Hlen. unfold l', r', leaf.
    destruct b; cbn [depth] in *; lia.
  - intros path. apply get_plug_same. intros [|b' path']; [done|]. unfold get, l', r', leaf.
    cbn [subtree child_of]. destruct b, b'; rewrite ?Hchild; try done;
      destruct path' as [|[] ?]; cbn; by rewrite ?subtree_nil.
Qed.

Context {K C : Type} `{RadixKeyOk K C}.
Variables key mask : K.
Hypothesis key_ok : readable key.
Hypothesis mask_ok : readable mask.

Abbreviation n := (leading (bits mask)).

(** The second loop makes the rest of the path. *)
Lemma insert_new_ok fuel w t k c p v l r :
  rep w t (plug k (Node p v l r)) -> (width <= w)%nat ->
  good mask c (length k) -> (length k <= n)%nat -> path_of k = take (length k) (bits key) ->
  (length k < n -> forall b, keyed key c = Some b -> (if (b : bool) then r else l) = Nil)%nat ->
  (n - length k < fuel)%nat ->
  exists t' k' p' v' l' r', insert_new ngx_pagesize fuel t key mask c p = Some (t', p')
    /\ rep w t' (plug k' (Node p' v' l' r')) /\ path_of k' = path key mask
    /\ forall q, get (plug k' (Node p' v' l' r')) q = get (plug k (Node p v l r)) q.
Proof.
  revert t k c p v l r. induction fuel as [|fuel IH]; intros t k c p v l r Hrep Hw Hc Hk Hp Hnil Hf;
    [lia|].
  cbn [insert_new]. destruct (decide (length k = n)) as [He|Hne].
  { rewrite (masked_at mask mask_ok) by (rewrite <- He; apply Hc). cbn [mbind option_bind].
    exists t, k, p, v, l, r. split_and!; try done. unfold path. by rewrite <- He. }
  rewrite (masked_above mask mask_ok c (length k)) by (apply Hc || lia). cbn [mbind option_bind].
  destruct (keyed_above key mask key_ok mask_ok c (length k)) as (b & Hb & Htake);
    [apply Hc|lia|].
  pose proof (leading_width mask mask_ok) as Hlw.
  destruct (link_new_ok w t k p v l r b Hrep (Hnil ltac:(lia) b Hb) ltac:(lia))
    as (q & t1 & t2 & Halloc & Hupd & Hrep2 & Hget).
  rewrite Halloc. cbn [mbind option_bind]. rewrite Hb. cbn [mbind option_bind].
  rewrite Hupd. cbn [mbind option_bind].
  pose proof (step_good mask mask_ok _ _ Hc ltac:(lia)) as Hs.
  assert (path_of (frame_of b p v l r :: k) = take (S (length k)) (bits key)) as Hpath.
  { by rewrite path_of_cons, Hp, Htake. }
  destruct (step c) as [c'|].
  - destruct (IH t2 (frame_of b p v l r :: k) c' q NGX_RADIX_NO_VALUE Nil Nil)
      as (t' & k' & p' & v' & l' & r' & Hr & Hrep' & Hpath' & Hget'); try done; cbn [length];
      try lia; [by intros _ []|].
    exists t', k', p', v', l', r'. split_and!; try done. intros path. rewrite Hget'. apply Hget.
  - exists t2, (frame_of b p v l r :: k), q, NGX_RADIX_NO_VALUE, Nil, Nil.
    split_and!; try done. unfold path. by rewrite <- Hs.
Qed.

(** A place in the tree, from the root. *)
Lemma get_place k p v l r : get (plug k (Node p v l r)) (path_of k) = v.
Proof. unfold get. by rewrite subtree_plug. Qed.

(** There is no value beyond a missing node. *)
Lemma get_missing k c p v l r :
  at_depth c (length k) -> (length k < n)%nat -> path_of k = take (length k) (bits key) ->
  (forall b, keyed key c = Some b -> (if (b : bool) then r else l) = Nil) ->
  get (plug k (Node p v l r)) (path key mask) = NGX_RADIX_NO_VALUE.
Proof.
  intros Hc Hlt Hp Hnil. unfold path, get.
  destruct (keyed_above key mask key_ok mask_ok c (length k)) as (b & Hb & Htake); [done..|].
  assert (take n (bits key) = path_of k ++ b :: drop (S (length k)) (take n (bits key))) as ->.
  { change (b :: ?l) with ([b] ++ l). rewrite app_assoc, Hp, <- Htake.
    rewrite <- (take_drop (S (length k)) (take n (bits key))) at 1. f_equal.
    rewrite take_take. f_equal. lia. }
  rewrite subtree_app, subtree_plug. cbn [subtree child_of].
  rewrite (Hnil b Hb). by rewrite subtree_nil.
Qed.

Lemma rep_root_node w t T : rep w t T -> exists p v l r, T = Node p v l r /\ root t = Some p.
Proof.
  intros [Hr Hs _ _ _]. destruct T as [|p v l r]; [done|]. by exists p, v, l, r.
Qed.

Lemma tree_insert_ok w t T v : rep w t T -> (width <= w)%nat ->
  if get T (path key mask) =? NGX_RADIX_NO_VALUE then
    exists t' T', ngx_radix_insert ngx_pagesize t key mask v = Some (NGX_OK, t') /\ rep w t' T'
      /\ forall q, get T' q = if decide (q = path key mask) then v else get T q
  else ngx_radix_insert ngx_pagesize t key mask v = Some (NGX_BUSY, t).
Proof.
  intros Hrep Hw. unfold ngx_radix_insert.
  destruct (rep_root_node w t T Hrep) as (p0 & v0 & l0 & r0 & -> & Hroot).
  rewrite Hroot. cbn [mbind option_bind].
  pose proof (leading_width mask mask_ok) as Hlw.
  destruct (insert_down_ok key mask key_ok mask_ok (S width) t [] first p0 v0 l0 r0)
    as (k & c & p & v1 & l & r & next & Hdown & HT & Hp & Hnext);
    [by destruct Hrep|by apply first_good|cbn [length]; lia|done|cbn [length]; lia|].
  cbn [plug] in HT. rewrite Hdown, HT in *. cbn [mbind option_bind]. destruct next as [next|].
  - assert (path key mask = path_of k) as -> by (unfold path; by rewrite <- Hnext).
    rewrite get_place. rewrite (stored_node _ _ _ _ _ _ (rep_stored _ _ _ Hrep)).
    cbn [mbind option_bind value]. destruct (v1 =? NGX_RADIX_NO_VALUE); [|done]. cbn [negb].
    destruct (set_value_ok w t k p v1 l r v Hrep) as (t' & -> & Hrep').
    cbn [mbind option_bind]. eexists _, _. split; [done|]. split; [done|].
    intros q. apply get_plug_value.
  - destruct Hnext as (Hlt & Hc & Hnil).
    rewrite (get_missing k c p v1 l r) by (done || apply Hc).
    rewrite Z.eqb_refl.
    destruct (insert_new_ok (S width) w t k c p v1 l r)
      as (t' & k' & p' & v' & l' & r' & -> & Hrep' & Hpath & Hget);
      [done|done|done|lia|done|by intros _|lia|].
    cbn [mbind option_bind].
    destruct (set_value_ok w t' k' p' v' l' r' v Hrep') as (t2 & -> & Hrep2).
    cbn [mbind option_bind]. eexists _, _. split; [done|]. split; [done|].
    intros q. rewrite (get_plug_value k' p' v' v), Hpath, Hget. done.
Qed.
End Insertion.

(** ** Deletion *)

(** Where a subtree is. *)
Lemma unplug T path s : subtree T path = s -> s <> Nil -> exists k, plug k s = T /\ path_of k = path.
Proof.
  intros Hs Hne. cut (forall k, exists k', plug k' s = plug k T /\ path_of k' = path_of k ++ path).
  { intros Hk. apply (Hk []). }
  revert T Hs. induction path as [|b path IH]; intros T Hs k.
  { exists k. simpl in Hs. by rewrite Hs, app_nil_r. }
  destruct T as [|p v l r].
  { cbn in Hs. by rewrite subtree_nil in Hs. }
  destruct (IH _ Hs (frame_of b p v l r :: k)) as (k' & Hplug & Hpath).
  exists k'. split.
  - rewrite Hplug. cbn [plug child_of]. by rewrite fill_frame_of.
  - by rewrite Hpath, path_of_cons, <- app_assoc.
Qed.

(** A leaf other than the root is unlinked and freed. *)
Lemma unlink_ok w t f k p v :
  rep w t (plug (f :: k) (Node p v Nil Nil)) ->
  exists n pn t1 t2,
    nodes t !! p = Some n /\ parent n = Some (f_ptr f) /\ nodes t !! f_ptr f = Some pn
    /\ update (f_ptr f) (set_child (bool_decide (right pn = Some p)) None) t = Some t1
    /\ update p (fun n => n <| right := free t1 |>) t1 = Some t2
    /\ rep w (t2 <| free := Some p |>) (plug (f :: k) Nil).
Proof.
  intros [Hroot Hsome Hst [unused Hpool] Hd].
  pose proof (pool_nodup _ _ _ Hpool) as Hn. apply list.NoDup_app in Hn as (Hn & _).
  destruct (nodup_place _ _ _ _ _ Hn) as (_ & _ & Hpk).
  pose proof (stored_node _ _ _ _ _ _ Hst) as Hp. cbn [plug] in *.
  destruct f as [b q fv o]. cbn [f_ptr frame_ptrs f_other] in *. cbn [above f_ptr] in Hp.
  apply not_elem_of_cons in Hpk as [Hpq Hpk]. rewrite elem_of_app in Hpk.
  set (leaf := Node p v Nil Nil) in *.
  pose (l := if b then o else leaf). pose (r := if b then leaf else o).
  assert (fill {| f_side := b; f_ptr := q; f_value := fv; f_other := o |} leaf = Node q fv l r)
    as Hfill by by destruct b.
  rewrite Hfill in *. pose proof (stored_node _ _ _ _ _ _ Hst) as Hq.
  do 2 eexists. do 2 eexists. split; [exact Hp|]. split; [done|]. split; [exact Hq|].
  unfold update. rewrite Hq. cbn [mbind option_bind]. split; [done|]. cbn [nodes free field_set right].
  rewrite lookup_insert_ne by done. rewrite Hp. cbn [mbind option_bind]. split; [done|].
  assert (bool_decide (ptr r = Some p) = b) as ->.
  { unfold r. destruct b; [by apply bool_decide_eq_true|]. apply bool_decide_eq_false.
    destruct o; cbn; [done|]. intros [= ->]. apply Hpk. left. by left. }
  pose (l' := if b then o else Nil). pose (r' := if b then Nil else o).
  assert (fill {| f_side := b; f_ptr := q; f_value := fv; f_other := o |} Nil = Node q fv l' r')
    as -> by by destruct b.
  assert (set_child b None {| right := ptr r; left := ptr l; parent := above k; value := fv |}
    = {| right := ptr r'; left := ptr l'; parent := above k; value := fv |}) as -> by by destruct b.
  assert (Permutation (ptrs (plug k (Node q fv l r))) (p :: ptrs (plug k (Node q fv l' r')))) as Hperm.
  { rewrite !ptrs_plug. unfold l, l', r, r', leaf. destruct b; cbn [ptrs app]; solve_Permutation. }
  destruct (nodup_place _ _ _ _ _ Hn) as (Hql & Hqr & _).
  split.
  - cbn. rewrite Hroot. by apply ptr_plug.
  - by apply plug_some.
  - cbn. apply stored_ne.
    { rewrite Hperm in Hn. by apply list.NoDup_cons in Hn as [? _]. }
    pose proof (stored_set _ _ _ _ _ _ fv l' r' Hn Hst) as Hset. cbv zeta in Hset.
    apply stored_plug in Hst as [_ (_ & Hsl & Hsr)].
    apply Hset; unfold l', r', l, r in *; destruct b; try done; by apply stored_ne.
  - exists (p :: unused).
    refine (pool_free (t <| nodes := <[q := _]> (nodes t) |>) _ _ p _ _ _); [done|].
    apply (pool_perm _ _ _ _ Hperm). apply pool_store; [|done]. rewrite ptrs_plug. by left.
  - apply (depth_plug k (Node q fv l r)); [|done].
    pose proof (depth_plug_length k (Node q fv l r)) as Hlen. unfold l, l', r, r', leaf in *.
    destruct b; cbn [depth] in *; lia.
Qed.

Lemma get_plug_nil k p v path :
  get (plug k Nil) path
  = if decide (path = path_of k) then NGX_RADIX_NO_VALUE else get (plug k (Node p v Nil Nil)) path.
Proof.
  rewrite <- (get_plug_value k p v NGX_RADIX_NO_VALUE Nil Nil path). apply get_plug_same.
  intros [|[] q]; [done|..]; unfold get; cbn; by rewrite subtree_nil.
Qed.

(** The loop that frees nodes; only the value of the first of them goes. *)
Lemma prune_ok fuel w t f k p v :
  rep w t (plug (f :: k) (Node p v Nil Nil)) -> (length k < fuel)%nat ->
  exists t' T', prune fuel t p = Some t' /\ rep w t' T'
    /\ forall q, get T' q = if decide (q = path_of (f :: k)) then NGX_RADIX_NO_VALUE
                            else get (plug (f :: k) (Node p v Nil Nil)) q.
Proof.
  revert t f k p v. induction fuel as [|fuel IH]; intros t f k p v Hrep Hf; [lia|].
  destruct (unlink_ok w t f k p v Hrep) as (n & pn & t1 & t2 & Hn & Hpar & Hpn & Hu1 & Hu2 & Hrep2).
  cbn [prune]. rewrite Hn. cbn [mbind option_bind]. rewrite Hpar. cbn [mbind option_bind].
  rewrite Hpn. cbn [mbind option_bind]. rewrite Hu1. cbn [mbind option_bind].
  rewrite Hu2. cbn [mbind option_bind].
  set (t3 := t2 <| free := Some p |>) in *.
  destruct (fill f Nil) as [|q fv l r] eqn:Hfill; [by unfold fill in Hfill; destruct (f_side f)|].
  assert (q = f_ptr f) as -> by (unfold fill in Hfill; destruct (f_side f); by simplify_eq).
  cbn [plug] in Hrep2. rewrite Hfill in Hrep2.
  pose proof (stored_node _ _ _ _ _ _ (rep_stored _ _ _ Hrep2)) as Hnode.
  rewrite Hnode. cbn [mbind option_bind right left value parent].
  assert (exists t' T', Some t3 = Some t' /\ rep w t' T'
    /\ forall q, get T' q = if decide (q = path_of (f :: k)) then NGX_RADIX_NO_VALUE
                            else get (plug (f :: k) (Node p v Nil Nil)) q) as Hdone.
  { exists t3, (plug k (Node (f_ptr f) fv l r)). split; [done|]. split; [done|].
    intros q. rewrite <- Hfill. apply (get_plug_nil (f :: k)). }
  destruct r as [|]; [|done]. destruct l as [|]; [|done]. cbn [ptr].
  destruct (Z.eqb_spec fv NGX_RADIX_NO_VALUE) as [->|]; [|done]. cbn [negb].
  destruct k as [|f' k]; [done|]. cbn [above].
  destruct (IH t3 f' k (f_ptr f) NGX_RADIX_NO_VALUE) as (t' & T' & -> & Hrep' & Hget);
    [done|cbn [length] in Hf; lia|].
  exists t', T'. split; [done|]. split; [done|]. intros q. rewrite Hget.
  rewrite <- (get_plug_nil (f :: f' :: k) p v). cbn [plug]. rewrite Hfill. cbn [plug].
  destruct (decide _) as [->|]; [|done]. unfold path_of at 1. symmetry. apply (get_place (f' :: k)).
Qed.

Section Delete.
Context {K C : Type} `{RadixKeyOk K C}.
Variables key mask : K.
Hypothesis key_ok : readable key.
Hypothesis mask_ok : readable mask.

Abbreviation n := (leading (bits mask)).

Lemma path_length : length (path key mask) = n.
Proof.
  pose proof (leading_width mask mask_ok) as Hlw. unfold path.
  rewrite length_take, bits_length by done. lia.
Qed.

Lemma delete_down_ok fuel t par c d s :
  stored (nodes t) par s -> good mask c d -> (d <= n)%nat -> (n - d < fuel)%nat ->
  delete_down fuel t key mask c (ptr s) = Some (ptr (subtree s (drop d (path key mask)))).
Proof.
  revert par c d s. induction fuel as [|fuel IH]; intros par c d s Hs Hc Hd Hf; [lia|].
  cbn [delete_down]. destruct s as [|p v l r]; [by rewrite subtree_nil|]. cbn [ptr].
  pose proof (leading_width mask mask_ok) as Hlw.
  pose proof path_length as Hlen.
  destruct (decide (d = n)) as [->|Hne].
  { rewrite (masked_at mask mask_ok) by apply Hc. cbn [mbind option_bind].
    by rewrite drop_ge by lia. }
  rewrite (masked_above mask mask_ok c d) by (apply Hc || lia). cbn [mbind option_bind].
  destruct (keyed_above key mask key_ok mask_ok c d) as (b & Hb & Htake); [apply Hc|lia|].
  rewrite Hb. cbn [mbind option_bind]. destruct Hs as (-> & Hl & Hr). cbn [mbind option_bind].
  assert (drop d (path key mask) = b :: drop (S d) (path key mask)) as ->.
  { apply drop_S. unfold path. rewrite lookup_take_lt by lia.
    assert (length (bits key) = width) as Hlk by by apply bits_length.
    assert ((take (S d) (bits key)) !! d = Some b) as Hd'.
    { rewrite Htake, lookup_app_r; rewrite length_take; [|lia].
      by replace (d - d `min` length (bits key))%nat with 0%nat by lia. }
    by rewrite lookup_take_lt in Hd' by lia. }
  cbn [subtree child_of]. pose proof (step_good mask mask_ok _ _ Hc ltac:(lia)) as Hstep.
  assert (child b {| right := ptr r; left := ptr l; parent := par; value := v |}
    = ptr (if b then r else l)) as -> by by destruct b.
  destruct (step c) as [c'|].
  - apply (IH (Some p)); [by destruct b|done|lia|lia].
  - rewrite Hstep, <- Hlen, drop_all. done.
Qed.

(** Deletion of a network; of the whole address space only if there are others. *)
Lemma delete_ok w t T : rep w t T -> (width <= w)%nat -> path key mask <> [] ->
  exists rc t' T', ngx_radix_delete t key mask = Some (rc, t') /\ rep w t' T'
    /\ (forall q, get T' q = if decide (q = path key mask) then NGX_RADIX_NO_VALUE else get T q)
    /\ (rc = NGX_OK \/ rc = NGX_ERROR)
    /\ (get T (path key mask) <> NGX_RADIX_NO_VALUE -> rc = NGX_OK).
Proof.
  intros Hrep Hw Hne. unfold ngx_radix_delete. rewrite (rep_root _ _ _ Hrep).
  pose proof (leading_width mask mask_ok) as Hlw. pose proof path_length as Hlen.
  rewrite (delete_down_ok _ _ None _ 0); [|by destruct Hrep|by apply first_good|lia|lia].
  cbn [mbind option_bind]. rewrite drop_0.
  assert (get T (path key mask) = NGX_RADIX_NO_VALUE ->
    forall q, get T q = if decide (q = path key mask) then NGX_RADIX_NO_VALUE else get T q) as Hsame.
  { intros Hg q. by destruct (decide _) as [->|]. }
  destruct (subtree T (path key mask)) as [|p v l r] eqn:Hsub; cbn [ptr].
  { assert (get T (path key mask) = NGX_RADIX_NO_VALUE) as Hg by (unfold get; by rewrite Hsub).
    exists NGX_ERROR, t, T. split_and!; try done; [by apply Hsame|by right]. }
  destruct (unplug _ _ _ Hsub ltac:(done)) as (k & <- & Hk).
  rewrite <- Hk in *. rewrite length_path_of in Hlen.
  rewrite get_place in *. rewrite (stored_node _ _ _ _ _ _ (rep_stored _ _ _ Hrep)).
  cbn [mbind option_bind right left value].
  assert (exists rc t' T', (if negb (v =? NGX_RADIX_NO_VALUE) then
      t0 ← update p (fun n => n <| value := NGX_RADIX_NO_VALUE |>) t; Some (NGX_OK, t0)
      else Some (NGX_ERROR, t)) = Some (rc, t') /\ rep w t' T'
    /\ (forall q, get T' q = if decide (q = path_of k) then NGX_RADIX_NO_VALUE
          else get (plug k (Node p v l r)) q)
    /\ (rc = NGX_OK \/ rc = NGX_ERROR) /\ (v <> NGX_RADIX_NO_VALUE -> rc = NGX_OK)) as Hinner.
  { destruct (Z.eqb_spec v NGX_RADIX_NO_VALUE) as [Hv|Hv]; cbn [negb].
    - exists NGX_ERROR, t, (plug k (Node p v l r)). split_and!; try done; [by apply Hsame|by right].
    - destruct (set_value_ok w t k p v l r NGX_RADIX_NO_VALUE Hrep) as (t' & -> & Hrep').
      cbn [mbind option_bind]. eexists _, _, _. split; [done|]. split; [done|].
      split; [|by auto]. intros q. apply get_plug_value. }
  destruct r as [|]; [|done]. destruct l as [|]; [|done]. cbn [ptr].
  destruct k as [|f k]; [done|]. cbn [length] in Hlen.
  destruct (prune_ok (S width) w t f k p v Hrep ltac:(lia)) as (t' & T' & -> & Hrep' & Hget).
  cbn [mbind option_bind]. exists NGX_OK, t', T'. split_and!; try done. by left.
Qed.
End Delete.

(** ** Search *)

(** The last value on the way along [path]. *)
Fixpoint last_value (t : rtree) (path : list bool) (v : Z) : Z :=
  match t with
  | Nil => v
  | Node _ v' l r =>
      let v := if negb (v' =? NGX_RADIX_NO_VALUE) then v' else v in
      match path with
      | [] => v
      | b :: path' => last_value (if b then r else l) path' v
      end
  end.

(** The values at the prefixes of [path], the shortest first. *)
Definition prefix_values (m : list bool -> option Z) (path : list bool) : list Z :=
  omap (fun n => m (take n path)) (seq 0 (S (length path))).

Definition valid (v : Z) : option Z := if v =? NGX_RADIX_NO_VALUE then None else Some v.

Lemma prefix_values_cons m b path :
  prefix_values m (b :: path)
  = (match m [] with Some v => [v] | None => [] end) ++ prefix_values (fun q => m (b :: q)) path.
Proof.
  unfold prefix_values. cbn [length]. 
  change (seq 0 (S (S (length path)))) with (0%nat :: seq 1 (S (length path))).
  rewrite <- seq_shift. cbn [omap list_omap take]. fold (@omap list _).
  assert (forall l, omap (fun n => m (take n (b :: path))) (map S l)
    = omap (fun n => m (b :: take n path)) l) as ->.
  { induction l as [|x l IH]; [done|]. cbn. by rewrite <- IH. }
  by destruct (m []).
Qed.

Lemma last_default {A} (l1 l2 : list A) d :
  default d (list.last (l1 ++ l2)) = default (default d (list.last l1)) (list.last l2).
Proof. rewrite last_app. by destruct (list.last l2). Qed.

Lemma prefix_values_none m path : (forall q, m q = None) -> prefix_values m path = [].
Proof.
  intros Hm. unfold prefix_values. induction (seq _ _) as [|x l IH]; [done|].
  cbn. by rewrite Hm.
Qed.

Lemma last_value_ok t path v :
  last_value t path v = default v (list.last (prefix_values (fun q => valid (get t q)) path)).
Proof.
  revert path v. induction t as [|p v' l IHl r IHr]; intros path v.
  - rewrite prefix_values_none; [done|]. intros q. by rewrite get_nil.
  - destruct path as [|b path].
    + cbn. unfold get, valid. cbn. by destruct (v' =? NGX_RADIX_NO_VALUE).
    + rewrite prefix_values_cons, last_default. cbn [last_value].
      change (get (Node p v' l r) []) with v'.
      assert (default v (list.last (match valid v' with Some v => [v] | None => [] end))
        = if negb (v' =? NGX_RADIX_NO_VALUE) then v' else v) as ->.
      { unfold valid. by destruct (v' =? NGX_RADIX_NO_VALUE). }
      destruct b; [apply IHr|apply IHl].
Qed.

Section Find.
Context {K C : Type} `{RadixKeyOk K C}.
Variable key : K.
Hypothesis key_ok : searchable key.

Lemma find_down_ok fuel t par c d s v :
  stored (nodes t) par s -> at_depth c d -> (d + depth s <= S width)%nat ->
  (d <= width)%nat -> (width - d < fuel)%nat ->
  find_down fuel t key c (ptr s) v = Some (last_value s (drop d (bits key)) v).
Proof.
  revert par c d s v. induction fuel as [|fuel IH]; intros par c d s v Hs Hc Hd Hw Hf; [lia|].
  destruct s as [|p v' l r]; [done|]. cbn [find_down ptr last_value].
  destruct Hs as (-> & Hl & Hr). cbn [mbind option_bind value].
  assert (length (bits key) = width) as Hlen by by apply bits_length, searchable_readable.
  cbn [depth] in Hd. destruct (decide (d = width)) as [->|Hne].
  - destruct (keyed_end key c key_ok Hc) as [b ->]. cbn [mbind option_bind].
    destruct l; [|cbn [depth] in Hd; lia]. destruct r; [|cbn [depth] in Hd; lia].
    rewrite drop_ge by lia. by destruct b, fuel.
  - destruct (lookup_lt_is_Some_2 (bits key) d) as [b Hb]; [lia|].
    rewrite (keyed_ok key c d b) by (done || by apply searchable_readable).
    cbn [mbind option_bind]. rewrite (drop_S _ b d) by done.
    assert (child b {| right := ptr r; left := ptr l; parent := par; value := v' |}
      = ptr (if b then r else l)) as -> by by destruct b.
    apply (IH (Some p)); [by destruct b|apply step_find_ok; [done|lia]|destruct b; lia|lia|lia].
Qed.

Lemma find_ok t T : rep width t T ->
  ngx_radix_find t key
  = Some (default NGX_RADIX_NO_VALUE (list.last (prefix_values (fun q => valid (get T q)) (bits key)))).
Proof.
  intros [Hroot _ Hst _ Hd]. unfold ngx_radix_find. rewrite Hroot.
  rewrite (find_down_ok _ _ None _ 0); [|done|apply first_ok|lia|lia|lia].
  by rewrite drop_0, last_value_ok.
Qed.
End Find.

(** ** Creation *)

Section Creation.
Variable ngx_pagesize : Z.
Hypothesis pagesize_ok : sizeof_node <= ngx_pagesize.

Definition all_empty (T : rtree) : Prop := forall q, get T q = NGX_RADIX_NO_VALUE.

Lemma insert_empty w t T (key mask : Z) : rep w t T -> all_empty T -> (32 <= w)%nat ->
  exists t' T', ngx_radix_insert ngx_pagesize t key mask NGX_RADIX_NO_VALUE = Some (NGX_OK, t')
    /\ rep w t' T' /\ all_empty T'.
Proof.
  intros Hrep He Hw.
  pose proof (tree_insert_ok ngx_pagesize pagesize_ok key mask I I w t T NGX_RADIX_NO_VALUE Hrep Hw) as Hi.
  rewrite (He (path key mask)), Z.eqb_refl in Hi. destruct Hi as (t' & T' & Hi & Hrep' & Hget).
  exists t', T'. split; [done|]. split; [done|]. intros q. rewrite Hget. by destruct (decide _).
Qed.

(** One level: the keys [j * inc] up to 2^32. *)
Lemma create_keys_ok fuel w t T mask i j :
  rep w t T -> all_empty T -> (32 <= w)%nat ->
  0 <= i < 32 -> 0 <= j < 2 ^ (32 - i) -> 2 ^ (32 - i) - j <= Z.of_nat fuel ->
  exists t' T', create_keys ngx_pagesize fuel t (j * 2 ^ i) mask (2 ^ i) = Some (Some t')
    /\ rep w t' T' /\ all_empty T'.
Proof.
  revert t T j. induction fuel as [|fuel IH]; intros t T j Hrep He Hw Hi Hj Hf; [lia|].
  cbn [create_keys].
  destruct (insert_empty w t T (j * 2 ^ i) mask Hrep He Hw) as (t1 & T1 & -> & Hrep1 & He1).
  cbn [mbind option_bind]. change (NGX_OK =? NGX_OK) with true. cbn [negb].
  replace (j * 2 ^ i + 2 ^ i) with ((j + 1) * 2 ^ i) by lia.
  assert (2 ^ 32 = 2 ^ (32 - i) * 2 ^ i) as Hpow by (rewrite <- Z.pow_add_r by lia; f_equal; lia).
  assert (0 < 2 ^ i) as Hpos by (apply Z.pow_pos_nonneg; lia).
  unfold u32. rewrite Hpow. destruct (decide (j + 1 = 2 ^ (32 - i))) as [->|Hne].
  - rewrite Z.mod_same by nia. cbn [Z.eqb negb]. eauto.
  - rewrite Z.mod_small by nia. test_false ((j + 1) * 2 ^ i =? 0). cbn [negb].
    apply (IH t1 T1); try done; lia.
Qed.

Lemma create_levels_ok n w t T mask d :
  rep w t T -> all_empty T -> (32 <= w)%nat ->
  exists t' T', create_levels ngx_pagesize n t mask
      (if decide (d < 32)%nat then 2 ^ (31 - Z.of_nat d) else 0) = Some (Some t')
    /\ rep w t' T' /\ all_empty T'.
Proof.
  revert t T mask d. induction n as [|n IH]; intros t T mask d Hrep He Hw; [by eauto|].
  cbn [create_levels]. destruct (decide (d < 32)%nat) as [Hd|Hd].
  - set (i := 31 - Z.of_nat d).
    assert (2 ^ 32 / 2 ^ i = 2 ^ (32 - i)) as Hdiv by (rewrite Z.pow_sub_r; lia).
    assert (0 < 2 ^ (32 - i)) as Hpos by (apply Z.pow_pos_nonneg; lia).
    destruct (create_keys_ok (S (Z.to_nat (2 ^ 32 / 2 ^ i))) w t T
      (Z.lor (Z.shiftr mask 1) 0x80000000) i 0) as (t1 & T1 & Hk & Hrep1 & He1);
      try done; try lia.
    rewrite Z.mul_0_l in Hk. rewrite Hk. cbn [mbind option_bind]. pose proof (shift32 d Hd) as Hs. rewrite decide_True in Hs by done.
    unfold i. rewrite Hs. by apply (IH t1 T1).
  - change (S (Z.to_nat (2 ^ 32 / 0))) with 1%nat. cbn [create_keys].
    destruct (insert_empty w t T 0 (Z.lor (Z.shiftr mask 1) 0x80000000) Hrep He Hw)
      as (t1 & T1 & -> & Hrep1 & He1).
    cbn [mbind option_bind]. change (NGX_OK =? NGX_OK) with true. cbn [negb].
    change (negb (u32 (0 + 0) =? 0)) with false. cbn [mbind option_bind].
    destruct (IH t1 T1 (Z.lor (Z.shiftr mask 1) 0x80000000) d Hrep1 He1 Hw) as (t' & T' & Hr & Hrest).
    rewrite decide_False in Hr by done. rewrite Z.shiftr_0_l. eauto.
Qed.

Lemma tree_create_ok w preallocate : (32 <= w)%nat ->
  exists t T, ngx_radix_tree_create ngx_pagesize preallocate = Some (Some t)
    /\ rep w t T /\ all_empty T.
Proof.
  intros Hw. unfold ngx_radix_tree_create.
  set (t0 := {| root := None; free := None; start := 0; size := 0; pages := 0; nodes := ∅ |}).
  assert (pool t0 [] []) as Hpool by (split; cbn; try done; constructor).
  destruct (alloc_ok ngx_pagesize pagesize_ok t0 [] [] Hpool)
    as (r & t1 & -> & _ & Hnodes & _ & Hpool1).
  cbn [mbind option_bind].
  set (t2 := t1 <| nodes := _ |> <| root := Some r |>).
  assert (rep w t2 (leaf r) /\ all_empty (leaf r)) as [Hrep He].
  { split.
    - destruct (Hpool1 (new_node None)) as [unused [Hc Hn Hs H0 Hp]].
      split; cbn; try done; [|by exists unused|lia]. split_and!; try done.
      apply lookup_insert_eq.
    - intros [|[] q]; [done|..]; unfold get; cbn; by rewrite subtree_nil. }
  destruct (preallocate =? 0); [by eauto|]. cbv zeta.
  change 0x80000000 with (if decide (0 < 32)%nat then 2 ^ (31 - Z.of_nat 0) else 0).
  by apply (create_levels_ok _ w t2 (leaf r)).
Qed.
End Creation.

(** ** The functions of each kind of keys *)

Definition ngx_radix32tree_insert (ngx_pagesize : Z) (tree : ngx_radix_tree_t) (key mask value : Z) :=
  ngx_radix_insert ngx_pagesize tree key mask value.
Definition ngx_radix32tree_delete (tree : ngx_radix_tree_t) (key mask : Z) :=
  ngx_radix_delete tree key mask.
Definition ngx_radix32tree_find (tree : ngx_radix_tree_t) (key : Z) := ngx_radix_find tree key.

Definition ngx_radix128tree_insert (ngx_pagesize : Z) (tree : ngx_radix_tree_t)
    (key mask : list Z) (value : Z) :=
  ngx_radix_insert ngx_pagesize tree key mask value.
Definition ngx_radix128tree_delete (tree : ngx_radix_tree_t) (key mask : list Z) :=
  ngx_radix_delete tree key mask.
Definition ngx_radix128tree_find (tree : ngx_radix_tree_t) (key : list Z) := ngx_radix_find tree key.

(** ** Refinement of a map from prefixes *)

Inductive radix_op (K : Type) :=
  | Insert (key mask : K) (value : Z)
  | Delete (key mask : K)
  | Find (key : K).
Arguments Insert {K}.
Arguments Delete {K}.
Arguments Find {K}.

Section Refinement.
Variable ngx_pagesize : Z.
Context {K C : Type} `{RadixKeyOk K C}.

Definition radix_call (t : ngx_radix_tree_t) (op : radix_op K) : option (Z * ngx_radix_tree_t) :=
  match op with
  | Insert key mask v => ngx_radix_insert ngx_pagesize t key mask v
  | Delete key mask => ngx_radix_delete t key mask
  | Find key => v ← ngx_radix_find t key; Some (v, t)
  end.

Fixpoint radix_run (t : ngx_radix_tree_t) (ops : list (radix_op K)) : option (list Z) :=
  match ops with
  | [] => Some []
  | op :: ops' => '(r, t) ← radix_call t op; rs ← radix_run t ops'; Some (r :: rs)
  end.

(** The value of the longest prefix of a key. *)
Definition longest_prefix (m : gmap (list bool) Z) (key : list bool) : Z :=
  default NGX_RADIX_NO_VALUE (list.last (prefix_values (fun q => m !! q) key)).

(** What a call returns and does to the map.  The deletion of a prefix that is not
    there may or may not be an error: it depends on the shape of the tree. *)
Inductive radix_spec (m : gmap (list bool) Z) : radix_op K -> Z -> gmap (list bool) Z -> Prop :=
  | spec_insert key mask v : m !! path key mask = None ->
      radix_spec m (Insert key mask v) NGX_OK (<[path key mask := v]> m)
  | spec_insert_busy key mask v v' : m !! path key mask = Some v' ->
      radix_spec m (Insert key mask v) NGX_BUSY m
  | spec_delete key mask v : m !! path key mask = Some v ->
      radix_spec m (Delete key mask) NGX_OK (delete (path key mask) m)
  | spec_delete_absent key mask r : m !! path key mask = None -> r = NGX_OK \/ r = NGX_ERROR ->
      radix_spec m (Delete key mask) r m
  | spec_find key : radix_spec m (Find key) (longest_prefix m (bits key)) m.

Inductive radix_specs : gmap (list bool) Z -> list (radix_op K) -> list Z -> Prop :=
  | specs_nil m : radix_specs m [] []
  | specs_cons m m' op ops r rs :
      radix_spec m op r m' -> radix_specs m' ops rs -> radix_specs m (op :: ops) (r :: rs).

(** Keys and masks of the right length; a value that is one; no deletion of the
    whole address space. *)
Definition op_ok (op : radix_op K) : Prop :=
  match op with
  | Insert key mask v => readable key /\ readable mask /\ v <> NGX_RADIX_NO_VALUE
  | Delete key mask => readable key /\ readable mask /\ path key mask <> []
  | Find key => searchable key
  end.

(** The tree and the map hold the same values. *)
Definition same_values (T : rtree) (m : gmap (list bool) Z) : Prop :=
  forall q, m !! q = valid (get T q).

Lemma valid_set (b : Prop) `{Decision b} v x :
  valid (if decide b then v else x) = if decide b then valid v else valid x.
Proof. by destruct (decide b). Qed.

Hypothesis pagesize_ok : sizeof_node <= ngx_pagesize.

Lemma radix_call_ok t T m op :
  rep width t T -> same_values T m -> op_ok op ->
  exists r t' T' m', radix_call t op = Some (r, t') /\ rep width t' T' /\ same_values T' m'
    /\ radix_spec m op r m'.
Proof.
  intros Hrep Hm Hop. destruct op as [key mask v|key mask|key]; cbn [radix_call op_ok] in *.
  - destruct Hop as (Hk & Hmk & Hv).
    pose proof (tree_insert_ok ngx_pagesize pagesize_ok key mask Hk Hmk width t T v Hrep ltac:(done)) as Hi.
    pose proof (Hm (path key mask)) as Hp. unfold valid in Hp.
    destruct (get T (path key mask) =? NGX_RADIX_NO_VALUE).
    + destruct Hi as (t' & T' & -> & Hrep' & Hget).
      exists NGX_OK, t', T', (<[path key mask := v]> m). split_and!; try done; [|by constructor].
      intros q. rewrite Hget, valid_set. destruct (decide _) as [->|Hne].
      * rewrite lookup_insert_eq. unfold valid. by test_false (v =? NGX_RADIX_NO_VALUE).
      * rewrite lookup_insert_ne by done. apply Hm.
    + rewrite Hi. exists NGX_BUSY, t, T, m. split_and!; try done. by eapply spec_insert_busy.
  - destruct Hop as (Hk & Hmk & Hne).
    destruct (delete_ok key mask Hk Hmk width t T Hrep ltac:(done) Hne)
      as (rc & t' & T' & -> & Hrep' & Hget & Hrc & Hok).
    pose proof (Hm (path key mask)) as Hp. unfold valid in Hp.
    assert (same_values T' (delete (path key mask) m)) as Hm'.
    { intros q. rewrite Hget, valid_set. destruct (decide _) as [->|Hq].
      - by rewrite lookup_delete_eq.
      - rewrite lookup_delete_ne by done. apply Hm. }
    destruct (Z.eqb_spec (get T (path key mask)) NGX_RADIX_NO_VALUE) as [He|He].
    + rewrite delete_id in Hm' by done. exists rc, t', T', m. split_and!; try done.
      by constructor.
    + rewrite (Hok He). exists NGX_OK, t', T', (delete (path key mask) m).
      split_and!; try done. by econstructor.
  - rewrite (find_ok key Hop t T Hrep). eexists _, t, T, m. split; [done|]. split_and!; try done.
    assert (prefix_values (fun q => valid (get T q)) (bits key)
      = prefix_values (fun q => m !! q) (bits key)) as ->.
    { unfold prefix_values. induction (seq _ _) as [|x l IH]; [done|]. cbn. by rewrite Hm, <- IH. }
    constructor.
Qed.

Lemma radix_run_ok ops t T m :
  rep width t T -> same_values T m -> Forall op_ok ops ->
  exists rs, radix_run t ops = Some rs /\ radix_specs m ops rs.
Proof.
  intros Hrep Hm Hops. revert t T m Hrep Hm.
  induction Hops as [|op ops Hop _ IH]; intros t T m Hrep Hm.
  { exists []. split; [done|constructor]. }
  destruct (radix_call_ok t T m op Hrep Hm Hop) as (r & t' & T' & m' & Hcall & Hrep' & Hm' & Hspec).
  destruct (IH t' T' m' Hrep' Hm') as (rs & Hrun & Hspecs).
  exists (r :: rs). cbn [radix_run]. rewrite Hcall. cbn [mbind option_bind].
  rewrite Hrun. split; [done|by econstructor].
Qed.
End Refinement.

(** C9: Refinement of the radix tree.  On a new tree, preallocated in any way, every
    sequence of insertions, deletions and searches runs without a bad access to the
    store, and returns what a map from prefixes returns: an insertion fails exactly
    when the prefix of the key under the mask has a value, a deletion removes that
    value only, and a search finds the value of the longest prefix of the key.  The
    memory is that of pages of any size, with freed nodes used again. *)
Theorem ngx_radix_tree_refines (ngx_pagesize preallocate : Z) K C `{RadixKeyOk K C}
    (ops : list (radix_op K)) :
  sizeof_node <= ngx_pagesize -> -1 <= preallocate -> (32 <= width)%nat -> Forall op_ok ops ->
  exists t rs, ngx_radix_tree_create ngx_pagesize preallocate = Some (Some t)
    /\ radix_run ngx_pagesize t ops = Some rs /\ radix_specs ∅ ops rs.
Proof.
  intros Hpage _ Hwidth Hops.
  destruct (tree_create_ok ngx_pagesize Hpage width preallocate Hwidth) as (t & T & Hc & Hrep & He).
  destruct (radix_run_ok ngx_pagesize Hpage ops t T ∅ Hrep) as (rs & Hrun & Hspecs); [|done|].
  - intros q. by rewrite lookup_empty, He.
  - by exists t, rs.
Qed.

Definition net (l : list Z) : list Z := l ++ repeat 0 (17 - length l).

Lemma ngx_radix_tree_refines_witness :
  exists t rs, ngx_radix_tree_create 4096 (-1) = Some (Some t)
    /\ radix_run 4096 t
         [Insert (net [0x20; 0x01]) (net [0xff; 0xff]) 1;
          Insert (net [0x20; 0x01; 0x0d]) (net [0xff; 0xff; 0xff]) 2;
          Insert (net [0x20; 0x01]) (net [0xff; 0xff]) 3;
          Find (net [0x20; 0x01; 0x0d; 0xb8]);
          Delete (net [0x20; 0x01; 0x0d]) (net [0xff; 0xff; 0xff]);
          Find (net [0x20; 0x01; 0x0d; 0xb8])] = Some rs
    /\ rs = [NGX_OK; NGX_OK; NGX_BUSY; 2; NGX_OK; 1].
Proof.
  destruct (ngx_radix_tree_refines 4096 (-1) (list Z) (nat * Z)
    [Insert (net [0x20; 0x01]) (net [0xff; 0xff]) 1;
     Insert (net [0x20; 0x01; 0x0d]) (net [0xff; 0xff; 0xff]) 2;
     Insert (net [0x20; 0x01]) (net [0xff; 0xff]) 3;
     Find (net [0x20; 0x01; 0x0d; 0xb8]);
     Delete (net [0x20; 0x01; 0x0d]) (net [0xff; 0xff; 0xff]);
     Find (net [0x20; 0x01; 0x0d; 0xb8])]) as (t & rs & Hc & Hr & _).
  - vm_compute. discriminate.
  - lia.
  - cbn. lia.
  - repeat constructor; try (cbn; lia); vm_compute; discriminate.
  - exists t, rs. split; [done|]. split; [done|].
    assert (Some rs = Some [NGX_OK; NGX_OK; NGX_BUSY; 2; NGX_OK; 1]) as [= ->]; [|done].
    rewrite <- Hr. revert Hc. vm_compute (ngx_radix_tree_create 4096 (-1)).
    intros [= <-]. vm_compute. reflexivity.
Defined.

(** The deletion of 0.0.0.0/0 from a tree without other nodes looks at the parent of
    the root; the search in a 128-bit tree for an address that has a node of its own
    reads a bit after its 16 bytes. *)
Example delete_lone_root :
  (t ← ngx_radix_tree_create 4096 0; t ← t; ngx_radix32tree_delete t 0 0) = None.
Proof. vm_compute. reflexivity. Qed.

Example find_reads_on :
  (t ← ngx_radix_tree_create 4096 0; t ← t;
   t ← ngx_radix128tree_insert 4096 t (repeat 7 16) (repeat 0xff 16) 1;
   Some (t.1, ngx_radix128tree_find t.2 (repeat 7 16), ngx_radix128tree_find t.2 (repeat 7 17)))
  = Some (NGX_OK, None, Some 1).
Proof. vm_compute. reflexivity. Qed.
