(* ===== verification/RoundRobin.v ===== *)
(** * RoundRobin: load balancing of ngx_http_upstream_round_robin.c

    The groups of peers of an upstream, the primary servers and then the backup
    ones; the data of a request; the selection of a peer by smooth weighted round
    robin, and its release.  The peers of a group, linked by [next] in the order of
    an array, are a list; a group is its number, and [next] is the following one.
    Each call holds the lock of the group, so the calls are one after another. *)

From S2P Require Import Prelude.

Definition sockaddr := list Z.

(** ** Configuration *)

Record ngx_addr_t := { a_sockaddr : sockaddr; a_name : list Z }.

Record ngx_http_upstream_server_t := {
  s_name : list Z;
  s_addrs : list ngx_addr_t;
  s_weight : Z;
  s_max_conns : Z;
  s_max_fails : Z;
  s_fail_timeout : Z;
  s_down : bool;
  s_backup : bool;
}.

(** ** Peers *)

Record ngx_http_upstream_rr_peer_t := {
  p_sockaddr : sockaddr;
  p_name : list Z;
  p_server : list Z;
  current_weight : Z;
  effective_weight : Z;
  weight : Z;
  conns : Z;
  max_conns : Z;
  fails : Z;
  accessed : Z;
  checked : Z;
  max_fails : Z;
  fail_timeout : Z;
  down : bool;
}.
#[export] Instance eta_peer : Eta ngx_http_upstream_rr_peer_t := mk_eta (fun p =>
  Build_ngx_http_upstream_rr_peer_t (p_sockaddr p) (p_name p) (p_server p) (current_weight p)
    (effective_weight p) (weight p) (conns p) (max_conns p) (fails p) (accessed p) (checked p)
    (max_fails p) (fail_timeout p) (down p)).

Record ngx_http_upstream_rr_peers_t := {
  number : nat;
  total_weight : Z;
  peers_tries : Z;
  single : bool;
  weighted : bool;
  peers_name : list Z;
  peer : list ngx_http_upstream_rr_peer_t;
}.
#[export] Instance eta_peers : Eta ngx_http_upstream_rr_peers_t := mk_eta (fun p =>
  Build_ngx_http_upstream_rr_peers_t (number p) (total_weight p) (peers_tries p) (single p)
    (weighted p) (peers_name p) (peer p)).

(** The groups of an upstream. *)
Abbreviation upstream := (list ngx_http_upstream_rr_peers_t).

(** What [pcalloc] and the assignments make of a server and an address. *)
Definition new_peer (server : ngx_http_upstream_server_t) (a : ngx_addr_t)
    : ngx_http_upstream_rr_peer_t := {|
  p_sockaddr := a_sockaddr a;
  p_name := a_name a;
  p_server := s_name server;
  current_weight := 0;
  effective_weight := s_weight server;
  weight := s_weight server;
  conns := 0;
  max_conns := s_max_conns server;
  fails := 0;
  accessed := 0;
  checked := 0;
  max_fails := s_max_fails server;
  fail_timeout := s_fail_timeout server;
  down := s_down server;
|}.

(** The two loops over the servers of a group: [n], [w] and [t], and the peers. *)
Fixpoint count_servers (servers : list ngx_http_upstream_server_t) (backup : bool) (n : nat) (w t : Z)
    : nat * Z * Z :=
  match servers with
  | [] => (n, w, t)
  | s :: servers' =>
      if negb (Bool.eqb (s_backup s) backup) then count_servers servers' backup n w t
      else
        let naddrs := length (s_addrs s) in
        count_servers servers' backup (n + naddrs)%nat
          (u64 (w + u64 (Z.of_nat naddrs * s_weight s)))
          (if negb (s_down s) then t + Z.of_nat naddrs else t)
  end.

Fixpoint make_peers (servers : list ngx_http_upstream_server_t) (backup : bool)
    : list ngx_http_upstream_rr_peer_t :=
  match servers with
  | [] => []
  | s :: servers' =>
      if negb (Bool.eqb (s_backup s) backup) then make_peers servers' backup
      else map (new_peer s) (s_addrs s) ++ make_peers servers' backup
  end.

Definition make_group (servers : list ngx_http_upstream_server_t) (host : list Z) (backup : bool)
    : ngx_http_upstream_rr_peers_t :=
  let '(n, w, t) := count_servers servers backup 0 0 0 in {|
    number := n;
    total_weight := w;
    peers_tries := t;
    single := (n =? 1)%nat;
    weighted := negb (w =? Z.of_nat n);
    peers_name := host;
    peer := make_peers servers backup;
  |}.

(** [None] is [NGX_ERROR], for an upstream without servers. *)
Definition ngx_http_upstream_init_round_robin (servers : list ngx_http_upstream_server_t)
    (host : list Z) : option upstream :=
  let peers := make_group servers host false in
  if (number peers =? 0)%nat then None
  else
    let backup := make_group servers host true in
    if (number backup =? 0)%nat then Some [peers]
    else Some [peers <| single := false |>; backup <| single := false |>].

(** An upstream that is only a name, for the addresses it resolves to. *)
Definition implicit_server (addrs : list ngx_addr_t) : ngx_http_upstream_server_t := {|
  s_name := [];
  s_addrs := addrs;
  s_weight := 1;
  s_max_conns := 0;
  s_max_fails := 1;
  s_fail_timeout := 10;
  s_down := false;
  s_backup := false;
|}.

Definition implicit_round_robin (addrs : list ngx_addr_t) (host : list Z) : upstream :=
  [{| number := length addrs;
      total_weight := Z.of_nat (length addrs);
      peers_tries := Z.of_nat (length addrs);
      single := (length addrs =? 1)%nat;
      weighted := false;
      peers_name := host;
      peer := map (new_peer (implicit_server addrs)) addrs |}].

(** ** The data of a request *)

(** [rrp]: the group in use, the peer in use and the words of bits of the peers
    already tried.  [pc->name] is the name of a peer or of the upstream. *)
Record ngx_http_upstream_rr_peer_data_t := {
  peers : nat;
  current : option nat;
  tried : list Z;
}.
#[export] Instance eta_rrp : Eta ngx_http_upstream_rr_peer_data_t := mk_eta (fun d =>
  Build_ngx_http_upstream_rr_peer_data_t (peers d) (current d) (tried d)).

Record ngx_peer_connection_t := {
  pc_sockaddr : sockaddr;
  pc_name : list Z;
  pc_tries : Z;
  pc_cached : bool;
  pc_connection : option Z;
}.
#[export] Instance eta_pc : Eta ngx_peer_connection_t := mk_eta (fun c =>
  Build_ngx_peer_connection_t (pc_sockaddr c) (pc_name c) (pc_tries c) (pc_cached c)
    (pc_connection c)).

Definition word_bits : nat := 64.

Definition ngx_http_upstream_tries (us : upstream) : Z :=
  match us with
  | [] => 0
  | [p] => peers_tries p
  | p :: q :: _ => peers_tries p + peers_tries q
  end.

(** [None] is a null pointer: an upstream without groups. *)
Definition ngx_http_upstream_init_round_robin_peer (us : upstream) (pc : ngx_peer_connection_t)
    : option (ngx_http_upstream_rr_peer_data_t * ngx_peer_connection_t) :=
  primary ← us !! 0%nat;
  let n := match us !! 1%nat with
           | Some next => if (number primary <? number next)%nat then number next else number primary
           | None => number primary
           end in
  let words := if (n <=? word_bits)%nat then 1%nat
               else ((n + (word_bits - 1)) / word_bits)%nat in
  Some ({| peers := 0; current := None; tried := replicate words 0 |},
        pc <| pc_tries := ngx_http_upstream_tries us |>).

(** ** Selection *)

(** [tried[n] & m] and [tried[n] |= m] for peer [i]. *)
Definition is_tried (tried : list Z) (i : nat) : option bool :=
  w ← tried !! (i / word_bits)%nat;
  Some (negb (Z.land w (Z.shiftl 1 (Z.of_nat (i mod word_bits))) =? 0)).
Definition set_tried (tried : list Z) (i : nat) : option (list Z) :=
  w ← tried !! (i / word_bits)%nat;
  Some (<[(i / word_bits)%nat := Z.lor w (Z.shiftl 1 (Z.of_nat (i mod word_bits)))]> tried).

(** The tests that pass over a peer. *)
Definition unavailable (now : Z) (p : ngx_http_upstream_rr_peer_t) : bool :=
  down p
  || (negb (max_fails p =? 0) && (fails p >=? max_fails p) && (now - checked p <=? fail_timeout p))
  || (negb (max_conns p =? 0) && (conns p >=? max_conns p)).

(** [peer->current_weight += peer->effective_weight] and the recovery of the
    effective weight. *)
Definition add_weight (p : ngx_http_upstream_rr_peer_t) : ngx_http_upstream_rr_peer_t :=
  let p' := p <| current_weight := i64 (current_weight p + effective_weight p) |> in
  if effective_weight p <? weight p
  then p' <| effective_weight := effective_weight p + 1 |> else p'.

(** The loop from peer [i] on: the peers, [total], and [best] with its index. *)
Fixpoint get_peer_loop (now : Z) (tried : list Z) (i : nat) (l : list ngx_http_upstream_rr_peer_t)
    (total : Z) (best : option (nat * ngx_http_upstream_rr_peer_t))
    : option (list ngx_http_upstream_rr_peer_t * Z * option (nat * ngx_http_upstream_rr_peer_t)) :=
  match l with
  | [] => Some ([], total, best)
  | p :: l' =>
      t ← is_tried tried i;
      if (t : bool) || unavailable now p then
        '(l', total, best) ← get_peer_loop now tried (S i) l' total best;
        Some (p :: l', total, best)
      else
        let total := i64 (total + effective_weight p) in
        let p := add_weight p in
        let best :=
          match best with
          | None => Some (i, p)
          | Some (_, b) => if current_weight p >? current_weight b then Some (i, p) else best
          end in
        '(l', total, best) ← get_peer_loop now tried (S i) l' total best;
        Some (p :: l', total, best)
  end.

(** [best->current_weight -= total; if (...) best->checked = now]. *)
Definition choose (now total : Z) (b : ngx_http_upstream_rr_peer_t) : ngx_http_upstream_rr_peer_t :=
  let b := b <| current_weight := i64 (current_weight b - total) |> in
  if now - checked b >? fail_timeout b then b <| checked := now |> else b.

Definition update_group (us : upstream) (g : nat) (l : list ngx_http_upstream_rr_peer_t) : upstream :=
  alter (fun p => p <| peer := l |>) g us.

(** The peer is [None] for [NULL]. *)
Definition ngx_http_upstream_get_peer (now : Z) (us : upstream) (rrp : ngx_http_upstream_rr_peer_data_t)
    : option (option nat * upstream * ngx_http_upstream_rr_peer_data_t) :=
  group ← us !! peers rrp;
  '(l, total, best) ← get_peer_loop now (tried rrp) 0 (peer group) 0 None;
  match best with
  | None => Some (None, update_group us (peers rrp) l, rrp)
  | Some (p, b) =>
      words ← set_tried (tried rrp) p;
      Some (Some p, update_group us (peers rrp) (<[p := choose now total b]> l),
            rrp <| current := Some p |> <| tried := words |>)
  end.

(** [pc->sockaddr = peer->sockaddr; ... peer->conns++]. *)
Definition take_peer (us : upstream) (g i : nat) (pc : ngx_peer_connection_t)
    : option (upstream * ngx_peer_connection_t) :=
  group ← us !! g;
  p ← peer group !! i;
  Some (update_group us g (<[i := p <| conns := u64 (conns p + 1) |>]> (peer group)),
        pc <| pc_sockaddr := p_sockaddr p |> <| pc_name := p_name p |>).

(** [for (i = 0; i < n; i++) rrp->tried[i] = 0]. *)
Definition clear_tried (tried : list Z) (n : nat) : option (list Z) :=
  if (n <=? length tried)%nat then Some (replicate n 0 ++ drop n tried) else None.

(** [depth] is the number of groups left; the function calls itself for the next. *)
Fixpoint get_rr_peer (depth : nat) (now : Z) (us : upstream) (rrp : ngx_http_upstream_rr_peer_data_t)
    (pc : ngx_peer_connection_t)
    : option (Z * upstream * ngx_http_upstream_rr_peer_data_t * ngx_peer_connection_t) :=
  match depth with
  | O => None
  | S depth' =>
      let pc := pc <| pc_cached := false |> <| pc_connection := None |> in
      group ← us !! peers rrp;
      '(found, us, rrp) ←
        (if single group then
           p ← peer group !! 0%nat;
           if down p || (negb (max_conns p =? 0) && (conns p >=? max_conns p))
           then Some (None, us, rrp)
           else Some (Some 0%nat, us, rrp <| current := Some 0%nat |>)
         else ngx_http_upstream_get_peer now us rrp);
      match found with
      | Some i => '(us, pc) ← take_peer us (peers rrp) i pc; Some (NGX_OK, us, rrp, pc)
      | None =>
          match us !! S (peers rrp) with
          | None => Some (NGX_BUSY, us, rrp, pc <| pc_name := peers_name group |>)
          | Some next =>
              words ← clear_tried (tried rrp) ((number next + (word_bits - 1)) / word_bits);
              '(rc, us, rrp, pc) ←
                get_rr_peer depth' now us (rrp <| peers := S (peers rrp) |> <| tried := words |>) pc;
              if negb (rc =? NGX_BUSY) then Some (rc, us, rrp, pc)
              else Some (NGX_BUSY, us, rrp, pc <| pc_name := peers_name group |>)
          end
      end
  end.

Definition ngx_http_upstream_get_round_robin_peer (now : Z) (us : upstream)
    (rrp : ngx_http_upstream_rr_peer_data_t) (pc : ngx_peer_connection_t) :=
  get_rr_peer (length us) now us rrp pc.

(** ** Release *)

Definition NGX_PEER_FAILED : Z := 4.

(** The part under [state & NGX_PEER_FAILED], and the other one. *)
Definition peer_failed (now : Z) (p : ngx_http_upstream_rr_peer_t) : ngx_http_upstream_rr_peer_t :=
  let p := p <| fails := u64 (fails p + 1) |> <| accessed := now |> <| checked := now |> in
  let p := if negb (max_fails p =? 0)
           then p <| effective_weight := i64 (effective_weight p - u64 (weight p) / max_fails p) |>
           else p in
  if effective_weight p <? 0 then p <| effective_weight := 0 |> else p.
Definition peer_alive (p : ngx_http_upstream_rr_peer_t) : ngx_http_upstream_rr_peer_t :=
  if accessed p <? checked p then p <| fails := 0 |> else p.

Definition ngx_http_upstream_free_round_robin_peer (now : Z) (us : upstream)
    (rrp : ngx_http_upstream_rr_peer_data_t) (pc : ngx_peer_connection_t) (state : Z)
    : option (upstream * ngx_peer_connection_t) :=
  i ← current rrp;
  group ← us !! peers rrp;
  p ← peer group !! i;
  if single group then
    Some (update_group us (peers rrp) (<[i := p <| conns := u64 (conns p - 1) |>]> (peer group)),
          pc <| pc_tries := 0 |>)
  else
    let p := if negb (Z.land state NGX_PEER_FAILED =? 0) then peer_failed now p else peer_alive p in
    Some (update_group us (peers rrp) (<[i := p <| conns := u64 (conns p - 1) |>]> (peer group)),
          if negb (pc_tries pc =? 0) then pc <| pc_tries := pc_tries pc - 1 |> else pc).

(** ** Requests *)

(** A request begins, with a selection; the [k]th of the requests in progress ends,
    with the state of its connection. *)
Inductive rr_event := Request (now : Z) | Response (k : nat) (now state : Z).

Definition rr_flight : Type := ngx_http_upstream_rr_peer_data_t * ngx_peer_connection_t.

Definition new_pc : ngx_peer_connection_t := {|
  pc_sockaddr := []; pc_name := []; pc_tries := 0; pc_cached := false; pc_connection := None;
|}.

(** The state after an event, and what was selected: the group and the peer. *)
Definition rr_step (us : upstream) (flights : list rr_flight) (e : rr_event)
    : option (upstream * list rr_flight * list (nat * option nat)) :=
  match e with
  | Request now =>
      '(rrp, pc) ← ngx_http_upstream_init_round_robin_peer us new_pc;
      '(rc, us, rrp, pc) ← ngx_http_upstream_get_round_robin_peer now us rrp pc;
      if rc =? NGX_OK then Some (us, flights ++ [(rrp, pc)], [(peers rrp, current rrp)])
      else Some (us, flights, [])
  | Response k now state =>
      match flights !! k with
      | Some (rrp, pc) =>
          '(us, _) ← ngx_http_upstream_free_round_robin_peer now us rrp pc state;
          Some (us, delete k flights, [])
      | None => Some (us, flights, [])
      end
  end.

Fixpoint rr_run (us : upstream) (flights : list rr_flight) (es : list rr_event)
    : option (upstream * list rr_flight * list (nat * option nat)) :=
  match es with
  | [] => Some (us, flights, [])
  | e :: es' =>
      '(us, flights, picked) ← rr_step us flights e;
      '(us, flights, picks) ← rr_run us flights es';
      Some (us, flights, picked ++ picks)
  end.

Definition rr_server (name : list Z) (w : Z) (backup : bool) : ngx_http_upstream_server_t := {|
  s_name := name; s_addrs := [{| a_sockaddr := name; a_name := name |}]; s_weight := w;
  s_max_conns := 0; s_max_fails := 1; s_fail_timeout := 10; s_down := false; s_backup := backup;
|}.

(** The order for the weights 5, 1, 1: a, a, b, a, c, a, a. *)
Example rr_smooth :
  (us ← ngx_http_upstream_init_round_robin
          [rr_server (bs "a") 5 false; rr_server (bs "b") 1 false; rr_server (bs "c") 1 false] [];
   r ← rr_run us [] (repeat (Request 100) 7);
   Some (map snd r.2)) = Some (map Some [0; 0; 1; 0; 2; 0; 0]%nat).
Proof. vm_compute. reflexivity. Qed.

(** A peer that fails is left alone for 10 seconds; then the backup server. *)
Example rr_backup :
  (us ← ngx_http_upstream_init_round_robin
          [rr_server (bs "a") 1 false; rr_server (bs "b") 1 true] [];
   r ← rr_run us [] [Request 100; Response 0 100 NGX_PEER_FAILED; Request 105; Request 111];
   Some r.2) = Some [(0, Some 0); (1, Some 0); (0, Some 0)]%nat.
Proof. vm_compute. reflexivity. Qed.

(** ** Fairness *)

Fixpoint sumZ (l : list Z) : Z := match l with [] => 0 | x :: l' => x + sumZ l' end.

Lemma sumZ_app l1 l2 : sumZ (l1 ++ l2) = sumZ l1 + sumZ l2.
Proof. induction l1 as [|x l1 IH]; cbn; [done|]. lia. Qed.

Lemma sumZ_insert l i x y : l !! i = Some x -> sumZ (<[i := y]> l) = sumZ l - x + y.
Proof.
  revert i. induction l as [|z l IH]; intros [|i] H; try done.
  - cbn in *. simplify_eq. lia.
  - change (<[S i := y]> (z :: l)) with (z :: <[i := y]> l). cbn [sumZ]. rewrite (IH i H). lia.
Qed.

Lemma sumZ_le l m : Forall (fun x => x <= m) l -> sumZ l <= Z.of_nat (length l) * m.
Proof. induction 1 as [|x l Hx _ IH]; cbn [sumZ length]; [lia|]. lia. Qed.

Lemma sumZ_nonneg l : Forall (fun x => 0 <= x) l -> 0 <= sumZ l.
Proof. induction 1 as [|x l Hx _ IH]; cbn [sumZ]; [done|]. lia. Qed.

Lemma sumZ_ge l x : Forall (fun x => 0 <= x) l -> x ∈ l -> x <= sumZ l.
Proof.
  induction 1 as [|y l Hy Hl IH]; intros Hx; [by apply not_elem_of_nil in Hx|].
  pose proof (sumZ_nonneg l Hl). cbn [sumZ].
  apply elem_of_cons in Hx as [->|Hx]; [lia|]. specialize (IH Hx). lia.
Qed.

(** A sum of zero, with no term below [b], bounds every term above. *)
Lemma sumZ_zero_bound l b x :
  sumZ l = 0 -> 0 <= b -> Forall (fun y => - b <= y) l -> x ∈ l -> x <= Z.of_nat (length l) * b.
Proof.
  intros Hs Hb Hl Hx. assert (sumZ (map (fun y => y + b) l) = Z.of_nat (length l) * b) as Hsum.
  { assert (sumZ (map (fun y => y + b) l) = sumZ l + Z.of_nat (length l) * b); [|lia].
    clear. induction l as [|y l IH]; [done|]. cbn [map sumZ length]. lia. }
  pose proof (sumZ_ge (map (fun y => y + b) l) (x + b)) as Hge. rewrite Hsum in Hge.
  enough (x + b <= Z.of_nat (length l) * b) by lia. apply Hge.
  - apply List.Forall_map. eapply Forall_impl; [|exact Hl]. cbn. lia.
  - apply list_elem_of_In, (in_map (fun y => y + b)). by apply list_elem_of_In.
Qed.

(** A peer in good health: every selection considers it. *)
Definition steady (p : ngx_http_upstream_rr_peer_t) : Prop :=
  down p = false /\ max_conns p = 0 /\ fails p = 0 /\ 0 <= max_fails p
  /\ effective_weight p = weight p /\ 0 < weight p.

Lemma steady_available now p : steady p -> unavailable now p = false.
Proof.
  intros (Hd & Hc & Hf & Hm & _). unfold unavailable. rewrite Hd, Hc, Hf. cbn.
  rewrite orb_false_r. destruct (Z.eqb_spec (max_fails p) 0); [done|].
  by test_false (0 >=? max_fails p).
Qed.

Definition bump (p : ngx_http_upstream_rr_peer_t) : ngx_http_upstream_rr_peer_t :=
  p <| current_weight := current_weight p + weight p |>.

Lemma add_weight_bump p :
  steady p -> - 2 ^ 63 <= current_weight p + weight p < 2 ^ 63 -> add_weight p = bump p.
Proof.
  intros (_ & _ & _ & _ & He & _) Hw. unfold add_weight, bump. rewrite He.
  test_false (weight p <? weight p). by rewrite i64_small.
Qed.

(** What the loop finds among peers in good health: all of them are considered, and
    [best] is one with the greatest weight. *)
Definition found_best (l : list ngx_http_upstream_rr_peer_t) (i : nat)
    (best best' : option (nat * ngx_http_upstream_rr_peer_t)) : Prop :=
  match best' with
  | None => best = None /\ l = []
  | Some (p, b) =>
      (best = Some (p, b) \/ (i <= p)%nat /\ l !! (p - i)%nat = Some b)
      /\ Forall (fun q => current_weight q <= current_weight b) l
      /\ forall x, best = Some x -> current_weight x.2 <= current_weight b
  end.

Lemma get_peer_loop_steady now tr l : forall i total best,
  (forall j, (i <= j < i + length l)%nat -> is_tried tr j = Some false) ->
  Forall steady l ->
  Forall (fun p => - 2 ^ 63 <= current_weight p + weight p < 2 ^ 63) l ->
  0 <= total -> total + sumZ (map weight l) < 2 ^ 63 ->
  exists best', get_peer_loop now tr i l total best
      = Some (map bump l, total + sumZ (map weight l), best')
    /\ found_best (map bump l) i best best'.
Proof.
  induction l as [|p l IH]; intros i total best Htr Hs Hw Ht Hsum.
  { exists best. split; [cbn; by rewrite Z.add_0_r|]. destruct best as [[q b]|]; cbn; [|done].
    split; [by left|]. split; [constructor|]. by intros ? [= <-]. }
  apply Forall_cons_1 in Hs as [Hp Hs]. apply Forall_cons_1 in Hw as [Hpw Hw].
  cbn [get_peer_loop map length] in *. cbn [sumZ] in Hsum.
  rewrite Htr by lia. cbn [mbind option_bind orb]. rewrite steady_available by done.
  rewrite add_weight_bump by done. pose proof Hp as (_ & _ & _ & _ & He & Hpos). rewrite He.
  assert (0 <= sumZ (map weight l)) as Hnn.
  { apply sumZ_nonneg, List.Forall_map. eapply Forall_impl; [|exact Hs].
    intros x (_ & _ & _ & _ & _ & ?). cbn. lia. }
  rewrite i64_small by lia.
  set (best1 := match best with
    | None => Some (i, bump p)
    | Some (_, b) => if current_weight (bump p) >? current_weight b then Some (i, bump p) else best
    end).
  destruct (IH (S i) (total + weight p) best1) as (best' & -> & Hbest'); try done; try lia.
  { intros j Hj. apply Htr. lia. }
  cbn [mbind option_bind]. exists best'. split; [cbn [sumZ]; do 3 f_equal; lia|].
  assert (exists q b, best1 = Some (q, b) /\ (best = Some (q, b) \/ q = i /\ b = bump p)
    /\ current_weight (bump p) <= current_weight b
    /\ forall x, best = Some x -> current_weight x.2 <= current_weight b) as (q & b & Hb1 & Hor & Hle & Hx).
  { unfold best1. destruct best as [[q b]|].
    - destruct (current_weight (bump p) >? current_weight b) eqn:Hgt.
      + exists i, (bump p). split_and!; try done; [by right|].
        intros ? [= <-]. rewrite Z.gtb_ltb in Hgt. cbn [snd]. lia.
      + exists q, b. split_and!; try done; [by left| |].
        * rewrite Z.gtb_ltb in Hgt. lia.
        * by intros ? [= <-].
    - exists i, (bump p). split_and!; try done; by right. }
  rewrite Hb1 in Hbest'. destruct best' as [[q' b']|]; cbn [found_best] in *; [|by destruct Hbest'].
  destruct Hbest' as (Hfrom & Hall & Hprev). specialize (Hprev _ eq_refl). cbn [snd] in Hprev.
  split_and!.
  - destruct Hfrom as [[= <- <-]|[Hq Hl]].
    + destruct Hor as [->|[-> ->]]; [by left|]. right. split; [lia|]. by rewrite Nat.sub_diag.
    + right. split; [lia|]. by replace (q' - i)%nat with (S (q' - S i))%nat by lia.
  - constructor; [lia|done].
  - intros x Hx'. apply Hx in Hx'. lia.
Qed.

Section Balance.
Variable P : list ngx_http_upstream_rr_peer_t.

Definition W : Z := sumZ (map weight P).

(** After [k] selections, [c i] of them of peer [i]. *)
Record balanced (k : Z) (c : nat -> Z) (l : list ngx_http_upstream_rr_peer_t) : Prop := {
  bal_weights : map weight l = map weight P;
  bal_steady : Forall steady l;
  bal_current i p : l !! i = Some p -> current_weight p = k * weight p - W * c i;
  bal_sum : sumZ (map current_weight l) = 0;
  bal_above : Forall (fun p => - W < current_weight p) l;
}.

Lemma bal_length k c l : balanced k c l -> length l = length P.
Proof.
  intros [Hw _ _ _ _]. apply (f_equal length) in Hw. by rewrite !length_map in Hw.
Qed.

(** A change that is not of the weights. *)
Lemma balanced_insert k c l i p p' :
  balanced k c l -> l !! i = Some p -> steady p' -> weight p' = weight p ->
  current_weight p' = current_weight p -> balanced k c (<[i := p']> l).
Proof.
  intros [Hw Hs Hc Hsum Ha] Hi Hs' Hwp Hcp.
  assert (forall f : ngx_http_upstream_rr_peer_t -> Z, f p' = f p ->
    map f (<[i := p']> l) = map f l) as Hmap.
  { intros f Hf. change (f <$> <[i := p']> l = f <$> l). rewrite list_fmap_insert.
    apply list_insert_id. by rewrite list_lookup_fmap, Hi, Hf. }
  split.
  - by rewrite Hmap.
  - by apply Forall_insert.
  - intros j q. destruct (decide (i = j)) as [<-|Hne].
    + rewrite list_lookup_insert_eq by (by eapply lookup_lt_Some). intros [= <-].
      rewrite Hcp, Hwp. by apply Hc.
    + rewrite list_lookup_insert_ne by done. apply Hc.
  - by rewrite Hmap.
  - apply Forall_insert; [done|]. rewrite Hcp. rewrite list.Forall_lookup in Ha. by apply (Ha i).
Qed.

(** The weights of a balanced state are far from the limits of [ngx_int_t]. *)
Lemma bal_range k c l :
  balanced k c l -> 0 <= W ->
  Forall (fun p => - W < current_weight p /\ weight p <= W
                   /\ current_weight p <= Z.of_nat (length P) * W) l.
Proof.
  intros Hb HW. pose proof (bal_length _ _ _ Hb) as Hlen. destruct Hb as [Hw Hs Hc Hsum Ha].
  rewrite list.Forall_forall in *. intros p Hp. split_and!; [by apply Ha| |].
  - unfold W. rewrite <- Hw. apply sumZ_ge; [|apply list_elem_of_In, in_map; by apply list_elem_of_In].
    apply List.Forall_map, list.Forall_forall. intros q Hq. destruct (Hs q Hq) as (_ & _ & _ & _ & _ & ?).
    lia.
  - rewrite <- Hlen, <- (length_map current_weight l). apply sumZ_zero_bound; [done|done| |].
    + apply List.Forall_map, list.Forall_forall. intros q Hq. specialize (Ha q Hq). lia.
    + apply list_elem_of_In, in_map. by apply list_elem_of_In.
Qed.

Lemma choose_steady now p :
  steady p -> - 2 ^ 63 <= current_weight p - W < 2 ^ 63 ->
  steady (choose now W p) /\ weight (choose now W p) = weight p
  /\ current_weight (choose now W p) = current_weight p - W.
Proof.
  intros Hs Hr. unfold choose. cbn [current_weight field_set checked fail_timeout].
  rewrite i64_small by done. by case_match.
Qed.

Lemma sumZ_bump l :
  sumZ (map current_weight (map bump l)) = sumZ (map current_weight l) + sumZ (map weight l).
Proof. induction l as [|p l IH]; [done|]. cbn [map sumZ]. rewrite IH. cbn. lia. Qed.

Lemma W_pos k c l : balanced k c l -> l <> [] -> 0 < W.
Proof.
  intros Hb Hne. unfold W. rewrite <- (bal_weights _ _ _ Hb). destruct l as [|p l]; [done|].
  pose proof (bal_steady _ _ _ Hb) as Hs. apply Forall_cons_1 in Hs as [Hp Hs].
  cbn [map sumZ]. pose proof (sumZ_nonneg (map weight l)) as Hnn.
  destruct Hp as (_ & _ & _ & _ & _ & Hp). enough (0 <= sumZ (map weight l)) by lia.
  apply Hnn, List.Forall_map. eapply Forall_impl; [|exact Hs]. intros x (_ & _ & _ & _ & _ & ?). lia.
Qed.

Lemma lookup_bump l p b :
  map bump l !! p = Some b ->
  l !! p = Some (b <| current_weight := current_weight b - weight b |>).
Proof.
  intros Hp. change (map bump l) with (bump <$> l) in Hp. rewrite list_lookup_fmap in Hp.
  destruct (l !! p) as [q|]; [|done]. cbn in Hp. injection Hp as <-. destruct q; cbn.
  do 2 f_equal. lia.
Qed.

(** Every peer gains its weight, and the chosen one pays for all. *)
Lemma balanced_choose now k c l p b :
  balanced k c l -> map bump l !! p = Some b -> 0 < current_weight b ->
  (Z.of_nat (length P) + 1) * W < 2 ^ 63 -> 0 < W ->
  balanced (k + 1) (fun i => c i + if (i =? p)%nat then 1 else 0)
    (<[p := choose now W b]> (map bump l)).
Proof.
  intros Hb Hp Hbpos HW HWpos. pose proof (bal_range _ _ _ Hb ltac:(lia)) as Hrange.
  destruct Hb as [Hw Hs Hc Hsum Ha]. pose proof (lookup_bump _ _ _ Hp) as Hlp.
  assert (Forall steady (map bump l)) as Hs1.
  { apply List.Forall_map. eapply Forall_impl; [|exact Hs]. done. }
  assert (steady b) as Hsb by by (rewrite list.Forall_lookup in Hs1; apply (Hs1 p)).
  assert (current_weight b <= (Z.of_nat (length P) + 1) * W) as Hbmax.
  { rewrite list.Forall_forall in Hrange. destruct (Hrange _ (list_elem_of_lookup_2 _ _ _ Hlp))
      as (_ & H2 & H3). cbn in H2, H3. lia. }
  destruct (choose_steady now b Hsb ltac:(lia)) as (Hcs & Hcw & Hcc).
  assert (map weight (map bump l) = map weight l) as Hw1 by (rewrite map_map; done).
  split.
  - rewrite <- Hw, <- Hw1. change (weight <$> <[p := choose now W b]> (bump <$> l) = weight <$> (bump <$> l)).
    rewrite list_fmap_insert, Hcw. apply list_insert_id. by rewrite list_lookup_fmap; setoid_rewrite Hp.
  - by apply Forall_insert.
  - intros i q Hq. destruct (Nat.eqb_spec i p) as [->|Hip].
    + rewrite list_lookup_insert_eq in Hq by (by eapply lookup_lt_Some). injection Hq as <-.
      specialize (Hc p _ Hlp). cbn in Hc. rewrite Hcc, Hcw. lia.
    + rewrite list_lookup_insert_ne in Hq by done. change (map bump l) with (bump <$> l) in Hq.
      rewrite list_lookup_fmap in Hq. destruct (l !! i) as [r|] eqn:Hr; [|done]. cbn in Hq.
      injection Hq as <-. specialize (Hc i r Hr). cbn. lia.
  - change (sumZ (current_weight <$> <[p := choose now W b]> (map bump l)) = 0).
    rewrite list_fmap_insert, (sumZ_insert _ _ (current_weight b)), Hcc.
    + change (current_weight <$> map bump l) with (map current_weight (map bump l)).
      rewrite sumZ_bump, Hsum, Hw. fold W. lia.
    + by rewrite list_lookup_fmap, Hp.
  - apply Forall_insert; [|lia]. apply List.Forall_map. rewrite list.Forall_forall in Ha, Hs |- *.
    intros q Hq. specialize (Ha q Hq). destruct (Hs q Hq) as (_ & _ & _ & _ & _ & ?). cbn. lia.
Qed.

(** One selection: the peer with the greatest weight. *)
Lemma select_ok now tr k c l :
  balanced k c l -> l <> [] -> (Z.of_nat (length P) + 1) * W < 2 ^ 63 ->
  (forall j, (j < length l)%nat -> is_tried tr j = Some false) ->
  exists p b, get_peer_loop now tr 0 l 0 None = Some (map bump l, W, Some (p, b))
    /\ map bump l !! p = Some b
    /\ balanced (k + 1) (fun i => c i + if (i =? p)%nat then 1 else 0)
         (<[p := choose now W b]> (map bump l)).
Proof.
  intros Hb Hne HW Htr. pose proof (W_pos _ _ _ Hb Hne) as HWpos.
  pose proof (bal_range _ _ _ Hb ltac:(lia)) as Hrange. pose proof Hb as [Hw Hs _ Hsum _].
  destruct (get_peer_loop_steady now tr l 0 0 None) as (best & Hloop & Hbest); try done.
  { intros j Hj. apply Htr. lia. }
  { rewrite list.Forall_forall in Hrange, Hs |- *. intros p Hp.
    destruct (Hrange p Hp) as (H1 & H2 & H3), (Hs p Hp) as (_ & _ & _ & _ & _ & H4). nia. }
  { rewrite Hw. fold W. nia. }
  rewrite Hw in Hloop. fold W in Hloop. rewrite Z.add_0_l in Hloop.
  destruct best as [[p b]|]; cbn [found_best] in Hbest.
  2: { destruct Hbest as [_ Hnil]. by destruct l. }
  destruct Hbest as ([|[_ Hp]] & Hmax & _); [done|]. rewrite Nat.sub_0_r in Hp.
  exists p, b. split; [done|]. split; [done|]. apply (balanced_choose now k c l p b); try done.
  destruct (decide (0 < current_weight b)); [done|]. exfalso.
  assert (sumZ (map current_weight (map bump l)) <= 0) as Hle.
  { etrans; [apply (sumZ_le _ 0)|lia]. apply List.Forall_map. eapply Forall_impl; [|exact Hmax].
    cbn. lia. }
  rewrite sumZ_bump, Hsum, Hw in Hle. fold W in Hle. lia.
Qed.
End Balance.

Lemma is_tried_fresh words j :
  (j / word_bits < words)%nat -> is_tried (replicate words 0) j = Some false.
Proof.
  intros Hj. unfold is_tried.
  assert (replicate words 0 !! (j / word_bits)%nat = Some 0) as ->.
  { by apply lookup_replicate_2. }
  cbn [mbind option_bind]. by rewrite Z.land_0_l.
Qed.

Lemma set_tried_fresh words j :
  (j / word_bits < words)%nat -> exists tr, set_tried (replicate words 0) j = Some tr.
Proof.
  intros Hj. unfold set_tried. assert (replicate words 0 !! (j / word_bits)%nat = Some 0) as ->.
  { by apply lookup_replicate_2. }
  cbn [mbind option_bind]. eauto.
Qed.

Lemma word_of j n w : (j < n -> (n + (word_bits - 1)) / word_bits <= w -> j / word_bits < w)%nat.
Proof.
  unfold word_bits. change (64 - 1)%nat with 63%nat. intros Hj Hw.
  pose proof (Nat.div_mod_eq j 64). pose proof (Nat.mod_upper_bound j 64).
  pose proof (Nat.div_mod_eq (n + 63) 64). pose proof (Nat.mod_upper_bound (n + 63) 64). lia.
Qed.

Lemma div_words j n : (j < n)%nat ->
  (j / word_bits < if (n <=? word_bits)%nat then 1 else (n + (word_bits - 1)) / word_bits)%nat.
Proof.
  intros Hj. destruct (Nat.leb_spec n word_bits); [rewrite Nat.div_small; lia|].
  by apply (word_of j n).
Qed.

(** The selections of peer [i] of the primary group. *)
Definition picks_of (picks : list (nat * option nat)) (i : nat) : Z :=
  Z.of_nat (length (filter (fun x => x = (0%nat, Some i)) picks)).

(** The primary group is balanced, and the requests in progress use it. *)
Record rr_inv (P : list ngx_http_upstream_rr_peer_t) (k : Z) (c : nat -> Z) (us : upstream)
    (flights : list rr_flight) : Prop := {
  inv_group : exists g rest, us = g :: rest /\ balanced P k c (peer g)
    /\ number g = length P /\ (single g = true -> length P = 1%nat);
  inv_flights : Forall (fun f : rr_flight => peers f.1 = 0%nat
    /\ exists i, current f.1 = Some i /\ (i < length P)%nat) flights;
}.

Lemma balanced_ext P k c c' l : (forall i, c i = c' i) -> balanced P k c l -> balanced P k c' l.
Proof.
  intros He [Hw Hs Hc Hsum Ha]. split; try done. intros i p Hp. rewrite <- He. by apply Hc.
Qed.

Lemma take_peer_ok P k c g rest i pc :
  balanced P k c (peer g) -> (i < length P)%nat ->
  exists g' pc', take_peer (g :: rest) 0 i pc = Some (g' :: rest, pc')
    /\ balanced P k c (peer g') /\ number g' = number g /\ single g' = single g.
Proof.
  intros Hb Hi. rewrite <- (bal_length _ _ _ _ Hb) in Hi.
  destruct (lookup_lt_is_Some_2 (peer g) i Hi) as [p Hp].
  unfold take_peer. cbn [lookup list_lookup mbind option_bind]. rewrite Hp.
  cbn [mbind option_bind]. eexists (_ <| peer := _ |>), _. split; [reflexivity|]. split; [|done]. cbn.
  apply (balanced_insert P k c (peer g) i p); [done|done| |done|done].
  pose proof (bal_steady _ _ _ _ Hb) as Hs. rewrite list.Forall_lookup in Hs. exact (Hs i p Hp).
Qed.

(** A selection from a balanced group, with nothing tried yet. *)
Lemma get_rr_peer_ok P k c now g rest words pc :
  balanced P k c (peer g) -> P <> [] -> (Z.of_nat (length P) + 1) * W P < 2 ^ 63 ->
  (single g = true -> length P = 1%nat) ->
  (forall j, (j < length P)%nat -> (j / word_bits < words)%nat) ->
  exists i g' rrp pc',
    ngx_http_upstream_get_round_robin_peer now (g :: rest)
      {| peers := 0; current := None; tried := replicate words 0 |} pc
    = Some (NGX_OK, g' :: rest, rrp, pc')
    /\ balanced P (k + 1) (fun j => c j + if (j =? i)%nat then 1 else 0) (peer g')
    /\ number g' = number g /\ single g' = single g
    /\ peers rrp = 0%nat /\ current rrp = Some i /\ (i < length P)%nat.
Proof.
  intros Hb Hne HW Hsingle Hwords. pose proof (bal_length _ _ _ _ Hb) as Hlen.
  unfold ngx_http_upstream_get_round_robin_peer. cbn [length get_rr_peer peers lookup list_lookup].
  generalize (pc <| pc_cached := false |> <| pc_connection := None |>). clear pc. intros pc.
  cbn [mbind option_bind]. destruct (single g) eqn:Hsg.
  - specialize (Hsingle eq_refl). destruct (peer g) as [|p [|]] eqn:Hl; try (cbn in Hlen; lia).
    cbn [lookup list_lookup mbind option_bind].
    pose proof (bal_steady _ _ _ _ Hb) as Hs. apply Forall_cons_1 in Hs as [Hs _].
    pose proof Hs as (-> & -> & _). cbn [orb negb andb Z.eqb mbind option_bind peers field_set].
    rewrite <- Hl in Hb.
    destruct (take_peer_ok P k c g rest 0 pc Hb ltac:(lia)) as (g' & pc' & -> & Hb' & Hn' & Hs').
    cbn [mbind option_bind]. exists 0%nat, g'. do 2 eexists. split; [done|]. split_and!; try done; [|by rewrite Hs'|lia].
    pose proof (bal_length _ _ _ _ Hb') as Hlen'.
    destruct Hb' as [Hw2 Hs2 Hc2 Hsum2 Ha2]. split; try done.
    intros i q Hq. assert (i = 0%nat) as -> by (apply lookup_lt_Some in Hq; lia).
    rewrite (Hc2 0%nat q Hq), Nat.eqb_refl. enough (W P = weight q) by lia.
    unfold W. rewrite <- Hw2. destruct (peer g') as [|q' [|]]; try (cbn in Hlen'; lia).
    cbn in Hq. injection Hq as ->. cbn. lia.
  - unfold ngx_http_upstream_get_peer. cbn [peers lookup list_lookup mbind option_bind tried].
    destruct (select_ok P now (replicate words 0) k c (peer g) Hb) as (p & b & -> & Hp & Hb'); [|done| |].
    { intros Hnil. rewrite Hnil in Hlen. by destruct P. }
    { intros j Hj. apply is_tried_fresh, Hwords. lia. }
    cbn [mbind option_bind].
    assert (p < length P)%nat as Hplen.
    { apply lookup_lt_Some in Hp. rewrite length_map in Hp. lia. }
    destruct (set_tried_fresh words p (Hwords p Hplen)) as [tr ->]. cbn [mbind option_bind].
    pose (g1 := g <| peer := <[p := choose now (W P) b]> (map bump (peer g)) |>).
    destruct (take_peer_ok P (k + 1) _ g1 rest p pc Hb' Hplen) as (g' & pc' & Htake & Hb2 & Hn' & Hs').
    cbn [peers field_set]. unfold update_group. cbn [alter list_alter].
    fold g1. rewrite Htake. cbn [mbind option_bind].
    exists p, g'. do 2 eexists. split; [done|]. split_and!; try done. by rewrite Hs'.
Qed.

Definition no_failure (e : rr_event) : Prop :=
  match e with Request _ => True | Response _ _ state => Z.land state NGX_PEER_FAILED = 0 end.
Definition requests (es : list rr_event) : Z :=
  sumZ (map (fun e => match e with Request _ => 1 | _ => 0 end) es).

Lemma request_ok P k c us flights now :
  rr_inv P k c us flights -> P <> [] -> (Z.of_nat (length P) + 1) * W P < 2 ^ 63 ->
  exists us' flights' i, rr_step us flights (Request now) = Some (us', flights', [(0%nat, Some i)])
    /\ rr_inv P (k + 1) (fun j => c j + if (j =? i)%nat then 1 else 0) us' flights'.
Proof.
  intros [(g & rest & -> & Hb & Hn & Hs) Hf] Hne HW. cbn [rr_step].
  unfold ngx_http_upstream_init_round_robin_peer. cbn [lookup list_lookup mbind option_bind].
  set (n := match rest !! 0%nat with
            | Some next => if (number g <? number next)%nat then number next else number g
            | None => number g end).
  match goal with |- context [replicate ?w 0] => set (words := w) end.
  destruct (get_rr_peer_ok P k c now g rest words
    (new_pc <| pc_tries := ngx_http_upstream_tries (g :: rest) |>) Hb Hne HW Hs)
    as (i & g' & rrp & pc' & Hget & Hb' & Hn' & Hs' & Hp & Hc & Hi).
  { intros j Hj. apply (div_words j n). rewrite <- Hn in Hj.
    enough (number g <= n)%nat by lia. unfold n. destruct rest as [|next rest]; [cbn; lia|]. cbn [lookup list_lookup].
    case_match eqn:Hlt; [apply Nat.ltb_lt in Hlt|]; lia. }
  rewrite Hget. cbn [mbind option_bind]. change (NGX_OK =? NGX_OK) with true. cbn iota.
  rewrite Hp, Hc. exists (g' :: rest), (flights ++ [(rrp, pc')]), i. split; [done|]. split.
  - exists g', rest. rewrite Hs', Hn'. done.
  - apply Forall_app_2; [done|]. constructor; [|constructor]. cbn. eauto.
Qed.

Lemma response_ok P k c us flights j now state :
  rr_inv P k c us flights -> Z.land state NGX_PEER_FAILED = 0 ->
  exists us' flights', rr_step us flights (Response j now state) = Some (us', flights', [])
    /\ rr_inv P k c us' flights'.
Proof.
  intros [(g & rest & -> & Hb & Hn & Hs) Hf] Hst. cbn [rr_step].
  destruct (flights !! j) as [[rrp pc]|] eqn:Hj; [|exists (g :: rest), flights; split; [done|];
    split; [by exists g, rest|done]].
  pose proof Hf as Hf'. rewrite list.Forall_lookup in Hf'.
  destruct (Hf' _ _ Hj) as (Hp & i & Hc & Hi). cbn [fst] in Hp, Hc. clear Hf'.
  rewrite <- (bal_length _ _ _ _ Hb) in Hi.
  destruct (lookup_lt_is_Some_2 (peer g) i Hi) as [p Hpi].
  unfold ngx_http_upstream_free_round_robin_peer. rewrite Hp, Hc.
  cbn [lookup list_lookup mbind option_bind]. rewrite Hpi. cbn [mbind option_bind]. rewrite Hst.
  assert (Forall (fun f : rr_flight => peers f.1 = 0%nat
    /\ exists i, current f.1 = Some i /\ (i < length P)%nat) (delete j flights)) as Hf2
    by by apply Forall_delete.
  pose proof (bal_steady _ _ _ _ Hb) as Hsteady. rewrite list.Forall_lookup in Hsteady.
  specialize (Hsteady i p Hpi).
  assert (forall p', steady p' -> weight p' = weight p -> current_weight p' = current_weight p ->
    rr_inv P k c (update_group (g :: rest) 0 (<[i := p']> (peer g))) (delete j flights)) as Hinv.
  { intros p' H1 H2 H3. split; [|done]. do 2 eexists. split; [reflexivity|]. cbn. split; [|done].
    by apply (balanced_insert P k c (peer g) i p). }
  destruct (single g); cbn [Z.eqb negb mbind option_bind]; do 2 eexists; (split; [reflexivity|]);
    apply Hinv; try exact Hsteady; try done;
    unfold peer_alive; case_match; try done; destruct Hsteady as (? & ? & ? & ? & ? & ?);
    by repeat split.
Qed.

Lemma picks_of_cons i j picks :
  picks_of ((0%nat, Some i) :: picks) j = (if (j =? i)%nat then 1 else 0) + picks_of picks j.
Proof.
  unfold picks_of. rewrite filter_cons. destruct (Nat.eqb_spec j i) as [->|Hne].
  - rewrite decide_True by done. cbn [length]. lia.
  - rewrite decide_False; [lia|]. by intros [= ->].
Qed.

Lemma rr_run_ok P : P <> [] -> (Z.of_nat (length P) + 1) * W P < 2 ^ 63 -> forall es k c us flights,
  rr_inv P k c us flights -> Forall no_failure es ->
  exists us' flights' picks, rr_run us flights es = Some (us', flights', picks)
    /\ Z.of_nat (length picks) = requests es
    /\ rr_inv P (k + requests es) (fun i => c i + picks_of picks i) us' flights'.
Proof.
  intros Hne HW. induction es as [|e es IH]; intros k c us flights Hinv Hes.
  - exists us, flights, []. split; [done|]. split; [done|]. unfold requests. cbn [map sumZ].
    rewrite Z.add_0_r. destruct Hinv as [(g & rest & -> & Hb & Hr) Hf]. split; [|done].
    exists g, rest. split; [done|]. split; [|done]. eapply balanced_ext; [|exact Hb].
    intros i. cbn. unfold picks_of. cbn. lia.
  - apply Forall_cons_1 in Hes as [He Hes]. cbn [rr_run]. destruct e as [now|j now state].
    + destruct (request_ok P k c us flights now Hinv Hne HW) as (us1 & fl1 & i & -> & Hinv1).
      cbn [mbind option_bind].
      destruct (IH _ _ _ _ Hinv1 Hes) as (us' & fl' & picks & -> & Hlen & Hinv').
      cbn [mbind option_bind]. exists us', fl', ((0%nat, Some i) :: picks). split; [done|].
      unfold requests in *. cbn [map sumZ length]. split; [lia|].
      destruct Hinv' as [(g & rest & -> & Hb & Hr) Hf]. split; [|done].
      exists g, rest. split; [done|]. split; [|done].
      rewrite Z.add_assoc. eapply balanced_ext; [|exact Hb].
      intros x. cbn beta. rewrite picks_of_cons. lia.
    + destruct (response_ok P k c us flights j now state Hinv He) as (us1 & fl1 & -> & Hinv1).
      cbn [mbind option_bind].
      destruct (IH _ _ _ _ Hinv1 Hes) as (us' & fl' & picks & -> & Hlen & Hinv').
      cbn [mbind option_bind]. by exists us', fl', picks.
Qed.

(** ** From the configuration *)

(** A server of the primary group that takes any number of connections. *)
Definition good_server (s : ngx_http_upstream_server_t) : Prop :=
  s_backup s = false ->
  s_down s = false /\ s_max_conns s = 0 /\ 0 <= s_max_fails s /\ 0 < s_weight s.

Lemma count_servers_number servers backup n w t :
  (count_servers servers backup n w t).1.1 = (n + length (make_peers servers backup))%nat.
Proof.
  revert n w t. induction servers as [|s servers IH]; intros n w t; cbn [count_servers make_peers].
  { cbn. lia. }
  destruct (negb _); [apply IH|]. rewrite IH, length_app, length_map. lia.
Qed.

Lemma make_peers_steady servers :
  Forall good_server servers ->
  Forall (fun p => steady p /\ current_weight p = 0) (make_peers servers false).
Proof.
  induction 1 as [|s servers Hs _ IH]; cbn [make_peers]; [constructor|].
  destruct (s_backup s) eqn:Hb; cbn [Bool.eqb negb]; [done|]. apply Forall_app_2; [|done].
  apply List.Forall_map, list.Forall_forall. intros a _. destruct (Hs Hb) as (Hd & Hc & Hm & Hw).
  done.
Qed.

Lemma balanced_init P :
  Forall (fun p => steady p /\ current_weight p = 0) P -> P <> [] -> balanced P 0 (fun _ => 0) P.
Proof.
  intros HP Hne. assert (Forall steady P) as Hs.
  { eapply Forall_impl; [|exact HP]. by intros p [? _]. }
  assert (forall p, p ∈ P -> current_weight p = 0) as H0.
  { rewrite list.Forall_forall in HP. intros p Hp. by apply HP. }
  assert (0 < W P) as HW.
  { unfold W. destruct P as [|p l]; [done|]. apply Forall_cons_1 in Hs as [Hp Hs]. cbn [map sumZ].
    destruct Hp as (_ & _ & _ & _ & _ & Hp). enough (0 <= sumZ (map weight l)) by lia.
    apply sumZ_nonneg, List.Forall_map. eapply Forall_impl; [|exact Hs].
    intros x (_ & _ & _ & _ & _ & ?). lia. }
  split; try done.
  - intros i p Hp. rewrite H0 by (by eapply list_elem_of_lookup_2). lia.
  - clear -H0. induction P as [|p P IH]; [done|]. cbn [map sumZ].
    rewrite (H0 p) by (by left). rewrite IH; [done|]. intros q Hq. apply H0. by right.
  - apply list.Forall_forall. intros p Hp. rewrite H0 by done. lia.
Qed.

Lemma init_inv servers host us :
  ngx_http_upstream_init_round_robin servers host = Some us -> Forall good_server servers ->
  make_peers servers false <> []
  /\ rr_inv (make_peers servers false) 0 (fun _ => 0) us [].
Proof.
  unfold ngx_http_upstream_init_round_robin. intros Hi Hgood.
  pose proof (count_servers_number servers false 0 0 0) as Hn.
  assert (number (make_group servers host false) = length (make_peers servers false)
    /\ peer (make_group servers host false) = make_peers servers false
    /\ single (make_group servers host false) = (number (make_group servers host false) =? 1)%nat)
    as (Hnum & Hpeer & Hsingle).
  { unfold make_group. destruct (count_servers servers false 0 0 0) as [[n w] t]. cbn in Hn |- *. done. }
  destruct (Nat.eqb_spec (number (make_group servers host false)) 0) as [|H0]; [done|].
  assert (make_peers servers false <> []) as Hne.
  { intros He. rewrite He in Hnum. done. }
  split; [done|]. pose proof (balanced_init _ (make_peers_steady servers Hgood) Hne) as Hb.
  split; [|constructor].
  destruct (number (make_group servers host true) =? 0)%nat; injection Hi as <-; do 2 eexists;
    (split; [reflexivity|]); cbn; rewrite Hpeer; (split; [done|]); (split; [done|]); [|done].
  rewrite Hsingle, Hnum. apply Nat.eqb_eq.
Qed.

(** What balance says of the shares. *)
Lemma balanced_share P k c l :
  balanced P (0 + k) (fun i => 0 + c i) l -> forall i p, P !! i = Some p ->
  W P * c i < k * weight p + W P /\ forall q, k = q * W P -> c i = q * weight p.
Proof.
  intros Hb i p0 Hi. pose proof (bal_length _ _ _ _ Hb) as Hlen.
  assert (l <> []) as Hne. { intros ->. by destruct P. }
  pose proof (W_pos _ _ _ _ Hb Hne) as HW. destruct Hb as [Hw _ Hc Hsum Ha].
  destruct (lookup_lt_is_Some_2 l i) as [p Hp]; [rewrite Hlen; by eapply lookup_lt_Some|].
  assert (weight p0 = weight p) as ->.
  { assert ((weight <$> l) !! i = (weight <$> P) !! i) as He by (f_equal; exact Hw).
    rewrite !list_lookup_fmap, Hp, Hi in He. by injection He. }
  assert (forall j q, l !! j = Some q -> - W P < (k * weight q - W P * c j)) as Hge.
  { intros j q Hq. rewrite list.Forall_lookup in Ha. specialize (Ha j q Hq).
    rewrite (Hc j q Hq) in Ha. lia. }
  split; [specialize (Hge i p Hp); lia|]. intros q ->.
  assert (forall j r, l !! j = Some r -> 0 <= current_weight r) as Hnn.
  { intros j r Hr. specialize (Hge j r Hr). rewrite (Hc j r Hr).
    assert (-1 < q * weight r - c j) by (apply (Z.mul_lt_mono_pos_l (W P)); lia). nia. }
  assert (current_weight p <= 0) as Hle.
  { rewrite <- Hsum. apply sumZ_ge.
    - apply List.Forall_map, list.Forall_lookup. apply Hnn.
    - apply list_elem_of_In, in_map, list_elem_of_In. by eapply list_elem_of_lookup_2. }
  specialize (Hnn i p Hp). rewrite (Hc i p Hp) in *.
  assert (W P * (q * weight p - c i) = W P * 0) as Heq by lia.
  apply Z.mul_reg_l in Heq; lia.
Qed.

(** C13: Fairness of the round robin.  Whatever the order in which requests begin and
    successful ones end, every request gets a peer of the primary group; no peer is
    ever a whole request ahead of its share by weight; and when the number of requests
    is a multiple of the total weight, every peer has had exactly its share.  The
    weights stay within [ngx_int_t]. *)
Theorem ngx_http_upstream_round_robin_fair servers host us events :
  ngx_http_upstream_init_round_robin servers host = Some us ->
  Forall good_server servers ->
  (Z.of_nat (length (make_peers servers false)) + 1) * W (make_peers servers false) < 2 ^ 63 ->
  Forall no_failure events ->
  exists us' flights picks, rr_run us [] events = Some (us', flights, picks)
    /\ Z.of_nat (length picks) = requests events
    /\ forall i p, make_peers servers false !! i = Some p ->
         W (make_peers servers false) * picks_of picks i
           < requests events * weight p + W (make_peers servers false)
         /\ forall q, requests events = q * W (make_peers servers false) ->
              picks_of picks i = q * weight p.
Proof.
  intros Hi Hgood HW Hev. destruct (init_inv servers host us Hi Hgood) as [Hne Hinv].
  set (P := make_peers servers false) in *.
  destruct (rr_run_ok P Hne HW events 0 _ us [] Hinv Hev) as (us' & flights & picks & Hrun & Hlen & Hinv').
  exists us', flights, picks. split; [done|]. split; [done|].
  destruct Hinv' as [(g & rest & _ & Hb & _) _]. apply (balanced_share P _ _ _ Hb).
Qed.

Lemma ngx_http_upstream_round_robin_fair_witness :
  exists us picks,
    ngx_http_upstream_init_round_robin
      [rr_server (bs "a") 5 false; rr_server (bs "z") 1 true; rr_server (bs "b") 2 false] [] = Some us
    /\ length picks = 7%nat /\ picks_of picks 0 = 5 /\ picks_of picks 1 = 2.
Proof.
  destruct (ngx_http_upstream_round_robin_fair
    [rr_server (bs "a") 5 false; rr_server (bs "z") 1 true; rr_server (bs "b") 2 false] []
    [(make_group [rr_server (bs "a") 5 false; rr_server (bs "z") 1 true; rr_server (bs "b") 2 false] []
       false) <| single := false |>;
     (make_group [rr_server (bs "a") 5 false; rr_server (bs "z") 1 true; rr_server (bs "b") 2 false] []
       true) <| single := false |>]
    (flat_map (fun now => [Request now; Response 0 now 0]) [1; 2; 3; 4; 5; 6; 20]))
    as (us' & flights & picks & _ & Hlen & Hfair).
  - vm_compute. reflexivity.
  - repeat constructor; vm_compute; intuition discriminate.
  - vm_compute. reflexivity.
  - repeat constructor; vm_compute; reflexivity.
  - eexists; exists picks. split; [vm_compute; reflexivity|].
    split; [apply Nat2Z.inj; rewrite Hlen; vm_compute; reflexivity|].
    split.
    + destruct (Hfair 0%nat (new_peer (rr_server (bs "a") 5 false)
        {| a_sockaddr := bs "a"; a_name := bs "a" |}) eq_refl) as [_ Hq]. by apply (Hq 1).
    + destruct (Hfair 1%nat (new_peer (rr_server (bs "b") 2 false)
        {| a_sockaddr := bs "b"; a_name := bs "b" |}) eq_refl) as [_ Hq]. by apply (Hq 1).
Defined.

(** ** Failover *)

Lemma set_tried_ok tr i :
  (i / word_bits < length tr)%nat ->
  exists tr', set_tried tr i = Some tr' /\ length tr' = length tr
    /\ forall j, is_tried tr' j = if (j =? i)%nat then Some true else is_tried tr j.
Proof.
  intros Hi. unfold set_tried. destruct (lookup_lt_is_Some_2 _ _ Hi) as [w Hw]. rewrite Hw.
  cbn [mbind option_bind]. eexists. split; [done|]. split; [apply length_insert|]. intros j.
  unfold is_tried. destruct (decide (j / word_bits = i / word_bits)%nat) as [He|He].
  - rewrite He, list_lookup_insert_eq, Hw by done. cbn [mbind option_bind].
    rewrite !Z.shiftl_1_l, !land_pow2, Z.lor_spec by lia.
    destruct (Nat.eqb_spec j i) as [->|Hne].
    + rewrite Z.pow2_bits_true by lia. by rewrite orb_true_r.
    + rewrite Z.pow2_bits_false; [by rewrite orb_false_r|].
      intros Hm%Nat2Z.inj. apply Hne. unfold word_bits in *.
      rewrite (Nat.div_mod_eq j 64), (Nat.div_mod_eq i 64). by rewrite He, Hm.
  - rewrite list_lookup_insert_ne by done. destruct (Nat.eqb_spec j i) as [->|]; [done|done].
Qed.

Lemma is_tried_some tr j :
  (j / word_bits < length tr)%nat -> exists b, is_tried tr j = Some b.
Proof.
  intros Hj. unfold is_tried. destruct (lookup_lt_is_Some_2 _ _ Hj) as [w ->].
  cbn [mbind option_bind]. eauto.
Qed.

(** What a selection leaves alone: everything but the weights. *)
Definition same_peer (p q : ngx_http_upstream_rr_peer_t) : Prop :=
  down q = down p /\ fails q = fails p /\ max_fails q = max_fails p
  /\ checked q = checked p /\ fail_timeout q = fail_timeout p
  /\ conns q = conns p /\ max_conns q = max_conns p
  /\ p_sockaddr q = p_sockaddr p /\ p_name q = p_name p.

Lemma same_peer_unavailable now p q : same_peer p q -> unavailable now q = unavailable now p.
Proof.
  intros (H1 & H2 & H3 & H4 & H5 & H6 & H7 & _). unfold unavailable.
  by rewrite H1, H2, H3, H4, H5, H6, H7.
Qed.

Lemma add_weight_same p : same_peer p (add_weight p).
Proof. unfold add_weight. by case_match. Qed.

(** The loop over any peers: [best] is none only if all were tried before or are not
    available. *)
Lemma get_peer_loop_any now tr l : forall i total best,
  (forall j, (i <= j < i + length l)%nat -> exists b, is_tried tr j = Some b) ->
  exists l' total' best', get_peer_loop now tr i l total best = Some (l', total', best')
    /\ Forall2 same_peer l l'
    /\ match best' with
       | None => best = None /\ forall j p, l !! j = Some p ->
           is_tried tr (i + j) = Some true \/ unavailable now p = true
       | Some (q, b) => best = Some (q, b)
           \/ exists p, (i <= q)%nat /\ l !! (q - i)%nat = Some p /\ l' !! (q - i)%nat = Some b
              /\ is_tried tr q = Some false /\ unavailable now p = false
       end.
Proof.
  induction l as [|p l IH]; intros i total best Htr.
  { exists [], total, best. split; [done|]. split; [constructor|].
    destruct best as [[q b]|]; [by left|done]. }
  cbn [get_peer_loop length] in *. destruct (Htr i) as [t Ht]; [lia|]. rewrite Ht.
  cbn [mbind option_bind].
  assert (forall j, (S i <= j < S i + length l)%nat -> exists b, is_tried tr j = Some b) as Htr'.
  { intros j Hj. apply Htr. lia. }
  assert (forall (q : nat) (p' : ngx_http_upstream_rr_peer_t) (l1 : list ngx_http_upstream_rr_peer_t) x,
    (S i <= q)%nat -> l1 !! (q - S i)%nat = Some x -> (p' :: l1) !! (q - i)%nat = Some x) as Hshift.
  { intros q p' l1 x Hq Hx. by replace (q - i)%nat with (S (q - S i)) by lia. }
  destruct (t || unavailable now p) eqn:Hskip.
  - destruct (IH (S i) total best Htr') as (l' & total' & best' & -> & Hl & Hb).
    cbn [mbind option_bind]. exists (p :: l'), total', best'. split; [done|].
    split; [by constructor|]. destruct best' as [[q b]|].
    + destruct Hb as [Hb|(p' & Hq & H1 & H2 & H3)]; [by left|right]. exists p'. split; [lia|]. eauto.
    + destruct Hb as [Hb Hall]. split; [done|]. intros [|j] p' Hj.
      * injection Hj as <-. rewrite Nat.add_0_r, Ht. destruct t; [by left|by right].
      * rewrite Nat.add_succ_r. by apply Hall.
  - apply orb_false_iff in Hskip as [-> Hu].
    match goal with |- context [get_peer_loop _ _ (S i) l ?tot ?b1] =>
      set (best1 := b1); destruct (IH (S i) tot best1 Htr') as (l' & total' & best' & -> & Hl & Hb) end.
    cbn [mbind option_bind]. exists (add_weight p :: l'), total', best'. split; [done|].
    split; [constructor; [apply add_weight_same|done]|].
    assert (best1 = Some (i, add_weight p) \/ best1 = best /\ best <> None) as Hb1.
    { unfold best1. destruct best as [[q b]|]; [|by left].
      by destruct (current_weight (add_weight p) >? current_weight b); [left|right]. }
    destruct best' as [[q b]|].
    + destruct Hb as [Hb|(p' & Hq & H1 & H2 & H3)]; [|right; exists p'; split; [lia|]; by eauto].
      destruct Hb1 as [Hb1|[Hb1 _]]; rewrite Hb in Hb1; [|by left].
      injection Hb1 as -> ->. right. exists p. rewrite Nat.sub_diag. done.
    + destruct Hb as [Hb _]. exfalso. destruct Hb1 as [Hb1|[Hb1 Hn]]; congruence.
Qed.

(** Peer [i] of group [g]. *)
Definition peer_at (us : upstream) (g i : nat) : option ngx_http_upstream_rr_peer_t :=
  G ← us !! g; peer G !! i.

(** Groups of several peers, and words for them all. *)
Definition ready (us : upstream) (tr : list Z) : Prop :=
  Forall (fun G => single G = false /\ number G = length (peer G)
                   /\ ((number G + (word_bits - 1)) / word_bits <= length tr)%nat) us.

Lemma ready_word us tr g G i :
  ready us tr -> us !! g = Some G -> (i < length (peer G))%nat -> (i / word_bits < length tr)%nat.
Proof.
  intros Hr HG Hi. unfold ready in Hr. rewrite list.Forall_lookup in Hr.
  destruct (Hr g G HG) as (_ & Hn & Hw). rewrite Hn in Hw. by eapply word_of.
Qed.

(** The groups after a call: what counts for later calls. *)
Definition keeps (us us' : upstream) : Prop :=
  Forall2 (fun G G' => number G' = number G /\ single G' = single G
    /\ peers_tries G' = peers_tries G /\ Forall2 (fun p p' => down p' = down p) (peer G) (peer G')) us us'.

Lemma keeps_ready us us' tr tr' :
  keeps us us' -> length tr' = length tr -> ready us tr -> ready us' tr'.
Proof.
  intros Hk Hl. unfold ready. rewrite Hl. clear Hl.
  induction Hk as [|G G' us us' (Hn & Hs & _ & Hp) _ IH]; intros Hr; [done|].
  apply Forall_cons_1 in Hr as [(H1 & H2 & H3) Hr]. constructor; [|by apply IH].
  rewrite Hn, Hs, <- (Forall2_length Hp). done.
Qed.

Lemma downs_refl (l : list ngx_http_upstream_rr_peer_t) : Forall2 (fun p p' => down p' = down p) l l.
Proof. induction l; by constructor. Qed.

Lemma keeps_update us g G l :
  us !! g = Some G -> Forall2 (fun p p' => down p' = down p) (peer G) l ->
  keeps us (update_group us g l).
Proof.
  intros HG Hl. unfold update_group. revert us HG.
  assert (forall us : upstream, keeps us us) as Hrefl.
  { intros us. induction us as [|H us IH]; constructor; [|done].
    split_and!; try done. apply downs_refl. }
  induction g as [|g IH]; intros [|H us] HG; try done; cbn [alter list_alter].
  - injection HG as ->. constructor; [done|]. apply Hrefl.
  - constructor; [|by apply IH]. split_and!; try done. apply downs_refl.
Qed.

Lemma keeps_trans us1 us2 us3 : keeps us1 us2 -> keeps us2 us3 -> keeps us1 us3.
Proof.
  intros H12. revert us3. induction H12 as [|G G' us us' (H1 & H2 & Ht & H3) _ IH]; intros us3 H23;
    inversion H23 as [|? G3 ? ? (H4 & H5 & Ht' & H6) Hr]; subst; constructor; [|by apply IH].
  split; [congruence|]. split; [congruence|]. split; [congruence|]. clear -H3 H6. revert H6. generalize (peer G3).
  induction H3 as [|p p' l l' Hp _ IH]; intros l3 H6; inversion H6; subst; constructor;
    [congruence|by apply IH].
Qed.

Lemma peer_at_update us g G l g' i :
  us !! g = Some G -> peer_at (update_group us g l) g' i
  = if decide (g' = g) then l !! i else peer_at us g' i.
Proof.
  intros HG. unfold peer_at, update_group. destruct (decide (g' = g)) as [->|Hne].
  - by rewrite list_lookup_alter_eq, HG.
  - by rewrite list_lookup_alter_ne.
Qed.

(** A successful call: the group and the peer chosen, and the rest as before. *)
Record chosen (now : Z) (us : upstream) (rrp : ngx_http_upstream_rr_peer_data_t)
    (us' : upstream) (rrp' : ngx_http_upstream_rr_peer_data_t) (i : nat) : Prop := {
  ch_current : current rrp' = Some i;
  ch_group : (peers rrp <= peers rrp')%nat;
  ch_available : exists p, peer_at us (peers rrp') i = Some p /\ unavailable now p = false;
  ch_fresh : peers rrp' = peers rrp -> is_tried (tried rrp) i = Some false;
  ch_tried j p : peer_at us (peers rrp') j = Some p ->
    is_tried (tried rrp') j
    = if (j =? i)%nat then Some true
      else if (peers rrp' =? peers rrp)%nat then is_tried (tried rrp) j else Some false;
  ch_others g j p : (g, j) <> (peers rrp', i) -> peer_at us g j = Some p ->
    exists p', peer_at us' g j = Some p' /\ same_peer p p';
}.

(** The groups from [g] on and before [g'] have no peer left. *)
Definition exhausted (now : Z) (us : upstream) (rrp : ngx_http_upstream_rr_peer_data_t) (g' : nat) : Prop :=
  forall g i p, (peers rrp <= g < g')%nat -> peer_at us g i = Some p ->
    unavailable now p = true \/ g = peers rrp /\ is_tried (tried rrp) i = Some true.

Lemma is_tried_cleared n tr j :
  (j / word_bits < n)%nat -> is_tried (replicate n 0 ++ drop n tr) j = Some false.
Proof.
  intros Hj. unfold is_tried. rewrite lookup_app_l by (by rewrite length_replicate).
  rewrite lookup_replicate_2 by done. cbn [mbind option_bind]. by rewrite Z.land_0_l.
Qed.

Lemma same_peer_refl p : same_peer p p.
Proof. done. Qed.

Lemma same_peer_trans p q r : same_peer p q -> same_peer q r -> same_peer p r.
Proof. unfold same_peer. intuition congruence. Qed.

(** [ngx_http_upstream_get_peer] in a group of several peers. *)
Lemma get_peer_any now us rrp G :
  us !! peers rrp = Some G -> ready us (tried rrp) ->
  exists found us' rrp', ngx_http_upstream_get_peer now us rrp = Some (found, us', rrp')
    /\ keeps us us' /\ length (tried rrp') = length (tried rrp)
    /\ match found with
       | None => rrp' = rrp /\ exhausted now us rrp (S (peers rrp))
           /\ forall g j p, peer_at us g j = Some p ->
                exists p', peer_at us' g j = Some p' /\ same_peer p p'
       | Some i => chosen now us rrp us' rrp' i /\ peers rrp' = peers rrp
       end.
Proof.
  intros HG Hr. unfold ngx_http_upstream_get_peer. rewrite HG. cbn [mbind option_bind].
  destruct (get_peer_loop_any now (tried rrp) (peer G) 0 0 None) as (l & total & best & -> & Hl & Hb).
  { intros j Hj. apply is_tried_some. by eapply ready_word; [| |apply Hj]. }
  cbn [mbind option_bind].
  assert (Forall2 (fun p p' => down p' = down p) (peer G) l) as Hdown.
  { eapply Forall2_impl; [|exact Hl]. by intros p p' [? _]. }
  assert (forall g j p, peer_at us g j = Some p ->
    exists p', (if decide (g = peers rrp) then l !! j else peer_at us g j) = Some p' /\ same_peer p p')
    as Hsame.
  { intros g j p Hp. destruct (decide (g = peers rrp)) as [->|Hne]; [|by exists p].
    unfold peer_at in Hp. rewrite HG in Hp. cbn [mbind option_bind] in Hp.
    destruct (Forall2_lookup_l _ _ _ _ _ Hl Hp) as (p' & ? & ?). by exists p'. }
  destruct best as [[i b]|].
  - destruct Hb as [|(p & _ & Hp & Hb & Hfresh & Hav)]; [done|]. rewrite Nat.sub_0_r in Hp, Hb.
    assert (i < length (peer G))%nat as Hi by by eapply lookup_lt_Some.
    destruct (set_tried_ok (tried rrp) i) as (tr & -> & Hlen & Htr); [by eapply ready_word|].
    cbn [mbind option_bind]. do 3 eexists. split; [reflexivity|].
    assert (Forall2 (fun p p' => down p' = down p) (peer G) (<[i := choose now total b]> l)) as Hdown'.
    { rewrite <- (list_insert_id (peer G) i p Hp). apply Forall2_insert; [done|].
      destruct (Forall2_lookup_lr _ _ _ _ _ _ Hl Hp Hb) as [Hd _]. unfold choose. by case_match. }
    split; [by eapply keeps_update|]. split; [done|]. split; [|done].
    split; cbn [current peers tried field_set]; try done.
    + exists p. split; [|done]. unfold peer_at. by rewrite HG.
    + intros j q Hj. rewrite Htr, Nat.eqb_refl. done.
    + intros g j q Hne Hq. rewrite (peer_at_update us (peers rrp) G) by done.
      destruct (Hsame g j q Hq) as (q' & Hq' & Hs). exists q'. split; [|done].
      destruct (decide (g = peers rrp)) as [->|]; [|done].
      rewrite list_lookup_insert_ne; [done|]. intros ->. by apply Hne.
  - destruct Hb as [_ Hb]. do 3 eexists. split; [reflexivity|]. split; [by eapply keeps_update|].
    split; [done|]. split; [done|]. split.
    + intros g i p Hg Hp. assert (g = peers rrp) as -> by lia. unfold peer_at in Hp.
      rewrite HG in Hp. cbn [mbind option_bind] in Hp. destruct (Hb i p Hp); [by right|by left].
    + intros g j p Hp. rewrite (peer_at_update us (peers rrp) G) by done. by apply Hsame.
Qed.

Lemma keeps_peer us us' g i p :
  keeps us us' -> peer_at us g i = Some p -> exists p', peer_at us' g i = Some p' /\ down p' = down p.
Proof.
  intros Hk Hp. unfold peer_at in *. apply bind_Some in Hp as (G & HG & Hp).
  destruct (Forall2_lookup_l _ _ _ _ _ Hk HG) as (G' & -> & _ & _ & _ & Hf). cbn [mbind option_bind].
  destruct (Forall2_lookup_l _ _ _ _ _ Hf Hp) as (p' & ? & ?). by exists p'.
Qed.

Lemma keeps_peer_back us us' g i p' :
  keeps us us' -> peer_at us' g i = Some p' -> exists p, peer_at us g i = Some p.
Proof.
  intros Hk Hp. unfold peer_at in *. apply bind_Some in Hp as (G' & HG & Hp).
  destruct (Forall2_lookup_r _ _ _ _ _ Hk HG) as (G & -> & _ & _ & _ & Hf). cbn [mbind option_bind].
  destruct (Forall2_lookup_r _ _ _ _ _ Hf Hp) as (p & ? & ?). by exists p.
Qed.

(** One peer changes, and is not turned down or up. *)
Lemma update_peer us g i p p' :
  peer_at us g i = Some p -> down p' = down p -> exists G, us !! g = Some G /\ peer G !! i = Some p
    /\ keeps us (update_group us g (<[i := p']> (peer G)))
    /\ forall g' j, (g', j) <> (g, i) ->
         peer_at (update_group us g (<[i := p']> (peer G))) g' j = peer_at us g' j.
Proof.
  intros Hp Hd. pose proof Hp as Hp'. unfold peer_at in Hp'. apply bind_Some in Hp' as (G & HG & Hp').
  exists G. split; [done|]. split; [done|]. split.
  - eapply keeps_update; [done|]. rewrite <- (list_insert_id (peer G) i p Hp') at 1.
    apply Forall2_insert; [|done]. apply downs_refl.
  - intros g' j Hne. rewrite (peer_at_update us g G) by done.
    destruct (decide (g' = g)) as [->|]; [|done]. rewrite list_lookup_insert_ne by (intros ->; by apply Hne).
    unfold peer_at. by rewrite HG.
Qed.

Lemma take_peer_any us g i p pc :
  peer_at us g i = Some p -> exists us' pc', take_peer us g i pc = Some (us', pc')
    /\ keeps us us' /\ pc_tries pc' = pc_tries pc
    /\ forall g' j, (g', j) <> (g, i) -> peer_at us' g' j = peer_at us g' j.
Proof.
  intros Hp. pose (p' := p <| conns := u64 (conns p + 1) |>).
  destruct (update_peer us g i p p' Hp eq_refl)
    as (G & HG & HGp & Hk & Ho).
  unfold take_peer. rewrite HG. cbn [mbind option_bind]. rewrite HGp. cbn [mbind option_bind].
  do 2 eexists. split; [reflexivity|]. done.
Qed.

(** What was found after going on to the next group, with nothing tried in it. *)
Lemma next_group now us us1 rrp rrp2 :
  keeps us us1 ->
  (forall g j p, peer_at us g j = Some p -> exists p', peer_at us1 g j = Some p' /\ same_peer p p') ->
  exhausted now us rrp (S (peers rrp)) -> peers rrp2 = S (peers rrp) ->
  (forall j p, peer_at us1 (peers rrp2) j = Some p -> is_tried (tried rrp2) j = Some false) ->
  (forall g, exhausted now us1 rrp2 g -> exhausted now us rrp g)
  /\ forall us' rrp' i, chosen now us1 rrp2 us' rrp' i -> chosen now us rrp us' rrp' i.
Proof.
  intros Hk Hsame Hex Hp2 Hclear. split.
  - intros g0 Hex1 g i p Hg Hp. destruct (decide (g = peers rrp)) as [->|Hne]; [apply Hex; [lia|done]|].
    destruct (Hsame g i p Hp) as (p' & Hp' & Hs).
    destruct (Hex1 g i p' ltac:(lia) Hp') as [Hu|[-> Ht]].
    + left. by rewrite <- (same_peer_unavailable now p p').
    + rewrite (Hclear i p' Hp') in Ht. done.
  - intros us' rrp' i [Hc Hg (p & Hp & Hav) Hf Ht Ho]. rewrite Hp2 in *. split; try done; try lia.
    + destruct (keeps_peer_back _ _ _ _ _ Hk Hp) as (p0 & Hp0).
      destruct (Hsame _ _ _ Hp0) as (p1 & Hp1 & Hs). simplify_eq.
      exists p0. split; [done|]. by rewrite <- (same_peer_unavailable now p0 p).
    + intros j q Hq. destruct (Hsame _ _ _ Hq) as (q' & Hq' & _). rewrite (Ht j q' Hq').
      destruct (j =? i)%nat; [done|]. rewrite (proj2 (Nat.eqb_neq _ (peers rrp))) by lia.
      destruct (Nat.eqb_spec (peers rrp') (S (peers rrp))) as [He|]; [|done].
      rewrite He in Hq'. by apply (Hclear j q').
    + intros g j q Hne Hq. destruct (Hsame _ _ _ Hq) as (q1 & Hq1 & Hs1).
      destruct (Ho g j q1 Hne Hq1) as (q2 & Hq2 & Hs2). exists q2. split; [done|].
      by apply (same_peer_trans q q1).
Qed.

(** A call, over the groups that are left. *)
Lemma get_rr_peer_any depth now : forall us rrp pc,
  ready us (tried rrp) -> (peers rrp < length us)%nat -> (length us <= peers rrp + depth)%nat ->
  exists rc us' rrp' pc', get_rr_peer depth now us rrp pc = Some (rc, us', rrp', pc')
    /\ keeps us us' /\ length (tried rrp') = length (tried rrp) /\ pc_tries pc' = pc_tries pc
    /\ ((rc = NGX_BUSY /\ exhausted now us rrp (length us))
        \/ (rc = NGX_OK /\ exists i, chosen now us rrp us' rrp' i
            /\ exhausted now us rrp (peers rrp'))).
Proof.
  induction depth as [|depth IH]; intros us rrp pc Hr Hg Hd; [lia|]. cbn [get_rr_peer].
  set (pc1 := pc <| pc_cached := false |> <| pc_connection := None |>).
  assert (pc_tries pc1 = pc_tries pc) as Hpc by done. clearbody pc1.
  destruct (lookup_lt_is_Some_2 us (peers rrp) Hg) as [G HG]. rewrite HG. cbn [mbind option_bind].
  pose proof Hr as Hr'. unfold ready in Hr'. rewrite list.Forall_lookup in Hr'.
  destruct (Hr' _ _ HG) as (-> & _). clear Hr'. cbn [mbind option_bind].
  destruct (get_peer_any now us rrp G HG Hr) as (found & us1 & rrp1 & -> & Hk1 & Hl1 & Hfound).
  cbn [mbind option_bind]. assert (length us1 = length us) as Hlus by by rewrite (Forall2_length Hk1).
  destruct found as [i|].
  - destruct Hfound as [Hch Hp1]. destruct (ch_available _ _ _ _ _ _ Hch) as (p & Hp & _).
    destruct (keeps_peer _ _ _ _ _ Hk1 Hp) as (p1 & Hp1' & _).
    destruct (take_peer_any us1 (peers rrp1) i p1 pc1 Hp1') as (us2 & pc2 & -> & Hk2 & Hpc2 & Ho).
    cbn [mbind option_bind]. do 4 eexists. split; [reflexivity|].
    split; [by eapply keeps_trans|]. split; [done|]. split; [congruence|]. right. split; [done|].
    exists i. split; [|intros g j q Hgj; lia]. destruct Hch as [Hc1 Hc2 Hc3 Hc4 Hc5 Hc6].
    split; try done. intros g j q Hne Hq. destruct (Hc6 g j q Hne Hq) as (q' & Hq' & Hs).
    exists q'. by rewrite Ho.
  - destruct Hfound as (-> & Hex & Hsame).
    destruct (us1 !! S (peers rrp)) as [next|] eqn:Hnext.
    + assert (ready us1 (tried rrp)) as Hr1 by by eapply keeps_ready.
      pose proof Hr1 as Hr'. unfold ready in Hr'. rewrite list.Forall_lookup in Hr'.
      destruct (Hr' _ _ Hnext) as (_ & Hn & Hroom). clear Hr'. unfold clear_tried.
      rewrite (proj2 (Nat.leb_le _ _)) by exact Hroom. cbn [mbind option_bind].
      set (n := ((number next + (word_bits - 1)) / word_bits)%nat) in *.
      set (rrp2 := rrp <| peers := S (peers rrp) |> <| tried := replicate n 0 ++ drop n (tried rrp) |>).
      assert (length (tried rrp2) = length (tried rrp)) as Hl2.
      { change (tried rrp2) with (replicate n 0 ++ drop n (tried rrp)).
        rewrite length_app, length_replicate, length_drop. lia. }
      destruct (next_group now us us1 rrp rrp2 Hk1 Hsame Hex eq_refl) as [Hnex Hnch].
      { intros j p Hp. unfold peer_at in Hp. cbn [peers rrp2 field_set] in Hp. rewrite Hnext in Hp.
        cbn [mbind option_bind] in Hp. apply is_tried_cleared. unfold n.
        apply lookup_lt_Some in Hp. apply (word_of j (number next)); [lia|done]. }
      destruct (IH us1 rrp2 pc1) as (rc & us2 & rrp' & pc' & -> & Hk2 & Hl3 & Hpc2 & Hres).
      { unfold ready. by rewrite Hl2. }
      { apply lookup_lt_Some in Hnext. cbn. lia. }
      { cbn. lia. }
      cbn [mbind option_bind].
      assert (keeps us us2) as Hk3 by by eapply keeps_trans.
      destruct Hres as [[-> Hres]|[-> (i & Hch & Hres)]].
      * change (negb (NGX_BUSY =? NGX_BUSY)) with false. cbn iota.
        do 4 eexists. split; [reflexivity|]. split; [done|]. split; [congruence|]. split; [cbn; congruence|].
        left. split; [done|]. rewrite <- Hlus. by apply Hnex.
      * change (negb (NGX_OK =? NGX_BUSY)) with true. cbn iota.
        do 4 eexists. split; [reflexivity|]. split; [done|]. split; [congruence|]. split; [congruence|].
        right. split; [done|]. exists i. split; [by apply Hnch|by apply Hnex].
    + do 4 eexists. split; [reflexivity|]. split; [done|]. split; [done|]. split; [done|]. left.
      split; [done|]. apply lookup_ge_None in Hnext. intros g j p Hgj. apply Hex. lia.
Qed.

(** What a caller does: it takes a peer, tries to connect, and gives the peer back as
    failed if that does not work, as long as there are tries left. *)
Section TryPeers.
Variable alive : nat -> nat -> bool.
Variable now : Z.

Fixpoint try_peers (fuel : nat) (us : upstream) (rrp : ngx_http_upstream_rr_peer_data_t)
    (pc : ngx_peer_connection_t) : option (option (nat * nat)) :=
  match fuel with
  | O => None
  | S fuel' =>
      '(rc, us, rrp, pc) ← ngx_http_upstream_get_round_robin_peer now us rrp pc;
      if rc =? NGX_BUSY then Some None
      else
        i ← current rrp;
        if alive (peers rrp) i then Some (Some (peers rrp, i))
        else
          '(us, pc) ← ngx_http_upstream_free_round_robin_peer now us rrp pc NGX_PEER_FAILED;
          if pc_tries pc =? 0 then Some None else try_peers fuel' us rrp pc
  end.

(** The peers not tried, of those that may ever be used. *)
Fixpoint todo (t : nat -> bool) (i : nat) (l : list ngx_http_upstream_rr_peer_t) : Z :=
  match l with
  | [] => 0
  | p :: l' => (if down p || t i then 0 else 1) + todo t (S i) l'
  end.

Lemma todo_nonneg t l : forall i, 0 <= todo t i l.
Proof. induction l as [|p l IH]; intros i; cbn [todo]; [done|]. specialize (IH (S i)). case_match; lia. Qed.

Lemma todo_down t l l' : forall i,
  Forall2 (fun p p' => down p' = down p) l l' -> todo t i l' = todo t i l.
Proof.
  intros i H. revert i. induction H as [|p p' l l' Hp _ IH]; intros i; cbn [todo]; [done|].
  by rewrite Hp, IH.
Qed.

Lemma todo_ext t t' l : forall i,
  (forall j, (j < length l)%nat -> t' (i + j)%nat = t (i + j)%nat) -> todo t' i l = todo t i l.
Proof.
  induction l as [|p l IH]; intros i Ht; cbn [todo]; [done|]. rewrite (IH (S i)).
  - specialize (Ht 0%nat). rewrite Nat.add_0_r in Ht. rewrite Ht by (cbn; lia). done.
  - intros j Hj. specialize (Ht (S j)). rewrite Nat.add_succ_r in Ht. apply Ht. cbn. lia.
Qed.

Lemma todo_mark t l : forall i k p, l !! k = Some p -> down p = false -> t (i + k)%nat = false ->
  todo (fun j => (j =? i + k)%nat || t j) i l = todo t i l - 1.
Proof.
  induction l as [|q l IH]; intros i [|k] p Hk Hd Ht; try done; cbn [todo].
  - injection Hk as ->. rewrite Nat.add_0_r in *. rewrite Hd, Ht, Nat.eqb_refl. cbn [orb].
    rewrite (todo_ext t); [lia|]. intros j _. by rewrite (proj2 (Nat.eqb_neq _ i)) by lia.
  - rewrite (proj2 (Nat.eqb_neq i _)) by lia. cbn [orb].
    rewrite Nat.add_succ_r in *. specialize (IH (S i) k p Hk Hd Ht). cbn [Nat.add] in IH.
    rewrite IH. lia.
Qed.

(** The same over the groups that are left. *)
Definition remaining (us : upstream) (g : nat) (t : nat -> bool) : Z :=
  match us !! g with Some G => todo t 0 (peer G) | None => 0 end
  + sumZ (map (fun G => todo (fun _ => false) 0 (peer G)) (drop (S g) us)).

Lemma remaining_nonneg us g t : 0 <= remaining us g t.
Proof.
  unfold remaining. assert (forall us : upstream,
    0 <= sumZ (map (fun G => todo (fun _ => false) 0 (peer G)) us)) as Hs.
  { intros us'. apply sumZ_nonneg, List.Forall_map, list.Forall_forall. intros G _. apply todo_nonneg. }
  specialize (Hs (drop (S g) us)). destruct (us !! g) as [G|]; [|lia].
  pose proof (todo_nonneg t (peer G) 0). lia.
Qed.

Lemma remaining_later us g g' t : (g < g')%nat ->
  remaining us g' (fun _ => false) <= remaining us g t.
Proof.
  intros Hg. assert (remaining us g' (fun _ => false)
    = sumZ (map (fun G => todo (fun _ => false) 0 (peer G)) (drop g' us))) as ->.
  { unfold remaining. destruct (us !! g') as [G|] eqn:HG.
    - by rewrite (drop_S _ G g') by done.
    - rewrite !drop_ge; [done|..]; apply lookup_ge_None in HG; lia. }
  unfold remaining. assert (0 <= match us !! g with Some G => todo t 0 (peer G) | None => 0 end) as Hn.
  { destruct (us !! g); [apply todo_nonneg|done]. }
  replace g' with (S g + (g' - S g))%nat by lia. rewrite <- drop_drop.
  assert (forall k (us : upstream), sumZ (map (fun G => todo (fun _ => false) 0 (peer G)) (drop k us))
    <= sumZ (map (fun G => todo (fun _ => false) 0 (peer G)) us)) as Hk; [|specialize (Hk (g' - S g)%nat (drop (S g) us)); lia].
  clear. induction k as [|k IH]; intros us; [done|]. destruct us as [|G us]; [done|].
  cbn [drop map sumZ]. specialize (IH us). pose proof (todo_nonneg (fun _ => false) (peer G) 0). lia.
Qed.

Lemma remaining_keeps us us' g t : keeps us us' -> remaining us' g t = remaining us g t.
Proof.
  intros Hk. unfold remaining. f_equal.
  - destruct (us !! g) as [G|] eqn:HG.
    + destruct (Forall2_lookup_l _ _ _ _ _ Hk HG) as (G' & -> & _ & _ & _ & Hf). by apply todo_down.
    + apply lookup_ge_None in HG. rewrite (Forall2_length Hk) in HG.
      by apply lookup_ge_None in HG as ->.
  - assert (Forall2 (fun G G' => Forall2 (fun p p' => down p' = down p) (peer G) (peer G'))
      (drop (S g) us) (drop (S g) us')) as Hd.
    { apply Forall2_drop. eapply Forall2_impl; [|exact Hk]. by intros ? ? (_ & _ & _ & ?). }
    induction Hd as [|G G' l l' HG _ IH]; [done|]. cbn [map sumZ]. by rewrite IH, (todo_down _ _ _ _ HG).
Qed.

Lemma remaining_mark us g t i p :
  peer_at us g i = Some p -> down p = false -> t i = false ->
  remaining us g (fun j => (j =? i)%nat || t j) = remaining us g t - 1.
Proof.
  intros Hp Hd Ht. unfold peer_at in Hp. apply bind_Some in Hp as (G & HG & Hp).
  unfold remaining. rewrite HG.
  pose proof (todo_mark t (peer G) 0 i p Hp Hd Ht) as Hm. cbn [Nat.add] in Hm. rewrite Hm. lia.
Qed.

Lemma remaining_ext us g t t' :
  (forall i p, peer_at us g i = Some p -> t' i = t i) -> remaining us g t' = remaining us g t.
Proof.
  intros Ht. unfold remaining. f_equal. destruct (us !! g) as [G|] eqn:HG; [|done].
  apply todo_ext. intros j Hj. cbn. destruct (lookup_lt_is_Some_2 _ _ Hj) as [p Hp].
  apply (Ht j p). unfold peer_at. by rewrite HG.
Qed.

(** The peers of the words. *)
Definition tried_in (tr : list Z) (j : nat) : bool := bool_decide (is_tried tr j = Some true).

Lemma tried_in_false tr j : is_tried tr j = Some false -> tried_in tr j = false.
Proof. intros Hj. unfold tried_in. rewrite Hj. by apply bool_decide_eq_false. Qed.

Lemma unavailable_down p : unavailable now p = false -> down p = false.
Proof. unfold unavailable. by destruct (down p). Qed.

(** A selection uses up one peer. *)
Lemma chosen_remaining us rrp us' rrp' i :
  chosen now us rrp us' rrp' i -> keeps us us' ->
  remaining us' (peers rrp') (tried_in (tried rrp'))
  <= remaining us (peers rrp) (tried_in (tried rrp)) - 1.
Proof.
  intros [Hc Hg (p & Hp & Hav) Hf Ht Ho] Hk. rewrite (remaining_keeps us us') by done.
  pose (t0 := if (peers rrp' =? peers rrp)%nat then tried_in (tried rrp) else fun _ => false).
  assert (t0 i = false) as Ht0.
  { unfold t0. destruct (Nat.eqb_spec (peers rrp') (peers rrp)); [|done]. by apply tried_in_false, Hf. }
  rewrite (remaining_ext us _ (fun j => (j =? i)%nat || t0 j)).
  - rewrite (remaining_mark _ _ _ _ p Hp (unavailable_down p Hav) Ht0). unfold t0.
    destruct (Nat.eqb_spec (peers rrp') (peers rrp)) as [->|]; [done|].
    pose proof (remaining_later us (peers rrp) (peers rrp') (tried_in (tried rrp)) ltac:(lia)). lia.
  - intros j q Hq. unfold tried_in. rewrite (Ht j q Hq). unfold t0.
    destruct (j =? i)%nat; [done|]. by destruct (peers rrp' =? peers rrp)%nat.
Qed.

(** A working peer that is still to be tried. *)
Definition target (us : upstream) (rrp : ngx_http_upstream_rr_peer_data_t) (g i : nat) : Prop :=
  (exists p, peer_at us g i = Some p /\ unavailable now p = false) /\ alive g i = true
  /\ ((peers rrp < g)%nat \/ g = peers rrp /\ is_tried (tried rrp) i = Some false).

Lemma target_remaining us rrp g i :
  target us rrp g i -> 0 < remaining us (peers rrp) (tried_in (tried rrp)).
Proof.
  intros ((p & Hp & Hav) & _ & Hor). pose proof (unavailable_down p Hav) as Hd.
  assert (forall t, t i = false -> 0 < remaining us g t) as Hpos.
  { intros t Ht. pose proof (remaining_mark us g t i p Hp Hd Ht) as Hm.
    pose proof (remaining_nonneg us g (fun j => (j =? i)%nat || t j)). lia. }
  destruct Hor as [Hlt|[-> Ht]]; [|by apply Hpos, tried_in_false].
  pose proof (remaining_later us (peers rrp) g (tried_in (tried rrp)) Hlt).
  specialize (Hpos (fun _ => false) eq_refl). lia.
Qed.

Lemma free_any us rrp pc i p :
  current rrp = Some i -> peer_at us (peers rrp) i = Some p -> ready us (tried rrp) ->
  exists us' pc', ngx_http_upstream_free_round_robin_peer now us rrp pc NGX_PEER_FAILED = Some (us', pc')
    /\ keeps us us' /\ pc_tries pc' = (if pc_tries pc =? 0 then 0 else pc_tries pc - 1)
    /\ forall g' j, (g', j) <> (peers rrp, i) -> peer_at us' g' j = peer_at us g' j.
Proof.
  intros Hc Hp Hr. pose (p' := (peer_failed now p) <| conns := u64 (conns (peer_failed now p) - 1) |>).
  assert (down p' = down p) as Hd.
  { unfold p'. cbn. unfold peer_failed. by repeat case_match. }
  destruct (update_peer us (peers rrp) i p p' Hp Hd) as (G & HG & HGp & Hk & Ho).
  unfold ngx_http_upstream_free_round_robin_peer. rewrite Hc. cbn [mbind option_bind].
  rewrite HG. cbn [mbind option_bind]. rewrite HGp. cbn [mbind option_bind].
  unfold ready in Hr. rewrite list.Forall_lookup in Hr. destruct (Hr _ _ HG) as (-> & _).
  change (negb (Z.land NGX_PEER_FAILED NGX_PEER_FAILED =? 0)) with true. cbn iota.
  do 2 eexists. split; [reflexivity|]. split; [exact Hk|]. split; [|exact Ho].
  by destruct (Z.eqb_spec (pc_tries pc) 0).
Qed.

Lemma try_peers_reaches fuel : forall us rrp pc g i,
  ready us (tried rrp) -> (peers rrp < length us)%nat -> target us rrp g i ->
  remaining us (peers rrp) (tried_in (tried rrp)) <= pc_tries pc ->
  remaining us (peers rrp) (tried_in (tried rrp)) < Z.of_nat fuel ->
  exists g' i', try_peers fuel us rrp pc = Some (Some (g', i')) /\ alive g' i' = true.
Proof.
  induction fuel as [|fuel IH]; intros us rrp pc g i Hr Hg Htg Htries Hf.
  { pose proof (remaining_nonneg us (peers rrp) (tried_in (tried rrp))). lia. }
  cbn [try_peers]. unfold ngx_http_upstream_get_round_robin_peer.
  destruct (get_rr_peer_any (length us) now us rrp pc Hr Hg ltac:(lia))
    as (rc & us1 & rrp1 & pc1 & -> & Hk1 & Hl1 & Hpc1 & Hres).
  cbn [mbind option_bind]. destruct Hres as [[-> Hex]|[-> (k & Hch & Hex)]].
  { exfalso. destruct Htg as ((p & Hp & Hav) & _ & Hor).
    destruct (Hex g i p) as [Hu|[-> Ht]]; [|done|congruence|].
    - apply bind_Some in Hp as (G & HG & _). apply lookup_lt_Some in HG. lia.
    - destruct Hor as [|[_ Hor]]; [lia|congruence]. }
  change (NGX_OK =? NGX_BUSY) with false. cbn iota. rewrite (ch_current _ _ _ _ _ _ Hch).
  cbn [mbind option_bind]. destruct (alive (peers rrp1) k) eqn:Hal; [by eauto|].
  pose proof (chosen_remaining _ _ _ _ _ Hch Hk1) as Hrem.
  destruct (ch_available _ _ _ _ _ _ Hch) as (p & Hp & Hav).
  destruct (keeps_peer _ _ _ _ _ Hk1 Hp) as (p1 & Hp1 & _).
  assert (ready us1 (tried rrp1)) as Hr1 by by eapply keeps_ready.
  destruct (free_any us1 rrp1 pc1 k p1 (ch_current _ _ _ _ _ _ Hch) Hp1 Hr1)
    as (us2 & pc2 & -> & Hk2 & Hpc2 & Ho).
  cbn [mbind option_bind].
  assert (target us2 rrp1 g i) as Htg2.
  { destruct Htg as ((q & Hq & Hqav) & Hqal & Hor).
    assert ((g, i) <> (peers rrp1, k)) as Hne by (intros [= -> ->]; congruence).
    destruct (ch_others _ _ _ _ _ _ Hch g i q Hne Hq) as (q1 & Hq1 & Hs).
    split; [|split; [done|]].
    - exists q1. rewrite Ho by done. split; [done|]. by rewrite (same_peer_unavailable now q q1).
    - destruct (decide (peers rrp1 <= g)%nat) as [Hle|Hgt].
      + destruct (decide (g = peers rrp1)) as [->|]; [right|left; lia]. split; [done|].
        rewrite (ch_tried _ _ _ _ _ _ Hch i q Hq). rewrite (proj2 (Nat.eqb_neq i k)) by congruence.
        destruct (Nat.eqb_spec (peers rrp1) (peers rrp)); [|done]. destruct Hor as [|[_ ?]]; [lia|done].
      + destruct (Hex g i q) as [Hu|[-> Ht]]; [|done|congruence|].
        * destruct Hor as [|[-> _]]; lia.
        * destruct Hor as [|[_ Hor]]; [lia|congruence]. }
  pose proof (target_remaining us2 rrp1 g i Htg2) as Hpos.
  pose proof (remaining_keeps us1 us2 (peers rrp1) (tried_in (tried rrp1)) Hk2) as Heq.
  rewrite Hpc1 in Hpc2. rewrite (proj2 (Z.eqb_neq (pc_tries pc) 0)) in Hpc2 by lia.
  test_false (pc_tries pc2 =? 0). apply (IH us2 rrp1 pc2 g i); try done; try lia.
  - by apply (keeps_ready us1 us2 (tried rrp1)).
  - apply bind_Some in Hp1 as (G & HG & _). apply lookup_lt_Some in HG.
    by rewrite <- (Forall2_length Hk2).
Qed.
End TryPeers.

(** What the configuration makes, and every call keeps. *)
Record from_config (us : upstream) : Prop := {
  fc_groups : Forall (fun G => number G = length (peer G)
                /\ peers_tries G = todo (fun _ => false) 0 (peer G)) us;
  fc_two : (length us <= 2)%nat;
  fc_single : (exists G p, us = [G] /\ single G = true /\ peer G = [p])
              \/ Forall (fun G => single G = false) us;
}.

Lemma from_config_keeps us us' : keeps us us' -> from_config us -> from_config us'.
Proof.
  intros Hk [Hg Ht Hs]. split.
  - clear -Hk Hg. induction Hk as [|G G' us us' (H1 & _ & H2 & H3) _ IH]; [done|].
    apply Forall_cons_1 in Hg as [[Hn Htr] Hg]. constructor; [|by apply IH].
    by rewrite H1, H2, <- (Forall2_length H3), (todo_down _ _ _ _ H3).
  - by rewrite <- (Forall2_length Hk).
  - destruct Hs as [(G & p & -> & Hs & Hp)|Hs].
    + left. inversion Hk as [|? G' ? us1 (_ & H1 & _ & H2) Hnil]; subst. inversion Hnil; subst.
      rewrite Hp in H2. inversion H2 as [|? p' ? ? _ Hnil2]; subst. inversion Hnil2; subst.
      exists G', p'. rewrite H1. done.
    + right. clear -Hk Hs. induction Hk as [|G G' us us' (_ & H1 & _) _ IH]; [done|].
      apply Forall_cons_1 in Hs as [H Hs]. constructor; [congruence|by apply IH].
Qed.

Lemma todo_app l1 l2 i :
  todo (fun _ => false) i (l1 ++ l2) = todo (fun _ => false) i l1 + todo (fun _ => false) i l2.
Proof.
  revert i. induction l1 as [|p l1 IH]; intros i; [done|]. cbn [app todo]. rewrite IH.
  assert (forall l i j, todo (fun _ => false) i l = todo (fun _ => false) j l) as Hi.
  { induction l as [|q l IHl]; intros a b; [done|]. cbn [todo]. by rewrite (IHl (S a) (S b)). }
  rewrite (Hi l2 (S i) i). lia.
Qed.

Lemma count_servers_tries servers backup n w t :
  (count_servers servers backup n w t).2 = t + todo (fun _ => false) 0 (make_peers servers backup).
Proof.
  revert n w t. induction servers as [|s servers IH]; intros n w t; cbn [count_servers make_peers].
  { cbn. lia. }
  destruct (negb _); [apply IH|]. rewrite IH, todo_app.
  assert (forall l i, todo (fun _ => false) i (map (new_peer s) l)
    = if s_down s then 0 else Z.of_nat (length l)) as ->.
  { induction l as [|a l IHl]; intros i; [by destruct (s_down s)|]. cbn [map todo length].
    rewrite IHl. cbn. destruct (s_down s); cbn [orb]; lia. }
  destruct (s_down s); cbn [negb]; lia.
Qed.

Lemma init_from_config servers host us :
  ngx_http_upstream_init_round_robin servers host = Some us -> from_config us.
Proof.
  unfold ngx_http_upstream_init_round_robin. intros Hi.
  assert (forall b, let G := make_group servers host b in
    number G = length (peer G) /\ peers_tries G = todo (fun _ => false) 0 (peer G)
    /\ single G = (number G =? 1)%nat) as Hgroup.
  { intros b. pose proof (count_servers_number servers b 0 0 0) as Hn.
    pose proof (count_servers_tries servers b 0 0 0) as Ht. unfold make_group.
    destruct (count_servers servers b 0 0 0) as [[n w] t]. cbn in *. done. }
  destruct (Hgroup false) as (Hn1 & Ht1 & Hs1), (Hgroup true) as (Hn2 & Ht2 & _).
  cbv zeta in *. clear Hgroup.
  destruct (number (make_group servers host false) =? 0)%nat; [done|].
  destruct (number (make_group servers host true) =? 0)%nat; injection Hi as <-.
  - split; [by repeat constructor|cbn; lia|].
    destruct (single (make_group servers host false)) eqn:Hs; [left|right; by repeat constructor].
    symmetry in Hs1. apply Nat.eqb_eq in Hs1. rewrite Hn1 in Hs1.
    destruct (peer (make_group servers host false)) as [|p [|]] eqn:Hp; try done.
    by exists (make_group servers host false), p.
  - split; [by repeat constructor|cbn; lia|]. right. by repeat constructor.
Qed.

Lemma init_peer_ready us pc :
  from_config us -> us <> [] -> Forall (fun G => single G = false) us ->
  exists rrp pc', ngx_http_upstream_init_round_robin_peer us pc = Some (rrp, pc')
    /\ ready us (tried rrp) /\ peers rrp = 0%nat
    /\ pc_tries pc' = remaining us 0 (fun _ => false)
    /\ forall i p, peer_at us 0 i = Some p -> is_tried (tried rrp) i = Some false.
Proof.
  intros [Hg Ht _] Hne Hs. destruct us as [|G rest]; [done|].
  unfold ngx_http_upstream_init_round_robin_peer. cbn [lookup list_lookup mbind option_bind].
  set (n := match rest !! 0%nat with
            | Some next => if (number G <? number next)%nat then number next else number G
            | None => number G end).
  match goal with |- context [replicate ?w 0] => set (words := w) end.
  do 2 eexists. split; [reflexivity|]. cbn [tried peers pc_tries field_set].
  assert (forall m, (m <= n)%nat -> ((m + (word_bits - 1)) / word_bits <= words)%nat) as Hroom.
  { intros m Hm. unfold words. destruct (Nat.leb_spec n word_bits) as [Hn|Hn].
    - unfold word_bits in *. apply Nat.lt_succ_r, Nat.Div0.div_lt_upper_bound. lia.
    - apply Nat.Div0.div_le_mono. lia. }
  assert (number G <= n)%nat as Hn0.
  { unfold n. destruct rest as [|next rest']; [cbn; lia|]. cbn [lookup list_lookup].
    case_match eqn:Hlt; [apply Nat.ltb_lt in Hlt|]; lia. }
  split; [|split; [done|split]].
  - unfold ready. rewrite length_replicate. apply Forall_cons_1 in Hg as [[HnG _] Hg].
    apply Forall_cons_1 in Hs as [HsG Hs]. constructor; [by split_and!; [..|apply Hroom]|].
    destruct rest as [|next [|]]; [done| |cbn in Ht; lia].
    apply Forall_cons_1 in Hg as [[HnN _] _]. apply Forall_cons_1 in Hs as [HsN _].
    constructor; [|done]. split_and!; try done. apply Hroom. unfold n. cbn [lookup list_lookup].
    case_match eqn:Hlt; [lia|apply Nat.ltb_ge in Hlt; lia].
  - unfold remaining, ngx_http_upstream_tries. cbn [lookup list_lookup drop].
    apply Forall_cons_1 in Hg as [[_ HtG] Hg].
    destruct rest as [|next [|]]; [|apply Forall_cons_1 in Hg as [[_ HtN] _]|cbn in Ht; lia];
      rewrite drop_0; cbn [map sumZ]; lia.
  - intros i p Hp. apply is_tried_fresh. unfold peer_at in Hp. cbn [lookup list_lookup mbind option_bind] in Hp.
    apply Forall_cons_1 in Hg as [[HnG _] _]. apply lookup_lt_Some in Hp. fold (peer G) in Hp.
    apply (word_of i (number G)); [lia|by apply Hroom].
Qed.

(** C14: Failover.  In whatever state earlier requests have left the peers, a request
    that tries one peer after another, gives the failed ones back, and stops when its
    tries are used up reaches a working peer, if any available peer of the primary or
    the backup group works; it needs at most as many attempts as it has tries. *)
Theorem ngx_http_upstream_failover servers host us0 us now alive g i p pc :
  ngx_http_upstream_init_round_robin servers host = Some us0 -> keeps us0 us ->
  peer_at us g i = Some p -> unavailable now p = false -> alive g i = true ->
  exists rrp pc' g' i', ngx_http_upstream_init_round_robin_peer us pc = Some (rrp, pc')
    /\ try_peers alive now (S (Z.to_nat (pc_tries pc'))) us rrp pc' = Some (Some (g', i'))
    /\ alive g' i' = true.
Proof.
  intros Hi Hk Hp Hav Hal. pose proof (from_config_keeps _ _ Hk (init_from_config _ _ _ Hi)) as Hfc.
  destruct (fc_single _ Hfc) as [(G & q & -> & Hs & Hq)|Hs].
  - assert (g = 0%nat /\ i = 0%nat /\ q = p) as (-> & -> & ->).
    { unfold peer_at in Hp. destruct g; [|done]. cbn in Hp. rewrite Hq in Hp.
      destruct i; [|done]. by injection Hp. }
    do 4 eexists. split; [reflexivity|].
    cbn [try_peers ngx_http_upstream_get_round_robin_peer get_rr_peer length peers lookup list_lookup
      mbind option_bind].
    unfold ngx_http_upstream_get_round_robin_peer. cbn [length get_rr_peer peers lookup list_lookup].
    cbn [mbind option_bind]. rewrite Hs, Hq. cbn [lookup list_lookup mbind option_bind].
    unfold unavailable in Hav. apply orb_false_iff in Hav as [[-> _]%orb_false_iff ->].
    cbn [orb mbind option_bind peers field_set]. unfold take_peer. cbn [lookup list_lookup mbind option_bind].
    rewrite Hq. cbn [lookup list_lookup mbind option_bind]. change (NGX_OK =? NGX_BUSY) with false.
    cbn iota. cbn [current field_set mbind option_bind peers]. rewrite Hal. done.
  - assert (us <> []) as Hne by (intros ->; by destruct g).
    destruct (init_peer_ready us pc Hfc Hne Hs) as (rrp & pc' & Hinit & Hr & Hp0 & Ht & Hfresh).
    destruct (try_peers_reaches alive now (S (Z.to_nat (pc_tries pc'))) us rrp pc' g i) as (g' & i' & Htry & Ha).
    + done.
    + rewrite Hp0. destruct us; [done|cbn; lia].
    + split; [by exists p|]. split; [done|]. rewrite Hp0. destruct g as [|g]; [right|left; lia].
      split; [done|]. by eapply Hfresh.
    + rewrite Hp0, Ht. apply Z.eq_le_incl, remaining_ext. intros j q Hj. apply tried_in_false. by eapply Hfresh.
    + rewrite Hp0, (remaining_ext us 0 (fun _ => false)).
      * rewrite Ht. pose proof (remaining_nonneg us 0 (fun _ => false)). lia.
      * intros j q Hj. apply tried_in_false. by eapply Hfresh.
    + by exists rrp, pc', g', i'.
Qed.

Lemma keeps_refl us : keeps us us.
Proof. induction us as [|G us IH]; constructor; [|done]. split_and!; try done. apply downs_refl. Qed.

Definition two_and_backup : list ngx_http_upstream_server_t :=
  [rr_server (bs "a") 5 false; rr_server (bs "z") 1 true; rr_server (bs "b") 2 false].

Lemma ngx_http_upstream_failover_witness :
  exists us rrp pc', ngx_http_upstream_init_round_robin two_and_backup [] = Some us
    /\ ngx_http_upstream_init_round_robin_peer us new_pc = Some (rrp, pc')
    /\ try_peers (fun g _ => (g =? 1)%nat) 7 (S (Z.to_nat (pc_tries pc'))) us rrp pc' = Some (Some (1, 0)%nat).
Proof.
  destruct (ngx_http_upstream_init_round_robin two_and_backup []) as [us|] eqn:Hi.
  2: { exfalso. vm_compute in Hi. discriminate. }
  assert (exists p, peer_at us 1 0 = Some p /\ unavailable 7 p = false) as (p & Hp & Hav).
  { vm_compute in Hi. injection Hi as <-. eexists. split; vm_compute; reflexivity. }
  destruct (ngx_http_upstream_failover two_and_backup [] us us 7 (fun g _ => (g =? 1)%nat) 1 0 p new_pc
    Hi (keeps_refl us) Hp Hav eq_refl) as (rrp & pc' & g' & i' & Hinit & Htry & Hal).
  exists us, rrp, pc'. split; [done|]. split; [done|]. rewrite Htry.
  clear -Hi Hinit Htry Hal. vm_compute in Hi. injection Hi as <-. vm_compute in Hinit.
  injection Hinit as <- <-. vm_compute in Htry. by injection Htry as <- <-.
Defined.
