(* ===== verification/Printf.v ===== *)
(** * Printf: formatted printing of ngx_string.c

    [ngx_vslprintf] and its wrappers.  The format is a string without its zero; the
    arguments are a list.  The result is what is written from [buf] on.  [room] is
    [last - buf], or [None] for the [ngx_sprintf] that has no [last].  Floating point
    ([%f]) is not modelled. *)

From S2P Require Import Prelude Numbers.

(** An argument: an integer of any type; the bytes that can be read from a [u_char *]
    on; the bytes of an [ngx_str_t] or an [ngx_variable_value_t]. *)
Inductive arg := Int (z : Z) | Ptr (mem : list Z) | Str (s : list Z).

Definition i32 (z : Z) : Z := (z + 2 ^ 31) mod 2 ^ 32 - 2 ^ 31.

Definition NGX_INT_T_LEN : Z := 20.
Definition NGX_ATOMIC_T_LEN : Z := 20.

Definition has_room (room : option nat) (n : nat) : bool :=
  match room with None => true | Some r => (n <=? r)%nat end.
Definition spend (room : option nat) (n : nat) : option nat := (fun r => (r - n)%nat) <$> room.

(** ** Strings *)

(** Two digits for a byte, [while ( *src && buf < last - 1)]. *)
Fixpoint hex_until_zero (hex : list Z) (room : option nat) (src : list Z) : option (list Z) :=
  match src with
  | [] => None
  | c :: src' =>
      if negb (c =? 0) && has_room room 2 then
        out ← hex_until_zero hex (spend room 2) src';
        Some (hex_digit hex (Z.shiftr c 4) :: hex_digit hex (Z.land c 0xf) :: out)
      else Some []
  end.

(** [while (len-- && buf < last - 1)]. *)
Fixpoint hex_bytes (hex : list Z) (room : option nat) (len : nat) (src : list Z) : option (list Z) :=
  match len with
  | O => Some []
  | S len' =>
      if has_room room 2 then
        match src with
        | [] => None
        | c :: src' =>
            out ← hex_bytes hex (spend room 2) len' src';
            Some (hex_digit hex (Z.shiftr c 4) :: hex_digit hex (Z.land c 0xf) :: out)
        end
      else Some []
  end.

(** [while ( *src && buf < last) *buf++ = *src++]. *)
Fixpoint copy_until_zero (room : option nat) (src : list Z) : option (list Z) :=
  match src with
  | [] => None
  | c :: src' =>
      if negb (c =? 0) && has_room room 1 then
        out ← copy_until_zero (spend room 1) src'; Some (c :: out)
      else Some []
  end.

(** [len] is [None] for [(size_t) -1]. *)
Definition ngx_sprintf_str (room : option nat) (src : list Z) (len : option nat) (hexadecimal : Z)
    : option (list Z) :=
  if hexadecimal =? 0 then
    match len with
    | None => copy_until_zero room src
    | Some len =>
        let len := match room with None => len | Some r => Nat.min r len end in
        if (len <=? length src)%nat then Some (take len src) else None
    end
  else
    let hex := if hexadecimal =? 1 then hex_lower else hex_upper in
    match len with
    | None => hex_until_zero hex room src
    | Some len => hex_bytes hex room len src
    end.

(** ** Conversion specifications *)

Record spec := {
  zero : Z;
  width : Z;
  sign : bool;
  hex : Z;
  max_width : bool;
  frac_width : Z;
  slen : option nat;
}.
#[export] Instance eta_spec : Eta spec := mk_eta (fun s =>
  Build_spec (zero s) (width s) (sign s) (hex s) (max_width s) (frac_width s) (slen s)).

(** [while ( *fmt >= '0' && *fmt <= '9')]. *)
Fixpoint digits (v : Z) (fmt : list Z) : Z * list Z :=
  match fmt with
  | c :: fmt' =>
      if ("0"%ch <=? c) && (c <=? "9"%ch) then digits (u64 (v * 10 + (c - "0"%ch))) fmt' else (v, fmt)
  | [] => (v, fmt)
  end.

(** The [for ( ;; )] over the flags. *)
Fixpoint flags (s : spec) (fmt : list Z) (args : list arg) : option (spec * list Z * list arg) :=
  match fmt with
  | [] => Some (s, fmt, args)
  | c :: fmt' =>
      if c =? "u"%ch then flags (s <| sign := false |>) fmt' args
      else if c =? "m"%ch then flags (s <| max_width := true |>) fmt' args
      else if c =? "X"%ch then flags (s <| hex := 2 |> <| sign := false |>) fmt' args
      else if c =? "x"%ch then flags (s <| hex := 1 |> <| sign := false |>) fmt' args
      else if c =? "."%ch then
        let '(w, fmt'') := digits (frac_width s) fmt' in Some (s <| frac_width := w |>, fmt'', args)
      else if c =? "*"%ch then
        match args with
        | Int n :: args' => flags (s <| slen := Some (Z.to_nat n) |>) fmt' args'
        | _ => None
        end
      else Some (s, fmt, args)
  end.

(** From after the percent sign on. *)
Definition parse_spec (fmt : list Z) (args : list arg) : option (spec * list Z * list arg) :=
  let z := match fmt with c :: _ => if c =? "0"%ch then "0"%ch else " "%ch | [] => " "%ch end in
  let '(w, fmt) := digits 0 fmt in
  flags {| zero := z; width := w; sign := true; hex := 0; max_width := false; frac_width := 0;
           slen := None |} fmt args.

(** ** Conversions *)

(** What a conversion character does with an integer: the types of the signed and of
    the unsigned argument; [%m] of [%i] and [%A]; those that are always signed. *)
Definition int_conversion (c z : Z) (s : spec) : option (spec * Z) :=
  let signed f := Some (s <| sign := true |>, f z) in
  let either f g := Some (s, if sign s then f z else g z) in
  if c =? "O"%ch then signed i64
  else if c =? "P"%ch then signed i32
  else if c =? "T"%ch then signed i64
  else if c =? "M"%ch then
    if u64 z =? 2 ^ 64 - 1 then Some (s <| sign := true |>, -1)
    else Some (s <| sign := false |>, u64 z)
  else if c =? "z"%ch then either i64 u64
  else if c =? "i"%ch then
    Some (if max_width s then s <| width := NGX_INT_T_LEN |> else s, if sign s then i64 z else u64 z)
  else if c =? "d"%ch then either i32 u32
  else if c =? "l"%ch then either i64 u64
  else if c =? "D"%ch then either i32 u32
  else if c =? "L"%ch then either i64 u64
  else if c =? "A"%ch then
    Some (if max_width s then s <| width := NGX_ATOMIC_T_LEN |> else s,
          if sign s then i64 z else u64 z)
  else if c =? "r"%ch then signed i64
  else if c =? "p"%ch then
    Some (s <| hex := 2 |> <| sign := false |> <| zero := "0"%ch |> <| width := 16 |>, u64 z)
  else None.

(** The sign and the digits.  An unlimited buffer has room for all of them. *)
Definition put_int (room : option nat) (s : spec) (v : Z) : option (list Z) :=
  let minus := if sign s && (v <? 0) then ["-"%ch] else [] in
  let ui := if sign s then u64 (if v <? 0 then - v else v) else v in
  let avail := default (Z.to_nat (width s) + NGX_INT64_LEN)%nat (spend room (length minus)) in
  out ← ngx_sprintf_num avail ui (zero s) (hex s) (width s);
  Some (minus ++ out).

(** One specification: the output, what is left of the format, and the arguments. *)
Definition conversion (room : option nat) (fmt : list Z) (args : list arg)
    : option (list Z * list Z * list arg) :=
  '(s, fmt, args) ← parse_spec fmt args;
  match fmt with
  | [] => None
  | c :: fmt' =>
      if (c =? "V"%ch) || (c =? "v"%ch) then
        match args with
        | Str v :: args' =>
            out ← ngx_sprintf_str room v (Some (length v)) (hex s); Some (out, fmt', args')
        | _ => None
        end
      else if c =? "s"%ch then
        match args with
        | Ptr p :: args' => out ← ngx_sprintf_str room p (slen s) (hex s); Some (out, fmt', args')
        | _ => None
        end
      else if c =? "c"%ch then
        match args with
        | Int d :: args' => Some ([u8 (Z.land d 0xff)], fmt', args')
        | _ => None
        end
      else if c =? "Z"%ch then Some ([0], fmt', args)
      else if c =? "N"%ch then Some ([LF], fmt', args)
      else if c =? "%"%ch then Some (["%"%ch], fmt', args)
      else if c =? "f"%ch then None
      else
        match int_conversion c 0 s with
        | None => Some ([c], fmt', args)
        | Some _ =>
            match args with
            | Int z :: args' =>
                '(s, v) ← int_conversion c z s;
                out ← put_int room s v;
                Some (out, fmt', args')
            | _ => None
            end
        end
  end.

(** [while ( *fmt && buf < last)]. *)
Fixpoint vslprintf_loop (fuel : nat) (room : option nat) (fmt : list Z) (args : list arg)
    : option (list Z) :=
  match fuel with
  | O => None
  | S fuel' =>
      match fmt with
      | [] => Some []
      | c :: fmt' =>
          if has_room room 1 then
            '(out, fmt, args) ← (if c =? "%"%ch then conversion room fmt' args
                                 else Some ([c], fmt', args));
            rest ← vslprintf_loop fuel' (spend room (length out)) fmt args;
            Some (out ++ rest)
          else Some []
      end
  end.

Definition ngx_vslprintf (room : option nat) (fmt : list Z) (args : list arg) : option (list Z) :=
  vslprintf_loop (S (length fmt)) room fmt args.

Definition ngx_sprintf (fmt : list Z) (args : list arg) := ngx_vslprintf None fmt args.
Definition ngx_snprintf (max : nat) (fmt : list Z) (args : list arg) :=
  ngx_vslprintf (Some max) fmt args.
Definition ngx_slprintf (room : nat) (fmt : list Z) (args : list arg) :=
  ngx_vslprintf (Some room) fmt args.

Example sprintf_mix :
  ngx_sprintf (bs "%V, %02d %5d [%xs] %ui %% %p|%-")
    [Str (bs "abc"); Int 7; Int (-42); Ptr [1; 0xab; 0]; Int (-1); Int 255]
  = Some (bs "abc, 07 -   42 [01ab] 18446744073709551615 % 00000000000000FF|-").
Proof. vm_compute. reflexivity. Qed.

(** When half a byte is left, the digits stop and the format goes on. *)
Example snprintf_odd_hex : ngx_snprintf 4 (bs "%*xs.") [Int 2; Ptr [0xab; 0xcd]] = Some (bs "abcd").
Proof. vm_compute. reflexivity. Qed.
Example snprintf_odd_hex' : ngx_snprintf 3 (bs "%*xs.") [Int 2; Ptr [0xab; 0xcd]] = Some (bs "ab.").
Proof. vm_compute. reflexivity. Qed.

(** ** Truncation *)

(** The digits, padded, whatever the room. *)
Definition padded (ui zero h width : Z) : option (list Z) :=
  q ← num_digits ui h; Some (replicate (Z.to_nat (width - Z.of_nat (length q))) zero ++ q).

Lemma ngx_sprintf_num_padded avail ui zero h width :
  ngx_sprintf_num avail ui zero h width = (take avail) <$> padded ui zero h width.
Proof.
  unfold padded. destruct (num_digits ui h) as [q|] eqn:Hq.
  - destruct (ngx_sprintf_num_eq avail ui zero h width q Hq) as (k & rest & Hk & Hmin & ->).
    cbn [mbind option_bind fmap option_fmap option_map]. f_equal. rewrite take_app, length_replicate.
    rewrite take_replicate. f_equal; [f_equal; lia|].
    destruct (decide (Z.to_nat (width - Z.of_nat (length q)) <= avail)%nat).
    + replace rest with (avail - Z.to_nat (width - Z.of_nat (length q)))%nat by lia.
      rewrite Nat.min_comm. destruct (decide (length q <= avail - Z.to_nat (width - Z.of_nat (length q)))%nat).
      * rewrite Nat.min_r, !take_ge by lia. done.
      * by rewrite Nat.min_l by lia.
    + replace (avail - Z.to_nat (width - Z.of_nat (length q)))%nat with 0%nat by lia.
      replace rest with 0%nat by lia. by rewrite Nat.min_0_r.
  - unfold ngx_sprintf_num. fold (num_digits ui h). by rewrite Hq.
Qed.

Lemma num_digits_some ui h : 0 <= ui < 2 ^ 64 -> exists q, num_digits ui h = Some q /\ (length q <= 20)%nat.
Proof.
  intros Hui. destruct (decide (h = 0)) as [->|Hh].
  - destruct (num_digits_dec ui) as (q & ? & ? & ? & ?); [done|]. eexists; split; [done|lia].
  - destruct (num_digits_hex ui h) as (q & ? & ? & ? & ? & ?); [done..|]. eexists; split; [done|lia].
Qed.

(** What a number is printed as, given any room. *)
Definition int_text (s : spec) (v : Z) : option (list Z) :=
  q ← padded (if sign s then u64 (if v <? 0 then - v else v) else v) (zero s) (hex s) (width s);
  Some ((if sign s && (v <? 0) then ["-"%ch] else []) ++ q).

Definition printable (s : spec) (v : Z) : Prop := sign s = true \/ 0 <= v < 2 ^ 64.

Lemma u64_range z : 0 <= u64 z < 2 ^ 64.
Proof. apply Z.mod_pos_bound. done. Qed.

Lemma has_room_le r n : has_room (Some r) n = true -> (n <= r)%nat.
Proof. apply Nat.leb_le. Qed.

Lemma put_int_text room s v :
  printable s v -> has_room room 1 = true -> exists out, int_text s v = Some out
  /\ put_int room s v = Some (match room with Some r => take r out | None => out end).
Proof.
  intros Hv Hroom. unfold int_text, put_int.
  set (ui := if sign s then u64 (if v <? 0 then - v else v) else v).
  assert (0 <= ui < 2 ^ 64) as Hui.
  { unfold ui. destruct (sign s) eqn:Hs; [apply u64_range|]. by destruct Hv as [Hv|]; [rewrite Hv in Hs|]. }
  destruct (num_digits_some ui (hex s) Hui) as (q & Hq & Hl).
  rewrite ngx_sprintf_num_padded. unfold padded. rewrite Hq.
  cbn [mbind option_bind fmap option_fmap option_map]. eexists. split; [done|]. f_equal.
  set (minus := if sign s && (v <? 0) then ["-"%ch] else []).
  assert (length minus <= 1)%nat as Hm by (unfold minus; by destruct (_ && _); cbn; lia).
  destruct room as [r|]; cbn [spend fmap option_fmap option_map default].
  - apply has_room_le in Hroom. by rewrite (take_app minus), (take_ge minus) by lia.
  - rewrite (take_ge (_ ++ q)); [done|]. rewrite length_app, length_replicate. unfold NGX_INT64_LEN. lia.
Qed.

(** Strings, but for those in hexadecimal. *)
Lemma copy_until_zero_take src : forall out r,
  copy_until_zero None src = Some out -> copy_until_zero (Some r) src = Some (take r out).
Proof.
  induction src as [|c src IH]; intros out r; cbn [copy_until_zero]; [done|].
  destruct (negb (c =? 0)); cbn [andb has_room spend fmap option_fmap option_map];
    [|by intros [= <-]; rewrite take_nil].
  destruct (copy_until_zero None src) as [out'|]; [|done]. cbn [mbind option_bind]. intros [= <-].
  destruct r as [|r]; [done|]. cbn [Nat.leb]. rewrite Nat.sub_succ, Nat.sub_0_r.
  by rewrite (IH out' r).
Qed.

Lemma ngx_sprintf_str_take src len out r :
  ngx_sprintf_str None src len 0 = Some out -> ngx_sprintf_str (Some r) src len 0 = Some (take r out).
Proof.
  unfold ngx_sprintf_str. cbn [Z.eqb]. destruct len as [len|]; [|apply copy_until_zero_take].
  destruct (Nat.leb_spec len (length src)); [|done]. intros [= <-].
  rewrite (proj2 (Nat.leb_le _ _)) by lia. by rewrite take_take.
Qed.

(** The room is never exceeded. *)
Definition within (room : option nat) (l : list Z) : Prop :=
  match room with Some r => (length l <= r)%nat | None => True end.

Lemma hex_until_zero_within h src : forall room out, hex_until_zero h room src = Some out -> within room out.
Proof.
  induction src as [|c src IH]; intros room out; cbn [hex_until_zero]; [done|].
  destruct (negb (c =? 0) && has_room room 2) eqn:Hr; [|intros [= <-]; by destruct room; cbn; lia].
  destruct (hex_until_zero h (spend room 2) src) as [out'|] eqn:Ho; [|done]. cbn. intros [= <-].
  apply IH in Ho. destruct room as [r|]; [|done]. apply andb_prop in Hr as [_ Hr].
  apply has_room_le in Hr. cbn in *. lia.
Qed.

Lemma hex_bytes_within h len : forall room src out, hex_bytes h room len src = Some out -> within room out.
Proof.
  induction len as [|len IH]; intros room src out; cbn [hex_bytes].
  { intros [= <-]. by destruct room; cbn; lia. }
  destruct (has_room room 2) eqn:Hr; [|intros [= <-]; by destruct room; cbn; lia].
  destruct src as [|c src]; [done|].
  destruct (hex_bytes h (spend room 2) len src) as [out'|] eqn:Ho; [|done]. cbn. intros [= <-].
  apply IH in Ho. destruct room as [r|]; [|done]. apply has_room_le in Hr. cbn in *. lia.
Qed.

Lemma copy_until_zero_within src : forall room out, copy_until_zero room src = Some out -> within room out.
Proof.
  induction src as [|c src IH]; intros room out; cbn [copy_until_zero]; [done|].
  destruct (negb (c =? 0) && has_room room 1) eqn:Hr; [|intros [= <-]; by destruct room; cbn; lia].
  destruct (copy_until_zero (spend room 1) src) as [out'|] eqn:Ho; [|done]. cbn. intros [= <-].
  apply IH in Ho. destruct room as [r|]; [|done]. apply andb_prop in Hr as [_ Hr].
  apply has_room_le in Hr. cbn in *. lia.
Qed.

Lemma ngx_sprintf_str_within room src len h out :
  ngx_sprintf_str room src len h = Some out -> within room out.
Proof.
  unfold ngx_sprintf_str. destruct (h =? 0), len as [len|].
  - case_match; [|done]. intros [= <-]. destruct room; [|done]. cbn. rewrite length_take. lia.
  - apply copy_until_zero_within.
  - apply hex_bytes_within.
  - apply hex_until_zero_within.
Qed.

(** No strings in hexadecimal: these leave half a byte unused. *)
Definition is_int (a : arg) : bool := match a with Int _ => true | _ => false end.
Definition not_x (c : Z) : bool := negb ((c =? "x"%ch) || (c =? "X"%ch)).
Definition plain (fmt : list Z) (args : list arg) : Prop :=
  forallb not_x fmt = true \/ forallb is_int args = true.

Lemma digits_not_x fmt : forall v, forallb not_x fmt = true -> forallb not_x (digits v fmt).2 = true.
Proof.
  induction fmt as [|c fmt IH]; intros v Hf; cbn [digits]; [done|].
  destruct (_ && _); [|done]. apply IH. by apply andb_prop in Hf as [_ ?].
Qed.

Lemma flags_plain fmt : forall s args s' fmt' args',
  flags s fmt args = Some (s', fmt', args') ->
  (forallb not_x fmt = true -> hex s' = hex s /\ forallb not_x fmt' = true)
  /\ (forallb is_int args = true -> forallb is_int args' = true).
Proof.
  induction fmt as [|c fmt IH]; intros s args s' fmt' args'; cbn [flags].
  { by intros [= <- <- <-]. }
  assert (forall s1 args1, flags s1 fmt args1 = Some (s', fmt', args') -> hex s1 = hex s ->
    (forallb is_int args = true -> forallb is_int args1 = true) ->
    (forallb not_x (c :: fmt) = true -> hex s' = hex s /\ forallb not_x fmt' = true)
    /\ (forallb is_int args = true -> forallb is_int args' = true)) as Hgen.
  { intros s1 args1 Hfl Hh Ha. destruct (IH _ _ _ _ _ Hfl) as [H1 H2]. rewrite Hh in H1. split; [|by auto].
    intros Hf. apply H1. by apply andb_prop in Hf as [_ ?]. }
  destruct (c =? "u"%ch); [by intros Hfl; eapply Hgen|].
  destruct (c =? "m"%ch); [by intros Hfl; eapply Hgen|].
  assert (c =? "X"%ch = true \/ c =? "x"%ch = true -> forallb not_x (c :: fmt) = false) as Hx.
  { cbn [forallb]. unfold not_x at 1. intros [-> | ->]; [by rewrite orb_true_r|done]. }
  destruct (c =? "X"%ch).
  { intros Hfl. rewrite Hx by (by left). split; [done|]. by destruct (IH _ _ _ _ _ Hfl). }
  destruct (c =? "x"%ch).
  { intros Hfl. rewrite Hx by (by right). split; [done|]. by destruct (IH _ _ _ _ _ Hfl). }
  destruct (c =? "."%ch).
  { destruct (digits (frac_width s) fmt) as [w f2] eqn:Hd. intros [= <- <- <-]. split; [|done].
    intros Hf. split; [done|]. apply andb_prop in Hf as [_ Hf].
    pose proof (digits_not_x fmt (frac_width s) Hf) as Hd2. by rewrite Hd in Hd2. }
  destruct (c =? "*"%ch).
  { destruct args as [|[] args1]; try done. intros Hfl. by eapply Hgen. }
  by intros [= <- <- <-].
Qed.

Lemma parse_spec_plain fmt args s fmt' args' :
  parse_spec fmt args = Some (s, fmt', args') -> plain fmt args ->
  plain fmt' args' /\ (hex s = 0 \/ forallb is_int args' = true).
Proof.
  unfold parse_spec. destruct (digits 0 fmt) as [w f] eqn:Hd. intros Hf.
  destruct (flags_plain _ _ _ _ _ _ Hf) as [H1 H2]. unfold plain. intros [Hp|Hp]; [|by auto].
  pose proof (digits_not_x fmt 0 Hp) as Hd2. rewrite Hd in Hd2. destruct (H1 Hd2) as [H3 H4]. auto.
Qed.

Lemma int_conversion_printable c z s s' v : int_conversion c z s = Some (s', v) -> printable s' v.
Proof.
  unfold int_conversion, printable. pose proof (u64_range z).
  assert (0 <= u32 z < 2 ^ 32) by by apply Z.mod_pos_bound.
  assert (forall f g, 0 <= g z < 2 ^ 64 -> Some (s, if sign s then f z else g z) = Some (s', v) ->
    sign s' = true \/ 0 <= v < 2 ^ 64) as He.
  { intros f g Hg [= <- <-]. destruct (sign s); [by left|by right]. }
  assert (forall s1, sign s1 = sign s -> Some (s1, if sign s then i64 z else u64 z) = Some (s', v) ->
    sign s' = true \/ 0 <= v < 2 ^ 64) as Hm.
  { intros s1 Hs1 [= <- <-]. rewrite Hs1. destruct (sign s); [by left|by right]. }
  destruct (c =? "O"%ch); [intros [= <- <-]; by left|].
  destruct (c =? "P"%ch); [intros [= <- <-]; by left|].
  destruct (c =? "T"%ch); [intros [= <- <-]; by left|].
  destruct (c =? "M"%ch).
  { destruct (u64 z =? 2 ^ 64 - 1); intros H1; simplify_eq; [by left|by right]. }
  destruct (c =? "z"%ch); [by apply He|].
  destruct (c =? "i"%ch); [apply Hm; by destruct (max_width s)|].
  destruct (c =? "d"%ch); [apply He; lia|].
  destruct (c =? "l"%ch); [by apply He|].
  destruct (c =? "D"%ch); [apply He; lia|].
  destruct (c =? "L"%ch); [by apply He|].
  destruct (c =? "A"%ch); [apply Hm; by destruct (max_width s)|].
  destruct (c =? "r"%ch); [intros [= <- <-]; by left|].
  destruct (c =? "p"%ch); [intros [= <- <-]; by right|done].
Qed.

Lemma plain_tail c fmt a args : plain (c :: fmt) (a :: args) -> plain fmt args.
Proof. intros [H|H]; apply andb_prop in H as [_ ?]; [by left|by right]. Qed.
Lemma plain_fmt c fmt args : plain (c :: fmt) args -> plain fmt args.
Proof. intros [H|H]; [left|by right]. by apply andb_prop in H as [_ ?]. Qed.

(** One specification, in a room that is not empty. *)
Lemma conversion_take fmt args out fmt' args' r :
  conversion None fmt args = Some (out, fmt', args') -> plain fmt args -> has_room (Some r) 1 = true ->
  conversion (Some r) fmt args = Some (take r out, fmt', args') /\ plain fmt' args'.
Proof.
  unfold conversion. intros Hc Hp Hr. apply has_room_le in Hr as Hr1.
  destruct (parse_spec fmt args) as [[[s f] a]|] eqn:Hs; [|done]. cbn [mbind option_bind] in *.
  destruct (parse_spec_plain _ _ _ _ _ Hs Hp) as [Hp' Hhex].
  destruct f as [|c f]; [done|].
  destruct ((c =? "V"%ch) || (c =? "v"%ch)).
  { destruct a as [|[| |v] a]; try done. destruct Hhex as [Hh|]; [rewrite Hh in *|done].
    apply bind_Some in Hc as (o & Ho & [= <- <- <-]).
    rewrite (ngx_sprintf_str_take _ _ _ r Ho). split; [done|]. by eapply plain_tail. }
  destruct (c =? "s"%ch).
  { destruct a as [|[|p|] a]; try done. destruct Hhex as [Hh|]; [rewrite Hh in *|done].
    apply bind_Some in Hc as (o & Ho & [= <- <- <-]).
    rewrite (ngx_sprintf_str_take _ _ _ r Ho). split; [done|]. by eapply plain_tail. }
  assert (forall x : Z, take r [x] = [x]) as Hone by (intros x; by rewrite take_ge by (cbn; lia)).
  destruct (c =? "c"%ch).
  { destruct a as [|[z| |] a]; try done. simplify_eq. rewrite Hone. split; [done|]. by eapply plain_tail. }
  destruct (c =? "Z"%ch); [simplify_eq; split; [by rewrite Hone|by eapply plain_fmt]|].
  destruct (c =? "N"%ch); [simplify_eq; split; [by rewrite Hone|by eapply plain_fmt]|].
  destruct (c =? "%"%ch); [simplify_eq; split; [by rewrite Hone|by eapply plain_fmt]|].
  destruct (c =? "f"%ch); [done|].
  destruct (int_conversion c 0 s); [|simplify_eq; split; [by rewrite Hone|by eapply plain_fmt]].
  destruct a as [|[z| |] a]; try done.
  destruct (int_conversion c z s) as [[s' v]|] eqn:Hi; [|done]. cbn [mbind option_bind] in *.
  pose proof (int_conversion_printable _ _ _ _ _ Hi) as Hpr.
  destruct (put_int_text None s' v Hpr eq_refl) as (o & Ho & Hn).
  destruct (put_int_text (Some r) s' v Hpr Hr) as (o2 & Ho2 & Hsome).
  rewrite Ho in Ho2. simplify_eq. rewrite Hn in Hc. rewrite Hsome. cbn [mbind option_bind] in *.
  simplify_eq. split; [done|]. by eapply plain_tail.
Qed.

Lemma conversion_within r fmt args out fmt' args' :
  conversion (Some r) fmt args = Some (out, fmt', args') -> has_room (Some r) 1 = true ->
  (length out <= r)%nat.
Proof.
  unfold conversion. intros Hc Hr. apply has_room_le in Hr as Hr1.
  destruct (parse_spec fmt args) as [[[s f] a]|] eqn:Hs; [|done]. cbn [mbind option_bind] in *.
  destruct f as [|c f]; [done|].
  destruct ((c =? "V"%ch) || (c =? "v"%ch)).
  { destruct a as [|[| |v] a]; try done. apply bind_Some in Hc as (o & Ho & [= <- _ _]).
    by apply ngx_sprintf_str_within in Ho. }
  destruct (c =? "s"%ch).
  { destruct a as [|[|p|] a]; try done. apply bind_Some in Hc as (o & Ho & [= <- _ _]).
    by apply ngx_sprintf_str_within in Ho. }
  destruct (c =? "c"%ch); [destruct a as [|[z| |] a]; try done; by simplify_eq|].
  destruct (c =? "Z"%ch); [by simplify_eq|].
  destruct (c =? "N"%ch); [by simplify_eq|].
  destruct (c =? "%"%ch); [by simplify_eq|].
  destruct (c =? "f"%ch); [done|].
  destruct (int_conversion c 0 s); [|by simplify_eq].
  destruct a as [|[z| |] a]; try done.
  destruct (int_conversion c z s) as [[s' v]|] eqn:Hi; [|done]. cbn [mbind option_bind] in *.
  destruct (put_int_text (Some r) s' v (int_conversion_printable _ _ _ _ _ Hi) Hr) as (o & Ho & Hsome).
  rewrite Hsome in Hc. cbn [mbind option_bind] in Hc. simplify_eq. rewrite length_take. lia.
Qed.

Lemma digits_length fmt : forall v, (length (digits v fmt).2 <= length fmt)%nat.
Proof.
  induction fmt as [|c fmt IH]; intros v; cbn [digits]; [done|]. destruct (_ && _); [|done].
  etrans; [apply IH|]. cbn. lia.
Qed.

Lemma flags_length fmt : forall s args s' fmt' args',
  flags s fmt args = Some (s', fmt', args') -> (length fmt' <= length fmt)%nat.
Proof.
  induction fmt as [|c fmt IH]; intros s args s' fmt' args'; cbn [flags length]; [by intros [= _ <- _]|].
  repeat (case_match; try (intros Hf; apply IH in Hf; lia)); try done;
    try (intros [= _ <- _]; cbn; lia).
  intros [= _ <- _]. match goal with H : digits ?v ?f = _ |- _ =>
    pose proof (digits_length f v) as Hl; rewrite H in Hl; cbn in Hl; lia end.
Qed.

Lemma conversion_length room fmt args out fmt' args' :
  conversion room fmt args = Some (out, fmt', args') -> (length fmt' <= length fmt)%nat.
Proof.
  unfold conversion, parse_spec. destruct (digits 0 fmt) as [w f] eqn:Hd.
  pose proof (digits_length fmt 0) as Hl. rewrite Hd in Hl. cbn in Hl.
  intros Hc. apply bind_Some in Hc as ([[s f2] a] & Hf%flags_length & Hc).
  destruct f2 as [|c f2]; [done|]. cbn in Hf.
  assert (fmt' = f2) as ->; [|lia].
  destruct ((c =? "V"%ch) || (c =? "v"%ch)).
  { destruct a as [|[| |v] a]; try done. by apply bind_Some in Hc as (? & _ & [= _ <- _]). }
  destruct (c =? "s"%ch).
  { destruct a as [|[|p|] a]; try done. by apply bind_Some in Hc as (? & _ & [= _ <- _]). }
  destruct (c =? "c"%ch); [destruct a as [|[] a]; by simplify_eq|].
  destruct (c =? "Z"%ch); [by simplify_eq|].
  destruct (c =? "N"%ch); [by simplify_eq|].
  destruct (c =? "%"%ch); [by simplify_eq|].
  destruct (c =? "f"%ch); [done|].
  destruct (int_conversion c 0 s) as [|]; [|by simplify_eq].
  destruct a as [|[z| |] a]; try done. apply bind_Some in Hc as ([s' v] & _ & Hc).
  by apply bind_Some in Hc as (? & _ & [= _ <- _]).
Qed.

(** The fuel is enough: more of it changes nothing. *)
Lemma vslprintf_loop_fuel fuel : forall fuel' room fmt args,
  (length fmt < fuel)%nat -> (length fmt < fuel')%nat ->
  vslprintf_loop fuel room fmt args = vslprintf_loop fuel' room fmt args.
Proof.
  induction fuel as [|fuel IH]; intros [|fuel'] room fmt args Hf Hf'; try lia. cbn [vslprintf_loop].
  destruct fmt as [|c fmt]; [done|]. destruct (has_room room 1); [|done]. cbn [length] in *.
  destruct (c =? "%"%ch).
  - destruct (conversion room fmt args) as [[[out f] a]|] eqn:Hc; [|done]. cbn [mbind option_bind].
    apply conversion_length in Hc. rewrite (IH fuel'); [done|lia|lia].
  - cbn [mbind option_bind]. rewrite (IH fuel'); [done|lia|lia].
Qed.

Lemma vslprintf_loop_take fuel : forall fmt args out r,
  vslprintf_loop fuel None fmt args = Some out -> plain fmt args ->
  vslprintf_loop fuel (Some r) fmt args = Some (take r out).
Proof.
  induction fuel as [|fuel IH]; intros fmt args out r; cbn [vslprintf_loop]; [done|].
  destruct fmt as [|c fmt]; [by intros [= <-]; rewrite take_nil|]. cbn [has_room].
  intros Hrun Hp. destruct r as [|r]; [done|].
  change (1 <=? S r)%nat with true. cbn iota.
  apply bind_Some in Hrun as ([[o f] a] & Hc & Hrun).
  apply bind_Some in Hrun as (rest & Hrest & [= <-]).
  assert ((if c =? "%"%ch then conversion (Some (S r)) fmt args else Some ([c], fmt, args))
    = Some (take (S r) o, f, a) /\ plain f a) as [-> Hp'].
  { apply plain_fmt in Hp. destruct (c =? "%"%ch); [by apply conversion_take|].
    simplify_eq. cbn [take]. by rewrite take_nil. }
  cbn [mbind option_bind spend fmap option_fmap option_map] in *.
  rewrite (IH _ _ _ (S r - length (take (S r) o))%nat Hrest Hp'). cbn [mbind option_bind]. f_equal.
  rewrite take_app, length_take. do 2 f_equal. lia.
Qed.

Lemma vslprintf_loop_within fuel : forall fmt args out r,
  vslprintf_loop fuel (Some r) fmt args = Some out -> (length out <= r)%nat.
Proof.
  induction fuel as [|fuel IH]; intros fmt args out r; cbn [vslprintf_loop]; [done|].
  destruct fmt as [|c fmt]; [intros [= <-]; cbn; lia|].
  destruct (has_room (Some r) 1) eqn:Hr; [|intros [= <-]; cbn; lia]. intros Hrun.
  apply bind_Some in Hrun as ([[o f] a] & Hc & Hrun).
  apply bind_Some in Hrun as (rest & Hrest & [= <-]). apply IH in Hrest.
  assert (length o <= r)%nat; [|rewrite length_app; lia].
  destruct (c =? "%"%ch); [by eapply conversion_within|]. simplify_eq. by apply has_room_le in Hr.
Qed.

