(* ===== verification/Times.v ===== *)
(** * Times: the calendar of ngx_times.c and ngx_parse_time.c

    [ngx_gmtime] with the printing of dates, [ngx_http_time] and
    [ngx_http_cookie_time], and the reading of the three formats of HTTP,
    [ngx_parse_http_time]. *)

From Stdlib Require Strings.String.
From S2P Require Import Prelude Numbers Printf.

(** ** From seconds to a date *)

Record ngx_tm_t := {
  tm_sec : Z;
  tm_min : Z;
  tm_hour : Z;
  tm_mday : Z;
  tm_mon : Z;
  tm_year : Z;
  tm_wday : Z;
}.

(** The variables are [ngx_uint_t], but for [yday]. *)
Definition ngx_gmtime (t : Z) : ngx_tm_t :=
  let t := if t <? 0 then 0 else t in
  let '(days, sec) :=
    if t / 86400 >? 2932896 then (2932896, 86399) else (t / 86400, t mod 86400) in
  let wday := (4 + days) mod 7 in
  let hour := sec / 3600 in
  let sec := sec mod 3600 in
  let min := sec / 60 in
  let sec := sec mod 60 in
  let days := u64 (days - (31 + 28) + 719527) in
  let year := u64 ((days + 2) * 400) / (365 * 400 + 100 - 4 + 1) in
  let yday := i64 (days - (365 * year + year / 4 - year / 100 + year / 400)) in
  let '(yday, year) :=
    if yday <? 0 then
      let leap := if (year mod 4 =? 0) && (negb (year mod 100 =? 0) || (year mod 400 =? 0))
                  then 1 else 0 in
      (365 + leap + yday, u64 (year - 1))
    else (yday, year) in
  let mon := (yday + 31) * 10 / 306 in
  let mday := u64 (yday - (367 * mon / 12 - 30) + 1) in
  let '(mon, year) := if yday >=? 306 then (u64 (mon - 10), year + 1) else (mon + 2, year) in
  {| tm_sec := sec; tm_min := min; tm_hour := hour; tm_mday := mday; tm_mon := mon;
     tm_year := year; tm_wday := wday |}.

(** ** Printing *)

(** A C string. *)
Definition cstr (s : String.string) : list Z := bs s ++ [0].
Arguments cstr s%_string_scope.

Definition week : list (list Z) :=
  [cstr "Sun"; cstr "Mon"; cstr "Tue"; cstr "Wed"; cstr "Thu"; cstr "Fri"; cstr "Sat"].
Definition months : list (list Z) :=
  [cstr "Jan"; cstr "Feb"; cstr "Mar"; cstr "Apr"; cstr "May"; cstr "Jun";
   cstr "Jul"; cstr "Aug"; cstr "Sep"; cstr "Oct"; cstr "Nov"; cstr "Dec"].

Definition ngx_http_time (t : Z) : option (list Z) :=
  let tm := ngx_gmtime t in
  w ← week !! Z.to_nat (tm_wday tm);
  m ← months !! Z.to_nat (tm_mon tm - 1);
  ngx_sprintf (bs "%s, %02d %s %4d %02d:%02d:%02d GMT")
    [Ptr w; Int (tm_mday tm); Ptr m; Int (tm_year tm); Int (tm_hour tm); Int (tm_min tm);
     Int (tm_sec tm)].

Definition ngx_http_cookie_time (t : Z) : option (list Z) :=
  let tm := ngx_gmtime t in
  w ← week !! Z.to_nat (tm_wday tm);
  m ← months !! Z.to_nat (tm_mon tm - 1);
  ngx_sprintf
    (if tm_year tm >? 2037 then bs "%s, %02d-%s-%d %02d:%02d:%02d GMT"
     else bs "%s, %02d-%s-%02d %02d:%02d:%02d GMT")
    [Ptr w; Int (tm_mday tm); Ptr m;
     Int (if tm_year tm >? 2037 then tm_year tm else tm_year tm mod 100);
     Int (tm_hour tm); Int (tm_min tm); Int (tm_sec tm)].

(** ** Reading

    A reader gives [None] when it would read out of the string, and [Some None] for
    [return NGX_ERROR]. *)

Definition reader (A : Type) : Type := option (option A).
Definition then_ {A B} (m : reader A) (f : A -> reader B) : reader B :=
  match m with Some (Some x) => f x | Some None => Some None | None => None end.
Notation "x <-! m ; k" := (then_ m (fun x => k))
  (at level 20, m at level 100, k at level 200, only parsing).
Notation "' x <-! m ; k" := (then_ m (fun x : _ => k))
  (at level 20, x pattern, m at level 100, k at level 200, only parsing).
Definition check (b : bool) : reader unit := if b then Some (Some tt) else Some None.

Inductive time_fmt := no | rfc822 | rfc850 | isoc.
#[export] Instance time_fmt_eq : EqDecision time_fmt.
Proof. solve_decision. Defined.

(** The loop to a comma or a space. *)
Fixpoint find_break (l : list Z) (p : nat) : nat * time_fmt :=
  match l with
  | [] => (p, no)
  | c :: l' => if c =? ","%ch then (p, no) else if c =? " "%ch then (p, isoc) else find_break l' (S p)
  end.

(** The loop over spaces. *)
Fixpoint skip_spaces (l : list Z) (p : nat) : nat :=
  match l with
  | [] => p
  | c :: l' => if c =? " "%ch then skip_spaces l' (S p) else p
  end.

Section Parse.
Variable value : list Z.

Definition at_ (p : nat) : reader Z := Some <$> value !! p.

Definition digit (p : nat) : reader Z :=
  c <-! at_ p; if (c <? "0"%ch) || (c >? "9"%ch) then Some None else Some (Some (c - "0"%ch)).

Definition two_digits (p : nat) : reader Z :=
  a <-! digit p; b <-! digit (p + 1); Some (Some (a * 10 + b)).
Definition four_digits (p : nat) : reader Z :=
  a <-! digit p; b <-! digit (p + 1); c <-! digit (p + 2); d <-! digit (p + 3);
  Some (Some (a * 1000 + b * 100 + c * 10 + d)).

(** The [switch] on the first letter of the month. *)
Definition month_at (p : nat) : reader Z :=
  c <-! at_ p;
  if c =? "J"%ch then
    c1 <-! at_ (p + 1);
    if c1 =? "a"%ch then Some (Some 0)
    else c2 <-! at_ (p + 2); Some (Some (if c2 =? "n"%ch then 5 else 6))
  else if c =? "F"%ch then Some (Some 1)
  else if c =? "M"%ch then c2 <-! at_ (p + 2); Some (Some (if c2 =? "r"%ch then 2 else 4))
  else if c =? "A"%ch then c1 <-! at_ (p + 1); Some (Some (if c1 =? "p"%ch then 3 else 7))
  else if c =? "S"%ch then Some (Some 8)
  else if c =? "O"%ch then Some (Some 9)
  else if c =? "N"%ch then Some (Some 10)
  else if c =? "D"%ch then Some (Some 11)
  else Some None.

(** The day, for the formats that begin with it; the format, the day and [p]. *)
Definition day_first (fmt : time_fmt) (p : nat) : reader (time_fmt * Z * nat) :=
  if decide (fmt = isoc) then Some (Some (fmt, 0, p))
  else
    day <-! two_digits p;
    let p := (p + 2)%nat in
    c <-! at_ p;
    fmt <-! (if c =? " "%ch then
               (if (length value <? p + 18)%nat then Some None else Some (Some rfc822))
             else if c =? "-"%ch then Some (Some rfc850)
             else Some None);
    Some (Some (fmt, day, (p + 1)%nat)).

(** The year, or the day of the format that has the year last. *)
Definition year_or_day (fmt : time_fmt) (day : Z) (p : nat) : reader (Z * Z * nat) :=
  match fmt with
  | rfc822 => year <-! four_digits p; Some (Some (day, year, (p + 4)%nat))
  | rfc850 =>
      year <-! two_digits p;
      Some (Some (day, year + (if year <? 70 then 2000 else 1900), (p + 2)%nat))
  | isoc =>
      c <-! at_ p;
      let p := if c =? " "%ch then (p + 1)%nat else p in
      day <-! digit p;
      let p := (p + 1)%nat in
      c <-! at_ p;
      '(day, p) <-! (if negb (c =? " "%ch)
                     then d <-! digit p; Some (Some (day * 10 + d, (p + 1)%nat))
                     else Some (Some (day, p)));
      if (length value <? p + 14)%nat then Some None else Some (Some (day, 0, p))
  | no => Some (Some (day, 0, p))
  end.

Definition mday : list Z := [31; 28; 31; 30; 31; 30; 31; 31; 30; 31; 30; 31].

(** The checks of the day in its month. *)
Definition day_ok (day month year : Z) : reader unit :=
  if (day =? 29) && (month =? 1) then
    check (negb (negb (Z.land year 3 =? 0) || ((year mod 100 =? 0) && negb (year mod 400 =? 0))))
  else
    match mday !! Z.to_nat month with Some d => check (negb (day >? d)) | None => None end.

(** Gauss' formula. *)
Definition http_time_value (year month day hour min sec : Z) : Z :=
  let month := month - 1 in
  let '(month, year) := if month <=? 0 then (month + 12, u64 (year - 1)) else (month, year) in
  u64 (u64 (365 * year + year / 4 - year / 100 + year / 400 + (367 * month / 12 - 30) + day - 1
            - 719527 + 31 + 28) * 86400 + hour * 3600 + min * 60 + sec).

Definition parse_http_time : reader Z :=
  let '(p, fmt) := find_break value 0 in
  let p := skip_spaces (drop (p + 1) value) (p + 1) in
  if (length value <? p + 18)%nat then Some None
  else
    '(fmt, day, p) <-! day_first fmt p;
    month <-! month_at p;
    let p := (p + 3)%nat in
    c <-! at_ p;
    _ <-! check (negb ((bool_decide (fmt = rfc822) && negb (c =? " "%ch))
                       || (bool_decide (fmt = rfc850) && negb (c =? "-"%ch))));
    '(day, year, p) <-! year_or_day fmt day (p + 1)%nat;
    c <-! at_ p;
    _ <-! check (c =? " "%ch);
    hour <-! two_digits (p + 1)%nat;
    c <-! at_ (p + 3)%nat;
    _ <-! check (c =? ":"%ch);
    min <-! two_digits (p + 4)%nat;
    c <-! at_ (p + 6)%nat;
    _ <-! check (c =? ":"%ch);
    sec <-! two_digits (p + 7)%nat;
    year <-! (if decide (fmt = isoc) then
                c <-! at_ (p + 9)%nat; _ <-! check (c =? " "%ch); four_digits (p + 10)%nat
              else Some (Some year));
    _ <-! check (negb ((hour >? 23) || (min >? 59) || (sec >? 59)));
    _ <-! day_ok day month year;
    Some (Some (i64 (http_time_value year month day hour min sec))).

(** [None] is a read out of the string. *)
Definition ngx_parse_http_time : option Z := default NGX_ERROR <$> parse_http_time.
End Parse.

Example http_time_epoch : ngx_http_time 784111777 = Some (bs "Sun, 06 Nov 1994 08:49:37 GMT").
Proof. vm_compute. reflexivity. Qed.
Example cookie_time : ngx_http_cookie_time 784111777 = Some (bs "Sun, 06-Nov-94 08:49:37 GMT").
Proof. vm_compute. reflexivity. Qed.
Example parse_http_times :
  map ngx_parse_http_time
    [bs "Sun, 06 Nov 1994 08:49:37 GMT"; bs "Sunday, 06-Nov-94 08:49:37 GMT";
     bs "Sun Nov  6 08:49:37 1994"; bs "Sun, 29 Feb 1900 08:49:37 GMT"; bs "x"]
  = [Some 784111777; Some 784111777; Some 784111777; Some NGX_ERROR; Some NGX_ERROR].
Proof. vm_compute. reflexivity. Qed.

(** Day zero is taken for the day before the first. *)
Example day_zero : ngx_parse_http_time (bs "Sun, 00 Nov 1994 08:49:37 GMT")
  = ngx_parse_http_time (bs "Sun, 31 Oct 1994 08:49:37 GMT").
Proof. vm_compute. reflexivity. Qed.

(** ** The calendar *)

Definition date : Type := Z * Z * Z.

Definition leap (y : Z) : bool := (y mod 4 =? 0) && (negb (y mod 100 =? 0) || (y mod 400 =? 0)).
Definition month_length (y m : Z) : Z :=
  if m =? 2 then 28 + Z.b2z (leap y)
  else if (m =? 4) || (m =? 6) || (m =? 9) || (m =? 11) then 30 else 31.

Definition next_day (d : date) : date :=
  let '(y, m, d) := d in
  if d <? month_length y m then (y, m, d + 1)
  else if m <? 12 then (y, m + 1, 1) else (y + 1, 1, 1).

(** The date [n] days after January 1, 1970. *)
Definition date_after (n : nat) : date := Nat.iter n next_day (1970, 1, 1).

Definition valid_date (d : date) : Prop :=
  let '(y, m, d) := d in 1 <= m <= 12 /\ 1 <= d <= month_length y m.

(** Years and months counted from March. *)
Definition march_year (y m : Z) : Z := if m <=? 2 then y - 1 else y.
Definition march_month (m : Z) : Z := if m <=? 2 then m + 10 else m - 2.
Definition days_in_years (y : Z) : Z := 365 * y + y / 4 - y / 100 + y / 400.
Definition year_day (m d : Z) : Z := 367 * march_month m / 12 - 30 + d - 1.

Definition day_number (d : date) : Z :=
  let '(y, m, d) := d in days_in_years (march_year y m) + year_day m d - 719527 + 31 + 28.

Lemma days_in_years_step y : days_in_years y = days_in_years (y - 1) + 365 + Z.b2z (leap y).
Proof.
  unfold days_in_years, leap.
  destruct (Z.eqb_spec (y mod 4) 0), (Z.eqb_spec (y mod 100) 0), (Z.eqb_spec (y mod 400) 0);
    cbn [andb orb negb Z.b2z]; lia_mod.
Qed.

Ltac each_month m :=
  assert (m = 1 \/ m = 2 \/ m = 3 \/ m = 4 \/ m = 5 \/ m = 6 \/ m = 7 \/ m = 8 \/ m = 9
          \/ m = 10 \/ m = 11 \/ m = 12) as Hcases by lia;
  destruct Hcases as [->|[->|[->|[->|[->|[->|[->|[->|[->|[->|[->| ->]]]]]]]]]]].

Lemma month_length_range y m : 28 <= month_length y m <= 31.
Proof. unfold month_length. destruct (leap y); repeat case_match; cbn [Z.b2z]; lia. Qed.

(** Sums and differences of constants. *)
Ltac ground_sums :=
  repeat match goal with
  | |- context [Z.add (Zpos ?a) (Zpos ?b)] =>
      let v := eval vm_compute in (Z.add (Zpos a) (Zpos b)) in change (Z.add (Zpos a) (Zpos b)) with v
  | |- context [Z.sub (Zpos ?a) (Zpos ?b)] =>
      let v := eval vm_compute in (Z.sub (Zpos a) (Zpos b)) in change (Z.sub (Zpos a) (Zpos b)) with v
  end.

(** The last day of a month and the first of the next one. *)
Lemma month_turn y m : 1 <= m <= 12 ->
  let '(y', m') := if m <? 12 then (y, m + 1) else (y + 1, 1) in
  day_number (y', m', 1) = day_number (y, m, month_length y m) + 1.
Proof.
  intros Hm. pose proof (days_in_years_step y) as Hy. unfold day_number, year_day.
  assert (y + 1 - 1 = y) as Hp by lia.
  each_month m; cbn -[days_in_years leap march_year march_month]; ground_sums;
    cbn -[days_in_years leap]; ground_sums; rewrite ?Hp; lia_mod.
Qed.

Lemma next_day_number d : valid_date d -> valid_date (next_day d) /\ day_number (next_day d) = day_number d + 1.
Proof.
  destruct d as [[y m] d]. intros [Hm Hd]. unfold next_day.
  destruct (Z.ltb_spec d (month_length y m)) as [Hl|Hl].
  - split; [split; lia|]. unfold day_number, year_day. lia.
  - assert (d = month_length y m) as -> by lia. pose proof (month_turn y m Hm) as Ht.
    destruct (Z.ltb_spec m 12); (split; [|done]).
    + pose proof (month_length_range y (m + 1)). split; lia.
    + pose proof (month_length_range (y + 1) 1). split; lia.
Qed.

Lemma date_after_number n : valid_date (date_after n) /\ day_number (date_after n) = Z.of_nat n.
Proof.
  induction n as [|n [Hv Hn]]; [done|]. destruct (next_day_number _ Hv) as [Hv' Hn'].
  split; [done|]. change (day_number (next_day (date_after n)) = Z.of_nat (S n)). lia.
Qed.

Lemma date_after_year n : let '(y, m, d) := date_after n in 1970 <= y <= 1970 + Z.of_nat n.
Proof.
  induction n as [|n IH]; [cbn; lia|]. change (date_after (S n)) with (next_day (date_after n)).
  destruct (date_after n) as [[y m] d]. unfold next_day. repeat case_match; simplify_eq; lia.
Qed.

(** *** The formulas of [ngx_gmtime] invert the count *)

Lemma year_day_range y m d :
  1 <= m <= 12 -> 1 <= d <= month_length y m ->
  0 <= year_day m d < 365 + Z.b2z (leap (march_year y m + 1))
  /\ (year_day m d + 31) * 10 / 306 = march_month m
  /\ (march_year y m + if year_day m d >=? 306 then 1 else 0) = y.
Proof.
  intros Hm Hd. unfold year_day. each_month m; cbn -[leap Z.add Z.sub Z.div Z.mul Z.geb] in *;
    try (replace (y - 1 + 1) with y by lia).
  all: match goal with |- context [367 * ?k / 12] => let v := eval vm_compute in (367 * k / 12) in
    change (367 * k / 12) with v end.
  all: destruct (leap y) eqn:Hlp; cbn [Z.b2z] in *; split_and!; try lia;
    try (destruct (leap (y + 1)); cbn [Z.b2z]; lia); try lia_mod; case_match; lia.
Qed.

(** The quotient of [ngx_gmtime] is the year, or the next one. *)
Lemma year_found y yd :
  0 <= y -> 0 <= yd <= 365 ->
  let q := (days_in_years y + yd + 2) * 400 / 146097 in q = y \/ q = y + 1.
Proof.
  intros Hy Hyd q.
  assert (146097 * y <= (days_in_years y + yd + 2) * 400 < 146097 * (y + 2)) as Hb.
  { unfold days_in_years. lia_mod. }
  assert (y <= q < y + 2); [|lia]. unfold q. split.
  - apply Z.div_le_lower_bound; lia.
  - apply Z.div_lt_upper_bound; lia.
Qed.

Definition tm_date (tm : ngx_tm_t) : date := (tm_year tm, tm_mon tm, tm_mday tm).

(** The last second of the year 9999. *)
Definition LAST_TIME : Z := 253402300799.

Lemma days_in_years_range y : 0 <= y <= 2 ^ 32 -> 0 <= days_in_years y <= 2 ^ 42.
Proof. unfold days_in_years. intros Hy. lia_mod. Qed.

(** The month and the day in it. *)
Lemma month_found y m d :
  1 <= m <= 12 -> 1 <= d <= month_length y m -> 0 <= y <= 2 ^ 32 ->
  let yday := year_day m d in let year := march_year y m in
  u64 (yday - (367 * march_month m / 12 - 30) + 1) = d
  /\ (if yday >=? 306 then (u64 (march_month m - 10), year + 1) else (march_month m + 2, year)) = (m, y).
Proof.
  intros Hm Hd Hy. cbv zeta. pose proof (month_length_range y m).
  destruct (year_day_range y m d Hm Hd) as (Hyd & Hmon & Hyear). split.
  - unfold year_day. rewrite u64_small; lia.
  - unfold march_year, march_month in *.
    destruct (year_day m d >=? 306); destruct (Z.leb_spec m 2); f_equal;
      try (rewrite u64_small by lia); lia.
Qed.

(** What is done with a number of days that is that of a date. *)
Lemma ngx_gmtime_date t y m d :
  0 <= t <= LAST_TIME -> valid_date (y, m, d) -> 1970 <= y <= 2 ^ 32 ->
  day_number (y, m, d) = t / 86400 ->
  ngx_gmtime t = {| tm_sec := t mod 86400 mod 3600 mod 60; tm_min := t mod 86400 mod 3600 / 60;
                    tm_hour := t mod 86400 / 3600; tm_mday := d; tm_mon := m; tm_year := y;
                    tm_wday := (4 + t / 86400) mod 7 |}.
Proof.
  intros Ht [Hm Hd] Hy Hn. unfold LAST_TIME in Ht.
  destruct (year_day_range y m d Hm Hd) as (Hyd & Hmon & _).
  destruct (month_found y m d Hm Hd ltac:(lia)) as [Hday Hmy]. cbv zeta in Hday, Hmy.
  set (y' := march_year y m) in *. set (yd := year_day m d) in *.
  assert (1969 <= y' <= 2 ^ 32) as Hy' by (unfold y', march_year; destruct (m <=? 2); lia).
  pose proof (days_in_years_range y' ltac:(lia)) as Hr.
  assert (0 <= yd <= 365) as Hyd2 by (destruct (leap (y' + 1)); cbn [Z.b2z] in Hyd; lia).
  unfold ngx_gmtime. test_false (t <? 0). test_false (t / 86400 >? 2932896).
  cbv zeta. cbn iota. unfold day_number in Hn. fold y' yd in Hn.
  replace (t / 86400 - (31 + 28) + 719527) with (days_in_years y' + yd) by lia.
  rewrite (u64_small (days_in_years y' + yd)) by lia.
  rewrite (u64_small ((days_in_years y' + yd + 2) * 400)) by lia.
  change (365 * 400 + 100 - 4 + 1) with 146097.
  destruct (year_found y' yd ltac:(lia) Hyd2) as [-> | ->].
  - fold (days_in_years y').
    replace (days_in_years y' + yd - days_in_years y') with yd by lia. rewrite i64_small by lia.
    test_false (yd <? 0). cbv zeta. cbn iota. rewrite Hmon. fold y'. rewrite Hday. by rewrite Hmy.
  - assert (leap (y' + 1) = ((y' + 1) mod 4 =? 0) && (negb ((y' + 1) mod 100 =? 0) || ((y' + 1) mod 400 =? 0))) as Hl by done.
    fold (leap (y' + 1)) (days_in_years (y' + 1)).
    pose proof (days_in_years_step (y' + 1)) as Hstep. replace (y' + 1 - 1) with y' in Hstep by lia.
    rewrite Hstep. rewrite i64_small by (destruct (leap (y' + 1)); cbn [Z.b2z] in *; lia).
    test_true (days_in_years y' + yd - (days_in_years y' + 365 + Z.b2z (leap (y' + 1))) <? 0).
    cbn iota. replace (365 + (if leap (y' + 1) then 1 else 0)
      + (days_in_years y' + yd - (days_in_years y' + 365 + Z.b2z (leap (y' + 1))))) with yd
      by (destruct (leap (y' + 1)); cbn [Z.b2z]; lia).
    replace (y' + 1 - 1) with y' by lia. rewrite (u64_small y') by lia.
    rewrite Hmon. rewrite Hday. by rewrite Hmy.
Qed.

Lemma ngx_gmtime_after t : 0 <= t <= LAST_TIME ->
  let tm := ngx_gmtime t in
  tm_date tm = date_after (Z.to_nat (t / 86400)) /\ tm_wday tm = (4 + t / 86400) mod 7
  /\ tm_hour tm = t mod 86400 / 3600 /\ tm_min tm = t mod 86400 mod 3600 / 60
  /\ tm_sec tm = t mod 86400 mod 3600 mod 60.
Proof.
  intros Ht tm. subst tm. destruct (date_after_number (Z.to_nat (t / 86400))) as [Hv Hn].
  pose proof (date_after_year (Z.to_nat (t / 86400))) as Hy. unfold LAST_TIME in Ht.
  assert (0 <= t / 86400 <= 2932896) as Hd by lia_mod.
  destruct (date_after (Z.to_nat (t / 86400))) as [[y m] d]. rewrite Z2Nat.id in Hn, Hy by lia.
  rewrite (ngx_gmtime_date t y m d) by (unfold LAST_TIME; done || lia). done.
Qed.

Lemma ngx_gmtime_clamp t : ngx_gmtime t = ngx_gmtime (Z.max 0 (Z.min t LAST_TIME)).
Proof.
  unfold LAST_TIME. destruct (decide (t < 0)) as [Hlt|Hge].
  - replace (Z.max 0 _) with 0 by lia. unfold ngx_gmtime. by test_true (t <? 0).
  - destruct (decide (t <= 253402300799)) as [Hle|Hgt]; [by replace (Z.max 0 _) with t by lia|].
    replace (Z.max 0 _) with 253402300799 by lia. unfold ngx_gmtime. test_false (t <? 0).
    test_true (t / 86400 >? 2932896). reflexivity.
Qed.

(** C31: [ngx_gmtime] is the calendar.  The date it gives, by Gauss' formulas, is the
    one reached from January 1, 1970 by going from each day to the next, month by
    month and leap years included, up to the end of the year 9999; earlier and later
    times give the first and the last second.  The day of the week counts from a
    Thursday, and hours, minutes and seconds add up to the rest. *)
Theorem ngx_gmtime_calendar (t : Z) :
  let s := Z.max 0 (Z.min t LAST_TIME) in
  let tm := ngx_gmtime t in
  tm_date tm = date_after (Z.to_nat (s / 86400))
  /\ tm_wday tm = (4 + s / 86400) mod 7
  /\ 0 <= tm_hour tm < 24 /\ 0 <= tm_min tm < 60 /\ 0 <= tm_sec tm < 60
  /\ tm_hour tm * 3600 + tm_min tm * 60 + tm_sec tm = s mod 86400.
Proof.
  intros s tm. subst tm. rewrite ngx_gmtime_clamp. fold s.
  assert (0 <= s <= LAST_TIME) as Hs by (unfold s, LAST_TIME; lia).
  destruct (ngx_gmtime_after s Hs) as (-> & -> & -> & -> & ->). split; [done|]. split; [done|].
  clearbody s. clear Hs. lia_mod.
Qed.

(** ** The value of a date *)

Lemma http_time_value_date y m d hour min sec :
  valid_date (y, m, d) -> 1 <= y <= 9999 -> 0 <= hour < 24 -> 0 <= min < 60 -> 0 <= sec < 60 ->
  i64 (http_time_value y (m - 1) d hour min sec)
  = day_number (y, m, d) * 86400 + hour * 3600 + min * 60 + sec.
Proof.
  intros [Hm Hd] Hy Hh Hmin Hs. destruct (year_day_range y m d Hm Hd) as (Hyd & _ & _).
  assert (0 <= march_year y m <= 9999) as Hy' by (unfold march_year; destruct (m <=? 2); lia).
  pose proof (days_in_years_range (march_year y m) ltac:(lia)) as Hr.
  set (n := day_number (y, m, d)).
  assert (http_time_value y (m - 1) d hour min sec = u64 (u64 n * 86400 + hour * 3600 + min * 60 + sec)) as ->.
  { unfold http_time_value.
    assert ((if m - 1 - 1 <=? 0 then (m - 1 - 1 + 12, u64 (y - 1)) else (m - 1 - 1, y))
      = (march_month m, march_year y m)) as ->.
    { unfold march_month, march_year. destruct (Z.leb_spec (m - 1 - 1) 0), (Z.leb_spec m 2); try lia;
        f_equal; try lia. rewrite u64_small by lia. lia. }
    f_equal. do 4 f_equal. unfold n, day_number, days_in_years, year_day. f_equal. lia. }
  assert (-2 ^ 40 < n < 2 ^ 43) as Hn.
  { unfold n, day_number. destruct (leap _); cbn [Z.b2z] in Hyd; lia. }
  unfold u64, i64. clearbody n. lia_mod.
Qed.

(** ** Reading any bytes *)

(** A reader stays in the string, and what it gives satisfies [P]. *)
Definition reads {A} (m : reader A) (P : A -> Prop) : Prop :=
  match m with None => False | Some None => True | Some (Some x) => P x end.

Lemma reads_then {A B} (m : reader A) (f : A -> reader B) P Q :
  reads m P -> (forall x, P x -> reads (f x) Q) -> reads (then_ m f) Q.
Proof. destruct m as [[x|]|]; cbn; auto. Qed.

Lemma reads_imp {A} (m : reader A) (P Q : A -> Prop) :
  reads m P -> (forall x, P x -> Q x) -> reads m Q.
Proof. destruct m as [[x|]|]; cbn; auto. Qed.

Lemma reads_check b : reads (check b) (fun _ => b = true).
Proof. by destruct b. Qed.

Section Reads.
Variable value : list Z.

Lemma reads_at p : (p < length value)%nat -> reads (at_ value p) (fun _ => True).
Proof. intros Hp. unfold at_. by destruct (lookup_lt_is_Some_2 _ _ Hp) as [c ->]. Qed.

Lemma reads_digit p : (p < length value)%nat -> reads (digit value p) (fun x => 0 <= x <= 9).
Proof.
  intros Hp. eapply reads_then; [by apply reads_at|]. intros c _.
  destruct (c <? 48) eqn:H1; [done|]. destruct (c >? 57) eqn:H2; [done|]. cbn. lia.
Qed.

Lemma reads_two p : (p + 1 < length value)%nat -> reads (two_digits value p) (fun x => 0 <= x <= 99).
Proof.
  intros Hp. eapply reads_then; [apply reads_digit; lia|]. intros a Ha.
  eapply reads_then; [apply reads_digit; lia|]. intros b Hb. cbn [reads]. cbv beta in *. lia.
Qed.

Lemma reads_four p : (p + 3 < length value)%nat -> reads (four_digits value p) (fun x => 0 <= x <= 9999).
Proof.
  intros Hp. eapply reads_then; [apply reads_digit; lia|]. intros a Ha.
  eapply reads_then; [apply reads_digit; lia|]. intros b Hb.
  eapply reads_then; [apply reads_digit; lia|]. intros c Hc.
  eapply reads_then; [apply reads_digit; lia|]. intros d Hd. cbn [reads]. cbv beta in *. lia.
Qed.

Lemma reads_month p : (p + 2 < length value)%nat -> reads (month_at value p) (fun x => 0 <= x <= 11).
Proof.
  intros Hp. eapply reads_then; [apply reads_at; lia|]. intros c _.
  destruct (c =? 74).
  { eapply reads_then; [apply reads_at; lia|]. intros c1 _. destruct (c1 =? 97); [cbn; lia|].
    eapply reads_then; [apply reads_at; lia|]. intros c2 _. destruct (c2 =? 110); cbn; lia. }
  destruct (c =? 70); [cbn; lia|].
  destruct (c =? 77).
  { eapply reads_then; [apply reads_at; lia|]. intros c2 _. destruct (c2 =? 114); cbn; lia. }
  destruct (c =? 65).
  { eapply reads_then; [apply reads_at; lia|]. intros c1 _. destruct (c1 =? 112); cbn; lia. }
  do 4 (case_match; [cbn; lia|]). done.
Qed.

(** How much is left after the day and after the year, for each format. *)
Lemma reads_day_first fmt p : fmt <> rfc822 -> fmt <> rfc850 -> (p + 18 <= length value)%nat ->
  reads (day_first value fmt p) (fun r => let '(f, day, q) := r in
    0 <= day <= 99 /\ match f with
    | isoc => (q + 18 <= length value)%nat
    | rfc822 => (q + 17 <= length value)%nat
    | rfc850 => (q + 15 <= length value)%nat
    | no => False
    end).
Proof.
  intros H1 H2 Hp. unfold day_first. destruct (decide (fmt = isoc)) as [->|Hf]; [cbn; lia|].
  eapply reads_then; [apply reads_two; lia|]. intros day Hday.
  eapply reads_then; [apply reads_at; lia|]. intros c _.
  eapply (reads_then _ _ (fun f => match f with rfc822 => (p + 2 + 18 <= length value)%nat
                                   | rfc850 => True | _ => False end)).
  - destruct (c =? 32); [destruct (Nat.ltb_spec (length value) (p + 2 + 18)); [done|cbn; lia]|].
    by destruct (c =? 45).
  - intros f Hff. cbn. split; [done|]. destruct f; try done; lia.
Qed.

Lemma reads_year_or_day fmt day p : 0 <= day <= 99 ->
  match fmt with
  | isoc => (p + 14 <= length value)%nat
  | rfc822 => (p + 13 <= length value)%nat
  | rfc850 => (p + 11 <= length value)%nat
  | no => False
  end ->
  reads (year_or_day value fmt day p) (fun r => let '(day, year, q) := r in
    0 <= day <= 99 /\ 0 <= year <= 9999
    /\ (q + (if decide (fmt = isoc) then 14 else 9) <= length value)%nat).
Proof.
  intros Hday Hp. destruct fmt; [done|..]; cbn [year_or_day].
  - eapply reads_then; [apply reads_four; lia|]. intros y Hy. cbv beta in *. cbn [reads].
    rewrite decide_False by done. lia.
  - eapply reads_then; [apply reads_two; lia|]. intros y Hy. cbv beta in *. cbn [reads].
    rewrite decide_False by done. destruct (y <? 70); lia.
  - eapply reads_then; [apply reads_at; lia|]. intros c _. cbv zeta.
    set (p1 := if c =? 32 then (p + 1)%nat else p).
    assert (p1 <= p + 1)%nat as Hp1 by (unfold p1; destruct (c =? 32); lia).
    eapply reads_then; [apply reads_digit; lia|]. intros d Hd. cbv beta in Hd.
    eapply reads_then; [apply reads_at; lia|]. intros c1 _.
    eapply (reads_then _ _ (fun r => 0 <= r.1 <= 99)).
    + destruct (negb (c1 =? 32)); [|cbn; lia].
      eapply reads_then; [apply reads_digit; lia|]. intros d2 Hd2. cbv beta in *. cbn [reads snd fst]. lia.
    + intros [d3 q] Hd3. cbn in Hd3. destruct (Nat.ltb_spec (length value) (q + 14)); [done|].
      cbn [reads]. rewrite decide_True by done. cbn [fst] in Hd3. lia.
Qed.

Lemma reads_day_ok day month year : 0 <= month <= 11 -> 0 <= year ->
  reads (day_ok day month year) (fun _ => day <= month_length year (month + 1)).
Proof.
  intros Hm Hy. unfold day_ok. destruct ((day =? 29) && (month =? 1)) eqn:H29.
  - apply andb_prop in H29 as [->%Z.eqb_eq ->%Z.eqb_eq].
    eapply reads_imp; [apply reads_check|]. intros [] Hc. cbv beta in Hc. unfold month_length, leap. cbn [Z.eqb Z.add].
    change (1 + 1 =? 2) with true. cbn iota. change 3 with (Z.ones 2) in Hc. rewrite land_ones_mod in Hc by lia.
    change (2 ^ 2) with 4 in Hc.
    destruct (year mod 4 =? 0), (year mod 100 =? 0), (year mod 400 =? 0); try done; cbn; lia.
  - assert (exists d, mday !! Z.to_nat month = Some d /\ (d = month_length year (month + 1)
      \/ month = 1 /\ d = 28)) as (d & -> & Hd).
    { unfold month_length. assert (month = 0 \/ month = 1 \/ month = 2 \/ month = 3 \/ month = 4
        \/ month = 5 \/ month = 6 \/ month = 7 \/ month = 8 \/ month = 9 \/ month = 10 \/ month = 11)
        as Hc by lia.
      destruct Hc as [->|[->|[->|[->|[->|[->|[->|[->|[->|[->|[->| ->]]]]]]]]]]];
        eexists; (split; [reflexivity|]); (left; reflexivity) || by right. }
    eapply reads_imp; [apply reads_check|]. intros [] Hc. cbv beta in Hc. apply negb_true_iff in Hc.
    destruct Hd as [->|[-> ->]]; [lia|]. unfold month_length. change (1 + 1 =? 2) with true.
    cbn iota. destruct (leap year); cbn [Z.b2z]; lia.
Qed.
End Reads.

Lemma find_break_length l p : (p <= (find_break l p).1 <= p + length l)%nat
  /\ ((find_break l p).2 = no \/ (find_break l p).2 = isoc).
Proof.
  revert p. induction l as [|c l IH]; intros p; cbn [find_break length]; [split; [cbn; lia|by left]|].
  destruct (c =? 44); [cbn; split; [lia|by left]|]. destruct (c =? 32); [cbn; split; [lia|by right]|].
  specialize (IH (S p)). split; [lia|apply IH].
Qed.

Lemma parse_http_time_reads value :
  reads (parse_http_time value) (fun r => exists y m d hour min sec,
    r = i64 (http_time_value y (m - 1) d hour min sec)
    /\ 0 <= y <= 9999 /\ 1 <= m <= 12 /\ 0 <= d <= month_length y m
    /\ 0 <= hour < 24 /\ 0 <= min < 60 /\ 0 <= sec < 60).
Proof.
  unfold parse_http_time. destruct (find_break_length value 0) as [_ Hfmt].
  destruct (find_break value 0) as [p fmt]. cbn [snd] in Hfmt. generalize (p + 1)%nat as p0. clear p. intros p0.
  generalize (skip_spaces (drop p0 value) p0). intros p. cbv zeta.
  destruct (Nat.ltb_spec (length value) (p + 18)) as [|Hp]; [done|].
  eapply reads_then; [apply reads_day_first; [by destruct Hfmt as [->| ->]..|lia]|].
  intros [[f day] p1] [Hday Hp1].
  assert (p1 + 15 <= length value)%nat as Hp15 by (destruct f; [done|lia..]).
  eapply reads_then; [apply reads_month; lia|]. intros month Hm.
  eapply reads_then; [apply reads_at; lia|]. intros c _.
  eapply reads_then; [apply reads_check|]. intros [] _.
  eapply reads_then; [apply reads_year_or_day; [done|destruct f; [done|lia..]]|].
  intros [[day2 year] p2] (Hday2 & Hyear & Hp2).
  assert (p2 + 9 <= length value)%nat as Hp9 by (destruct (decide (f = isoc)); lia).
  eapply reads_then; [apply reads_at; lia|]. intros c1 _.
  eapply reads_then; [apply reads_check|]. intros [] _.
  eapply reads_then; [apply reads_two; lia|]. intros hour Hh.
  eapply reads_then; [apply reads_at; lia|]. intros c2 _.
  eapply reads_then; [apply reads_check|]. intros [] _.
  eapply reads_then; [apply reads_two; lia|]. intros min Hmin.
  eapply reads_then; [apply reads_at; lia|]. intros c3 _.
  eapply reads_then; [apply reads_check|]. intros [] _.
  eapply reads_then; [apply reads_two; lia|]. intros sec Hsec.
  eapply (reads_then _ _ (fun y => 0 <= y <= 9999)).
  { destruct (decide (f = isoc)); [|by cbn].
    eapply reads_then; [apply reads_at; lia|]. intros c4 _.
    eapply reads_then; [apply reads_check|]. intros [] _. apply reads_four. lia. }
  intros y Hy. eapply reads_then; [apply reads_check|]. intros [] Hc. cbv beta in *.
  eapply reads_then; [apply reads_day_ok; lia|]. intros [] Hd. cbv beta in *.
  cbn [reads]. exists y, (month + 1), day2, hour, min, sec.
  replace (month + 1 - 1) with month by lia. split; [done|]. lia.
Qed.

(** The date and time of a [ngx_tm_t]. *)
Definition tm_is (tm : ngx_tm_t) (y m d hour min sec : Z) : Prop :=
  tm_date tm = (y, m, d) /\ tm_hour tm = hour /\ tm_min tm = min /\ tm_sec tm = sec.

(** [ngx_gmtime] takes the value of a date apart. *)
Lemma ngx_gmtime_value y m d hour min sec :
  valid_date (y, m, d) -> 1970 <= y <= 9999 -> 0 <= hour < 24 -> 0 <= min < 60 -> 0 <= sec < 60 ->
  let r := i64 (http_time_value y (m - 1) d hour min sec) in
  0 <= r <= LAST_TIME /\ tm_is (ngx_gmtime r) y m d hour min sec.
Proof.
  intros Hv Hy Hh Hmin Hs r. subst r. rewrite http_time_value_date by (done || lia).
  set (n := day_number (y, m, d)).
  assert (0 <= n <= 2932896) as Hn.
  { unfold n, day_number. destruct Hv as [Hm Hd].
    destruct (year_day_range y m d Hm Hd) as (Hyd & _ & Hyear).
    unfold days_in_years in *. unfold march_year in *.
    destruct (Z.leb_spec m 2).
    - destruct (year_day m d >=? 306) eqn:H306; [|lia].
      assert (year_day m d <= 365) by (destruct (leap (y - 1 + 1)); cbn [Z.b2z] in Hyd; lia). lia_mod.
    - destruct (year_day m d >=? 306) eqn:H306; [lia|]. lia_mod. }
  set (r := n * 86400 + hour * 3600 + min * 60 + sec).
  assert (0 <= r <= LAST_TIME) as Hr by (unfold r, LAST_TIME; lia).
  split; [done|]. rewrite (ngx_gmtime_date r y m d) by (done || lia || (unfold r; lia_mod)).
  unfold tm_is. cbn. split; [done|]. unfold r. clearbody n. lia_mod.
Qed.

(** C33: Safety of [ngx_parse_http_time].  On any bytes it never reads out of the
    string; it refuses, or gives the value of a date with a month that exists, a day
    not above the length of that month in that year, and a time of day.  For years
    from 1970 on and days from 1 on, [ngx_gmtime] gives this date and time back. *)
Theorem ngx_parse_http_time_safe (value : list Z) :
  exists r, ngx_parse_http_time value = Some r
    /\ (r = NGX_ERROR
        \/ exists y m d hour min sec,
             r = i64 (http_time_value y (m - 1) d hour min sec)
             /\ 0 <= y <= 9999 /\ 1 <= m <= 12 /\ 0 <= d <= month_length y m
             /\ 0 <= hour < 24 /\ 0 <= min < 60 /\ 0 <= sec < 60
             /\ (1970 <= y -> 1 <= d -> tm_is (ngx_gmtime r) y m d hour min sec)).
Proof.
  pose proof (parse_http_time_reads value) as Hr. unfold ngx_parse_http_time.
  destruct (parse_http_time value) as [[r|]|]; cbn [reads] in Hr; [|exists NGX_ERROR; split; [done|by left]|done].
  exists r. split; [done|]. right. destruct Hr as (y & m & d & h & mi & s & -> & Hy & Hm & Hd & Hh & Hmi & Hs).
  exists y, m, d, h, mi, s. do 7 (split; [done|]). intros Hy1 Hd1.
  apply ngx_gmtime_value; [by split; [|lia]|lia..].
Qed.

(** ** Reading back what was printed *)

Definition d2 (v : Z) : list Z := [48 + v / 10; 48 + v mod 10].
Definition d4 (v : Z) : list Z := d2 (v / 100) ++ d2 (v mod 100).

Ltac same_bytes := apply f_equal; repeat apply (f_equal2 cons); try reflexivity; unfold u8; lia_mod.

Lemma int_text_d2 v s : 0 <= v < 100 ->
  zero s = "0"%ch -> width s = 2 -> sign s = true -> hex s = 0 -> int_text s v = Some (d2 v).
Proof.
  intros Hv Hz Hw Hs Hh. unfold int_text. rewrite Hz, Hw, Hs, Hh. test_false (v <? 0). cbn [andb].
  rewrite u64_small by lia. unfold padded, num_digits. change (0 =? 0) with true. cbn iota.
  unfold NGX_MAX_UINT32_VALUE. test_true (v <=? 0xffffffff). rewrite u32_small by lia. unfold NGX_INT64_LEN, d2.
  cbn [sprintf_dec]. destruct (decide (v < 10)).
  - replace (v / 10) with 0 by lia_mod. cbn. same_bytes.
  - test_false (v / 10 =? 0). test_true (v / 10 / 10 =? 0). cbn. same_bytes.
Qed.

Lemma int_text_d4 v s : 1000 <= v < 10000 ->
  zero s = " "%ch -> width s = 4 -> sign s = true -> hex s = 0 -> int_text s v = Some (d4 v).
Proof.
  intros Hv Hz Hw Hs Hh. unfold int_text. rewrite Hz, Hw, Hs, Hh. test_false (v <? 0). cbn [andb].
  rewrite u64_small by lia. unfold padded, num_digits. change (0 =? 0) with true. cbn iota.
  unfold NGX_MAX_UINT32_VALUE. test_true (v <=? 0xffffffff). rewrite u32_small by lia. unfold NGX_INT64_LEN, d4, d2.
  cbn [sprintf_dec]. test_false (v / 10 =? 0). test_false (v / 10 / 10 =? 0).
  test_false (v / 10 / 10 / 10 =? 0). test_true (v / 10 / 10 / 10 / 10 =? 0). cbn. same_bytes.
Qed.

(** The steps of the printer on these formats. *)
Lemma printf_char n c fmt args : negb (c =? "%"%ch) = true ->
  vslprintf_loop (S n) None (c :: fmt) args = cons c <$> vslprintf_loop n None fmt args.
Proof.
  intros Hc%negb_true_iff. cbn [vslprintf_loop has_room]. rewrite Hc. cbn [mbind option_bind spend fmap option_fmap option_map].
  by destruct (vslprintf_loop n None fmt args).
Qed.

Lemma printf_conversion n fmt args out fmt' args' :
  conversion None fmt args = Some (out, fmt', args') ->
  vslprintf_loop (S n) None ("%"%ch :: fmt) args = app out <$> vslprintf_loop n None fmt' args'.
Proof.
  intros Hc. cbn [vslprintf_loop has_room]. change ("%"%ch =? "%"%ch) with true. cbn iota.
  rewrite Hc. cbn [mbind option_bind spend fmap option_fmap option_map].
  by destruct (vslprintf_loop n None fmt' args').
Qed.

Lemma printf_end n args : vslprintf_loop (S n) None [] args = Some [].
Proof. done. Qed.

Lemma copy_cstr s : forallb (fun c => negb (c =? 0)) s = true -> copy_until_zero None (s ++ [0]) = Some s.
Proof.
  induction s as [|c s IH]; [done|]. intros [Hc Hs]%andb_prop. cbn [app copy_until_zero has_room].
  rewrite Hc. cbn [andb spend fmap option_fmap option_map]. by rewrite IH.
Qed.

Lemma conversion_s fmt args s : forallb (fun c => negb (c =? 0)) s = true ->
  conversion None ("s"%ch :: fmt) (Ptr (s ++ [0]) :: args) = Some (s, fmt, args).
Proof.
  intros Hs. unfold conversion, parse_spec. cbn [digits flags mbind option_bind andb Z.leb].
  change (("0"%ch <=? "s"%ch) && ("s"%ch <=? "9"%ch)) with false. cbn iota. cbn.
  unfold ngx_sprintf_str. cbn [Z.eqb]. rewrite copy_cstr by done. done.
Qed.

Lemma conversion_02d fmt args v : 0 <= v < 100 ->
  conversion None ("0"%ch :: "2"%ch :: "d"%ch :: fmt) (Int v :: args) = Some (d2 v, fmt, args).
Proof.
  intros Hv. unfold conversion, parse_spec. cbn -[put_int i32].
  replace (i32 v) with v by (unfold i32; lia_mod).
  match goal with |- context [put_int None ?s v] =>
    destruct (put_int_text None s v ltac:(by left) eq_refl) as (o & Ho & ->);
    rewrite (int_text_d2 v s) in Ho by done end.
  by simplify_eq.
Qed.

Lemma conversion_4d fmt args v : 1000 <= v < 10000 ->
  conversion None ("4"%ch :: "d"%ch :: fmt) (Int v :: args) = Some (d4 v, fmt, args).
Proof.
  intros Hv. unfold conversion, parse_spec. cbn -[put_int i32].
  replace (i32 v) with v by (unfold i32; lia_mod).
  match goal with |- context [put_int None ?s v] =>
    destruct (put_int_text None s v ltac:(by left) eq_refl) as (o & Ho & ->);
    rewrite (int_text_d4 v s) in Ho by done end.
  by simplify_eq.
Qed.

(** What the two functions print. *)
Definition name_ok (s : list Z) : Prop :=
  exists a b c, s = [a; b; c] /\ forallb (fun c => negb ((c =? 0) || (c =? ","%ch) || (c =? " "%ch))) s = true.

Lemma week_name i : 0 <= i < 7 -> exists s, week !! Z.to_nat i = Some (s ++ [0]) /\ name_ok s.
Proof.
  intros Hi. assert (i = 0 \/ i = 1 \/ i = 2 \/ i = 3 \/ i = 4 \/ i = 5 \/ i = 6) as Hc by lia.
  destruct Hc as [->|[->|[->|[->|[->|[->| ->]]]]]]; (eexists [_; _; _]; split; [reflexivity|]);
    (do 3 eexists; split; reflexivity).
Qed.

Definition month_name (m : Z) : list Z := take 3 (default [] (months !! Z.to_nat (m - 1))).

Lemma month_name_ok m : 1 <= m <= 12 ->
  months !! Z.to_nat (m - 1) = Some (month_name m ++ [0]) /\ name_ok (month_name m).
Proof.
  intros Hm. each_month m; (split; [reflexivity|do 3 eexists; split; reflexivity]).
Qed.

Definition clock (hour min sec : Z) : list Z := d2 hour ++ bs ":" ++ d2 min ++ bs ":" ++ d2 sec ++ bs " GMT".

Lemma name_ok_zero s : name_ok s -> forallb (fun c => negb (c =? 0)) s = true.
Proof.
  intros (a & b & c & -> & Hs). cbn in *. revert Hs. by destruct (a =? 0), (b =? 0), (c =? 0), (a =? 44), (a =? 32), (b =? 44), (b =? 32).
Qed.

#[local] Opaque conversion vslprintf_loop.

Ltac print_step :=
  first [rewrite printf_char by reflexivity
        |erewrite printf_conversion by (apply conversion_s; by apply name_ok_zero)
        |erewrite printf_conversion by (apply conversion_02d; lia)
        |erewrite printf_conversion by (apply conversion_4d; lia)].

Lemma http_time_text w m mday year hour min sec :
  name_ok w -> name_ok m -> 0 <= mday < 100 -> 1000 <= year < 10000 -> 0 <= hour < 100 ->
  0 <= min < 100 -> 0 <= sec < 100 ->
  ngx_sprintf (bs "%s, %02d %s %4d %02d:%02d:%02d GMT")
    [Ptr (w ++ [0]); Int mday; Ptr (m ++ [0]); Int year; Int hour; Int min; Int sec]
  = Some (w ++ bs ", " ++ d2 mday ++ bs " " ++ m ++ bs " " ++ d4 year ++ bs " " ++ clock hour min sec).
Proof.
  intros Hw Hm Hd Hy Hh Hmi Hs. unfold ngx_sprintf, ngx_vslprintf.
  change (length (bs "%s, %02d %s %4d %02d:%02d:%02d GMT")) with 34%nat.
  let b := eval vm_compute in (bs "%s, %02d %s %4d %02d:%02d:%02d GMT") in change (bs "%s, %02d %s %4d %02d:%02d:%02d GMT") with b.
  repeat print_step. by rewrite printf_end.
Qed.

Lemma cookie_time_text w m mday year hour min sec :
  name_ok w -> name_ok m -> 0 <= mday < 100 -> 0 <= year < 100 -> 0 <= hour < 100 ->
  0 <= min < 100 -> 0 <= sec < 100 ->
  ngx_sprintf (bs "%s, %02d-%s-%02d %02d:%02d:%02d GMT")
    [Ptr (w ++ [0]); Int mday; Ptr (m ++ [0]); Int year; Int hour; Int min; Int sec]
  = Some (w ++ bs ", " ++ d2 mday ++ bs "-" ++ m ++ bs "-" ++ d2 year ++ bs " " ++ clock hour min sec).
Proof.
  intros Hw Hm Hd Hy Hh Hmi Hs. unfold ngx_sprintf, ngx_vslprintf.
  change (length (bs "%s, %02d-%s-%02d %02d:%02d:%02d GMT")) with 35%nat.
  let b := eval vm_compute in (bs "%s, %02d-%s-%02d %02d:%02d:%02d GMT") in
    change (bs "%s, %02d-%s-%02d %02d:%02d:%02d GMT") with b.
  repeat print_step. by rewrite printf_end.
Qed.

#[local] Transparent conversion vslprintf_loop.

Section ReadBack.
Variable value : list Z.

Lemma digit_back p x : value !! p = Some (48 + x) -> 0 <= x <= 9 -> digit value p = Some (Some x).
Proof.
  intros Hp Hx. unfold digit, at_. rewrite Hp. cbn [then_ fmap option_fmap option_map].
  test_false (48 + x <? 48). test_false (48 + x >? 57). cbn [orb]. do 2 f_equal. lia.
Qed.

Lemma two_digits_back p v :
  value !! p = Some (48 + v / 10) -> value !! (p + 1)%nat = Some (48 + v mod 10) -> 0 <= v < 100 ->
  two_digits value p = Some (Some v).
Proof.
  intros H1 H2 Hv. unfold two_digits. rewrite (digit_back p _ H1) by lia_mod. cbn [then_].
  rewrite (digit_back _ _ H2) by lia_mod. cbn [then_]. do 2 f_equal. lia_mod.
Qed.

Lemma four_digits_back p v :
  value !! p = Some (48 + v / 100 / 10) -> value !! (p + 1)%nat = Some (48 + v / 100 mod 10) ->
  value !! (p + 2)%nat = Some (48 + v mod 100 / 10) -> value !! (p + 3)%nat = Some (48 + v mod 100 mod 10) ->
  0 <= v < 10000 -> four_digits value p = Some (Some v).
Proof.
  intros H1 H2 H3 H4 Hv. unfold four_digits. rewrite (digit_back p _ H1) by lia_mod. cbn [then_].
  rewrite (digit_back _ _ H2) by lia_mod. cbn [then_]. rewrite (digit_back _ _ H3) by lia_mod.
  cbn [then_]. rewrite (digit_back _ _ H4) by lia_mod. cbn [then_]. do 2 f_equal. lia_mod.
Qed.

Lemma month_at_back p m a b c : 1 <= m <= 12 -> month_name m = [a; b; c] ->
  value !! p = Some a -> value !! (p + 1)%nat = Some b -> value !! (p + 2)%nat = Some c ->
  month_at value p = Some (Some (m - 1)).
Proof.
  intros Hm Hn Ha Hb Hc. unfold month_at, at_. rewrite Ha, Hb, Hc.
  each_month m; vm_compute in Hn; injection Hn as <- <- <-; reflexivity.
Qed.
End ReadBack.

Lemma day_ok_back day month year : valid_date (year, month, day) -> 0 <= year ->
  day_ok day (month - 1) year = Some (Some tt).
Proof.
  intros [Hm Hd] Hy. unfold day_ok. destruct ((day =? 29) && (month - 1 =? 1)) eqn:H29.
  - apply andb_prop in H29 as [->%Z.eqb_eq H1%Z.eqb_eq]. assert (month = 2) as -> by lia.
    unfold month_length, leap in Hd. change (2 =? 2) with true in Hd. cbn iota in Hd.
    change 3 with (Z.ones 2). rewrite land_ones_mod by lia. change (2 ^ 2) with 4.
    destruct (year mod 4 =? 0), (year mod 100 =? 0), (year mod 400 =? 0); cbn in Hd |- *; try done; lia.
  - assert (exists d, mday !! Z.to_nat (month - 1) = Some d /\ day <= d) as (d & -> & Hle).
    { unfold month_length in Hd. each_month month; eexists; (split; [reflexivity|]); try exact (proj2 Hd).
      assert (day <> 29) by (intros ->; done). cbn in Hd. destruct (leap year); cbn [Z.b2z] in Hd; lia. }
    unfold check. by test_false (day >? d).
Qed.

Lemma find_break_name a b c rest :
  forallb (fun c => negb ((c =? 0) || (c =? ","%ch) || (c =? " "%ch))) [a; b; c] = true ->
  find_break (a :: b :: c :: ","%ch :: rest) 0 = (3%nat, no).
Proof.
  cbn. intros H. destruct (a =? 44), (a =? 32), (b =? 44), (b =? 32), (c =? 44), (c =? 32);
    rewrite ?orb_true_r in H; cbn in H; rewrite ?andb_false_r in H; done.
Qed.

(** Positions, and the bytes found there. *)
Ltac read_step lem :=
  rewrite lem by (reflexivity || lia || done || lia_mod); cbn [then_ Nat.add].
Ltac read_byte :=
  match goal with |- context [at_ ?v ?p] =>
    let c := eval hnf in (v !! p) in
    match c with Some ?x => change (at_ v p) with (Some (Some x)) end end;
  cbn [then_]; repeat match goal with |- context [Z.eqb (Zpos ?a) (Zpos ?b)] =>
    let t := eval vm_compute in (Z.eqb (Zpos a) (Zpos b)) in change (Z.eqb (Zpos a) (Zpos b)) with t end;
  cbn [andb orb negb check then_ Nat.add].

(** The text of a date, its day name and its comma read. *)
Ltac open_text msg w m d Hw Hv :=
  destruct Hw as (a & b & c & -> & Hw); pose proof Hv as [Hm Hd];
  match type of Hd with _ <= _ <= month_length ?y m => pose proof (month_length_range y m) as Hml end;
  destruct (month_name_ok m Hm) as [_ (mx & my & mz & Hn & _)]; rewrite Hn;
  unfold clock, d4, d2; change (bs ", ") with [44; 32]; change (bs " ") with [32]; change (bs "-") with [45];
  change (bs ":") with [58]; change (bs " GMT") with [32; 71; 77; 84]; cbn [app];
  match goal with |- parse_http_time ?v = _ => set (msg := v) end; unfold parse_http_time;
  assert (find_break msg 0 = (3%nat, no)) as -> by (by apply find_break_name);
  assert (skip_spaces (drop (3 + 1) msg) (3 + 1) = 5%nat) as ->;
  [unfold msg; cbn [drop skip_spaces Nat.add]; change (32 =? 32) with true; cbn iota;
   by test_false (48 + d / 10 =? 32)|].

Ltac test_length value :=
  try match goal with |- context [(length value <? ?n)%nat] =>
    change (length value <? n)%nat with false; cbn iota end.
Ltac read_day d m :=
  match goal with Hn : month_name m = [?x; ?y; ?z] |- context [day_first ?value _ _] =>
    test_length value; unfold day_first; rewrite decide_False by done;
    read_step (two_digits_back value 5 d); read_byte; test_length value; cbn [then_];
    read_step (month_at_back value 8 m x y z); read_byte end.
Ltac read_clock y m d hour min sec :=
  let two v := match goal with |- context [two_digits ?l ?p] => read_step (two_digits_back l p v) end in
  two hour; read_byte; two min; read_byte; two sec; rewrite decide_False by done; cbn [then_];
  test_false (hour >? 23); test_false (min >? 59); test_false (sec >? 59);
  cbn [orb negb check then_]; read_step (day_ok_back d m y); reflexivity.

Lemma parse_rfc822 w y m d hour min sec :
  name_ok w -> valid_date (y, m, d) -> 0 <= y <= 9999 -> 0 <= hour < 24 -> 0 <= min < 60 -> 0 <= sec < 60 ->
  parse_http_time (w ++ bs ", " ++ d2 d ++ bs " " ++ month_name m ++ bs " " ++ d4 y ++ bs " " ++ clock hour min sec)
  = Some (Some (i64 (http_time_value y (m - 1) d hour min sec))).
Proof.
  intros Hw Hv Hy Hh Hmi Hs. open_text msg w m d Hw Hv.
  read_day d m. rewrite bool_decide_true by done. rewrite bool_decide_false by done.
  cbn [andb orb negb check then_].
  unfold year_or_day. read_step (four_digits_back msg 12 y). read_byte.
  read_clock y m d hour min sec.
Qed.

(** Two digits of the year are enough for the years from 1970 to 2069. *)
Lemma parse_rfc850 w y m d hour min sec :
  name_ok w -> valid_date (y, m, d) -> 1970 <= y <= 2069 -> 0 <= hour < 24 -> 0 <= min < 60 -> 0 <= sec < 60 ->
  parse_http_time (w ++ bs ", " ++ d2 d ++ bs "-" ++ month_name m ++ bs "-" ++ d2 (y mod 100) ++ bs " " ++ clock hour min sec)
  = Some (Some (i64 (http_time_value y (m - 1) d hour min sec))).
Proof.
  intros Hw Hv Hy Hh Hmi Hs. open_text msg w m d Hw Hv.
  read_day d m. rewrite bool_decide_false by done. rewrite bool_decide_true by done.
  cbn [andb orb negb check then_].
  unfold year_or_day. read_step (two_digits_back msg 12 (y mod 100)).
  replace (y mod 100 + (if y mod 100 <? 70 then 2000 else 1900)) with y by (case_match; lia_mod).
  read_byte. read_clock y m d hour min sec.
Qed.

(** A date of a later year has a greater number. *)
Lemma days_in_years_mono a b : a <= b -> days_in_years a + 365 * (b - a) <= days_in_years b.
Proof. intros Hab. unfold days_in_years. lia_mod. Qed.

Lemma year_bound y m d last :
  valid_date (y, m, d) -> day_number (y, m, d) < day_number (last + 1, 1, 1) -> y <= last.
Proof.
  intros [Hm Hd] Hn. destruct (Z.leb_spec y last) as [|Hy]; [done|exfalso].
  destruct (year_day_range y m d Hm Hd) as (Hyd & _ & Hmar). revert Hn. unfold day_number.
  change (year_day 1 1) with 306. change (march_year (last + 1) 1) with (last + 1 - 1).
  unfold march_year in *. destruct (Z.leb_spec m 2).
  - assert (306 <= year_day m d) by (destruct (Z.geb_spec (year_day m d) 306); lia).
    pose proof (days_in_years_mono (last + 1 - 1) (y - 1)). lia.
  - pose proof (days_in_years_mono (last + 1 - 1) y). lia.
Qed.

(** What [ngx_gmtime] gives, as a date of a year that prints in four digits. *)
Lemma ngx_gmtime_fields t : 0 <= t <= LAST_TIME ->
  exists y m d hour min sec,
    ngx_gmtime t = {| tm_sec := sec; tm_min := min; tm_hour := hour; tm_mday := d; tm_mon := m;
                      tm_year := y; tm_wday := (4 + t / 86400) mod 7 |}
    /\ valid_date (y, m, d) /\ 1970 <= y <= 9999 /\ (t < 2145916800 -> y <= 2037)
    /\ 0 <= hour < 24 /\ 0 <= min < 60 /\ 0 <= sec < 60
    /\ i64 (http_time_value y (m - 1) d hour min sec) = t.
Proof.
  intros Ht. pose proof (date_after_number (Z.to_nat (t / 86400))) as [Hv Hn].
  pose proof (date_after_year (Z.to_nat (t / 86400))) as Hy0. unfold LAST_TIME in Ht.
  destruct (date_after (Z.to_nat (t / 86400))) as [[y m] d].
  assert (0 <= t / 86400 <= 2932896) as Hq by lia_mod. rewrite Z2Nat.id in Hn by lia.
  assert (1970 <= y <= 9999) as Hy.
  { split; [lia|]. apply (year_bound y m d); [done|].
    change (day_number (9999 + 1, 1, 1)) with 2932897. lia. }
  exists y, m, d, (t mod 86400 / 3600), (t mod 86400 mod 3600 / 60), (t mod 86400 mod 3600 mod 60).
  assert (0 <= t mod 86400 / 3600 < 24 /\ 0 <= t mod 86400 mod 3600 / 60 < 60
          /\ 0 <= t mod 86400 mod 3600 mod 60 < 60) as (Hh & Hmi & Hs) by lia_mod.
  split; [by apply ngx_gmtime_date; [unfold LAST_TIME|..|lia|]|]. split; [done|]. split; [done|].
  split.
  { intros Ht'. apply (year_bound y m d); [done|].
    change (day_number (2037 + 1, 1, 1)) with 24837. lia_mod. }
  do 3 (split; [done|]). rewrite http_time_value_date by (done || lia). rewrite Hn. lia_mod.
Qed.

(** C32: Round trip of dates.  [ngx_parse_http_time] reads back what [ngx_http_time]
    prints, for every second of the years 1970 to 9999, and what
    [ngx_http_cookie_time] prints, for every second before the year 2038 (from then
    on cookie times have four digits of year, which is none of the three formats). *)
Theorem ngx_parse_http_time_roundtrip (t : Z) :
  0 <= t <= LAST_TIME ->
  (exists s, ngx_http_time t = Some s /\ ngx_parse_http_time s = Some t)
  /\ (t < 2145916800 -> exists s, ngx_http_cookie_time t = Some s /\ ngx_parse_http_time s = Some t).
Proof.
  intros Ht. destruct (ngx_gmtime_fields t Ht) as (y & m & d & h & mi & s & Htm & Hv & Hy & Hold & Hh & Hmi & Hs & Hr).
  destruct (week_name ((4 + t / 86400) mod 7) ltac:(lia_mod)) as (w & Hw & Hwok).
  pose proof Hv as [Hm Hd]. destruct (month_name_ok m Hm) as [Hmn Hmok].
  pose proof (month_length_range y m).
  unfold ngx_http_time, ngx_http_cookie_time. rewrite Htm.
  cbn [tm_sec tm_min tm_hour tm_mday tm_mon tm_year tm_wday]. rewrite Hw, Hmn. cbn [mbind option_bind].
  unfold ngx_parse_http_time. split; [|intros Ht'].
  - eexists. split; [apply http_time_text; done || lia|].
    rewrite parse_rfc822 by (done || lia). by rewrite Hr.
  - specialize (Hold Ht'). test_false (y >? 2037).
    eexists. split; [apply cookie_time_text; done || lia_mod|].
    rewrite parse_rfc850 by (done || lia). by rewrite Hr.
Qed.

Lemma ngx_parse_http_time_roundtrip_witness :
  0 <= 784111777 <= LAST_TIME
  /\ exists s, ngx_http_time 784111777 = Some s /\ ngx_parse_http_time s = Some 784111777.
Proof. split; [done|]. apply (ngx_parse_http_time_roundtrip 784111777). done. Defined.

Example cookie_time_2038 : ngx_parse_http_time <$> ngx_http_cookie_time 2145916800 = Some (Some NGX_ERROR).
Proof. vm_compute. reflexivity. Qed.
