(* ===== verification/Queue.v ===== *)
(** * Queue: the doubly linked queues of ngx_queue.h and ngx_queue.c

    A queue is a circle of nodes, one of which, its head, is not an element.  The nodes
    lie in a memory; every operation is proved against a list of nodes. *)

From stdpp Require Import gmap sorting.
From S2P Require Import Prelude.

Record ngx_queue_t := { prev : nat; next : nat }.

Abbreviation memory := (gmap nat ngx_queue_t).

(** [p->next], [p->prev], and their assignments. *)
Definition get_next (p : nat) (m : memory) : option nat := next <$> m !! p.
Definition get_prev (p : nat) (m : memory) : option nat := prev <$> m !! p.
Definition set_next (p v : nat) (m : memory) : option memory :=
  n ← m !! p; Some (<[p := {| prev := prev n; next := v |}]> m).
Definition set_prev (p v : nat) (m : memory) : option memory :=
  n ← m !! p; Some (<[p := {| prev := v; next := next n |}]> m).

(** ** The operations of ngx_queue.h *)

Definition ngx_queue_init (q : nat) (m : memory) : option memory :=
  m ← set_prev q q m; set_next q q m.
Definition ngx_queue_empty (h : nat) (m : memory) : option bool :=
  p ← get_prev h m; Some (h =? p)%nat.

Definition ngx_queue_insert_head (h x : nat) (m : memory) : option memory :=
  n ← get_next h m;
  m ← set_next x n m;
  n ← get_next x m;
  m ← set_prev n x m;
  m ← set_prev x h m;
  set_next h x m.
Definition ngx_queue_insert_after := ngx_queue_insert_head.

Definition ngx_queue_insert_tail (h x : nat) (m : memory) : option memory :=
  p ← get_prev h m;
  m ← set_prev x p m;
  p ← get_prev x m;
  m ← set_next p x m;
  m ← set_next x h m;
  set_prev h x m.

Definition ngx_queue_head := get_next.
Definition ngx_queue_last := get_prev.
Definition ngx_queue_sentinel (h : nat) : nat := h.
Definition ngx_queue_next := get_next.
Definition ngx_queue_prev := get_prev.

Section Debug.
(** Whether a node that is removed forgets its neighbours. *)
Variable NGX_DEBUG : bool.

Definition ngx_queue_remove (x : nat) (m : memory) : option memory :=
  n ← get_next x m;
  p ← get_prev x m;
  m ← set_prev n p m;
  p ← get_prev x m;
  n ← get_next x m;
  m ← set_next p n m;
  if NGX_DEBUG then m ← set_prev x 0 m; set_next x 0 m else Some m.

(** The nodes of [h] from [q] on go to the queue [n]. *)
Definition ngx_queue_split (h q n : nat) (m : memory) : option memory :=
  p ← get_prev h m;
  m ← set_prev n p m;
  p ← get_prev n m;
  m ← set_next p n m;
  m ← set_next n q m;
  p ← get_prev q m;
  m ← set_prev h p m;
  p ← get_prev h m;
  m ← set_next p h m;
  set_prev q n m.

(** The nodes of [n] go to the end of [h]. *)
Definition ngx_queue_add (h n : nat) (m : memory) : option memory :=
  p ← get_prev h m;
  x ← get_next n m;
  m ← set_next p x m;
  x ← get_next n m;
  p ← get_prev h m;
  m ← set_prev x p m;
  p ← get_prev n m;
  m ← set_prev h p m;
  p ← get_prev h m;
  set_next p h m.

(** ** ngx_queue.c *)

Fixpoint middle_loop (fuel queue middle next : nat) (m : memory) : option nat :=
  match fuel with
  | O => None
  | S fuel' =>
      middle ← ngx_queue_next middle m;
      next ← ngx_queue_next next m;
      last ← ngx_queue_last queue m;
      if (next =? last)%nat then Some middle
      else
        next ← ngx_queue_next next m;
        last ← ngx_queue_last queue m;
        if (next =? last)%nat then Some middle else middle_loop fuel' queue middle next m
  end.

Definition ngx_queue_middle (queue : nat) (m : memory) : option nat :=
  middle ← ngx_queue_head queue m;
  last ← ngx_queue_last queue m;
  if (middle =? last)%nat then Some middle
  else next ← ngx_queue_head queue m; middle_loop (size m) queue middle next m.

Section Sort.
Variable cmp : nat -> nat -> Z.

(** [do ... while (prev != ngx_queue_sentinel(queue))]. *)
Fixpoint find_place (fuel queue prev q : nat) (m : memory) : option nat :=
  match fuel with
  | O => None
  | S fuel' =>
      if cmp prev q <=? 0 then Some prev
      else
        prev ← ngx_queue_prev prev m;
        if negb (prev =? ngx_queue_sentinel queue)%nat then find_place fuel' queue prev q m
        else Some prev
  end.

Fixpoint sort_loop (fuel queue q : nat) (m : memory) : option memory :=
  match fuel with
  | O => None
  | S fuel' =>
      if (q =? ngx_queue_sentinel queue)%nat then Some m
      else
        prev ← ngx_queue_prev q m;
        next ← ngx_queue_next q m;
        m ← ngx_queue_remove q m;
        prev ← find_place (size m) queue prev q m;
        m ← ngx_queue_insert_after prev q m;
        sort_loop fuel' queue next m
  end.

Definition ngx_queue_sort (queue : nat) (m : memory) : option memory :=
  q ← ngx_queue_head queue m;
  last ← ngx_queue_last queue m;
  if (q =? last)%nat then Some m
  else q ← ngx_queue_next q m; sort_loop (size m) queue q m.
End Sort.
End Debug.

(** ** Memory *)

Lemma next_set_next p v m m' q :
  set_next p v m = Some m' -> get_next q m' = if decide (q = p) then Some v else get_next q m.
Proof.
  unfold set_next, get_next. destruct (m !! p) as [n|]; [|done]. intros [= <-].
  case_decide as E; [subst; by rewrite lookup_insert_eq|by rewrite lookup_insert_ne].
Qed.

Lemma prev_set_next p v m m' q : set_next p v m = Some m' -> get_prev q m' = get_prev q m.
Proof.
  unfold set_next, get_prev. destruct (m !! p) as [n|] eqn:Hp; [|done]. intros [= <-].
  destruct (decide (q = p)) as [->|E]; [by rewrite lookup_insert_eq, Hp|by rewrite lookup_insert_ne].
Qed.

Lemma prev_set_prev p v m m' q :
  set_prev p v m = Some m' -> get_prev q m' = if decide (q = p) then Some v else get_prev q m.
Proof.
  unfold set_prev, get_prev. destruct (m !! p) as [n|]; [|done]. intros [= <-].
  case_decide as E; [subst; by rewrite lookup_insert_eq|by rewrite lookup_insert_ne].
Qed.

Lemma next_set_prev p v m m' q : set_prev p v m = Some m' -> get_next q m' = get_next q m.
Proof.
  unfold set_prev, get_next. destruct (m !! p) as [n|] eqn:Hp; [|done]. intros [= <-].
  destruct (decide (q = p)) as [->|E]; [by rewrite lookup_insert_eq, Hp|by rewrite lookup_insert_ne].
Qed.

Lemma get_next_dom p m : is_Some (get_next p m) <-> is_Some (m !! p).
Proof. unfold get_next. by rewrite fmap_is_Some. Qed.
Lemma get_prev_dom p m : is_Some (get_prev p m) <-> is_Some (m !! p).
Proof. unfold get_prev. by rewrite fmap_is_Some. Qed.

Lemma set_next_ok p v m : is_Some (m !! p) ->
  exists m', set_next p v m = Some m'
    /\ (forall q, get_next q m' = if decide (q = p) then Some v else get_next q m)
    /\ (forall q, get_prev q m' = get_prev q m) /\ dom m' = dom m.
Proof.
  intros [n Hn]. destruct (set_next p v m) as [m'|] eqn:H; [|unfold set_next in H; by rewrite Hn in H].
  exists m'. split; [done|]. split; [intros q; by apply next_set_next|]. split; [intros q; by apply (prev_set_next p v)|].
  unfold set_next in H. rewrite Hn in H. injection H as <-. apply dom_insert_lookup_L. by eexists.
Qed.

Lemma set_prev_ok p v m : is_Some (m !! p) ->
  exists m', set_prev p v m = Some m'
    /\ (forall q, get_prev q m' = if decide (q = p) then Some v else get_prev q m)
    /\ (forall q, get_next q m' = get_next q m) /\ dom m' = dom m.
Proof.
  intros [n Hn]. destruct (set_prev p v m) as [m'|] eqn:H; [|unfold set_prev in H; by rewrite Hn in H].
  exists m'. split; [done|]. split; [intros q; by apply prev_set_prev|]. split; [intros q; by apply (next_set_prev p v)|].
  unfold set_prev in H. rewrite Hn in H. injection H as <-. apply dom_insert_lookup_L. by eexists.
Qed.

(** One assignment of the goal: the pointers after it, in terms of those before. *)
Ltac write_link :=
  match goal with
  | |- context [set_next ?p ?v ?m] =>
      let m' := fresh "m" in let Hn := fresh "Hn" in let Hp := fresh "Hp" in let Hd := fresh "Hd" in
      let E := fresh in
      destruct (set_next_ok p v m) as (m' & E & Hn & Hp & Hd);
      [|rewrite E; clear E; cbn [mbind option_bind]]
  | |- context [set_prev ?p ?v ?m] =>
      let m' := fresh "m" in let Hn := fresh "Hn" in let Hp := fresh "Hp" in let Hd := fresh "Hd" in
      let E := fresh in
      destruct (set_prev_ok p v m) as (m' & E & Hp & Hn & Hd);
      [|rewrite E; clear E; cbn [mbind option_bind]]
  end.

(** The pointers at the end, in terms of those at the start. *)
Ltac links :=
  repeat match goal with
  | H : forall q, get_next q ?m = _ |- context [get_next _ ?m] => rewrite H
  | H : forall q, get_prev q ?m = _ |- context [get_prev _ ?m] => rewrite H
  end;
  repeat case_decide; congruence.

(** [x] has been put between [a] and [b]. *)
Definition inserted (a x b : nat) (m m' : memory) : Prop :=
  (forall q, get_next q m' = if decide (q = a) then Some x else if decide (q = x) then Some b else get_next q m)
  /\ (forall q, get_prev q m' = if decide (q = b) then Some x else if decide (q = x) then Some a else get_prev q m)
  /\ dom m' = dom m.

Lemma insert_head_writes a x b m :
  get_next a m = Some b -> is_Some (m !! b) -> is_Some (m !! x) -> x <> a -> x <> b ->
  exists m', ngx_queue_insert_head a x m = Some m' /\ inserted a x b m m'.
Proof.
  intros Ha Hb Hx Hxa Hxb. unfold ngx_queue_insert_head. rewrite Ha. cbn [mbind option_bind].
  assert (a ∈ dom m) as HA by (apply elem_of_dom, get_next_dom; by eexists).
  assert (b ∈ dom m) as HB by by apply elem_of_dom.
  assert (x ∈ dom m) as HX by by apply elem_of_dom.
  write_link; [done|]. rewrite (Hn x), decide_True by done. cbn [mbind option_bind].
  write_link; [apply elem_of_dom; congruence|]. write_link; [apply elem_of_dom; congruence|].
  write_link; [apply elem_of_dom; congruence|].
  eexists. split; [done|]. split_and!; [| |congruence]; intros q; links.
Qed.

Lemma insert_tail_writes a x b m :
  get_prev b m = Some a -> is_Some (m !! a) -> is_Some (m !! x) -> x <> a -> x <> b ->
  exists m', ngx_queue_insert_tail b x m = Some m' /\ inserted a x b m m'.
Proof.
  intros Ha Hb Hx Hxa Hxb. unfold ngx_queue_insert_tail. rewrite Ha. cbn [mbind option_bind].
  assert (b ∈ dom m) as HA by (apply elem_of_dom, get_prev_dom; by eexists).
  assert (a ∈ dom m) as HB by by apply elem_of_dom.
  assert (x ∈ dom m) as HX by by apply elem_of_dom.
  write_link; [done|]. rewrite (Hp x), decide_True by done. cbn [mbind option_bind].
  write_link; [apply elem_of_dom; congruence|]. write_link; [apply elem_of_dom; congruence|].
  write_link; [apply elem_of_dom; congruence|].
  eexists. split; [done|]. split_and!; [| |congruence]; intros q; links.
Qed.

(** [x] has been taken out from between [a] and [b]; what its own pointers are is left open. *)
Definition removed (a x b : nat) (m m' : memory) : Prop :=
  (forall q, q <> x -> get_next q m' = if decide (q = a) then Some b else get_next q m)
  /\ (forall q, q <> x -> get_prev q m' = if decide (q = b) then Some a else get_prev q m)
  /\ dom m' = dom m.

Lemma remove_writes debug a x b m :
  get_next x m = Some b -> get_prev x m = Some a -> is_Some (m !! a) -> is_Some (m !! b) -> x <> a -> x <> b ->
  exists m', ngx_queue_remove debug x m = Some m' /\ removed a x b m m'.
Proof.
  intros Hb Ha HA HB Hxa Hxb. unfold ngx_queue_remove. rewrite Hb, Ha. cbn [mbind option_bind].
  apply elem_of_dom in HA, HB. assert (x ∈ dom m) as HX by (apply elem_of_dom, get_next_dom; by eexists).
  write_link; [by apply elem_of_dom|].
  rewrite Hp, decide_False, Ha by done. cbn [mbind option_bind]. rewrite Hn, Hb. cbn [mbind option_bind].
  write_link; [apply elem_of_dom; congruence|]. destruct debug.
  - write_link; [apply elem_of_dom; congruence|]. write_link; [apply elem_of_dom; congruence|].
    eexists. split; [done|]. split_and!; [| |congruence]; intros q Hq; links.
  - eexists. split; [done|]. split_and!; [| |congruence]; intros q Hq; links.
Qed.

(** ** Queues are lists *)

Definition link (m : memory) (a b : nat) : Prop := get_next a m = Some b /\ get_prev b m = Some a.

(** The way from [a] through the nodes [l] to [b]. *)
Fixpoint chain (m : memory) (a : nat) (l : list nat) (b : nat) : Prop :=
  match l with
  | [] => link m a b
  | x :: l' => link m a x /\ chain m x l' b
  end.

(** The queue with the head [h] has the elements [l]. *)
Definition queue (m : memory) (h : nat) (l : list nat) : Prop := NoDup (h :: l) /\ chain m h l h.

Lemma chain_app m a l1 x l2 b : chain m a (l1 ++ x :: l2) b <-> chain m a l1 x /\ chain m x l2 b.
Proof. revert a. induction l1 as [|y l1 IH]; intros a; cbn; [done|]. rewrite IH. tauto. Qed.

Lemma chain_frame m m' a l b :
  (forall q, q ∈ a :: l -> get_next q m' = get_next q m) ->
  (forall q, q ∈ l ++ [b] -> get_prev q m' = get_prev q m) -> chain m a l b -> chain m' a l b.
Proof.
  revert a. induction l as [|x l IH]; intros a Hn Hp; cbn.
  - intros [H1 H2]. split; [rewrite Hn|rewrite Hp]; done || set_solver.
  - intros [[H1 H2] H]. split; [split; [rewrite Hn|rewrite Hp]; done || set_solver|].
    apply IH; [..|done]; intros q Hq; [apply Hn|apply Hp]; set_solver.
Qed.

Lemma chain_first m a l b : chain m a l b -> get_next a m = Some (hd b l).
Proof. destruct l; cbn; [by intros [? _]|by intros [[? _] _]]. Qed.

Lemma last_cons (x : nat) l a : List.last (x :: l) a = List.last l x.
Proof. revert x a. induction l as [|y l IH]; intros x a; [done|]. change (List.last (x :: y :: l) a) with (List.last (y :: l) a). by rewrite !IH. Qed.

Lemma chain_last m a l b : chain m a l b -> get_prev b m = Some (List.last l a).
Proof.
  revert a. induction l as [|x l IH]; intros a; [by intros [_ ?]|]. intros [_ H]. by rewrite (IH _ H), last_cons.
Qed.

Lemma chain_insert m m' a l b x :
  chain m a l b -> inserted a x (hd b l) m m' -> a ∉ l -> x ∉ a :: l -> x <> b -> b ∉ l -> NoDup l ->
  chain m' a (x :: l) b.
Proof.
  intros H (Hn & Hp & _) Hal Hx Hxb Hbl Hl. apply not_elem_of_cons in Hx as [Hxa Hxl]. cbn [chain].
  split; [split; [by rewrite Hn, decide_True|rewrite Hp, decide_False, decide_True; [done..|]]|].
  { destruct l; cbn; [done|]. by apply not_elem_of_cons in Hxl as [? _]. }
  destruct l as [|y l]; cbn in *.
  - split; [by rewrite Hn, decide_False, decide_True|by rewrite Hp, decide_True].
  - apply not_elem_of_cons in Hal as [Hay Hal], Hxl as [Hxy Hxl], Hbl as [Hby Hbl].
    apply list.NoDup_cons in Hl as [Hyl Hl]. destruct H as [[H1 H2] H]. split.
    { split; [by rewrite Hn, decide_False, decide_True|by rewrite Hp, decide_True]. }
    eapply chain_frame; [| |exact H]; intros q Hq.
    + rewrite Hn, !decide_False; [done|..]; intros ->; apply elem_of_cons in Hq as [Hq|Hq]; congruence || done.
    + rewrite Hp, !decide_False; [done|..]; intros ->; apply elem_of_app in Hq as [Hq|Hq%list_elem_of_singleton];
        congruence || done.
Qed.

Lemma last_in (l : list nat) a : List.last l a ∈ a :: l.
Proof. revert a. induction l as [|x l IH]; intros a; [by left|]. rewrite last_cons. right. apply IH. Qed.

Lemma hd_in (l : list nat) b : hd b l ∈ l ++ [b].
Proof. destruct l; by left. Qed.

Lemma chain_insert_last m m' a l b x :
  chain m a l b -> inserted (List.last l a) x b m m' -> NoDup (a :: l) -> x ∉ a :: l -> x <> b -> b ∉ l ->
  chain m' a (l ++ [x]) b.
Proof.
  revert a. induction l as [|y l IH]; intros a H Hi Hnd Hx Hxb Hbl.
  { apply (chain_insert m m' a [] b x); try done. by apply not_elem_of_nil. constructor. }
  apply list.NoDup_cons in Hnd as [Hal Hnd]. apply not_elem_of_cons in Hx as [Hxa Hx], Hbl as [Hby Hbl].
  rewrite last_cons in Hi. destruct H as [[H1 H2] H]. cbn [app chain]. split; [|by apply IH].
  destruct Hi as (Hn & Hp & _). apply not_elem_of_cons in Hx as [Hxy Hx]. split.
  - rewrite Hn, !decide_False; [done|done|]. intros ->. apply Hal, last_in.
  - by rewrite Hp, !decide_False.
Qed.

Lemma chain_remove m m' a l1 x l2 b :
  chain m a l1 x -> chain m x l2 b -> removed (List.last l1 a) x (hd b l2) m m' ->
  NoDup (a :: l1 ++ x :: l2) -> b ∉ l1 ++ x :: l2 -> chain m' a (l1 ++ l2) b.
Proof.
  revert a. induction l1 as [|y l1 IH]; intros a H1 H2 Hr Hnd Hb; cbn [app] in *.
  - apply list.NoDup_cons in Hnd as [Hax Hnd]. apply list.NoDup_cons in Hnd as [Hxl Hnd].
    apply not_elem_of_cons in Hax as [Hax Hal], Hb as [Hbx Hb]. destruct Hr as (Hn & Hp & _). cbn in Hn, Hp.
    destruct l2 as [|y l2]; cbn in *; [split; [by rewrite Hn, decide_True|by rewrite Hp, decide_True]|].
    apply not_elem_of_cons in Hal as [Hay Hal], Hxl as [Hxy Hxl], Hb as [Hby Hb].
    apply list.NoDup_cons in Hnd as [Hyl Hnd]. destruct H2 as [_ H2].
    split; [split; [by rewrite Hn, decide_True|by rewrite Hp, decide_True by done]|].
    eapply chain_frame; [| |exact H2]; intros q Hq.
    + apply elem_of_cons in Hq as [->|Hq]; rewrite Hn, decide_False; try done; by intros ->.
    + apply elem_of_app in Hq as [Hq|Hq%list_elem_of_singleton]; [|subst q];
        (rewrite Hp, decide_False; [done|..]); congruence || (by intros ->).
  - apply list.NoDup_cons in Hnd as [Hay Hnd]. apply not_elem_of_cons in Hb as [Hby Hb].
    rewrite last_cons in Hr. destruct H1 as [[Ha Hy] H1]. split; [|by apply IH].
    apply list.NoDup_cons in Hnd as [Hyl Hnd]. destruct Hr as (Hn & Hp & _). split.
    + rewrite Hn, decide_False; [done|..]; intros E; apply Hay.
      * apply (elem_of_app (y :: l1)). left. rewrite E. apply last_in.
      * apply (elem_of_app (y :: l1)). right. rewrite E. by left.
    + rewrite Hp, decide_False; [done|..]; intros E.
      * pose proof (hd_in l2 b) as Hin. rewrite <- E in Hin.
        apply elem_of_app in Hin as [Hin|Hin%list_elem_of_singleton]; [|done].
        apply Hyl, elem_of_app. right. by right.
      * apply Hyl, elem_of_app. right. rewrite E. by left.
Qed.

Lemma chain_nodes m a l b : chain m a l b -> forall q, q ∈ a :: l -> is_Some (m !! q).
Proof.
  revert a. induction l as [|x l IH]; intros a H q Hq.
  - apply list_elem_of_singleton in Hq as ->. apply get_next_dom. destruct H as [H _]. by eexists.
  - apply elem_of_cons in Hq as [->|Hq].
    + apply get_next_dom. destruct H as [[H _] _]. by eexists.
    + destruct H as [_ H]. by apply (IH x).
Qed.

Lemma queue_node m h l q : queue m h l -> q ∈ h :: l -> is_Some (m !! q).
Proof. intros [_ H]. by apply (chain_nodes m h l h). Qed.

(** The queue is in memory, so its length is bounded. *)
Lemma queue_size m h l : queue m h l -> (length l < size m)%nat.
Proof.
  intros [Hnd H].
  assert ((list_to_set (h :: l) : gset nat) ⊆ dom m) as Hsub.
  { intros q Hq%elem_of_list_to_set. apply elem_of_dom. by apply (chain_nodes m h l h). }
  apply subseteq_size in Hsub. rewrite size_list_to_set, size_dom in Hsub by done. done.
Qed.

Lemma queue_mid m h l1 p l2 : queue m h (l1 ++ p :: l2) ->
  get_next p m = Some (hd h l2) /\ get_prev p m = Some (List.last l1 h).
Proof. intros [_ [H1 H2]%chain_app]. split; [by apply chain_first|by apply chain_last]. Qed.

Lemma queue_ends m h l : queue m h l -> get_next h m = Some (hd h l) /\ get_prev h m = Some (List.last l h).
Proof. intros [_ H]. split; [by apply chain_first|by apply chain_last]. Qed.

Lemma ngx_queue_init_ok h m : is_Some (m !! h) ->
  exists m', ngx_queue_init h m = Some m' /\ queue m' h [] /\ dom m' = dom m.
Proof.
  intros Hh. unfold ngx_queue_init. write_link; [done|].
  write_link; [apply elem_of_dom; rewrite Hd; by apply elem_of_dom|].
  eexists. split; [done|]. split; [|congruence]. split; [apply NoDup_singleton|]. split; links.
Qed.

Lemma ngx_queue_empty_ok m h l : queue m h l -> ngx_queue_empty h m = Some (bool_decide (l = [])).
Proof.
  intros H. unfold ngx_queue_empty. rewrite (proj2 (queue_ends m h l H)). cbn [mbind option_bind]. f_equal.
  destruct H as [[Hh _]%list.NoDup_cons _]. destruct l as [|x l]; [by rewrite Nat.eqb_refl|].
  rewrite last_cons. apply Nat.eqb_neq. intros E. apply Hh. rewrite E. apply last_in.
Qed.

(** What another part of the memory sees of an insertion or a removal. *)
Definition untouched (l : list nat) (m m' : memory) : Prop :=
  dom m' = dom m /\ forall q, q ∉ l -> get_next q m' = get_next q m /\ get_prev q m' = get_prev q m.

Lemma inserted_untouched a x b m m' l : inserted a x b m m' -> a ∈ l -> x ∈ l -> b ∈ l -> untouched l m m'.
Proof.
  intros (Hn & Hp & Hd) Ha Hx Hb. split; [done|]. intros q Hq. rewrite Hn, Hp, !decide_False; [done|..]; by intros ->.
Qed.

Lemma removed_untouched a x b m m' l : removed a x b m m' -> a ∈ l -> x ∈ l -> b ∈ l -> untouched l m m'.
Proof.
  intros (Hn & Hp & Hd) Ha Hx Hb. split; [done|]. intros q Hq.
  rewrite Hn, Hp, !decide_False; [done|..]; by intros ->.
Qed.

Lemma hd_cycle (h : nat) l : hd h l ∈ h :: l.
Proof. destruct l; [by left|by right; left]. Qed.

Lemma ngx_queue_insert_head_ok m h l x :
  queue m h l -> is_Some (m !! x) -> x ∉ h :: l ->
  exists m', ngx_queue_insert_head h x m = Some m' /\ queue m' h (x :: l) /\ untouched (h :: x :: l) m m'.
Proof.
  intros Hq Hx Hin. pose proof (queue_ends m h l Hq) as [Hn _]. pose proof (hd_cycle h l) as Hhd.
  destruct (insert_head_writes h x (hd h l) m) as (m' & Hm' & Hi); [done|by eapply queue_node|done| | |].
  { intros ->. apply Hin. by left. }
  { intros E. apply Hin. by rewrite E. }
  exists m'. split; [done|]. split; [|apply (inserted_untouched _ _ _ _ _ _ Hi); set_solver].
  destruct Hq as [Hnd H]. pose proof Hnd as Hnd'. apply list.NoDup_cons in Hnd' as [Hh Hl]. split.
  - apply list.NoDup_cons. split; [set_solver|]. apply list.NoDup_cons. split; [set_solver|done].
  - apply (chain_insert m m' h l h x); try done. set_solver.
Qed.

Lemma ngx_queue_insert_tail_ok m h l x :
  queue m h l -> is_Some (m !! x) -> x ∉ h :: l ->
  exists m', ngx_queue_insert_tail h x m = Some m' /\ queue m' h (l ++ [x]) /\ untouched (h :: x :: l) m m'.
Proof.
  intros Hq Hx Hin. pose proof (queue_ends m h l Hq) as [_ Hp]. pose proof (last_in l h) as Hl.
  destruct (insert_tail_writes (List.last l h) x h m) as (m' & Hm' & Hi); [done|by eapply queue_node|done| | |].
  { intros E. apply Hin. by rewrite E. }
  { intros ->. apply Hin. by left. }
  exists m'. split; [done|]. split; [|apply (inserted_untouched _ _ _ _ _ _ Hi); set_solver].
  destruct Hq as [Hnd H]. pose proof Hnd as Hnd'. apply list.NoDup_cons in Hnd' as [Hh Hnl]. split.
  - apply list.NoDup_cons. split; [set_solver|]. apply list.NoDup_app. split_and!; [done|set_solver|by apply NoDup_singleton].
  - apply (chain_insert_last m m' h l h x); try done. set_solver.
Qed.

(** After an element. *)
Lemma ngx_queue_insert_after_ok m h l1 p l2 x :
  queue m h (l1 ++ p :: l2) -> is_Some (m !! x) -> x ∉ h :: l1 ++ p :: l2 ->
  exists m', ngx_queue_insert_after p x m = Some m' /\ queue m' h (l1 ++ p :: x :: l2)
    /\ untouched (h :: x :: l1 ++ p :: l2) m m'.
Proof.
  intros Hq Hx Hin. pose proof (queue_mid m h l1 p l2 Hq) as [Hn _].
  assert (hd h l2 ∈ h :: l1 ++ p :: l2) as Hhd by (destruct l2; set_solver).
  assert (x <> p) as Hxp by (intros ->; apply Hin; set_solver).
  destruct (insert_head_writes p x (hd h l2) m) as (m' & Hm' & Hi); [done|by eapply queue_node|done|done| |].
  { intros E. apply Hin. by rewrite E. }
  exists m'. split; [done|]. split; [|apply (inserted_untouched _ _ _ _ _ _ Hi); set_solver].
  destruct Hq as [Hnd H]. apply chain_app in H as [H1 H2].
  apply list.NoDup_cons in Hnd as [Hh Hnd]. pose proof Hnd as Hnd'. apply list.NoDup_app in Hnd' as (Hd1 & Hd & Hd2).
  apply list.NoDup_cons in Hd2 as [Hp2 Hd2]. split.
  - apply list.NoDup_cons. split; [set_solver|]. apply list.NoDup_app. split_and!; [done|set_solver|].
    apply list.NoDup_cons. split; [set_solver|]. apply list.NoDup_cons. split; [set_solver|done].
  - apply chain_app. split; [|apply (chain_insert m m' p l2 h x); try done; set_solver].
    destruct Hi as (Hin1 & Hip & _). eapply chain_frame; [| |exact H1]; intros q Hq.
    + rewrite Hin1, !decide_False; [done|..]; set_solver.
    + rewrite Hip, !decide_False; [done| |]; [set_solver|]. destruct l2; set_solver.
Qed.

Lemma ngx_queue_remove_ok debug m h l1 x l2 :
  queue m h (l1 ++ x :: l2) ->
  exists m', ngx_queue_remove debug x m = Some m' /\ queue m' h (l1 ++ l2) /\ untouched (h :: l1 ++ x :: l2) m m'.
Proof.
  intros Hq. pose proof (queue_mid m h l1 x l2 Hq) as [Hn Hp].
  assert (hd h l2 ∈ h :: l1 ++ x :: l2) as Hhd by (destruct l2; set_solver).
  assert (List.last l1 h ∈ h :: l1 ++ x :: l2) as Hl by (pose proof (last_in l1 h); set_solver).
  pose proof Hq as [Hnd H]. apply chain_app in H as [H1 H2].
  pose proof Hnd as Hnd'. apply list.NoDup_cons in Hnd' as [Hh Hnl]. pose proof Hnl as Hnl'.
  apply list.NoDup_app in Hnl' as (Hd1 & Hd & Hd2). apply list.NoDup_cons in Hd2 as [Hx2 Hd2].
  destruct (remove_writes debug (List.last l1 h) x (hd h l2) m) as (m' & Hm' & Hr);
    [done|done|by eapply queue_node|by eapply queue_node| | |].
  { pose proof (last_in l1 h) as Hl'. intros E. rewrite <- E in Hl'. set_solver. }
  { intros E. pose proof (hd_in l2 h) as Hh'. rewrite <- E in Hh'. set_solver. }
  exists m'. split; [done|]. split; [|apply (removed_untouched _ _ _ _ _ _ Hr); set_solver].
  split; [|by apply (chain_remove m m' h l1 x l2 h)].
  apply list.NoDup_cons. split; [set_solver|]. apply list.NoDup_app. split_and!; [done|set_solver|done].
Qed.

(** ** The middle *)

Lemma queue_next_at m h l i p : queue m h l -> l !! i = Some p -> get_next p m = Some (default h (l !! S i)).
Proof.
  intros Hq Hi. rewrite <- (take_drop_middle l i p Hi) in Hq |- *.
  rewrite (proj1 (queue_mid m h _ p _ Hq)). f_equal.
  pose proof (lookup_lt_Some _ _ _ Hi). rewrite lookup_app_r, length_take by (rewrite length_take; lia).
  replace (S i - i `min` length l)%nat with 1%nat by lia. cbn. by destruct (drop (S i) l).
Qed.

Lemma queue_last_at m h l p : queue m h l -> l !! pred (length l) = Some p -> get_prev h m = Some p.
Proof.
  intros Hq Hl. rewrite (proj2 (queue_ends m h l Hq)). f_equal.
  rewrite <- last_lookup, last_Some in Hl. destruct Hl as (l' & ->).
  clear. induction l' as [|x l' IH]; [done|]. cbn [app]. rewrite last_cons.
  destruct l' as [|y l']; [done|]. cbn [app] in *. by rewrite last_cons in *.
Qed.

Lemma middle_loop_ok m h l fuel : forall i p q, queue m h l ->
  l !! i = Some p -> l !! (2 * i)%nat = Some q -> (2 * i < pred (length l))%nat -> (length l <= fuel + 2 * i)%nat ->
  middle_loop fuel h p q m = l !! (length l / 2)%nat.
Proof.
  induction fuel as [|fuel IH]; intros i p q Hq Hp Hqi Hlt Hfuel; [lia|].
  assert (forall k, (k < length l)%nat -> exists x, l !! k = Some x) as Hat
    by (intros k Hk; by apply lookup_lt_is_Some_2).
  pose proof Hq as [[Hh Hnd]%list.NoDup_cons _].
  destruct (Hat (S i) ltac:(lia)) as [p1 Hp1], (Hat (S (2 * i)) ltac:(lia)) as [q1 Hq1],
    (Hat (pred (length l)) ltac:(lia)) as [e He].
  cbn [middle_loop]. unfold ngx_queue_next, ngx_queue_last.
  rewrite (queue_next_at m h l i p Hq Hp), Hp1, (queue_next_at m h l _ q Hq Hqi), Hq1, (queue_last_at m h l e Hq He).
  cbn [mbind option_bind default]. unfold id.
  assert (forall k x, l !! k = Some x -> (x =? e)%nat = (k =? pred (length l))%nat) as Heq.
  { intros k x Hk. destruct (Nat.eqb_spec k (pred (length l))) as [->|Hne].
    - rewrite He in Hk. injection Hk as ->. apply Nat.eqb_refl.
    - apply Nat.eqb_neq. intros ->. apply Hne. by eapply NoDup_lookup. }
  rewrite (Heq _ _ Hq1). destruct (Nat.eqb_spec (S (2 * i)) (pred (length l))) as [E|E].
  - rewrite <- Hp1. f_equal. replace (length l) with (2 * S i)%nat by lia.
    by rewrite Nat.mul_comm, Nat.div_mul.
  - destruct (Hat (2 * S i)%nat ltac:(lia)) as [q2 Hq2]. replace (2 * S i)%nat with (S (S (2 * i))) in Hq2 by lia.
    rewrite (queue_next_at m h l _ q1 Hq Hq1), Hq2. cbn [mbind option_bind default]. unfold id.
    rewrite (Heq _ _ Hq2). destruct (Nat.eqb_spec (S (S (2 * i))) (pred (length l))) as [E'|E'].
    + rewrite <- Hp1. f_equal. apply (Nat.div_unique _ _ _ 1); lia.
    + apply (IH (S i)); try done; [by replace (2 * S i)%nat with (S (S (2 * i))) by lia|lia|lia].
Qed.

Lemma ngx_queue_middle_ok m h l : queue m h l ->
  ngx_queue_middle h m = Some (default h (l !! (length l / 2)%nat)).
Proof.
  intros Hq. unfold ngx_queue_middle, ngx_queue_head, ngx_queue_last. destruct (queue_ends m h l Hq) as [-> ->].
  cbn [mbind option_bind]. destruct l as [|x l]; [by cbn; rewrite Nat.eqb_refl|]. cbn [hd]. rewrite last_cons.
  pose proof (queue_size m h _ Hq) as Hsize. pose proof Hq as [[_ Hnd]%list.NoDup_cons _].
  apply list.NoDup_cons in Hnd as [Hx Hnd]. destruct l as [|y l].
  - by cbn; rewrite Nat.eqb_refl.
  - rewrite (proj2 (Nat.eqb_neq _ _)).
    + rewrite (middle_loop_ok m h (x :: y :: l) (size m) 0 x x Hq); cbn [length]; try done; [|lia|cbn in Hsize; lia].
      cbn [length] in *. destruct (lookup_lt_is_Some_2 (x :: y :: l) (S (S (length l)) / 2)%nat) as [z ->]; [|done].
      cbn [length]. apply Nat.div_lt; lia.
    + intros E. apply Hx. rewrite E, last_cons. apply last_in.
Qed.


(** ** Sorting *)

Section SortProofs.
Variable NGX_DEBUG : bool.
Variable cmp : nat -> nat -> Z.

(** [x] goes before the longest end of the list whose elements are all greater. *)
Fixpoint insert_back (x : nat) (l : list nat) : list nat :=
  match l with
  | [] => [x]
  | y :: l' => if forallb (fun z => negb (cmp z x <=? 0)) l then x :: l else y :: insert_back x l'
  end.
Definition insertion_sort (l : list nat) : list nat := foldl (fun acc x => insert_back x acc) [] l.

Lemma insert_back_at x A B :
  match List.last A x with a => A = [] \/ cmp a x <= 0 end ->
  Forall (fun z => 0 < cmp z x) B -> insert_back x (A ++ B) = A ++ x :: B.
Proof.
  intros HA HB. assert (forallb (fun z => negb (cmp z x <=? 0)) B = true) as HB'.
  { apply forallb_forall. intros z Hz%list_elem_of_In. rewrite list.Forall_forall in HB. specialize (HB z Hz).
    apply negb_true_iff, Z.leb_gt. lia. }
  revert HA. induction A as [|a A IH]; intros HA; cbn [app].
  { destruct B as [|b B]; [done|]. cbn [insert_back]. by rewrite HB'. }
  destruct HA as [|HA]; [done|]. rewrite last_cons in HA. cbn [insert_back].
  assert (forallb (fun z => negb (cmp z x <=? 0)) (a :: A ++ B) = false) as ->.
  { apply not_true_iff_false. intros Hall. rewrite forallb_forall in Hall.
    specialize (Hall (List.last A a)). rewrite <- list_elem_of_In in Hall.
    rewrite (proj2 (Z.leb_le _ _)) in Hall by done. cbn in Hall.
    assert (List.last A a ∈ a :: A ++ B) as Hin; [|by apply Hall in Hin].
    pose proof (last_in A a) as Hin. apply (elem_of_app (a :: A)). by left. }
  f_equal. apply IH. destruct A as [|a' A]; [by left|right]. by rewrite last_cons in HA |- *.
Qed.

(** Anywhere in the queue. *)
Lemma insert_after_ok m h l1 l2 x :
  queue m h (l1 ++ l2) -> is_Some (m !! x) -> x ∉ h :: l1 ++ l2 ->
  exists m', ngx_queue_insert_after (List.last l1 h) x m = Some m' /\ queue m' h (l1 ++ x :: l2) /\ dom m' = dom m.
Proof.
  intros Hq Hx Hin. destruct l1 as [|y l1 _] using rev_ind.
  - destruct (ngx_queue_insert_head_ok m h l2 x Hq Hx Hin) as (m' & Hm & Hq' & Hd & _). by exists m'.
  - rewrite <- app_assoc in *. cbn [app] in *.
    destruct (ngx_queue_insert_after_ok m h l1 y l2 x Hq Hx Hin) as (m' & Hm & Hq' & Hd & _).
    exists m'. by rewrite List.last_last.
Qed.

Lemma find_place_ok m h x rest fuel : forall A B,
  queue m h ((A ++ B) ++ rest) -> A <> [] -> Forall (fun z => 0 < cmp z x) B -> (length A <= fuel)%nat ->
  exists A' B', find_place cmp fuel h (List.last A h) x m = Some (List.last A' h) /\ A ++ B = A' ++ B'
    /\ insert_back x (A ++ B) = A' ++ x :: B'.
Proof.
  induction fuel as [|fuel IH]; intros A B Hq HA HB Hf; [by destruct A; [|cbn in Hf; lia]|].
  destruct A as [|a A _] using rev_ind; [done|]. rewrite List.last_last. cbn [find_place].
  destruct (Z.leb_spec (cmp a x) 0) as [Hle|Hgt].
  - exists (A ++ [a]), B. rewrite List.last_last. split_and!; [done|done|].
    apply insert_back_at; [|done]. right. by rewrite List.last_last.
  - assert (queue m h (A ++ a :: B ++ rest)) as Hq' by (by rewrite <- !app_assoc in Hq).
    unfold ngx_queue_prev. rewrite (proj2 (queue_mid m h _ a _ Hq')). cbn [mbind option_bind].
    assert (Forall (fun z => 0 < cmp z x) (a :: B)) as HB' by by constructor. unfold ngx_queue_sentinel.
    rewrite <- app_assoc. cbn [app]. destruct A as [|a' A].
    + cbn. rewrite Nat.eqb_refl. exists [], (a :: B). split_and!; [done|done|].
      apply (insert_back_at x [] (a :: B)); [by left|done].
    + rewrite (proj2 (Nat.eqb_neq _ _)).
      * cbn [negb]. apply IH; [by rewrite <- !app_assoc in *|done|done|]. rewrite length_app in Hf. cbn in *. lia.
      * destruct Hq' as [[Hh _]%list.NoDup_cons _]. intros E. apply Hh. rewrite last_cons in E. rewrite <- E.
        apply (elem_of_app (a' :: A)). left. apply last_in.
Qed.

Lemma insert_back_perm x l : insert_back x l ≡ₚ x :: l.
Proof.
  induction l as [|y l IH]; [done|]. cbn [insert_back]. destruct (forallb _ _); [done|].
  rewrite IH. apply Permutation_swap.
Qed.

Lemma sort_loop_ok h fuel : forall m done_ rest,
  queue m h (done_ ++ rest) -> done_ <> [] -> (length rest < fuel)%nat ->
  exists m', sort_loop NGX_DEBUG cmp fuel h (hd h rest) m = Some m'
    /\ queue m' h (foldl (fun acc x => insert_back x acc) done_ rest) /\ dom m' = dom m.
Proof.
  induction fuel as [|fuel IH]; intros m done_ rest Hq Hne Hf; [lia|]. cbn [sort_loop]. unfold ngx_queue_sentinel.
  destruct rest as [|x rest].
  { cbn [hd foldl]. rewrite Nat.eqb_refl, app_nil_r in *. by exists m. }
  cbn [hd foldl]. pose proof Hq as [[Hh Hnd]%list.NoDup_cons _].
  assert (x <> h) as Hxh by (intros ->; apply Hh, elem_of_app; right; by left).
  rewrite (proj2 (Nat.eqb_neq _ _)) by done. unfold ngx_queue_prev, ngx_queue_next.
  destruct (queue_mid m h _ x _ Hq) as [-> ->]. cbn [mbind option_bind].
  destruct (ngx_queue_remove_ok NGX_DEBUG m h done_ x rest Hq) as (m1 & -> & Hq1 & Hd1 & _). cbn [mbind option_bind].
  assert (is_Some (m1 !! x)) as Hx1.
  { apply elem_of_dom. rewrite Hd1. apply elem_of_dom. eapply queue_node; [done|]. right. apply elem_of_app. right. by left. }
  assert (x ∉ h :: done_ ++ rest) as Hx.
  { apply not_elem_of_cons. split; [done|]. rewrite <- Permutation_middle in Hnd. by apply list.NoDup_cons in Hnd as [? _]. }
  pose proof (queue_size m1 h _ Hq1) as Hsize. rewrite length_app in Hsize.
  destruct (find_place_ok m1 h x rest (size m1) done_ []) as (A & B & -> & HAB & Hins);
    [by rewrite app_nil_r|done|constructor|lia|].
  rewrite app_nil_r in HAB, Hins. cbn [mbind option_bind]. rewrite HAB, <- app_assoc in Hq1, Hx.
  destruct (insert_after_ok m1 h A (B ++ rest) x Hq1 Hx1 Hx) as (m2 & -> & Hq2 & Hd2). cbn [mbind option_bind].
  destruct (IH m2 (insert_back x done_) rest) as (m3 & -> & Hq3 & Hd3).
  - rewrite Hins, <- app_assoc. exact Hq2.
  - rewrite Hins. by destruct A.
  - cbn [length] in Hf. lia.
  - exists m3. split_and!; [done|done|congruence].
Qed.

Lemma ngx_queue_sort_ok m h l : queue m h l ->
  exists m', ngx_queue_sort NGX_DEBUG cmp h m = Some m' /\ queue m' h (insertion_sort l) /\ dom m' = dom m.
Proof.
  intros Hq. unfold ngx_queue_sort, ngx_queue_head, ngx_queue_last. destruct (queue_ends m h l Hq) as [-> ->].
  cbn [mbind option_bind]. destruct l as [|x l]; [cbn; rewrite Nat.eqb_refl; by exists m|].
  cbn [hd]. rewrite last_cons. destruct (Nat.eqb_spec x (List.last l x)) as [E|E].
  - assert (l = []) as ->; [|by exists m]. destruct l as [|y l]; [done|]. exfalso.
    destruct Hq as [[_ [Hx _]%list.NoDup_cons]%list.NoDup_cons _]. apply Hx. rewrite E, last_cons. apply last_in.
  - unfold ngx_queue_next. pose proof (queue_mid m h [] x l Hq) as [-> _]. cbn [mbind option_bind].
    pose proof (queue_size m h _ Hq) as Hs. cbn [length] in Hs.
    apply (sort_loop_ok h (size m) m [x] l Hq); [done|lia].
Qed.

Lemma insert_back_split x l : exists A B, l = A ++ B /\ insert_back x l = A ++ x :: B
  /\ (A = [] \/ cmp (List.last A x) x <= 0) /\ Forall (fun z => 0 < cmp z x) B.
Proof.
  induction l as [|y l IH]; [exists [], []; split_and!; try done; by left|]. cbn [insert_back].
  destruct (forallb _ (y :: l)) eqn:E.
  - exists [], (y :: l). split_and!; [done|done|by left|]. apply list.Forall_forall. intros z Hz%list_elem_of_In.
    rewrite forallb_forall in E. specialize (E z Hz). apply negb_true_iff, Z.leb_gt in E. lia.
  - destruct IH as (A & B & -> & HI & HA & HB). exists (y :: A), B. split_and!; [done|by rewrite HI| |done].
    right. rewrite last_cons. destruct A as [|a A]; [clear HA|destruct HA as [|HA]; [done|by rewrite last_cons in *]].
    cbn. destruct (Z.leb_spec (cmp y x) 0); [done|]. exfalso. apply not_true_iff_false in E. apply E.
    apply forallb_forall. intros z Hz%list_elem_of_In. apply negb_true_iff, Z.leb_gt.
    apply elem_of_cons in Hz as [->|Hz]; [done|]. rewrite list.Forall_forall in HB. specialize (HB z Hz). lia.
Qed.

Lemma insertion_sort_perm l : insertion_sort l ≡ₚ l.
Proof.
  unfold insertion_sort. assert (forall acc, foldl (fun acc x => insert_back x acc) acc l ≡ₚ acc ++ l) as H; [|apply (H [])].
  induction l as [|x l IH]; intros acc; cbn [foldl]; [by rewrite app_nil_r|].
  rewrite IH, insert_back_perm. cbn. apply Permutation_middle.
Qed.

(** Elements that compare equal keep their order. *)
Lemma insertion_sort_stable (P : nat -> Prop) `{!forall x, Decision (P x)} l :
  (forall a b, a ∈ l -> b ∈ l -> P a -> P b -> cmp a b <= 0) -> filter P (insertion_sort l) = filter P l.
Proof.
  unfold insertion_sort. intros HP.
  assert (forall acc, (forall a b, a ∈ acc ++ l -> b ∈ acc ++ l -> P a -> P b -> cmp a b <= 0) ->
    filter P (foldl (fun acc x => insert_back x acc) acc l) = filter P (acc ++ l)) as Hall; [|by apply (Hall [])].
  clear HP. induction l as [|x l IH]; intros acc HP; cbn [foldl]; [by rewrite app_nil_r|].
  rewrite IH.
  - destruct (insert_back_split x acc) as (A & B & -> & -> & _ & HB).
    rewrite <- !app_assoc. cbn [app]. rewrite !list.filter_app, !filter_cons, !list.filter_app.
    case_decide as Hx; [|done]. assert (filter P B = []) as ->; [|done].
    apply elem_of_nil_inv. intros b [HPb Hb]%list_elem_of_filter. rewrite list.Forall_forall in HB.
    specialize (HB b Hb). assert (cmp b x <= 0); [|lia].
    apply HP; [| |done..]; apply elem_of_app; [left; apply elem_of_app; by right|right; by left].
  - intros a b Ha Hb. apply HP; rewrite insert_back_perm in *; set_solver.
Qed.

Section Order.
Hypothesis total : forall a b, 0 < cmp a b -> cmp b a <= 0.
Hypothesis trans : forall a b c, cmp a b <= 0 -> cmp b c <= 0 -> cmp a c <= 0.
Abbreviation le := (fun a b => cmp a b <= 0).

Lemma insert_back_sorted x l : StronglySorted le l -> StronglySorted le (insert_back x l).
Proof.
  destruct (insert_back_split x l) as (A & B & -> & -> & HA & HB).
  rewrite !StronglySorted_app, StronglySorted_cons. intros (HAB & HSA & HSB).
  rewrite list.Forall_forall in HB.
  assert (forall a, a ∈ A -> le a x) as HAx.
  { destruct A as [|a A _] using rev_ind; [by intros a ?%elem_of_nil|].
    destruct HA as [HA|HA]; [by destruct A|]. rewrite List.last_last in HA. intros b Hb.
    apply elem_of_app in Hb as [Hb| ->%list_elem_of_singleton]; [|done].
    apply StronglySorted_app in HSA as (HSA & _). eapply trans; [|exact HA]. apply HSA; [done|by left]. }
  split_and!; [|done| |done].
  - intros a b Ha [->|Hb]%elem_of_cons; [by apply HAx|by apply HAB].
  - apply list.Forall_forall. intros b Hb. by apply total, HB.
Qed.

Lemma insertion_sort_sorted l : StronglySorted le (insertion_sort l).
Proof.
  unfold insertion_sort. assert (forall acc, StronglySorted le acc ->
    StronglySorted le (foldl (fun acc x => insert_back x acc) acc l)) as H; [|apply H; constructor].
  induction l as [|x l IH]; intros acc Hacc; [done|]. cbn [foldl]. by apply IH, insert_back_sorted.
Qed.
End Order.
End SortProofs.

(** ** Splitting and joining *)

Ltac pointers :=
  repeat match goal with
  | H : forall q, get_next q ?m = _ |- context [get_next _ ?m] => rewrite H
  | H : forall q, get_prev q ?m = _ |- context [get_prev _ ?m] => rewrite H
  end.

(** A queue whose way is another one's, but for its ends. *)
Lemma chain_ends m m' a l b a' b' :
  chain m a l b -> l <> [] -> NoDup l ->
  get_next a' m' = Some (hd b l) -> get_prev (hd b l) m' = Some a' ->
  get_next (List.last l a) m' = Some b' -> get_prev b' m' = Some (List.last l a) ->
  (forall q, q ∈ l -> q <> List.last l a -> get_next q m' = get_next q m) ->
  (forall q, q ∈ l -> q <> hd b l -> get_prev q m' = get_prev q m) -> chain m' a' l b'.
Proof.
  revert a a'. induction l as [|x l IH]; intros a a' H Hne Hnd Ha Hx Hl Hb Hn Hp; [done|].
  cbn [hd chain] in *. split; [done|]. destruct H as [_ H]. rewrite last_cons in *.
  apply list.NoDup_cons in Hnd as [Hxl Hnd]. destruct l as [|y l]; [done|].
  assert (x <> List.last (y :: l) x) as Hxlast.
  { intros E. apply Hxl. rewrite E, last_cons. apply last_in. }
  assert (y <> x) as Hyx by (intros ->; apply Hxl; by left).
  destruct H as [[H1 H2] H]. apply (IH x x); cbn [hd]; try done.
  - rewrite Hn; [done|by left|done].
  - rewrite Hp; [done|right; by left|done].
  - intros q Hq. apply Hn. by right.
  - intros q Hq Hqy. apply Hp; [by right|]. intros ->. by apply Hxl.
Qed.

Lemma chain_last_next m a l b : chain m a l b -> get_next (List.last l a) m = Some b.
Proof.
  revert a. induction l as [|x l IH]; intros a; [by intros [? _]|]. intros [_ H]. rewrite last_cons. by apply IH.
Qed.

Lemma ngx_queue_split_ok m h l1 q l2 n :
  queue m h (l1 ++ q :: l2) -> is_Some (m !! n) -> n ∉ h :: l1 ++ q :: l2 ->
  exists m', ngx_queue_split h q n m = Some m' /\ queue m' h l1 /\ queue m' n (q :: l2) /\ dom m' = dom m.
Proof.
  intros Hq Hn Hnin. destruct (queue_ends m h _ Hq) as [_ Hlast]. destruct (queue_mid m h l1 q l2 Hq) as [_ Hqp].
  assert (List.last (l1 ++ q :: l2) h = List.last l2 q) as E.
  { clear. revert h. induction l1 as [|x l1 IH]; intros h; cbn [app]; rewrite last_cons; [done|apply IH]. }
  rewrite E in Hlast. clear E. set (e := List.last l2 q) in *. set (p := List.last l1 h) in *.
  assert (e ∈ q :: l2) as He by apply last_in. assert (p ∈ h :: l1) as Hp by apply last_in.
  assert (forall x, x ∈ h :: l1 ++ q :: l2 -> x ∈ dom m) as Hdom by (intros x Hx; by eapply elem_of_dom, queue_node).
  assert (h ∈ dom m /\ q ∈ dom m /\ e ∈ dom m /\ p ∈ dom m /\ n ∈ dom m) as (D1 & D2 & D3 & D4 & D5).
  { split_and!; [apply Hdom; clear Hdom; set_solver..|by apply elem_of_dom]. }
  destruct Hq as [Hnd H]. pose proof H as [H1 H2]%chain_app. clear H.
  assert (NoDup ((h :: l1) ++ q :: l2)) as (Hd1 & Hd & Hd2)%list.NoDup_app by done.
  assert (h <> q /\ n <> q /\ n <> h /\ e <> n /\ p <> n /\ p <> q /\ e <> h /\ p <> e) as
    (N1 & N2 & N3 & N4 & N5 & N6 & N7 & N8).
  { clear Hdom H1 H2 Hlast Hqp. clearbody e p. split_and!; set_solver. }
  unfold ngx_queue_split. rewrite Hlast. cbn [mbind option_bind].
  write_link; [by apply elem_of_dom|]. rewrite Hp0, decide_True by done. cbn [mbind option_bind].
  write_link; [apply elem_of_dom; congruence|]. write_link; [apply elem_of_dom; congruence|].
  rewrite Hp2, Hp1, Hp0, decide_False, Hqp by congruence. cbn [mbind option_bind].
  write_link; [apply elem_of_dom; congruence|]. rewrite Hp3, decide_True by done. cbn [mbind option_bind].
  write_link; [apply elem_of_dom; congruence|].
  write_link; [apply elem_of_dom; congruence|].
  assert (forall x, get_next x m5 = if decide (x = p) then Some h else if decide (x = n) then Some q
    else if decide (x = e) then Some n else get_next x m) as FN.
  { intros x. pointers. done. }
  assert (forall x, get_prev x m5 = if decide (x = q) then Some n else if decide (x = h) then Some p
    else if decide (x = n) then Some e else get_prev x m) as FP.
  { intros x. pointers. done. }
  exists m5. split; [done|]. assert (dom m5 = dom m) as Hdom5 by congruence.
  assert (forall x, x ∈ h :: l1 -> x <> n /\ x <> q /\ x <> e) as Hin1.
  { intros x Hx. split_and!; [|by intros ->; apply (Hd q Hx); left|by intros ->; apply (Hd e Hx)].
    intros ->. apply Hnin. apply (elem_of_app (h :: l1)). by left. }
  assert (forall x, x ∈ q :: l2 -> x <> n /\ x <> h /\ x <> p) as Hin2.
  { intros x Hx. split_and!; [|by intros ->; apply (Hd h); [left|]|by intros ->; apply (Hd p)].
    intros ->. apply Hnin. apply (elem_of_app (h :: l1)). by right. }
  clear - FN FP H1 H2 Hqp Hlast Hd1 Hd2 N1 N2 N3 N4 N5 N6 N7 N8 He Hp Hdom5 Hin1 Hin2.
  split; [|split; [|done]].
  - split; [done|]. destruct l1 as [|x l1].
    + split; [by rewrite FN, decide_True|by rewrite FP, decide_False, decide_True].
    + pose proof Hd1 as [Hh Hd1']%list.NoDup_cons. destruct (Hin1 x) as (Q1 & Q2 & Q3); [by right; left|].
      assert (x <> h) as Hxh by (intros ->; apply Hh; by left).
      assert (h <> p) as Hhp by (intros E; apply Hh; rewrite E; unfold p; rewrite last_cons; apply last_in).
      apply (chain_ends m m5 h (x :: l1) q h h); cbn [hd]; try done.
      * rewrite FN, !decide_False by (done || by apply Hin1; left). by rewrite (chain_first _ _ _ _ H1).
      * rewrite FP, !decide_False by done. by destruct H1 as [[_ ?] _].
      * by rewrite FN, decide_True.
      * by rewrite FP, decide_False, decide_True.
      * intros y Hy Hne. destruct (Hin1 y) as (? & ? & ?); [by right|]. by rewrite FN, !decide_False.
      * intros y Hy Hne. destruct (Hin1 y) as (? & ? & ?); [by right|].
        rewrite FP, !decide_False; try done. by intros ->.
  - split; [apply list.NoDup_cons; split; [|done]; intros Hx; by destruct (Hin2 n Hx)|].
    assert (chain m p (q :: l2) h) as H by (split; [split; [apply (chain_last_next _ _ _ _ H1)|done]|done]).
    apply (chain_ends m m5 p (q :: l2) h n n); cbn [hd]; rewrite ?last_cons; try done; fold e.
    + by rewrite FN, decide_False, decide_True.
    + by rewrite FP, decide_True.
    + by rewrite FN, decide_False, decide_False, decide_True.
    + by rewrite FP, decide_False, decide_False, decide_True.
    + intros y Hy Hne. destruct (Hin2 y Hy) as (? & ? & ?). by rewrite FN, !decide_False.
    + intros y Hy Hne. destruct (Hin2 y Hy) as (? & ? & ?). by rewrite FP, !decide_False.
Qed.

(** The queues do not share nodes; the second is not empty. *)
Lemma ngx_queue_add_ok m h l1 n x l2 :
  queue m h l1 -> queue m n (x :: l2) -> (forall q, q ∈ h :: l1 -> q ∉ n :: x :: l2) ->
  exists m', ngx_queue_add h n m = Some m' /\ queue m' h (l1 ++ x :: l2) /\ dom m' = dom m.
Proof.
  intros Hq1 Hq2 Hd. destruct (queue_ends m h l1 Hq1) as [Hfirst1 Hlast1].
  destruct (queue_ends m n _ Hq2) as [Hfirst2 Hlast2]. cbn [hd] in Hfirst2. rewrite last_cons in Hlast2.
  set (p := List.last l1 h) in *. set (e := List.last l2 x) in *.
  assert (p ∈ h :: l1) as Hp by apply last_in. assert (e ∈ x :: l2) as He by apply last_in.
  assert (p ∈ dom m /\ e ∈ dom m /\ x ∈ dom m /\ h ∈ dom m) as (D1 & D2 & D3 & D4).
  { split_and!; apply elem_of_dom; [by apply (queue_node m h l1)|apply (queue_node m n (x :: l2)); [done|by right]| |].
    - apply (queue_node m n (x :: l2)); [done|right; by left].
    - apply (queue_node m h l1); [done|by left]. }
  assert (h <> x /\ p <> e /\ h <> n) as (N1 & N2 & N3).
  { split_and!; [intros E; apply (Hd h); [by left|]; rewrite E; right; by left| |intros E; apply (Hd h); [by left|]; rewrite E; by left].
    intros E. apply (Hd p Hp). rewrite E. by right. }
  assert (p <> n) as N4 by (intros E; apply (Hd p Hp); rewrite E; by left).
  unfold ngx_queue_add. rewrite Hlast1. cbn [mbind option_bind]. rewrite Hfirst2. cbn [mbind option_bind].
  write_link; [by apply elem_of_dom|]. rewrite Hn, decide_False, Hfirst2 by done. cbn [mbind option_bind].
  rewrite Hp0, Hlast1. cbn [mbind option_bind].
  write_link; [apply elem_of_dom; congruence|].
  assert (n <> x) as Hnx by (destruct Hq2 as [[Hx _]%list.NoDup_cons _]; intros ->; apply Hx; by left).
  rewrite Hp1, decide_False, Hp0, Hlast2 by done. cbn [mbind option_bind].
  write_link; [apply elem_of_dom; congruence|]. rewrite Hp2, decide_True by done. cbn [mbind option_bind].
  write_link; [apply elem_of_dom; congruence|].
  assert (forall y, get_next y m3 = if decide (y = e) then Some h else if decide (y = p) then Some x else get_next y m) as FN
    by (intros y; pointers; done).
  assert (forall y, get_prev y m3 = if decide (y = h) then Some e else if decide (y = x) then Some p else get_prev y m) as FP
    by (intros y; pointers; done).
  exists m3. split; [done|]. split; [|congruence].
  destruct Hq1 as [Hnd1 H1], Hq2 as [[Hnx2 Hnd2]%list.NoDup_cons H2].
  assert (forall y, y ∈ h :: l1 -> y <> e /\ y <> x) as Hin1.
  { intros y Hy. split; intros ->; apply (Hd _ Hy); [by right|right; by left]. }
  assert (forall y, y ∈ x :: l2 -> y <> h /\ y <> p) as Hin2.
  { intros y Hy. split; intros ->; [apply (Hd h); [by left|]|apply (Hd p Hp)]; by right. }
  clear - H1 H2 FN FP Hnd1 Hnd2 Hin1 Hin2 Hp He N1 N2 Hd.
  split.
  { change (NoDup ((h :: l1) ++ x :: l2)). apply list.NoDup_app. split_and!; [done| |done].
    intros y Hy Hy2. apply (Hd y Hy). by right. }
  apply chain_app. split.
  - destruct l1 as [|z l1].
    + split; [by rewrite FN, decide_False, decide_True|by rewrite FP, decide_False, decide_True].
    + pose proof Hnd1 as [Hh Hnd1']%list.NoDup_cons. destruct (Hin1 z) as (Q1 & Q2); [by right; left|].
      assert (z <> h) as Hzh by (intros ->; apply Hh; by left).
      assert (h <> p) as Hhp by (intros E; apply Hh; rewrite E; unfold p; rewrite last_cons; apply last_in).
      apply (chain_ends m m3 h (z :: l1) h h x); cbn [hd]; try done.
      * rewrite FN, !decide_False by (done || by apply Hin1; left). by rewrite (chain_first _ _ _ _ H1).
      * rewrite FP, !decide_False by done. by destruct H1 as [[_ ?] _].
      * by rewrite FN, decide_False, decide_True.
      * by rewrite FP, decide_False, decide_True.
      * intros y Hy Hne. destruct (Hin1 y) as (? & ?); [by right|]. by rewrite FN, !decide_False.
      * intros y Hy Hne. destruct (Hin1 y) as (? & ?); [by right|].
        rewrite FP, !decide_False; try done. by intros ->.
  - enough (chain m3 p (x :: l2) h) as [_ ?] by done.
    apply (chain_ends m m3 n (x :: l2) n p h); cbn [hd]; rewrite ?last_cons; try done; fold e.
    + by rewrite FN, decide_False, decide_True.
    + by rewrite FP, decide_False, decide_True.
    + by rewrite FN, decide_True.
    + by rewrite FP, decide_True.
    + intros y Hy Hne. destruct (Hin2 y Hy) as (? & ?). by rewrite FN, !decide_False.
    + intros y Hy Hne. destruct (Hin2 y Hy) as (? & ?). by rewrite FP, !decide_False.
Qed.

(** ** Any use of a queue *)

(** What the users of a queue do.  They insert only what is not in it, and ask for the
    neighbours only of what is. *)
Inductive queue_op :=
  | InsertHead (x : nat) | InsertTail (x : nat) | InsertAfter (p x : nat) | TakeOut (x : nat) | Sort
  | AskHead | AskLast | AskNext (p : nat) | AskPrev (p : nat) | AskMiddle.

Section Run.
Variable NGX_DEBUG : bool.
Variable cmp : nat -> nat -> Z.
Variable h : nat.

Definition asks (r : option nat) (m : memory) : option (nat * memory) := x ← r; Some (x, m).
Definition does (r : option memory) : option (nat * memory) := m ← r; Some (0%nat, m).

Definition queue_step (op : queue_op) (m : memory) : option (nat * memory) :=
  match op with
  | InsertHead x => does (ngx_queue_insert_head h x m)
  | InsertTail x => does (ngx_queue_insert_tail h x m)
  | InsertAfter p x => does (ngx_queue_insert_after p x m)
  | TakeOut x => does (ngx_queue_remove NGX_DEBUG x m)
  | Sort => does (ngx_queue_sort NGX_DEBUG cmp h m)
  | AskHead => asks (ngx_queue_head h m) m
  | AskLast => asks (ngx_queue_last h m) m
  | AskNext p => asks (ngx_queue_next p m) m
  | AskPrev p => asks (ngx_queue_prev p m) m
  | AskMiddle => asks (ngx_queue_middle h m) m
  end.

Fixpoint queue_run (ops : list queue_op) (m : memory) : option (list nat * memory) :=
  match ops with
  | [] => Some ([], m)
  | op :: ops => '(r, m) ← queue_step op m; '(rs, m) ← queue_run ops m; Some (r :: rs, m)
  end.

(** The specification, over a list; [h] stands for the end, and [None] for what a user must
    not do. *)
Fixpoint insert_behind (p x : nat) (l : list nat) : list nat :=
  match l with
  | [] => []
  | y :: l' => if decide (y = p) then y :: x :: l' else y :: insert_behind p x l'
  end.
Definition without (x : nat) : list nat -> list nat := filter (fun y => y <> x).
Fixpoint neighbour (d p : nat) (l : list nat) : nat :=
  match l with
  | [] => d
  | y :: l' => if decide (y = p) then hd d l' else neighbour d p l'
  end.
Definition new (x : nat) (l l' : list nat) : option (nat * list nat) :=
  if decide (x = h \/ x ∈ l) then None else Some (0%nat, l').

Definition list_step (op : queue_op) (l : list nat) : option (nat * list nat) :=
  match op with
  | InsertHead x => new x l (x :: l)
  | InsertTail x => new x l (l ++ [x])
  | InsertAfter p x => if decide (p ∈ l) then new x l (insert_behind p x l) else None
  | TakeOut x => if decide (x ∈ l) then Some (0%nat, without x l) else None
  | Sort => Some (0%nat, insertion_sort cmp l)
  | AskHead => Some (hd h l, l)
  | AskLast => Some (List.last l h, l)
  | AskNext p => if decide (p ∈ l) then Some (neighbour h p l, l) else None
  | AskPrev p => if decide (p ∈ l) then Some (neighbour h p (rev l), l) else None
  | AskMiddle => Some (default h (l !! (length l / 2)%nat), l)
  end.

Fixpoint list_run (ops : list queue_op) (l : list nat) : option (list nat * list nat) :=
  match ops with
  | [] => Some ([], l)
  | op :: ops => '(r, l) ← list_step op l; '(rs, l) ← list_run ops l; Some (r :: rs, l)
  end.

(** The nodes that are inserted are in memory. *)
Definition op_in (m : memory) (op : queue_op) : Prop :=
  match op with InsertHead x | InsertTail x | InsertAfter _ x => x ∈ dom m | _ => True end.

Lemma without_none x l : x ∉ l -> without x l = l.
Proof. intros Hx. apply filter_all. by intros y Hy ->. Qed.

Lemma without_at l1 x l2 : NoDup (l1 ++ x :: l2) -> without x (l1 ++ x :: l2) = l1 ++ l2.
Proof.
  intros (_ & Hd & Hn)%list.NoDup_app. apply list.NoDup_cons in Hn as [Hx _].
  unfold without. rewrite list.filter_app, filter_cons_False by (intros E; by apply E).
  f_equal; apply without_none; [|done]. intros Hin. apply (Hd _ Hin). by left.
Qed.

Lemma insert_behind_at l1 p l2 x : p ∉ l1 -> insert_behind p x (l1 ++ p :: l2) = l1 ++ p :: x :: l2.
Proof.
  induction l1 as [|y l1 IH]; intros Hp; cbn; [by rewrite decide_True|].
  apply not_elem_of_cons in Hp as [Hpy Hp]. rewrite decide_False by done. by rewrite IH.
Qed.

Lemma neighbour_at d l1 p l2 : p ∉ l1 -> neighbour d p (l1 ++ p :: l2) = hd d l2.
Proof.
  induction l1 as [|y l1 IH]; intros Hp; cbn; [by rewrite decide_True|].
  apply not_elem_of_cons in Hp as [Hpy Hp]. rewrite decide_False by done. by apply IH.
Qed.

Lemma hd_rev l (d : nat) : hd d (rev l) = List.last l d.
Proof. destruct l as [|x l _] using rev_ind; [done|]. by rewrite rev_app_distr, List.last_last. Qed.

Lemma split_at (p : nat) l : p ∈ l -> NoDup l -> exists l1 l2, l = l1 ++ p :: l2 /\ p ∉ l1 /\ p ∉ l2.
Proof.
  intros (l1 & l2 & ->)%list_elem_of_split (_ & Hd & [Hp _]%list.NoDup_cons)%list.NoDup_app.
  exists l1, l2. split_and!; [done| |done]. intros Hin. apply (Hd _ Hin). by left.
Qed.

Lemma queue_step_ok op m l r l' : queue m h l -> op_in m op -> list_step op l = Some (r, l') ->
  exists m', queue_step op m = Some (r, m') /\ queue m' h l' /\ dom m' = dom m.
Proof.
  intros Hq Hin Hl. pose proof Hq as [[Hh Hnd]%list.NoDup_cons _].
  assert (forall x y, new x l y = Some (r, l') -> r = 0%nat /\ l' = y /\ x ∉ h :: l) as Hnew.
  { intros x y. unfold new. case_decide as Hd; [done|]. intros [= <- <-]. split_and!; [done..|].
    intros [->|Hx]%elem_of_cons; apply Hd; auto. }
  destruct op as [x|x|p x|x|  |  |  |p|p|]; cbn [list_step queue_step op_in] in *; unfold does, asks.
  - destruct (Hnew _ _ Hl) as (-> & -> & Hx). apply elem_of_dom in Hin.
    destruct (ngx_queue_insert_head_ok m h l x Hq Hin Hx) as (m' & -> & Hq' & Hd & _). by exists m'.
  - destruct (Hnew _ _ Hl) as (-> & -> & Hx). apply elem_of_dom in Hin.
    destruct (ngx_queue_insert_tail_ok m h l x Hq Hin Hx) as (m' & -> & Hq' & Hd & _). by exists m'.
  - case_decide as Hp; [|done]. destruct (Hnew _ _ Hl) as (-> & -> & Hx). apply elem_of_dom in Hin.
    destruct (split_at p l Hp Hnd) as (l1 & l2 & -> & Hp1 & _). rewrite insert_behind_at by done.
    destruct (ngx_queue_insert_after_ok m h l1 p l2 x Hq Hin Hx) as (m' & -> & Hq' & Hd & _). by exists m'.
  - case_decide as Hp; [|done]. injection Hl as <- <-. destruct (split_at x l Hp Hnd) as (l1 & l2 & -> & _).
    rewrite without_at by done.
    destruct (ngx_queue_remove_ok NGX_DEBUG m h l1 x l2 Hq) as (m' & -> & Hq' & Hd & _). by exists m'.
  - injection Hl as <- <-. destruct (ngx_queue_sort_ok NGX_DEBUG cmp m h l Hq) as (m' & -> & Hq' & Hd). by exists m'.
  - injection Hl as <- <-. unfold ngx_queue_head. rewrite (proj1 (queue_ends m h l Hq)). by exists m.
  - injection Hl as <- <-. unfold ngx_queue_last. rewrite (proj2 (queue_ends m h l Hq)). by exists m.
  - case_decide as Hp; [|done]. injection Hl as <- <-. destruct (split_at p l Hp Hnd) as (l1 & l2 & -> & Hp1 & _).
    unfold ngx_queue_next. rewrite (proj1 (queue_mid m h l1 p l2 Hq)), neighbour_at by done. by exists m.
  - case_decide as Hp; [|done]. injection Hl as <- <-. destruct (split_at p l Hp Hnd) as (l1 & l2 & -> & _ & Hp2).
    unfold ngx_queue_prev. rewrite (proj2 (queue_mid m h l1 p l2 Hq)), rev_app_distr. cbn [rev].
    rewrite <- app_assoc. cbn [app]. rewrite neighbour_at, hd_rev by (by rewrite list_elem_of_In, <- in_rev, <- list_elem_of_In). by exists m.
  - injection Hl as <- <-. rewrite (ngx_queue_middle_ok m h l Hq). by exists m.
Qed.

Lemma queue_run_ok ops : forall m l rs l', queue m h l -> Forall (op_in m) ops ->
  list_run ops l = Some (rs, l') -> exists m', queue_run ops m = Some (rs, m') /\ queue m' h l'.
Proof.
  induction ops as [|op ops IH]; intros m l rs l' Hq Hin Hl; cbn in *; [simplify_eq; by exists m|].
  apply list.Forall_cons in Hin as [Hop Hin].
  destruct (list_step op l) as [[r l1]|] eqn:H1; [|done]. cbn [mbind option_bind] in Hl.
  destruct (list_run ops l1) as [[rs1 l2]|] eqn:H2; [|done]. cbn [mbind option_bind] in Hl. simplify_eq.
  destruct (queue_step_ok _ _ _ _ _ Hq Hop H1) as (m1 & -> & Hq1 & Hd1). cbn [mbind option_bind].
  assert (Forall (op_in m1) ops) as Hin1.
  { eapply Forall_impl; [|exact Hin]. intros [] Ho; cbn in *; by rewrite ?Hd1. }
  destruct (IH _ _ _ _ Hq1 Hin1 H2) as (m2 & -> & Hq2). cbn [mbind option_bind]. by exists m2.
Qed.

(** C16: A queue is a list.  Whatever its users do with a new queue, insertions at both ends and behind an element, removals, questions for the ends, the neighbours and the middle, and sorting, every pointer is where the code looks for it, the loops end, and the answers are those of a list; what is in the queue at the end is linked in both directions. *)
Theorem ngx_queue_refines (m : memory) (ops : list queue_op) rs l :
  is_Some (m !! h) -> Forall (op_in m) ops -> list_run ops [] = Some (rs, l) ->
  exists m0 m', ngx_queue_init h m = Some m0 /\ queue_run ops m0 = Some (rs, m') /\ queue m' h l.
Proof.
  intros Hh Hin Hl. destruct (ngx_queue_init_ok h m Hh) as (m0 & Hi & Hq & Hd). exists m0.
  assert (Forall (op_in m0) ops) as Hin0.
  { eapply Forall_impl; [|exact Hin]. intros [] Ho; cbn in *; by rewrite ?Hd. }
  destruct (queue_run_ok _ _ _ _ _ Hq Hin0 Hl) as (m' & Hr & Hq'). by exists m'.
Qed.

(** C17: Sorting a queue.  For a comparison that is a total preorder, [ngx_queue_sort] leaves the same elements in the queue, sorted, and those that compare equal in the order in which they were. *)
Theorem ngx_queue_sort_stable (m : memory) l :
  queue m h l -> (forall a b, 0 < cmp a b -> cmp b a <= 0) ->
  (forall a b c, cmp a b <= 0 -> cmp b c <= 0 -> cmp a c <= 0) ->
  exists m' l', ngx_queue_sort NGX_DEBUG cmp h m = Some m' /\ queue m' h l'
    /\ l' ≡ₚ l /\ StronglySorted (fun a b => cmp a b <= 0) l'
    /\ forall a, filter (fun b => cmp a b <= 0 /\ cmp b a <= 0) l' = filter (fun b => cmp a b <= 0 /\ cmp b a <= 0) l.
Proof.
  intros Hq Ht Htr. destruct (ngx_queue_sort_ok NGX_DEBUG cmp m h l Hq) as (m' & Hs & Hq' & _).
  exists m', (insertion_sort cmp l). split_and!; [done|done|apply insertion_sort_perm|by apply insertion_sort_sorted|].
  intros a. apply insertion_sort_stable. intros x y _ _ [_ Hx] [Hy _]. by eapply Htr.
Qed.
End Run.

(** Five nodes of a memory, sorted by the remainder of division by 3. *)
Definition some_memory : memory := list_to_map ((fun p => (p, {| prev := 0; next := 0 |})) <$> seq 1 6).
Definition by_rest (a b : nat) : Z := Z.of_nat (a mod 3) - Z.of_nat (b mod 3).

Lemma ngx_queue_refines_witness :
  exists m0 m', ngx_queue_init 1 some_memory = Some m0
    /\ queue_run true by_rest 1 [InsertHead 2; InsertTail 3; InsertAfter 2 4; InsertHead 6; AskMiddle; InsertTail 5;
         Sort; AskHead; AskPrev 2; AskNext 5; TakeOut 4; AskLast] m0
       = Some ([0; 0; 0; 0; 4; 0; 0; 6; 4; 1; 0; 5]%nat, m')
    /\ queue m' 1 [6; 3; 2; 5]%nat.
Proof.
  apply (ngx_queue_refines true by_rest 1 some_memory); [by eexists| |vm_compute; reflexivity].
  repeat constructor; cbn [op_in]; apply elem_of_dom; eexists; reflexivity.
Defined.

Lemma ngx_queue_sort_stable_witness :
  exists m l, queue m 1 l /\ l = [6; 2; 4; 3; 5]%nat
    /\ exists m' l', ngx_queue_sort true by_rest 1 m = Some m' /\ queue m' 1 l' /\ l' ≡ₚ l
      /\ StronglySorted (fun a b => by_rest a b <= 0) l'.
Proof.
  destruct (ngx_queue_init_ok 1 some_memory) as (m0 & Hi & Hq & Hd); [by eexists|].
  destruct (queue_run_ok true by_rest 1 [InsertHead 2; InsertTail 3; InsertAfter 2 4; InsertHead 6; InsertTail 5]
    m0 [] [0; 0; 0; 0; 0]%nat [6; 2; 4; 3; 5]%nat Hq) as (m & _ & Hm); [|reflexivity|].
  { repeat constructor; cbn [op_in]; rewrite Hd; apply elem_of_dom; eexists; reflexivity. }
  exists m, [6; 2; 4; 3; 5]%nat. split; [exact Hm|]. split; [reflexivity|].
  destruct (ngx_queue_sort_stable true by_rest 1 m _ Hm) as (m' & l' & H1 & H2 & H3 & H4 & _);
    [unfold by_rest; lia|unfold by_rest; lia|].
  exists m', l'. split; [exact H1|]. split; [exact H2|]. split; [exact H3|exact H4].
Defined.

(** What is split off can be joined again. *)
Lemma ngx_queue_split_add m h l1 q l2 n :
  queue m h (l1 ++ q :: l2) -> is_Some (m !! n) -> n ∉ h :: l1 ++ q :: l2 ->
  exists m1 m2, ngx_queue_split h q n m = Some m1 /\ queue m1 h l1 /\ queue m1 n (q :: l2)
    /\ ngx_queue_add h n m1 = Some m2 /\ queue m2 h (l1 ++ q :: l2).
Proof.
  intros Hq Hn Hin. pose proof Hq as [Hnd _].
  destruct (ngx_queue_split_ok m h l1 q l2 n Hq Hn Hin) as (m1 & Hs & H1 & H2 & _).
  assert (NoDup ((h :: l1) ++ q :: l2)) as (_ & Hd & _)%list.NoDup_app by done.
  destruct (ngx_queue_add_ok m1 h l1 n q l2 H1 H2) as (m2 & Ha & H & _); [|by exists m1, m2].
  intros x Hx [->|Hx']%elem_of_cons; [|by apply (Hd x)]. apply Hin. apply (elem_of_app (h :: l1)). by left.
Qed.

(** Writing outside of a queue. *)
Lemma queue_write m h l p n : queue m h l -> p ∉ h :: l -> queue (<[p := n]> m) h l.
Proof.
  intros [Hnd H] Hp. split; [done|]. eapply chain_frame; [| |exact H]; intros q Hq; unfold get_next, get_prev;
    (rewrite lookup_insert_ne; [done|]); intros ->; apply Hp; [done|].
  apply elem_of_app in Hq as [Hq|Hq%list_elem_of_singleton]; [by right|subst; by left].
Qed.

Lemma queue_free m h l p : queue m h l -> p ∉ h :: l -> queue (delete p m) h l.
Proof.
  intros [Hnd H] Hp. split; [done|]. eapply chain_frame; [| |exact H]; intros q Hq; unfold get_next, get_prev;
    (rewrite lookup_delete_ne; [done|]); intros ->; apply Hp; [done|].
  apply elem_of_app in Hq as [Hq|Hq%list_elem_of_singleton]; [by right|subst; by left].
Qed.
