(* ===== verification/Rbtree.v ===== *)
(** * Rbtree: the red-black tree of ngx_rbtree.c

    The tree of the timers, the caches and the shared zones: nodes linked by
    [left], [right] and [parent], with a sentinel in place of the missing
    children.  The mirrored halves of the code are one definition here, over the
    side [d] of a child, [true] for the right. *)

From stdpp Require Import gmap sorting.
From S2P Require Import Prelude.

Record ngx_rbtree_node_t := {
  key : Z;
  left : nat;
  right : nat;
  parent : nat;
  color : Z;
}.
#[export] Instance eta_rb_node : Eta ngx_rbtree_node_t := mk_eta (fun n =>
  Build_ngx_rbtree_node_t (key n) (left n) (right n) (parent n) (color n)).

(** [nodes] is the memory; a pointer is the number of a node. *)
Record ngx_rbtree_t := {
  root : nat;
  sentinel : nat;
  nodes : gmap nat ngx_rbtree_node_t;
}.
#[export] Instance eta_rb_tree : Eta ngx_rbtree_t := mk_eta (fun t =>
  Build_ngx_rbtree_t (root t) (sentinel t) (nodes t)).

Definition NULL : nat := 0.

(** [p->f], and [p->f = v]. *)
Definition get {A} (f : ngx_rbtree_node_t -> A) (p : nat) (t : ngx_rbtree_t) : option A :=
  f <$> nodes t !! p.
Definition update (p : nat) (f : ngx_rbtree_node_t -> ngx_rbtree_node_t) (t : ngx_rbtree_t)
    : option ngx_rbtree_t :=
  n ← nodes t !! p; Some (t <| nodes := <[p := f n]> (nodes t) |>).

Definition child (d : bool) (n : ngx_rbtree_node_t) : nat := if d then right n else left n.
Definition set_child (d : bool) (c : nat) (n : ngx_rbtree_node_t) : ngx_rbtree_node_t :=
  if d then n <| right := c |> else n <| left := c |>.
Definition set_parent (p : nat) (n : ngx_rbtree_node_t) : ngx_rbtree_node_t := n <| parent := p |>.
Definition set_color (c : Z) (n : ngx_rbtree_node_t) : ngx_rbtree_node_t := n <| color := c |>.

Definition ngx_rbt_red (p : nat) := update p (set_color 1).
Definition ngx_rbt_black (p : nat) := update p (set_color 0).
Definition ngx_rbt_is_red (p : nat) (t : ngx_rbtree_t) : option bool :=
  c ← get color p t; Some (negb (c =? 0)).
Definition ngx_rbt_is_black (p : nat) (t : ngx_rbtree_t) : option bool :=
  r ← ngx_rbt_is_red p t; Some (negb r).
Definition ngx_rbt_copy_color (p q : nat) (t : ngx_rbtree_t) : option ngx_rbtree_t :=
  c ← get color q t; update p (set_color c) t.

Definition ngx_rbtree_init (s : nat) (mem : gmap nat ngx_rbtree_node_t) : option ngx_rbtree_t :=
  ngx_rbt_black s {| root := s; sentinel := s; nodes := mem |}.

(** [p == p->parent->left], and the same for the right. *)
Definition is_child (d : bool) (p : nat) (t : ngx_rbtree_t) : option bool :=
  par ← get parent p t; c ← get (child d) par t; Some (p =? c)%nat.

(** ** Rotations

    To the side [d]: [ngx_rbtree_left_rotate] and [ngx_rbtree_right_rotate]. *)
Definition ngx_rbtree_rotate (d : bool) (node : nat) (t : ngx_rbtree_t) : option ngx_rbtree_t :=
  temp ← get (child (negb d)) node t;
  c ← get (child d) temp t;
  t ← update node (set_child (negb d) c) t;
  c ← get (child d) temp t;
  t ← (if (c =? sentinel t)%nat then Some t else update c (set_parent node) t);
  par ← get parent node t;
  t ← update temp (set_parent par) t;
  t ← (if (node =? root t)%nat then Some (t <| root := temp |>)
       else
         first ← is_child d node t;
         par ← get parent node t;
         update par (set_child (if (first : bool) then d else negb d) temp) t);
  t ← update temp (set_child d node) t;
  update node (set_parent temp) t.

Definition ngx_rbtree_left_rotate := ngx_rbtree_rotate false.
Definition ngx_rbtree_right_rotate := ngx_rbtree_rotate true.

(** ** Insertion *)

Definition grandparent (p : nat) (t : ngx_rbtree_t) : option nat :=
  par ← get parent p t; get parent par t.

(** The node and its parent are on the same side, and the uncle is black. *)
Definition insert_outer (d : bool) (node : nat) (t : ngx_rbtree_t) : option (nat * ngx_rbtree_t) :=
  par ← get parent node t;
  t ← ngx_rbt_black par t;
  gp ← grandparent node t;
  t ← ngx_rbt_red gp t;
  t ← ngx_rbtree_rotate (negb d) gp t;
  Some (node, t).

(** One turn of the loop that balances the tree, for a red parent. *)
Definition insert_turn (node : nat) (t : ngx_rbtree_t) : option (nat * ngx_rbtree_t) :=
  par ← get parent node t;
  gp ← grandparent node t;
  first ← is_child false par t;
  let d := negb first in
  temp ← get (child (negb d)) gp t;
  red ← ngx_rbt_is_red temp t;
  if (red : bool) then
    t ← ngx_rbt_black par t;
    t ← ngx_rbt_black temp t;
    t ← ngx_rbt_red gp t;
    Some (gp, t)
  else
    inner ← is_child (negb d) node t;
    '(node, t) ← (if (inner : bool)
                  then t ← ngx_rbtree_rotate d par t; Some (par, t)
                  else Some (node, t));
    insert_outer d node t.

Fixpoint insert_loop (fuel : nat) (node : nat) (t : ngx_rbtree_t) : option ngx_rbtree_t :=
  match fuel with
  | O => None
  | S fuel' =>
      if (node =? root t)%nat then Some t
      else
        par ← get parent node t;
        red ← ngx_rbt_is_red par t;
        if (red : bool) then '(node, t) ← insert_turn node t; insert_loop fuel' node t
        else Some t
  end.

(** The tests of the two ways to insert that are in ngx_rbtree.c.  The tests of other
    users may look at more than the keys of the nodes, so they get the pointers too. *)
Definition value_less (a b : nat * Z) : bool := a.2 <? b.2.
Definition timer_less (a b : nat * Z) : bool := i64 (u64 (a.2 - b.2)) <? 0.

(** [ngx_rbtree_insert_value] and [ngx_rbtree_insert_timer_value]. *)
Section Insert.
Variable less : nat * Z -> nat * Z -> bool.

Fixpoint insert_down (fuel : nat) (temp node : nat) (t : ngx_rbtree_t) : option (nat * bool) :=
  match fuel with
  | O => None
  | S fuel' =>
      k ← get key node t;
      k' ← get key temp t;
      let d := negb (less (node, k) (temp, k')) in
      c ← get (child d) temp t;
      if (c =? sentinel t)%nat then Some (temp, d) else insert_down fuel' c node t
  end.

Definition insert_below (temp node : nat) (t : ngx_rbtree_t) : option ngx_rbtree_t :=
  '(temp, d) ← insert_down (size (nodes t)) temp node t;
  t ← update temp (set_child d node) t;
  t ← update node (set_parent temp) t;
  t ← update node (set_child false (sentinel t)) t;
  t ← update node (set_child true (sentinel t)) t;
  ngx_rbt_red node t.

Definition ngx_rbtree_insert (node : nat) (t : ngx_rbtree_t) : option ngx_rbtree_t :=
  if (root t =? sentinel t)%nat then
    t ← update node (set_parent NULL) t;
    t ← update node (set_child false (sentinel t)) t;
    t ← update node (set_child true (sentinel t)) t;
    t ← ngx_rbt_black node t;
    Some (t <| root := node |>)
  else
    t ← insert_below (root t) node t;
    t ← insert_loop (size (nodes t)) node t;
    ngx_rbt_black (root t) t.
End Insert.

Definition ngx_rbtree_insert_value := insert_below value_less.
Definition ngx_rbtree_insert_timer_value := insert_below timer_less.

(** ** Search of the smallest and the next *)

Fixpoint min_loop (fuel : nat) (node : nat) (t : ngx_rbtree_t) : option nat :=
  match fuel with
  | O => None
  | S fuel' =>
      l ← get left node t;
      if (l =? sentinel t)%nat then Some node else min_loop fuel' l t
  end.
Definition ngx_rbtree_min (node : nat) (t : ngx_rbtree_t) : option nat :=
  min_loop (size (nodes t)) node t.

Fixpoint next_loop (fuel : nat) (node : nat) (t : ngx_rbtree_t) : option nat :=
  match fuel with
  | O => None
  | S fuel' =>
      par ← get parent node t;
      if (node =? root t)%nat then Some NULL
      else
        l ← get left par t;
        if (node =? l)%nat then Some par else next_loop fuel' par t
  end.
Definition ngx_rbtree_next (node : nat) (t : ngx_rbtree_t) : option nat :=
  r ← get right node t;
  if negb (r =? sentinel t)%nat then ngx_rbtree_min r t
  else next_loop (size (nodes t)) node t.

(** ** Deletion *)

(** The debugging code. *)
Definition forget (node : nat) : ngx_rbtree_t -> option ngx_rbtree_t :=
  update node (fun n => n <| left := NULL |> <| right := NULL |> <| parent := NULL |> <| key := 0 |>).

(** The child that is left, and the node that leaves its place. *)
Definition choose (node : nat) (t : ngx_rbtree_t) : option (nat * nat) :=
  l ← get left node t;
  r ← get right node t;
  if (l =? sentinel t)%nat then Some (r, node)
  else if (r =? sentinel t)%nat then Some (l, node)
  else
    subst ← ngx_rbtree_min r t;
    temp ← get right subst t;
    Some (temp, subst).

(** The new parent of [temp]. *)
Definition new_parent (node subst : nat) (t : ngx_rbtree_t) : option nat :=
  par ← get parent subst t;
  Some (if (subst =? node)%nat then par else if (par =? node)%nat then subst else par).

(** [subst] takes the place of [node]. *)
Definition replace (node subst : nat) (t : ngx_rbtree_t) : option ngx_rbtree_t :=
  l ← get left node t;
  t ← update subst (set_child false l) t;
  r ← get right node t;
  t ← update subst (set_child true r) t;
  par ← get parent node t;
  t ← update subst (set_parent par) t;
  t ← ngx_rbt_copy_color subst node t;
  t ← (if (node =? root t)%nat then Some (t <| root := subst |>)
       else
         first ← is_child false node t;
         par ← get parent node t;
         update par (set_child (negb first) subst) t);
  l ← get left subst t;
  t ← (if negb (l =? sentinel t)%nat then update l (set_parent subst) t else Some t);
  r ← get right subst t;
  if negb (r =? sentinel t)%nat then update r (set_parent subst) t else Some t.

(** [temp] takes the place of [subst]. *)
Definition unlink (subst temp newpar : nat) (t : ngx_rbtree_t) : option ngx_rbtree_t :=
  first ← is_child false subst t;
  par ← get parent subst t;
  t ← update par (set_child (negb first) temp) t;
  update temp (set_parent newpar) t.

(** The cases of the loop that repairs the tree: the sibling [w] is red, its near
    child is red, its far child is red. *)
Definition sibling_red (d : bool) (temp w : nat) (t : ngx_rbtree_t) : option (nat * ngx_rbtree_t) :=
  t ← ngx_rbt_black w t;
  par ← get parent temp t;
  t ← ngx_rbt_red par t;
  par ← get parent temp t;
  t ← ngx_rbtree_rotate d par t;
  par ← get parent temp t;
  w ← get (child (negb d)) par t;
  Some (w, t).

Definition near_red (d : bool) (temp w : nat) (t : ngx_rbtree_t) : option (nat * ngx_rbtree_t) :=
  near ← get (child d) w t;
  t ← ngx_rbt_black near t;
  t ← ngx_rbt_red w t;
  t ← ngx_rbtree_rotate (negb d) w t;
  par ← get parent temp t;
  w ← get (child (negb d)) par t;
  Some (w, t).

Definition far_red (d : bool) (temp w : nat) (t : ngx_rbtree_t) : option (nat * ngx_rbtree_t) :=
  par ← get parent temp t;
  t ← ngx_rbt_copy_color w par t;
  par ← get parent temp t;
  t ← ngx_rbt_black par t;
  far ← get (child (negb d)) w t;
  t ← ngx_rbt_black far t;
  par ← get parent temp t;
  t ← ngx_rbtree_rotate d par t;
  Some (root t, t).

(** The rest of a turn, for a black sibling. *)
Definition sibling_black (d : bool) (temp w : nat) (t : ngx_rbtree_t) : option (nat * ngx_rbtree_t) :=
  near ← get (child d) w t;
  near_is_black ← ngx_rbt_is_black near t;
  far ← get (child (negb d)) w t;
  far_is_black ← ngx_rbt_is_black far t;
  if (near_is_black : bool) && far_is_black then
    t ← ngx_rbt_red w t;
    par ← get parent temp t;
    Some (par, t)
  else if (far_is_black : bool) then '(w, t) ← near_red d temp w t; far_red d temp w t
  else far_red d temp w t.

Definition delete_turn (temp : nat) (t : ngx_rbtree_t) : option (nat * ngx_rbtree_t) :=
  first ← is_child false temp t;
  let d := negb first in
  par ← get parent temp t;
  w ← get (child (negb d)) par t;
  red ← ngx_rbt_is_red w t;
  if (red : bool) then '(w, t) ← sibling_red d temp w t; sibling_black d temp w t
  else sibling_black d temp w t.

Fixpoint delete_loop (fuel : nat) (temp : nat) (t : ngx_rbtree_t) : option (nat * ngx_rbtree_t) :=
  match fuel with
  | O => None
  | S fuel' =>
      if (temp =? root t)%nat then Some (temp, t)
      else
        black ← ngx_rbt_is_black temp t;
        if (black : bool) then '(temp, t) ← delete_turn temp t; delete_loop fuel' temp t
        else Some (temp, t)
  end.

Definition ngx_rbtree_delete (node : nat) (t : ngx_rbtree_t) : option ngx_rbtree_t :=
  '(temp, subst) ← choose node t;
  if (subst =? root t)%nat then
    t ← ngx_rbt_black temp (t <| root := temp |>);
    forget node t
  else
    red ← ngx_rbt_is_red subst t;
    newpar ← new_parent node subst t;
    t ← unlink subst temp newpar t;
    t ← (if (subst =? node)%nat then Some t else replace node subst t);
    t ← forget node t;
    if (red : bool) then Some t
    else
      '(temp, t) ← delete_loop (S (size (nodes t))) temp t;
      ngx_rbt_black temp t.

(** ** The abstract tree

    A tree with the pointer and the key of each node, and a path from a place in it
    up to the root: [plug] puts a tree at the end of a path. *)

Inductive rbtree := E | N (red : bool) (l : rbtree) (p : nat) (k : Z) (r : rbtree).

Record frame := { fd : bool; fred : bool; fp : nat; fk : Z; fsib : rbtree }.

(** A node with [x] on the side [d]. *)
Definition node (d red : bool) (x : rbtree) (p : nat) (k : Z) (y : rbtree) : rbtree :=
  if d then N red y p k x else N red x p k y.

Definition plug1 (f : frame) (t : rbtree) : rbtree := node (fd f) (fred f) t (fp f) (fk f) (fsib f).
Fixpoint plug (C : list frame) (t : rbtree) : rbtree :=
  match C with
  | [] => t
  | f :: C' => plug C' (plug1 f t)
  end.

Definition is_red (t : rbtree) : bool := match t with N true _ _ _ _ => true | _ => false end.

(** The nodes in order. *)
Fixpoint elems (t : rbtree) : list (nat * Z) :=
  match t with
  | E => []
  | N _ l p k r => elems l ++ (p, k) :: elems r
  end.

Fixpoint before (C : list frame) : list (nat * Z) :=
  match C with
  | [] => []
  | f :: C' => before C' ++ if fd f then elems (fsib f) ++ [(fp f, fk f)] else []
  end.
Fixpoint after (C : list frame) : list (nat * Z) :=
  match C with
  | [] => []
  | f :: C' => (if fd f then [] else (fp f, fk f) :: elems (fsib f)) ++ after C'
  end.

Lemma elems_plug C t : elems (plug C t) = before C ++ elems t ++ after C.
Proof.
  revert t. induction C as [|f C IH]; intros t; cbn [plug before after]; [by rewrite app_nil_r|].
  rewrite IH. unfold plug1, node. destruct (fd f); cbn [elems]; rewrite <- ?(assoc_L app); cbn; done.
Qed.

Lemma plug_app C D t : plug (D ++ C) t = plug C (plug D t).
Proof. revert t. induction D as [|f D IH]; intros t; [done|]. apply IH. Qed.

Lemma node_flip d red x p k y : node d red x p k y = node (negb d) red y p k x.
Proof. by destruct d. Qed.

Lemma node_cases d t : t = E \/ exists red x p k y, t = node d red x p k y.
Proof. destruct t as [|red l p k r]; [by left|right]. destruct d; by do 5 eexists. Qed.

Create HintDb rbtree.

(** ** Red-black trees

    [rb t c n]: below a red node if [c], with [n] black nodes on every way down. *)
Inductive rb : rbtree -> bool -> nat -> Prop :=
  | rb_E c : rb E c 0
  | rb_red l p k r n : rb l true n -> rb r true n -> rb (N true l p k r) false n
  | rb_black l p k r c n : rb l false n -> rb r false n -> rb (N false l p k r) c (S n).
#[export] Hint Constructors rb : rbtree.

(** A path that wants a tree with [n] black nodes on every way. *)
Inductive rb_ctx : list frame -> bool -> nat -> Prop :=
  | ctx_nil n : rb_ctx [] true n
  | ctx_red d p k y C n : rb y true n -> rb_ctx C false n ->
      rb_ctx ({| fd := d; fred := true; fp := p; fk := k; fsib := y |} :: C) true n
  | ctx_black d p k y C c n : rb y false n -> rb_ctx C c (S n) ->
      rb_ctx ({| fd := d; fred := false; fp := p; fk := k; fsib := y |} :: C) false n.
#[export] Hint Constructors rb_ctx : rbtree.

Lemma rb_weaken t c n : rb t c n -> rb t false n.
Proof. intros H. inversion H; subst; eauto with rbtree. Qed.
#[export] Hint Resolve rb_weaken : rbtree.

Lemma rb_is_black t c n : rb t c n -> is_red t = false -> forall c', rb t c' n.
Proof. intros H Hr c'. inversion H; subst; try done; eauto with rbtree. Qed.

Lemma rb_node_red d x p k y n : rb x true n -> rb y true n -> rb (node d true x p k y) false n.
Proof. destruct d; cbn; eauto with rbtree. Qed.
Lemma rb_node_black d x p k y c n : rb x false n -> rb y false n -> rb (node d false x p k y) c (S n).
Proof. destruct d; cbn; eauto with rbtree. Qed.
#[export] Hint Resolve rb_node_red rb_node_black : rbtree.

Lemma rb_node_inv d red x p k y c n : rb (node d red x p k y) c n ->
  if red then c = false /\ rb x true n /\ rb y true n
  else exists m, n = S m /\ rb x false m /\ rb y false m.
Proof. destruct d, red; cbn; intros H; inversion H; subst; eauto. Qed.

Lemma rb_plug C c n t : rb_ctx C c n -> rb t c n -> exists m, rb (plug C t) true m.
Proof.
  intros HC. revert t. induction HC as [n|d p k y C n Hy HC IH|d p k y C c n Hy HC IH]; intros t Ht; cbn [plug].
  - by exists n.
  - apply IH. unfold plug1. cbn. by apply rb_node_red.
  - apply IH. unfold plug1. cbn. by apply rb_node_black.
Qed.

(** The place of a node of a red-black tree. *)
Lemma rb_unplug C t m : rb (plug C t) true m -> exists c n, rb_ctx C c n /\ rb t c n.
Proof.
  revert t. induction C as [|f C IH]; intros t H; cbn [plug] in H; [eauto with rbtree|].
  destruct (IH _ H) as (c & n & HC & Ht). destruct f as [d red p k y]. unfold plug1 in Ht. cbn in Ht.
  apply rb_node_inv in Ht. destruct red.
  - destruct Ht as (-> & Hx & Hy). eauto with rbtree.
  - destruct Ht as (m' & -> & Hx & Hy). eauto with rbtree.
Qed.

Fixpoint height (t : rbtree) : nat :=
  match t with
  | E => 0
  | N _ l _ _ r => S (Nat.max (height l) (height r))
  end.

Lemma rb_height t c n : rb t c n -> (height t + Nat.b2n c <= 2 * n + 1)%nat.
Proof.
  intros H. induction H as [c|l p k r n Hl IHl Hr IHr|l p k r c n Hl IHl Hr IHr]; cbn in *;
    [destruct c; cbn; lia|lia|]. destruct c; cbn; lia.
Qed.

Lemma rb_size t c n : rb t c n -> (2 ^ n <= length (elems t) + 1)%nat.
Proof.
  intros H. induction H as [c|l p k r n Hl IHl Hr IHr|l p k r c n Hl IHl Hr IHr]; cbn in *; [lia|..];
    rewrite length_app; cbn; lia.
Qed.

(** The height is at most twice the logarithm of the number of nodes. *)
Lemma rb_balanced t n : rb t true n -> (height t <= 2 * Nat.log2 (length (elems t) + 1))%nat.
Proof.
  intros H. pose proof (rb_height _ _ _ H) as Hh. pose proof (rb_size _ _ _ H) as Hs. cbn in Hh.
  assert (n <= Nat.log2 (length (elems t) + 1))%nat; [|lia].
  apply Nat.log2_le_pow2; lia.
Qed.

Lemma height_plug C t : (length C + height t <= height (plug C t))%nat.
Proof.
  revert t. induction C as [|f C IH]; intros t; [done|]. cbn [plug length].
  specialize (IH (plug1 f t)). unfold plug1, node in *. destruct (fd f); cbn [height] in IH; lia.
Qed.

Lemma height_elems t : (height t <= length (elems t))%nat.
Proof. induction t as [|red l IHl p k r IHr]; cbn; [done|]. rewrite length_app. cbn. lia. Qed.

(** ** A tree in memory

    [flat] lists the nodes with their content, [cflat] those of a path. *)
Section Rep.
Variable s : nat.

Definition ptr (t : rbtree) : nat := match t with E => s | N _ _ p _ _ => p end.

Definition cell (red d : bool) (k : Z) (c c' par : nat) : ngx_rbtree_node_t :=
  {| key := k; left := if d then c' else c; right := if d then c else c'; parent := par;
     color := Z.b2z red |}.

Fixpoint flat (par : nat) (t : rbtree) : list (nat * ngx_rbtree_node_t) :=
  match t with
  | E => []
  | N red l p k r => (p, cell red false k (ptr l) (ptr r) par) :: flat p l ++ flat p r
  end.

Definition top (par : nat) (C : list frame) : nat := match C with [] => par | f :: _ => fp f end.

Fixpoint cflat (par : nat) (C : list frame) (c : nat) : list (nat * ngx_rbtree_node_t) :=
  match C with
  | [] => []
  | f :: C' =>
      (fp f, cell (fred f) (fd f) (fk f) c (ptr (fsib f)) (top par C'))
      :: flat (fp f) (fsib f) ++ cflat par C' (fp f)
  end.

Lemma flat_node par d red x p k y :
  flat par (node d red x p k y) ≡ₚ (p, cell red d k (ptr x) (ptr y) par) :: flat p x ++ flat p y.
Proof. destruct d; [|done]. cbn. by rewrite (Permutation_app_comm (flat p y)). Qed.

Lemma ptr_node d red x p k y : ptr (node d red x p k y) = p.
Proof. by destruct d. Qed.

Lemma flat_plug par C t : flat par (plug C t) ≡ₚ flat (top par C) t ++ cflat par C (ptr t).
Proof.
  revert t. induction C as [|f C IH]; intros t; cbn [plug cflat top]; [by rewrite app_nil_r|].
  rewrite IH. unfold plug1. rewrite flat_node, ptr_node. cbn [app].
  rewrite <- Permutation_middle, <- (assoc_L app). by constructor.
Qed.

Lemma flat_ptrs par t : (flat par t).*1 ≡ₚ (elems t).*1.
Proof.
  revert par. induction t as [|red l IHl p k r IHr]; intros par; [done|]. cbn.
  rewrite !fmap_app, IHl, IHr. cbn. apply Permutation_middle.
Qed.

Lemma root_of_path par C t c : C <> [] -> ptr (plug C t) ∈ (cflat par C c).*1.
Proof.
  revert t c. induction C as [|f C IH]; intros t c HC; [done|]. cbn [plug cflat].
  destruct C as [|g C].
  - cbn [plug]. unfold plug1. rewrite ptr_node. cbn. set_solver.
  - cbn. rewrite fmap_app, elem_of_cons, elem_of_app. right. right. by apply IH.
Qed.

Lemma plug_same_ptr C t t' : C <> [] \/ ptr t = ptr t' -> ptr (plug C t) = ptr (plug C t').
Proof.
  revert t t'. induction C as [|f C IH]; intros t t' H; cbn [plug]; [by destruct H|].
  apply IH. right. unfold plug1. by rewrite !ptr_node.
Qed.

Definition holds (m : gmap nat ngx_rbtree_node_t) (L : list (nat * ngx_rbtree_node_t)) : Prop :=
  Forall (fun e => m !! e.1 = Some e.2) L.

#[global] Instance holds_perm m : Proper ((≡ₚ) ==> iff) (holds m).
Proof. intros L L' H. unfold holds. by rewrite H. Qed.

Lemma holds_insert m L p n : p ∉ L.*1 -> holds m L -> holds (<[p := n]> m) L.
Proof.
  intros Hp H. unfold holds in *. rewrite list.Forall_forall in *. intros [q n'] Hq.
  pose proof (H (q, n') Hq) as H'. cbn in H' |- *. rewrite lookup_insert_ne; [done|]. intros <-. apply Hp.
  apply list_elem_of_fmap. by exists (p, n').
Qed.

(** [t] is the tree of [st], with [par] for the parent of its root, which the code
    never looks at, and [sn] for the sentinel. *)
Record rep (par : nat) (sn : ngx_rbtree_node_t) (st : ngx_rbtree_t) (t : rbtree) : Prop := {
  rep_root : root st = ptr t;
  rep_sentinel : sentinel st = s;
  rep_sn : nodes st !! s = Some sn;
  rep_black : color sn = 0;
  rep_holds : holds (nodes st) (flat par t);
  rep_nodup : NoDup (s :: (flat par t).*1);
}.

Lemma holds_size m L : NoDup L.*1 -> holds m L -> (length L <= size m)%nat.
Proof.
  intros Hn H. rewrite <- (length_fmap fst L), <- (size_list_to_set (C := gset nat)) by done.
  rewrite <- size_dom. apply subseteq_size. intros p Hp.
  apply elem_of_list_to_set, list_elem_of_fmap in Hp as ([q n] & -> & Hq).
  unfold holds in H. rewrite list.Forall_forall in H. apply elem_of_dom. exists n. by apply (H (q, n)).
Qed.

(** The sentinel is a node of the memory too. *)
Lemma rep_size par sn st t : rep par sn st t -> (S (length (elems t)) <= size (nodes st))%nat.
Proof.
  intros H. pose proof (holds_size (nodes st) ((s, sn) :: flat par t)) as Hs.
  cbn in Hs. rewrite <- (length_fmap fst (elems t)), <- (flat_ptrs par t), length_fmap.
  apply Hs; [apply H|]. constructor; [apply H|]. apply H.
Qed.

Lemma rep_perm par sn st C d red x p k y : rep par sn st (plug C (node d red x p k y)) ->
  holds (nodes st) ((p, cell red d k (ptr x) (ptr y) (top par C)) :: flat p x ++ flat p y ++ cflat par C p)
  /\ NoDup (s :: p :: (flat p x).*1 ++ (flat p y).*1 ++ (cflat par C p).*1).
Proof.
  intros [_ _ _ _ Hh Hn]. rewrite flat_plug, flat_node, ptr_node in Hh, Hn. cbn [app] in Hh, Hn.
  rewrite <- (assoc_L app) in Hh, Hn. by rewrite fmap_cons, !fmap_app in Hn.
Qed.

Lemma rep_cell par sn st C d red x p k y : rep par sn st (plug C (node d red x p k y)) ->
  nodes st !! p = Some (cell red d k (ptr x) (ptr y) (top par C)).
Proof. intros [H _]%rep_perm. by apply Forall_cons_1 in H as [H _]. Qed.

(** Painting a node. *)
Lemma paint_ok par sn st C d red red' x p k y : rep par sn st (plug C (node d red x p k y)) ->
  exists st', update p (set_color (Z.b2z red')) st = Some st'
    /\ rep par sn st' (plug C (node d red' x p k y)).
Proof.
  intros H. pose proof (rep_perm _ _ _ _ _ _ _ _ _ _ H) as [Hh Hn]. pose proof (rep_cell _ _ _ _ _ _ _ _ _ _ H) as Hp.
  unfold update. rewrite Hp. cbn [mbind option_bind]. eexists. split; [reflexivity|].
  apply Forall_cons_1 in Hh as [_ Hh]. apply list.NoDup_cons in Hn as [Hs Hn].
  apply list.NoDup_cons in Hn as [Hpn Hn']. apply not_elem_of_cons in Hs as [Hsp Hs]. destruct H as [Hr Hse Hsn Hb _ _].
  split; cbn [root sentinel nodes field_set]; try done.
  - rewrite Hr. apply plug_same_ptr. right. by rewrite !ptr_node.
  - by rewrite lookup_insert_ne.
  - rewrite flat_plug, flat_node, ptr_node. cbn [app]. constructor.
    + cbn. by rewrite lookup_insert_eq.
    + rewrite <- (assoc_L app). apply holds_insert; [by rewrite !fmap_app|done].
  - rewrite flat_plug, flat_node, ptr_node. cbn [app]. rewrite <- (assoc_L app), fmap_cons, !fmap_app.
    constructor; [by apply not_elem_of_cons|]. by constructor.
Qed.

Lemma holds_agree m m' L : (forall r, r ∈ L.*1 -> m' !! r = m !! r) -> holds m L -> holds m' L.
Proof.
  intros Ha H. unfold holds in *. rewrite list.Forall_forall in *. intros e He. rewrite Ha; [by apply H|].
  apply list_elem_of_fmap. by exists e.
Qed.

(** A subtree hung below another node. *)
Lemma holds_hung m m' q p b :
  holds m (flat q b) -> (b <> E -> exists nb, m !! ptr b = Some nb /\ m' !! ptr b = Some (set_parent p nb)) ->
  NoDup (flat q b).*1 -> (forall r, r ∈ (flat q b).*1 -> r <> ptr b -> m' !! r = m !! r) ->
  holds m' (flat p b).
Proof.
  intros Hh Hb Hn Ha. destruct b as [|red l r k rr]; [by constructor|]. cbn in *.
  destruct Hb as (nb & Hb & Hb'); [done|].
  apply Forall_cons_1 in Hh as [Hh1 Hh]. apply list.NoDup_cons in Hn as [Hn _]. constructor.
  - cbn in *. rewrite Hb'. by simplify_eq.
  - eapply holds_agree; [|exact Hh]. intros r' Hr'. apply Ha; [by right|]. by intros ->.
Qed.

(** A path to another node. *)
Lemma holds_path m m' par C p q :
  holds m (cflat par C p) ->
  match C with
  | [] => True
  | f :: _ => exists np, m !! fp f = Some np /\ m' !! fp f = Some (set_child (fd f) q np)
  end ->
  NoDup (cflat par C p).*1 -> (forall r, r ∈ (cflat par C p).*1 -> r <> top par C -> m' !! r = m !! r) ->
  holds m' (cflat par C q).
Proof.
  intros Hh Hf Hn Ha. destruct C as [|f C]; [by constructor|]. cbn in *. destruct Hf as (np & Hf & Hf').
  apply Forall_cons_1 in Hh as [Hh1 Hh]. apply list.NoDup_cons in Hn as [Hn _]. constructor.
  - cbn in *. rewrite Hf'. simplify_eq. by destruct (fd f).
  - eapply holds_agree; [|exact Hh]. intros r' Hr'. apply Ha; [by right|]. by intros ->.
Qed.


Lemma get_eq {A} (f : ngx_rbtree_node_t -> A) t p n : nodes t !! p = Some n -> get f p t = Some (f n).
Proof. unfold get. by intros ->. Qed.
Lemma update_eq p f t n : nodes t !! p = Some n -> update p f t = Some (t <| nodes := <[p := f n]> (nodes t) |>).
Proof. unfold update. by intros ->. Qed.


Lemma parent_child d c n : parent (set_child d c n) = parent n.
Proof. by destruct d. Qed.

(** The memory after some writes. *)
Ltac mem_eq := cbn [nodes root sentinel field_set eta_expand eta_rb_tree];
  repeat first [rewrite lookup_insert_eq | rewrite lookup_insert_ne by congruence]; eassumption || reflexivity.
Ltac mem_step :=
  first [erewrite get_eq by mem_eq | erewrite update_eq by mem_eq];
  cbn [mbind option_bind nodes root sentinel field_set eta_expand eta_rb_tree].

(** What a rotation writes. *)
Lemma rotate_writes d p q b st np nq :
  nodes st !! p = Some np -> nodes st !! q = Some nq -> sentinel st = s ->
  child (negb d) np = q -> child d nq = b -> p <> q -> p <> b -> q <> b ->
  (b <> s -> is_Some (nodes st !! b)) ->
  (p <> root st -> parent np <> p /\ parent np <> q /\ (b <> s -> parent np <> b) /\ is_Some (nodes st !! parent np)) ->
  exists st', ngx_rbtree_rotate d p st = Some st' /\ sentinel st' = s
    /\ root st' = (if (p =? root st)%nat then q else root st)
    /\ nodes st' !! p = Some (set_parent q (set_child (negb d) b np))
    /\ nodes st' !! q = Some (set_child d p (set_parent (parent np) nq))
    /\ (b <> s -> exists nb, nodes st !! b = Some nb /\ nodes st' !! b = Some (set_parent p nb))
    /\ (p <> root st -> exists npar, nodes st !! parent np = Some npar
          /\ nodes st' !! parent np = Some (set_child (if (p =? child d npar)%nat then d else negb d) q npar))
    /\ (forall r, r <> p -> r <> q -> (b <> s -> r <> b) -> (p <> root st -> r <> parent np) ->
          nodes st' !! r = nodes st !! r).
Proof.
  intros Hp Hq Hse Hc Hb Hpq Hpb Hqb Hbs Hpar.
  unfold ngx_rbtree_rotate. mem_step. rewrite Hc. mem_step. rewrite Hb. mem_step. mem_step. rewrite Hb, Hse.
  destruct (Nat.eqb_spec b s) as [Es|Es]; [|destruct (Hbs Es) as [nb Hnb]; mem_step];
    cbn [mbind option_bind]; mem_step; rewrite parent_child; mem_step;
    (destruct (Nat.eqb_spec p (root st)) as [Er|Er];
     [|destruct (Hpar Er) as (Hpp & Hpq' & Hpb' & npar & Hnpar); try specialize (Hpb' Es); unfold is_child;
       do 3 (mem_step; rewrite ?parent_child)]);
    cbn [mbind option_bind]; mem_step; mem_step;
    (eexists; split; [reflexivity|]); cbn [nodes root sentinel field_set eta_expand eta_rb_tree];
    (split; [done|]); (split; [done|]); (split; [mem_eq|]); (split; [mem_eq|]).
  all: split; [intros; first [done|eexists; split; [eassumption|mem_eq]]|].
  all: split; [intros; first [done|eexists; split; [eassumption|mem_eq]]|].
  all: intros r Hr1 Hr2 Hr3 Hr4; try specialize (Hr3 Es); try specialize (Hr4 Er); mem_eq.
Qed.

Lemma ptr_in par t : t <> E -> ptr t ∈ (flat par t).*1.
Proof. destruct t; [done|]. intros _. by left. Qed.

Lemma top_in par C c : C <> [] -> top par C ∈ (cflat par C c).*1.
Proof. destruct C; [done|]. intros _. by left. Qed.

Lemma root_is_top par C t st : root st = ptr (plug C t) -> NoDup (ptr t :: (cflat par C (ptr t)).*1) ->
  (ptr t =? root st)%nat = bool_decide (C = []).
Proof.
  intros -> [Hn _]%list.NoDup_cons. destruct C as [|f C]; [cbn; by rewrite Nat.eqb_refl|].
  rewrite bool_decide_false by done. apply Nat.eqb_neq. intros E. apply Hn. rewrite E at 1.
  by apply root_of_path.
Qed.

Lemma sib_in par f C c : ptr (fsib f) = s \/ ptr (fsib f) ∈ (cflat par (f :: C) c).*1.
Proof.
  destruct (decide (ptr (fsib f) = s)) as [|Hs]; [by left|right]. cbn. rewrite fmap_app, elem_of_cons, elem_of_app.
  right. left. apply ptr_in. by intros E; rewrite E in Hs.
Qed.

Lemma elems_rotate d c x p k c' b q k' y :
  elems (node d c' (node d c x p k b) q k' y) = elems (node (negb d) c (node d c' b q k' y) p k x).
Proof. destruct d; cbn; by rewrite <- (assoc_L app). Qed.

(** A rotation of a tree. *)
Lemma rotate_ok par sn st C d c x p k c' b q k' y :
  rep par sn st (plug C (node (negb d) c (node d c' b q k' y) p k x)) ->
  exists st', ngx_rbtree_rotate d p st = Some st'
    /\ rep par sn st' (plug C (node d c' (node d c x p k b) q k' y)).
Proof.
  intros H. pose proof (rep_cell _ _ _ _ _ _ _ _ _ _ H) as Hp.
  pose proof (rep_cell par sn st ({| fd := negb d; fred := c; fp := p; fk := k; fsib := x |} :: C) _ _ _ _ _ _ H) as Hq.
  apply rep_perm in H as Hperm. destruct Hperm as [Hh Hn].
  rewrite flat_node in Hh, Hn. cbn [app top fp] in *. rewrite ptr_node in *.
  apply Forall_cons_1 in Hh as [_ Hh]. apply Forall_cons_1 in Hh as [_ Hh].
  rewrite <- (assoc_L app) in Hh. apply Forall_app in Hh as [Hhb Hh]. apply Forall_app in Hh as [Hhy Hh].
  apply Forall_app in Hh as [Hhx Hhc].
  cbn in Hn. rewrite fmap_app, <- (assoc_L app) in Hn.
  assert (p <> root st <-> C <> []) as Hroot.
  { pose proof (root_is_top par C (node (negb d) c (node d c' b q k' y) p k x) st (rep_root _ _ _ _ H)) as Hr.
    rewrite ptr_node in Hr. rewrite <- Nat.eqb_neq, Hr; [by rewrite bool_decide_eq_false|].
    rewrite !list.NoDup_cons, !not_elem_of_cons, !not_elem_of_app, !list.NoDup_app in Hn. apply list.NoDup_cons. tauto. }
  rewrite !list.NoDup_cons, !not_elem_of_cons, !not_elem_of_app, !list.NoDup_app in Hn.
  repeat setoid_rewrite not_elem_of_app in Hn.
  destruct Hn as ((Hsp & Hsq & Hsb & Hsy & Hsx & Hsc) & (Hpq & Hpb & Hpy & Hpx & Hpc) & (Hqb & Hqy & Hqx & Hqc)
    & Hnb & Hdb & Hny & Hdy & Hnx & Hdx & Hnc).
  assert (ptr b <> s <-> b <> E) as Hbs.
  { split; [by intros Hb ->|]. intros Hb E. pose proof (ptr_in q b Hb) as Hin. by rewrite E in Hin. }
  pose proof (ptr_in q b) as Hbin. pose proof (top_in par C p) as Htop.
  assert (forall r, r ∈ (flat q b).*1 -> b <> E) as Hne by (by intros r Hr ->; inversion Hr).
  assert (forall r, r <> s -> r ∉ (flat q b).*1 -> r <> ptr b) as Hptr.
  { intros r Hrs Hrb E. rewrite E in Hrb, Hrs. apply Hrb, Hbin. by apply Hbs. }
  assert (forall r, r ∉ (cflat par C p).*1 -> C <> [] -> r <> top par C) as Htop'.
  { intros r Hrb HC E. rewrite E in Hrb. by apply Hrb, Htop. }
  edestruct (rotate_writes d p q (ptr b) st) as (st' & Hrot & Hse & Hr & Hp' & Hq' & Hb' & Hc' & Ho);
    [exact Hp|exact Hq|apply H|by destruct d|by destruct d|congruence|by apply Hptr|by apply Hptr|..].
  { rewrite Hbs. intros Hb. destruct b; [done|]. apply Forall_cons_1 in Hhb as [Hb1 _]. by eexists. }
  { rewrite Hroot, Hbs. intros HC. cbn [parent cell]. specialize (Htop HC).
    split; [by intros E; rewrite E in Htop|]. split; [by intros E; rewrite E in Htop|].
    split; [intros Hb E; rewrite E in Htop; by destruct (Hdb (ptr b) (Hbin Hb)) as (_ & _ & ?)|].
    destruct C as [|f C]; [done|]. apply Forall_cons_1 in Hhc as [Hc1 _]. by eexists. }
  exists st'. split; [done|]. setoid_rewrite Hroot in Ho. setoid_rewrite Hbs in Ho. rewrite Hbs in Hb'. rewrite Hroot in Hc'. cbn [parent cell] in *.
  assert (forall L, holds (nodes st) L -> p ∉ L.*1 -> q ∉ L.*1 -> s ∉ L.*1 ->
    (forall r, r ∈ L.*1 -> r ∉ (flat q b).*1 /\ r ∉ (cflat par C p).*1) -> holds (nodes st') L) as Hkeep.
  { intros L HL HpL HqL HsL HdL. eapply holds_agree; [|exact HL]. intros r Hr'. destruct (HdL r Hr') as [Hrb Hrc].
    apply Ho; [by intros ->..|intros _; apply Hptr; [by intros ->|done]|by apply Htop']. }
  split.
  - rewrite Hr. destruct (Nat.eqb_spec p (root st)) as [E|E].
    + destruct C as [|f C]; [cbn; by rewrite ptr_node|]. exfalso. by apply (proj2 Hroot).
    + rewrite (rep_root _ _ _ _ H). apply plug_same_ptr. left. by apply Hroot.
  - done.
  - rewrite <- (rep_sn _ _ _ _ H). apply Ho; [done..|by intros ? ?%eq_sym%Hbs|by apply Htop'].
  - apply H.
  - rewrite flat_plug, flat_node, flat_node, !ptr_node. cbn [app].
    constructor; [cbn; rewrite Hq'; by destruct d|]. constructor; [cbn; rewrite Hp'; by destruct d|].
    repeat apply Forall_app_2.
    + apply Hkeep; [done..|]. intros r Hr'. split; [intros Hrb; by destruct (Hdb r Hrb) as (_ & ? & _)|by apply Hdx].
    + eapply holds_hung; [exact Hhb|exact Hb'|done|]. intros r Hr' Hrb.
      destruct (Hdb r Hr') as (_ & _ & Hrc). apply Ho; [by intros ->..|done|by apply Htop'].
    + apply Hkeep; [done..|]. intros r Hr'. split; [intros Hrb; by destruct (Hdb r Hrb) as (? & _)|by apply Hdy].
    + eapply holds_path; [exact Hhc| |done|].
      * destruct C as [|f C]; [done|]. destruct Hc' as (np & Hnp & Hnp'); [done|]. exists np. split; [done|].
        cbn [top] in *. rewrite Hnp'. apply Forall_cons_1 in Hhc as [Hf _]. cbn in Hf. rewrite Hf in Hnp. simplify_eq.
        replace (if (p =? _)%nat then d else negb d) with (fd f); [done|].
        assert (p <> ptr (fsib f)) as Hsib%Nat.eqb_neq.
        { intros E. destruct (sib_in par f C p) as [E'|Hin]; [congruence|]. rewrite <- E in Hin. done. }
        destruct (fd f), d; cbn; by rewrite ?Nat.eqb_refl, ?Hsib.
      * intros r Hr' Hrt. apply Ho; [by intros ->..|intros Hb ->; by destruct (Hdb _ (Hbin Hb)) as (_ & _ & ?)|done].
  - rewrite flat_ptrs, elems_plug. pose proof (rep_nodup _ _ _ _ H) as Hn. rewrite flat_ptrs, elems_plug in Hn.
    by rewrite elems_rotate.
Qed.

(** ** What the code reads *)

Lemma rep_child par sn st C d red x p k y d' : rep par sn st (plug C (node d red x p k y)) ->
  get (child d') p st = Some (ptr (if eqb d' d then x else y)).
Proof. intros H%rep_cell. erewrite get_eq by exact H. by destruct d, d'. Qed.

Lemma rep_near par sn st C d red x p k y : rep par sn st (plug C (node d red x p k y)) ->
  get (child d) p st = Some (ptr x).
Proof. intros H. by rewrite (rep_child _ _ _ _ _ _ _ _ _ _ d H), eqb_reflx. Qed.

Lemma rep_far par sn st C d red x p k y : rep par sn st (plug C (node d red x p k y)) ->
  get (child (negb d)) p st = Some (ptr y).
Proof. intros H. rewrite (rep_child _ _ _ _ _ _ _ _ _ _ (negb d) H). by destruct d. Qed.

Lemma rep_parent par sn st C t : rep par sn st (plug C t) -> t <> E -> get parent (ptr t) st = Some (top par C).
Proof.
  intros H Ht. destruct (node_cases false t) as [|(red & x & p & k & y & ->)]; [done|].
  apply rep_cell in H. rewrite ptr_node. by erewrite get_eq by exact H.
Qed.

Lemma rep_is_red par sn st C t : rep par sn st (plug C t) -> ngx_rbt_is_red (ptr t) st = Some (is_red t).
Proof.
  intros H. unfold ngx_rbt_is_red. destruct (node_cases false t) as [->|(red & x & p & k & y & ->)].
  - cbn [ptr]. erewrite get_eq by apply H. cbn. by rewrite (rep_black _ _ _ _ H).
  - rewrite ptr_node. erewrite get_eq by by eapply rep_cell. by destruct red.
Qed.

Lemma rep_is_root par sn st C t : rep par sn st (plug C t) -> t <> E ->
  (ptr t =? root st)%nat = bool_decide (C = []).
Proof.
  intros H Ht. apply (root_is_top par); [apply H|]. destruct (node_cases false t) as [|(red & x & p & k & y & ->)]; [done|].
  apply rep_perm in H as [_ Hn]. rewrite ptr_node. rewrite !list.NoDup_cons, !list.NoDup_app, !not_elem_of_app in Hn.
  apply list.NoDup_cons. tauto.
Qed.

Lemma rep_ptr_ne par sn st C d red x p k y : rep par sn st (plug C (node d red x p k y)) ->
  x <> E \/ y <> E -> ptr x <> ptr y.
Proof.
  intros H Hxy Exy.
  apply rep_perm in H as [_ Hn]. rewrite !list.NoDup_cons, !list.NoDup_app, !not_elem_of_cons, !not_elem_of_app in Hn.
  destruct Hn as ((_ & Hsx & Hsy & _) & _ & _ & Hd & _).
  pose proof (ptr_in p x) as Hx. pose proof (ptr_in p y) as Hy.
  destruct x as [|]; [destruct y as [|]; [by destruct Hxy|]|]; cbn [ptr] in *.
  - apply Hsy. rewrite Exy. by apply Hy.
  - destruct y as [|]; cbn [ptr] in *; [by rewrite <- Exy in Hsx; apply Hsx, Hx|].
    eapply (Hd p0); [by apply Hx|]. apply elem_of_app. left. rewrite Exy. by apply Hy.
Qed.

Lemma rep_is_child par sn st C d red x p k y d' : rep par sn st (plug C (node d red x p k y)) ->
  get parent (ptr x) st = Some p -> x <> E \/ y <> E -> is_child d' (ptr x) st = Some (eqb d' d).
Proof.
  intros H Hp Hxy. unfold is_child. rewrite Hp. cbn [mbind option_bind].
  rewrite (rep_child _ _ _ _ _ _ _ _ _ _ d' H). cbn [mbind option_bind]. f_equal.
  destruct (eqb_spec d' d) as [->|]; [by rewrite Nat.eqb_refl|].
  apply Nat.eqb_neq. by eapply rep_ptr_ne.
Qed.

Lemma paint_red par sn st C d red x p k y : rep par sn st (plug C (node d red x p k y)) ->
  exists st', ngx_rbt_red p st = Some st' /\ rep par sn st' (plug C (node d true x p k y)).
Proof. intros H. by apply (paint_ok par sn st C d red true x p k y). Qed.
Lemma paint_black par sn st C d red x p k y : rep par sn st (plug C (node d red x p k y)) ->
  exists st', ngx_rbt_black p st = Some st' /\ rep par sn st' (plug C (node d false x p k y)).
Proof. intros H. by apply (paint_ok par sn st C d red false x p k y). Qed.

Lemma node_ne_E d red x p k y : node d red x p k y <> E.
Proof. by destruct d. Qed.

(** ** Insertion *)

(** The red node that may be below a red one. *)
Definition red_node (t : rbtree) (n : nat) : Prop :=
  exists d x p k y, t = node d true x p k y /\ rb x true n /\ rb y true n.

Lemma red_node_side t n d : red_node t n -> exists x p k y, t = node d true x p k y /\ rb x true n /\ rb y true n.
Proof.
  intros (d' & x & p & k & y & -> & Hx & Hy). destruct (eqb_spec d' d) as [->|]; [by do 4 eexists|].
  exists y, p, k, x. rewrite (node_flip d'). by destruct d, d'.
Qed.

Lemma red_node_ne_E t n : red_node t n -> t <> E.
Proof. intros (d & x & p & k & y & -> & _). apply node_ne_E. Qed.

Lemma red_node_rb t n : red_node t n -> rb t false n.
Proof. intros (d & x & p & k & y & -> & Hx & Hy). by apply rb_node_red. Qed.

Definition fr (d red : bool) (p : nat) (k : Z) (y : rbtree) : frame :=
  {| fd := d; fred := red; fp := p; fk := k; fsib := y |}.

Ltac elems_eq := cbn; repeat (progress (rewrite <- ?app_assoc; cbn)); reflexivity.

Lemma insert_outer_ok par sn st C p1 k1 y1 d gp kg u t :
  rep par sn st (plug (fr d true p1 k1 y1 :: fr d false gp kg u :: C) t) -> t <> E ->
  exists st', insert_outer d (ptr t) st = Some (ptr t, st')
    /\ rep par sn st' (plug (fr d false p1 k1 (node (negb d) true u gp kg y1) :: C) t).
Proof.
  intros H HE. pose proof (node_ne_E d true t p1 k1 y1) as HE1. unfold insert_outer, grandparent.
  pose proof (rep_parent par sn st (fr d true p1 k1 y1 :: fr d false gp kg u :: C) t H HE) as ->.
  cbn [mbind option_bind top fp fr].
  destruct (paint_black par sn st (fr d false gp kg u :: C) d true t p1 k1 y1 H) as (st1 & -> & H1).
  cbn [mbind option_bind].
  pose proof (rep_parent par sn st1 (fr d false p1 k1 y1 :: fr d false gp kg u :: C) t H1 HE) as ->.
  cbn [mbind option_bind top fp fr].
  pose proof (rep_parent par sn st1 (fr d false gp kg u :: C) (node d false t p1 k1 y1) H1 (node_ne_E _ _ _ _ _ _)) as Hgp.
  rewrite ptr_node in Hgp. rewrite Hgp. cbn [mbind option_bind top fp fr].
  destruct (paint_red par sn st1 C d false (node d false t p1 k1 y1) gp kg u H1) as (st2 & -> & H2).
  cbn [mbind option_bind]. rewrite (node_flip d false t), <- (negb_involutive d) in H2 at 1.
  destruct (rotate_ok par sn st2 C (negb d) true u gp kg false y1 p1 k1 t) as (st3 & -> & H3).
  { by rewrite negb_involutive in *. }
  cbn [mbind option_bind]. exists st3. split; [done|]. cbn [plug]. unfold plug1. cbn [fd fred fp fk fsib fr].
  by rewrite (node_flip d).
Qed.

(** The tests of a turn. *)
Lemma insert_turn_reads par sn st C d1 p1 k1 y1 d gp kg u t :
  rep par sn st (plug C (node d false (node d1 true t p1 k1 y1) gp kg u)) -> t <> E ->
  insert_turn (ptr t) st
  = if is_red u then
      st ← ngx_rbt_black p1 st; st ← ngx_rbt_black (ptr u) st; st ← ngx_rbt_red gp st; Some (gp, st)
    else if eqb (negb d) d1 then st ← ngx_rbtree_rotate d p1 st; insert_outer d p1 st
    else insert_outer d (ptr t) st.
Proof.
  intros H HE. pose proof (node_ne_E d1 true t p1 k1 y1) as HE1.
  assert (rep par sn st (plug C (node (negb d) false u gp kg (node d1 true t p1 k1 y1)))) as H'
    by by rewrite <- node_flip.
  pose proof (rep_parent par sn st (fr d1 true p1 k1 y1 :: fr d false gp kg u :: C) t H HE) as Hpar.
  pose proof (rep_parent par sn st (fr d false gp kg u :: C) (node d1 true t p1 k1 y1) H HE1) as Hgp.
  rewrite ptr_node in Hgp. cbn [top fp fr] in Hpar, Hgp.
  pose proof (rep_is_child _ _ _ _ _ _ _ _ _ _ false H) as Hside.
  rewrite ptr_node in Hside. specialize (Hside Hgp (or_introl HE1)).
  pose proof (rep_is_red par sn st (fr (negb d) false gp kg (node d1 true t p1 k1 y1) :: C) u H') as Hru.
  pose proof (rep_is_child par sn st (fr d false gp kg u :: C) d1 true t p1 k1 y1 (negb d) H Hpar (or_introl HE)) as Hin.
  unfold insert_turn, grandparent. rewrite Hpar. cbn [mbind option_bind]. rewrite Hgp. cbn [mbind option_bind].
  rewrite Hside. cbn [mbind option_bind]. replace (negb (eqb false d)) with d by by destruct d.
  rewrite (rep_far _ _ _ _ _ _ _ _ _ _ H). cbn [mbind option_bind]. rewrite Hru. cbn [mbind option_bind].
  destruct (is_red u); [done|]. rewrite Hin. cbn [mbind option_bind]. destruct (eqb (negb d) d1); [|done].
  by destruct (ngx_rbtree_rotate d p1 st).
Qed.

(** A red uncle: the red moves up. *)
Lemma insert_turn_up par sn st C d1 p1 k1 y1 d gp kg u n t :
  rep par sn st (plug (fr d1 true p1 k1 y1 :: fr d false gp kg u :: C) t) -> red_node t n ->
  rb y1 true n -> rb u false n -> is_red u = true ->
  exists st' t', insert_turn (ptr t) st = Some (ptr t', st') /\ rep par sn st' (plug C t')
    /\ elems t' = elems (node d false (node d1 true t p1 k1 y1) gp kg u) /\ red_node t' (S n).
Proof.
  intros H Ht Hy Hu Hr. destruct (node_cases d u) as [->|(ru & ux & up & uk & uy & ->)]; [done|].
  pose proof (insert_turn_reads par sn st C d1 p1 k1 y1 d gp kg (node d ru ux up uk uy) t H (red_node_ne_E _ _ Ht)) as ->.
  rewrite Hr, ptr_node.
  destruct (paint_black par sn st (fr d false gp kg (node d ru ux up uk uy) :: C) d1 true t p1 k1 y1 H) as (st1 & -> & H1).
  cbn [mbind option_bind].
  assert (rep par sn st1 (plug C (node (negb d) false (node d ru ux up uk uy) gp kg (node d1 false t p1 k1 y1)))) as H1'
    by by rewrite <- node_flip.
  destruct (paint_black par sn st1 (fr (negb d) false gp kg (node d1 false t p1 k1 y1) :: C) d ru ux up uk uy H1') as (st2 & -> & H2).
  cbn [mbind option_bind].
  destruct (paint_red par sn st2 C (negb d) false (node d false ux up uk uy) gp kg (node d1 false t p1 k1 y1) H2) as (st3 & -> & H3).
  cbn [mbind option_bind].
  exists st3, (node (negb d) true (node d false ux up uk uy) gp kg (node d1 false t p1 k1 y1)). rewrite ptr_node.
  split; [done|]. split; [done|]. split; [by destruct d, d1|].
  apply rb_node_inv in Hu as Hu'. destruct ru; [destruct Hu' as (_ & Hux & Huy)|by destruct d].
  exists (negb d). do 4 eexists. split; [done|]. apply red_node_rb in Ht. eauto 10 with rbtree.
Qed.

(** A black uncle: rotations end the loop. *)
Lemma insert_turn_rotate par sn st C d1 p1 k1 y1 d gp kg u n t :
  rep par sn st (plug (fr d1 true p1 k1 y1 :: fr d false gp kg u :: C) t) -> red_node t n ->
  rb y1 true n -> rb u true n -> is_red u = false ->
  exists st' r kr z t', insert_turn (ptr t) st = Some (ptr t', st')
    /\ rep par sn st' (plug (fr d false r kr z :: C) t')
    /\ elems (node d false t' r kr z) = elems (node d false (node d1 true t p1 k1 y1) gp kg u)
    /\ t' <> E /\ rb t' false n /\ rb z false n.
Proof.
  intros H Ht Hy Hu Hr.
  pose proof (red_node_ne_E _ _ Ht) as HE.
  pose proof (insert_turn_reads par sn st C d1 p1 k1 y1 d gp kg u t H HE) as ->. rewrite Hr.
  destruct (eqb_spec (negb d) d1) as [<-|Hd].
  - destruct (red_node_side _ _ d Ht) as (b & q & kq & y & -> & Hb & Hyy).
    destruct (rotate_ok par sn st (fr d false gp kg u :: C) d true y1 p1 k1 true b q kq y H) as (st1 & -> & H1).
    cbn [mbind option_bind].
    destruct (insert_outer_ok par sn st1 C q kq y d gp kg u (node d true y1 p1 k1 b) H1 (node_ne_E _ _ _ _ _ _))
      as (st2 & Hi & H2). rewrite ptr_node in Hi. rewrite Hi.
    exists st2, q, kq, (node (negb d) true u gp kg y), (node d true y1 p1 k1 b). rewrite ptr_node.
    split; [done|]. split; [done|]. split; [destruct d; elems_eq|].
    split; [apply node_ne_E|]. eauto with rbtree.
  - assert (d1 = d) as -> by by destruct d, d1. cbn [mbind option_bind].
    destruct (insert_outer_ok par sn st C p1 k1 y1 d gp kg u t H HE) as (st2 & -> & H2).
    exists st2, p1, k1, (node (negb d) true u gp kg y1), t.
    split; [done|]. split; [done|]. split; [destruct d; elems_eq|].
    split; [done|]. apply red_node_rb in Ht. eauto with rbtree.
Qed.

(** The loop stops below a black node. *)
Lemma insert_loop_black par sn st d p k y C t fuel :
  rep par sn st (plug (fr d false p k y :: C) t) -> t <> E -> insert_loop (S fuel) (ptr t) st = Some st.
Proof.
  intros H HE. cbn [insert_loop]. rewrite (rep_is_root par sn st (fr d false p k y :: C) t H HE).
  rewrite bool_decide_false by done. rewrite (rep_parent par sn st (fr d false p k y :: C) t H HE).
  cbn [mbind option_bind top fp fr].
  pose proof (rep_is_red par sn st C (node d false t p k y) H) as Hr. rewrite ptr_node in Hr. rewrite Hr.
  by destruct d.
Qed.

Lemma insert_loop_red par sn st d p k y C t fuel :
  rep par sn st (plug (fr d true p k y :: C) t) -> t <> E ->
  insert_loop (S fuel) (ptr t) st = ('(node, st) ← insert_turn (ptr t) st; insert_loop fuel node st).
Proof.
  intros H HE. cbn [insert_loop]. rewrite (rep_is_root par sn st (fr d true p k y :: C) t H HE).
  rewrite bool_decide_false by done. rewrite (rep_parent par sn st (fr d true p k y :: C) t H HE).
  cbn [mbind option_bind top fp fr].
  pose proof (rep_is_red par sn st C (node d true t p k y) H) as Hr. rewrite ptr_node in Hr. rewrite Hr.
  by destruct d.
Qed.

(** The loop that balances the tree; every turn with a red uncle is two levels higher. *)
Lemma insert_loop_ok par sn fuel : forall C c n st t,
  rep par sn st (plug C t) -> red_node t n -> rb_ctx C c n -> (length C < fuel)%nat ->
  exists st' t', insert_loop fuel (ptr t) st = Some st' /\ rep par sn st' t'
    /\ elems t' = elems (plug C t) /\ exists m, rb t' false m.
Proof.
  induction fuel as [fuel IH] using lt_wf_ind. intros C c n st t H Ht HC Hf.
  destruct fuel as [|fuel]; [lia|]. pose proof (red_node_ne_E _ _ Ht) as HE. apply red_node_rb in Ht as Htr.
  inversion HC as [n'|d p k y C' n' Hy HC'|d p k y C' c' n' Hy HC']; subst.
  - exists st, t. cbn [insert_loop plug] in *. rewrite (rep_is_root par sn st [] t H HE).
    rewrite bool_decide_true by done. by eauto.
  - inversion HC' as [|  |d2 gp kg u C'' c2 n2 Hu HC'']; subst.
    pose proof (insert_loop_red _ _ _ _ _ _ _ _ _ fuel H HE) as ->. destruct (is_red u) eqn:Hr.
    + destruct (insert_turn_up _ _ _ _ _ _ _ _ _ _ _ _ _ _ H Ht Hy Hu Hr) as (st1 & t1 & -> & H1 & He1 & Ht1).
      cbn [mbind option_bind]. cbn [length] in Hf.
      destruct (IH fuel ltac:(lia) C'' c2 (S n) st1 t1 H1 Ht1 HC'' ltac:(lia)) as (st2 & t2 & -> & H2 & He2 & Hm).
      exists st2, t2. split; [done|]. split; [done|]. split; [|done]. rewrite He2. cbn [plug].
      by rewrite !elems_plug, He1.
    + destruct (insert_turn_rotate _ _ _ _ _ _ _ _ _ _ _ _ _ _ H Ht Hy (rb_is_black _ _ _ Hu Hr true) Hr)
        as (st1 & r & kr & z & t1 & -> & H1 & He1 & HE1 & Ht1 & Hz). cbn [mbind option_bind length] in *.
      destruct fuel as [|fuel]; [lia|]. rewrite (insert_loop_black _ _ _ _ _ _ _ _ _ _ H1 HE1).
      eexists _, _. split; [done|]. split; [exact H1|]. split; [cbn [plug]; unfold plug1; cbn [fd fred fp fk fsib fr]|].
      { by rewrite !elems_plug, He1. }
      destruct (rb_plug C'' c2 (S n) (node d2 false t1 r kr z)) as (m & Hm); [done|by apply rb_node_black|].
      exists m. by eapply rb_weaken.
  - exists st, (plug (fr d false p k y :: C') t). rewrite (insert_loop_black _ _ _ _ _ _ _ _ _ _ H HE).
    do 3 (split; [done|]). destruct (rb_plug _ _ _ _ HC Htr) as (m & Hm). exists m. by eapply rb_weaken.
Qed.

(** A new node hung at the end of a path. *)
Lemma attach_ok par sn st f C x nx :
  rep par sn st (plug (f :: C) E) -> nodes st !! x = Some nx -> x <> s -> x ∉ (elems (plug (f :: C) E)).*1 ->
  exists st', (st ← update (fp f) (set_child (fd f) x) st;
               st ← update x (set_parent (fp f)) st;
               st ← update x (set_child false (sentinel st)) st;
               st ← update x (set_child true (sentinel st)) st;
               ngx_rbt_red x st) = Some st'
    /\ rep par sn st' (plug (f :: C) (N true E x (key nx) E)).
Proof.
  intros H Hx Hxs Hxe. destruct f as [d c p k y]. cbn [fp fd].
  assert (rep par sn st (plug C (node d c E p k y))) as H0 by exact H.
  pose proof (rep_cell _ _ _ _ _ _ _ _ _ _ H0) as Hp. apply rep_perm in H0 as [Hh Hn].
  rewrite <- (flat_ptrs par), flat_plug in Hxe. cbn [flat app ptr] in Hxe.
  pose proof (rep_nodup _ _ _ _ H) as Hnd. rewrite flat_plug in Hnd. cbn [flat app ptr] in Hnd.
  cbn [flat app] in Hh. apply Forall_cons_1 in Hh as [_ Hh].
  cbn in Hxe, Hnd. rewrite not_elem_of_cons in Hxe. destruct Hxe as [Hxp Hxe].
  rewrite !list.NoDup_cons, not_elem_of_cons in Hnd. destruct Hnd as [[Hsp Hsn] [Hpn Hnn]].
  destruct H as [Hr Hse Hsn' Hb _ _].
  do 4 (mem_step; rewrite ?Hse). unfold ngx_rbt_red. mem_step.
  eexists. split; [reflexivity|]. split; cbn [nodes root sentinel]; try done.
  - rewrite Hr. by apply plug_same_ptr; left.
  - by rewrite !lookup_insert_ne by done.
  - rewrite flat_plug. cbn [flat ptr app cflat fp fd fred fk fsib top].
    constructor; [cbn; by rewrite lookup_insert_eq|].
    constructor; [cbn; rewrite !lookup_insert_ne, lookup_insert_eq by done; by destruct d|].
    repeat (apply holds_insert; [done|]). exact Hh.
  - rewrite flat_plug. cbn. rewrite !list.NoDup_cons, !not_elem_of_cons. done.
Qed.

Definition is_E (t : rbtree) : bool := match t with E => true | _ => false end.

Lemma rep_is_E par sn st C t : rep par sn st (plug C t) -> (ptr t =? s)%nat = is_E t.
Proof.
  intros H. destruct (node_cases false t) as [->|(red & x & p & k & y & ->)]; [by apply Nat.eqb_refl|].
  apply rep_perm in H as [_ Hn]. rewrite ptr_node. apply list.NoDup_cons in Hn as [Hn _].
  apply not_elem_of_cons in Hn as [Hn _]. by apply Nat.eqb_neq.
Qed.

(** ** The order of the keys *)

(** A test that compares ranks. *)
Class KeyOrder (less : nat * Z -> nat * Z -> bool) := {
  rank : nat * Z -> Z;
  comparable : nat * Z -> Prop;
  less_rank a b : comparable a -> comparable b -> less a b = (rank a <? rank b);
}.

Section Order.
Context (less : nat * Z -> nat * Z -> bool) `{!KeyOrder less}.

Definition ordered : list (nat * Z) -> Prop := StronglySorted (fun a b => rank a <= rank b).
Definition all_comparable : list (nat * Z) -> Prop := Forall (fun e => comparable e).

Lemma ordered_mid B L e R A : ordered (B ++ (L ++ e :: R) ++ A) ->
  Forall (fun a => rank a <= rank e) L /\ Forall (fun b => rank e <= rank b) R.
Proof.
  unfold ordered. rewrite !StronglySorted_app, StronglySorted_cons. intros (_ & _ & (_ & (HL & _ & HR & _) & _)).
  split; [|done]. apply list.Forall_forall. intros a Ha. apply HL; [done|by left].
Qed.

(** The path that ends where the search for [k] ends. *)
Lemma rb_insert_down_ok par sn st x nx fuel : forall C t,
  rep par sn st (plug C t) -> nodes st !! x = Some nx -> comparable (x, key nx) ->
  ordered (elems (plug C t)) -> all_comparable (elems (plug C t)) ->
  Forall (fun e => rank e <= rank (x, key nx)) (before C) -> Forall (fun e => rank (x, key nx) < rank e) (after C) ->
  t <> E -> (height t <= fuel)%nat ->
  exists f C', insert_down less fuel (ptr t) x st = Some (fp f, fd f) /\ plug (f :: C') E = plug C t
    /\ Forall (fun e => rank e <= rank (x, key nx)) (before (f :: C'))
    /\ Forall (fun e => rank (x, key nx) < rank e) (after (f :: C')).
Proof.
  induction fuel as [|fuel IH]; intros C t H Hx Hk Ho Hc Hbe Haf HE Hh.
  { destruct t; [done|]. cbn in Hh. lia. }
  destruct t as [|red l p k r]; [done|]. change (N red l p k r) with (node false red l p k r) in H.
  pose proof (rep_cell _ _ _ _ _ _ _ _ _ _ H) as Hp.
  cbn [insert_down ptr]. erewrite !get_eq by eassumption. cbn [mbind option_bind].
  change (key (cell red false k (ptr l) (ptr r) (top par C))) with k.
  pose proof Ho as Ho'. pose proof Hc as Hc'. rewrite elems_plug in Ho', Hc'. cbn [elems] in Ho', Hc'.
  assert (comparable (p, k)) as Hck.
  { apply Forall_app in Hc' as [_ Hc']. apply Forall_app in Hc' as [Hc' _]. apply Forall_app in Hc' as [_ Hc'].
    by apply Forall_cons_1 in Hc' as [Hc' _]. }
  apply ordered_mid in Ho' as [Hl Hr]. rewrite (less_rank _ _ Hk Hck).
  erewrite get_eq by exact Hp. cbn [mbind option_bind]. rewrite (rep_sentinel _ _ _ _ H).
  destruct (Z.ltb_spec (rank (x, key nx)) (rank (p, k))) as [Hlt|Hge]; cbn [negb].
  - change (child false _) with (ptr l).
    assert (rep par sn st (plug (fr false red p k r :: C) l)) as Hl' by exact H.
    rewrite (rep_is_E _ _ _ _ _ Hl').
    assert (Forall (fun e => rank (x, key nx) < rank e) (after (fr false red p k r :: C))) as Haf'.
    { apply Forall_app_2; [|done]. constructor; [done|]. eapply Forall_impl; [|exact Hr]. cbn. lia. }
    destruct l as [|]; cbn [is_E].
    + exists (fr false red p k r), C. split; [done|]. split; [done|]. split; [|done]. cbn. by rewrite app_nil_r.
    + apply (IH (fr false red p k r :: C)); try done; [cbn; by rewrite app_nil_r|cbn [height] in Hh |- *; lia].
  - change (child true _) with (ptr r).
    assert (rep par sn st (plug (fr true red p k l :: C) r)) as Hr' by exact H.
    rewrite (rep_is_E _ _ _ _ _ Hr').
    assert (Forall (fun e => rank e <= rank (x, key nx)) (before (fr true red p k l :: C))) as Hbe'.
    { apply Forall_app_2; [done|]. apply Forall_app_2; [|by constructor]. eapply Forall_impl; [|exact Hl]. cbn. lia. }
    destruct r as [|]; cbn [is_E].
    + by exists (fr true red p k l), C.
    + apply (IH (fr true red p k l :: C)); try done. cbn [height] in Hh |- *. lia.
Qed.

(** *** The specification: a sorted list *)

(** A new node goes after the nodes that are not greater. *)
Fixpoint insert_sorted (e : nat * Z) (l : list (nat * Z)) : list (nat * Z) :=
  match l with
  | [] => [e]
  | e' :: l' => if less e e' then e :: l else e' :: insert_sorted e l'
  end.

Lemma insert_sorted_at e B A : comparable e -> all_comparable (B ++ A) ->
  Forall (fun a => rank a <= rank e) B -> Forall (fun a => rank e < rank a) A ->
  insert_sorted e (B ++ A) = B ++ e :: A.
Proof.
  intros He Hc HB HA. induction B as [|b B IH]; cbn [app insert_sorted].
  - destruct A as [|a A]; [done|]. cbn. apply Forall_cons_1 in HA as [Ha _], Hc as [Hca _].
    rewrite less_rank by done. by test_true (rank e <? rank a).
  - apply Forall_cons_1 in HB as [Hb HB], Hc as [Hcb Hc]. rewrite less_rank by done.
    test_false (rank e <? rank b). by rewrite IH.
Qed.

Lemma ordered_insert e B A : ordered (B ++ A) -> 
  Forall (fun a => rank a <= rank e) B -> Forall (fun a => rank e < rank a) A ->
  ordered (B ++ e :: A).
Proof.
  unfold ordered. rewrite !StronglySorted_app, StronglySorted_cons. intros (HBA & HB & HA) HBe HAe.
  rewrite list.Forall_forall in HBe, HAe. split; [|split; [done|split; [|done]]].
  - intros b a Hb Ha. apply elem_of_cons in Ha as [->|Ha]; [by apply HBe|by apply HBA].
  - apply list.Forall_forall. intros a Ha. specialize (HAe a Ha). lia.
Qed.

(** [st] keeps the nodes [l], in this order, in a red-black tree. *)
Definition keeps (st : ngx_rbtree_t) (l : list (nat * Z)) : Prop :=
  exists par sn t m, rep par sn st t /\ rb t true m /\ elems t = l.

Lemma rb_blacken d red x p k y n : rb (node d red x p k y) false n -> exists m, rb (node d false x p k y) true m.
Proof.
  intros H. apply rb_node_inv in H. destruct red.
  - destruct H as (_ & Hx & Hy). exists (S n). apply rb_node_black; by eapply rb_weaken.
  - destruct H as (m & -> & Hx & Hy). exists (S m). by apply rb_node_black.
Qed.

(** The root is painted black at the end. *)
Lemma blacken_root par sn st t n : rep par sn st t -> t <> E -> rb t false n ->
  exists st', ngx_rbt_black (root st) st = Some st' /\ keeps st' (elems t).
Proof.
  intros H HE Hn. rewrite (rep_root _ _ _ _ H).
  destruct (node_cases false t) as [|(red & x & p & k & y & ->)]; [done|].
  destruct (paint_black par sn st [] false red x p k y H) as (st' & Hp & H'). rewrite ptr_node.
  destruct (rb_blacken _ _ _ _ _ _ _ Hn) as (m & Hm). exists st'. split; [done|].
  exists par, sn, (node false false x p k y), m. done.
Qed.

(** The first node. *)
Lemma insert_first par sn st x nx :
  rep par sn st E -> nodes st !! x = Some nx -> x <> s ->
  exists st', ngx_rbtree_insert less x st = Some st' /\ keeps st' [(x, key nx)].
Proof.
  intros [Hr Hse Hsn Hb _ _] Hx Hxs. unfold ngx_rbtree_insert. rewrite Hr, Hse, Nat.eqb_refl.
  do 3 (mem_step; rewrite ?Hse). unfold ngx_rbt_black. mem_step. eexists. split; [reflexivity|].
  exists NULL, sn, (N false E x (key nx) E), 1%nat. split; [|by split; [eauto with rbtree|]].
  split; cbn [nodes root sentinel field_set]; try done.
  - by rewrite !lookup_insert_ne by done.
  - constructor; [|constructor]. cbn. by rewrite lookup_insert_eq.
  - apply list.NoDup_cons. split; [|by apply NoDup_singleton]. cbn. intros Hin%list_elem_of_singleton. done.
Qed.

Lemma ngx_rbtree_insert_ok st l x nx :
  keeps st l -> nodes st !! x = Some nx -> x <> s -> x ∉ l.*1 -> comparable (x, key nx) ->
  ordered l -> all_comparable l ->
  exists st', ngx_rbtree_insert less x st = Some st' /\ keeps st' (insert_sorted (x, key nx) l)
    /\ ordered (insert_sorted (x, key nx) l).
Proof.
  intros (par & sn & t & m & H & Hrb & <-) Hx Hxs Hxl Hk Ho Hc.
  pose proof (rep_size _ _ _ _ H) as Hsz. pose proof (height_elems t) as Hht.
  destruct (is_E t) eqn:HE.
  { destruct t; [|done]. destruct (insert_first _ _ _ _ _ H Hx Hxs) as (st' & Hi & Hk'). exists st'. split; [done|].
    split; [done|]. cbn. by repeat constructor. }
  unfold ngx_rbtree_insert. rewrite (rep_root _ _ _ _ H), (rep_sentinel _ _ _ _ H).
  rewrite (rep_is_E _ _ _ [] t H), HE. unfold insert_below.
  destruct (rb_insert_down_ok par sn st x nx (size (nodes st)) [] t H Hx Hk Ho Hc) as (f & C & -> & Hpl & Hbe & Haf);
    [constructor|constructor|by intros ->|lia|].
  cbn [mbind option_bind plug] in Hpl |- *.
  change (plug C (plug1 f E)) with (plug (f :: C) E) in Hpl. rewrite <- Hpl in H, Hxl, Ho, Hc, Hrb.
  destruct (attach_ok par sn st f C x nx H Hx Hxs Hxl) as (st1 & Ha & H1).
  cbn [mbind option_bind] in Ha. rewrite Ha. cbn [mbind option_bind].
  destruct (rb_unplug _ _ _ Hrb) as (c & n & HC & Hn). inversion Hn; subst.
  assert (red_node (N true E x (key nx) E) 0) as Hred by (exists false; do 4 eexists; eauto with rbtree).
  pose proof (rep_size _ _ _ _ H1) as Hsz1. pose proof (height_elems (plug (f :: C) (N true E x (key nx) E))) as Hh1.
  pose proof (height_plug (f :: C) (N true E x (key nx) E)) as Hp1.
  destruct (insert_loop_ok par sn (size (nodes st1)) _ c 0 st1 _ H1 Hred HC ltac:(lia)) as (st2 & t2 & Hl & H2 & He2 & n2 & Hn2).
  cbn [ptr] in Hl. rewrite Hl. cbn [mbind option_bind].
  rewrite elems_plug in Ho, Hc, He2. rewrite elems_plug. cbn [elems app] in *.
  rewrite insert_sorted_at by done.
  assert (t2 <> E) as HE2 by (intros ->; by destruct (before (f :: C))).
  destruct (blacken_root _ _ _ _ _ H2 HE2 Hn2) as (st3 & Hb & H3).
  exists st3. split; [done|]. rewrite <- He2. split; [done|]. rewrite He2. by apply ordered_insert.
Qed.

(** ** The smallest node and the next one *)

Lemma min_loop_ok par sn st fuel : forall C t,
  rep par sn st (plug C t) -> t <> E -> (height t <= fuel)%nat ->
  exists D red p k r, min_loop fuel (ptr t) st = Some p /\ t = plug D (N red E p k r) /\ before D = [].
Proof.
  induction fuel as [|fuel IH]; intros C t H HE Hh; [destruct t; [done|cbn in Hh; lia]|].
  destruct t as [|red l p k r]; [done|].
  pose proof (rep_near par sn st C false red l p k r H) as Hl. cbn [min_loop ptr].
  change (get left p st) with (get (child false) p st). rewrite Hl. cbn [mbind option_bind].
  rewrite (rep_sentinel _ _ _ _ H), (rep_is_E par sn st (fr false red p k r :: C) l H). destruct l as [|red' l' p' k' r'].
  - exists [], red, p, k, r. done.
  - destruct (IH (fr false red p k r :: C) (N red' l' p' k' r') H) as (D & red2 & p2 & k2 & r2 & Hm & Hp & Hb);
      [done|cbn [height] in Hh |- *; lia|].
    exists (D ++ [fr false red p k r]), red2, p2, k2, r2. split; [done|].
    split; [by rewrite plug_app, <- Hp|]. clear -Hb. induction D as [|f D IHD]; [done|].
    cbn in Hb |- *. apply app_nil in Hb as [Hb ->]. by rewrite IHD.
Qed.

(** The pointer of the first node, if any. *)
Definition first_ptr (l : list (nat * Z)) : nat := match l with [] => NULL | e :: _ => e.1 end.

Lemma next_loop_ok par sn st fuel : forall C t,
  rep par sn st (plug C t) -> t <> E -> (length C < fuel)%nat ->
  next_loop fuel (ptr t) st = Some (first_ptr (after C)).
Proof.
  induction fuel as [|fuel IH]; intros C t H HE Hf; [lia|]. cbn [next_loop].
  rewrite (rep_parent _ _ _ _ _ H HE), (rep_is_root _ _ _ _ _ H HE). cbn [mbind option_bind].
  destruct C as [|[d red p k y] C]; [done|]. rewrite bool_decide_false by done. cbn [top fp].
  change (get left p st) with (get (child false) p st).
  rewrite (rep_child par sn st C d red t p k y false H). cbn [mbind option_bind].
  destruct d; cbn [eqb].
  - destruct (Nat.eqb_spec (ptr t) (ptr y)) as [E|_].
    { exfalso. by apply (rep_ptr_ne par sn st C true red t p k y H (or_introl HE)). }
    cbn [length] in Hf. pose proof (IH C (node true red t p k y) H (node_ne_E _ _ _ _ _ _) ltac:(lia)) as Hn.
    by rewrite ptr_node in Hn.
  - by rewrite Nat.eqb_refl.
Qed.

(** The place of a node. *)
Lemma place_of t p k : (p, k) ∈ elems t -> exists C red x y, t = plug C (node false red x p k y).
Proof.
  induction t as [|red l IHl q kq r IHr]; cbn [elems]; [by intros H%not_elem_of_nil|].
  rewrite elem_of_app, elem_of_cons. intros [H|[H|H]].
  - destruct (IHl H) as (C & red' & x & y & ->). exists (C ++ [fr false red q kq r]), red', x, y. by rewrite plug_app.
  - simplify_eq. by exists [], red, l, r.
  - destruct (IHr H) as (C & red' & x & y & ->). exists (C ++ [fr true red q kq l]), red', x, y. by rewrite plug_app.
Qed.

(** The specification: what comes after in the list. *)
Fixpoint next_in (p : nat) (l : list (nat * Z)) : nat :=
  match l with
  | [] => NULL
  | e :: l' => if (e.1 =? p)%nat then first_ptr l' else next_in p l'
  end.

Lemma next_in_at B p k A : p ∉ B.*1 -> next_in p (B ++ (p, k) :: A) = first_ptr A.
Proof.
  induction B as [|b B IH]; intros Hp; cbn; [by rewrite Nat.eqb_refl|].
  cbn in Hp. apply not_elem_of_cons in Hp as [Hpb Hp]. destruct (Nat.eqb_spec b.1 p); [by subst|]. by apply IH.
Qed.

Lemma keeps_nodup st l : keeps st l -> NoDup l.*1.
Proof.
  intros (par & sn & t & m & H & _ & <-). rewrite <- (flat_ptrs par). pose proof (rep_nodup _ _ _ _ H) as Hn.
  by apply list.NoDup_cons in Hn as [_ Hn].
Qed.

Lemma ngx_rbtree_min_ok st l : keeps st l -> l <> [] -> ngx_rbtree_min (root st) st = Some (first_ptr l).
Proof.
  intros (par & sn & t & m & H & _ & <-) Hl. rewrite (rep_root _ _ _ _ H).
  pose proof (rep_size _ _ _ _ H) as Hsz. pose proof (height_elems t) as Hht.
  destruct (min_loop_ok par sn st (size (nodes st)) [] t H) as (D & red & p & k & r & Hm & -> & Hb);
    [by intros ->|lia|]. unfold ngx_rbtree_min. rewrite Hm. by rewrite elems_plug, Hb.
Qed.

Lemma ngx_rbtree_next_ok st l p : keeps st l -> p ∈ l.*1 -> ngx_rbtree_next p st = Some (next_in p l).
Proof.
  intros Hk Hp. pose proof (keeps_nodup _ _ Hk) as Hn. destruct Hk as (par & sn & t & m & H & _ & <-).
  pose proof (rep_size _ _ _ _ H) as Hsz. pose proof (height_elems t) as Hht.
  apply list_elem_of_fmap in Hp as ([p' k] & -> & Hp). destruct (place_of _ _ _ Hp) as (C & red & x & y & ->).
  cbn [fst]. pose proof (height_plug C (node false red x p' k y)) as Hhp. rewrite elems_plug in *. cbn [node elems] in *.
  rewrite <- !(assoc_L app), (assoc_L app) in *. cbn [app] in *. rewrite next_in_at.
  2: { rewrite fmap_app in Hn. apply list.NoDup_app in Hn as (_ & Hn & _). intros Hin. apply (Hn _ Hin). by left. }
  unfold ngx_rbtree_next. change (get right p' st) with (get (child true) p' st).
  pose proof (rep_far par sn st C false red x p' k y H) as Hr. cbn [negb] in Hr. rewrite Hr. cbn [mbind option_bind].
  rewrite (rep_sentinel _ _ _ _ H), (rep_is_E par sn st (fr true red p' k x :: C) y H).
  destruct (is_E y) eqn:HE; cbn [negb].
  - destruct y; [|done]. cbn [elems app]. cbn [height] in Hhp.
    apply (next_loop_ok par sn st _ C (N red x p' k E) H); [done|lia].
  - destruct (min_loop_ok par sn st (size (nodes st)) (fr true red p' k x :: C) y H) as (D & red' & q & kq & r & Hm & -> & Hb);
      [by intros ->|cbn [height] in Hhp; lia|].
    unfold ngx_rbtree_min. rewrite Hm. by rewrite elems_plug, Hb.
Qed.

(** ** Deletion *)

Definition blacken (t : rbtree) : rbtree := match t with E => E | N _ l p k r => N false l p k r end.

Lemma blacken_node d red x p k y : blacken (node d red x p k y) = node d false x p k y.
Proof. by destruct d. Qed.

Lemma elems_blacken t : elems (blacken t) = elems t.
Proof. by destruct t. Qed.

Lemma rb_blacken_red t n c : rb t false n -> is_red t = true -> rb (blacken t) c (S n).
Proof. intros H Hr. inversion H; subst; try done. constructor; by eapply rb_weaken. Qed.

Lemma rb_blacken_any t n : rb t false n -> exists m, rb (blacken t) true m.
Proof.
  intros H. destruct (node_cases false t) as [->|(red & x & p & k & y & ->)]; [exists 0%nat; constructor|].
  rewrite blacken_node. by eapply rb_blacken.
Qed.

Lemma black_ok par sn st C t : rep par sn st (plug C t) ->
  exists st', ngx_rbt_black (ptr t) st = Some st' /\ rep par sn st' (plug C (blacken t)).
Proof.
  intros H. destruct (node_cases false t) as [->|(red & x & p & k & y & ->)].
  - exists st. split; [|done]. unfold ngx_rbt_black. cbn [ptr]. rewrite (update_eq _ _ _ sn) by apply H.
    pose proof (rep_black _ _ _ _ H) as Hb. replace (set_color 0 sn) with sn by (destruct sn; cbn in *; by subst).
    rewrite insert_id by apply H. by destruct st.
  - rewrite ptr_node, blacken_node. by eapply paint_black.
Qed.

(** The node to repair, which may be the sentinel: it knows its parent. *)
Definition at_hole (par : nat) (sn : ngx_rbtree_node_t) (st : ngx_rbtree_t) (C : list frame) (t : rbtree) : Prop :=
  rep par sn st (plug C t) /\ (t = E -> parent sn = top par C).

Lemma hole_parent par sn st C t : at_hole par sn st C t -> get parent (ptr t) st = Some (top par C).
Proof.
  intros [H Ht]. destruct (is_E t) eqn:HE; [|by apply (rep_parent _ _ _ _ _ H); intros ->].
  destruct t; [|done]. cbn [ptr]. erewrite get_eq by apply H. by rewrite Ht.
Qed.

Lemma hole_not_root par sn st f C t : rep par sn st (plug (f :: C) t) -> (ptr t =? root st)%nat = false.
Proof.
  intros H. destruct (is_E t) eqn:HE; [|by rewrite (rep_is_root _ _ _ _ _ H); [|intros ->]].
  destruct t; [|done]. apply Nat.eqb_neq. cbn [ptr]. rewrite (rep_root _ _ _ _ H). intros E'.
  pose proof (root_of_path par (f :: C) E s ltac:(done)) as Hin. rewrite <- E' in Hin.
  pose proof (rep_nodup _ _ _ _ H) as Hn. rewrite flat_plug in Hn. cbn [flat app ptr] in Hn.
  by apply list.NoDup_cons in Hn as [Hn _].
Qed.

(** The tests of a turn. *)
Lemma delete_turn_reads par sn st C d c p k w t :
  at_hole par sn st (fr d c p k w :: C) t -> w <> E ->
  delete_turn (ptr t) st
  = if is_red w then '(w', st) ← sibling_red d (ptr t) (ptr w) st; sibling_black d (ptr t) w' st
    else sibling_black d (ptr t) (ptr w) st.
Proof.
  intros Hat HE. pose proof (hole_parent _ _ _ _ _ Hat) as Hpar. cbn [top fp fr] in Hpar. destruct Hat as [H Ht].
  assert (rep par sn st (plug C (node d c t p k w))) as H0 by exact H.
  assert (rep par sn st (plug C (node (negb d) c w p k t))) as H1 by by rewrite <- node_flip.
  unfold delete_turn. rewrite (rep_is_child _ _ _ _ _ _ _ _ _ _ false H0 Hpar (or_intror HE)), Hpar.
  cbn [mbind option_bind]. replace (negb (eqb false d)) with d by by destruct d.
  rewrite (rep_far _ _ _ _ _ _ _ _ _ _ H0). cbn [mbind option_bind].
  pose proof (rep_is_red par sn st (fr (negb d) c p k t :: C) w H1) as ->. done.
Qed.

(** A red sibling is rotated away. *)
Lemma sibling_red_ok par sn st C d c p k t a wp wk b :
  at_hole par sn st (fr d c p k (node d true a wp wk b) :: C) t ->
  exists st', sibling_red d (ptr t) wp st = Some (ptr a, st')
    /\ at_hole par sn st' (fr d true p k a :: fr d false wp wk b :: C) t.
Proof.
  intros Hat. pose proof (hole_parent _ _ _ _ _ Hat) as Hpar. cbn [top fp fr] in Hpar. destruct Hat as [H Ht].
  assert (rep par sn st (plug C (node (negb d) c (node d true a wp wk b) p k t))) as H0
    by by rewrite <- node_flip.
  unfold sibling_red.
  destruct (paint_black par sn st (fr (negb d) c p k t :: C) d true a wp wk b H0) as (st1 & -> & H1).
  cbn [mbind option_bind].
  assert (at_hole par sn st1 (fr d c p k (node d false a wp wk b) :: C) t) as Hat1.
  { split; [|done]. cbn [plug]. unfold plug1. cbn [fd fred fp fk fsib fr]. by rewrite node_flip. }
  rewrite (hole_parent _ _ _ _ _ Hat1). cbn [mbind option_bind top fp fr].
  destruct (paint_red par sn st1 C (negb d) c (node d false a wp wk b) p k t H1) as (st2 & -> & H2).
  cbn [mbind option_bind].
  assert (at_hole par sn st2 (fr d true p k (node d false a wp wk b) :: C) t) as Hat2.
  { split; [|done]. cbn [plug]. unfold plug1. cbn [fd fred fp fk fsib fr]. by rewrite node_flip. }
  rewrite (hole_parent _ _ _ _ _ Hat2). cbn [mbind option_bind top fp fr].
  destruct (rotate_ok par sn st2 C d true t p k false a wp wk b H2) as (st3 & -> & H3).
  cbn [mbind option_bind].
  assert (at_hole par sn st3 (fr d true p k a :: fr d false wp wk b :: C) t) as Hat3 by by split.
  rewrite (hole_parent _ _ _ _ _ Hat3). cbn [mbind option_bind top fp fr].
  rewrite (rep_far par sn st3 (fr d false wp wk b :: C) d true t p k a H3). by exists st3.
Qed.

(** The near child of the sibling is red. *)
Lemma near_red_ok par sn st C d c p k t b' q kq y' wp wk b :
  at_hole par sn st (fr d c p k (node d false (node (negb d) true b' q kq y') wp wk b) :: C) t ->
  exists st', near_red d (ptr t) wp st = Some (q, st')
    /\ at_hole par sn st' (fr d c p k (node d false y' q kq (node (negb d) true b wp wk b')) :: C) t.
Proof.
  intros [H Ht]. set (C' := fr (negb d) c p k t :: C).
  assert (rep par sn st (plug C' (node d false (node (negb d) true b' q kq y') wp wk b))) as H0
    by by unfold C'; cbn [plug]; unfold plug1; cbn [fd fred fp fk fsib fr]; rewrite <- node_flip.
  unfold near_red. rewrite (rep_near _ _ _ _ _ _ _ _ _ _ H0), ptr_node. cbn [mbind option_bind].
  destruct (paint_black par sn st (fr d false wp wk b :: C') (negb d) true b' q kq y' H0) as (st1 & -> & H1).
  cbn [mbind option_bind].
  destruct (paint_red par sn st1 C' d false (node (negb d) false b' q kq y') wp wk b H1) as (st2 & -> & H2).
  cbn [mbind option_bind].
  destruct (rotate_ok par sn st2 C' (negb d) true b wp wk false b' q kq y') as (st3 & -> & H3).
  { by rewrite negb_involutive. }
  cbn [mbind option_bind]. rewrite node_flip, negb_involutive in H3.
  assert (at_hole par sn st3 (fr d c p k (node d false y' q kq (node (negb d) true b wp wk b')) :: C) t) as Hat.
  { split; [|done]. unfold C' in H3. cbn [plug] in H3 |- *. unfold plug1 in H3 |- *. cbn [fd fred fp fk fsib fr] in H3 |- *.
    by rewrite node_flip. }
  rewrite (hole_parent _ _ _ _ _ Hat). cbn [mbind option_bind top fp fr]. destruct Hat as [H4 Hat].
  rewrite (rep_far par sn st3 C d c t p k (node d false y' q kq (node (negb d) true b wp wk b')) H4), ptr_node. cbn [mbind option_bind]. by exists st3.
Qed.

(** The far child of the sibling is red: a rotation ends the loop. *)
Lemma far_red_ok par sn st C d c p k t a wp wk b :
  at_hole par sn st (fr d c p k (node d false a wp wk b) :: C) t ->
  exists st', far_red d (ptr t) wp st = Some (root st', st')
    /\ rep par sn st' (plug C (node d c (node d false t p k a) wp wk (blacken b))).
Proof.
  intros Hat. pose proof (hole_parent _ _ _ _ _ Hat) as Hpar. cbn [top fp fr] in Hpar. destruct Hat as [H Ht].
  assert (rep par sn st (plug (fr (negb d) c p k t :: C) (node d false a wp wk b))) as H0
    by by cbn [plug]; unfold plug1; cbn [fd fred fp fk fsib fr]; rewrite <- node_flip.
  unfold far_red, ngx_rbt_copy_color. rewrite Hpar. cbn [mbind option_bind].
  assert (rep par sn st (plug C (node (negb d) c (node d false a wp wk b) p k t))) as Hp%rep_cell by exact H0.
  erewrite get_eq by exact Hp. cbn [mbind option_bind]. clear Hp.
  change (color (cell c (negb d) k (ptr (node d false a wp wk b)) (ptr t) (top par C))) with (Z.b2z c).
  destruct (paint_ok par sn st (fr (negb d) c p k t :: C) d false c a wp wk b H0) as (st1 & -> & H1).
  cbn [mbind option_bind].
  assert (at_hole par sn st1 (fr d c p k (node d c a wp wk b) :: C) t) as Hat1.
  { split; [|done]. cbn [plug]. unfold plug1. cbn [fd fred fp fk fsib fr]. by rewrite node_flip. }
  rewrite (hole_parent _ _ _ _ _ Hat1). cbn [mbind option_bind top fp fr]. 
  destruct (paint_black par sn st1 C (negb d) c (node d c a wp wk b) p k t H1) as (st2 & -> & H2).
  cbn [mbind option_bind].
  rewrite (rep_far par sn st2 (fr (negb d) false p k t :: C) d c a wp wk b H2). cbn [mbind option_bind].
  destruct (black_ok par sn st2 (fr (negb d) c wp wk a :: fr (negb d) false p k t :: C) b) as (st3 & -> & H3).
  { cbn [plug]. unfold plug1. cbn [fd fred fp fk fsib fr]. by rewrite <- (node_flip d c a wp wk b). }
  cbn [mbind option_bind].
  assert (rep par sn st3 (plug C (node (negb d) false (node d c a wp wk (blacken b)) p k t))) as H3'.
  { cbn [plug] in H3. unfold plug1 in H3. cbn [fd fred fp fk fsib fr] in H3. by rewrite (node_flip d c a wp wk). }
  assert (at_hole par sn st3 (fr d false p k (node d c a wp wk (blacken b)) :: C) t) as Hat3.
  { split; [|done]. cbn [plug]. unfold plug1. cbn [fd fred fp fk fsib fr]. by rewrite node_flip. }
  rewrite (hole_parent _ _ _ _ _ Hat3). cbn [mbind option_bind top fp fr].
  destruct (rotate_ok par sn st3 C d false t p k c a wp wk (blacken b) H3') as (st4 & -> & H4).
  cbn [mbind option_bind]. by exists st4.
Qed.

(** The end of the loop: what is left is a red-black tree once [t] is black. *)
Definition repaired (st : ngx_rbtree_t) (p : nat) (l : list (nat * Z)) : Prop :=
  exists par sn C t m, rep par sn st (plug C t) /\ p = ptr t /\ elems (plug C t) = l /\ rb (plug C (blacken t)) true m.

Lemma blacken_id t m : rb t true m -> blacken t = t.
Proof. intros H. by inversion H. Qed.

Lemma elems_far d c t p k x q kq y :
  elems (node d c (node d false t p k x) q kq (blacken y)) = elems (node d c t p k (node d false x q kq y)).
Proof. destruct d; cbn; rewrite elems_blacken; elems_eq. Qed.

Lemma elems_sib d c t p k w w' : elems w = elems w' -> elems (node d c t p k w) = elems (node d c t p k w').
Proof. intros H. destruct d; cbn; by rewrite H. Qed.

Lemma far_red_repairs par sn st C c1 n d c p k t q kq x y :
  at_hole par sn st (fr d c p k (node d false x q kq y) :: C) t ->
  rb t false n -> rb_ctx C c1 (if c then S n else S (S n)) -> (c = true -> c1 = false) ->
  rb x false n -> rb y false n -> is_red y = true ->
  exists st' temp, far_red d (ptr t) q st = Some (temp, st') /\ temp = root st'
    /\ repaired st' temp (elems (plug C (node d c t p k (node d false x q kq y)))).
Proof.
  intros Hat Ht HC Hc Hx Hy Hyr. destruct (far_red_ok _ _ _ _ _ _ _ _ _ _ _ _ _ Hat) as (st' & Hf & H').
  exists st', (root st'). split; [done|]. split; [done|].
  exists par, sn, [], (plug C (node d c (node d false t p k x) q kq (blacken y))).
  destruct (rb_plug C c1 (if c then S n else S (S n)) (node d c (node d false t p k x) q kq (blacken y))) as (m & Hm); [done| |].
  - destruct c; [rewrite Hc by done; apply rb_node_red|apply rb_node_black]; try apply rb_node_black; try done;
      by apply rb_blacken_red.
  - exists m. cbn [plug]. rewrite (blacken_id _ _ Hm). split; [done|]. split; [apply (rep_root _ _ _ _ H')|]. split; [|done].
    by rewrite !elems_plug, elems_far.
Qed.

(** A turn with a black sibling moves up to the parent, or ends with the root. *)
Lemma sibling_black_ok par sn st C c1 n d c p k t a wp wk b :
  at_hole par sn st (fr d c p k (node d false a wp wk b) :: C) t ->
  rb t false n -> rb a false n -> rb b false n -> rb_ctx C c1 (if c then S n else S (S n)) -> (c = true -> c1 = false) ->
  exists st' temp, sibling_black d (ptr t) wp st = Some (temp, st')
    /\ ((temp = root st' /\ repaired st' temp (elems (plug C (node d c t p k (node d false a wp wk b)))))
        \/ exists w', temp = p /\ rep par sn st' (plug C (node d c t p k w')) /\ elems w' = elems (node d false a wp wk b)
             /\ rb w' false n).
Proof.
  intros Hat Ht Ha Hb HC Hc. destruct Hat as [H Hs].
  assert (rep par sn st (plug (fr (negb d) c p k t :: C) (node d false a wp wk b))) as H0
    by by cbn [plug]; unfold plug1; cbn [fd fred fp fk fsib fr]; rewrite <- node_flip.
  pose proof (rep_is_red par sn st (fr d false wp wk b :: fr (negb d) c p k t :: C) a H0) as Har.
  assert (ngx_rbt_is_red (ptr b) st = Some (is_red b)) as Hbr.
  { apply (rep_is_red par sn st (fr (negb d) false wp wk a :: fr (negb d) c p k t :: C) b).
    cbn [plug] in H0 |- *. unfold plug1 in H0 |- *. cbn [fd fred fp fk fsib fr] in H0 |- *. by rewrite <- (node_flip d false a wp wk b). }
  unfold sibling_black, ngx_rbt_is_black.
  rewrite (rep_near par sn st (fr (negb d) c p k t :: C) d false a wp wk b H0). cbn [mbind option_bind].
  rewrite Har. cbn [mbind option_bind].
  rewrite (rep_far par sn st (fr (negb d) c p k t :: C) d false a wp wk b H0). cbn [mbind option_bind].
  rewrite Hbr. cbn [mbind option_bind].
  destruct (is_red b) eqn:Eb; cbn [negb]; [rewrite andb_false_r|rewrite andb_true_r; destruct (is_red a) eqn:Ea; cbn [negb]].
  - destruct (far_red_repairs par sn st C c1 n d c p k t wp wk a b) as (st' & temp & Hf & Hr); [by split|done..|].
    exists st', temp. split; [done|by left].
  - destruct (node_cases (negb d) a) as [->|(ra & b' & q & kq & y' & ->)]; [done|].
    destruct ra; [|by destruct d]. apply rb_node_inv in Ha as (_ & Hb' & Hy').
    destruct (near_red_ok par sn st C d c p k t b' q kq y' wp wk b) as (st1 & -> & Hat1); [by split|].
    cbn [mbind option_bind].
    destruct (far_red_repairs par sn st1 C c1 n d c p k t q kq y' (node (negb d) true b wp wk b'))
      as (st' & temp & Hf & Hr & Hrep); [done..|by eapply rb_weaken| |by destruct d|].
    { apply rb_node_red; [by apply (rb_is_black _ _ _ Hb Eb)|done]. }
    exists st', temp. split; [done|left]. split; [done|].
    rewrite elems_plug, (elems_sib _ _ _ _ _ _ (node d false y' q kq (node (negb d) true b wp wk b'))), <- elems_plug; [done|].
    destruct d; elems_eq.
  - destruct (paint_red par sn st (fr (negb d) c p k t :: C) d false a wp wk b H0) as (st1 & -> & H1).
    cbn [mbind option_bind].
    assert (at_hole par sn st1 (fr d c p k (node d true a wp wk b) :: C) t) as Hat1.
    { split; [|done]. cbn [plug] in H1 |- *. unfold plug1 in H1 |- *. cbn [fd fred fp fk fsib fr] in H1 |- *. by rewrite node_flip. }
    rewrite (hole_parent _ _ _ _ _ Hat1). cbn [mbind option_bind top fp fr].
    exists st1, p. split; [done|]. right. exists (node d true a wp wk b). split; [done|]. split; [apply Hat1|].
    split; [by destruct d|]. apply rb_node_red; by eapply rb_is_black.
Qed.

Lemma delete_loop_root par sn st t fuel : rep par sn st t ->
  delete_loop (S fuel) (root st) st = Some (root st, st).
Proof. intros H. cbn [delete_loop]. by rewrite Nat.eqb_refl. Qed.

(** A red node stops the loop. *)
Lemma delete_loop_red par sn st C c n t fuel : rep par sn st (plug C t) -> is_red t = true ->
  rb_ctx C c n -> rb (blacken t) c n -> exists p', delete_loop (S fuel) (ptr t) st = Some (p', st)
    /\ repaired st p' (elems (plug C t)).
Proof.
  intros H Hr HC Ht. exists (ptr t). split.
  - cbn [delete_loop]. destruct (ptr t =? root st)%nat; [done|]. unfold ngx_rbt_is_black.
    rewrite (rep_is_red _ _ _ _ _ H), Hr. done.
  - destruct (rb_plug _ _ _ _ HC Ht) as (m & Hm). by exists par, sn, C, t, m.
Qed.

(** What a sibling of a black node looks like. *)
Lemma black_sibling w c n d : rb w c (S n) -> is_red w = false ->
  exists a wp wk b, w = node d false a wp wk b /\ rb a false n /\ rb b false n.
Proof.
  intros Hw Hr. destruct (node_cases d w) as [->|(rw & a & wp & wk & b & ->)]; [by inversion Hw|].
  destruct rw; [by destruct d|]. apply rb_node_inv in Hw as (m & [= <-] & Ha & Hb). by do 4 eexists.
Qed.

(** A turn with a black sibling, and what follows it. *)
Lemma sibling_black_then par sn st C c1 n d c p k t a wp wk b fuel :
  at_hole par sn st (fr d c p k (node d false a wp wk b) :: C) t ->
  rb t false n -> rb a false n -> rb b false n -> rb_ctx C c1 (if c then S n else S (S n)) -> (c = true -> c1 = false) ->
  (0 < fuel)%nat ->
  (c = false -> forall st1 w', rep par sn st1 (plug C (node d false t p k w')) -> rb w' false n ->
    exists st' p', delete_loop fuel p st1 = Some (p', st') /\ repaired st' p' (elems (plug C (node d false t p k w')))) ->
  exists st' p', ('(temp, st) ← sibling_black d (ptr t) wp st; delete_loop fuel temp st) = Some (p', st')
    /\ repaired st' p' (elems (plug C (node d c t p k (node d false a wp wk b)))).
Proof.
  intros Hat Ht Ha Hb HC Hc Hf Hrec. destruct fuel as [|fuel]; [lia|].
  destruct (sibling_black_ok _ _ _ _ _ _ _ _ _ _ _ _ _ _ _ Hat Ht Ha Hb HC Hc) as (st1 & temp & -> & [[-> Hrep]|Hup]).
  - cbn [mbind option_bind]. exists st1, (root st1). split; [|done].
    destruct Hrep as (par' & sn' & C' & t' & m & H' & _). by eapply delete_loop_root.
  - destruct Hup as (w' & -> & H1 & He & Hw'). cbn [mbind option_bind].
    rewrite elems_plug, <- (elems_sib d c t p k _ _ He), <- elems_plug. destruct c.
    + rewrite Hc in HC by done.
      destruct (delete_loop_red par sn st1 C false (S n) (node d true t p k w') fuel H1) as (p' & Hl & Hrep);
        [by destruct d|done|rewrite blacken_node; by apply rb_node_black|].
      rewrite ptr_node in Hl. by exists st1, p'.
    + by apply Hrec.
Qed.

(** The loop that repairs the tree; every turn is a level higher, but for the last. *)
Lemma delete_loop_ok par sn fuel : forall C c n st t,
  at_hole par sn st C t -> rb t false n -> rb_ctx C c (S n) -> (length C < fuel)%nat ->
  exists st' p', delete_loop fuel (ptr t) st = Some (p', st') /\ repaired st' p' (elems (plug C t)).
Proof.
  induction fuel as [|fuel IH]; intros C c n st t Hat Ht HC Hf; [lia|]. pose proof Hat as [H _].
  destruct (is_red t) eqn:Hr.
  { destruct (delete_loop_red par sn st C c (S n) t fuel H Hr HC) as (p' & Hl & Hrep); [by apply rb_blacken_red|].
    by exists st, p'. }
  destruct C as [|f C].
  { cbn [plug] in *. pose proof (delete_loop_root _ _ _ _ fuel H) as Hl. rewrite (rep_root _ _ _ _ H) in Hl.
    exists st, (ptr t). split; [done|]. destruct (rb_blacken_any _ _ Ht) as (m & Hm). by exists par, sn, [], t, m. }
  cbn [delete_loop length] in *. rewrite (hole_not_root _ _ _ _ _ _ H). unfold ngx_rbt_is_black.
  rewrite (rep_is_red _ _ _ _ _ H), Hr. cbn [mbind option_bind negb].
  assert (exists d c0 p k w c1, f = fr d c0 p k w /\ rb w c0 (S n) /\ rb_ctx C c1 (if c0 then S n else S (S n))
    /\ (c0 = true -> c1 = false)) as (d & c0 & p & k & w & c1 & -> & Hw & HC1 & Hc1).
  { inversion HC; subst; do 6 eexists; done. }
  assert (w <> E) as HE by (intros ->; inversion Hw).
  rewrite (delete_turn_reads _ _ _ _ _ _ _ _ _ _ Hat HE). destruct (is_red w) eqn:Hwr.
  - destruct (node_cases d w) as [->|(rw & a & wp & wk & b & ->)]; [done|]. destruct rw; [|by destruct d].
    apply rb_node_inv in Hw as (-> & Ha & Hb). rewrite ptr_node.
    destruct (sibling_red_ok _ _ _ _ _ _ _ _ _ _ _ _ _ Hat) as (st1 & -> & Hat1). cbn [mbind option_bind].
    assert (is_red a = false) as Har by by inversion Ha.
    destruct (black_sibling _ _ _ d Ha Har) as (a1 & ap & ak & a2 & -> & Ha1 & Ha2). rewrite ptr_node.
    destruct (sibling_black_then par sn st1 (fr d false wp wk b :: C) false n d true p k t a1 ap ak a2 fuel)
      as (st' & p' & Hl & Hrep); try done; [by apply (ctx_black _ _ _ _ _ c1); [eapply rb_weaken|]|lia|].
    exists st', p'. split; [done|]. cbn [plug] in Hrep. unfold plug1 in Hrep. cbn [fd fred fp fk fsib fr] in Hrep.
    rewrite elems_plug, elems_rotate in Hrep. cbn [plug]. unfold plug1. cbn [fd fred fp fk fsib fr].
    rewrite elems_plug. rewrite (node_flip d false t). by destruct d.
  - destruct (black_sibling _ _ _ d Hw Hwr) as (a & wp & wk & b & -> & Ha & Hb). rewrite ptr_node.
    apply (sibling_black_then par sn st C c1 n d c0 p k t a wp wk b fuel); try done; [lia|].
    intros -> st1 w' H1 Hw'.
    destruct (IH C c1 (S n) st1 (node d false t p k w')) as (st' & p' & Hl & Hrep);
      [split; [done|by intros ?%node_ne_E]|by apply rb_node_black|done|lia|].
    rewrite ptr_node in Hl. by exists st', p'.
Qed.

(** *** Taking a node out *)

(** A tree with a hole in which [x] is, its parent being [P]. *)
Record hole_rep (par P : nat) (sn : ngx_rbtree_node_t) (st : ngx_rbtree_t) (C : list frame) (x : rbtree) : Prop := {
  hole_root : root st = ptr (plug C x);
  hole_sentinel : sentinel st = s;
  hole_sn : nodes st !! s = Some sn;
  hole_black : color sn = 0;
  hole_E : x = E -> parent sn = P;
  hole_holds : holds (nodes st) (flat P x ++ cflat par C (ptr x));
  hole_nodup : NoDup (s :: (flat P x ++ cflat par C (ptr x)).*1);
}.

Lemma hole_rep_at par P sn st C x : hole_rep par P sn st C x -> P = top par C -> at_hole par sn st C x.
Proof.
  intros [Hr Hs Hsn Hb HE Hh Hn] ->. split; [|done]. split; try done; by rewrite flat_plug.
Qed.

Lemma rb_unlink_ok par sn st f C d red q kq x P :
  rep par sn st (plug (f :: C) (node d red E q kq x)) ->
  exists st' sn', unlink q (ptr x) P st = Some st' /\ hole_rep par P sn' st' (f :: C) x
    /\ nodes st' !! q = nodes st !! q.
Proof.
  intros H. pose proof (rep_cell _ _ _ _ _ _ _ _ _ _ H) as Hq. cbn [top] in Hq.
  pose proof (rep_perm _ _ _ _ _ _ _ _ _ _ H) as [Hh Hn].
  destruct f as [df cf pf kf y]. cbn [fp] in Hq. cbn [flat app] in Hh, Hn. cbn [cflat fp fred fd fk fsib] in Hh, Hn.
  apply Forall_cons_1 in Hh as [_ Hh]. apply Forall_app in Hh as [Hx Hh]. apply Forall_cons_1 in Hh as [Hpf Hh].
  cbn in Hpf, Hn. change ([]%list) with (@nil nat) in Hn. cbn [app] in Hn.
  rewrite !list.NoDup_cons, !not_elem_of_cons, !not_elem_of_app, !not_elem_of_cons, !list.NoDup_app, !list.NoDup_cons in Hn.
  destruct Hn as ((Hsq & Hsx & Hsp & Hsr) & (Hqx & Hqp & Hqr) & Hnx & Hdx & Hpr & Hnr).
  assert (rep par sn st (plug C (node df cf (node d red E q kq x) pf kf y))) as H0 by exact H.
  pose proof (rep_is_child _ _ _ _ _ _ _ _ _ _ false H0) as Hside. rewrite ptr_node in Hside.
  specialize (Hside (get_eq _ _ _ _ Hq) (or_introl (node_ne_E _ _ _ _ _ _))).
  unfold unlink. rewrite Hside. cbn [mbind option_bind]. rewrite (get_eq _ _ _ _ Hq). cbn [mbind option_bind].
  replace (negb (eqb false df)) with df by by destruct df.
  change (parent (cell red d kq (ptr E) (ptr x) pf)) with pf. mem_step.
  assert (ptr x <> pf) as Hxp.
  { destruct x; [done|]. cbn. intros ->. apply (Hdx pf); [by left|by left]. }
  assert (ptr x <> q) as Hxq.
  { destruct x; [done|]. cbn. intros ->. apply Hqx. by left. }
  assert (exists n, nodes st !! ptr x = Some n /\ (x = E -> n = sn)) as (n & Hxn & HxE).
  { destruct x; [exists sn; split; [apply H|done]|]. apply Forall_cons_1 in Hx as [Hx _]. by eexists. }
  mem_step. eexists _, (if is_E x then set_parent P sn else sn). split; [reflexivity|].
  split; [|cbn [nodes]; by rewrite !lookup_insert_ne].
  split; cbn [nodes root sentinel].
  - rewrite (rep_root _ _ _ _ H). by apply plug_same_ptr; left.
  - apply H.
  - destruct x; cbn [is_E ptr] in *; [by rewrite lookup_insert_eq, HxE|].
    rewrite !lookup_insert_ne; [apply H|congruence|intros E; apply Hsx; rewrite <- E; by left].
  - destruct (is_E x); apply H.
  - by intros ->.
  - apply Forall_app_2.
    + eapply holds_hung; [exact Hx|intros _; exists n; by rewrite lookup_insert_eq|done|].
      intros r Hr Hrx. rewrite !lookup_insert_ne; [done| |done]. intros <-. apply (Hdx pf Hr). by left.
    + cbn [cflat fp fred fd fk fsib]. constructor.
      * cbn. rewrite lookup_insert_ne, lookup_insert_eq by done. by destruct df.
      * apply holds_insert; [|by apply holds_insert].
        destruct x; cbn [ptr]; [done|]. intros Hin. apply (Hdx p); [by left|by right].
  - rewrite fmap_app. cbn. apply list.NoDup_cons.
    assert ((flat P x).*1 = (flat q x).*1) as -> by (destruct x; reflexivity).
    rewrite not_elem_of_app, not_elem_of_cons. split; [done|]. apply list.NoDup_app. split; [done|]. split; [done|].
    by apply list.NoDup_cons.
Qed.

(** What [replace] writes; [R] is right of the node. *)
Lemma replace_writes p q st np nq (lp rp : nat) :
  nodes st !! p = Some np -> nodes st !! q = Some nq -> sentinel st = s -> left np = lp -> right np = rp ->
  p <> q -> p <> lp -> p <> rp -> q <> lp -> q <> rp -> (lp <> s -> lp <> rp) ->
  (lp <> s -> is_Some (nodes st !! lp)) -> (rp <> s -> is_Some (nodes st !! rp)) ->
  (p <> root st -> parent np <> p /\ parent np <> q /\ (lp <> s -> parent np <> lp) /\ (rp <> s -> parent np <> rp)
     /\ is_Some (nodes st !! parent np)) ->
  exists st', replace p q st = Some st' /\ sentinel st' = s
    /\ root st' = (if (p =? root st)%nat then q else root st)
    /\ nodes st' !! q = Some {| key := key nq; left := lp; right := rp; parent := parent np; color := color np |}
    /\ (lp <> s -> exists n, nodes st !! lp = Some n /\ nodes st' !! lp = Some (set_parent q n))
    /\ (rp <> s -> exists n, nodes st !! rp = Some n /\ nodes st' !! rp = Some (set_parent q n))
    /\ (p <> root st -> exists npar, nodes st !! parent np = Some npar
          /\ nodes st' !! parent np = Some (set_child (negb (p =? left npar)%nat) q npar))
    /\ (forall r, r <> q -> (lp <> s -> r <> lp) -> (rp <> s -> r <> rp) -> (p <> root st -> r <> parent np) ->
          nodes st' !! r = nodes st !! r).
Proof.
  intros Hp Hq Hse Hl Hr Hpq Hpl Hpr Hql Hqr Hlr Hls Hrs Hpar. subst lp rp.
  unfold replace, ngx_rbt_copy_color. repeat mem_step.
  destruct (Nat.eqb_spec p (root st)) as [Er|Er];
    [|destruct (Hpar Er) as (Hpp & Hpq' & Hpl' & Hpr' & npar & Hnpar); unfold is_child; repeat mem_step];
    cbn [mbind option_bind]; repeat mem_step.
  all: set (qn := set_color (color np) (set_parent (parent np) (set_child true (right np) (set_child false (left np) nq)))).
  all: change (left qn) with (left np); rewrite Hse.
  all: (destruct (Nat.eqb_spec (left np) s) as [El|El];
    [|destruct (Hls El) as [nl Hnl]; specialize (Hlr El); try specialize (Hpl' El)]; cbn [negb mbind option_bind]; repeat mem_step;
    change (right qn) with (right np); rewrite ?Hse;
    (destruct (Nat.eqb_spec (right np) s) as [Erp|Erp];
     [|destruct (Hrs Erp) as [nr Hnr]; try specialize (Hpr' Erp)]); cbn [negb mbind option_bind]; repeat mem_step).
  all: eexists; split; [reflexivity|]; cbn [nodes root sentinel]; split; [done|]; split; [done|]; split; [mem_eq|].
  all: split; [intros; first [done|eexists; split; [eassumption|mem_eq]]|].
  all: split; [intros; first [done|eexists; split; [eassumption|mem_eq]]|].
  all: split; [intros; first [done|eexists; split; [eassumption|mem_eq]]|].
  all: intros r Hr1 Hr2 Hr3 Hr4; try specialize (Hr2 El); try specialize (Hr3 Erp); try specialize (Hr4 Er); mem_eq.
Qed.

Lemma flat_fst par par' x : (flat par x).*1 = (flat par' x).*1.
Proof. by destruct x. Qed.
Lemma cflat_fst par C c c' : (cflat par C c).*1 = (cflat par C c').*1.
Proof. by destruct C. Qed.

(** Another node in the place of [p], whose right subtree may hang elsewhere. *)
Lemma replace_ok par p' sn st C red l p k R q nq :
  nodes st !! p = Some (cell red false k (ptr l) (ptr R) (top par C)) -> nodes st !! q = Some nq ->
  holds (nodes st) (flat p l) -> holds (nodes st) (flat p' R) -> holds (nodes st) (cflat par C p) ->
  NoDup (s :: p :: q :: (flat p l).*1 ++ (flat p' R).*1 ++ (cflat par C p).*1) ->
  root st = ptr (plug C (node false red l p k R)) -> sentinel st = s -> nodes st !! s = Some sn -> color sn = 0 ->
  exists st', replace p q st = Some st' /\ nodes st' !! p = nodes st !! p
    /\ rep par sn st' (plug C (node false red l q (key nq) R)).
Proof.
  intros Hp Hq Hhl HhR Hhc Hn Hroot Hse Hsn Hb.
  pose proof (root_is_top par C (node false red l p k R) st Hroot) as Hrt. rewrite ptr_node in Hrt.
  rewrite !list.NoDup_cons, !not_elem_of_cons, !not_elem_of_app, !list.NoDup_app in Hn.
  repeat setoid_rewrite not_elem_of_app in Hn.
  destruct Hn as ((Hsp & Hsq & Hsl & HsR & Hsc) & (Hpq & Hpl & HpR & Hpc) & (Hql & HqR & Hqc)
    & Hnl & Hdl & HnR & HdR & Hnc).
  assert (p <> root st <-> C <> []) as HC.
  { rewrite <- Nat.eqb_neq, Hrt; [by rewrite bool_decide_eq_false|]. by apply list.NoDup_cons. }
  assert (forall par x, s ∉ (flat par x).*1 -> ptr x <> s <-> x <> E) as HE.
  { intros par0 x Hx. split; [by intros H ->|]. intros Hx' E. apply Hx. rewrite <- E. by apply ptr_in. }
  pose proof (HE _ _ Hsl) as HlE. pose proof (HE _ _ HsR) as HRE.
  assert (forall par x r, s ∉ (flat par x).*1 -> r <> s -> r ∉ (flat par x).*1 -> r <> ptr x) as Hne.
  { intros par0 x r Hx Hrs Hr E. rewrite E in Hr, Hrs. apply Hr, ptr_in. by apply (HE par0 x Hx). }
  assert (forall par0 x, holds (nodes st) (flat par0 x) -> x <> E -> is_Some (nodes st !! ptr x)) as Hsome.
  { intros par0 x Hx Hx'. destruct x; [done|]. apply Forall_cons_1 in Hx as [Hx _]. by eexists. }
  pose proof (top_in par C p) as Htop.
  destruct (replace_writes p q st _ nq (ptr l) (ptr R) Hp Hq Hse eq_refl eq_refl Hpq)
    as (st' & Hrun & Hse' & Hroot' & Hq' & Hl' & HR' & Hc' & Ho);
    [by eapply Hne; [exact Hsl|..]|by eapply Hne; [exact HsR|..]|by eapply Hne; [exact Hsl|..]|by eapply Hne; [exact HsR|..]|..].
  { intros Hls. apply HlE in Hls. pose proof (ptr_in p l Hls) as Hin. eapply Hne; [exact HsR|by apply HlE|].
    by apply (Hdl _ Hin). }
  { intros Hls%HlE. by eapply Hsome. }
  { intros HRs%HRE. by eapply Hsome. }
  { intros HCs%HC. specialize (Htop HCs). cbn [parent cell].
    split; [by intros E; rewrite E in Htop|]. split; [by intros E; rewrite E in Htop|].
    split; [intros Hls%HlE E; apply (Hdl _ (ptr_in p l Hls)); by rewrite <- E|].
    split; [intros HRs%HRE E; apply (HdR _ (ptr_in p' R HRs)); by rewrite <- E|].
    destruct C as [|f C]; [done|]. apply Forall_cons_1 in Hhc as [Hf _]. by eexists. }
  cbn [parent color cell] in *. exists st'. split; [done|].
  rewrite HlE in Hl'. rewrite HRE in HR'. rewrite HC in Hc'.
  assert (forall r, r <> q -> (l <> E -> r <> ptr l) -> (R <> E -> r <> ptr R) -> (C <> [] -> r <> top par C) ->
    nodes st' !! r = nodes st !! r) as Ho'.
  { intros r H1 H2 H3 H4. apply Ho; [done|by intros ?%HlE; apply H2|by intros ?%HRE; apply H3|by intros ?%HC; apply H4]. }
  split.
  { apply Ho'; [done|intros _; by eapply Hne; [exact Hsl|..]|intros _; by eapply Hne; [exact HsR|..]|].
    intros HCs E0. pose proof (Htop HCs) as Hin. by rewrite <- E0 in Hin. }
  split.
  - rewrite Hroot'. destruct (Nat.eqb_spec p (root st)) as [E|E].
    + destruct C as [|f C]; [done|]. exfalso. by apply (proj2 HC).
    + rewrite Hroot. apply plug_same_ptr. left. by apply HC.
  - done.
  - rewrite Ho'; [done|done|by intros ?%HlE; apply not_eq_sym|by intros ?%HRE; apply not_eq_sym|].
    intros HCs E. apply Hsc. rewrite E. by apply Htop.
  - done.
  - rewrite flat_plug, flat_node, ptr_node. cbn [app]. constructor; [cbn; by rewrite Hq'|].
    repeat apply Forall_app_2.
    + eapply holds_hung; [exact Hhl|exact Hl'|done|]. intros r Hr Hrl.
      destruct (Hdl r Hr) as [HrR Hrc]. apply Ho'; [by intros ->|done| |].
      * intros _. eapply Hne; [exact HsR|by intros ->|done].
      * intros HCs E. apply Hrc. rewrite E. by apply Htop.
    + eapply holds_hung; [exact HhR|exact HR'|done|]. intros r Hr HrR.
      apply Ho'; [by intros ->| |done|].
      * intros _. eapply Hne; [exact Hsl|by intros ->|]. intros Hrl. by destruct (Hdl r Hrl).
      * intros HCs E. apply (HdR r Hr). rewrite E. by apply Htop.
    + eapply holds_path; [exact Hhc| |done|].
      * destruct C as [|f C]; [done|]. destruct Hc' as (np & Hnp & Hnp'); [done|]. exists np. split; [done|].
        cbn [top] in *. rewrite Hnp'. apply Forall_cons_1 in Hhc as [Hf _]. cbn in Hf. rewrite Hf in Hnp. simplify_eq.
        assert (p <> ptr (fsib f)) as Hsib%Nat.eqb_neq.
        { intros E. destruct (sib_in par f C p) as [E'|Hin]; [congruence|]. by rewrite <- E in Hin. }
        destruct (fd f); cbn; by rewrite ?Nat.eqb_refl, ?Hsib.
      * intros r Hr Hrt'. apply Ho'; [by intros ->| | |done]; intros HxE E; rewrite E in Hr.
        -- by destruct (Hdl _ (ptr_in p l HxE)) as [_ ?].
        -- by apply (HdR _ (ptr_in p' R HxE)).
  - rewrite flat_plug, flat_node, ptr_node. cbn [app]. rewrite fmap_cons, !fmap_app. cbn [fst].
    rewrite (flat_fst q p l), (flat_fst q p' R), (cflat_fst par C q p).
    rewrite !list.NoDup_cons, !not_elem_of_cons, <- (assoc_L app), !not_elem_of_app, !list.NoDup_app. 
    repeat setoid_rewrite not_elem_of_app. done.
Qed.

Lemma rep_forget par sn st t p : rep par sn st t -> p ∉ (elems t).*1 -> p <> s -> is_Some (nodes st !! p) ->
  exists st', forget p st = Some st' /\ rep par sn st' t.
Proof.
  intros [Hr Hse Hsn Hb Hh Hn] Hp Hps [np Hnp]. unfold forget. rewrite (update_eq _ _ _ _ Hnp).
  eexists. split; [reflexivity|]. rewrite <- (flat_ptrs par) in Hp.
  split; cbn [nodes root sentinel field_set]; try done; [by rewrite lookup_insert_ne|by apply holds_insert].
Qed.

Lemma cflat_app par D C x :
  cflat par (D ++ C) (ptr x) = cflat (top par C) D (ptr x) ++ cflat par C (ptr (plug D x)).
Proof.
  revert x. induction D as [|f D IH]; intros x; [done|]. cbn [app cflat plug].
  pose proof (IH (plug1 f x)) as IHx. unfold plug1 in IHx at 1 2. rewrite !ptr_node in IHx. rewrite IHx.
  rewrite <- (assoc_L app). by destruct D.
Qed.

(** The hole seen from the node whose right subtree it is in. *)
Lemma hole_split par P P' sn st D red p k l C x :
  hole_rep par P sn st (D ++ fr true red p k l :: C) x ->
  match D with [] => P' = P | f :: _ => P' = p /\ P = fp f end ->
  holds (nodes st) (flat P' (plug D x) ++ (p, cell red false k (ptr l) (ptr (plug D x)) (top par C)) :: flat p l ++ cflat par C p)
  /\ NoDup (s :: (flat P' (plug D x)).*1 ++ p :: (flat p l).*1 ++ (cflat par C p).*1).
Proof.
  intros [_ _ _ _ _ Hh Hn] HP. rewrite cflat_app in Hh, Hn. cbn [cflat fp fred fd fk fsib fr top] in Hh, Hn.
  change (cell red true k (ptr (plug D x)) (ptr l) (top par C))
    with (cell red false k (ptr l) (ptr (plug D x)) (top par C)) in Hh, Hn.
  assert (flat P x ++ cflat p D (ptr x) ≡ₚ flat P' (plug D x)) as Hperm.
  { destruct D as [|f D]; [subst; by rewrite app_nil_r|]. destruct HP as [-> ->]. by rewrite (flat_plug p (f :: D)). }
  rewrite (assoc_L app), Hperm in Hh, Hn. rewrite !fmap_app, fmap_cons, fmap_app in Hn. done.
Qed.

(** Nodes that stay. *)
Definition remove (p : nat) : list (nat * Z) -> list (nat * Z) := filter (fun e => e.1 <> p).

Lemma remove_at p k B A : NoDup (B ++ (p, k) :: A).*1 -> remove p (B ++ (p, k) :: A) = B ++ A.
Proof.
  intros Hn. rewrite fmap_app in Hn. apply list.NoDup_app in Hn as (_ & HB & HA).
  cbn in HA. apply list.NoDup_cons in HA as [HpA _].
  assert (forall L : list (nat * Z), p ∉ L.*1 -> remove p L = L) as Hid.
  { intros L HL. induction L as [|e L IH]; [done|]. cbn in HL. apply not_elem_of_cons in HL as [He HL].
    unfold remove. rewrite filter_cons_True by done. f_equal. by apply IH. }
  unfold remove. rewrite list.filter_app, filter_cons_False by (cbn; tauto).
  fold (remove p B). fold (remove p A). rewrite !Hid; [done|done|]. intros Hin. apply (HB _ Hin). by left.
Qed.

(** What is left to do once the node is out. *)
Lemma delete_finish par sn st C x (red : bool) :
  at_hole par sn st C x ->
  (if red then exists m, rb (plug C x) true m else exists c n, rb x false n /\ rb_ctx C c (S n)) ->
  exists st', (if red then Some st
               else '(temp, t) ← delete_loop (S (size (nodes st))) (ptr x) st; ngx_rbt_black temp t) = Some st'
    /\ keeps st' (elems (plug C x)).
Proof.
  intros Hat Hrb. destruct red.
  - destruct Hrb as [m Hm]. exists st. split; [done|]. destruct Hat as [H _]. by exists par, sn, (plug C x), m.
  - destruct Hrb as (c & n & Hx & HC). pose proof (rep_size _ _ _ _ (proj1 Hat)) as Hsz.
    pose proof (height_elems (plug C x)) as Hh. pose proof (height_plug C x) as Hp.
    destruct (delete_loop_ok par sn (S (size (nodes st))) C c n st x Hat Hx HC ltac:(lia)) as (st1 & p' & -> & Hrep).
    cbn [mbind option_bind]. destruct Hrep as (par' & sn' & C' & t' & m & H' & -> & He & Hm).
    destruct (black_ok par' sn' st1 C' t' H') as (st2 & -> & H2). exists st2. split; [done|].
    exists par', sn', (plug C' (blacken t')), m. split; [done|]. split; [done|]. by rewrite elems_plug, elems_blacken, <- elems_plug.
Qed.

Lemma rb_hole C d red q kq x m : rb (plug C (node d red E q kq x)) true m ->
  if red then exists m, rb (plug C x) true m else exists c n, rb x false n /\ rb_ctx C c (S n).
Proof.
  intros (c & n & HC & Hn)%rb_unplug. apply rb_node_inv in Hn. destruct red.
  - destruct Hn as (-> & _ & Hx). eapply rb_plug; [exact HC|by eapply rb_weaken].
  - destruct Hn as (n' & -> & _ & Hx). eauto.
Qed.

Lemma update_some p f st st' x : update p f st = Some st' -> is_Some (nodes st !! x) -> is_Some (nodes st' !! x).
Proof.
  unfold update. destruct (nodes st !! p); [|done]. intros [= <-] Hx. cbn. apply lookup_insert_is_Some'. by right.
Qed.

(** The node is at most the parent of one node: the root... *)
Lemma delete_root par sn st d red p k x m :
  rep par sn st (node d red E p k x) -> rb (node d red E p k x) true m -> choose p st = Some (ptr x, p) ->
  exists st', ngx_rbtree_delete p st = Some st' /\ keeps st' (elems x).
Proof.
  intros H Hrb Hch. pose proof (rep_perm par sn st [] d red E p k x H) as [Hh Hn].
  pose proof (rep_root _ _ _ _ H) as Hr. rewrite ptr_node in Hr. unfold ngx_rbtree_delete. rewrite Hch. cbn [mbind option_bind].
  rewrite Hr, Nat.eqb_refl. cbn [flat app cflat] in Hh, Hn. rewrite app_nil_r in Hh, Hn.
  apply Forall_cons_1 in Hh as [Hp Hh]. apply list.NoDup_cons in Hn as [Hsn [Hpn Hnx]%list.NoDup_cons].
  cbn in Hsn. apply not_elem_of_cons in Hsn as [Hsp Hsn].
  assert (rep p sn (st <| root := ptr x |>) x) as H1.
  { destruct H. split; try done. cbn [nodes field_set]. by apply list.NoDup_cons. }
  destruct (black_ok p sn _ [] x H1) as (st2 & Hb & H2). cbn [plug] in *. rewrite Hb. cbn [mbind option_bind].
  destruct (rep_forget p sn st2 (blacken x) p H2) as (st3 & -> & H3).
  - rewrite elems_blacken, <- (flat_ptrs p). done.
  - done.
  - eapply update_some; [exact Hb|]. by eexists.
  - exists st3. split; [done|]. apply rb_node_inv in Hrb. destruct red; [by destruct Hrb|].
    destruct Hrb as (n & _ & _ & Hx). destruct (rb_blacken_any x n Hx) as (m' & Hm').
    exists p, sn, (blacken x), m'. by rewrite elems_blacken.
Qed.

Lemma elems_take C d red p k x :
  elems (plug C (node d red E p k x)) ≡ₚ (p, k) :: elems (plug C x).
Proof.
  rewrite !elems_plug. destruct d; cbn; rewrite <- ?(assoc_L app); cbn; rewrite <- ?Permutation_middle; [|done].
  by rewrite (assoc_L app).
Qed.

Lemma rep_elems par sn st t : rep par sn st t -> NoDup (s :: (elems t).*1).
Proof. intros H. rewrite <- (flat_ptrs par). apply H. Qed.

(** ... a node with at most one child... *)
Lemma delete_one_child par sn st f C d red p k x m :
  rep par sn st (plug (f :: C) (node d red E p k x)) -> rb (plug (f :: C) (node d red E p k x)) true m ->
  choose p st = Some (ptr x, p) ->
  exists st', ngx_rbtree_delete p st = Some st' /\ keeps st' (elems (plug (f :: C) x)).
Proof.
  intros H Hrb Hch. unfold ngx_rbtree_delete. rewrite Hch. cbn [mbind option_bind].
  pose proof (rep_is_root par sn st (f :: C) (node d red E p k x) H (node_ne_E _ _ _ _ _ _)) as Hroot.
  rewrite ptr_node in Hroot. rewrite Hroot. rewrite bool_decide_false by done.
  pose proof (rep_is_red par sn st (f :: C) (node d red E p k x) H) as Hred. rewrite ptr_node in Hred.
  rewrite Hred. cbn [mbind option_bind]. replace (is_red (node d red E p k x)) with red by by destruct d, red.
  pose proof (rep_cell par sn st (f :: C) d red E p k x H) as Hp. unfold new_parent.
  rewrite (get_eq _ _ _ _ Hp), Nat.eqb_refl. cbn [mbind option_bind parent cell top].
  destruct (rb_unlink_ok par sn st f C d red p k x (fp f) H) as (st1 & sn1 & -> & Hh & Hp1). cbn [mbind option_bind].
  destruct (hole_rep_at _ _ _ _ _ _ Hh eq_refl) as [H1 HE1].
  pose proof (rep_elems _ _ _ _ H) as Hn. rewrite elems_take in Hn. cbn [fmap list_fmap fst] in Hn.
  apply list.NoDup_cons in Hn as [[Hsp _]%not_elem_of_cons [Hpn _]%list.NoDup_cons].
  destruct (rep_forget par sn1 st1 (plug (f :: C) x) p H1) as (st2 & -> & H2); [done|done|..].
  - rewrite Hp1. by eexists.
  - cbn [mbind option_bind]. eapply delete_finish; [by split|]. by eapply rb_hole.
Qed.

Lemma frame_in f D T : fp f ∈ (elems (plug (f :: D) T)).*1.
Proof.
  rewrite elems_plug. destruct f as [d c p k y]. rewrite !fmap_app, !elem_of_app.
  destruct d; cbn; rewrite ?fmap_app; set_solver.
Qed.

(** The nodes with two children: where everything is. *)
Lemma two_children_apart par sn st C red p k l D qr q kq r :
  rep par sn st (plug C (node false red l p k (plug D (N qr E q kq r)))) ->
  p <> q /\ p <> s /\ q <> s /\ (forall f D', D = f :: D' -> fp f <> p) /\ q ∉ (elems (plug C (node false red l p k (plug D r)))).*1
  /\ p ∉ (elems (plug C (node false red l q kq (plug D r)))).*1.
Proof.
  intros H. pose proof (rep_elems _ _ _ _ H) as Hn.
  assert (elems (plug D (N qr E q kq r)) ≡ₚ (q, kq) :: elems (plug D r)) as HD by apply (elems_take D false).
  assert (forall x X, elems (plug C (node false red l x k X)) ≡ₚ (x, k) :: before C ++ (elems l ++ elems X) ++ after C) as HC.
  { intros x X. rewrite elems_plug. cbn. rewrite <- !Permutation_middle. cbn. by rewrite <- Permutation_middle. }
  assert (forall e, before C ++ (elems l ++ e :: elems (plug D r)) ++ after C
    ≡ₚ e :: before C ++ (elems l ++ elems (plug D r)) ++ after C) as He.
  { intros e. rewrite <- !Permutation_middle. cbn. by rewrite <- Permutation_middle. }
  pose proof Hn as Hn'. rewrite HC, HD, He in Hn'. rewrite !elems_plug. cbn [node elems]. rewrite !He.
  cbn [fmap list_fmap fst] in *. rewrite !list.NoDup_cons, !not_elem_of_cons in Hn'. rewrite !not_elem_of_cons.
  destruct Hn' as ((Hsp & Hsq & _) & (Hpq & Hp) & Hq & _). do 3 (split; [done|]). split; [|done].
  intros f D' -> E0. clear Hp. rewrite HC in Hn. cbn [fmap list_fmap fst] in Hn. rewrite !list.NoDup_cons in Hn.
  destruct Hn as (_ & Hp & _). apply Hp. rewrite !fmap_app, !elem_of_app. right. left. right. rewrite <- E0. apply frame_in.
Qed.

Lemma elems_ptrs par P' C red l p k R :
  (elems (plug C (node false red l p k R))).*1 ≡ₚ (flat P' R).*1 ++ p :: (flat p l).*1 ++ (cflat par C p).*1.
Proof.
  rewrite <- (flat_ptrs par), flat_plug, flat_node, ptr_node. cbn [app]. rewrite fmap_cons, !fmap_app.
  rewrite (flat_fst p P' R). cbn [fst]. rewrite <- Permutation_middle, (Permutation_app_comm (flat p l).*1).
  by rewrite <- (assoc_L app).
Qed.

Lemma nodup_insert (x p q : nat) L R C : NoDup (x :: R ++ p :: L ++ C) -> q ∉ R ++ p :: L ++ C -> q <> x ->
  NoDup (x :: p :: q :: L ++ R ++ C).
Proof.
  intros Hn Hq Hqx. assert (L ++ R ++ C ≡ₚ R ++ L ++ C) as ->
    by by rewrite !(assoc_L app), (Permutation_app_comm L).
  rewrite <- Permutation_middle in Hn. rewrite <- Permutation_middle in Hq.
  rewrite !list.NoDup_cons, !not_elem_of_cons in Hn. rewrite not_elem_of_cons in Hq.
  destruct Hn as ((Hxp & Hx) & Hp & Hn), Hq as [Hqp Hq]. rewrite !list.NoDup_cons, !not_elem_of_cons. split_and!; done || by apply not_eq_sym.
Qed.

(** Another node takes the place of [p], with its colour. *)
Lemma rb_rename C red l p k q kq R m : rb (plug C (node false red l p k R)) true m ->
  exists m', rb (plug C (node false red l q kq R)) true m'.
Proof.
  intros (c & n & HC & Hn)%rb_unplug. eapply rb_plug; [exact HC|]. apply rb_node_inv in Hn. destruct red.
  - destruct Hn as (-> & Hl & HR). by apply rb_node_red.
  - destruct Hn as (n' & -> & Hl & HR). by apply rb_node_black.
Qed.

(** ... or a node with two children, the place of which the next node takes. *)
Lemma delete_two_children par sn st C red p k l D qr q kq r m :
  rep par sn st (plug C (node false red l p k (plug D (N qr E q kq r)))) ->
  rb (plug C (node false red l p k (plug D (N qr E q kq r)))) true m ->
  choose p st = Some (ptr r, q) ->
  exists st', ngx_rbtree_delete p st = Some st'
    /\ keeps st' (elems (plug C (node false red l q kq (plug D r)))).
Proof.
  intros H Hrb Hch. destruct (two_children_apart _ _ _ _ _ _ _ _ _ _ _ _ _ H) as (Hpq & Hps & Hqs & Hfp & Hq & Hp).
  assert (rep par sn st (plug (D ++ fr true red p k l :: C) (node false qr E q kq r))) as H0 by by rewrite plug_app.
  assert (exists f C', D ++ fr true red p k l :: C = f :: C') as (f & C' & HC') by by destruct D; do 2 eexists.
  unfold ngx_rbtree_delete. rewrite Hch. cbn [mbind option_bind].
  pose proof (rep_is_root par sn st _ _ H0 (node_ne_E _ _ _ _ _ _)) as Hroot. rewrite ptr_node in Hroot.
  rewrite Hroot, HC'. rewrite bool_decide_false by done.
  pose proof (rep_is_red par sn st _ _ H0) as Hred. rewrite ptr_node in Hred. rewrite Hred. cbn [mbind option_bind].
  replace (is_red (node false qr E q kq r)) with qr by by destruct qr.
  pose proof (rep_cell _ _ _ _ _ _ _ _ _ _ H0) as Hqc. unfold new_parent. rewrite (get_eq _ _ _ _ Hqc).
  cbn [mbind option_bind parent cell]. assert ((q =? p)%nat = false) as Eqp by by apply Nat.eqb_neq. rewrite Eqp.
  set (P := match D with [] => q | f :: _ => fp f end).
  assert ((if (top par (D ++ fr true red p k l :: C) =? p)%nat then q else top par (D ++ fr true red p k l :: C)) = P) as ->.
  { unfold P. destruct D as [|g D']; cbn [top app fp fr]; [by rewrite Nat.eqb_refl|].
    assert ((fp g =? p)%nat = false) as ->; [|done]. apply Nat.eqb_neq. by eapply Hfp. }
  rewrite HC' in H0. destruct (rb_unlink_ok par sn st f C' false qr q kq r P H0) as (st1 & sn1 & -> & Hh & Hq1).
  cbn [mbind option_bind]. rewrite <- HC' in Hh.
  set (P' := match D with [] => P | _ => p end).
  destruct (hole_split par P P' _ _ _ _ _ _ _ _ _ Hh) as [Hsp Hnp]; [by unfold P', P; destruct D|].
  apply Forall_app in Hsp as [HhR Hsp]. apply Forall_cons_1 in Hsp as [Hpc Hsp]. apply Forall_app in Hsp as [Hhl Hhc].
  destruct (replace_ok par P' sn1 st1 C red l p k (plug D r) q (cell qr false kq (ptr E) (ptr r) (top par (f :: C'))))
    as (st2 & -> & Hp2 & H2).
  { exact Hpc. }
  { by rewrite Hq1, <- HC'. }
  { done. }
  { done. }
  { done. }
  { rewrite (elems_ptrs par P') in Hq. by apply nodup_insert. }
  { rewrite (hole_root _ _ _ _ _ _ Hh). by rewrite plug_app. }
  { apply Hh. }
  { apply Hh. }
  { apply Hh. }
  cbn [key cell mbind option_bind] in *.
  destruct (rep_forget par sn1 st2 _ p H2 Hp Hps) as (st3 & -> & H3); [rewrite Hp2; by eexists|].
  cbn [mbind option_bind].
  destruct (rb_rename _ _ _ _ _ q kq _ _ Hrb) as (m' & Hm'). 
  destruct (delete_finish par sn1 st3 (D ++ fr true red q kq l :: C) r qr) as (st4 & -> & H4).
  - split; [by rewrite plug_app|]. intros ->. rewrite (hole_E _ _ _ _ _ _ Hh eq_refl). unfold P. by destruct D.
  - apply (rb_hole _ false _ q kq _ m'). by rewrite plug_app.
  - exists st4. split; [done|]. by rewrite plug_app in H4.
Qed.

Lemma choose_ok par sn st C red x p k y :
  rep par sn st (plug C (node false red x p k y)) ->
  (x = E /\ choose p st = Some (ptr y, p))
  \/ (y = E /\ choose p st = Some (ptr x, p))
  \/ exists D qr q kq r, y = plug D (N qr E q kq r) /\ before D = [] /\ choose p st = Some (ptr r, q).
Proof.
  intros H. pose proof (rep_size _ _ _ _ H) as Hsz. pose proof (height_elems (plug C (node false red x p k y))) as Hh.
  pose proof (height_plug C (node false red x p k y)) as Hp. cbn [node height] in Hsz, Hh, Hp.
  pose proof (rep_near _ _ _ _ _ _ _ _ _ _ H) as Hl. pose proof (rep_far _ _ _ _ _ _ _ _ _ _ H) as Hr.
  cbn [negb] in Hr. unfold choose. change (get left p st) with (get (child false) p st). rewrite Hl.
  change (get right p st) with (get (child true) p st). rewrite Hr. cbn [mbind option_bind].
  rewrite (rep_sentinel _ _ _ _ H), (rep_is_E par sn st (fr false red p k y :: C) x H),
    (rep_is_E par sn st (fr true red p k x :: C) y H).
  destruct (is_E x) eqn:Ex; [left; by destruct x|right]. destruct (is_E y) eqn:Ey; [left; by destruct y|right].
  destruct (min_loop_ok par sn st (size (nodes st)) (fr true red p k x :: C) y H) as (D & qr & q & kq & r & Hm & -> & HD);
    [by intros ->|lia|].
  exists D, qr, q, kq, r. split; [done|]. split; [done|]. unfold ngx_rbtree_min. rewrite Hm. cbn [mbind option_bind].
  assert (rep par sn st (plug (D ++ fr true red p k x :: C) (node false qr E q kq r))) as H0
    by by rewrite plug_app.
  pose proof (rep_far _ _ _ _ _ _ _ _ _ _ H0) as Hrq. cbn [negb] in Hrq.
  change (get right q st) with (get (child true) q st). by rewrite Hrq.
Qed.

Lemma ngx_rbtree_delete_ok st l p : keeps st l -> p ∈ l.*1 ->
  exists st', ngx_rbtree_delete p st = Some st' /\ keeps st' (remove p l).
Proof.
  intros Hk Hp. pose proof (keeps_nodup _ _ Hk) as Hn. destruct Hk as (par & sn & t & m & H & Hrb & <-).
  apply list_elem_of_fmap in Hp as ([p' k] & -> & Hp). cbn [fst]. destruct (place_of _ _ _ Hp) as (C & red & x & y & ->).
  assert (remove p' (elems (plug C (node false red x p' k y))) = before C ++ elems x ++ elems y ++ after C) as ->.
  { rewrite elems_plug in Hn |- *. cbn [node elems] in Hn |- *. rewrite <- !(assoc_L app), (assoc_L app) in Hn |- *.
    cbn [app] in Hn |- *. rewrite remove_at by done. by rewrite <- (assoc_L app). }
  destruct (choose_ok _ _ _ _ _ _ _ _ _ H) as [[-> Hch]|[[-> Hch]|(D & qr & q & kq & r & -> & HD & Hch)]].
  - assert (before C ++ elems E ++ elems y ++ after C = elems (plug C y)) as -> by by rewrite elems_plug.
    destruct C as [|f C]; [exact (delete_root _ _ _ _ _ _ _ _ _ H Hrb Hch)|exact (delete_one_child _ _ _ _ _ _ _ _ _ _ _ H Hrb Hch)].
  - assert (before C ++ elems x ++ elems E ++ after C = elems (plug C x)) as -> by by rewrite elems_plug.
    rewrite node_flip in H, Hrb. destruct C as [|f C]; [exact (delete_root _ _ _ _ _ _ _ _ _ H Hrb Hch)|exact (delete_one_child _ _ _ _ _ _ _ _ _ _ _ H Hrb Hch)].
  - assert (before C ++ elems x ++ elems (plug D (N qr E q kq r)) ++ after C
      = elems (plug C (node false red x q kq (plug D r)))) as ->.
    { rewrite !elems_plug. cbn [node elems]. rewrite !elems_plug, HD. elems_eq. }
    by eapply delete_two_children.
Qed.

(** ** Sequences of operations *)

Lemma keeps_write st l p n : keeps st l -> p ∉ l.*1 -> p <> s -> keeps (st <| nodes := <[p := n]> (nodes st) |>) l.
Proof.
  intros (par & sn & t & m & [Hr Hse Hsn Hb Hh Hn] & Hrb & <-) Hp Hps. exists par, sn, t, m. split; [|done].
  rewrite <- (flat_ptrs par) in Hp.
  split; cbn [nodes root sentinel field_set]; try done; [by rewrite lookup_insert_ne|by apply holds_insert].
Qed.

Lemma keeps_free st l p : keeps st l -> p ∉ l.*1 -> p <> s -> keeps (st <| nodes := delete p (nodes st) |>) l.
Proof.
  intros (par & sn & t & m & [Hr Hse Hsn Hb Hh Hn] & Hrb & <-) Hp Hps. exists par, sn, t, m. split; [|done].
  rewrite <- (flat_ptrs par) in Hp.
  split; cbn [nodes root sentinel field_set]; try done; [by rewrite lookup_delete_ne|].
  eapply holds_agree; [|exact Hh]. intros r Hr'. apply lookup_delete_ne. by intros ->.
Qed.

Lemma keeps_root st l : keeps st l -> (root st =? sentinel st)%nat = match l with [] => true | _ => false end.
Proof.
  intros (par & sn & t & m & H & _ & <-). rewrite (rep_sentinel _ _ _ _ H), (rep_root _ _ _ _ H), (rep_is_E par sn st [] t H).
  destruct t as [|red l p k r]; [done|]. cbn. by destruct (elems l).
Qed.
End Order.
End Rep.

(** What the users of the tree do.  They fill the node before they insert it, and ask
    for the smallest node of a tree that is not empty only. *)
Inductive rb_op := Insert (p : nat) (n : ngx_rbtree_node_t) | Delete (p : nat) | Next (p : nat) | Min.

Section Run.
Context (less : nat * Z -> nat * Z -> bool) `{!KeyOrder less}.

Definition rb_step (op : rb_op) (t : ngx_rbtree_t) : option (nat * ngx_rbtree_t) :=
  match op with
  | Insert p n => t ← ngx_rbtree_insert less p (t <| nodes := <[p := n]> (nodes t) |>); Some (NULL, t)
  | Delete p => t ← ngx_rbtree_delete p t; Some (NULL, t)
  | Next p => q ← ngx_rbtree_next p t; Some (q, t)
  | Min => if (root t =? sentinel t)%nat then Some (NULL, t)
           else p ← ngx_rbtree_min (root t) t; Some (p, t)
  end.

Fixpoint rb_run (ops : list rb_op) (t : ngx_rbtree_t) : option (list nat * ngx_rbtree_t) :=
  match ops with
  | [] => Some ([], t)
  | op :: ops => '(r, t) ← rb_step op t; '(rs, t) ← rb_run ops t; Some (r :: rs, t)
  end.

(** The specification, over a sorted list; [None] for what a user must not do. *)
Definition list_step (s : nat) (op : rb_op) (l : list (nat * Z)) : option (nat * list (nat * Z)) :=
  match op with
  | Insert p n => if decide (p = s \/ p ∈ l.*1) then None else Some (NULL, insert_sorted less (p, key n) l)
  | Delete p => if decide (p ∈ l.*1) then Some (NULL, remove p l) else None
  | Next p => if decide (p ∈ l.*1) then Some (next_in p l, l) else None
  | Min => Some (first_ptr l, l)
  end.

Fixpoint list_run (s : nat) (ops : list rb_op) (l : list (nat * Z)) : option (list nat * list (nat * Z)) :=
  match ops with
  | [] => Some ([], l)
  | op :: ops => '(r, l) ← list_step s op l; '(rs, l) ← list_run s ops l; Some (r :: rs, l)
  end.

Definition op_comparable (op : rb_op) : Prop := match op with Insert p n => comparable (p, key n) | _ => True end.

(** What holds between two operations. *)
Definition rb_inv (s : nat) (t : ngx_rbtree_t) (l : list (nat * Z)) : Prop :=
  keeps s t l /\ ordered less l /\ all_comparable less l.

Lemma insert_sorted_elem e l x : x ∈ insert_sorted less e l -> x = e \/ x ∈ l.
Proof.
  induction l as [|a l IH]; cbn; [intros ->%list_elem_of_singleton; by left|].
  destruct (less e a); rewrite !elem_of_cons; [tauto|]. intros [->|H]; [by right; left|].
  destruct (IH H); [by left|by right; right].
Qed.

Lemma insert_sorted_perm e l : insert_sorted less e l ≡ₚ e :: l.
Proof.
  induction l as [|a l IH]; cbn; [done|]. destruct (less e a); [done|]. rewrite IH. by constructor.
Qed.

Lemma forall_remove P p l : Forall P l -> Forall P (remove p l).
Proof.
  rewrite !list.Forall_forall. intros H x Hx. unfold remove in Hx. apply list_elem_of_filter in Hx as [_ Hx]. by apply H.
Qed.

Lemma remove_inv p l : ordered less l -> all_comparable less l ->
  ordered less (remove p l) /\ all_comparable less (remove p l).
Proof.
  intros Ho Hc. split; [|by apply forall_remove]. unfold ordered, remove in *.
  induction l as [|e l IH]; [constructor|]. apply StronglySorted_cons in Ho as [He Ho].
  apply Forall_cons_1 in Hc as [_ Hc]. specialize (IH Ho Hc). destruct (decide (e.1 <> p)).
  - rewrite filter_cons_True by done. apply StronglySorted_cons. split; [by apply (forall_remove _ p)|done].
  - by rewrite filter_cons_False.
Qed.

Lemma rb_step_ok s op t l r l' : rb_inv s t l -> op_comparable op -> list_step s op l = Some (r, l') ->
  exists t', rb_step op t = Some (r, t') /\ rb_inv s t' l'.
Proof.
  intros (Hk & Ho & Hc) Hop Hl. destruct op as [p n|p|p|]; cbn [list_step rb_step] in *.
  - case_decide as Hd; [done|]. simplify_eq. apply Decidable.not_or in Hd as [Hps Hpl].
    pose (t1 := t <| nodes := <[p := n]> (nodes t) |>). assert (keeps s t1 l) as Hk1 by by apply keeps_write.
    destruct (ngx_rbtree_insert_ok s less t1 l p n Hk1) as (t' & Hi & Hk' & Ho');
      [by apply lookup_insert_eq|done..|]. fold t1. rewrite Hi. cbn [mbind option_bind]. exists t'. split; [done|].
    split; [done|]. split; [done|]. apply list.Forall_forall. intros x [->|Hx]%insert_sorted_elem; [done|].
    unfold all_comparable in Hc. rewrite list.Forall_forall in Hc. by apply Hc.
  - case_decide as Hd; [|done]. simplify_eq. destruct (ngx_rbtree_delete_ok s t l p Hk Hd) as (t' & -> & Hk').
    cbn [mbind option_bind]. exists t'. split; [done|]. split; [done|].
    by apply remove_inv.
  - case_decide as Hd; [|done]. simplify_eq. rewrite (ngx_rbtree_next_ok s t _ p Hk Hd). by exists t.
  - simplify_eq. rewrite (keeps_root _ _ _ Hk). destruct l' as [|e l']; [by exists t|].
    rewrite (ngx_rbtree_min_ok _ _ _ Hk) by done. by exists t.
Qed.

Lemma rb_run_ok s ops : forall t l rs l', rb_inv s t l -> Forall op_comparable ops ->
  list_run s ops l = Some (rs, l') -> exists t', rb_run ops t = Some (rs, t') /\ rb_inv s t' l'.
Proof.
  induction ops as [|op ops IH]; intros t l rs l' Hi Hc Hl; cbn in *; [simplify_eq; by exists t|].
  apply Forall_cons_1 in Hc as [Hop Hc].
  destruct (list_step s op l) as [[r l1]|] eqn:H1; [|done]. cbn [mbind option_bind] in Hl.
  destruct (list_run s ops l1) as [[rs1 l2]|] eqn:H2; [|done]. cbn [mbind option_bind] in Hl. simplify_eq.
  destruct (rb_step_ok _ _ _ _ _ _ Hi Hop H1) as (t1 & -> & Hi1). cbn [mbind option_bind].
  destruct (IH _ _ _ _ Hi1 Hc H2) as (t2 & -> & Hi2). cbn [mbind option_bind]. by exists t2.
Qed.
End Run.

Lemma init_ok less `{!KeyOrder less} s mem : is_Some (mem !! s) ->
  exists t, ngx_rbtree_init s mem = Some t /\ rb_inv less s t [].
Proof.
  intros [n Hn]. unfold ngx_rbtree_init, ngx_rbt_black.
  rewrite (update_eq _ _ {| root := s; sentinel := s; nodes := mem |} n Hn).
  eexists. split; [reflexivity|]. split; [|split; constructor].
  exists NULL, (set_color 0 n), E, 0%nat. split; [|split; [constructor|done]].
  split; cbn [nodes root sentinel field_set]; try done; [by rewrite lookup_insert_eq|constructor|].
  apply NoDup_singleton.
Qed.

(** ** The two orders *)

#[export] Instance value_order : KeyOrder value_less :=
  {| rank e := e.2; comparable _ := True; less_rank a b _ _ := eq_refl |}.

(** Keys that are not more than 2^63 - 1 ahead of [base], on the circle of the machine
    words. *)
Lemma timer_rank base (a b : nat * Z) :
  0 <= u64 (a.2 - base) < 2 ^ 63 -> 0 <= u64 (b.2 - base) < 2 ^ 63 ->
  timer_less a b = (u64 (a.2 - base) <? u64 (b.2 - base)).
Proof.
  unfold timer_less. destruct a as [p a], b as [q b]. cbn [snd]. unfold u64, i64. intros Ha Hb.
  set (x := (a - base) mod 2 ^ 64) in *. set (y := (b - base) mod 2 ^ 64) in *.
  assert (((a - b) mod 2 ^ 64 + 2 ^ 63) mod 2 ^ 64 - 2 ^ 63 = x - y) as ->; [|by destruct (Z.ltb_spec (x - y) 0), (Z.ltb_spec x y); lia].
  unfold x, y in *. clear x y. lia_mod.
Qed.

Definition timer_order (base : Z) : KeyOrder timer_less := {|
  rank e := u64 (e.2 - base);
  comparable e := 0 <= u64 (e.2 - base) < 2 ^ 63;
  less_rank a b Ha Hb := timer_rank base a b Ha Hb;
|}.

(** ** What the tree looks like *)

(** The links, the colours and the balance below [p], whose parent is [par]: the
    number of black nodes on every way down; [None] if a way is longer than [fuel] or
    something is wrong. *)
Fixpoint rb_check (fuel : nat) (t : ngx_rbtree_t) (below_red : bool) (par p : nat) : option nat :=
  if (p =? sentinel t)%nat then Some 0%nat
  else
    match fuel with
    | O => None
    | S fuel' =>
        n ← nodes t !! p;
        let red := negb (color n =? 0) in
        hl ← rb_check fuel' t red p (left n);
        hr ← rb_check fuel' t red p (right n);
        if (parent n =? par)%nat && negb (below_red && red) && (hl =? hr)%nat
        then Some (hl + (if red then 0 else 1))%nat else None
    end.

Lemma rb_check_ok s par sn st t c n : forall C fuel, rb t c n -> rep s par sn st (plug C t) -> (height t <= fuel)%nat ->
  rb_check fuel st c (top par C) (ptr s t) = Some n.
Proof.
  intros C fuel Hrb. revert C fuel. induction Hrb as [c|l p k r n Hl IHl Hr IHr|l p k r c n Hl IHl Hr IHr];
    intros C fuel H Hh; pose proof (rep_is_E _ _ _ _ _ _ H) as HE; rewrite <- (rep_sentinel _ _ _ _ _ H) in HE at 2.
  - destruct fuel; cbn [rb_check]; by rewrite HE.
  - destruct fuel as [|fuel]; [cbn in Hh; lia|]. cbn [rb_check]. rewrite HE. cbn [is_E ptr height] in *.
    pose proof (rep_cell s par sn st C false true l p k r H) as ->. cbn [mbind option_bind cell left right color parent].
    pose proof (IHl (fr false true p k r :: C) fuel H ltac:(lia)) as Hl'. cbn [top fp fr] in Hl'.
    pose proof (IHr (fr true true p k l :: C) fuel H ltac:(lia)) as Hr'. cbn [top fp fr] in Hr'.
    cbn. rewrite Hl'. cbn. rewrite Hr'. cbn. rewrite !Nat.eqb_refl. cbn. by rewrite Nat.add_0_r.
  - destruct fuel as [|fuel]; [cbn in Hh; lia|]. cbn [rb_check]. rewrite HE. cbn [is_E ptr height] in *.
    pose proof (rep_cell s par sn st C false false l p k r H) as ->. cbn [mbind option_bind cell left right color parent].
    pose proof (IHl (fr false false p k r :: C) fuel H ltac:(lia)) as Hl'. cbn [top fp fr] in Hl'.
    pose proof (IHr (fr true false p k l :: C) fuel H ltac:(lia)) as Hr'. cbn [top fp fr] in Hr'.
    cbn. rewrite Hl'. cbn. rewrite Hr'. cbn. rewrite !Nat.eqb_refl, andb_false_r. cbn. by rewrite Nat.add_1_r.
Qed.

(** C11: The red-black tree refines a sorted list.  Whatever the users do, the code
    finds its pointers where it follows them, its loops end, and every answer, the
    smallest node and the next of a node, is that of a list of nodes sorted by key in
    which a new node goes behind the nodes with an equal key.  The keys are compared
    as numbers, or on the circle as the timers do ([value_order], [timer_order]). *)
Theorem ngx_rbtree_refines (less : nat * Z -> nat * Z -> bool) `{!KeyOrder less} (s : nat)
    (mem : gmap nat ngx_rbtree_node_t) (ops : list rb_op) rs l :
  is_Some (mem !! s) -> Forall (op_comparable less) ops ->
  list_run less s ops [] = Some (rs, l) ->
  exists t0 t, ngx_rbtree_init s mem = Some t0 /\ rb_run less ops t0 = Some (rs, t)
    /\ StronglySorted (fun a b => rank a <= rank b) l.
Proof.
  intros Hs Hc Hl. destruct (init_ok less s mem Hs) as (t0 & Hi & Hk).
  destruct (rb_run_ok _ _ _ _ _ _ _ Hk Hc Hl) as (t & Hr & _ & Ho & _). by exists t0, t.
Qed.

Definition blank (k : Z) : ngx_rbtree_node_t :=
  {| key := k; left := 0; right := 0; parent := 0; color := 7 |}.
Definition some_ops : list rb_op :=
  [Insert 2 (blank 50); Insert 3 (blank 20); Insert 4 (blank 70); Insert 5 (blank 20); Min; Next 3; Next 5;
   Insert 6 (blank 10); Insert 7 (blank 5); Delete 3; Insert 8 (blank 1); Delete 2; Next 4; Min; Delete 8; Min].

Lemma ngx_rbtree_refines_witness :
  exists t0 t, ngx_rbtree_init 1 {[1%nat := blank 9]} = Some t0
    /\ rb_run value_less some_ops t0 = Some ([0; 0; 0; 0; 3; 5; 2; 0; 0; 0; 0; 0; 0; 8; 0; 7]%nat, t)
    /\ StronglySorted (fun a b => rank a <= rank b) [(7%nat, 5); (6%nat, 10); (5%nat, 20); (4%nat, 70)].
Proof.
  apply (ngx_rbtree_refines value_less 1 {[1%nat := blank 9]} some_ops); [by eexists|by repeat constructor|].
  vm_compute. reflexivity.
Defined.

(** C12: The shape of the tree.  After any use, every child knows its parent, the root
    is black, no red node has a red child, every way down has the same number of black
    nodes, and no way is longer than twice the logarithm of the number of nodes. *)
Theorem ngx_rbtree_balanced (less : nat * Z -> nat * Z -> bool) `{!KeyOrder less} (s : nat)
    (mem : gmap nat ngx_rbtree_node_t) (ops : list rb_op) rs l t0 t :
  is_Some (mem !! s) -> Forall (op_comparable less) ops -> list_run less s ops [] = Some (rs, l) ->
  ngx_rbtree_init s mem = Some t0 -> rb_run less ops t0 = Some (rs, t) ->
  exists par h, rb_check (2 * Nat.log2 (length l + 1)) t true par (root t) = Some h.
Proof.
  intros Hs Hc Hl Hi Hr. destruct (init_ok less s mem Hs) as (t0' & Hi' & Hk). simplify_eq.
  destruct (rb_run_ok _ _ _ _ _ _ _ Hk Hc Hl) as (t' & Hr' & (par & sn & a & m & H & Hrb & <-) & _). simplify_eq.
  exists par, m. rewrite (rep_root _ _ _ _ _ H). apply (rb_check_ok s par sn t a true m []); [done|done|].
  by eapply rb_balanced.
Qed.

Lemma ngx_rbtree_balanced_witness :
  exists t0 t, ngx_rbtree_init 1 {[1%nat := blank 9]} = Some t0
    /\ rb_run value_less some_ops t0 = Some ([0; 0; 0; 0; 3; 5; 2; 0; 0; 0; 0; 0; 0; 8; 0; 7]%nat, t)
    /\ exists par h, rb_check (2 * Nat.log2 (4 + 1)) t true par (root t) = Some h.
Proof.
  assert (is_Some (({[1%nat := blank 9]} : gmap nat ngx_rbtree_node_t) !! 1%nat)) as Hs by (by eexists).
  assert (Forall (op_comparable value_less) some_ops) as Hc by (by repeat constructor).
  destruct (init_ok value_less 1 _ Hs) as (t0 & Hi & Hk).
  assert (list_run value_less 1 some_ops []
    = Some ([0; 0; 0; 0; 3; 5; 2; 0; 0; 0; 0; 0; 0; 8; 0; 7]%nat, [(7%nat, 5); (6%nat, 10); (5%nat, 20); (4%nat, 70)]))
    as Hl by (vm_compute; reflexivity).
  destruct (rb_run_ok _ _ _ _ _ _ _ Hk Hc Hl) as (t & Hr & _). exists t0, t. split; [done|]. split; [done|].
  exact (ngx_rbtree_balanced value_less 1 _ some_ops _ _ t0 t Hs Hc Hl Hi Hr).
Defined.

(** Timers that go round the end of the machine word. *)
Example rb_timers : fst <$> (t ← ngx_rbtree_init 1 {[1%nat := blank 9]};
    rb_run timer_less [Insert 2 (blank 5); Insert 3 (blank (2 ^ 64 - 10)); Insert 4 (blank 0); Min; Next 3; Next 4] t)
  = Some [0; 0; 0; 3; 4; 2]%nat.
Proof. vm_compute. reflexivity. Qed.
