(* ===== verification/Timer.v ===== *)
(** * Timer: the timers of the events, ngx_event_timer.c and ngx_event_timer.h

    The timers are the nodes of a red-black tree (Rbtree), compared on the circle of
    the machine words.  The handlers of the events, which may set and delete timers
    themselves, are a parameter. *)

From stdpp Require Import gmap sorting.
From S2P Require Import Prelude Rbtree.

(** The fields of an event that concern its timer.  The timer is a node in the event,
    so an event goes by the pointer to that node, and [ngx_rbtree_data] is the
    identity. *)
Record ngx_event_t := {
  timedout : bool;
  timer_set : bool;
  cancelable : bool;
}.
#[export] Instance eta_event : Eta ngx_event_t := mk_eta (fun e =>
  Build_ngx_event_t (timedout e) (timer_set e) (cancelable e)).

(** [ngx_event_timer_rbtree], and the events in memory. *)
Record timers := {
  tree : ngx_rbtree_t;
  events : gmap nat ngx_event_t;
}.
#[export] Instance eta_timers : Eta timers := mk_eta (fun s => Build_timers (tree s) (events s)).

Definition NGX_TIMER_INFINITE : Z := 2 ^ 64 - 1.
Definition NGX_TIMER_LAZY_DELAY : Z := 300.

Definition ngx_event_timer_init (s : nat) (st : timers) : option timers :=
  t ← ngx_rbtree_init s (nodes (tree st)); Some (st <| tree := t |>).

Definition set_event (ev : nat) (f : ngx_event_t -> ngx_event_t) (st : timers) : option timers :=
  e ← events st !! ev; Some (st <| events := <[ev := f e]> (events st) |>).

(** [ngx_current_msec] does not change while the timers are served.  [fresh] is what is
    in the memory of a node that was never used. *)
Section Timers.
Variable ngx_current_msec : Z.
Variable fresh : ngx_rbtree_node_t.

Definition left_msec (key : Z) : Z := i64 (u64 (key - ngx_current_msec)).

Definition ngx_event_find_timer (st : timers) : option Z :=
  let t := tree st in
  if (root t =? sentinel t)%nat then Some NGX_TIMER_INFINITE
  else
    node ← ngx_rbtree_min (root t) t;
    k ← get key node t;
    let timer := left_msec k in
    Some (if timer >? 0 then timer else 0).

Definition ngx_event_del_timer (ev : nat) (st : timers) : option timers :=
  t ← ngx_rbtree_delete ev (tree st);
  set_event ev (fun e => e <| timer_set := false |>) (st <| tree := t |>).

(** [ev->timer.key = key], the insertion and the flag. *)
Definition insert_timer (ev : nat) (k : Z) (st : timers) : option timers :=
  let t := tree st in
  let n := default fresh (nodes t !! ev) in
  t ← ngx_rbtree_insert timer_less ev (t <| nodes := <[ev := n <| key := k |>]> (nodes t) |>);
  set_event ev (fun e => e <| timer_set := true |>) (st <| tree := t |>).

Definition ngx_event_add_timer (ev : nat) (timer : Z) (st : timers) : option timers :=
  let k := u64 (ngx_current_msec + timer) in
  e ← events st !! ev;
  if timer_set e then
    k' ← get key ev (tree st);
    let diff := i64 (u64 (k - k')) in
    if ngx_abs diff <? NGX_TIMER_LAZY_DELAY then Some st
    else st ← ngx_event_del_timer ev st; insert_timer ev k st
  else insert_timer ev k st.

(** What a handler does to the timers; it deletes a timer only if it is set. *)
Inductive timer_op := Add (ev : nat) (timer : Z) | Del (ev : nat).

Definition run_op (op : timer_op) (st : timers) : option timers :=
  match op with
  | Add ev timer => ngx_event_add_timer ev timer st
  | Del ev =>
      e ← events st !! ev;
      if timer_set e then ngx_event_del_timer ev st else Some st
  end.

Fixpoint run_ops (ops : list timer_op) (st : timers) : option timers :=
  match ops with
  | [] => Some st
  | op :: ops => st ← run_op op st; run_ops ops st
  end.

(** [ev->handler(ev)]. *)
Variable handler : nat -> timers -> list timer_op.

(** The events that timed out, in order, and what is left. *)
Fixpoint ngx_event_expire_timers (fuel : nat) (st : timers) : option (list nat * timers) :=
  match fuel with
  | O => None
  | S fuel' =>
      let t := tree st in
      if (root t =? sentinel t)%nat then Some ([], st)
      else
        node ← ngx_rbtree_min (root t) t;
        k ← get key node t;
        if left_msec k >? 0 then Some ([], st)
        else
          t ← ngx_rbtree_delete node t;
          st ← set_event node (fun e => e <| timer_set := false |> <| timedout := true |>) (st <| tree := t |>);
          st ← run_ops (handler node st) st;
          '(fired, st) ← ngx_event_expire_timers fuel' st;
          Some (node :: fired, st)
  end.

(** The loop over the nodes. *)
Fixpoint no_timers_loop (fuel : nat) (node : nat) (st : timers) : option Z :=
  match fuel with
  | O => None
  | S fuel' =>
      if (node =? NULL)%nat then Some NGX_OK
      else
        e ← events st !! node;
        if negb (cancelable e) then Some NGX_AGAIN
        else node ← ngx_rbtree_next node (tree st); no_timers_loop fuel' node st
  end.

Definition ngx_event_no_timers_left (st : timers) : option Z :=
  let t := tree st in
  if (root t =? sentinel t)%nat then Some NGX_OK
  else node ← ngx_rbtree_min (root t) t; no_timers_loop (S (size (nodes t))) node st.
End Timers.

Example two_timers :
  (st ← ngx_event_timer_init 1 {| tree := {| root := 0; sentinel := 0; nodes := {[1%nat := blank 0]} |};
     events := {[2%nat := {| timedout := false; timer_set := false; cancelable := false |};
                 3%nat := {| timedout := false; timer_set := false; cancelable := true |}]} |};
   st ← ngx_event_add_timer (2 ^ 64 - 5) (blank 0) 2 1000 st;
   st ← ngx_event_add_timer (2 ^ 64 - 5) (blank 0) 3 7 st;
   st ← ngx_event_add_timer (2 ^ 64 - 5) (blank 0) 3 290 st;
   a ← ngx_event_find_timer (2 ^ 64 - 5) st;
   '(fired, st) ← ngx_event_expire_timers 400 (blank 0) (fun ev _ => [Add ev 50]) 10 st;
   b ← ngx_event_find_timer 400 st;
   c ← ngx_event_no_timers_left st;
   Some (a, fired, b, c)) = Some (7, [3%nat], 50, NGX_AGAIN).
Proof. vm_compute. reflexivity. Qed.

(** ** What the tree says about the timers *)

Section Proofs.
Variable ngx_current_msec : Z.
Variable fresh : ngx_rbtree_node_t.
Variable s : nat.

(** The timers are less than 2^62 milliseconds away, in the past or in the future. *)
#[local] Instance order : KeyOrder timer_less := timer_order (ngx_current_msec - 2 ^ 62).

Abbreviation left := (left_msec ngx_current_msec).

Lemma left_rank p k : comparable (p, k) -> left k = rank (p, k) - 2 ^ 62.
Proof.
  change (comparable (p, k)) with (0 <= u64 (k - (ngx_current_msec - 2 ^ 62)) < 2 ^ 63).
  change (rank (p, k)) with (u64 (k - (ngx_current_msec - 2 ^ 62))). unfold left_msec, u64, i64. intros Hk. lia_mod.
Qed.

(** [st] has the timers [l], in the order in which they expire. *)
Definition has_timers (st : timers) (l : list (nat * Z)) : Prop :=
  rb_inv timer_less s (tree st) l
  /\ (forall p, p ∈ l.*1 <-> exists e, events st !! p = Some e /\ timer_set e = true)
  /\ events st !! s = None.

Lemma keeps_key t l p k : keeps s t l -> (p, k) ∈ l -> get key p t = Some k.
Proof.
  intros (par & sn & a & m & H & _ & <-) Hp. destruct (place_of _ _ _ Hp) as (C & red & x & y & ->).
  erewrite get_eq by by eapply rep_cell. done.
Qed.

Lemma has_timers_left st l p k : has_timers st l -> (p, k) ∈ l -> left k = rank (p, k) - 2 ^ 62.
Proof.
  intros ((_ & _ & Hc) & _) Hp. unfold all_comparable in Hc. rewrite list.Forall_forall in Hc.
  apply left_rank. by apply (Hc (p, k)).
Qed.

(** The first timer is the next to expire. *)
Lemma first_timer st p k l : has_timers st ((p, k) :: l) ->
  Forall (fun e => left k <= left e.2) l.
Proof.
  intros Hl. apply list.Forall_forall. intros [q k'] Hq. cbn [snd].
  rewrite (has_timers_left _ _ p k Hl), (has_timers_left _ _ q k' Hl) by (by left || by right).
  destruct Hl as ((_ & Ho & _) & _). apply StronglySorted_cons in Ho as [Ho _].
  rewrite list.Forall_forall in Ho. specialize (Ho _ Hq). cbn in Ho |- *. lia.
Qed.

Lemma min_timer st l : has_timers st l ->
  match l with
  | [] => (root (tree st) =? sentinel (tree st))%nat = true
  | (p, k) :: _ => (root (tree st) =? sentinel (tree st))%nat = false
      /\ ngx_rbtree_min (root (tree st)) (tree st) = Some p /\ get key p (tree st) = Some k
  end.
Proof.
  intros ((Hk & _) & _). destruct l as [|[p k] l]; rewrite (keeps_root _ _ _ Hk); [done|].
  split; [done|]. split; [by rewrite (ngx_rbtree_min_ok _ _ _ Hk)|]. apply (keeps_key _ _ _ _ Hk). by left.
Qed.

(** The time to wait.  [ngx_event_find_timer] gives the time to the next timer, 0
    if one has expired, infinity if there is none; the clock may go round between the
    timers. *)
Theorem ngx_event_find_timer_nearest st l : has_timers st l ->
  exists w, ngx_event_find_timer ngx_current_msec st = Some w
    /\ match l with
       | [] => w = NGX_TIMER_INFINITE
       | _ => (exists p k, (p, k) ∈ l /\ w = Z.max 0 (left k)) /\ Forall (fun e => w <= Z.max 0 (left e.2)) l
       end.
Proof.
  intros Hl. pose proof (min_timer _ _ Hl) as Hm. unfold ngx_event_find_timer.
  destruct l as [|[p k] l]; [rewrite Hm; by eexists|]. destruct Hm as (-> & -> & Hk). cbn [mbind option_bind].
  rewrite Hk. cbn [mbind option_bind]. eexists. split; [reflexivity|].
  assert ((if left k >? 0 then left k else 0) = Z.max 0 (left k)) as -> by (destruct (Z.gtb_spec (left k) 0); lia).
  split; [by exists p, k; split; [left|]|]. constructor; [done|].
  eapply Forall_impl; [|by eapply first_timer]. cbn. intros [q k'] H. cbn in *. lia.
Qed.

(** *** Setting and deleting a timer *)

Lemma set_event_ok ev f st : is_Some (events st !! ev) ->
  exists e, events st !! ev = Some e
    /\ set_event ev f st = Some (st <| events := <[ev := f e]> (events st) |>).
Proof. intros [e He]. exists e. unfold set_event. by rewrite He. Qed.

Lemma remove_elem p l q : q ∈ (remove p l).*1 <-> q ∈ l.*1 /\ q <> p.
Proof.
  unfold remove. rewrite !list_elem_of_fmap. split.
  - intros (e & -> & [He Hin]%list_elem_of_filter). split; [by exists e|done].
  - intros [(e & -> & He) Hne]. exists e. split; [done|]. by apply list_elem_of_filter.
Qed.

Lemma unset_ok ev f st l : has_timers st l -> ev ∈ l.*1 -> (forall e, timer_set (f e) = false) ->
  exists t st', ngx_rbtree_delete ev (tree st) = Some t /\ set_event ev f (st <| tree := t |>) = Some st'
    /\ has_timers st' (remove ev l) /\ dom (events st') = dom (events st)
    /\ (forall q, q <> ev -> events st' !! q = events st !! q)
    /\ events st' !! ev = f <$> events st !! ev.
Proof.
  intros (Hi & Hset & Hs) Hev Hf.
  destruct (rb_step_ok timer_less s (Delete ev) (tree st) l NULL (remove ev l) Hi) as (t & Ht & Hi');
    [done|cbn; by rewrite decide_True|].
  cbn [rb_step] in Ht. destruct (ngx_rbtree_delete ev (tree st)) as [t1|]; [|done]. cbn in Ht. simplify_eq.
  destruct (proj1 (Hset ev) Hev) as (e & He & _).
  destruct (set_event_ok ev f (st <| tree := t |>)) as (e' & He' & Hst); [by eexists|]. cbn in He'. simplify_eq.
  eexists _, _. split; [done|]. split; [exact Hst|]. cbn [events tree field_set]. split; [|split; [|split]].
  - split; [done|]. split; cbn [events field_set].
    + intros q. rewrite remove_elem, Hset. destruct (decide (q = ev)) as [->|Hq].
      * rewrite lookup_insert_eq. split; [by intros [_ ?]|]. intros (e0 & [= <-] & Ht1). by rewrite Hf in Ht1.
      * rewrite lookup_insert_ne by done. tauto.
    + rewrite lookup_insert_ne; [done|]. intros ->. by rewrite Hs in He.
  - rewrite dom_insert_lookup_L; [done|by eexists].
  - intros q Hq. by rewrite lookup_insert_ne.
  - by rewrite lookup_insert_eq, He.
Qed.

Lemma insert_timer_ok ev k st l : has_timers st l -> ev ∉ l.*1 -> is_Some (events st !! ev) -> comparable (ev, k) ->
  exists st', insert_timer fresh ev k st = Some st' /\ has_timers st' (insert_sorted timer_less (ev, k) l)
    /\ dom (events st') = dom (events st) /\ (forall q, q <> ev -> events st' !! q = events st !! q).
Proof.
  intros (Hi & Hset & Hs) Hev He Hk. assert (ev <> s) as Hes by (intros ->; rewrite Hs in He; by destruct He).
  set (n := (default fresh (nodes (tree st) !! ev)) <| key := k |>).
  destruct (rb_step_ok timer_less s (Insert ev n) (tree st) l NULL (insert_sorted timer_less (ev, k) l) Hi)
    as (t & Ht & Hi'); [done|cbn; by rewrite decide_False by tauto|].
  cbn [rb_step] in Ht. unfold insert_timer. fold n.
  destruct (ngx_rbtree_insert timer_less ev _) as [t1|]; [|done]. cbn in Ht. simplify_eq. cbn [mbind option_bind].
  destruct (set_event_ok ev (fun e => e <| timer_set := true |>) (st <| tree := t |>)) as (e & He' & ->); [done|].
  eexists. split; [reflexivity|]. cbn [events tree field_set] in *. split; [|split].
  - split; [done|]. split; cbn [events field_set].
    + intros q. rewrite insert_sorted_perm. cbn. rewrite elem_of_cons, Hset. destruct (decide (q = ev)) as [->|Hq].
      * rewrite lookup_insert_eq. split; [intros _; by eexists|by left].
      * rewrite lookup_insert_ne by done. tauto.
    + by rewrite lookup_insert_ne.
  - rewrite dom_insert_lookup_L; [done|by eexists].
  - intros q Hq. by rewrite lookup_insert_ne.
Qed.

Lemma add_comparable ev timer : 0 <= timer < 2 ^ 62 ->
  comparable (ev, u64 (ngx_current_msec + timer)) /\ left (u64 (ngx_current_msec + timer)) = timer.
Proof.
  intros Ht. change (comparable (ev, ?k)) with (0 <= u64 (k - (ngx_current_msec - 2 ^ 62)) < 2 ^ 63).
  unfold left_msec, u64, i64. lia_mod.
Qed.

(** *** Handlers *)

(** The timers that have expired. *)
Definition due (l : list (nat * Z)) : list (nat * Z) := filter (fun e => left e.2 <= 0) l.

Definition op_event (op : timer_op) : nat := match op with Add ev _ => ev | Del ev => ev end.

(** An operation on an event that exists, for a time in the future. *)
Definition op_fits (D : gset nat) (op : timer_op) : Prop :=
  op_event op ∈ D /\ match op with Add _ timer => 0 < timer < 2 ^ 62 | Del _ => True end.

(** [st'] and [l'] come from [st] and [l] by operations on the events that [P] holds of. *)
Definition evolves (P : nat -> Prop) (st st' : timers) (l l' : list (nat * Z)) : Prop :=
  has_timers st' l' /\ dom (events st') = dom (events st) /\ (length (due l') <= length (due l))%nat
  /\ (forall q, ~ P q -> events st' !! q = events st !! q /\ forall k, (q, k) ∈ l' <-> (q, k) ∈ l).

Lemma evolves_refl P st l : has_timers st l -> evolves P st st l l.
Proof. by split. Qed.

Lemma evolves_trans P st1 st2 st3 l1 l2 l3 :
  evolves P st1 st2 l1 l2 -> evolves P st2 st3 l2 l3 -> evolves P st1 st3 l1 l3.
Proof.
  intros (_ & Hd1 & Hl1 & Hq1) (H3 & Hd2 & Hl2 & Hq2). split; [done|]. split; [congruence|]. split; [lia|].
  intros q Hq. destruct (Hq1 q Hq) as [He1 Hk1], (Hq2 q Hq) as [He2 Hk2]. split; [congruence|].
  intros k. by rewrite Hk2.
Qed.

Lemma evolves_weaken (P Q : nat -> Prop) st st' l l' : (forall q, P q -> Q q) -> evolves P st st' l l' -> evolves Q st st' l l'.
Proof. intros HPQ (H & Hd & Hl & Hq). do 3 (split; [done|]). intros q HQ. apply Hq. by intros HP%HPQ. Qed.

Lemma due_remove p l : (length (due (remove p l)) <= length (due l))%nat.
Proof.
  unfold due, remove. induction l as [|e l IH]; [done|]. rewrite !filter_cons.
  repeat case_decide; rewrite ?filter_cons; repeat case_decide; cbn in *; lia || done.
Qed.

Lemma remove_elem_of p l q k : (q, k) ∈ remove p l <-> (q, k) ∈ l /\ q <> p.
Proof. unfold remove. rewrite list_elem_of_filter. cbn. tauto. Qed.

Lemma unset_evolves ev f st l : has_timers st l -> ev ∈ l.*1 -> (forall e, timer_set (f e) = false) ->
  exists t st', ngx_rbtree_delete ev (tree st) = Some t /\ set_event ev f (st <| tree := t |>) = Some st'
    /\ evolves (eq ev) st st' l (remove ev l) /\ events st' !! ev = f <$> events st !! ev.
Proof.
  intros Hl Hev Hf. destruct (unset_ok ev f st l Hl Hev Hf) as (t & st' & Ht & Hst & Hl' & Hd & Hq & He).
  exists t, st'. split; [done|]. split; [done|]. split; [|done]. split; [done|]. split; [done|]. split; [apply due_remove|].
  intros q Hne. split; [apply Hq; congruence|]. intros k. rewrite remove_elem_of. split; [by intros [? _]|].
  split; [done|congruence].
Qed.

Lemma insert_evolves ev timer st l : has_timers st l -> ev ∉ l.*1 -> is_Some (events st !! ev) -> 0 < timer < 2 ^ 62 ->
  exists st' l', insert_timer fresh ev (u64 (ngx_current_msec + timer)) st = Some st' /\ evolves (eq ev) st st' l l'.
Proof.
  intros Hl Hev He Ht. destruct (add_comparable ev timer) as [Hc Hleft]; [lia|].
  destruct (insert_timer_ok ev _ st l Hl Hev He Hc) as (st' & Hi & Hl' & Hd & Hq).
  eexists st', _. split; [done|]. split; [done|]. split; [done|]. unfold due in *.
  split; [rewrite insert_sorted_perm, filter_cons_False; [done|cbn; rewrite Hleft; lia]|].
  intros q Hne. split; [apply Hq; congruence|]. intros k. rewrite insert_sorted_perm, elem_of_cons.
  split; [by intros [[= <- _]|]|by right].
Qed.

Lemma del_timer_eq ev st : ngx_event_del_timer ev st
  = (t ← ngx_rbtree_delete ev (tree st); set_event ev (fun e => e <| timer_set := false |>) (st <| tree := t |>)).
Proof. done. Qed.

Lemma run_op_ok op st l : has_timers st l -> op_fits (dom (events st)) op ->
  exists st' l', run_op ngx_current_msec fresh op st = Some st' /\ evolves (eq (op_event op)) st st' l l'.
Proof.
  intros Hl [Hev Hop]. pose proof Hl as (_ & Hset & _). apply elem_of_dom in Hev as [e He].
  assert (timer_set e = true -> op_event op ∈ l.*1) as Hin by (intros H; apply Hset; by exists e).
  assert (timer_set e = false -> op_event op ∉ l.*1) as Hout.
  { intros H Hi. apply Hset in Hi as (e' & He' & Ht). congruence. }
  destruct op as [ev timer|ev]; cbn [op_event run_op] in *; unfold ngx_event_add_timer; rewrite He;
    cbn [mbind option_bind]; destruct (timer_set e) eqn:Hs.
  - specialize (Hin eq_refl). apply list_elem_of_fmap in Hin as ([ev' k'] & -> & Hin). cbn [fst] in *.
    destruct Hl as ((Hk & Hk') & Hl). rewrite (keeps_key _ _ _ _ Hk Hin). cbn [mbind option_bind].
    assert (has_timers st l) as Hl' by by split. assert (ev' ∈ l.*1) as Hin' by (apply list_elem_of_fmap; by eexists (_, k')).
    case_match; [exists st, l; split; [done|by apply evolves_refl]|].
    destruct (unset_evolves ev' (fun e => e <| timer_set := false |>) st l Hl' Hin') as (t & st1 & Ht & Hst & H1 & _); [done|].
    rewrite del_timer_eq, Ht. cbn [mbind option_bind]. rewrite Hst. cbn [mbind option_bind].
    destruct (insert_evolves ev' timer st1 (remove ev' l)) as (st2 & l2 & Hi & H2); [apply H1|..|done|].
    + rewrite remove_elem. by intros [_ ?].
    + apply elem_of_dom. destruct H1 as (_ & -> & _). apply elem_of_dom. by eexists.
    + exists st2, l2. split; [done|]. by eapply evolves_trans.
  - by apply insert_evolves; [| apply Hout|eexists|].
  - destruct (unset_evolves ev (fun e => e <| timer_set := false |>) st l Hl (Hin eq_refl)) as (t & st' & Ht & Hst & H & _); [done|].
    rewrite del_timer_eq, Ht. cbn [mbind option_bind]. rewrite Hst. by exists st', (remove ev l).
  - exists st, l. split; [done|]. by apply evolves_refl.
Qed.

Lemma run_ops_ok P ops : forall st l, has_timers st l ->
  Forall (op_fits (dom (events st))) ops -> Forall (fun op => P (op_event op)) ops ->
  exists st' l', run_ops ngx_current_msec fresh ops st = Some st' /\ evolves P st st' l l'.
Proof.
  induction ops as [|op ops IH]; intros st l Hl Hops HP; [exists st, l; split; [done|by apply evolves_refl]|].
  apply Forall_cons_1 in Hops as [Hop Hops], HP as [HPop HP].
  destruct (run_op_ok op st l Hl Hop) as (st1 & l1 & Hr & H1). cbn [run_ops]. rewrite Hr. cbn [mbind option_bind].
  apply (evolves_weaken _ P) in H1; [|by intros q <-].
  destruct (IH st1 l1) as (st2 & l2 & Hr2 & H2); [apply H1| |done|].
  - destruct H1 as (_ & Hd & _). by rewrite Hd.
  - exists st2, l2. split; [done|]. by eapply evolves_trans.
Qed.

(** *** Serving the timers *)

Section Expire.
Variable handler : nat -> timers -> list timer_op.
Variable D : gset nat.
(** The events that the handlers may touch. *)
Variable P : nat -> Prop.
Hypothesis handler_fits : forall p st, dom (events st) = D ->
  Forall (op_fits D) (handler p st) /\ Forall (fun op => P (op_event op)) (handler p st).

(** What has become of the events that no handler touches. *)
Definition served (st st' : timers) (l l' : list (nat * Z)) (fired : list nat) : Prop :=
  forall q, ~ P q ->
    (q ∈ fired <-> exists k, (q, k) ∈ l /\ left k <= 0)
    /\ (forall k, (q, k) ∈ l' <-> (q, k) ∈ l /\ 0 < left k)
    /\ (if decide (q ∈ fired) then exists e, events st' !! q = Some e /\ timedout e = true
        else events st' !! q = events st !! q).

Lemma expire_stop st l : has_timers st l -> Forall (fun e => 0 < left e.2) l -> served st st l l [].
Proof.
  intros Hl Hlate q _. rewrite list.Forall_forall in Hlate.
  split; [split; [by intros H%not_elem_of_nil|intros (k & Hk & Hle); specialize (Hlate _ Hk); cbn in Hlate; lia]|].
  split; [|by rewrite decide_False by apply not_elem_of_nil].
  intros k. split; [|by intros [? _]]. intros Hk. split; [done|]. by specialize (Hlate _ Hk).
Qed.

(** The event that timed out first. *)
Lemma served_first st st1 st2 st3 p k l l2 l3 fired :
  left k <= 0 -> p ∉ l.*1 -> is_Some (events st !! p) ->
  events st1 !! p = (fun e => e <| timer_set := false |> <| timedout := true |>) <$> events st !! p ->
  (forall q, p <> q -> events st1 !! q = events st !! q) ->
  (forall q, ~ P q -> events st2 !! q = events st1 !! q /\ forall k, (q, k) ∈ l2 <-> (q, k) ∈ l) ->
  served st2 st3 l2 l3 fired -> served st st3 ((p, k) :: l) l3 (p :: fired).
Proof.
  intros Hk Hp [e He] Hp1 Hq1 Hq2 Hs q HqP. destruct (Hq2 q HqP) as [He2 Hl2]. destruct (Hs q HqP) as (Hf & Hl3 & Hev).
  setoid_rewrite Hl2 in Hf. setoid_rewrite Hl2 in Hl3.
  destruct (decide (q = p)) as [->|Hne].
  - assert (forall k', (p, k') ∉ l) as Hpl by (intros k' Hin; apply Hp, list_elem_of_fmap; by exists (p, k')).
    split; [split; [intros _; exists k; by split; [left|]|by left]|]. split.
    + intros k'. rewrite Hl3, elem_of_cons. split; [by intros [?%Hpl _]|]. intros [[[= ->]|?%Hpl] ?]; [lia|done].
    + rewrite decide_True by by left. case_decide; [done|]. rewrite Hev, He2, Hp1, He. by eexists.
  - split; [|split].
    + rewrite elem_of_cons, Hf. setoid_rewrite elem_of_cons. split; [intros [->|(k' & Hin & Hle)]; [done|exists k'; by split; [right|]]|].
      intros (k' & [[= -> ->]|Hin] & Hle); [done|right; by exists k'].
    + intros k'. rewrite Hl3, elem_of_cons. split; [intros [? ?]; by split; [right|]|]. by intros [[[= -> ->]|?] ?].
    + rewrite <- (Hq1 q) by congruence. rewrite <- He2.
      assert (q ∈ p :: fired <-> q ∈ fired) as Hiff by (rewrite elem_of_cons; tauto).
      destruct (decide (q ∈ p :: fired)) as [Hin|Hout], (decide (q ∈ fired)) as [Hin'|Hout']; tauto.
Qed.

Lemma expire_ok fuel : forall st l, has_timers st l -> dom (events st) = D -> (length (due l) < fuel)%nat ->
  exists fired st' l', ngx_event_expire_timers ngx_current_msec fresh handler fuel st = Some (fired, st')
    /\ has_timers st' l' /\ Forall (fun e => 0 < left e.2) l' /\ served st st' l l' fired.
Proof.
  induction fuel as [|fuel IH]; intros st l Hl HD Hf; [lia|]. cbn [ngx_event_expire_timers].
  pose proof (min_timer _ _ Hl) as Hm. destruct l as [|[p k] l].
  { rewrite Hm. exists [], st, []. split; [done|]. split; [done|]. split; [constructor|by apply expire_stop]. }
  destruct Hm as (-> & -> & Hkey). cbn [mbind option_bind]. rewrite Hkey. cbn [mbind option_bind].
  pose proof (first_timer _ _ _ _ Hl) as Hfirst.
  destruct (Z.gtb_spec (left k) 0) as [Hk|Hk].
  { assert (Forall (fun e => 0 < left e.2) ((p, k) :: l)) as Hlate.
    { constructor; [done|]. eapply Forall_impl; [|exact Hfirst]. cbn. intros e He. lia. }
    exists [], st, ((p, k) :: l). split; [done|]. split; [done|]. split; [done|by apply expire_stop]. }
  destruct (unset_evolves p (fun e => e <| timer_set := false |> <| timedout := true |>) st ((p, k) :: l) Hl)
    as (t & st1 & Ht & Hst & H1 & Hp1); [by left|done|].
  rewrite Ht. cbn [mbind option_bind]. rewrite Hst. cbn [mbind option_bind].
  destruct H1 as (Hl1 & Hd1 & _ & Hq1). rewrite HD in Hd1.
  destruct (handler_fits p st1 Hd1) as [Hfit HP].
  destruct (run_ops_ok P (handler p st1) st1 (remove p ((p, k) :: l)) Hl1) as (st2 & l2 & Hr & Hl2 & Hd2 & Hdue & Hq2);
    [by rewrite Hd1|done|].
  rewrite Hr. cbn [mbind option_bind].
  assert (NoDup (p :: l.*1)) as Hnd by (destruct Hl as ((Hk0 & _) & _); by apply (keeps_nodup _ _ _ Hk0)).
  assert (remove p ((p, k) :: l) = l) as Hrem by by apply (remove_at p k []).
  rewrite Hrem in Hdue, Hq2.
  assert (length (due ((p, k) :: l)) = S (length (due l))) as Hlen.
  { unfold due. by rewrite filter_cons_True by (cbn; lia). }
  destruct (IH st2 l2) as (fired & st3 & l3 & He & Hl3 & Hlate & Hserved); [done|congruence|lia|].
  rewrite He. cbn [mbind option_bind]. exists (p :: fired), st3, l3. split; [done|]. split; [done|]. split; [done|].
  eapply (served_first st st1 st2 st3 p k l l2 l3 fired); [lia|by apply list.NoDup_cons in Hnd as [? _]| |exact Hp1| |exact Hq2|done].
  - destruct Hl as (_ & Hset & _). destruct (proj1 (Hset p)) as (e & He' & _); [by left|by eexists].
  - intros q Hq. by apply Hq1.
Qed.
End Expire.

(** C15: Serving the timers.  The handlers may set timers, their own included, for a
    time in the future, and delete timers.  [ngx_event_expire_timers] ends after one
    turn for each timer that has expired, at most; then no timer that is left has
    expired; and of the events that no handler touches exactly those that had expired
    were served, and the others keep their timers. *)
Theorem ngx_event_expire_timers_serves (handler : nat -> timers -> list timer_op) (P : nat -> Prop) st l fuel :
  has_timers st l -> (length (due l) < fuel)%nat ->
  (forall p st', dom (events st') = dom (events st) ->
    Forall (op_fits (dom (events st))) (handler p st') /\ Forall (fun op => P (op_event op)) (handler p st')) ->
  exists fired st' l', ngx_event_expire_timers ngx_current_msec fresh handler fuel st = Some (fired, st')
    /\ has_timers st' l' /\ Forall (fun e => 0 < left e.2) l'
    /\ forall q, ~ P q ->
       (q ∈ fired <-> exists k, (q, k) ∈ l /\ left k <= 0)
       /\ (forall k, (q, k) ∈ l' <-> (q, k) ∈ l /\ 0 < left k)
       /\ (if decide (q ∈ fired) then exists e, events st' !! q = Some e /\ timedout e = true
           else events st' !! q = events st !! q).
Proof. intros Hl Hf Hh. by apply (expire_ok handler (dom (events st)) P). Qed.

(** The loop over the nodes of a list. *)
Lemma no_timers_loop_ok st B A fuel : has_timers st (B ++ A) -> NULL ∉ (B ++ A).*1 -> (length A < fuel)%nat ->
  exists r, no_timers_loop fuel (first_ptr A) st = Some r
    /\ (r = NGX_OK \/ r = NGX_AGAIN)
    /\ (r = NGX_OK <-> Forall (fun e => cancelable <$> events st !! e.1 = Some true) A).
Proof.
  intros Hl Hnull. revert B Hl Hnull. induction A as [|[p k] A IH] in fuel |- *; intros B Hl Hnull Hf; destruct fuel as [|fuel];
    cbn [length] in Hf; try lia; cbn [no_timers_loop first_ptr fst].
  { exists NGX_OK. split; [done|]. split; [by left|]. split; [constructor|done]. }
  assert (p ∈ (B ++ (p, k) :: A).*1) as Hp by (rewrite fmap_app; apply elem_of_app; right; by left).
  destruct (Nat.eqb_spec p NULL) as [->|_]; [done|]. pose proof Hl as ((Hk & _) & Hset & _).
  destruct (proj1 (Hset p) Hp) as (e & He & _). rewrite He. cbn [mbind option_bind].
  destruct (cancelable e) eqn:Hc; cbn [negb].
  - rewrite (ngx_rbtree_next_ok _ _ _ _ Hk Hp). cbn [mbind option_bind].
    pose proof (keeps_nodup _ _ _ Hk) as Hn. rewrite fmap_app in Hn. apply list.NoDup_app in Hn as (_ & Hn & _).
    rewrite next_in_at by (intros Hin; apply (Hn _ Hin); by left).
    rewrite (cons_middle (p, k) B A) in Hl, Hnull. rewrite (assoc_L app) in Hl, Hnull.
    destruct (IH fuel (B ++ [(p, k)]) Hl Hnull) as (r & Hr & Hor & Hiff); [lia|]. exists r. split; [done|]. split; [done|].
    rewrite Hiff, list.Forall_cons. cbn [fst]. rewrite He. cbn. rewrite Hc. tauto.
  - exists NGX_AGAIN. split; [done|]. split; [by right|]. split; [done|]. intros [H _]%Forall_cons_1.
    cbn [fst] in H. rewrite He in H. cbn in H. congruence.
Qed.

Lemma ngx_event_no_timers_left_ok st l : has_timers st l -> NULL ∉ l.*1 ->
  exists r, ngx_event_no_timers_left st = Some r
    /\ (r = NGX_OK \/ r = NGX_AGAIN)
    /\ (r = NGX_OK <-> forall p, p ∈ l.*1 -> cancelable <$> events st !! p = Some true).
Proof.
  intros Hl Hnull. pose proof (min_timer _ _ Hl) as Hm. unfold ngx_event_no_timers_left.
  destruct l as [|[p k] l].
  { rewrite Hm. exists NGX_OK. split; [done|]. split; [by left|]. split; [by intros _ p Hp%not_elem_of_nil|done]. }
  destruct Hm as (-> & -> & _). cbn [mbind option_bind].
  assert (length ((p, k) :: l) < S (size (nodes (tree st))))%nat as Hsz.
  { destruct Hl as (((par & sn & a & m & H & _ & <-) & _) & _). pose proof (rep_size _ _ _ _ _ H). lia. }
  destruct (no_timers_loop_ok st [] ((p, k) :: l) _ Hl Hnull Hsz) as (r & Hr & Hor & Hiff).
  exists r. split; [done|]. split; [done|]. rewrite Hiff, list.Forall_forall.
  split; [intros H q (e & -> & He)%list_elem_of_fmap; by apply H|].
  intros H e He. apply H, list_elem_of_fmap. by exists e.
Qed.
End Proofs.

(** ** Time goes on *)

Lemma ordered_shift (o1 o2 : KeyOrder timer_less) l d :
  Forall (fun e => rank (KeyOrder := o2) e = rank (KeyOrder := o1) e - d) l ->
  ordered timer_less (KeyOrder0 := o1) l -> ordered timer_less (KeyOrder0 := o2) l.
Proof.
  unfold ordered. induction l as [|e l IH]; [constructor|]. rewrite !StronglySorted_cons.
  intros [He Hl]%list.Forall_cons [Hle Ho]. split; [|by apply IH].
  rewrite list.Forall_forall in Hl, Hle |- *. intros x Hx. rewrite He, (Hl x Hx). specialize (Hle x Hx). lia.
Qed.

(** The clock moves by [d], as long as no timer is 2^62 milliseconds late. *)
Lemma has_timers_later now now' s st l : has_timers now s st l ->
  Forall (fun e => u64 (now' - now) <= left_msec now e.2 + 2 ^ 62) l -> has_timers now' s st l.
Proof.
  intros ((Hk & Ho & Hc) & Hset & Hs) Hlate. split; [|done].
  assert (Forall (fun e => rank (KeyOrder := timer_order (now' - 2 ^ 62)) e
    = rank (KeyOrder := timer_order (now - 2 ^ 62)) e - u64 (now' - now)
      /\ comparable (KeyOrder := timer_order (now' - 2 ^ 62)) e) l) as Hr.
  { unfold all_comparable in Hc. rewrite list.Forall_forall in Hlate, Hc |- *. intros e He.
    specialize (Hlate e He). specialize (Hc e He). pose proof (left_rank now e.1 e.2 Hc) as Hl.
    rewrite Hl in Hlate. clear Hl. cbn in Hc, Hlate |- *. unfold u64 in *. lia_mod. }
  apply list.Forall_and in Hr as [Hr Hc']. split; [done|]. split; [|done]. by eapply ordered_shift.
Qed.

(** ** An example *)

Definition some_event : ngx_event_t := {| timedout := false; timer_set := false; cancelable := false |}.
Definition no_timers : timers :=
  {| tree := {| root := 0; sentinel := 0; nodes := {[1%nat := blank 0]} |};
     events := {[2%nat := some_event; 3%nat := some_event]} |}.

Lemma init_timers now s st : is_Some (nodes (tree st) !! s) -> events st !! s = None ->
  (forall p e, events st !! p = Some e -> timer_set e = false) ->
  exists st', ngx_event_timer_init s st = Some st' /\ has_timers now s st' [] /\ events st' = events st.
Proof.
  intros Hs He Hset. destruct (init_ok timer_less (KeyOrder0 := timer_order (now - 2 ^ 62)) s _ Hs) as (t & Ht & Hi).
  unfold ngx_event_timer_init. rewrite Ht. cbn [mbind option_bind]. eexists. split; [reflexivity|]. split; [|done].
  split; [done|]. split; [|done]. intros p. split; [by intros ?%not_elem_of_nil|].
  intros (e & Hp & Ht'). by rewrite (Hset p e Hp) in Ht'.
Qed.

(** A timer of 7 ms on event 2, five milliseconds before the clock goes round. *)
Lemma one_timer : exists st, has_timers (2 ^ 64 - 5) 1 st [(2%nat, 2)] /\ dom (events st) = {[2%nat; 3%nat]}.
Proof.
  destruct (init_timers (2 ^ 64 - 5) 1 no_timers) as (st & _ & Hl & He); [by eexists|done|..].
  { intros p e Hp. unfold no_timers in Hp. cbn [events] in Hp.
    apply lookup_insert_Some in Hp as [[_ <-]|[_ [_ <-]%lookup_singleton_Some]]; done. }
  destruct (insert_timer_ok (2 ^ 64 - 5) (blank 0) 1 2 2 st [] Hl) as (st' & _ & Hl' & Hd & _).
  - apply not_elem_of_nil.
  - rewrite He. by eexists.
  - vm_compute. by split.
  - exists st'. split; [done|]. rewrite Hd, He. vm_compute. reflexivity.
Qed.

Lemma ngx_event_find_timer_nearest_witness : exists st, ngx_event_find_timer (2 ^ 64 - 5) st = Some 7.
Proof.
  destruct one_timer as (st & Hl & _). exists st.
  destruct (ngx_event_find_timer_nearest (2 ^ 64 - 5) 1 st _ Hl) as (w & Hw & (p & k & Hin & ->) & _).
  apply list_elem_of_singleton in Hin. injection Hin as -> ->. exact Hw.
Defined.

Lemma ngx_event_expire_timers_serves_witness : exists st fired st',
  ngx_event_expire_timers 400 (blank 0) (fun _ _ => [Add 3 50]) 2 st = Some (fired, st') /\ 2%nat ∈ fired.
Proof.
  destruct one_timer as (st & Hl & HD). exists st.
  assert (has_timers 400 1 st [(2%nat, 2)]) as Hl'.
  { apply (has_timers_later (2 ^ 64 - 5)); [done|]. constructor; [vm_compute; done|constructor]. }
  destruct (ngx_event_expire_timers_serves 400 (blank 0) 1 (fun _ _ => [Add 3 50]) (eq 3%nat) st _ 2 Hl')
    as (fired & st' & l' & He & _ & _ & Hq).
  - vm_compute. lia.
  - intros p st' _. rewrite HD. split; [|by repeat constructor]. constructor; [|constructor].
    split; [cbn; set_solver|by split].
  - exists fired, st'. split; [done|]. apply (Hq 2%nat); [done|]. exists 2. split; [by left|]. vm_compute. done.
Defined.
