(* ===== verification/Crc32.v ===== *)
(** * Crc32: the checksums of ngx_crc32.h and ngx_crc32.c

    Two tables, for half a byte and for a byte, against the division by the polynomial
    one bit at a time. *)

From S2P Require Import Prelude.

Definition ngx_crc32_table16 : list Z := [
  0x00000000; 0x1db71064; 0x3b6e20c8; 0x26d930ac; 0x76dc4190; 0x6b6b51f4;
  0x4db26158; 0x5005713c; 0xedb88320; 0xf00f9344; 0xd6d6a3e8; 0xcb61b38c;
  0x9b64c2b0; 0x86d3d2d4; 0xa00ae278; 0xbdbdf21c].

Definition ngx_crc32_table256 : list Z := [
  0x00000000; 0x77073096; 0xee0e612c; 0x990951ba; 0x076dc419; 0x706af48f;
  0xe963a535; 0x9e6495a3; 0x0edb8832; 0x79dcb8a4; 0xe0d5e91e; 0x97d2d988;
  0x09b64c2b; 0x7eb17cbd; 0xe7b82d07; 0x90bf1d91; 0x1db71064; 0x6ab020f2;
  0xf3b97148; 0x84be41de; 0x1adad47d; 0x6ddde4eb; 0xf4d4b551; 0x83d385c7;
  0x136c9856; 0x646ba8c0; 0xfd62f97a; 0x8a65c9ec; 0x14015c4f; 0x63066cd9;
  0xfa0f3d63; 0x8d080df5; 0x3b6e20c8; 0x4c69105e; 0xd56041e4; 0xa2677172;
  0x3c03e4d1; 0x4b04d447; 0xd20d85fd; 0xa50ab56b; 0x35b5a8fa; 0x42b2986c;
  0xdbbbc9d6; 0xacbcf940; 0x32d86ce3; 0x45df5c75; 0xdcd60dcf; 0xabd13d59;
  0x26d930ac; 0x51de003a; 0xc8d75180; 0xbfd06116; 0x21b4f4b5; 0x56b3c423;
  0xcfba9599; 0xb8bda50f; 0x2802b89e; 0x5f058808; 0xc60cd9b2; 0xb10be924;
  0x2f6f7c87; 0x58684c11; 0xc1611dab; 0xb6662d3d; 0x76dc4190; 0x01db7106;
  0x98d220bc; 0xefd5102a; 0x71b18589; 0x06b6b51f; 0x9fbfe4a5; 0xe8b8d433;
  0x7807c9a2; 0x0f00f934; 0x9609a88e; 0xe10e9818; 0x7f6a0dbb; 0x086d3d2d;
  0x91646c97; 0xe6635c01; 0x6b6b51f4; 0x1c6c6162; 0x856530d8; 0xf262004e;
  0x6c0695ed; 0x1b01a57b; 0x8208f4c1; 0xf50fc457; 0x65b0d9c6; 0x12b7e950;
  0x8bbeb8ea; 0xfcb9887c; 0x62dd1ddf; 0x15da2d49; 0x8cd37cf3; 0xfbd44c65;
  0x4db26158; 0x3ab551ce; 0xa3bc0074; 0xd4bb30e2; 0x4adfa541; 0x3dd895d7;
  0xa4d1c46d; 0xd3d6f4fb; 0x4369e96a; 0x346ed9fc; 0xad678846; 0xda60b8d0;
  0x44042d73; 0x33031de5; 0xaa0a4c5f; 0xdd0d7cc9; 0x5005713c; 0x270241aa;
  0xbe0b1010; 0xc90c2086; 0x5768b525; 0x206f85b3; 0xb966d409; 0xce61e49f;
  0x5edef90e; 0x29d9c998; 0xb0d09822; 0xc7d7a8b4; 0x59b33d17; 0x2eb40d81;
  0xb7bd5c3b; 0xc0ba6cad; 0xedb88320; 0x9abfb3b6; 0x03b6e20c; 0x74b1d29a;
  0xead54739; 0x9dd277af; 0x04db2615; 0x73dc1683; 0xe3630b12; 0x94643b84;
  0x0d6d6a3e; 0x7a6a5aa8; 0xe40ecf0b; 0x9309ff9d; 0x0a00ae27; 0x7d079eb1;
  0xf00f9344; 0x8708a3d2; 0x1e01f268; 0x6906c2fe; 0xf762575d; 0x806567cb;
  0x196c3671; 0x6e6b06e7; 0xfed41b76; 0x89d32be0; 0x10da7a5a; 0x67dd4acc;
  0xf9b9df6f; 0x8ebeeff9; 0x17b7be43; 0x60b08ed5; 0xd6d6a3e8; 0xa1d1937e;
  0x38d8c2c4; 0x4fdff252; 0xd1bb67f1; 0xa6bc5767; 0x3fb506dd; 0x48b2364b;
  0xd80d2bda; 0xaf0a1b4c; 0x36034af6; 0x41047a60; 0xdf60efc3; 0xa867df55;
  0x316e8eef; 0x4669be79; 0xcb61b38c; 0xbc66831a; 0x256fd2a0; 0x5268e236;
  0xcc0c7795; 0xbb0b4703; 0x220216b9; 0x5505262f; 0xc5ba3bbe; 0xb2bd0b28;
  0x2bb45a92; 0x5cb36a04; 0xc2d7ffa7; 0xb5d0cf31; 0x2cd99e8b; 0x5bdeae1d;
  0x9b64c2b0; 0xec63f226; 0x756aa39c; 0x026d930a; 0x9c0906a9; 0xeb0e363f;
  0x72076785; 0x05005713; 0x95bf4a82; 0xe2b87a14; 0x7bb12bae; 0x0cb61b38;
  0x92d28e9b; 0xe5d5be0d; 0x7cdcefb7; 0x0bdbdf21; 0x86d3d2d4; 0xf1d4e242;
  0x68ddb3f8; 0x1fda836e; 0x81be16cd; 0xf6b9265b; 0x6fb077e1; 0x18b74777;
  0x88085ae6; 0xff0f6a70; 0x66063bca; 0x11010b5c; 0x8f659eff; 0xf862ae69;
  0x616bffd3; 0x166ccf45; 0xa00ae278; 0xd70dd2ee; 0x4e048354; 0x3903b3c2;
  0xa7672661; 0xd06016f7; 0x4969474d; 0x3e6e77db; 0xaed16a4a; 0xd9d65adc;
  0x40df0b66; 0x37d83bf0; 0xa9bcae53; 0xdebb9ec5; 0x47b2cf7f; 0x30b5ffe9;
  0xbdbdf21c; 0xcabac28a; 0x53b39330; 0x24b4a3a6; 0xbad03605; 0xcdd70693;
  0x54de5729; 0x23d967bf; 0xb3667a2e; 0xc4614ab8; 0x5d681b02; 0x2a6f2b94;
  0xb40bbe37; 0xc30c8ea1; 0x5a05df1b; 0x2d02ef8d].

Definition table_short (i : Z) : option Z := ngx_crc32_table16 !! Z.to_nat i.
Definition table_long (i : Z) : option Z := ngx_crc32_table256 !! Z.to_nat i.

(** One byte of [ngx_crc32_short]. *)
Definition short_step (crc c : Z) : option Z :=
  t ← table_short (Z.land (Z.lxor crc (Z.land c 0xf)) 0xf);
  let crc := Z.lxor t (Z.shiftr crc 4) in
  t ← table_short (Z.land (Z.lxor crc (Z.shiftr c 4)) 0xf);
  Some (Z.lxor t (Z.shiftr crc 4)).

Definition long_step (crc c : Z) : option Z :=
  t ← table_long (Z.land (Z.lxor crc c) 0xff);
  Some (Z.lxor t (Z.shiftr crc 8)).

(** [while (len--)]. *)
Fixpoint crc32_loop (f : Z -> Z -> option Z) (p : list Z) (crc : Z) : option Z :=
  match p with
  | [] => Some crc
  | c :: p' => crc ← f crc c; crc32_loop f p' crc
  end.

Definition ngx_crc32_init : Z := 0xffffffff.
Definition ngx_crc32_final (crc : Z) : Z := Z.lxor crc 0xffffffff.
Definition ngx_crc32_update (crc : Z) (p : list Z) : option Z := crc32_loop long_step p crc.

Definition ngx_crc32_short (p : list Z) : option Z :=
  crc ← crc32_loop short_step p 0xffffffff; Some (Z.lxor crc 0xffffffff).
Definition ngx_crc32_long (p : list Z) : option Z :=
  crc ← crc32_loop long_step p 0xffffffff; Some (Z.lxor crc 0xffffffff).

(** ** The reference: one bit at a time *)

Definition crc_bit (crc : Z) : Z :=
  Z.lxor (Z.shiftr crc 1) (if Z.testbit crc 0 then 0xedb88320 else 0).
Fixpoint crc_bits (n : nat) (crc : Z) : Z :=
  match n with O => crc | S n => crc_bit (crc_bits n crc) end.
Definition crc_byte (crc c : Z) : Z := crc_bits 8 (Z.lxor crc c).
Definition crc32 (p : list Z) : Z := Z.lxor (foldl crc_byte 0xffffffff p) 0xffffffff.

Example crc32_check : crc32 (bs "123456789") = 0xcbf43926.
Proof. reflexivity. Qed.

(** ** Linearity: a table entry is the remainder of its index *)

Lemma crc_bit_lxor a b : crc_bit (Z.lxor a b) = Z.lxor (crc_bit a) (crc_bit b).
Proof.
  unfold crc_bit. rewrite Z.lxor_spec, Z.shiftr_lxor.
  destruct (Z.testbit a 0), (Z.testbit b 0); cbn [xorb]; apply Z.bits_inj'; intros i _;
    rewrite ?Z.lxor_spec, ?Z.bits_0; repeat destruct (Z.testbit _ _); reflexivity.
Qed.

Lemma crc_bits_lxor n a b : crc_bits n (Z.lxor a b) = Z.lxor (crc_bits n a) (crc_bits n b).
Proof.
  induction n as [|n IH]; [done|]. cbn [crc_bits]. rewrite IH. apply crc_bit_lxor.
Qed.

Lemma crc_bits_add n m a : crc_bits (n + m) a = crc_bits n (crc_bits m a).
Proof. induction n as [|n IH]; [done|]. cbn [crc_bits Nat.add]. now rewrite IH. Qed.

(** A value whose low bits are clear is only shifted. *)
Lemma crc_bits_shiftl n a : crc_bits n (Z.shiftl a (Z.of_nat n)) = a.
Proof.
  revert a. induction n as [|n IH]; intros a; [apply Z.shiftl_0_r|].
  replace (S n) with (n + 1)%nat at 1 by lia. rewrite crc_bits_add.
  replace (crc_bits 1 (Z.shiftl a (Z.of_nat (S n)))) with (Z.shiftl a (Z.of_nat n)); [apply IH|].
  cbn [crc_bits]. unfold crc_bit.
  rewrite Z.shiftl_spec_low, Z.lxor_0_r, Z.shiftr_shiftl_l by lia.
  f_equal. lia.
Qed.

Lemma crc_bits_split n a : crc_bits n a
  = Z.lxor (crc_bits n (Z.land a (Z.ones (Z.of_nat n)))) (Z.shiftr a (Z.of_nat n)).
Proof.
  rewrite <- (crc_bits_shiftl n (Z.shiftr a (Z.of_nat n))) at 1. rewrite <- crc_bits_lxor.
  f_equal. apply Z.bits_inj'. intros i Hi.
  rewrite Z.lxor_spec, Z.land_spec, Z.testbit_ones_nonneg, Z.shiftl_spec by lia.
  destruct (Z.ltb_spec i (Z.of_nat n)).
  - rewrite (Z.testbit_neg_r _ (i - Z.of_nat n)) by lia. now destruct (Z.testbit a i).
  - rewrite Z.shiftr_spec, andb_false_r, xorb_false_l by lia. f_equal. lia.
Qed.

Lemma table_short_ok i : 0 <= i < 16 -> table_short i = Some (crc_bits 4 i).
Proof.
  intros Hi.
  assert (H : Forall (fun n => table_short (Z.of_nat n) = Some (crc_bits 4 (Z.of_nat n))) (seq 0 16))
    by (repeat constructor).
  rewrite list.Forall_forall in H. specialize (H (Z.to_nat i)). rewrite Z2Nat.id in H by lia.
  apply H, elem_of_seq. lia.
Qed.

Lemma table_long_all :
  forallb (fun n => bool_decide (table_long (Z.of_nat n) = Some (crc_bits 8 (Z.of_nat n)))) (seq 0 256)
  = true.
Proof. vm_compute. reflexivity. Qed.

Lemma table_long_ok i : 0 <= i < 256 -> table_long i = Some (crc_bits 8 i).
Proof.
  intros Hi. pose proof table_long_all as H. rewrite forallb_forall in H.
  specialize (H (Z.to_nat i)). rewrite Z2Nat.id in H by lia.
  eapply bool_decide_eq_true_1, H, in_seq. lia.
Qed.

Lemma land_bound a n : (0 <= n) -> 0 <= Z.land a (Z.ones n) < 2 ^ n.
Proof. intros Hn. rewrite Z.land_ones by done. apply Z.mod_pos_bound. lia. Qed.

Lemma lxor_bound a b n : 0 <= n -> 0 <= a < 2 ^ n -> 0 <= b < 2 ^ n -> 0 <= Z.lxor a b < 2 ^ n.
Proof.
  intros Hn Ha Hb. rewrite <- (Z.mod_small a (2 ^ n)), <- (Z.mod_small b (2 ^ n)) by done.
  rewrite <- !Z.land_ones by done.
  replace (Z.lxor (Z.land a (Z.ones n)) (Z.land b (Z.ones n)))
    with (Z.land (Z.lxor a b) (Z.ones n)); [now apply land_bound|].
  apply Z.bits_inj'. intros i _. rewrite Z.lxor_spec, !Z.land_spec, Z.lxor_spec.
  repeat destruct (Z.testbit _ i); reflexivity.
Qed.

(** A byte of either loop is eight steps of the division. *)
Lemma long_step_ok crc c : is_u8 c -> long_step crc c = Some (crc_byte crc c).
Proof.
  intros Hc. unfold is_u8 in Hc. unfold long_step, crc_byte. rewrite table_long_ok by exact (land_bound _ 8 ltac:(lia)).
  cbn [mbind option_bind]. rewrite (crc_bits_split 8 (Z.lxor crc c)). do 2 f_equal.
  rewrite Z.shiftr_lxor. change (Z.of_nat 8) with 8.
  rewrite (Z.shiftr_div_pow2 c) by lia. rewrite (Z.div_small c) by lia. symmetry. apply Z.lxor_0_r.
Qed.

Lemma short_step_ok crc c : is_u8 c -> short_step crc c = Some (crc_byte crc c).
Proof.
  intros Hc. unfold is_u8 in Hc. unfold short_step, crc_byte.
  rewrite table_short_ok by exact (land_bound _ 4 ltac:(lia)). cbn [mbind option_bind].
  rewrite table_short_ok by exact (land_bound _ 4 ltac:(lia)). cbn [mbind option_bind]. f_equal.
  change 8%nat with (4 + 4)%nat. rewrite crc_bits_add.
  set (a := Z.land (Z.lxor crc (Z.land c 15)) 15). set (d := Z.lxor (crc_bits 4 a) (Z.shiftr crc 4)).
  assert (E : crc_bits 4 (Z.lxor crc c) = Z.lxor d (Z.shiftr c 4)).
  { rewrite (crc_bits_split 4 (Z.lxor crc c)), Z.shiftr_lxor. unfold d. change (Z.of_nat 4) with 4.
    rewrite Z.lxor_assoc. do 2 f_equal. unfold a. change (Z.ones 4) with 15.
    apply Z.bits_inj'. intros i _. rewrite !Z.land_spec, !Z.lxor_spec, Z.land_spec.
    repeat destruct (Z.testbit _ i); reflexivity. }
  rewrite E, (crc_bits_split 4 (Z.lxor d _)). f_equal.
  rewrite Z.shiftr_lxor, Z.shiftr_shiftr by lia. change (Z.of_nat 4) with 4.
  rewrite (Z.shiftr_div_pow2 c) by lia. rewrite (Z.div_small c) by lia. symmetry. apply Z.lxor_0_r.
Qed.

Lemma crc32_loop_ok f p crc :
  (forall crc c, is_u8 c -> f crc c = Some (crc_byte crc c)) ->
  bytes_ok p -> crc32_loop f p crc = Some (foldl crc_byte crc p).
Proof.
  intros Hf. revert crc. induction p as [|c p IH]; intros crc H; [done|].
  apply list.Forall_cons in H as [Hc H]. cbn [crc32_loop foldl]. rewrite Hf by done.
  cbn [mbind option_bind]. now apply IH.
Qed.

Lemma crc_byte_bound crc c : is_u8 c -> 0 <= crc < 2 ^ 32 -> 0 <= crc_byte crc c < 2 ^ 32.
Proof.
  unfold is_u8. intros Hc Hcrc. unfold crc_byte.
  assert (Hb : forall a, 0 <= a < 2 ^ 32 -> 0 <= crc_bit a < 2 ^ 32).
  { intros a Ha. unfold crc_bit.
    assert (0 <= Z.shiftr a 1 < 2 ^ 32) by (rewrite Z.shiftr_div_pow2 by lia; split;
      [apply Z.div_pos; lia|apply Z.div_lt_upper_bound; lia]).
    destruct (Z.testbit a 0); [apply lxor_bound; lia|now rewrite Z.lxor_0_r]. }
  assert (Hn : forall n a, 0 <= a < 2 ^ 32 -> 0 <= crc_bits n a < 2 ^ 32)
    by (intros n a Ha; induction n; cbn [crc_bits]; auto).
  apply Hn, lxor_bound; lia.
Qed.

Lemma ngx_crc32_short_ok p : bytes_ok p -> ngx_crc32_short p = Some (crc32 p).
Proof. intros H. unfold ngx_crc32_short. by rewrite (crc32_loop_ok _ _ _ short_step_ok H). Qed.

Lemma crc32_loop_app f p p' crc :
  crc32_loop f (p ++ p') crc = (crc ← crc32_loop f p crc; crc32_loop f p' crc).
Proof.
  revert crc. induction p as [|c p IH]; intros crc; [done|]. cbn [app crc32_loop].
  destruct (f crc c); [apply IH|done].
Qed.

(** The data in pieces: [ngx_crc32_init], an update per piece, [ngx_crc32_final]. *)
Fixpoint crc32_pieces (ps : list (list Z)) (crc : Z) : option Z :=
  match ps with
  | [] => Some (ngx_crc32_final crc)
  | p :: ps => crc ← ngx_crc32_update crc p; crc32_pieces ps crc
  end.

Lemma crc32_pieces_ok ps crc : bytes_ok (concat ps) ->
  crc32_pieces ps crc = Some (Z.lxor (foldl crc_byte crc (concat ps)) 0xffffffff).
Proof.
  revert crc. induction ps as [|p ps IH]; intros crc H; [done|].
  cbn [concat] in *. apply list.Forall_app in H as [Hp H]. cbn [crc32_pieces].
  unfold ngx_crc32_update. rewrite (crc32_loop_ok _ _ _ long_step_ok Hp).
  cbn [mbind option_bind]. rewrite IH by done. now rewrite foldl_app.
Qed.

(** C29: the checksum by half bytes, by bytes, and by bytes over any cut of the data into pieces
    are the same 32-bit number, the remainder of the data by the CRC-32 polynomial computed one
    bit at a time; no table is read outside its bounds. *)
Theorem ngx_crc32_correct (ps : list (list Z)) : bytes_ok (concat ps) ->
  ngx_crc32_short (concat ps) = Some (crc32 (concat ps)) /\
  ngx_crc32_long (concat ps) = Some (crc32 (concat ps)) /\
  crc32_pieces ps ngx_crc32_init = Some (crc32 (concat ps)) /\
  0 <= crc32 (concat ps) < 2 ^ 32.
Proof.
  intros H. unfold ngx_crc32_short, ngx_crc32_long.
  rewrite (crc32_loop_ok _ _ _ short_step_ok H), (crc32_loop_ok _ _ _ long_step_ok H).
  rewrite crc32_pieces_ok by done. refine (conj eq_refl (conj eq_refl (conj eq_refl _))).
  apply lxor_bound; [lia| |lia].
  assert (Hb : forall p crc, bytes_ok p -> 0 <= crc < 2 ^ 32 -> 0 <= foldl crc_byte crc p < 2 ^ 32).
  { induction p as [|c p IH]; intros crc Hp Hcrc; [done|]. apply list.Forall_cons in Hp as [Hc Hp].
    cbn [foldl]. apply IH; [done|]. now apply crc_byte_bound. }
  apply Hb; [done|lia].
Qed.

Lemma ngx_crc32_correct_witness :
  ngx_crc32_short (bs "123456789") = Some 0xcbf43926 /\
  crc32_pieces [bs "1234"; []; bs "56789"] ngx_crc32_init = Some 0xcbf43926.
Proof.
  destruct (ngx_crc32_correct [bs "1234"; []; bs "56789"]) as (H1 & _ & H2 & _).
  { now apply bytes_ok_check. }
  split; [exact H1|exact H2].
Defined.
