(* ===== verification/LimitReq.v ===== *)
(** * LimitReq: the rate limits of ngx_http_limit_req_module.c

    A zone of shared memory keeps a leaky bucket for every key it has seen lately, in a
    red-black tree (Rbtree) for the search and in a queue (Queue) that is ordered by the
    last use.  The workers take turns at it.  The blocks of the nodes come from the
    allocator of the zone, which is an interface here ([Slab]). *)

From stdpp Require Import gmap sorting.
From S2P Require Import Prelude Crc32 Queue Rbtree.

(** ** Comparison of keys *)

(** The first [n] bytes, unless they are not there. *)
Fixpoint ngx_memcmp (s1 s2 : list Z) (n : nat) : option Z :=
  match n, s1, s2 with
  | O, _, _ => Some 0
  | S n, c1 :: s1, c2 :: s2 => if c1 =? c2 then ngx_memcmp s1 s2 n else Some (c1 - c2)
  | S _, _, _ => None
  end.

Definition ngx_memn2cmp (s1 s2 : list Z) (n1 n2 : nat) : option Z :=
  let '(n, z) := if (n1 <=? n2)%nat then (n1, -1) else (n2, 1) in
  m ← ngx_memcmp s1 s2 n;
  Some (if negb (m =? 0) || (n1 =? n2)%nat then m else z).

(** ** The data *)

(** The node of a key, apart from its part in the tree and its part in the queue, which
    have the same number in the memory of the trees and of the queues: they are parts of
    one block. *)
Record ngx_http_limit_req_node_t := {
  len : Z;
  last : Z;
  excess : Z;
  count : Z;
  data : list Z;
}.
#[export] Instance eta_lr_node : Eta ngx_http_limit_req_node_t := mk_eta (fun n =>
  Build_ngx_http_limit_req_node_t (len n) (last n) (excess n) (count n) (data n)).

(** What a worker knows of a zone: its rate, and the node it has counted a request at. *)
Record ngx_http_limit_req_ctx_t := {
  rate : Z;
  ctx_node : option nat;
}.
#[export] Instance eta_lr_ctx : Eta ngx_http_limit_req_ctx_t := mk_eta (fun c =>
  Build_ngx_http_limit_req_ctx_t (rate c) (ctx_node c)).

(** A limit of a location. *)
Record ngx_http_limit_req_limit_t := {
  burst : Z;
  delay : Z;
}.

(** What the zones rely on: a block that the allocator gives out is not in use. *)
Class Slab (pool : Type) := {
  ngx_slab_alloc_locked : nat -> pool -> option nat * pool;
  ngx_slab_free_locked : nat -> pool -> pool;
  in_use : pool -> gset nat;
  slab_alloc_some n P p P' :
    ngx_slab_alloc_locked n P = (Some p, P') -> p ∉ in_use P /\ in_use P' = {[p]} ∪ in_use P;
  slab_alloc_none n P P' : ngx_slab_alloc_locked n P = (None, P') -> in_use P' = in_use P;
  slab_free p P : p ∈ in_use P -> in_use (ngx_slab_free_locked p P) = in_use P ∖ {[p]};
}.

(** The shared memory of a zone: [ngx_http_limit_req_shctx_t], which lies at [sh] with the
    sentinel of its tree and the head of its queue, the nodes, and the allocator. *)
Record zone {pool : Type} := {
  sh : nat;
  z_rbtree : ngx_rbtree_t;
  z_queue : memory;
  z_nodes : gmap nat ngx_http_limit_req_node_t;
  shpool : pool;
}.
Arguments zone : clear implicits.
#[export] Instance eta_zone pool : Eta (zone pool) := mk_eta (fun z =>
  Build_zone pool (sh z) (z_rbtree z) (z_queue z) (z_nodes z) (shpool z)).

(** How the nodes of the tree are compared when one of them is inserted. *)
Definition limit_req_less (nodes : gmap nat ngx_http_limit_req_node_t) (a b : nat * Z) : bool :=
  if a.2 <? b.2 then true
  else if a.2 >? b.2 then false
  else
    default false (
      lrn ← nodes !! a.1;
      lrnt ← nodes !! b.1;
      c ← ngx_memn2cmp (data lrn) (data lrnt) (Z.to_nat (len lrn)) (Z.to_nat (len lrnt));
      Some (c <? 0)).

Definition ngx_http_limit_req_rbtree_insert_value (nodes : gmap nat ngx_http_limit_req_node_t) :=
  insert_below (limit_req_less nodes).

(** ** The bucket of a key *)

(** The time since [last], as [ms]. *)
Definition elapsed (now last : Z) : Z :=
  let ms := i64 (u64 (now - last)) in
  if ms <? -60000 then 1 else if ms <? 0 then 0 else ms.

Definition new_excess (rate excess ms : Z) : Z :=
  let excess := i64 (u64 (excess - u64 (rate * ms) / 1000 + 1000)) in
  if excess <? 0 then 0 else excess.

(** Whether a node must stay when the zone looks for nodes to delete. *)
Definition must_stay (now rate last excess : Z) : bool :=
  let ms := i64 (u64 (now - last)) in
  let ms := ngx_abs ms in
  if ms <? 60000 then true
  else i64 (u64 (excess - u64 (rate * ms) / 1000)) >? 0.

Section Zone.
Context {pool : Type} `{!Slab pool}.
Variable NGX_DEBUG : bool.
(** What is in a block that was just allocated. *)
Variable fresh : ngx_rbtree_node_t.
Variable fresh_link : ngx_queue_t.

Definition set_node (p : nat) (lr : ngx_http_limit_req_node_t) (z : zone pool) : zone pool :=
  z <| z_nodes := <[p := lr]> (z_nodes z) |>.

(** A block that is given back is not accessed any more. *)
Definition free_node (p : nat) (z : zone pool) : zone pool :=
  z <| z_rbtree := (z_rbtree z) <| nodes := delete p (nodes (z_rbtree z)) |> |>
    <| z_queue := delete p (z_queue z) |>
    <| z_nodes := delete p (z_nodes z) |>
    <| shpool := ngx_slab_free_locked p (shpool z) |>.

(** ** [ngx_http_limit_req_expire] *)

Fixpoint expire_loop (fuel : nat) (now rate : Z) (n : nat) (z : zone pool) : option (zone pool) :=
  if (3 <=? n)%nat then Some z
  else
    match fuel with
    | O => None
    | S fuel =>
        e ← ngx_queue_empty (sh z) (z_queue z);
        if (e : bool) then Some z
        else
          q ← ngx_queue_last (sh z) (z_queue z);
          lr ← z_nodes z !! q;
          if negb (count lr =? 0) then Some z
          else if negb (n =? 0)%nat && must_stay now rate (last lr) (excess lr) then Some z
          else
            m ← ngx_queue_remove NGX_DEBUG q (z_queue z);
            t ← ngx_rbtree_delete q (z_rbtree z);
            expire_loop fuel now rate (S n) (free_node q (z <| z_queue := m |> <| z_rbtree := t |>))
    end.

Definition ngx_http_limit_req_expire := expire_loop 3.

(** ** [ngx_http_limit_req_lookup] *)

(** The search in the tree, from [node]; [None] inside if it ends at the sentinel. *)
Fixpoint search_loop (fuel node : nat) (hash : Z) (k : list Z) (z : zone pool) : option (option nat) :=
  match fuel with
  | O => None
  | S fuel =>
      let t := z_rbtree z in
      if (node =? sentinel t)%nat then Some None
      else
        h ← get key node t;
        if hash <? h then node ← get left node t; search_loop fuel node hash k z
        else if hash >? h then node ← get right node t; search_loop fuel node hash k z
        else
          lr ← z_nodes z !! node;
          rc ← ngx_memn2cmp k (data lr) (length k) (Z.to_nat (len lr));
          if rc =? 0 then Some (Some node)
          else node ← (if rc <? 0 then get left node t else get right node t); search_loop fuel node hash k z
  end.

(** What a lookup answers: the code, the excess, and how many times the allocator had no
    block for it. *)
Record answer := { rc : Z; ep : Z; refused : nat }.

(** The branch [rc == 0]. *)
Definition lookup_found (limit : ngx_http_limit_req_limit_t) (now : Z) (account : bool) (p : nat)
    (ctx : ngx_http_limit_req_ctx_t) (z : zone pool)
    : option (answer * ngx_http_limit_req_ctx_t * zone pool) :=
  m ← ngx_queue_remove NGX_DEBUG p (z_queue z);
  m ← ngx_queue_insert_head (sh z) p m;
  let z := z <| z_queue := m |> in
  lr ← z_nodes z !! p;
  let ms := elapsed now (last lr) in
  let e := new_excess (rate ctx) (excess lr) ms in
  if e >? burst limit then Some ({| rc := NGX_BUSY; ep := e; refused := 0 |}, ctx, z)
  else if account then
    let lr := lr <| excess := e |> in
    let lr := if ms =? 0 then lr else lr <| last := now |> in
    Some ({| rc := NGX_OK; ep := e; refused := 0 |}, ctx, set_node p lr z)
  else
    Some ({| rc := NGX_AGAIN; ep := e; refused := 0 |}, ctx <| ctx_node := Some p |>,
          set_node p (lr <| count := u64 (count lr + 1) |>) z).

(** [offsetof(ngx_rbtree_node_t, color) + offsetof(ngx_http_limit_req_node_t, data) + key->len]. *)
Definition node_size (k : list Z) : nat := (32 + 48 + length k)%nat.

(** The new node, from [node->key = hash] on.  Its fields [last] and [count], which are set
    at the end, are not looked at before. *)
Definition lookup_new (now hash : Z) (k : list Z) (account : bool) (refused p : nat)
    (ctx : ngx_http_limit_req_ctx_t) (z : zone pool)
    : option (answer * ngx_http_limit_req_ctx_t * zone pool) :=
  let lr := {| len := Z.of_nat (length k) mod 2 ^ 16; excess := 0; data := k;
               last := if account then now else 0; count := if account then 0 else 1 |} in
  let z := set_node p lr z in
  let t := z_rbtree z in
  t ← ngx_rbtree_insert (limit_req_less (z_nodes z)) p
        (t <| nodes := <[p := fresh <| key := hash |>]> (nodes t) |>);
  m ← ngx_queue_insert_head (sh z) p (<[p := fresh_link]> (z_queue z));
  let z := z <| z_rbtree := t |> <| z_queue := m |> in
  Some (if account then ({| rc := NGX_OK; ep := 0; refused := refused |}, ctx, z)
        else ({| rc := NGX_AGAIN; ep := 0; refused := refused |}, ctx <| ctx_node := Some p |>, z)).

Definition alloc_node (k : list Z) (z : zone pool) : option nat * zone pool :=
  let '(node, P) := ngx_slab_alloc_locked (node_size k) (shpool z) in (node, z <| shpool := P |>).

Definition ngx_http_limit_req_lookup (limit : ngx_http_limit_req_limit_t) (now hash : Z) (k : list Z)
    (account : bool) (ctx : ngx_http_limit_req_ctx_t) (z : zone pool)
    : option (answer * ngx_http_limit_req_ctx_t * zone pool) :=
  node ← search_loop (S (size (nodes (z_rbtree z)))) (root (z_rbtree z)) hash k z;
  match node with
  | Some p => lookup_found limit now account p ctx z
  | None =>
      z ← ngx_http_limit_req_expire now (rate ctx) 1 z;
      let '(node, z) := alloc_node k z in
      match node with
      | Some p => lookup_new now hash k account 0 p ctx z
      | None =>
          z ← ngx_http_limit_req_expire now (rate ctx) 0 z;
          let '(node, z) := alloc_node k z in
          match node with
          | Some p => lookup_new now hash k account 1 p ctx z
          | None => Some ({| rc := NGX_ERROR; ep := 0; refused := 2 |}, ctx, z)
          end
      end
  end.

(** ** One zone's turn of [ngx_http_limit_req_account] and of [ngx_http_limit_req_unlock] *)

(** The excess of the node, with the request counted; nothing if there is no node. *)
Definition account_zone (now : Z) (ctx : ngx_http_limit_req_ctx_t) (z : zone pool)
    : option (option Z * ngx_http_limit_req_ctx_t * zone pool) :=
  match ctx_node ctx with
  | None => Some (None, ctx, z)
  | Some p =>
      lr ← z_nodes z !! p;
      let ms := elapsed now (last lr) in
      let e := new_excess (rate ctx) (excess lr) ms in
      let lr := if ms =? 0 then lr else lr <| last := now |> in
      let lr := lr <| excess := e |> <| count := u64 (count lr - 1) |> in
      Some (Some e, ctx <| ctx_node := None |>, set_node p lr z)
  end.

Definition unlock_zone (ctx : ngx_http_limit_req_ctx_t) (z : zone pool)
    : option (ngx_http_limit_req_ctx_t * zone pool) :=
  match ctx_node ctx with
  | None => Some (ctx, z)
  | Some p =>
      lr ← z_nodes z !! p;
      Some (ctx <| ctx_node := None |>, set_node p (lr <| count := u64 (count lr - 1) |>) z)
  end.

(** ** [ngx_http_limit_req_init_zone], for a zone that does not exist yet

    [links] and [trees] are what is in the memory of the queues and of the trees. *)
Definition ngx_http_limit_req_init_zone (name_len : nat) (P : pool) : option (option (zone pool)) :=
  let '(p, P) := ngx_slab_alloc_locked 80 P in
  match p with
  | None => Some None
  | Some p =>
      t ← ngx_rbtree_init p {[p := fresh]};
      m ← ngx_queue_init p {[p := fresh_link]};
      let '(log_ctx, P) := ngx_slab_alloc_locked (22 + name_len)%nat P in
      Some (match log_ctx with
            | None => None
            | Some _ => Some {| sh := p; z_rbtree := t; z_queue := m; z_nodes := ∅; shpool := P |}
            end)
  end.
(** ** The workers at one zone

    Each has its own context; a call holds the lock of the zone. *)

Inductive zone_op :=
  | Lookup (w : nat) (limit : ngx_http_limit_req_limit_t) (rate now hash : Z) (k : list Z) (account : bool)
  | Account (w : nat) (rate now : Z)
  | Unlock (w : nat).

Definition ctx_of (w : nat) (rate : Z) (held : gmap nat nat) : ngx_http_limit_req_ctx_t :=
  {| rate := rate; ctx_node := held !! w |}.
Definition keep_ctx (w : nat) (ctx : ngx_http_limit_req_ctx_t) (held : gmap nat nat) : gmap nat nat :=
  partial_alter (fun _ => ctx_node ctx) w held.

Definition zone_step (op : zone_op) (st : zone pool * gmap nat nat) : option (answer * (zone pool * gmap nat nat)) :=
  let '(z, held) := st in
  match op with
  | Lookup w limit rate now hash k account =>
      '(a, ctx, z) ← ngx_http_limit_req_lookup limit now hash k account (ctx_of w rate held) z;
      Some (a, (z, keep_ctx w ctx held))
  | Account w rate now =>
      '(e, ctx, z) ← account_zone now (ctx_of w rate held) z;
      Some ({| rc := NGX_OK; ep := default 0 e; refused := 0 |}, (z, keep_ctx w ctx held))
  | Unlock w =>
      '(ctx, z) ← unlock_zone (ctx_of w 0 held) z;
      Some ({| rc := NGX_OK; ep := 0; refused := 0 |}, (z, keep_ctx w ctx held))
  end.

Fixpoint zone_run (ops : list zone_op) (st : zone pool * gmap nat nat)
    : option (list answer * (zone pool * gmap nat nat)) :=
  match ops with
  | [] => Some ([], st)
  | op :: ops => '(a, st) ← zone_step op st; '(rs, st) ← zone_run ops st; Some (a :: rs, st)
  end.
End Zone.

(** A pool of a few blocks. *)
Record few := { blocks : list nat; taken : gset nat }.
Definition few_alloc (P : few) : option nat * few :=
  match filter (fun p => p ∉ taken P) (blocks P) with
  | [] => (None, P)
  | p :: _ => (Some p, {| blocks := blocks P; taken := {[p]} ∪ taken P |})
  end.

Lemma few_some (n : nat) P p P' : few_alloc P = (Some p, P') -> p ∉ taken P /\ taken P' = {[p]} ∪ taken P.
Proof.
  unfold few_alloc. destruct (filter _ _) as [|q l] eqn:E; [done|]. intros [= -> <-]. split; [|done].
  assert (p ∈ filter (fun p => p ∉ taken P) (blocks P)) as H by (rewrite E; by left).
  by apply list_elem_of_filter in H as [H _].
Qed.

Lemma few_none (n : nat) P P' : few_alloc P = (None, P') -> taken P' = taken P.
Proof. unfold few_alloc. by destruct (filter _ _); intros [= <-]. Qed.

#[export] Instance few_slab : Slab few := {|
  ngx_slab_alloc_locked _ P := few_alloc P;
  ngx_slab_free_locked p P := {| blocks := blocks P; taken := taken P ∖ {[p]} |};
  in_use := taken;
  slab_alloc_some := few_some;
  slab_alloc_none := few_none;
  slab_free p P _ := eq_refl;
|}.

(** ** The order of the keys *)

(** A string of at most [n] bytes as a number, such that a string is below its
    extensions. *)
Fixpoint str_rank (n : Z) (s : list Z) : Z :=
  match s with
  | [] => 0
  | c :: s => (c + 1) * 257 ^ (n - 1) + str_rank (n - 1) s
  end.

Lemma str_rank_bound n s : bytes_ok s -> Z.of_nat (length s) <= n -> 0 <= str_rank n s < 257 ^ n.
Proof.
  revert n. induction s as [|c s IH]; intros n Hs Hn; cbn [str_rank length] in *.
  { split; [done|]. apply Z.pow_pos_nonneg; lia. }
  apply list.Forall_cons in Hs as [Hc Hs]. unfold is_u8 in Hc.
  specialize (IH (n - 1) Hs ltac:(lia)).
  replace (257 ^ n) with (257 * 257 ^ (n - 1)) by (rewrite <- Z.pow_succ_r by lia; f_equal; lia).
  nia.
Qed.

(** Comparing with [ngx_memn2cmp] is comparing these numbers. *)
Lemma ngx_memn2cmp_ok n s1 s2 : bytes_ok s1 -> bytes_ok s2 ->
  Z.of_nat (length s1) <= n -> Z.of_nat (length s2) <= n ->
  exists c, ngx_memn2cmp s1 s2 (length s1) (length s2) = Some c
    /\ (c < 0 <-> str_rank n s1 < str_rank n s2) /\ (c = 0 <-> s1 = s2) /\ (str_rank n s1 = str_rank n s2 -> s1 = s2).
Proof.
  revert n s2. induction s1 as [|c1 s1 IH]; intros n s2 H1 H2 Hn1 Hn2.
  - destruct s2 as [|c2 s2]; [exists 0; cbn; repeat split; lia|].
    pose proof H2 as [Hc2 H2']%list.Forall_cons. unfold is_u8 in Hc2. cbn [length] in Hn2.
    pose proof (str_rank_bound (n - 1) s2 H2' ltac:(lia)). 
    assert (0 < 257 ^ (n - 1)) by (apply Z.pow_pos_nonneg; lia).
    exists (-1). cbn. repeat split; try lia; try done; nia.
  - pose proof H1 as [Hc1 H1']%list.Forall_cons. unfold is_u8 in Hc1. cbn [length] in Hn1.
    pose proof (str_rank_bound (n - 1) s1 H1' ltac:(lia)).
    assert (0 < 257 ^ (n - 1)) by (apply Z.pow_pos_nonneg; lia).
    destruct s2 as [|c2 s2]; [exists 1; cbn; repeat split; try lia; try done; nia|].
    pose proof H2 as [Hc2 H2']%list.Forall_cons. unfold is_u8 in Hc2. cbn [length] in Hn2.
    pose proof (str_rank_bound (n - 1) s2 H2' ltac:(lia)).
    destruct (IH (n - 1) s2 H1' H2' ltac:(lia) ltac:(lia)) as (c & Hc & Hlt & He & Hi).
    unfold ngx_memn2cmp in *. cbn [length str_rank Nat.leb] in *.
    destruct (decide (c1 = c2)) as [->|Hne].
    + exists c. split; [|split; [lia|split; [rewrite He; split; [by intros ->|by intros [= ->]]|]]].
      * destruct (length s1 <=? length s2)%nat; cbn [ngx_memcmp Nat.eqb]; rewrite Z.eqb_refl; exact Hc.
      * intros E. f_equal. apply Hi. lia.
    + exists (c1 - c2). split; [|split; [nia|split; [split; [lia|intros [= -> _]; lia]|intros E; nia]]].
      destruct (length s1 <=? length s2)%nat; cbn [ngx_memcmp]; test_false (c1 =? c2);
        cbn [mbind option_bind]; by test_false (c1 - c2 =? 0).
Qed.

Definition MAX_KEY : Z := 65535.

(** A key that the handler looks up. *)
Definition key_ok (k : list Z) : Prop := bytes_ok k /\ Z.of_nat (length k) <= MAX_KEY.

Definition key_rank (hash : Z) (k : list Z) : Z := hash * 257 ^ MAX_KEY + str_rank MAX_KEY k.

Lemma key_rank_lt h1 k1 h2 k2 : key_ok k1 -> key_ok k2 ->
  key_rank h1 k1 < key_rank h2 k2 <-> h1 < h2 \/ (h1 = h2 /\ str_rank MAX_KEY k1 < str_rank MAX_KEY k2).
Proof.
  intros [B1 L1] [B2 L2]. unfold key_rank.
  pose proof (str_rank_bound _ _ B1 L1). pose proof (str_rank_bound _ _ B2 L2). nia.
Qed.

Lemma key_rank_inj h1 k1 h2 k2 : key_ok k1 -> key_ok k2 -> key_rank h1 k1 = key_rank h2 k2 -> h1 = h2 /\ k1 = k2.
Proof.
  intros [B1 L1] [B2 L2] E. destruct (ngx_memn2cmp_ok MAX_KEY k1 k2 B1 B2 L1 L2) as (_ & _ & _ & _ & Hi).
  unfold key_rank in E. pose proof (str_rank_bound _ _ B1 L1). pose proof (str_rank_bound _ _ B2 L2).
  assert (h1 = h2) by nia. split; [done|]. apply Hi. nia.
Qed.

(** A node with its key. *)
Definition holds_key (nodes : gmap nat ngx_http_limit_req_node_t) (p : nat) (k : list Z) : Prop :=
  exists lr, nodes !! p = Some lr /\ data lr = k /\ Z.to_nat (len lr) = length k /\ key_ok k.

Definition node_rank (nodes : gmap nat ngx_http_limit_req_node_t) (e : nat * Z) : Z :=
  key_rank e.2 (from_option data [] (nodes !! e.1)).

Lemma node_rank_eq nodes p h k : holds_key nodes p k -> node_rank nodes (p, h) = key_rank h k.
Proof. intros (lr & Hp & <- & _). unfold node_rank. cbn. by rewrite Hp. Qed.

Lemma limit_req_rank nodes (a b : nat * Z) :
  (exists k, holds_key nodes a.1 k) -> (exists k, holds_key nodes b.1 k) ->
  limit_req_less nodes a b = (node_rank nodes a <? node_rank nodes b).
Proof.
  destruct a as [p h1], b as [q h2]. cbn [fst]. intros [k1 Hk1] [k2 Hk2].
  rewrite (node_rank_eq _ _ _ _ Hk1), (node_rank_eq _ _ _ _ Hk2).
  destruct Hk1 as (lr1 & Hp & <- & Hl1 & Hk1), Hk2 as (lr2 & Hq & <- & Hl2 & Hk2).
  unfold limit_req_less. cbn [fst snd]. rewrite Hp, Hq. cbn [mbind option_bind].
  rewrite Hl1, Hl2. destruct (ngx_memn2cmp_ok MAX_KEY (data lr1) (data lr2)) as (c & -> & Hlt & _); [apply Hk1|apply Hk2|apply Hk1|apply Hk2|].
  cbn [mbind option_bind default from_option]. pose proof (key_rank_lt h1 _ h2 _ Hk1 Hk2) as Hr.
  destruct (Z.ltb_spec (key_rank h1 (data lr1)) (key_rank h2 (data lr2)));
    destruct (Z.ltb_spec h1 h2); [done| |lia|]; rewrite Z.gtb_ltb; destruct (Z.ltb_spec h2 h1); try done; try lia;
    destruct (Z.ltb_spec c 0); try done; lia.
Qed.

#[export] Instance limit_req_order nodes : KeyOrder (limit_req_less nodes) := {|
  rank := node_rank nodes;
  comparable e := exists k, holds_key nodes e.1 k;
  less_rank := limit_req_rank nodes;
|}.

(** The tree does not depend on what its nodes do not hold. *)
Lemma rb_inv_agree nodes nodes' s t L :
  (forall p, p ∈ L.*1 -> data <$> nodes' !! p = data <$> nodes !! p /\ len <$> nodes' !! p = len <$> nodes !! p) ->
  rb_inv (limit_req_less nodes) s t L -> rb_inv (limit_req_less nodes') s t L.
Proof.
  intros Ha (Hk & Ho & Hc). 
  assert (forall e, e ∈ L -> node_rank nodes' e = node_rank nodes e) as Hr.
  { intros e He. unfold node_rank. f_equal. destruct (Ha e.1) as [Hd _]; [by apply list_elem_of_fmap_2|].
    by destruct (nodes !! e.1), (nodes' !! e.1); simplify_eq/=. }
  split; [done|]. split.
  - clear Hk Hc Ha. unfold ordered in *. induction L as [|e L IH]; [constructor|].
    apply StronglySorted_cons in Ho as [He Ho]. apply StronglySorted_cons. split.
    + rewrite list.Forall_forall in He |- *. intros e' He'. cbn in *. rewrite !Hr by (try (by left); by right). by apply He.
    + apply IH; [done|]. intros e' He'. apply Hr. by right.
  - unfold all_comparable in *. rewrite list.Forall_forall in Hc |- *. intros e He. destruct (Hc e He) as (k & lr & Hp & Hd & Hl & Hk').
    destruct (Ha e.1) as [Hd' Hl']; [by apply list_elem_of_fmap_2|]. rewrite Hp in Hd', Hl'.
    destruct (nodes' !! e.1) as [lr'|] eqn:Hp'; simplify_eq/=. exists (data lr), lr'. split_and!; [done|congruence..|done].
Qed.

(** ** The search *)

Section Search.
Context {pool : Type} `{!Slab pool}.

(** What a search below [t] must find. *)
Definition searched (z : zone pool) (hash : Z) (k : list Z) (t : Rbtree.rbtree) (o : option nat) : Prop :=
  match o with
  | Some p => exists h, (p, h) ∈ elems t /\ node_rank (z_nodes z) (p, h) = key_rank hash k
  | None => forall e, e ∈ elems t -> node_rank (z_nodes z) e <> key_rank hash k
  end.

(** The other half of the tree need not be searched. *)
Lemma searched_half z hash k d red x p h y o :
  searched z hash k x o -> node_rank (z_nodes z) (p, h) <> key_rank hash k ->
  Forall (fun e => node_rank (z_nodes z) e <> key_rank hash k) (elems y) ->
  searched z hash k (node d red x p h y) o.
Proof.
  intros Hx Hp Hy. rewrite list.Forall_forall in Hy.
  assert (forall e, e ∈ elems (node d red x p h y) <-> e ∈ elems x \/ e = (p, h) \/ e ∈ elems y) as He.
  { intros e. destruct d; cbn [node elems]; rewrite elem_of_app, elem_of_cons; tauto. }
  destruct o as [q|]; cbn [searched] in *.
  - destruct Hx as (h' & Hin & Hr). exists h'. split; [apply He; by left|done].
  - intros e [H|[->|H]]%He; [by apply Hx|done|by apply Hy].
Qed.

Lemma search_loop_ok (z : zone pool) par sn hash k fuel : key_ok k -> forall C t,
  rep (sh z) par sn (z_rbtree z) (plug C t) -> ordered (limit_req_less (z_nodes z)) (elems (plug C t)) ->
  all_comparable (limit_req_less (z_nodes z)) (elems (plug C t)) -> (height t < fuel)%nat ->
  exists o, search_loop fuel (ptr (sh z) t) hash k z = Some o /\ searched z hash k t o.
Proof.
  intros Hk. induction fuel as [|fuel IH]; intros C t H Ho Hc Hh; [lia|]. cbn [search_loop].
  rewrite (rep_sentinel _ _ _ _ _ H), (rep_is_E _ _ _ _ _ _ H).
  destruct t as [|red l p h r]; cbn [is_E].
  { exists None. split; [done|]. intros e He. by apply not_elem_of_nil in He. }
  change (N red l p h r) with (node false red l p h r) in H.
  pose proof (rep_cell _ _ _ _ _ _ _ _ _ _ _ H) as Hp. cbn [ptr].
  erewrite !get_eq by exact Hp. cbn [mbind option_bind].
  change (key (cell red false h _ _ _)) with h. change (left (cell red false h _ _ _)) with (ptr (sh z) l).
  change (right (cell red false h _ _ _)) with (ptr (sh z) r).
  pose proof Ho as Ho'. pose proof Hc as Hc'. rewrite elems_plug in Ho', Hc'. cbn [elems] in Ho', Hc'.
  apply (ordered_mid (limit_req_less (z_nodes z))) in Ho' as [Hl Hr].
  assert (exists k', holds_key (z_nodes z) p k') as (k' & Hk').
  { unfold all_comparable in Hc'. rewrite !list.Forall_app, list.Forall_cons in Hc'. apply Hc'. }
  pose proof (node_rank_eq _ _ h _ Hk') as Hrank. cbn [height] in Hh.
  assert (key_rank hash k < key_rank h k' -> exists o, search_loop fuel (ptr (sh z) l) hash k z = Some o
    /\ searched z hash k (N red l p h r) o) as Left.
  { intros Hlt. destruct (IH (fr false red p h r :: C) l H Ho Hc ltac:(lia)) as (o & Hs & Hspec).
    exists o. split; [exact Hs|]. apply (searched_half z hash k false red l p h r); [done|lia|].
    eapply Forall_impl; [|exact Hr]. cbn. lia. }
  assert (key_rank h k' < key_rank hash k -> exists o, search_loop fuel (ptr (sh z) r) hash k z = Some o
    /\ searched z hash k (N red l p h r) o) as Right.
  { intros Hlt. destruct (IH (fr true red p h l :: C) r H Ho Hc ltac:(lia)) as (o & Hs & Hspec).
    exists o. split; [exact Hs|]. apply (searched_half z hash k true red r p h l); [done|lia|].
    eapply Forall_impl; [|exact Hl]. cbn. lia. }
  destruct Hk' as (lr & Hlr & Hd & Hln & Hkk). rewrite (key_rank_lt _ _ _ _ Hk Hkk) in Left.
  rewrite (key_rank_lt _ _ _ _ Hkk Hk) in Right. rewrite Hlr. cbn [mbind option_bind].
  destruct (Z.ltb_spec hash h) as [Hlt|Hge]; [apply Left; by left|]. rewrite Z.gtb_ltb.
  destruct (Z.ltb_spec h hash) as [Hlt|Hge']; [apply Right; by left|]. assert (hash = h) as -> by lia.
  rewrite Hd, Hln. destruct Hk as [Hb1 Hl1], Hkk as [Hb2 Hl2].
  destruct (ngx_memn2cmp_ok MAX_KEY k k' Hb1 Hb2 Hl1 Hl2) as (c & -> & Hclt & Hceq & Hinj).
  cbn [mbind option_bind]. destruct (Z.eqb_spec c 0) as [->|Hc0].
  - exists (Some p). split; [done|]. exists h. cbn [elems]. rewrite elem_of_app. split; [right; by left|].
    rewrite Hrank. f_equal. symmetry. by apply Hceq.
  - destruct (Z.ltb_spec c 0) as [Hcn|Hcp]; cbn [mbind option_bind].
    + apply Left. right. split; [done|]. by apply Hclt.
    + apply Right. right. split; [done|].
      destruct (decide (str_rank MAX_KEY k = str_rank MAX_KEY k')) as [E|E]; [|lia].
      exfalso. apply Hc0, Hceq, Hinj, E.
Qed.
End Search.

(** ** The specification: a list of buckets, the last used first *)

(** A key with its hash. *)
Abbreviation ident := (Z * list Z)%type.

Record bucket := { b_last : Z; b_excess : Z; b_count : Z }.
#[export] Instance eta_bucket : Eta bucket := mk_eta (fun b => Build_bucket (b_last b) (b_excess b) (b_count b)).

Abbreviation lru := (list (ident * bucket)).

Fixpoint bucket_of (i : ident) (l : lru) : option bucket :=
  match l with
  | [] => None
  | e :: l => if decide (e.1 = i) then Some e.2 else bucket_of i l
  end.

Definition without_id (i : ident) : lru -> lru := filter (fun e => e.1 <> i).
Definition set_bucket (i : ident) (b : bucket) : lru -> lru := fmap (fun e => if decide (e.1 = i) then (i, b) else e).

(** The buckets from the other end, until one must stay; a count keeps a bucket. *)
Fixpoint lru_expire (turns : nat) (forced : bool) (now rate : Z) (l : lru) : lru :=
  match turns with
  | O => l
  | S turns =>
      match rev l with
      | [] => l
      | e :: l' =>
          if negb (b_count e.2 =? 0) then l
          else if negb forced && must_stay now rate (b_last e.2) (b_excess e.2) then l
          else lru_expire turns false now rate (rev l')
      end
  end.

Definition charge (now e : Z) (b : bucket) : bucket :=
  let b := b <| b_excess := e |> in
  if elapsed now (b_last b) =? 0 then b else b <| b_last := now |>.

(** The answer, the buckets, and whether the request is counted at its bucket. *)
Definition lru_lookup (limit : ngx_http_limit_req_limit_t) (rate now : Z) (i : ident) (account : bool)
    (refused : nat) (l : lru) : answer * lru * bool :=
  match bucket_of i l with
  | Some b =>
      let e := new_excess rate (b_excess b) (elapsed now (b_last b)) in
      if e >? burst limit then
        ({| rc := NGX_BUSY; ep := e; refused := 0 |}, (i, b) :: without_id i l, false)
      else if account then
        ({| rc := NGX_OK; ep := e; refused := 0 |}, (i, charge now e b) :: without_id i l, false)
      else
        ({| rc := NGX_AGAIN; ep := e; refused := 0 |},
         (i, b <| b_count := b_count b + 1 |>) :: without_id i l, true)
  | None =>
      let l := lru_expire 2 false now rate l in
      let l := if (1 <=? refused)%nat then lru_expire 3 true now rate l else l in
      if (2 <=? refused)%nat then ({| rc := NGX_ERROR; ep := 0; refused := refused |}, l, false)
      else if account then
        ({| rc := NGX_OK; ep := 0; refused := refused |}, (i, {| b_last := now; b_excess := 0; b_count := 0 |}) :: l, false)
      else
        ({| rc := NGX_AGAIN; ep := 0; refused := refused |}, (i, {| b_last := 0; b_excess := 0; b_count := 1 |}) :: l, true)
  end.

Definition discharge (rate now : Z) (b : bucket) : Z * bucket :=
  let e := new_excess rate (b_excess b) (elapsed now (b_last b)) in
  (e, charge now e b <| b_count := b_count b - 1 |>).

(** ** The representation *)

Abbreviation cell := (nat * (ident * bucket))%type.

Definition node_of (e : ident * bucket) : ngx_http_limit_req_node_t :=
  {| len := Z.of_nat (length e.1.2); last := b_last e.2; excess := b_excess e.2; count := b_count e.2;
     data := e.1.2 |}.
Definition tree_key (c : cell) : nat * Z := (c.1, c.2.1.1).

Section Zone_proofs.
Context {pool : Type} `{!Slab pool}.
Variable NGX_DEBUG : bool.
Variable fresh : ngx_rbtree_node_t.
Variable fresh_link : ngx_queue_t.

(** The nodes, the tree and the blocks of the zone hold the cells [E], in any order. *)
Record zcore (z : zone pool) (E : list cell) : Prop := {
  zc_nodes : forall p e, (p, e) ∈ E -> z_nodes z !! p = Some (node_of e);
  zc_tree : exists L, rb_inv (limit_req_less (z_nodes z)) (sh z) (z_rbtree z) L /\ L ≡ₚ tree_key <$> E;
  zc_ids : NoDup (E.*2).*1;
  zc_keys : forall e, e ∈ E.*2 -> key_ok e.1.2;
  zc_used : forall p, p ∈ sh z :: E.*1 -> p ∈ in_use (shpool z);
}.

(** And the queue holds them in this order. *)
Definition zrep (z : zone pool) (E : list cell) : Prop :=
  zcore z E /\ queue (z_queue z) (sh z) E.*1.

#[global] Instance zcore_perm z : Proper ((≡ₚ) ==> iff) (zcore z).
Proof.
  assert (forall E E', E ≡ₚ E' -> zcore z E -> zcore z E') as Hp.
  { intros E E' HE [Hn (L & Ht & HL) Hi Hk Hu]. split.
    - intros p e. rewrite <- HE. apply Hn.
    - exists L. split; [done|]. by rewrite <- HE.
    - by rewrite <- HE.
    - intros e. rewrite <- HE. apply Hk.
    - intros p. rewrite <- HE. apply Hu. }
  intros E E' HE. split; apply Hp; [done|by symmetry].
Qed.

Lemma zcore_queue z E m : zcore z E -> zcore (z <| z_queue := m |>) E.
Proof. intros []. by split. Qed.

Lemma tree_key_ptrs (E : list cell) : (tree_key <$> E).*1 = E.*1.
Proof. induction E as [|c E IH]; [done|]. cbn. by rewrite IH. Qed.

Lemma zcore_nodup z E : zcore z E -> NoDup E.*1.
Proof.
  intros [_ (L & (Hk & _) & HL) _ _ _]. rewrite <- tree_key_ptrs, <- HL. by eapply keeps_nodup.
Qed.

(** *** The search *)
Lemma zone_search_ok z E hash k : zcore z E -> key_ok k ->
  exists o, search_loop (S (size (nodes (z_rbtree z)))) (root (z_rbtree z)) hash k z = Some o
    /\ match o with
       | Some p => exists b, (p, ((hash, k), b)) ∈ E
       | None => (hash, k) ∉ (E.*2).*1
       end.
Proof.
  intros [Hn (L & ((par & sn & t & m & H & Hrb & <-) & Ho & Hc) & HL) Hi Hks Hu] Hk.
  pose proof (rep_size _ _ _ _ _ H). pose proof (height_elems t).
  destruct (search_loop_ok z par sn hash k (S (size (nodes (z_rbtree z)))) Hk [] t H Ho Hc ltac:(lia)) as (o & Hs & Hspec).
  rewrite (rep_root _ _ _ _ _ H). cbn [plug]. exists o. split; [exact Hs|].
  assert (forall p i b, (p, (i, b)) ∈ E -> node_rank (z_nodes z) (p, i.1) = key_rank i.1 i.2) as Hrank.
  { intros p i b He. unfold node_rank. cbn [fst snd]. by rewrite (Hn _ _ He). }
  destruct o as [p|].
  - destruct Hspec as (h & Hin & Hr). rewrite HL in Hin. apply list_elem_of_fmap in Hin as ([q [i b]] & Heq & Hin).
    injection Heq as -> ->. cbn [fst snd] in Hr. rewrite (Hrank _ _ _ Hin) in Hr.
    destruct (key_rank_inj i.1 i.2 hash k) as [<- <-]; [|done..|].
    + apply (Hks (i, b)). apply list_elem_of_fmap. by exists (q, (i, b)).
    + exists b. by destruct i.
  - intros Hin. apply list_elem_of_fmap in Hin as ([i b] & Heq & Hin). apply list_elem_of_fmap in Hin as ([q e] & He & Hin).
    cbn in Heq, He. subst e. subst i. apply (Hspec (q, hash)).
    + rewrite HL. apply list_elem_of_fmap. by exists (q, ((hash, k), b)).
    + by apply (Hrank _ _ _ Hin).
Qed.

(** *** The three changes of a zone *)

Lemma zcore_set z E p i b b' : zcore z ((p, (i, b)) :: E) ->
  zcore (set_node p (node_of (i, b')) z) ((p, (i, b')) :: E).
Proof.
  intros H. pose proof (zcore_nodup _ _ H) as Hnd. cbn in Hnd. apply list.NoDup_cons in Hnd as [Hp _].
  destruct H as [Hn (L & Ht & HL) Hi Hk Hu]. split; cbn [set_node field_set z_nodes z_rbtree sh shpool].
  - intros q e [[= -> ->]|Hin]%elem_of_cons; [by rewrite lookup_insert_eq|].
    rewrite lookup_insert_ne; [apply Hn; by right|]. intros ->. apply Hp. apply list_elem_of_fmap. by exists (q, e).
  - exists L. split; [|done]. eapply rb_inv_agree; [|exact Ht]. intros q _.
    destruct (decide (p = q)) as [<-|Hne]; [|by rewrite lookup_insert_ne].
    rewrite lookup_insert_eq, (Hn p (i, b)) by by left. done.
  - done.
  - cbn. intros e [->|Hin]%elem_of_cons; [apply (Hk (i, b)); by left|apply Hk; by right].
  - exact Hu.
Qed.

Lemma zcore_free z E p e : zcore z ((p, e) :: E) -> p <> sh z ->
  exists t, ngx_rbtree_delete p (z_rbtree z) = Some t /\ zcore (free_node p (z <| z_rbtree := t |>)) E.
Proof.
  intros H Hps. pose proof (zcore_nodup _ _ H) as Hnd. cbn in Hnd. apply list.NoDup_cons in Hnd as [Hp Hnd].
  destruct H as [Hn (L & (Hkp & Ho & Hc) & HL) Hi Hk Hu].
  assert (p ∈ L.*1) as HpL by (rewrite HL; by left).
  destruct (ngx_rbtree_delete_ok _ _ _ _ Hkp HpL) as (t & Ht & Hkt). exists t. split; [done|].
  destruct (remove_inv (limit_req_less (z_nodes z)) p L Ho Hc) as [Ho' Hc'].
  assert (Rbtree.remove p L ≡ₚ tree_key <$> E) as HL'.
  { unfold Rbtree.remove. rewrite HL. change (tree_key <$> (p, e) :: E) with ((p, e.1.1) :: (tree_key <$> E)).
    rewrite filter_cons_False by (cbn; by intros H).
    rewrite filter_all; [done|]. intros x Hx <-. apply Hp. rewrite <- tree_key_ptrs. by apply list_elem_of_fmap_2. }
  assert (p ∉ (Rbtree.remove p L).*1) as HpL' by (rewrite HL'; by rewrite tree_key_ptrs).
  split; cbn [free_node field_set z_nodes z_rbtree sh shpool].
  - intros q e' Hin. rewrite lookup_delete_ne; [apply Hn; by right|]. intros ->. apply Hp.
    apply list_elem_of_fmap. by exists (q, e').
  - exists (Rbtree.remove p L). split; [|done].
    assert (rb_inv (limit_req_less (z_nodes z)) (sh z) (t <| nodes := delete p (nodes t) |>) (Rbtree.remove p L)) as Hinv.
    { split; [by apply keeps_free|done]. }
    eapply rb_inv_agree; [|exact Hinv]. intros q Hq. rewrite lookup_delete_ne; [done|]. by intros ->.
  - cbn in Hi. by apply list.NoDup_cons in Hi as [_ Hi].
  - intros e' He. apply Hk. by right.
  - intros q Hq. rewrite slab_free by (apply Hu; by right; left). apply elem_of_difference. split.
    + apply Hu. apply elem_of_cons in Hq as [->|Hq]; [by left|by right; right].
    + intros ->%elem_of_singleton. by apply elem_of_cons in Hq as [Hq|Hq].
Qed.

Lemma zcore_insert z E p i b P' size :
  zcore z E -> ngx_slab_alloc_locked size (shpool z) = (Some p, P') -> key_ok i.2 -> i ∉ (E.*2).*1 ->
  let z1 := set_node p (node_of (i, b)) (z <| shpool := P' |>) in
  let t1 := (z_rbtree z) <| nodes := <[p := fresh <| key := i.1 |>]> (nodes (z_rbtree z)) |> in
  p ∉ sh z :: E.*1 /\
  exists t, ngx_rbtree_insert (limit_req_less (z_nodes z1)) p t1 = Some t
    /\ zcore (z1 <| z_rbtree := t |>) ((p, (i, b)) :: E).
Proof.
  intros [Hn (L & (Hkp & Ho & Hc) & HL) Hi Hk Hu] Ha Hik Hie z1 t1.
  destruct (slab_alloc_some _ _ _ _ Ha) as [Hp HP].
  assert (p ∉ sh z :: E.*1) as Hpf by (intros Hin; by apply Hp, Hu). split; [done|].
  pose proof Hpf as [Hps HpE]%not_elem_of_cons.
  assert (p ∉ L.*1) as HpL by (rewrite HL; by rewrite tree_key_ptrs).
  assert (rb_inv (limit_req_less (z_nodes z1)) (sh z) t1 L) as (Hk1 & Ho1 & Hc1).
  { apply (rb_inv_agree (z_nodes z)).
    - intros q Hq. cbn. rewrite lookup_insert_ne; [done|]. by intros ->.
    - split; [by apply keeps_write|done]. }
  assert (z_nodes z1 !! p = Some (node_of (i, b))) as Hlp by apply lookup_insert_eq.
  assert (holds_key (z_nodes z1) p i.2) as Hhk.
  { exists (node_of (i, b)). split; [done|]. cbn. split_and!; [done|lia|done]. }
  destruct (ngx_rbtree_insert_ok (sh z) (limit_req_less (z_nodes z1)) t1 L p (fresh <| key := i.1 |>) Hk1)
    as (t & Ht & Hkt & Hot); [by apply lookup_insert_eq|done|done|by exists i.2|done|done|].
  exists t. split; [exact Ht|]. split; cbn [field_set z_nodes z_rbtree sh shpool].
  - intros q e [[= -> ->]|Hin]%elem_of_cons; [done|]. unfold z1. cbn. rewrite lookup_insert_ne; [by apply Hn|].
    intros ->. apply HpE. apply list_elem_of_fmap. by exists (q, e).
  - eexists. split; [split; [exact Hkt|split; [exact Hot|]]|].
    + apply list.Forall_forall. intros x [->|Hx]%insert_sorted_elem; [by exists i.2|].
      unfold all_comparable in Hc1. rewrite list.Forall_forall in Hc1. by apply Hc1.
    + rewrite insert_sorted_perm, HL. done.
  - cbn. apply list.NoDup_cons. done.
  - cbn. intros e [->|Hin]%elem_of_cons; [done|by apply Hk].
  - cbn. intros q Hq. rewrite HP. apply elem_of_union.
    apply elem_of_cons in Hq as [->|[->|Hq]%elem_of_cons]; [right|left; by apply elem_of_singleton|right]; apply Hu; [by left|by right].
Qed.

(** *** Expiry *)

(** [E'] is [E] without some cells at its end that nobody counts on. *)
Definition expired (E E' : list cell) : Prop := exists D, E = E' ++ D /\ Forall (fun c => b_count c.2.2 = 0) D.

Lemma expired_refl E : expired E E.
Proof. exists []. by rewrite app_nil_r. Qed.

Lemma expired_trans E1 E2 E3 : expired E1 E2 -> expired E2 E3 -> expired E1 E3.
Proof.
  intros (D & -> & HD) (D' & -> & HD'). exists (D' ++ D). rewrite (assoc_L app). split; [done|]. by apply list.Forall_app.
Qed.

Lemma last_fmap_snoc (E : list cell) c (h : nat) : List.last (E ++ [c]).*1 h = c.1.
Proof. rewrite fmap_app. cbn. apply List.last_last. Qed.

(** Deleting the last node. *)
Lemma delete_last z E p e : zrep z (E ++ [(p, e)]) ->
  exists m t, ngx_queue_remove NGX_DEBUG p (z_queue z) = Some m /\ ngx_rbtree_delete p (z_rbtree z) = Some t
    /\ zrep (free_node p (z <| z_queue := m |> <| z_rbtree := t |>)) E.
Proof.
  intros [Hc Hq]. rewrite fmap_app in Hq. cbn in Hq. pose proof Hq as [Hnd _].
  apply (list.NoDup_app (sh z :: E.*1) [p]) in Hnd as (_ & Hd & _).
  assert (p ∉ sh z :: E.*1) as Hp by (intros Hin; apply (Hd _ Hin); by left).
  destruct (ngx_queue_remove_ok NGX_DEBUG _ _ _ _ _ Hq) as (m & Hm & Hqm & _). rewrite app_nil_r in Hqm.
  assert (zcore z ((p, e) :: E)) as Hc' by by rewrite Permutation_cons_append.
  destruct (zcore_free z E p e Hc') as (t & Ht & Hct); [intros ->; apply Hp; by left|].
  exists m, t. split; [done|]. split; [done|]. split.
  - destruct Hct. by split.
  - cbn. by apply queue_free.
Qed.

Lemma zrep_node z E p e : zrep z E -> (p, e) ∈ E -> z_nodes z !! p = Some (node_of e).
Proof. intros [[Hn _ _ _ _] _]. apply Hn. Qed.

Lemma expire_loop_ok now rate fuel : forall n z E, zrep z E -> (3 <= n + fuel)%nat ->
  exists z' E', expire_loop NGX_DEBUG fuel now rate n z = Some z' /\ zrep z' E' /\ sh z' = sh z
    /\ E'.*2 = lru_expire (3 - n) (n =? 0)%nat now rate E.*2 /\ expired E E'.
Proof.
  induction fuel as [|fuel IH]; intros n z E H Hn; cbn [expire_loop]; destruct (Nat.leb_spec 3 n) as [Hn3|Hn3]; try lia;
    try (exists z, E; split; [done|]; split; [done|]; split; [done|]; replace (3 - n)%nat with 0%nat by lia;
      split; [done|apply expired_refl]).
  rewrite (ngx_queue_empty_ok _ _ E.*1) by apply H. cbn [mbind option_bind].
  replace (3 - n)%nat with (S (3 - S n)) by lia. cbn [lru_expire].
  destruct E as [|[p e] E _] using rev_ind.
  { exists z, []. split; [done|]. split; [done|]. split; [done|]. split; [done|apply expired_refl]. }
  assert (exists z' E', Some z = Some z' /\ zrep z' E' /\ sh z' = sh z
    /\ E'.*2 = (E ++ [(p, e)]).*2 /\ expired (E ++ [(p, e)]) E') as Hstay
    by (exists z, (E ++ [(p, e)]); do 4 (split; [done|]); apply expired_refl).
  rewrite bool_decide_false by (intros Hnil; apply fmap_nil_inv in Hnil; by destruct E).
  unfold ngx_queue_last. rewrite (proj2 (queue_ends _ _ _ (proj2 H))), last_fmap_snoc. cbn [mbind option_bind fst].
  rewrite (zrep_node _ _ p e H) by (apply elem_of_app; right; by left). cbn [mbind option_bind].
  replace (rev (E ++ [(p, e)]).*2) with (e :: rev E.*2) by (rewrite fmap_app; cbn; by rewrite rev_app_distr).
  change (count (node_of e)) with (b_count e.2). change (last (node_of e)) with (b_last e.2).
  change (excess (node_of e)) with (b_excess e.2).
  destruct (Z.eqb_spec (b_count e.2) 0) as [Hc0|Hc0]; cbn [negb]; [|exact Hstay].
  destruct (negb (n =? 0)%nat && must_stay now rate (b_last e.2) (b_excess e.2)); [exact Hstay|].
  destruct (delete_last _ _ _ _ H) as (m & t & -> & -> & H'). cbn [mbind option_bind].
  destruct (IH (S n) _ _ H' ltac:(lia)) as (z' & E' & Hl & Hz & Hsh & HE & Hexp).
  exists z', E'. split; [exact Hl|]. split; [done|]. split; [by rewrite Hsh|]. split.
  - rewrite HE. f_equal. by rewrite rev_involutive.
  - eapply expired_trans; [|exact Hexp]. exists [(p, e)]. split; [done|]. by constructor.
Qed.

Lemma zone_expire_ok now rate n z E : zrep z E -> (n <= 1)%nat ->
  exists z' E', ngx_http_limit_req_expire NGX_DEBUG now rate n z = Some z' /\ zrep z' E' /\ sh z' = sh z
    /\ E'.*2 = lru_expire (3 - n) (n =? 0)%nat now rate E.*2 /\ expired E E'.
Proof. intros H Hn. apply expire_loop_ok; [done|lia]. Qed.

(** *** The lookup *)

Lemma bucket_of_none i (l : lru) : i ∉ l.*1 -> bucket_of i l = None.
Proof.
  induction l as [|[j b] l IH]; [done|]. cbn. intros [Hj Hl]%not_elem_of_cons.
  by rewrite decide_False, IH by done.
Qed.

Lemma bucket_of_at i b (l1 l2 : lru) : i ∉ l1.*1 -> bucket_of i (l1 ++ (i, b) :: l2) = Some b.
Proof.
  induction l1 as [|[j c] l1 IH]; cbn; [by rewrite decide_True|]. intros [Hj Hl]%not_elem_of_cons.
  by rewrite decide_False, IH by done.
Qed.

Lemma without_id_at i b (l1 l2 : lru) : NoDup (l1 ++ (i, b) :: l2).*1 -> without_id i (l1 ++ (i, b) :: l2) = l1 ++ l2.
Proof.
  rewrite fmap_app. intros (_ & Hd & [Hi2 _]%list.NoDup_cons)%list.NoDup_app. unfold without_id.
  rewrite list.filter_app, filter_cons_False by (cbn; tauto). f_equal; apply filter_all; intros e He <-.
  - apply (Hd e.1); [by apply list_elem_of_fmap_2|by left].
  - apply Hi2. by apply (list_elem_of_fmap_2 fst l2 e).
Qed.

Lemma without_not_in j (l : lru) : j ∉ (without_id j l).*1.
Proof. intros (e & -> & Hin)%list_elem_of_fmap. apply list_elem_of_filter in Hin as [Hne _]. done. Qed.

Lemma set_bucket_at i b b' (l1 l2 : lru) : NoDup (l1 ++ (i, b) :: l2).*1 ->
  set_bucket i b' (l1 ++ (i, b) :: l2) = l1 ++ (i, b') :: l2.
Proof.
  rewrite fmap_app. intros (_ & Hd & [Hi2 _]%list.NoDup_cons)%list.NoDup_app.
  assert (forall l : lru, i ∉ l.*1 -> set_bucket i b' l = l) as Hid.
  { induction l as [|e l IH]; [done|]. cbn. intros [Hj Hl]%not_elem_of_cons. rewrite IH, decide_False by done. done. }
  assert (i ∉ l1.*1) as Hi1 by (intros Hin; apply (Hd i Hin); by left).
  unfold set_bucket in *. rewrite fmap_app. cbn. by rewrite decide_True, !Hid.
Qed.

Lemma zcore_lru z E E1 p i b E2 : zcore z E -> E = E1 ++ (p, (i, b)) :: E2 ->
  NoDup (E1.*2 ++ (i, b) :: E2.*2).*1 /\ E.*2 = E1.*2 ++ (i, b) :: E2.*2 /\ i ∉ (E1.*2).*1.
Proof.
  intros [_ _ Hi _ _] ->. rewrite !fmap_app in Hi. cbn in Hi. rewrite !fmap_app. cbn. split; [done|]. split; [done|].
  apply list.NoDup_app in Hi as (_ & Hd & _). intros Hin. apply (Hd _ Hin). by left.
Qed.

(** A node is bumped to the head of the queue. *)
Lemma bump_ok z E1 p e E2 : zrep z (E1 ++ (p, e) :: E2) ->
  exists m1 m2, ngx_queue_remove NGX_DEBUG p (z_queue z) = Some m1 /\ ngx_queue_insert_head (sh z) p m1 = Some m2
    /\ zrep (z <| z_queue := m2 |>) ((p, e) :: E1 ++ E2).
Proof.
  intros [Hc Hq]. rewrite fmap_app in Hq. cbn in Hq.
  pose proof (queue_node _ _ _ p Hq) as Hp. pose proof Hq as [Hnd _].
  destruct (ngx_queue_remove_ok NGX_DEBUG _ _ _ _ _ Hq) as (m1 & Hm1 & Hq1 & Hd1 & _).
  assert (p ∉ sh z :: E1.*1 ++ E2.*1) as Hpn.
  { clear -Hnd. apply list.NoDup_cons in Hnd as [Hs Hnd]. rewrite elem_of_app, elem_of_cons in Hs.
    apply list.NoDup_app in Hnd as (_ & Hd & [Hp _]%list.NoDup_cons).
    rewrite elem_of_cons, elem_of_app. intros [->|[H|H]]; [tauto| |done]. apply (Hd _ H). by left. }
  destruct (ngx_queue_insert_head_ok m1 (sh z) _ p Hq1) as (m2 & Hm2 & Hq2 & _).
  { apply elem_of_dom. rewrite Hd1. apply elem_of_dom, Hp. right. rewrite elem_of_app, elem_of_cons. tauto. }
  { done. }
  exists m1, m2. split; [done|]. split; [done|]. split.
  - apply zcore_queue. by rewrite Permutation_middle.
  - cbn. by rewrite fmap_app.
Qed.

Lemma zrep_set z E p i b b' : zrep z ((p, (i, b)) :: E) -> zrep (set_node p (node_of (i, b')) z) ((p, (i, b')) :: E).
Proof. intros [Hc Hq]. split; [by eapply zcore_set|exact Hq]. Qed.

(** No count is about to overflow. *)
Definition counts_ok (l : lru) : Prop := Forall (fun e => 0 <= b_count e.2 < 2 ^ 64 - 1) l.

(** Where the nodes that someone counts on stay. *)
Definition stays (E E' : list cell) : Prop :=
  forall p i b, (p, (i, b)) ∈ E -> b_count b <> 0 -> exists b', (p, (i, b')) ∈ E'.

Lemma node_of_charge now i b e :
  node_of (i, charge now e b)
  = (if elapsed now (b_last b) =? 0 then (node_of (i, b)) <| excess := e |> else (node_of (i, b)) <| excess := e |> <| last := now |>).
Proof. unfold charge. cbn. by destruct (elapsed now (b_last b) =? 0). Qed.

Lemma lookup_found_ok z E limit now account p i b ctx : zrep z E -> (p, (i, b)) ∈ E -> counts_ok E.*2 ->
  exists a ctx' z' E' (h : bool), lookup_found NGX_DEBUG limit now account p ctx z = Some (a, ctx', z')
    /\ zrep z' E' /\ sh z' = sh z /\ lru_lookup limit (rate ctx) now i account (refused a) E.*2 = (a, E'.*2, h)
    /\ ctx' = (if h then ctx <| ctx_node := Some p |> else ctx) /\ (exists b', (p, (i, b')) ∈ E') /\ stays E E'.
Proof.
  intros H Hin Hcnt. apply list_elem_of_split in Hin as (E1 & E2 & ->).
  destruct (zcore_lru z _ E1 p i b E2 (proj1 H) eq_refl) as (Hnd & HE & Hi1).
  assert (0 <= b_count b < 2 ^ 64 - 1) as Hb.
  { unfold counts_ok in Hcnt. rewrite HE, list.Forall_app, list.Forall_cons in Hcnt. apply Hcnt. }
  unfold lookup_found. destruct (bump_ok _ _ _ _ _ H) as (m1 & m2 & -> & Hm2 & H2). cbn [mbind option_bind].
  rewrite Hm2. cbn [mbind option_bind].
  change (z_nodes (z <| z_queue := m2 |>)) with (z_nodes z).
  rewrite (zrep_node z _ p (i, b) H) by (apply elem_of_app; right; by left). cbn [mbind option_bind].
  unfold lru_lookup. rewrite HE, bucket_of_at, without_id_at, <- fmap_app by done.
  change (last (node_of (i, b))) with (b_last b). change (excess (node_of (i, b))) with (b_excess b).
  set (e := new_excess (rate ctx) (b_excess b) (elapsed now (b_last b))).
  assert (forall b', stays (E1 ++ (p, (i, b)) :: E2) ((p, (i, b')) :: E1 ++ E2)) as Hst.
  { intros b' q j c Hq _. apply elem_of_app in Hq as [Hq|[[= -> -> ->]|Hq]%elem_of_cons].
    - exists c. right. apply elem_of_app. by left.
    - exists b'. by left.
    - exists c. right. apply elem_of_app. by right. }
  destruct (e >? burst limit); [|destruct account]; (do 5 eexists; split; [reflexivity|]); cbn [refused].
  - split; [exact H2|]. do 3 (split; [done|]). split; [exists b; by left|apply Hst].
  - rewrite <- node_of_charge. split; [eapply zrep_set, H2|]. do 3 (split; [done|]).
    split; [eexists; by left|apply Hst].
  - assert ((node_of (i, b)) <| count := u64 (count (node_of (i, b)) + 1) |>
      = node_of (i, b <| b_count := b_count b + 1 |>)) as ->.
    { unfold node_of. cbn. rewrite u64_small by lia. done. }
    split; [eapply zrep_set, H2|]. do 3 (split; [done|]).
    split; [eexists; by left|apply Hst].
Qed.

Lemma zrep_refused z E size P' : zrep z E -> ngx_slab_alloc_locked size (shpool z) = (None, P') ->
  zrep (z <| shpool := P' |>) E.
Proof.
  intros [[Hn Ht Hi Hk Hu] Hq] Ha. split; [|done]. split; try done. cbn. by rewrite (slab_alloc_none _ _ _ Ha).
Qed.

Definition new_bucket (now : Z) (account : bool) : bucket :=
  {| b_last := if account then now else 0; b_excess := 0; b_count := if account then 0 else 1 |}.

Lemma lookup_new_ok z E now hash k (account : bool) n p ctx P' size :
  zrep z E -> ngx_slab_alloc_locked size (shpool z) = (Some p, P') -> key_ok k -> (hash, k) ∉ (E.*2).*1 ->
  exists z', lookup_new fresh fresh_link now hash k account n p ctx (z <| shpool := P' |>)
      = Some ({| rc := if account then NGX_OK else NGX_AGAIN; ep := 0; refused := n |},
              if account then ctx else ctx <| ctx_node := Some p |>, z')
    /\ zrep z' ((p, ((hash, k), new_bucket now account)) :: E) /\ sh z' = sh z.
Proof.
  intros [Hc Hq] Ha Hk Hi.
  destruct (zcore_insert z E p (hash, k) (new_bucket now account) P' size Hc Ha Hk Hi) as (Hp & t & Ht & Hct).
  unfold lookup_new. rewrite Z.mod_small by (destruct Hk; unfold MAX_KEY in *; lia).
  change {| len := _; last := _; excess := _; count := _; data := _ |} with (node_of ((hash, k), new_bucket now account)).
  cbn [fst] in Ht. change (z_rbtree (set_node _ _ _)) with (z_rbtree z). rewrite Ht. cbn [mbind option_bind].
  change (z_queue (set_node _ _ _)) with (z_queue z). change (sh (set_node _ _ _)) with (sh z).
  destruct (ngx_queue_insert_head_ok (<[p := fresh_link]> (z_queue z)) (sh z) E.*1 p) as (m & Hm & Hqm & _);
    [by apply queue_write|by rewrite lookup_insert_eq|done|].
  rewrite Hm. cbn [mbind option_bind]. eexists. split; [by destruct account|]. split; [|done].
  split; [|exact Hqm]. by apply zcore_queue.
Qed.

Lemma expired_stays E E' : expired E E' -> stays E E'.
Proof.
  intros (D & -> & HD) p i b Hin Hb. exists b. apply elem_of_app in Hin as [Hin|Hin]; [done|].
  rewrite list.Forall_forall in HD. by apply HD in Hin.
Qed.

Lemma expired_ids E E' i : expired E E' -> i ∉ (E.*2).*1 -> i ∉ (E'.*2).*1.
Proof. intros (D & -> & _) Hi Hin. apply Hi. rewrite !fmap_app. apply elem_of_app. by left. Qed.

Lemma stays_cons E E' c : stays E E' -> stays E (c :: E').
Proof. intros H p i b Hin Hb. destruct (H p i b Hin Hb) as (b' & Hb'). exists b'. by right. Qed.

(** The lookup does what it does on the list, and the nodes that are counted on stay
    where they are. *)
Lemma ngx_http_limit_req_lookup_ok z E limit now hash k account ctx : zrep z E -> key_ok k -> counts_ok E.*2 ->
  exists a ctx' z' E' (h : bool),
    ngx_http_limit_req_lookup NGX_DEBUG fresh fresh_link limit now hash k account ctx z = Some (a, ctx', z')
    /\ zrep z' E' /\ sh z' = sh z
    /\ lru_lookup limit (rate ctx) now (hash, k) account (refused a) E.*2 = (a, E'.*2, h)
    /\ (if h then exists p b', ctx' = ctx <| ctx_node := Some p |> /\ (p, ((hash, k), b')) ∈ E' else ctx' = ctx)
    /\ stays E E'.
Proof.
  intros H Hk Hcnt. unfold ngx_http_limit_req_lookup.
  destruct (zone_search_ok z E hash k (proj1 H) Hk) as (o & -> & Ho). cbn [mbind option_bind].
  destruct o as [p|].
  { destruct Ho as (b & Hin).
    destruct (lookup_found_ok z E limit now account p (hash, k) b ctx H Hin Hcnt)
      as (a & ctx' & z' & E' & h & -> & Hz & Hsh & Hl & -> & (b' & Hb') & Hst).
    exists a, (if h then ctx <| ctx_node := Some p |> else ctx), z', E', h. do 4 (split; [done|]). split; [|done]. destruct h; [|done]. by exists p, b'. }
  unfold lru_lookup. rewrite bucket_of_none by exact Ho.
  destruct (zone_expire_ok now (rate ctx) 1 z E H ltac:(lia)) as (z1 & E1 & -> & H1 & Hsh1 & HE1 & Hx1).
  cbn [mbind option_bind]. cbn [Nat.sub Nat.eqb] in HE1. rewrite <- HE1.
  pose proof (expired_ids _ _ _ Hx1 Ho) as Ho1. pose proof (expired_stays _ _ Hx1) as Hs1.
  unfold alloc_node. destruct (ngx_slab_alloc_locked (node_size k) (shpool z1)) as [[p|] P1] eqn:Ha1.
  { destruct (lookup_new_ok z1 E1 now hash k account 0 p ctx P1 _ H1 Ha1 Hk Ho1) as (z' & -> & Hz & Hsh).
    do 3 eexists. exists ((p, ((hash, k), new_bucket now account)) :: E1), (negb account).
    split; [done|]. split; [done|]. split; [congruence|]. split; [by destruct account|].
    split; [|by apply stays_cons]. destruct account; [done|]. exists p. eexists. split; [done|]. by left. }
  pose proof (zrep_refused _ _ _ _ H1 Ha1) as H1'.
  destruct (zone_expire_ok now (rate ctx) 0 _ E1 H1' ltac:(lia)) as (z2 & E2 & -> & H2 & Hsh2 & HE2 & Hx2).
  cbn [mbind option_bind]. cbn [Nat.sub Nat.eqb] in HE2.
  pose proof (expired_ids _ _ _ Hx2 Ho1) as Ho2. pose proof (expired_stays _ _ (expired_trans _ _ _ Hx1 Hx2)) as Hs2.
  assert (sh z2 = sh z) as Hsh2' by (rewrite Hsh2; exact Hsh1).
  destruct (ngx_slab_alloc_locked (node_size k) (shpool z2)) as [[p|] P2] eqn:Ha2.
  { destruct (lookup_new_ok z2 E2 now hash k account 1 p ctx P2 _ H2 Ha2 Hk Ho2) as (z' & -> & Hz & Hsh).
    do 3 eexists. exists ((p, ((hash, k), new_bucket now account)) :: E2), (negb account).
    split; [done|]. split; [done|]. split; [congruence|]. split; [cbn [refused Nat.leb]; rewrite <- HE2; by destruct account|].
    split; [|by apply stays_cons]. destruct account; [done|]. exists p. eexists. split; [done|]. by left. }
  do 3 eexists. exists E2, false. split; [done|]. split; [by eapply zrep_refused|]. split; [done|].
  split; [cbn [refused Nat.leb]; by rewrite <- HE2|]. done.
Qed.

(** *** Account and unlock *)

Lemma zrep_update z E1 p i b b' E2 : zrep z (E1 ++ (p, (i, b)) :: E2) ->
  zrep (set_node p (node_of (i, b')) z) (E1 ++ (p, (i, b')) :: E2).
Proof.
  intros [Hc Hq]. split; [|rewrite fmap_app in *; exact Hq].
  rewrite <- Permutation_middle in Hc |- *. by eapply zcore_set.
Qed.

Lemma counted_down z E i b (p : nat) b' : zrep z E -> (p, (i, b)) ∈ E ->
  exists E', zrep (set_node p (node_of (i, b')) z) E' /\ E'.*2 = set_bucket i b' E.*2
    /\ bucket_of i E.*2 = Some b /\ (p, (i, b')) ∈ E' /\ (forall q j c, (q, (j, c)) ∈ E -> exists c', (q, (j, c')) ∈ E').
Proof.
  intros H Hin. apply list_elem_of_split in Hin as (E1 & E2 & ->).
  destruct (zcore_lru z _ E1 p i b E2 (proj1 H) eq_refl) as (Hnd & HE & Hi1).
  exists (E1 ++ (p, (i, b')) :: E2). split; [by eapply zrep_update|]. rewrite HE, bucket_of_at, set_bucket_at by done.
  split; [by rewrite fmap_app|]. split; [done|]. split; [apply elem_of_app; right; by left|].
  intros q j c [Hq|[[= -> -> ->]|Hq]%elem_of_cons]%elem_of_app.
  - exists c. apply elem_of_app. by left.
  - exists b'. apply elem_of_app. right. by left.
  - exists c. apply elem_of_app. right. by right.
Qed.

Lemma account_zone_ok z E now ctx p i b : zrep z E -> ctx_node ctx = Some p -> (p, (i, b)) ∈ E ->
  1 <= b_count b < 2 ^ 64 ->
  account_zone now ctx z
  = Some (Some (discharge (rate ctx) now b).1, ctx <| ctx_node := None |>,
          set_node p (node_of (i, (discharge (rate ctx) now b).2)) z).
Proof.
  intros H Hp Hin Hb. unfold account_zone. rewrite Hp, (zrep_node z E p (i, b) H Hin). cbn [mbind option_bind].
  unfold discharge, charge. cbn.
  repeat f_equal. destruct (elapsed now (b_last b) =? 0); cbn; rewrite u64_small by lia; done.
Qed.

Lemma unlock_zone_ok z E ctx p i b : zrep z E -> ctx_node ctx = Some p -> (p, (i, b)) ∈ E ->
  1 <= b_count b < 2 ^ 64 ->
  unlock_zone ctx z = Some (ctx <| ctx_node := None |>, set_node p (node_of (i, b <| b_count := b_count b - 1 |>)) z).
Proof.
  intros H Hp Hin Hb. unfold unlock_zone. rewrite Hp, (zrep_node z E p (i, b) H Hin). cbn [mbind option_bind].
  cbn. rewrite u64_small by lia. done.
Qed.

(** *** The workers *)

Definition lru_step (op : zone_op) (refused : nat) (st : lru * gmap nat ident) : answer * (lru * gmap nat ident) :=
  let '(l, held) := st in
  match op with
  | Lookup w limit rate now hash k account =>
      let '(a, l, h) := lru_lookup limit rate now (hash, k) account refused l in
      (a, (l, if (h : bool) then <[w := (hash, k)]> held else held))
  | Account w rate now =>
      match i ← held !! w; b ← bucket_of i l; Some (i, b) with
      | Some (i, b) =>
          let '(e, b) := discharge rate now b in
          ({| rc := NGX_OK; ep := e; refused := 0 |}, (set_bucket i b l, delete w held))
      | None => ({| rc := NGX_OK; ep := 0; refused := 0 |}, st)
      end
  | Unlock w =>
      match i ← held !! w; b ← bucket_of i l; Some (i, b) with
      | Some (i, b) =>
          ({| rc := NGX_OK; ep := 0; refused := 0 |},
           (set_bucket i (b <| b_count := b_count b - 1 |>) l, delete w held))
      | None => ({| rc := NGX_OK; ep := 0; refused := 0 |}, st)
      end
  end.

(** [rs] tells how often the allocator refused during each operation. *)
Fixpoint lru_run (ops : list zone_op) (rs : list nat) (st : lru * gmap nat ident)
    : list answer * (lru * gmap nat ident) :=
  match ops, rs with
  | op :: ops, r :: rs =>
      let '(a, st) := lru_step op r st in let '(aa, st) := lru_run ops rs st in (a :: aa, st)
  | _, _ => ([], st)
  end.

(** How many workers count on [i]. *)
Definition holders (i : ident) (held : gmap nat ident) : Z := Z.of_nat (size (filter (fun e => e.2 = i) held)).

Lemma holders_pos i held : 0 <= holders i held.
Proof. unfold holders. lia. Qed.

Lemma holders_some i held w : held !! w = Some i -> 1 <= holders i held.
Proof.
  intros Hw. unfold holders. assert (size (filter (fun e => e.2 = i) held) <> 0%nat); [|lia].
  intros Hz. apply map_size_empty_inv in Hz.
  assert (filter (fun e => e.2 = i) held !! w = Some i) as Hf by (by apply map_lookup_filter_Some). by rewrite Hz, lookup_empty in Hf.
Qed.

Lemma holders_delete_le i held w : holders i (delete w held) <= holders i held.
Proof.
  unfold holders. apply inj_le, map_subseteq_size. apply map_filter_strong_subseteq_ext.
  intros w' j. rewrite lookup_delete_Some. tauto.
Qed.

Lemma holders_delete i held w : held !! w = Some i -> holders i (delete w held) = holders i held - 1.
Proof.
  intros Hw. unfold holders. rewrite map_filter_delete.
  assert (filter (fun e => e.2 = i) held !! w = Some i) as Hf by (by apply map_lookup_filter_Some).
  pose proof (holders_some i held w Hw). unfold holders in *. rewrite map_size_delete_Some by (by eexists). lia.
Qed.

Lemma holders_insert i j held w : holders j (<[w := i]> held) <= holders j held + (if decide (j = i) then 1 else 0).
Proof.
  rewrite <- insert_delete_eq. pose proof (holders_delete_le j held w) as Hle. unfold holders in *.
  rewrite map_filter_insert. cbn. destruct (decide (i = j)) as [->|Hne].
  - rewrite decide_True by done. rewrite map_size_insert_None; [lia|].
    apply map_lookup_filter_None. left. apply lookup_delete_eq.
  - rewrite decide_False by congruence. rewrite delete_delete_eq. lia.
Qed.

(** What a lookup does to the counts. *)
Definition counted (i : ident) (h : bool) (l l' : lru) : Prop :=
  forall j c, (j, c) ∈ l' ->
    if decide (j = i) then b_count c = from_option b_count 0 (bucket_of i l) + (if h then 1 else 0)
    else (j, c) ∈ l.

Lemma lru_expire_incl turns : forall forced now rate (l : lru) e, e ∈ lru_expire turns forced now rate l -> e ∈ l.
Proof.
  induction turns as [|turns IH]; intros forced now rate l e; cbn [lru_expire]; [done|].
  destruct (rev l) as [|x l'] eqn:Hr; [done|].
  destruct (negb (b_count x.2 =? 0)); [done|]. destruct (negb forced && _); [done|].
  intros Hin%IH. rewrite <- (rev_involutive l), Hr. cbn. apply elem_of_app. by left.
Qed.

Lemma charge_count now e b : b_count (charge now e b) = b_count b.
Proof. unfold charge. cbn. by destruct (elapsed now (b_last b) =? 0). Qed.

Lemma lru_lookup_counted limit rate now i account n l a l' h :
  lru_lookup limit rate now i account n l = (a, l', h) -> i ∉ l.*1 \/ is_Some (bucket_of i l) -> counted i h l l'.
Proof.
  unfold lru_lookup. intros H Hi j c Hin. destruct (bucket_of i l) as [b|] eqn:Hb.
  - set (e := new_excess rate (b_excess b) (elapsed now (b_last b))) in H.
    assert (exists b', l' = (i, b') :: without_id i l /\ b_count b' = b_count b + (if h then 1 else 0)) as (b' & -> & Hb').
    { destruct (e >? burst limit); [|destruct account]; simplify_eq; (eexists; split; [reflexivity|]);
        rewrite ?charge_count; cbn; lia. }
    apply elem_of_cons in Hin as [[= -> ->]|Hin]; [by rewrite decide_True|].
    unfold without_id in Hin. apply list_elem_of_filter in Hin as [Hne Hin]. cbn in Hne. by rewrite decide_False.
  - destruct Hi as [Hi|[b Hb']]; [|done]. cbn [from_option].
    set (l1 := lru_expire 2 false now rate l) in H.
    set (l2 := if (1 <=? n)%nat then lru_expire 3 true now rate l1 else l1) in H.
    assert (forall x, x ∈ l2 -> x ∈ l) as Hinc.
    { intros x Hx. unfold l2 in Hx. destruct (1 <=? n)%nat; [apply lru_expire_incl in Hx|]; by apply lru_expire_incl in Hx. }
    assert ((j, c) ∈ l2 -> if decide (j = i) then b_count c = 0 + (if h then 1 else 0) else (j, c) ∈ l) as Hold.
    { intros Hx%Hinc. rewrite decide_False; [done|]. intros ->. apply Hi. by apply (list_elem_of_fmap_2 fst l (i, c)). }
    destruct (2 <=? n)%nat; [simplify_eq; by apply Hold|].
    destruct account; simplify_eq; (apply elem_of_cons in Hin as [[= -> ->]|Hin]; [by rewrite decide_True|by apply Hold]).
Qed.

(** The zone and the nodes that the workers hold, against the list and the keys that they
    hold; [n] bounds the counts. *)
Definition world_rep (n : Z) (st : zone pool * gmap nat nat) (sp : lru * gmap nat ident) : Prop :=
  exists E, zrep st.1 E /\ sp.1 = E.*2
    /\ (forall w, match st.2 !! w, sp.2 !! w with
                  | Some p, Some i => exists b, (p, (i, b)) ∈ E
                  | None, None => True
                  | _, _ => False
                  end)
    /\ (forall i b, (i, b) ∈ E.*2 -> holders i sp.2 <= b_count b <= n).

Lemma cell_entry (E : list cell) p e : (p, e) ∈ E -> e ∈ E.*2.
Proof. intros H. by apply (list_elem_of_fmap_2 snd E (p, e)). Qed.

Lemma bucket_of_in i (l : lru) b : bucket_of i l = Some b -> (i, b) ∈ l.
Proof.
  induction l as [|[j c] l IH]; [done|]. cbn. case_decide as Hj; [intros [= ->]; subst; by left|]. intros H. right. by apply IH.
Qed.

Lemma bucket_of_cases i (l : lru) : i ∉ l.*1 \/ is_Some (bucket_of i l).
Proof.
  destruct (bucket_of i l) as [b|] eqn:Hb; [right; by eexists|left].
  induction l as [|[j c] l IH]; cbn in *; [apply not_elem_of_nil|]. case_decide as Hj; [done|].
  apply not_elem_of_cons. split; [by intros ->|by apply IH].
Qed.

Lemma world_lookup n st sp w limit r now hash k account : world_rep n st sp -> key_ok k -> 0 <= n < 2 ^ 64 - 1 ->
  exists a st' sp', zone_step NGX_DEBUG fresh fresh_link (Lookup w limit r now hash k account) st = Some (a, st')
    /\ lru_step (Lookup w limit r now hash k account) (refused a) sp = (a, sp')
    /\ world_rep (n + 1) st' sp'.
Proof.
  destruct st as [z held], sp as [l sheld]. intros (E & Hz & Hl & Hh & Hc) Hk Hn. cbn [fst snd] in *. subst l.
  assert (counts_ok E.*2) as Hcnt.
  { apply list.Forall_forall. intros [i b] Hin. pose proof (Hc i b Hin). pose proof (holders_pos i sheld). cbn. lia. }
  destruct (ngx_http_limit_req_lookup_ok z E limit now hash k account (ctx_of w r held) Hz Hk Hcnt)
    as (a & ctx' & z' & E' & h & Hlk & Hz' & Hsh & Hspec & Hctx & Hst).
  cbn [zone_step]. rewrite Hlk. cbn [mbind option_bind]. do 3 eexists. split; [reflexivity|].
  cbn [lru_step]. cbn [rate ctx_of] in Hspec. rewrite Hspec. split; [reflexivity|].
  pose proof (lru_lookup_counted _ _ _ _ _ _ _ _ _ _ Hspec (bucket_of_cases _ _)) as Hcd.
  exists E'. cbn [fst snd]. split; [done|]. split; [done|].
  assert (forall w' p i b, held !! w' = Some p -> sheld !! w' = Some i -> (p, (i, b)) ∈ E -> exists b', (p, (i, b')) ∈ E') as Hkeep.
  { intros w' p i b Hp Hi Hin. apply (Hst p i b Hin). pose proof (Hc i b (cell_entry _ _ _ Hin)). pose proof (holders_some _ _ _ Hi). lia. }
  split.
  - intros w'. specialize (Hh w'). unfold keep_ctx. destruct h.
    + destruct Hctx as (p & b' & -> & Hin). cbn [ctx_node field_set]. destruct (decide (w = w')) as [->|Hne].
      * rewrite lookup_partial_alter_eq, lookup_insert_eq. by exists b'.
      * rewrite lookup_partial_alter_ne, lookup_insert_ne by done.
        destruct (held !! w') eqn:Hp, (sheld !! w') eqn:Hi; try done. destruct Hh as (b & Hb). by eapply Hkeep.
    + rewrite Hctx. cbn [ctx_of ctx_node].
      assert (partial_alter (fun _ => held !! w) w held !! w' = held !! w') as ->.
      { destruct (decide (w = w')) as [->|Hne]; [by rewrite lookup_partial_alter_eq|by rewrite lookup_partial_alter_ne]. }
      destruct (held !! w') eqn:Hp, (sheld !! w') eqn:Hi; try done. destruct Hh as (b & Hb). by eapply Hkeep.
  - intros i b Hin. specialize (Hcd i b Hin).
    assert (holders i (if h then <[w := (hash, k)]> sheld else sheld)
      <= holders i sheld + (if decide (i = (hash, k)) then (if h then 1 else 0) else 0)) as Hhi.
    { destruct h; [etransitivity; [apply holders_insert|]|]; case_decide; lia. }
    case_decide as Hi; [subst i|].
    + destruct (bucket_of (hash, k) E.*2) as [b0|] eqn:Hb0; cbn [from_option] in Hcd.
      * apply bucket_of_in in Hb0. pose proof (Hc _ _ Hb0). destruct h; lia.
      * assert (holders (hash, k) sheld = 0) as Hz0.
        { unfold holders. assert (filter (fun e => e.2 = (hash, k)) sheld = ∅) as ->; [|done].
          apply map_empty. intros w'. apply map_lookup_filter_None. right. cbn. intros j Hj ->. specialize (Hh w').
          rewrite Hj in Hh. destruct (held !! w') as [p|]; [|done]. destruct Hh as (b1 & Hb1).
          destruct (bucket_of_cases (hash, k) E.*2) as [Hno|[b2 Hb2]]; [|congruence].
          apply Hno. apply (list_elem_of_fmap_2 fst E.*2 ((hash, k), b1)). by eapply cell_entry. }
        destruct h; lia.
    + pose proof (Hc _ _ Hcd). lia.
Qed.

(** A worker counts its request, or gives it up, and forgets the node. *)
Lemma world_down n E z held sheld w p i b b' : zrep z E ->
  (forall i b, (i, b) ∈ E.*2 -> holders i sheld <= b_count b <= n) ->
  sheld !! w = Some i -> (p, (i, b)) ∈ E -> b_count b' = b_count b - 1 ->
  (forall w', match held !! w', sheld !! w' with
              | Some p, Some i => exists b, (p, (i, b)) ∈ E | None, None => True | _, _ => False end) ->
  world_rep n (set_node p (node_of (i, b')) z, delete w held) (set_bucket i b' E.*2, delete w sheld).
Proof.
  intros Hz Hc Hw Hin Hb' Hh.
  destruct (counted_down z E i b p b' Hz Hin) as (E' & Hz' & HE' & Hb & _ & Hkeep).
  exists E'. cbn [fst snd]. split; [done|]. split; [done|]. split.
  - intros w'. specialize (Hh w'). destruct (decide (w = w')) as [<-|Hne]; [by rewrite !lookup_delete_eq|].
    rewrite !lookup_delete_ne by done. destruct (held !! w'), (sheld !! w'); try done.
    destruct Hh as (c & Hc'). by eapply Hkeep.
  - intros j c Hj. rewrite HE' in Hj. unfold set_bucket in Hj. apply list_elem_of_fmap in Hj as ([j' c'] & Heq & Hj).
    cbn in Heq. case_decide as Hji.
    + injection Heq as -> ->. pose proof (Hc i b (cell_entry _ _ _ Hin)). rewrite (holders_delete i sheld w Hw).
      pose proof (holders_some _ _ _ Hw). lia.
    + injection Heq as -> ->. pose proof (Hc _ _ Hj). pose proof (holders_delete_le j' sheld w). lia.
Qed.

Lemma world_step n op st sp : world_rep n st sp -> 0 <= n < 2 ^ 64 - 1 ->
  match op with Lookup _ _ _ _ _ k _ => key_ok k | _ => True end ->
  exists a st' sp', zone_step NGX_DEBUG fresh fresh_link op st = Some (a, st')
    /\ lru_step op (refused a) sp = (a, sp') /\ world_rep (n + 1) st' sp'.
Proof.
  intros H Hn Hk.
  assert (forall st sp, world_rep n st sp -> world_rep (n + 1) st sp) as Hup.
  { intros st1 sp1 (E & ? & ? & ? & Hc). exists E. do 3 (split; [done|]). intros i b Hin. pose proof (Hc i b Hin). lia. }
  destruct op as [w limit r now hash k account|w r now|w]; [by apply world_lookup| |];
    destruct st as [z held], sp as [l sheld]; pose proof H as (E & Hz & Hl & Hh & Hc); cbn [fst snd] in *; subst l;
    cbn [zone_step lru_step]; pose proof (Hh w) as Hw; destruct (held !! w) as [p|] eqn:Hp, (sheld !! w) as [i|] eqn:Hi; try done;
    cbn [mbind option_bind].
  2,4: unfold account_zone, unlock_zone; cbn [ctx_of ctx_node]; rewrite Hp; cbn [mbind option_bind]; do 3 eexists;
    split; [reflexivity|]; split; [reflexivity|]; unfold keep_ctx; cbn [ctx_of ctx_node]; apply Hup;
    (assert (partial_alter (fun _ => held !! w) w held = held) as -> by (by rewrite partial_alter_self)); exact H.
  all: destruct Hw as (b & Hin); pose proof (Hc i b (cell_entry _ _ _ Hin)); pose proof (holders_some _ _ _ Hi);
    destruct (counted_down z E i b p b Hz Hin) as (_ & _ & _ & Hb & _); rewrite Hb; cbn [mbind option_bind].
  - rewrite (account_zone_ok z E now (ctx_of w r held) p i b) by (done || lia). cbn [mbind option_bind].
    destruct (discharge r now b) as [e b'] eqn:Hd. do 3 eexists. split; [reflexivity|]. cbn [rate ctx_of] in *.
    rewrite Hd. split; [reflexivity|]. apply Hup. apply (world_down n E z held sheld w p i b b'); try done.
    unfold discharge in Hd. injection Hd as _ <-. by rewrite charge_count.
  - rewrite (unlock_zone_ok z E (ctx_of w 0 held) p i b) by (done || lia). cbn [mbind option_bind].
    do 3 eexists. split; [reflexivity|]. split; [reflexivity|]. apply Hup.
    by apply (world_down n E z held sheld w p i b).
Qed.

Definition zone_op_ok (op : zone_op) : Prop := match op with Lookup _ _ _ _ _ k _ => key_ok k | _ => True end.

Lemma world_run ops : forall n st sp, world_rep n st sp -> 0 <= n -> n + Z.of_nat (length ops) < 2 ^ 64 ->
  Forall zone_op_ok ops ->
  exists rs st' sp', zone_run NGX_DEBUG fresh fresh_link ops st = Some (rs, st')
    /\ lru_run ops (refused <$> rs) sp = (rs, sp') /\ world_rep (n + Z.of_nat (length ops)) st' sp'.
Proof.
  induction ops as [|op ops IH]; intros n st sp H Hn Hlen Hok; cbn [zone_run length] in *.
  { exists [], st, sp. do 2 (split; [done|]). by rewrite Z.add_0_r. }
  apply list.Forall_cons in Hok as [Hop Hok].
  destruct (world_step n op st sp H ltac:(lia) Hop) as (a & st1 & sp1 & -> & Hs1 & H1). cbn [mbind option_bind].
  destruct (IH (n + 1) st1 sp1 H1 ltac:(lia) ltac:(lia) Hok) as (rs & st2 & sp2 & -> & Hs2 & H2). cbn [mbind option_bind].
  exists (a :: rs), st2, sp2. split; [done|]. cbn [fmap list_fmap lru_run]. rewrite Hs1. fold (refused <$> rs).
  split; [by rewrite Hs2|]. by replace (n + Z.of_nat (S (length ops))) with (n + 1 + Z.of_nat (length ops)) by lia.
Qed.

Lemma init_zone_ok name_len P z : ngx_http_limit_req_init_zone fresh fresh_link name_len P = Some (Some z) -> zrep z [].
Proof.
  unfold ngx_http_limit_req_init_zone.
  destruct (ngx_slab_alloc_locked 80 P) as [[p|] P1] eqn:H1; [|done].
  destruct (init_ok (limit_req_less ∅) p {[p := fresh]}) as (t & -> & Ht); [by rewrite lookup_singleton_eq|].
  cbn [mbind option_bind].
  destruct (ngx_queue_init_ok p {[p := fresh_link]}) as (m & -> & Hm & _); [by rewrite lookup_singleton_eq|].
  cbn [mbind option_bind]. destruct (ngx_slab_alloc_locked _ P1) as [[lc|] P2] eqn:H2; [|done].
  intros [= <-]. destruct (slab_alloc_some _ _ _ _ H1) as [_ HP1], (slab_alloc_some _ _ _ _ H2) as [_ HP2].
  split; [|exact Hm]. split; cbn; try done.
  - intros q e []%not_elem_of_nil.
  - by exists [].
  - constructor.
  - intros e []%not_elem_of_nil.
  - intros q ->%list_elem_of_singleton. set_solver.
Qed.

Lemma world_init z : zrep z [] -> world_rep 0 (z, ∅) ([], ∅).
Proof.
  intros Hz. exists []. do 2 (split; [done|]). split; [by intros w; cbn; rewrite !lookup_empty|].
  intros i b []%not_elem_of_nil.
Qed.

(** C6: A zone is a list of buckets.  Whatever lookups, accounts and unlocks the workers do
    and in whatever order, with any clocks, rates and limits, and however often the allocator
    refuses a block: no call touches memory that was given back or follows a wrong pointer,
    every call returns, and every answer is that of a list with one bucket for each key, the
    last used first, from whose end buckets expire that are old, empty and not counted on.
    A node that a worker holds is in the zone, and its count is not 0. *)
Theorem ngx_http_limit_req_refines name_len P z (ops : list zone_op) :
  ngx_http_limit_req_init_zone fresh fresh_link name_len P = Some (Some z) ->
  Forall zone_op_ok ops -> Z.of_nat (length ops) < 2 ^ 64 ->
  exists rs z' nodes l held,
    zone_run NGX_DEBUG fresh fresh_link ops (z, ∅) = Some (rs, (z', nodes))
    /\ lru_run ops (refused <$> rs) ([], ∅) = (rs, (l, held)) /\ NoDup l.*1
    /\ (forall w p, nodes !! w = Some p -> exists lr i, z_nodes z' !! p = Some lr /\ held !! w = Some i
          /\ data lr = i.2 /\ count lr <> 0).
Proof.
  intros Hi Hok Hlen. apply init_zone_ok in Hi.
  pose proof (world_init z Hi) as H0.
  destruct (world_run ops 0 _ _ H0 ltac:(lia) ltac:(lia) Hok) as (rs & [z' nodes] & [l held] & Hr & Hs & (E & Hz & Hl & Hh & Hc)).
  cbn [fst snd] in *. exists rs, z', nodes, l, held. split; [done|]. split; [done|]. split; [subst l; apply Hz|].
  intros w p Hp. specialize (Hh w). rewrite Hp in Hh. destruct (held !! w) as [i|] eqn:Hi'; [|done].
  destruct Hh as (b & Hin). exists (node_of (i, b)), i. split; [by eapply zrep_node|]. do 2 (split; [done|]).
  pose proof (Hc i b (cell_entry _ _ _ Hin)). pose proof (holders_some _ _ _ Hi'). cbn. lia.
Qed.
End Zone_proofs.

(** ** A small zone *)

Definition few_blocks : few := {| blocks := [1; 2; 3; 4]%nat; taken := ∅ |}.
Definition no_link : ngx_queue_t := {| prev := 0; next := 0 |}.
Definition a_limit : ngx_http_limit_req_limit_t := {| burst := 1000; delay := 0 |}.

(** Two workers; there is room for two keys. *)
Definition a_day : list zone_op := [
  Lookup 0 a_limit 2000 100000 97 (bs "a") true; Lookup 1 a_limit 2000 100000 97 (bs "a") false;
  Lookup 0 a_limit 2000 100000 98 (bs "b") true; Lookup 0 a_limit 2000 100400 98 (bs "c") true;
  Lookup 0 a_limit 2000 100400 97 (bs "a") true; Account 1 2000 100400; Unlock 0;
  Lookup 0 a_limit 2000 200000 98 (bs "b") false; Lookup 1 a_limit 2000 200000 98 (bs "e") true; Unlock 0].

Lemma few_blocks_zone : { z | ngx_http_limit_req_init_zone (blank 0) no_link 3 few_blocks = Some (Some z) }.
Proof. eexists. vm_compute. reflexivity. Defined.
Definition few_zone : zone few := proj1_sig few_blocks_zone.

Definition key_check (k : list Z) : bool :=
  forallb (fun c => (0 <=? c) && (c <? 256)) k && (Z.of_nat (length k) <=? MAX_KEY).

Lemma key_check_ok k : key_check k = true -> key_ok k.
Proof. intros [Hb Hl]%andb_prop. split; [by apply bytes_ok_check|by apply Z.leb_le]. Qed.

Lemma a_day_keys : Forall zone_op_ok a_day.
Proof.
  apply (Forall_check (fun op => match op with Lookup _ _ _ _ _ k _ => key_check k | _ => true end)); [|reflexivity].
  intros [w limit r now hash k account|w r now|w]; [apply key_check_ok|done..].
Qed.

Lemma ngx_http_limit_req_refines_witness :
  exists rs z' nodes l held,
    zone_run true (blank 0) no_link a_day (few_zone, ∅) = Some (rs, (z', nodes))
    /\ lru_run a_day (refused <$> rs) ([], ∅) = (rs, (l, held)) /\ NoDup l.*1
    /\ (forall w p, nodes !! w = Some p -> exists lr i, z_nodes z' !! p = Some lr /\ held !! w = Some i
          /\ data lr = i.2 /\ count lr <> 0).
Proof.
  apply (ngx_http_limit_req_refines true (blank 0) no_link 3 few_blocks few_zone a_day).
  - exact (proj2_sig few_blocks_zone).
  - exact a_day_keys.
  - reflexivity.
Defined.
