(* ===== verification/LimitRate.v ===== *)
(** * LimitRate: what the rate limits of LimitReq promise

    The number of requests of a key that a zone accepts in a time, and the requests that it
    does not refuse, for a single limit. *)

From stdpp Require Import gmap sorting.
From S2P Require Import Prelude Queue Rbtree LimitReq.

(** ** How many requests come through *)

(** A request of one limit, the only one of its location: the worker, its clock, the key. *)
Record visit := { v_worker : nat; v_now : Z; v_hash : Z; v_key : list Z }.

Definition visit_op (limit : ngx_http_limit_req_limit_t) (rate : Z) (v : visit) : zone_op :=
  Lookup (v_worker v) limit rate (v_now v) (v_hash v) (v_key v) true.

(** The requests of the key [i] that were accepted. *)
Fixpoint accepted (i : ident) (vs : list visit) (rs : list answer) : Z :=
  match vs, rs with
  | v :: vs, a :: rs =>
      (if decide ((v_hash v, v_key v) = i) then if rc a =? NGX_OK then 1 else 0 else 0) + accepted i vs rs
  | _, _ => 0
  end.

(** How many times the allocator had no block. *)
Definition refusals (rs : list answer) : Z := foldr (fun a n => Z.of_nat (refused a) + n) 0 rs.

Lemma refusals_nonneg rs : 0 <= refusals rs.
Proof. unfold refusals. induction rs as [|a rs IH]; cbn [foldr]; lia. Qed.

(** The bucket in numbers, while the clock and the rate are within 62 bits. *)
Section Rate.
Variables rate cap : Z.
(** The end of time. *)
Variable end_ : Z.
Hypothesis rate_pos : 0 <= rate.
Hypothesis burst_small : 0 <= cap < 2 ^ 62.
Hypothesis end_small : 0 <= end_ < 2 ^ 62.
Hypothesis leak_small : rate * end_ < 2 ^ 62.

Definition leak (ms : Z) : Z := rate * ms / 1000.

Lemma leak_bounds ms : 0 <= ms <= end_ -> 0 <= rate * ms < 2 ^ 62 /\ 0 <= leak ms < 2 ^ 62.
Proof.
  intros H. assert (0 <= rate * ms <= rate * end_) by nia. split; [lia|]. unfold leak.
  split; [apply Z.div_pos; lia|]. apply Z.div_lt_upper_bound; lia.
Qed.

Lemma leak_add a b : 0 <= a -> 0 <= b -> leak a + leak b <= leak (a + b).
Proof.
  intros Ha Hb. unfold leak. rewrite Z.mul_add_distr_l. set (x := rate * a). set (y := rate * b).
  pose proof (Z.div_mod x 1000). pose proof (Z.div_mod y 1000). pose proof (Z.mod_pos_bound x 1000). 
  pose proof (Z.mod_pos_bound y 1000). apply Z.div_le_lower_bound; lia.
Qed.

Lemma leak_mono a b : 0 <= a <= b -> leak a <= leak b.
Proof. intros H. unfold leak. apply Z.div_le_mono; nia. Qed.

Lemma elapsed_ok now last : 0 <= last <= now -> now <= end_ -> elapsed now last = now - last.
Proof.
  intros H Hn. unfold elapsed. rewrite u64_small, i64_small by lia.
  test_false (now - last <? -60000). by test_false (now - last <? 0).
Qed.

Lemma new_excess_ok e ms : 0 <= e < 2 ^ 62 -> 0 <= ms <= end_ ->
  new_excess rate e ms = Z.max 0 (e - leak ms + 1000).
Proof.
  intros He Hms. pose proof (leak_bounds ms Hms) as [H1 H2]. unfold new_excess. rewrite (u64_small (rate * ms)) by lia.
  fold (leak ms). unfold i64, u64. rewrite Zplus_mod_idemp_l.
  fold (i64 (e - leak ms + 1000)). rewrite i64_small by lia.
  destruct (Z.ltb_spec (e - leak ms + 1000) 0); lia.
Qed.

(** What may be deleted has been idle for a minute, and is empty. *)
Lemma must_stay_false now last e : 0 <= e < 2 ^ 62 -> 0 <= last <= now -> now <= end_ ->
  must_stay now rate last e = false -> 60000 <= now - last /\ e <= leak (now - last).
Proof.
  intros He Hl Hn. pose proof (leak_bounds (now - last) ltac:(lia)) as [H1 H2]. unfold must_stay, ngx_abs.
  rewrite (u64_small (now - last)), (i64_small (now - last)) by lia. test_true (now - last >=? 0).
  destruct (Z.ltb_spec (now - last) 60000); [done|]. rewrite (u64_small (rate * _)) by lia. fold (leak (now - last)).
  unfold i64, u64. rewrite Zplus_mod_idemp_l. fold (i64 (e - leak (now - last))). rewrite i64_small by lia.
  intros Hg. apply Z.gtb_ltb in Hg || rewrite Z.gtb_ltb in Hg. apply Z.ltb_ge in Hg. lia.
Qed.

(** A list whose buckets have been used by [now]. *)
Definition calm (now : Z) (l : lru) : Prop :=
  Forall (fun e => 0 <= b_last e.2 <= now /\ 0 <= b_excess e.2 <= cap) l /\ NoDup l.*1.

Lemma lru_expire_prefix turns : forall forced now r (l : lru), exists d, l = lru_expire turns forced now r l ++ d.
Proof.
  induction turns as [|turns IH]; intros forced now r l; cbn [lru_expire]; [exists []; by rewrite app_nil_r|].
  destruct (rev l) as [|x l'] eqn:Hr; [exists []; by rewrite app_nil_r|].
  destruct (negb (b_count x.2 =? 0)); [exists []; by rewrite app_nil_r|].
  destruct (negb forced && _); [exists []; by rewrite app_nil_r|].
  destruct (IH false now r (rev l')) as (d & Hd). exists (d ++ [x]).
  rewrite <- (rev_involutive l), Hr. cbn. rewrite Hd at 1. by rewrite (assoc_L app).
Qed.

Lemma calm_expire turns forced now r l τ : calm τ l -> calm τ (lru_expire turns forced now r l).
Proof.
  intros [Ha Hnd]. destruct (lru_expire_prefix turns forced now r l) as (d & Hd). rewrite Hd in Ha, Hnd.
  apply list.Forall_app in Ha as [Ha _]. rewrite fmap_app in Hnd. apply list.NoDup_app in Hnd as [Hnd _]. done.
Qed.

Lemma calm_mono l τ τ' : calm τ l -> τ <= τ' -> calm τ' l.
Proof. intros [Ha Hnd] H. split; [|done]. eapply Forall_impl; [|exact Ha]. cbn. intros e. lia. Qed.

(** What becomes of one bucket. *)
Lemma expire_bucket turns : forall forced now r i (l : lru) b, NoDup l.*1 -> bucket_of i l = Some b ->
  bucket_of i (lru_expire turns forced now r l) = Some b
  \/ (i ∉ (lru_expire turns forced now r l).*1 /\ (forced = true \/ must_stay now r (b_last b) (b_excess b) = false)).
Proof.
  induction turns as [|turns IH]; intros forced now r i l b Hnd Hb; cbn [lru_expire]; [by left|].
  destruct (rev l) as [|[j c] l'] eqn:Hr; [by left|]. cbn [fst snd].
  destruct (negb (b_count c =? 0)); [by left|]. destruct (negb forced && must_stay now r (b_last c) (b_excess c)) eqn:Hms; [by left|].
  assert (l = rev l' ++ [(j, c)]) as Hl by (rewrite <- (rev_involutive l), Hr; done). rewrite Hl in Hb, Hnd.
  rewrite fmap_app in Hnd. apply list.NoDup_app in Hnd as (Hnd & Hd & _).
  destruct (decide (i ∈ (rev l').*1)) as [Hin|Hout].
  - assert (bucket_of i (rev l') = Some b) as Hb'.
    { clear -Hb Hin. induction (rev l') as [|[k d] m IHm]; [by apply not_elem_of_nil in Hin|]. cbn in *.
      case_decide; [done|]. apply IHm; [done|]. apply elem_of_cons in Hin as [->|Hin]; done. }
    destruct (IH false now r i (rev l') b Hnd Hb') as [H|(H & [?|H'])]; [by left|done|by right; split; [|right]].
  - right. split.
    + destruct (lru_expire_prefix turns false now r (rev l')) as (d & Hd'). intros Hin. apply Hout.
      rewrite Hd', fmap_app. apply elem_of_app. by left.
    + rewrite <- (app_nil_r (rev l' ++ _)), <- (assoc_L app) in Hb. 
      assert (i = j /\ b = c) as [-> ->].
      { clear -Hb Hout. induction (rev l') as [|[k d] m IHm]; cbn in *.
        - case_decide; [|done]. by simplify_eq.
        - apply not_elem_of_cons in Hout as [? ?]. rewrite decide_False in Hb by done. by apply IHm. }
      destruct forced; [by left|right]. done.
Qed.

(** *** The account of one key

    [A] requests of the key [i] were accepted since [t], and the allocator refused [F]
    times: the bucket owes them, but for what has leaked, one request, one for every minute,
    and one and a burst for every refusal. *)
Variable t : Z.
Hypothesis t_pos : 0 <= t.

Definition allowed (now F : Z) : Z :=
  leak (now - t) + 1000 * ((now - t) / 60000) + F * (1000 + cap).

Definition owed (now : Z) (i : ident) (A F : Z) (l : lru) : Prop :=
  A = 0 \/ t <= now /\
  match bucket_of i l with
  | Some b => t <= b_last b /\ 1000 * A <= 1000 + b_excess b + allowed (b_last b) F
  | None => 1000 * A <= allowed now F
  end.

Lemma minutes_mono a b : a <= b -> a / 60000 <= b / 60000.
Proof. intros. apply Z.div_le_mono; lia. Qed.

Lemma allowed_mono now now' F F' : t <= now <= now' -> F <= F' -> allowed now F <= allowed now' F'.
Proof.
  intros Hn HF. unfold allowed. pose proof (leak_mono (now - t) (now' - t) ltac:(lia)).
  pose proof (minutes_mono (now - t) (now' - t) ltac:(lia)).
  assert (F * (1000 + cap) <= F' * (1000 + cap)) by nia. lia.
Qed.

Lemma owed_mono now now' i A F F' l : owed now i A F l -> now <= now' -> F <= F' -> owed now' i A F' l.
Proof.
  intros [HA|[Ht H]] Hn HF; [by left|right]. split; [lia|]. destruct (bucket_of i l) as [b|].
  - destruct H as [Hl H]. split; [done|]. pose proof (allowed_mono (b_last b) (b_last b) F F' ltac:(lia) HF). lia.
  - pose proof (allowed_mono now now' F F' ltac:(lia) HF). lia.
Qed.

Lemma calm_bucket now l i b : calm now l -> bucket_of i l = Some b -> 0 <= b_last b <= now /\ 0 <= b_excess b <= cap.
Proof.
  intros [H _] Hb. rewrite list.Forall_forall in H. apply (H (i, b)). by apply bucket_of_in.
Qed.

(** A bucket that expires had leaked what it owed; the minute pays for the request that a
    new bucket does not count. *)
Lemma owed_expire turns now i A F (l : lru) : calm now l -> now <= end_ -> owed now i A F l ->
  owed now i A F (lru_expire turns false now rate l).
Proof.
  intros Hc Hn [HA|[Ht H]]; [by left|right]. split; [done|]. destruct (bucket_of i l) as [b|] eqn:Hb.
  - destruct (expire_bucket turns false now rate i l b (proj2 Hc) Hb) as [->|(Hout & [?|Hms])]; [done|done|].
    rewrite bucket_of_none by exact Hout. destruct H as [Hl H]. pose proof (calm_bucket _ _ _ _ Hc Hb).
    apply must_stay_false in Hms; [|lia..]. destruct Hms as [Hmin Hlk].
    pose proof (leak_add (b_last b - t) (now - b_last b) ltac:(lia) ltac:(lia)) as Hla.
    replace (b_last b - t + (now - b_last b)) with (now - t) in Hla by lia.
    pose proof (minutes_mono (b_last b - t + 1 * 60000) (now - t) ltac:(lia)) as Hmm.
    rewrite Z.div_add in Hmm by lia. unfold allowed in *. lia.
  - assert (i ∉ l.*1) as Hout by (destruct (bucket_of_cases i l) as [?|[? ?]]; congruence).
    rewrite bucket_of_none; [done|]. destruct (lru_expire_prefix turns false now rate l) as (d & Hd).
    rewrite Hd, fmap_app in Hout. apply not_elem_of_app in Hout as [Hout _]. done.
Qed.

Lemma owed_forced turns now i A F (l : lru) : calm now l -> now <= end_ -> owed now i A F l ->
  owed now i A (F + 1) (lru_expire turns true now rate l).
Proof.
  intros Hc Hn Ho. destruct Ho as [HA|[Ht H]]; [by left|right]. split; [done|].
  destruct (bucket_of i l) as [b|] eqn:Hb.
  - destruct H as [Hl H]. pose proof (calm_bucket _ _ _ _ Hc Hb).
    destruct (expire_bucket turns true now rate i l b (proj2 Hc) Hb) as [->|(Hout & _)].
    + split; [done|]. pose proof (allowed_mono (b_last b) (b_last b) F (F + 1) ltac:(lia) ltac:(lia)). lia.
    + rewrite bucket_of_none by exact Hout. pose proof (allowed_mono (b_last b) now F F ltac:(lia) ltac:(lia)).
      unfold allowed in *. lia.
  - assert (i ∉ l.*1) as Hout by (destruct (bucket_of_cases i l) as [?|[? ?]]; congruence).
    rewrite bucket_of_none; [pose proof (allowed_mono now now F (F + 1) ltac:(lia) ltac:(lia)); lia|].
    destruct (lru_expire_prefix turns true now rate l) as (d & Hd).
    rewrite Hd, fmap_app in Hout. by apply not_elem_of_app in Hout as [Hout _].
Qed.

Variable delay_ : Z.
Abbreviation limit := {| burst := cap; delay := delay_ |}.

Lemma bucket_of_without i j (l : lru) : i <> j -> bucket_of i (without_id j l) = bucket_of i l.
Proof.
  intros Hij. unfold without_id. induction l as [|[k b] l IH]; [done|]. cbn [bucket_of fst snd].
  destruct (decide (k = j)) as [->|Hkj].
  - rewrite filter_cons_False by (cbn; tauto). rewrite IH, decide_False; congruence.
  - rewrite filter_cons_True by done. cbn [bucket_of fst snd]. by rewrite IH.
Qed.

Lemma calm_without now j (l : lru) : calm now l -> calm now (without_id j l).
Proof.
  intros [Ha Hnd]. unfold without_id. split.
  { rewrite list.Forall_forall in Ha |- *. intros e He. apply list_elem_of_filter in He as [_ He]. by apply Ha. }
  clear Ha. induction l as [|[k b] l IH]; [constructor|]. apply list.NoDup_cons in Hnd as [Hk Hnd].
  destruct (decide (k = j)) as [->|Hkj]; [rewrite filter_cons_False by (cbn; tauto); by apply IH|].
  rewrite filter_cons_True by done. apply list.NoDup_cons. split; [|by apply IH].
  intros (e & He & Hin)%list_elem_of_fmap. apply list_elem_of_filter in Hin as [_ Hin]. apply Hk. cbn in He. subst k.
  by apply (list_elem_of_fmap_2 fst l e).
Qed.

Lemma calm_cons now i b (l : lru) : calm now l -> i ∉ l.*1 -> 0 <= b_last b <= now -> 0 <= b_excess b <= cap ->
  calm now ((i, b) :: l).
Proof. intros [Ha Hnd] Hi Hl He. split; [by constructor|]. by apply list.NoDup_cons. Qed.

(** The bucket after a request that is charged to it. *)
Lemma charge_ok now b : 0 <= b_last b <= now -> now <= end_ -> 0 <= b_excess b <= cap ->
  let e := new_excess rate (b_excess b) (elapsed now (b_last b)) in
  e = Z.max 0 (b_excess b - leak (now - b_last b) + 1000) /\ charge now e b = {| b_last := now; b_excess := e; b_count := b_count b |}.
Proof.
  intros Hl Hn He e. pose proof Hl as Hl'. apply elapsed_ok in Hl'; [|done]. unfold e. rewrite Hl'. split; [apply new_excess_ok; lia|].
  unfold charge. cbn. rewrite Hl'. destruct (Z.eqb_spec (now - b_last b) 0); [|done]. by replace now with (b_last b) by lia.
Qed.

Lemma allowed_nonneg now F : t <= now -> 0 <= F -> 0 <= allowed now F.
Proof.
  intros Hn HF. unfold allowed, leak. assert (0 <= rate * (now - t) / 1000) by (apply Z.div_pos; nia).
  assert (0 <= (now - t) / 60000) by (apply Z.div_pos; lia). nia.
Qed.

Lemma allowed_leak last now F : t <= last <= now -> allowed last F + leak (now - last) <= allowed now F.
Proof.
  intros H. pose proof (leak_add (last - t) (now - last) ltac:(lia) ltac:(lia)) as Hl.
  replace (last - t + (now - last)) with (now - t) in Hl by lia.
  pose proof (minutes_mono (last - t) (now - t) ltac:(lia)). unfold allowed. lia.
Qed.

(** One request, of the key [j]. *)
Lemma owed_lookup now' now i j A F (l : lru) n a l' h : calm now' l -> now' <= now -> t <= now <= end_ -> 0 <= F ->
  owed now' i A F l -> lru_lookup limit rate now j true n l = (a, l', h) ->
  calm now l' /\ owed now i (A + (if decide (j = i) then if rc a =? NGX_OK then 1 else 0 else 0)) (F + Z.of_nat (refused a)) l'.
Proof.
  intros Hc Hnn Hn HF Ho Hl. apply (calm_mono _ _ now) in Hc; [|done]. apply (owed_mono _ now _ _ _ F) in Ho; [|done..].
  unfold lru_lookup in Hl. destruct (bucket_of j l) as [b|] eqn:Hb.
  - pose proof (calm_bucket _ _ _ _ Hc Hb) as [Hlast Hexc].
    destruct (charge_ok now b Hlast ltac:(lia) Hexc) as [He Hch]. set (e := new_excess rate (b_excess b) (elapsed now (b_last b))) in *.
    cbn [burst] in Hl.
    pose proof (calm_without now j l Hc) as Hw. pose proof (without_not_in j l) as Hj.
    destruct (Z.gtb_spec e cap).
    + simplify_eq. split; [by apply calm_cons|]. cbn [rc refused]. replace (A + _) with A by (case_decide; cbn; lia).
      rewrite Z.add_0_r. destruct Ho as [?|[Ht Ho]]; [by left|right]. split; [done|]. cbn [bucket_of fst snd].
      destruct (decide (j = i)) as [->|Hji]; [by rewrite Hb in Ho|]. by rewrite bucket_of_without by congruence.
    + simplify_eq. rewrite Hch. split; [apply calm_cons; cbn; try done; lia|]. cbn [rc refused]. rewrite Z.add_0_r.
      destruct (decide (j = i)) as [->|Hji].
      * right. split; [lia|]. cbn [bucket_of fst snd]. rewrite decide_True by done. cbn [b_last b_excess].
        change (if NGX_OK =? NGX_OK then 1 else 0) with 1. split; [lia|].
        destruct Ho as [->|[Ht Ho]]; [pose proof (allowed_nonneg now F ltac:(lia)); lia|]. rewrite Hb in Ho.
        destruct Ho as [Hlt Ho]. pose proof (allowed_leak (b_last b) now F ltac:(lia)). lia.
      * rewrite Z.add_0_r. destruct Ho as [?|[Ht Ho]]; [by left|right]. split; [done|]. cbn [bucket_of fst snd].
        by rewrite decide_False, bucket_of_without by congruence.
  - assert (j ∉ l.*1) as Hj by (destruct (bucket_of_cases j l) as [?|[? ?]]; congruence).
    set (l1 := lru_expire 2 false now rate l) in Hl.
    set (l2 := if (1 <=? n)%nat then lru_expire 3 true now rate l1 else l1) in Hl.
    assert (calm now l2 /\ j ∉ l2.*1 /\ owed now i A (F + Z.of_nat n) l2) as (Hc2 & Hj2 & Ho2).
    { assert (forall turns forced l, j ∉ l.*1 -> j ∉ (lru_expire turns forced now rate l).*1) as Hout.
      { intros turns forced m Hm. destruct (lru_expire_prefix turns forced now rate m) as (d & Hd).
        rewrite Hd, fmap_app in Hm. by apply not_elem_of_app in Hm as [Hm _]. }
      pose proof (calm_expire 2 false now rate l now Hc) as Hc1.
      pose proof (owed_expire 2 now i A F l Hc ltac:(lia) Ho) as Ho1. fold l1 in Hc1, Ho1. unfold l2.
      destruct n as [|n]; cbn [Nat.leb].
      - split; [done|]. split; [by apply Hout|]. by rewrite Z.add_0_r.
      - split; [by apply calm_expire|]. split; [by apply Hout, Hout|].
        eapply owed_mono; [apply owed_forced; [done|lia|done]|done|lia]. }
    destruct (2 <=? n)%nat.
    + simplify_eq. cbn [rc refused]. split; [done|]. replace (A + _) with A by (case_decide; cbn; lia). done.
    + simplify_eq. cbn [rc refused]. split; [apply calm_cons; cbn; try done; lia|].
      destruct (decide (j = i)) as [->|Hji].
      * right. split; [lia|]. cbn [bucket_of fst snd]. rewrite decide_True by done. cbn [b_last b_excess].
        change (if NGX_OK =? NGX_OK then 1 else 0) with 1. split; [lia|].
        destruct Ho2 as [->|[Ht Ho2]]; [pose proof (allowed_nonneg now (F + Z.of_nat n) ltac:(lia)); lia|].
        rewrite (bucket_of_none i l2) in Ho2 by done. lia.
      * rewrite Z.add_0_r. destruct Ho2 as [?|[Ht Ho2]]; [by left|right]. split; [done|]. cbn [bucket_of fst snd].
        by rewrite decide_False by congruence.
Qed.

Lemma owed_run i u vs : forall now' A F l held rs st', calm now' l -> StronglySorted Z.le (now' :: (v_now <$> vs)) ->
  Forall (fun v => t <= v_now v <= u) vs -> u <= end_ -> 0 <= F -> owed now' i A F l ->
  lru_run (visit_op limit rate <$> vs) (refused <$> rs) (l, held) = (rs, st') -> length rs = length vs ->
  exists now, calm now st'.1 /\ owed now i (A + accepted i vs rs) (F + refusals rs) st'.1 /\ now ∈ now' :: (v_now <$> vs).
Proof.
  induction vs as [|v vs IH]; intros now' A F l held rs st' Hc Hs Hv Hu HF Ho Hr Hlen; destruct rs as [|a rs]; try done.
  - injection Hr as <-. exists now'. cbn. rewrite !Z.add_0_r. split; [done|]. split; [done|]. by left.
  - rewrite !fmap_cons in Hr. cbn [lru_run] in Hr. unfold visit_op at 1 in Hr. cbn [lru_step] in Hr.
    destruct (lru_lookup limit rate (v_now v) (v_hash v, v_key v) true (refused a) l) as [[a' l1] h] eqn:Hl.
    set (st1 := (l1, if h then <[v_worker v := (v_hash v, v_key v)]> held else held)) in Hr.
    destruct (lru_run (visit_op limit rate <$> vs) (refused <$> rs) st1) as [aa st2] eqn:Hr2.
    injection Hr as -> -> ->.
    apply list.Forall_cons in Hv as [Hv Hvs]. cbn beta in Hv. rewrite fmap_cons in Hs.
    apply StronglySorted_cons in Hs as [Hle Hs]. apply list.Forall_cons in Hle as [Hle _].
    assert (t <= v_now v <= end_) as Hvt by (split; [apply Hv|]; etransitivity; [apply Hv|exact Hu]).
    destruct (owed_lookup now' (v_now v) i (v_hash v, v_key v) A F l _ a l1 h Hc Hle Hvt HF Ho Hl) as [Hc1 Ho1].
    destruct (IH (v_now v) _ (F + Z.of_nat (refused a)) l1 _ rs st' Hc1 Hs Hvs Hu ltac:(lia) Ho1 Hr2) as (now & Hcn & Hon & Hin); [by injection Hlen|].
    exists now. split; [done|]. split; [|by right]. cbn [accepted refusals foldr]. fold (refusals rs).
    by rewrite !Z.add_assoc.
Qed.

(** *** A key that keeps to the rate *)

Variable gap : Z.
Hypothesis gap_ok : 0 <= gap /\ 1000 <= leak gap.

Definition spaced (i : ident) : list visit -> Prop :=
  StronglySorted (fun v v' => (v_hash v, v_key v) = i -> (v_hash v', v_key v') = i -> v_now v + gap <= v_now v').

Definition drained (i : ident) (vs : list visit) (l : lru) : Prop :=
  forall b, bucket_of i l = Some b ->
    b_excess b = 0 /\ Forall (fun v => (v_hash v, v_key v) = i -> b_last b + gap <= v_now v) vs.

Lemma bucket_of_expire turns forced now r i (l : lru) b :
  bucket_of i (lru_expire turns forced now r l) = Some b -> bucket_of i l = Some b.
Proof.
  destruct (lru_expire_prefix turns forced now r l) as (d & Hd). rewrite Hd at 2. clear Hd.
  induction (lru_expire turns forced now r l) as [|[j c] m IH]; [done|]. cbn. case_decide; [done|exact IH].
Qed.

(** What a request leaves of the other keys, and what it makes of its own. *)
Lemma lru_lookup_bucket now j i n (l : lru) a l' h b : lru_lookup limit rate now j true n l = (a, l', h) ->
  bucket_of i l' = Some b ->
  bucket_of i l = Some b \/ (i = j /\ b_last b = now /\ b_excess b = 0 /\ bucket_of i l = None)
  \/ exists b0, i = j /\ bucket_of i l = Some b0
     /\ b = charge now (new_excess rate (b_excess b0) (elapsed now (b_last b0))) b0.
Proof.
  unfold lru_lookup. intros Hl Hb. destruct (bucket_of j l) as [b0|] eqn:Hb0.
  - assert (forall b', bucket_of i ((j, b') :: without_id j l) = Some b ->
      bucket_of i l = Some b /\ i <> j \/ i = j /\ b = b') as Hcons.
    { intros b' H. cbn in H. destruct (decide (j = i)) as [->|Hji]; [right; by simplify_eq|left].
      rewrite bucket_of_without in H by congruence. done. }
    set (e := new_excess rate (b_excess b0) (elapsed now (b_last b0))) in *.
    destruct (e >? burst limit); simplify_eq; apply Hcons in Hb as [[Hb _]|[-> ->]]; auto. right. right. by exists b0.
  - set (l1 := lru_expire 2 false now rate l) in Hl.
    set (l2 := if (1 <=? n)%nat then lru_expire 3 true now rate l1 else l1) in Hl.
    assert (bucket_of i l2 = Some b -> bucket_of i l = Some b) as H2.
    { unfold l2. destruct (1 <=? n)%nat; intros H; [apply bucket_of_expire in H|]; by apply bucket_of_expire in H. }
    destruct (2 <=? n)%nat; simplify_eq; [left; by apply H2|]. cbn in Hb.
    destruct (decide (j = i)) as [->|Hji]; [simplify_eq; right; left; done|left; by apply H2].
Qed.

Lemma drained_lookup now' v i vs (l : lru) n a l' h : calm now' l -> now' <= v_now v -> t <= v_now v <= end_ ->
  drained i (v :: vs) l -> spaced i (v :: vs) ->
  lru_lookup limit rate (v_now v) (v_hash v, v_key v) true n l = (a, l', h) ->
  drained i vs l' /\ ((v_hash v, v_key v) = i -> rc a <> NGX_BUSY).
Proof.
  intros Hc Hn Hend Hd Hs Hl. apply StronglySorted_cons in Hs as [Hv _]. apply (calm_mono _ _ (v_now v)) in Hc; [|done].
  assert (forall b0, (v_hash v, v_key v) = i -> bucket_of i l = Some b0 ->
    new_excess rate (b_excess b0) (elapsed (v_now v) (b_last b0)) = 0
    /\ charge (v_now v) 0 b0 = {| b_last := v_now v; b_excess := 0; b_count := b_count b0 |}) as Hzero.
  { intros b0 Hi Hb0. pose proof (calm_bucket _ _ _ _ Hc Hb0) as [Hlast Hexc]. destruct (Hd b0 Hb0) as [He0 Hgap].
    apply list.Forall_cons in Hgap as [Hgap _]. specialize (Hgap Hi).
    destruct (charge_ok (v_now v) b0 Hlast ltac:(lia) Hexc) as [He Hch].
    pose proof (leak_mono gap (v_now v - b_last b0) ltac:(lia)).
    assert (new_excess rate (b_excess b0) (elapsed (v_now v) (b_last b0)) = 0) as Hz by lia. rewrite Hz in Hch. done. }
  split.
  - intros b Hb. destruct (lru_lookup_bucket _ _ _ _ _ _ _ _ _ Hl Hb) as [Hb1|[(Hi & Hlast & He & _)|(b0 & Hi & Hb0 & ->)]].
    + destruct (Hd b Hb1) as [He Hg]. split; [done|]. by apply list.Forall_cons in Hg as [_ Hg].
    + split; [done|]. rewrite Hlast. eapply Forall_impl; [|exact Hv]. cbn. intros v' H. by apply H.
    + destruct (Hzero b0 (eq_sym Hi) Hb0) as [-> ->]. split; [done|]. eapply Forall_impl; [|exact Hv]. cbn. intros v' H. by apply H.
  - intros Hi. unfold lru_lookup in Hl. rewrite Hi in Hl. destruct (bucket_of i l) as [b0|] eqn:Hb0.
    + destruct (Hzero b0 Hi eq_refl) as [Hz _]. rewrite Hz in Hl. cbn [burst] in Hl.
      revert Hl. rewrite Z.gtb_ltb. test_false (cap <? 0). intros [= <- _ _]. done.
    + cbv zeta in Hl. destruct (2 <=? n)%nat; injection Hl as <- _ _; done.
Qed.

Lemma drained_run i vs : forall now' l held rs st', calm now' l -> StronglySorted Z.le (now' :: (v_now <$> vs)) ->
  Forall (fun v => t <= v_now v <= end_) vs -> drained i vs l -> spaced i vs ->
  lru_run (visit_op limit rate <$> vs) (refused <$> rs) (l, held) = (rs, st') ->
  forall n v a, vs !! n = Some v -> rs !! n = Some a -> (v_hash v, v_key v) = i -> rc a <> NGX_BUSY.
Proof.
  induction vs as [|v vs IH]; intros now' l held rs st' Hc Hs Hv Hd Hsp Hr n v' a' Hn Ha; [done|].
  destruct rs as [|a rs]; [done|]. rewrite !fmap_cons in Hr. cbn [lru_run] in Hr. unfold visit_op at 1 in Hr.
  cbn [lru_step] in Hr.
  destruct (lru_lookup limit rate (v_now v) (v_hash v, v_key v) true (refused a) l) as [[a1 l1] h] eqn:Hl.
  set (st1 := (l1, if h then <[v_worker v := (v_hash v, v_key v)]> held else held)) in Hr.
  destruct (lru_run (visit_op limit rate <$> vs) (refused <$> rs) st1) as [aa st2] eqn:Hr2. injection Hr as -> -> ->.
  apply list.Forall_cons in Hv as [Hv Hvs]. cbn beta in Hv. rewrite fmap_cons in Hs.
  apply StronglySorted_cons in Hs as [Hle Hs]. apply list.Forall_cons in Hle as [Hle _].
  destruct (drained_lookup _ _ _ _ _ _ _ _ _ Hc Hle Hv Hd Hsp Hl) as [Hd1 Hbusy].
  destruct (owed_lookup now' (v_now v) i (v_hash v, v_key v) 0 0 l _ a l1 h Hc Hle Hv ltac:(lia) ltac:(by left) Hl) as [Hc1 _].
  destruct n as [|n]; cbn in Hn, Ha; [simplify_eq; exact Hbusy|].
  apply StronglySorted_cons in Hsp as [_ Hsp]. by eapply (IH (v_now v) l1 _ rs st').
Qed.

Lemma owed_bound now i A F (l : lru) T : calm now l -> owed now i A F l -> now <= t + T -> t + T <= end_ -> 0 <= T ->
  0 <= F -> 1000 * A <= 1000 + cap + leak T + 1000 * (T / 60000) + F * (1000 + cap).
Proof.
  intros Hc Ho Hn Hend HT HF.
  assert (allowed (t + T) F = leak T + 1000 * (T / 60000) + F * (1000 + cap)) as Hal
    by (unfold allowed; by replace (t + T - t) with T by lia).
  pose proof (allowed_nonneg (t + T) F ltac:(lia) HF).
  destruct Ho as [->|[Ht Ho]]; [lia|]. destruct (bucket_of i l) as [b|] eqn:Hb.
  - pose proof (calm_bucket _ _ _ _ Hc Hb). pose proof (allowed_mono (b_last b) (t + T) F F ltac:(lia) ltac:(lia)). lia.
  - pose proof (allowed_mono now (t + T) F F ltac:(lia) ltac:(lia)). lia.
Qed.
End Rate.

Section Rates.
Context {pool : Type} `{!Slab pool}.
Variable NGX_DEBUG : bool.
Variable fresh : ngx_rbtree_node_t.
Variable fresh_link : ngx_queue_t.

Lemma lru_run_app ops1 ops2 : forall ns1 ns2 st rs st', length ns1 = length ops1 ->
  lru_run (ops1 ++ ops2) (ns1 ++ ns2) st = (rs, st') ->
  exists rs1 st1 rs2, lru_run ops1 ns1 st = (rs1, st1) /\ lru_run ops2 ns2 st1 = (rs2, st') /\ rs = rs1 ++ rs2
    /\ length rs1 = length ops1.
Proof.
  induction ops1 as [|op ops1 IH]; intros [|n ns1] ns2 st rs st' Hlen Hr; try done.
  - by exists [], st, rs.
  - cbn [app lru_run] in Hr. cbn [lru_run]. destruct (lru_step op n st) as [a sta].
    destruct (lru_run (ops1 ++ ops2) (ns1 ++ ns2) sta) as [aa stb] eqn:Hrb. injection Hr as <- <-.
    destruct (IH ns1 ns2 sta aa stb ltac:(by injection Hlen) Hrb) as (rs1 & st1 & rs2 & -> & H2 & -> & Hl).
    exists (a :: rs1), st1, rs2. cbn. by rewrite Hl.
Qed.

Lemma zone_run_length ops : forall st rs st',
  zone_run NGX_DEBUG fresh fresh_link ops st = Some (rs, st') -> length rs = length ops.
Proof.
  induction ops as [|op ops IH]; intros st rs st' H; cbn in H; [by simplify_eq|].
  destruct (zone_step _ _ _ op st) as [[a st1]|]; [|done]. cbn [mbind option_bind] in H.
  destruct (zone_run _ _ _ ops st1) as [[rs1 st2]|] eqn:Hr; [|done]. cbn in H. simplify_eq. cbn. f_equal. by eapply IH.
Qed.

Definition visit_ok (v : visit) : Prop := key_ok (v_key v).

(** The requests at a new zone, as requests at a list. *)
Lemma visits_run name_len P z limit r vs :
  ngx_http_limit_req_init_zone fresh fresh_link name_len P = Some (Some z) ->
  Forall visit_ok vs -> Z.of_nat (length vs) < 2 ^ 64 ->
  exists rs st sp, zone_run NGX_DEBUG fresh fresh_link (visit_op limit r <$> vs) (z, ∅) = Some (rs, st)
    /\ lru_run (visit_op limit r <$> vs) (refused <$> rs) ([], ∅) = (rs, sp) /\ length rs = length vs.
Proof.
  intros Hi Hok Hlen. apply init_zone_ok in Hi.
  pose proof (world_init z Hi) as H0.
  assert (Forall zone_op_ok (visit_op limit r <$> vs)) as Hok' by (apply Forall_fmap; exact Hok).
  destruct (world_run NGX_DEBUG fresh fresh_link (visit_op limit r <$> vs) 0 _ _ H0 ltac:(lia) ltac:(rewrite length_fmap; lia) Hok') as (rs & st & sp & Hr & Hs & _).
  exists rs, st, sp. do 2 (split; [done|]). apply zone_run_length in Hr. by rewrite length_fmap in Hr.
Qed.

(** C7: The rate limit holds, for a location with one limit, whose every lookup charges the
    bucket at once ([account] is 1).  Of the requests of one key that reach a zone within any
    time of [T] milliseconds, whatever was before and whatever other keys are looked up, the
    accepted ones are no more than one, the burst and what the rate gives for that time, and
    besides: one for every minute, since an idle bucket is deleted and a new one does not
    count its first request; and one and a burst for every time that the allocator had no
    block, when a bucket is deleted by force with all that it owed.  ([rate] and [burst] are
    in thousandths of a request; the clocks are those of the workers, and do not go back.) *)
Theorem ngx_http_limit_req_rate name_len P z limit r (i : ident) vs0 vs t T :
  ngx_http_limit_req_init_zone fresh fresh_link name_len P = Some (Some z) ->
  Forall visit_ok (vs0 ++ vs) -> Z.of_nat (length (vs0 ++ vs)) < 2 ^ 64 ->
  StronglySorted Z.le (v_now <$> vs0 ++ vs) ->
  Forall (fun v => 0 <= v_now v <= t) vs0 -> Forall (fun v => t <= v_now v <= t + T) vs ->
  0 <= t -> 0 <= T -> 0 <= r -> 0 <= burst limit < 2 ^ 62 -> t + T < 2 ^ 62 -> r * (t + T) < 2 ^ 62 ->
  exists rs st, zone_run NGX_DEBUG fresh fresh_link (visit_op limit r <$> vs0 ++ vs) (z, ∅) = Some (rs, st)
    /\ let rs := drop (length vs0) rs in
       1000 * accepted i vs rs
       <= 1000 + burst limit + r * T / 1000 + 1000 * (T / 60000) + (1000 + burst limit) * refusals rs.
Proof.
  intros Hi Hok Hlen Hsort Hv0 Hv Ht HT Hr Hb HtT HrT.
  destruct (visits_run name_len P z limit r (vs0 ++ vs) Hi Hok Hlen) as (rs & st & sp & Hrun & Hspec & Hrl).
  exists rs, st. split; [done|]. cbv zeta. destruct limit as [cap del]. cbn [burst] in *.
  rewrite <- (take_drop (length vs0) rs) in Hspec at 1. rewrite !fmap_app in Hspec.
  rewrite length_app in Hrl.
  apply lru_run_app in Hspec as (rs1 & [l1 held1] & rs2 & H1 & H2 & Hrs & Hl1); [|rewrite !length_fmap, length_take; lia].
  rewrite length_fmap in Hl1. rewrite <- (take_drop (length vs0) rs) in Hrs.
  apply app_inj_1 in Hrs as [<- <-]; [|rewrite length_take; lia].
  rewrite fmap_app in Hsort. apply StronglySorted_app in Hsort as (Hcross & Hs0 & Hs1).
  assert (forall x, x ∈ v_now <$> vs0 -> 0 <= x) as Hpos.
  { intros x (v & -> & Hin)%list_elem_of_fmap. rewrite list.Forall_forall in Hv0. by apply Hv0. }
  assert (forall x, x ∈ v_now <$> vs -> t <= x) as Hpos'.
  { intros x (v & -> & Hin)%list_elem_of_fmap. rewrite list.Forall_forall in Hv. by apply Hv. }
  destruct (owed_run r cap (t + T) Hr Hb ltac:(lia) HrT 0 ltac:(lia) del i (t + T) vs0 0 0 0 [] ∅
    (take (length vs0) rs) (l1, held1)) as (now0 & Hc0 & _ & Hin0); [| | |lia|lia|by left|exact H1|by rewrite length_take; lia|].
  { split; constructor. }
  { apply StronglySorted_cons. split; [|done]. by apply list.Forall_forall. }
  { eapply Forall_impl; [|exact Hv0]. cbn. lia. }
  destruct (owed_run r cap (t + T) Hr Hb ltac:(lia) HrT t ltac:(lia) del i (t + T) vs now0 0 0 l1 held1
    (drop (length vs0) rs) sp) as (now1 & Hc1 & Ho1 & Hin1); [done| |done|lia|lia|by left|exact H2|by rewrite length_drop; lia|].
  { apply StronglySorted_cons. split; [|done]. apply list.Forall_forall. intros x Hx.
    apply elem_of_cons in Hin0 as [->|Hin0]; [specialize (Hpos' x Hx); lia|by apply Hcross]. }
  pose proof (refusals_nonneg (drop (length vs0) rs)) as HF.
  assert (now1 <= t + T) as Hn1.
  { rewrite list.Forall_forall in Hv0, Hv. apply elem_of_cons in Hin1 as [->|(v & -> & Hin)%list_elem_of_fmap]; [|by apply Hv].
    apply elem_of_cons in Hin0 as [->|(v & -> & Hin)%list_elem_of_fmap]; [lia|]. specialize (Hv0 v Hin). cbn in Hv0. lia. }
  apply (owed_bound r cap (t + T) Hr Hb t now1 i _ _ _ T Hc1) in Ho1 as H; [|lia..].
  unfold leak in H. lia.
Qed.

(** C18: A key that keeps to the rate is not refused.  If the requests of a key are so far
    apart that the rate gives a whole request in between, then whatever other keys are
    looked up, and even if its bucket is deleted in between, none of its requests is
    refused as one too many. *)
Theorem ngx_http_limit_req_admits name_len P z limit r (i : ident) vs gap last_ :
  ngx_http_limit_req_init_zone fresh fresh_link name_len P = Some (Some z) ->
  Forall visit_ok vs -> Z.of_nat (length vs) < 2 ^ 64 ->
  StronglySorted Z.le (v_now <$> vs) -> Forall (fun v => 0 <= v_now v <= last_) vs ->
  0 <= r -> 0 <= burst limit < 2 ^ 62 -> 0 <= last_ < 2 ^ 62 -> r * last_ < 2 ^ 62 ->
  0 <= gap -> 1000 <= r * gap / 1000 -> spaced gap i vs ->
  exists rs st, zone_run NGX_DEBUG fresh fresh_link (visit_op limit r <$> vs) (z, ∅) = Some (rs, st)
    /\ length rs = length vs
    /\ forall n v a, vs !! n = Some v -> rs !! n = Some a -> (v_hash v, v_key v) = i -> rc a <> NGX_BUSY.
Proof.
  intros Hi Hok Hlen Hsort Hv Hr Hb Hl Hrl Hg Hgr Hsp.
  destruct (visits_run name_len P z limit r vs Hi Hok Hlen) as (rs & st & sp & Hrun & Hspec & Hlr).
  exists rs, st. do 2 (split; [done|]). destruct limit as [cap del]. cbn [burst] in *.
  eapply (drained_run r cap last_ Hr Hb Hl Hrl 0 ltac:(lia) del gap (conj Hg Hgr) i vs 0 []); [| |exact Hv| |exact Hsp|exact Hspec].
  { split; constructor. }
  { apply StronglySorted_cons. split; [|done]. apply list.Forall_forall. intros x (v & -> & Hin)%list_elem_of_fmap.
    rewrite list.Forall_forall in Hv. by apply Hv. }
  by intros b Hbk.
Qed.
End Rates.

(** Requests of two keys, at 2 a second with a burst of 1. *)
Definition some_visits : list visit :=
  (fun e => {| v_worker := 0; v_now := e.1; v_hash := 97; v_key := e.2 |}) <$>
    [(100000, bs "a"); (100000, bs "b"); (100010, bs "a"); (100020, bs "a"); (100520, bs "a"); (100520, bs "b");
     (101020, bs "b")].

Lemma some_visits_ok : Forall visit_ok some_visits.
Proof. apply (Forall_check (fun v => key_check (v_key v))); [|reflexivity]. intros v. apply key_check_ok. Qed.

Lemma ngx_http_limit_req_rate_witness :
  exists rs st, zone_run true (blank 0) no_link (visit_op a_limit 2000 <$> [] ++ some_visits) (few_zone, ∅) = Some (rs, st)
    /\ let rs := drop 0 rs in
       1000 * accepted (97, bs "a") some_visits rs
       <= 1000 + 1000 + 2000 * 1020 / 1000 + 1000 * (1020 / 60000) + (1000 + 1000) * refusals rs.
Proof.
  apply (ngx_http_limit_req_rate true (blank 0) no_link 3 few_blocks few_zone a_limit 2000 (97, bs "a") [] some_visits 100000 1020).
  - exact (proj2_sig few_blocks_zone).
  - exact some_visits_ok.
  - reflexivity.
  - repeat constructor; cbn; lia.
  - constructor.
  - repeat constructor; cbn; lia.
  - lia.
  - lia.
  - lia.
  - cbn. lia.
  - lia.
  - lia.
Defined.

Lemma ngx_http_limit_req_admits_witness :
  exists rs st, zone_run true (blank 0) no_link (visit_op a_limit 2000 <$> some_visits) (few_zone, ∅) = Some (rs, st)
    /\ length rs = length some_visits
    /\ forall n v a, some_visits !! n = Some v -> rs !! n = Some a -> (v_hash v, v_key v) = (97, bs "b") -> rc a <> NGX_BUSY.
Proof.
  apply (ngx_http_limit_req_admits true (blank 0) no_link 3 few_blocks few_zone a_limit 2000 (97, bs "b") some_visits 500 101020).
  - exact (proj2_sig few_blocks_zone).
  - exact some_visits_ok.
  - reflexivity.
  - repeat constructor; cbn; lia.
  - repeat constructor; cbn; lia.
  - lia.
  - cbn. lia.
  - lia.
  - lia.
  - lia.
  - discriminate.
  - unfold spaced, some_visits. cbn. repeat constructor; cbn; intros; try lia; done.
Defined.

(** A rate of one request a minute is kept as 16 thousandths of a request a second, so a
    second request after exactly a minute is refused. *)
Example one_a_minute :
  map (fun a => (rc a, ep a))
    (lru_run (visit_op {| burst := 0; delay := 0 |} (1 * 1000 / 60) <$>
       [{| v_worker := 0; v_now := 100000; v_hash := 97; v_key := bs "a" |};
        {| v_worker := 0; v_now := 160000; v_hash := 97; v_key := bs "a" |}]) [0; 0]%nat ([], ∅)).1
  = [(NGX_OK, 0); (NGX_BUSY, 40)].
Proof. reflexivity. Qed.
