(* ===== verification/LimitHandler.v ===== *)
(** * LimitHandler: the handler of ngx_http_limit_req_module.c

    A location may have several limits; the handler looks a request up in all their zones
    before it is charged to any. *)

From stdpp Require Import gmap sorting.
From S2P Require Import Prelude Crc32 Queue Rbtree LimitReq.

Section Handler.
Context {pool : Type} `{!Slab pool}.
Variable NGX_DEBUG : bool.
(** What is in a block that was just allocated. *)
Variable fresh : ngx_rbtree_node_t.
Variable fresh_link : ngx_queue_t.

(** ** The handler of a request, with all the limits of its location *)

Record slot := {
  s_limit : ngx_http_limit_req_limit_t;
  s_ctx : ngx_http_limit_req_ctx_t;
  s_zone : zone pool;
}.

Definition put_slot (n : nat) (s : slot) (ctx : ngx_http_limit_req_ctx_t) (z : zone pool) (ss : list slot)
    : list slot :=
  <[n := {| s_limit := s_limit s; s_ctx := ctx; s_zone := z |}]> ss.

(** The loop over the limits, from the [n]-th on; [keys] are the values of their keys for the
    request, which may fail to be computed.  It ends with the code, the excess and [n], or
    with [n] only if a key failed. *)
Fixpoint lookup_limits (now : Z) (keys : list (option (list Z))) (n : nat) (code excess : Z) (ss : list slot)
    : option ((nat + Z * Z * nat) * list slot) :=
  match keys with
  | [] => Some (inr (code, excess, n), ss)
  | None :: _ => Some (inl n, ss)
  | Some k :: keys =>
      if (length k =? 0)%nat then lookup_limits now keys (S n) code excess ss
      else if 65535 <? Z.of_nat (length k) then lookup_limits now keys (S n) code excess ss
      else
        hash ← ngx_crc32_short k;
        s ← ss !! n;
        '(a, ctx, z) ← ngx_http_limit_req_lookup NGX_DEBUG fresh fresh_link (s_limit s) now hash k
                         (n =? length ss - 1)%nat (s_ctx s) (s_zone s);
        let ss := put_slot n s ctx z ss in
        if negb (rc a =? NGX_AGAIN) then Some (inr (rc a, ep a, n), ss)
        else lookup_limits now keys (S n) (rc a) (ep a) ss
  end.

(** [while (n--)]. *)
Fixpoint ngx_http_limit_req_unlock (n : nat) (ss : list slot) : option (list slot) :=
  match n with
  | O => Some ss
  | S n =>
      s ← ss !! n;
      '(ctx, z) ← unlock_zone (s_ctx s) (s_zone s);
      ngx_http_limit_req_unlock n (put_slot n s ctx z ss)
  end.

(** How long a request waits for its excess. *)
Definition delay_of (s : slot) (excess : Z) : Z :=
  if excess <=? delay (s_limit s) then 0
  else u64 (u64 (excess - delay (s_limit s)) * 1000) / rate (s_ctx s).

Fixpoint account_loop (now : Z) (n : nat) (max_delay : Z) (ss : list slot) : option (Z * list slot) :=
  match n with
  | O => Some (max_delay, ss)
  | S n =>
      s ← ss !! n;
      '(e, ctx, z) ← account_zone now (s_ctx s) (s_zone s);
      let ss := put_slot n s ctx z ss in
      match e with
      | None => account_loop now n max_delay ss
      | Some e =>
          let delay := delay_of s e in
          account_loop now n (if delay >? max_delay then delay else max_delay) ss
      end
  end.

Definition ngx_http_limit_req_account (now : Z) (limit n : nat) (excess : Z) (ss : list slot)
    : option (Z * list slot) :=
  s ← ss !! limit;
  account_loop now n (delay_of s excess) ss.

Definition NGX_HTTP_INTERNAL_SERVER_ERROR : Z := 500.
Definition NGX_HTTP_LIMIT_REQ_PASSED : Z := 1.
Definition NGX_HTTP_LIMIT_REQ_DELAYED : Z := 2.
Definition NGX_HTTP_LIMIT_REQ_REJECTED : Z := 3.
Definition NGX_HTTP_LIMIT_REQ_DELAYED_DRY_RUN : Z := 4.
Definition NGX_HTTP_LIMIT_REQ_REJECTED_DRY_RUN : Z := 5.

Record ngx_http_limit_req_conf_t := {
  status_code : Z;
  dry_run : bool;
}.

(** What the handler returns, the [limit_req_status] it leaves, and the timer it sets. *)
Record outcome := { returns : Z; limit_req_status : Z; timer : option Z }.

(** The end, for a request that is not refused: [read_ok] tells whether the read event is
    ready or could be handled. *)
Definition delayed (lrcf : ngx_http_limit_req_conf_t) (read_ok : bool) (delay : Z) : outcome :=
  if delay =? 0 then
    {| returns := NGX_DECLINED; limit_req_status := NGX_HTTP_LIMIT_REQ_PASSED; timer := None |}
  else if dry_run lrcf then
    {| returns := NGX_DECLINED; limit_req_status := NGX_HTTP_LIMIT_REQ_DELAYED_DRY_RUN; timer := None |}
  else if negb read_ok then
    {| returns := NGX_HTTP_INTERNAL_SERVER_ERROR; limit_req_status := NGX_HTTP_LIMIT_REQ_DELAYED; timer := None |}
  else
    {| returns := NGX_AGAIN; limit_req_status := NGX_HTTP_LIMIT_REQ_DELAYED; timer := Some delay |}.

Definition rejected (lrcf : ngx_http_limit_req_conf_t) : outcome :=
  if dry_run lrcf then
    {| returns := NGX_DECLINED; limit_req_status := NGX_HTTP_LIMIT_REQ_REJECTED_DRY_RUN; timer := None |}
  else
    {| returns := status_code lrcf; limit_req_status := NGX_HTTP_LIMIT_REQ_REJECTED; timer := None |}.

Definition ngx_http_limit_req_handler (lrcf : ngx_http_limit_req_conf_t) (now : Z) (read_ok : bool)
    (status : Z) (keys : list (option (list Z))) (ss : list slot) : option (outcome * list slot) :=
  if negb (status =? 0) then Some ({| returns := NGX_DECLINED; limit_req_status := status; timer := None |}, ss)
  else
    '(r, ss) ← lookup_limits now keys 0 NGX_DECLINED 0 ss;
    match r with
    | inl n =>
        ss ← ngx_http_limit_req_unlock n ss;
        Some ({| returns := NGX_HTTP_INTERNAL_SERVER_ERROR; limit_req_status := 0; timer := None |}, ss)
    | inr (rc, excess, n) =>
        if rc =? NGX_DECLINED then
          Some ({| returns := NGX_DECLINED; limit_req_status := 0; timer := None |}, ss)
        else if (rc =? NGX_BUSY) || (rc =? NGX_ERROR) then
          ss ← ngx_http_limit_req_unlock n ss;
          Some (rejected lrcf, ss)
        else
          let excess := if rc =? NGX_AGAIN then 0 else excess in
          let limit := if (n =? length ss)%nat then (n - 1)%nat else n in
          '(delay, ss) ← ngx_http_limit_req_account now limit n excess ss;
          Some (delayed lrcf read_ok delay, ss)
    end.

(** ** One limit *)

Definition id_of (k : list Z) : ident := (crc32 k, k).

(** The zone of the slot is the list [l], and no request of this worker is counted there. *)
Definition idle (s : slot) (l : lru) : Prop :=
  (exists E, zrep (s_zone s) E /\ l = E.*2) /\ ctx_node (s_ctx s) = None.

(** The slots are of the same limit. *)
Definition same_limit (s s' : slot) : Prop := s_limit s' = s_limit s /\ rate (s_ctx s') = rate (s_ctx s).

(** The excess that a request makes of the bucket of its key.  A new bucket starts with
    nothing, and [now] for its time in the last of the limits, 0 in the others. *)
Definition excess_at (now rate : Z) (is_last : bool) (i : ident) (l : lru) : Z :=
  match bucket_of i l with
  | Some b => new_excess rate (b_excess b) (elapsed now (b_last b))
  | None => if is_last then 0 else new_excess rate 0 (elapsed now 0)
  end.

Definition others (i : ident) (l l' : lru) : Prop := forall j b, (j, b) ∈ l' -> j <> i -> (j, b) ∈ l.

(** The request is charged to its bucket, and to no other. *)
Definition charged (now : Z) (is_last : bool) (s : slot) (k : list Z) (l l' : lru) : Prop :=
  (exists b, (id_of k, b) ∈ l' /\ b_excess b = excess_at now (rate (s_ctx s)) is_last (id_of k) l
    /\ elapsed now (b_last b) = 0 /\ b_count b = from_option b_count 0 (bucket_of (id_of k) l))
  /\ (is_Some (bucket_of (id_of k) l) ->
      excess_at now (rate (s_ctx s)) is_last (id_of k) l <= burst (s_limit s))
  /\ others (id_of k) l l'.

(** The request is charged to no bucket; there may be an empty one for its key now. *)
Definition uncharged (i : ident) (l l' : lru) : Prop :=
  forall j b, (j, b) ∈ l' ->
    (j, b) ∈ l \/ (j = i /\ bucket_of i l = None /\ b = {| b_last := 0; b_excess := 0; b_count := 0 |}).

(** The bucket of the key has no room for the request. *)
Definition over (now : Z) (s : slot) (k : list Z) (l : lru) : Prop :=
  exists b, bucket_of (id_of k) l = Some b
    /\ burst (s_limit s) < new_excess (rate (s_ctx s)) (b_excess b) (elapsed now (b_last b)).

(** The request is counted at the node of its key, for now. *)
Definition pending (now : Z) (s0 : slot) (k : list Z) (l0 : lru) (s : slot) : Prop :=
  exists E p b, zrep (s_zone s) E /\ ctx_node (s_ctx s) = Some p /\ (p, (id_of k, b)) ∈ E /\ 1 <= b_count b < 2 ^ 64
    /\ b <| b_count := b_count b - 1 |> = default {| b_last := 0; b_excess := 0; b_count := 0 |} (bucket_of (id_of k) l0)
    /\ (is_Some (bucket_of (id_of k) l0) -> excess_at now (rate (s_ctx s0)) false (id_of k) l0 <= burst (s_limit s0))
    /\ others (id_of k) l0 E.*2.

Definition lookup_slot (now : Z) (is_last : bool) (k : list Z) (s : slot) : option (answer * slot) :=
  hash ← ngx_crc32_short k;
  '(a, ctx, z) ← ngx_http_limit_req_lookup NGX_DEBUG fresh fresh_link (s_limit s) now hash k is_last (s_ctx s) (s_zone s);
  Some (a, {| s_limit := s_limit s; s_ctx := ctx; s_zone := z |}).

(** The allocator had no block. *)
Definition no_memory : Prop := exists (size : nat) (P P' : pool), ngx_slab_alloc_locked size P = (None, P').

Definition looked_up (now : Z) (is_last : bool) (k : list Z) (s : slot) (l : lru) (a : answer) (s' : slot) : Prop :=
  (rc a = NGX_AGAIN /\ is_last = false /\ pending now s k l s')
  \/ (rc a = NGX_OK /\ is_last = true /\ ep a = excess_at now (rate (s_ctx s)) true (id_of k) l
      /\ exists l', idle s' l' /\ charged now true s k l l')
  \/ (rc a = NGX_BUSY /\ over now s k l /\ exists l', idle s' l' /\ uncharged (id_of k) l l')
  \/ (rc a = NGX_ERROR /\ (2 <= refused a)%nat /\ exists l', idle s' l' /\ uncharged (id_of k) l l').

Lemma without_id_incl i e (l : lru) : e ∈ without_id i l -> e ∈ l.
Proof. unfold without_id. by intros [_ Hin]%list_elem_of_filter. Qed.

Lemma elapsed_now now : elapsed now now = 0.
Proof. unfold elapsed. by rewrite Z.sub_diag. Qed.

Lemma charge_elapsed now e b : elapsed now (b_last (charge now e b)) = 0.
Proof.
  unfold charge. cbn. destruct (Z.eqb_spec (elapsed now (b_last b)) 0) as [H|H]; [exact H|apply elapsed_now].
Qed.

Lemma charge_excess now e b : b_excess (charge now e b) = e.
Proof. unfold charge. cbn. by destruct (elapsed now (b_last b) =? 0). Qed.

Lemma lookup_slot_ok now is_last k s l : idle s l -> counts_ok l -> key_ok k ->
  exists a s', lookup_slot now is_last k s = Some (a, s') /\ same_limit s s' /\ looked_up now is_last k s l a s'.
Proof.
  intros [(E & Hz & ->) Hctx] Hcnt Hk. unfold lookup_slot. rewrite ngx_crc32_short_ok by apply Hk. cbn [mbind option_bind].
  destruct (ngx_http_limit_req_lookup_ok NGX_DEBUG fresh fresh_link (s_zone s) E (s_limit s) now (crc32 k) k is_last (s_ctx s) Hz Hk Hcnt)
    as (a & ctx' & z' & E' & h & -> & Hz' & Hsh & Hspec & Hctx' & _).
  cbn [mbind option_bind]. do 2 eexists. split; [reflexivity|].
  assert (rate ctx' = rate (s_ctx s)) as Hrate by (destruct h; [by destruct Hctx' as (p & b' & -> & _)|by subst]).
  split; [done|]. change (crc32 k, k) with (id_of k) in *.
  assert (h = false -> forall P : lru -> Prop, P E'.*2 -> exists l', idle {| s_limit := s_limit s; s_ctx := ctx'; s_zone := z' |} l' /\ P l') as Hidle.
  { intros -> P HP. subst ctx'. exists E'.*2. split; [|done]. split; [by exists E'|done]. }
  unfold lru_lookup in Hspec. unfold looked_up, charged, uncharged, pending, over, excess_at, others.
  destruct (bucket_of (id_of k) E.*2) as [b|] eqn:Hb.
  - pose proof (bucket_of_in _ _ _ Hb) as Hbin.
    assert (0 <= b_count b < 2 ^ 64 - 1) as Hbc by (unfold counts_ok in Hcnt; rewrite list.Forall_forall in Hcnt; by apply (Hcnt (id_of k, b))).
    set (e := new_excess (rate (s_ctx s)) (b_excess b) (elapsed now (b_last b))) in *.
    destruct (Z.gtb_spec e (burst (s_limit s))) as [Hgt|Hle]; [|destruct is_last].
    + injection Hspec as Ha Hl <-. subst a. right. right. left. split; [done|]. split; [by exists b|].
      apply Hidle; [done|]. rewrite <- Hl. intros j c [[= -> ->]|Hin]%elem_of_cons; left; [done|by apply without_id_incl in Hin].
    + injection Hspec as Ha Hl <-. subst a. right. left. do 3 (split; [done|]).
      apply Hidle; [done|]. rewrite <- Hl. split; [|split; [done|]].
      * exists (charge now e b). split; [by left|]. by rewrite charge_excess, charge_elapsed, charge_count.
      * intros j c [[= -> ->]|Hin]%elem_of_cons Hne; [done|by apply without_id_incl in Hin].
    + injection Hspec as Ha Hl <-. subst a. left. do 2 (split; [done|]).
      destruct Hctx' as (p & b' & -> & Hin). exists E', p, b'. do 3 (split; [done|]).
      pose proof (cell_entry _ _ _ Hin) as Hin'. rewrite <- Hl in Hin' |- *.
      apply elem_of_cons in Hin' as [[= ->]|Hin']; [|by apply (list_elem_of_fmap_2 fst), without_not_in in Hin'].
      cbn. split; [lia|]. split; [destruct b; cbn; f_equal; lia|]. split; [done|].
      intros j c [[= -> ->]|Hjc]%elem_of_cons Hne; [done|by apply without_id_incl in Hjc].
  - set (l1 := lru_expire 2 false now (rate (s_ctx s)) E.*2) in Hspec. 
    set (l2 := if (1 <=? refused a)%nat then lru_expire 3 true now (rate (s_ctx s)) l1 else l1) in Hspec.
    assert (forall x, x ∈ l2 -> x ∈ E.*2) as Hinc.
    { intros x Hx. unfold l2 in Hx. destruct (1 <=? refused a)%nat; [apply lru_expire_incl in Hx|]; by apply lru_expire_incl in Hx. }
    assert (forall b, (id_of k, b) ∉ E.*2) as Hno.
    { intros b Hin. destruct (bucket_of_cases (id_of k) E.*2) as [Hn|[? ?]]; [|congruence].
      apply Hn. by apply (list_elem_of_fmap_2 fst _ (id_of k, b)). }
    destruct (Nat.leb_spec 2 (refused a)) as [Hr|Hr]; [|destruct is_last].
    + injection Hspec as Ha Hl <-. do 3 right. rewrite <- Ha. split; [done|]. split; [done|].
      apply Hidle; [done|]. rewrite <- Hl. intros j c Hin. left. by apply Hinc.
    + injection Hspec as Ha Hl <-. right. left. rewrite <- Ha. do 3 (split; [done|]).
      apply Hidle; [done|]. rewrite <- Hl. split; [|split; [by intros []|]].
      * eexists. split; [by left|]. cbn. by rewrite elapsed_now.
      * intros j c [[= -> ->]|Hin]%elem_of_cons Hne; [done|by apply Hinc].
    + injection Hspec as Ha Hl <-. left. rewrite <- Ha. do 2 (split; [done|]).
      destruct Hctx' as (p & b' & -> & Hin). exists E', p, b'. do 3 (split; [done|]).
      pose proof (cell_entry _ _ _ Hin) as Hin'. rewrite <- Hl in Hin' |- *.
      apply elem_of_cons in Hin' as [[= ->]|Hin']; [|by apply Hinc, Hno in Hin'].
      cbn. split; [lia|]. split; [done|]. split; [by intros []|].
      intros j c [[= -> ->]|Hjc]%elem_of_cons Hne; [done|by apply Hinc].
Qed.

(** *** Afterwards *)

Definition unlock_slot (s : slot) : option slot :=
  '(ctx, z) ← unlock_zone (s_ctx s) (s_zone s); Some {| s_limit := s_limit s; s_ctx := ctx; s_zone := z |}.
Definition account_slot (now : Z) (s : slot) : option (option Z * slot) :=
  '(e, ctx, z) ← account_zone now (s_ctx s) (s_zone s);
  Some (e, {| s_limit := s_limit s; s_ctx := ctx; s_zone := z |}).

(** The bucket of a pending request is given another value. *)
Lemma pending_set s E p k b b' (l0 : lru) ctx z lim : zrep (s_zone s) E -> (p, (id_of k, b)) ∈ E ->
  others (id_of k) l0 E.*2 -> z = set_node p (node_of (id_of k, b')) (s_zone s) -> ctx_node ctx = None ->
  exists l', idle {| s_limit := lim; s_ctx := ctx; s_zone := z |} l' /\ (id_of k, b') ∈ l'
    /\ (forall c, (id_of k, c) ∈ l' -> c = b') /\ others (id_of k) l0 l'.
Proof.
  intros Hz Hin Ho -> Hctx. destruct (counted_down _ _ _ _ _ b' Hz Hin) as (E' & Hz' & HE' & Hb & Hin' & _).
  exists E'.*2. split; [split; [by exists E'|done]|]. split; [by eapply cell_entry|].
  rewrite HE'. unfold set_bucket. split.
  - intros c ([j d] & Heq & Hjd)%list_elem_of_fmap. cbn in Heq. case_decide as Hj; simplify_eq; done.
  - intros j c ([j' d] & Heq & Hjd)%list_elem_of_fmap Hne. cbn in Heq. case_decide as Hj; simplify_eq. by apply Ho.
Qed.

Lemma unlock_slot_ok now s0 k l0 s : pending now s0 k l0 s ->
  exists s' l', unlock_slot s = Some s' /\ same_limit s s' /\ idle s' l' /\ uncharged (id_of k) l0 l'.
Proof.
  intros (E & p & b & Hz & Hctx & Hin & Hb & Hold & _ & Ho). unfold unlock_slot.
  rewrite (unlock_zone_ok _ E (s_ctx s) p (id_of k) b Hz Hctx Hin Hb). cbn [mbind option_bind].
  destruct (pending_set s E p k b (b <| b_count := b_count b - 1 |>) l0 ((s_ctx s) <| ctx_node := None |>) _ (s_limit s) Hz Hin Ho eq_refl)
    as (l' & Hidle & _ & Hall & Ho'); [done|].
  do 2 eexists. split; [reflexivity|]. split; [done|]. split; [exact Hidle|].
  intros j c Hjc. destruct (decide (j = id_of k)) as [->|Hne]; [|left; by apply Ho'].
  apply Hall in Hjc as ->. rewrite Hold. destruct (bucket_of (id_of k) l0) as [b0|] eqn:Hb0; [|by right].
  left. by apply bucket_of_in.
Qed.

Lemma account_slot_ok now s0 k l0 s : pending now s0 k l0 s -> same_limit s0 s ->
  exists s' l', account_slot now s = Some (Some (excess_at now (rate (s_ctx s0)) false (id_of k) l0), s')
    /\ same_limit s s' /\ idle s' l' /\ charged now false s0 k l0 l'.
Proof.
  intros (E & p & b & Hz & Hctx & Hin & Hb & Hold & Hover & Ho) [Hlim Hrate]. unfold account_slot.
  rewrite (account_zone_ok _ E now (s_ctx s) p (id_of k) b Hz Hctx Hin Hb). cbn [mbind option_bind].
  destruct (discharge (rate (s_ctx s)) now b) as [e b'] eqn:Hd. cbn [fst snd].
  destruct (pending_set s E p k b b' l0 ((s_ctx s) <| ctx_node := None |>) _ (s_limit s) Hz Hin Ho eq_refl)
    as (l' & Hidle & Hin' & _ & Ho'); [done|].
  apply pair_equal_spec in Hd as [He Hb']. rewrite Hold in Hb'.
  assert (e = excess_at now (rate (s_ctx s0)) false (id_of k) l0) as Hex.
  { rewrite <- He, Hrate. unfold excess_at.
    replace (b_excess b) with (b_excess (b <| b_count := b_count b - 1 |>)) by done.
    replace (b_last b) with (b_last (b <| b_count := b_count b - 1 |>)) by done. rewrite Hold.
    by destruct (bucket_of (id_of k) l0). }
  rewrite <- Hex. do 2 eexists. split; [reflexivity|]. split; [done|]. split; [exact Hidle|].
  split; [|split; [done|exact Ho']]. exists b'. split; [done|].
  rewrite <- Hb', charge_excess, charge_elapsed, charge_count, He. split; [done|]. split; [done|].
  by destruct (bucket_of (id_of k) l0).
Qed.

(** ** The loops *)

(** Whether the handler looks a key up. *)
Definition relevant (k : list Z) : bool := negb (length k =? 0)%nat && (Z.of_nat (length k) <=? MAX_KEY).

Section Request.
Variable now : Z.
Variable keys : list (option (list Z)).
(** The slots, and what their zones hold, before the request. *)
Variable ss0 : list slot.
Variable ls0 : list lru.

Definition is_last (n : nat) : bool := (n =? length ss0 - 1)%nat.

Hypothesis idle0 : forall n s l, ss0 !! n = Some s -> ls0 !! n = Some l -> idle s l /\ counts_ok l /\ 0 <= delay (s_limit s) /\ 0 < rate (s_ctx s).
Hypothesis same_length : length ls0 = length ss0 /\ length keys = length ss0.
Hypothesis keys_ok : forall n k, keys !! n = Some (Some k) -> bytes_ok k.

(** The [n]-th limit, its zone before and its key. *)
Definition at_limit (n : nat) (s : slot) (l : lru) (k : option (list Z)) : Prop :=
  ss0 !! n = Some s /\ ls0 !! n = Some l /\ keys !! n = Some k.

(** What the [n]-th limit looks like after it was passed in the first loop. *)
Definition passed (n : nat) (s' : slot) : Prop :=
  exists s l k, at_limit n s l (Some k) /\ same_limit s s'
    /\ if relevant k then is_last n = false /\ pending now s k l s' else s' = s.

(** The [n]-th limit when the first loop stopped at it. *)
Definition stopped (n : nat) (c e : Z) (s' : slot) : Prop :=
  exists s l k a, at_limit n s l (Some k) /\ same_limit s s' /\ relevant k = true
    /\ lookup_slot now (is_last n) k s = Some (a, s') /\ looked_up now (is_last n) k s l a s' /\ rc a = c /\ ep a = e /\ c <> NGX_AGAIN.

Lemma at_limit_exists n : (n < length ss0)%nat -> exists s l k, at_limit n s l k.
Proof.
  intros Hn. destruct (lookup_lt_is_Some_2 ss0 n Hn) as [s Hs].
  destruct (lookup_lt_is_Some_2 ls0 n ltac:(lia)) as [l Hl]. destruct (lookup_lt_is_Some_2 keys n ltac:(lia)) as [k Hk].
  by exists s, l, k.
Qed.

(** No key before the [n]-th is looked up. *)
Definition none_relevant (n : nat) : Prop :=
  forall i k, (i < n)%nat -> keys !! i = Some (Some k) -> relevant k = false.

(** How the first loop ends. *)
Definition first_loop (r : nat + Z * Z * nat) (ss : list slot) : Prop :=
  length ss = length ss0 /\ exists m,
    (forall i, (i < m)%nat -> exists s, ss !! i = Some s /\ passed i s)
    /\ (forall i, (m < i)%nat -> ss !! i = ss0 !! i)
    /\ match r with
       | inl n => n = m /\ (m < length ss0)%nat /\ keys !! m = Some None /\ ss !! m = ss0 !! m
       | inr (c, e, n) => n = m
           /\ ((m = length ss0 /\ (c = NGX_AGAIN /\ (0 < m)%nat \/ c = NGX_DECLINED /\ none_relevant m))
               \/ (exists s, (m < length ss0)%nat /\ ss !! m = Some s /\ stopped m c e s))
       end.

Lemma relevant_tests k : relevant k = if (length k =? 0)%nat then false else if 65535 <? Z.of_nat (length k) then false else true.
Proof.
  unfold relevant, MAX_KEY. destruct (length k =? 0)%nat; [done|]. cbn [negb andb].
  by destruct (Z.leb_spec (Z.of_nat (length k)) 65535), (Z.ltb_spec 65535 (Z.of_nat (length k))); try lia.
Qed.

Lemma lookup_limits_ok rest : forall n c e ss, drop n keys = rest -> (n <= length ss0)%nat -> length ss = length ss0 ->
  (forall i, (i < n)%nat -> exists s, ss !! i = Some s /\ passed i s) ->
  (forall i, (n <= i)%nat -> ss !! i = ss0 !! i) ->
  (c = NGX_AGAIN /\ (0 < n)%nat \/ c = NGX_DECLINED /\ none_relevant n) ->
  exists r ss', lookup_limits now rest n c e ss = Some (r, ss') /\ first_loop r ss'.
Proof.
  induction rest as [|k rest IH]; intros n c e ss Hrest Hn Hlen Hpre Hpost Hc.
  - assert (n = length ss0) as -> by (apply (f_equal length) in Hrest; rewrite length_drop in Hrest; cbn in Hrest; lia).
    exists (inr (c, e, length ss0)), ss. split; [done|]. split; [done|]. exists (length ss0). split; [done|].
    split; [intros i Hi; apply Hpost; lia|]. split; [done|]. by left.
  - assert ((n < length ss0)%nat) as Hn' by (apply (f_equal length) in Hrest; rewrite length_drop in Hrest; cbn in Hrest; lia).
    destruct (at_limit_exists n Hn') as (s & l & k' & Hat). pose proof Hat as (Hs & Hl & Hk).
    assert (k' = k /\ drop (S n) keys = rest) as [-> Hrest'] by (rewrite (drop_S _ _ _ Hk) in Hrest; by injection Hrest).
    cbn [lookup_limits]. destruct k as [k|].
    2: { exists (inl n), ss. split; [done|]. split; [done|]. exists n. split; [done|].
         split; [intros i Hi; apply Hpost; lia|]. split; [done|]. split; [done|]. split; [done|]. by apply Hpost. }
    assert (relevant k = false -> exists r ss', lookup_limits now rest (S n) c e ss = Some (r, ss') /\ first_loop r ss') as Hskip.
    { intros Hrel. apply IH; [done|lia|done| |intros i Hi; apply Hpost; lia|].
      - intros i Hi. destruct (decide (i = n)) as [->|Hne]; [|apply Hpre; lia].
        exists s. split; [by rewrite Hpost|]. exists s, l, k. split; [done|]. split; [done|]. by rewrite Hrel.
      - destruct Hc as [[-> _]|[-> Hnr]]; [left; split; [done|lia]|right]. split; [done|]. intros i k' Hi Hki.
        destruct (decide (i = n)) as [->|Hne]; [congruence|]. apply (Hnr i k'); [lia|done]. }
    rewrite relevant_tests in Hskip. destruct (length k =? 0)%nat eqn:Hz; [by apply Hskip|].
    destruct (65535 <? Z.of_nat (length k)) eqn:Hbig; [by apply Hskip|].
    assert (relevant k = true) as Hrel by (by rewrite relevant_tests, Hz, Hbig). clear Hskip.
    destruct (idle0 n s l Hs Hl) as (Hidle & Hcnt & _).
    assert (key_ok k) as Hkok by (split; [by apply (keys_ok n)|unfold MAX_KEY; lia]).
    destruct (lookup_slot_ok now (is_last n) k s l Hidle Hcnt Hkok) as (a & s' & Hlk & Hsame & Hup).
    pose proof Hlk as Hlk'. unfold lookup_slot in Hlk. rewrite ngx_crc32_short_ok in Hlk |- * by apply Hkok. cbn [mbind option_bind] in Hlk |- *.
    rewrite Hpost, Hs by lia. cbn [mbind option_bind]. rewrite Hlen. fold (is_last n).
    destruct (ngx_http_limit_req_lookup _ _ _ _ _ _ _ _ _ _) as [[[a' ctx] z]|]; [|done]. cbn [mbind option_bind] in Hlk |- *.
    injection Hlk as -> <-. unfold put_slot.
    set (s' := {| s_limit := s_limit s; s_ctx := ctx; s_zone := z |}) in *.
    destruct (Z.eqb_spec (rc a) NGX_AGAIN) as [Hag|Hag]; cbn [negb].
    + apply IH; [done|lia|by rewrite length_insert| | |left; split; [done|lia]].
      * intros i Hi. destruct (decide (i = n)) as [->|Hne].
        -- exists s'. split; [apply list_lookup_insert_eq; lia|]. exists s, l, k. split; [done|]. split; [done|]. rewrite Hrel.
           destruct Hup as [(_ & H1 & H2)|[(Hx & _)|[(Hx & _)|(Hx & _)]]]; [done|rewrite Hx in Hag; done..].
        -- rewrite list_lookup_insert_ne by done. apply Hpre. lia.
      * intros i Hi. rewrite list_lookup_insert_ne by lia. apply Hpost. lia.
    + exists (inr (rc a, ep a, n)), (<[n := s']> ss). split; [done|]. split; [by rewrite length_insert|]. exists n.
      split; [intros i Hi; rewrite list_lookup_insert_ne by lia; by apply Hpre|].
      split; [intros i Hi; rewrite list_lookup_insert_ne by lia; apply Hpost; lia|]. split; [done|]. right.
      exists s'. split; [done|]. split; [apply list_lookup_insert_eq; lia|]. by exists s, l, k, a.
Qed.

(** *** Unlocking and charging the limits that were passed *)

(** What the [n]-th limit looks like in the end. *)
Definition ended (P : slot -> list Z -> lru -> lru -> Prop) (n : nat) (s' : slot) : Prop :=
  exists s l k l', at_limit n s l k /\ same_limit s s' /\ idle s' l'
    /\ match k with
       | Some k => if relevant k then P s k l l' else l' = l
       | None => l' = l
       end.

Definition left_alone : slot -> list Z -> lru -> lru -> Prop := fun _ k => uncharged (id_of k).

Lemma untouched_ended P n s l k : at_limit n s l k -> match k with Some k => relevant k = false | None => True end -> ended P n s.
Proof.
  intros Hat Hk. exists s, l, k, l. split; [done|]. split; [done|]. split; [by apply (idle0 n s l); apply Hat|].
  destruct k as [k|]; [by rewrite Hk|done].
Qed.

Lemma at_limit_fun n s l k s' l' k' : at_limit n s l k -> at_limit n s' l' k' -> s' = s /\ l' = l /\ k' = k.
Proof. intros (H1 & H2 & H3) (H1' & H2' & H3'). split_and!; congruence. Qed.

Lemma unlock_limits_ok n : forall ss, (n <= length ss)%nat ->
  (forall i, (i < n)%nat -> exists s, ss !! i = Some s /\ passed i s) ->
  exists ss', ngx_http_limit_req_unlock n ss = Some ss' /\ length ss' = length ss
    /\ (forall i, (i < n)%nat -> exists s, ss' !! i = Some s /\ ended left_alone i s)
    /\ (forall i, (n <= i)%nat -> ss' !! i = ss !! i).
Proof.
  induction n as [|n IH]; intros ss Hlen Hp; cbn [ngx_http_limit_req_unlock]; [by exists ss; split_and!; [..|lia|]|].
  destruct (Hp n ltac:(lia)) as (s' & Hs' & (s & l & k & Hat & Hsame & Hk)). rewrite Hs'. cbn [mbind option_bind].
  assert (exists s1, unlock_slot s' = Some s1 /\ ended left_alone n s1) as (s1 & Hu & Hend).
  { destruct (relevant k) eqn:Hrel.
    - destruct Hk as [_ Hpend]. destruct (unlock_slot_ok _ _ _ _ _ Hpend) as (s1 & l1 & Hu & Hs1 & Hi & Hun).
      exists s1. split; [done|]. exists s, l, (Some k), l1. split; [done|].
      split; [destruct Hsame, Hs1; split; congruence|]. split; [done|]. by rewrite Hrel.
    - subst s'. exists s. split; [|by eapply untouched_ended].
      destruct (idle0 n s l ltac:(apply Hat) ltac:(apply Hat)) as [[_ Hctx] _].
      unfold unlock_slot, unlock_zone. rewrite Hctx. cbn. by destruct s. }
  unfold unlock_slot in Hu. destruct (unlock_zone (s_ctx s') (s_zone s')) as [[ctx z]|]; [|done].
  cbn [mbind option_bind] in Hu |- *. injection Hu as <-. unfold put_slot.
  set (s1 := {| s_limit := s_limit s'; s_ctx := ctx; s_zone := z |}) in *.
  destruct (IH (<[n := s1]> ss)) as (ss' & -> & Hl' & Hlt & Hge).
  { rewrite length_insert. lia. }
  { intros i Hi. rewrite list_lookup_insert_ne by lia. apply Hp. lia. }
  exists ss'. rewrite length_insert in Hl'. split; [done|]. split; [done|]. split.
  - intros i Hi. destruct (decide (i = n)) as [->|Hne]; [|apply Hlt; lia].
    exists s1. split; [|done]. rewrite Hge by lia. apply list_lookup_insert_eq. lia.
  - intros i Hi. rewrite Hge by lia. apply list_lookup_insert_ne. lia.
Qed.

(** The delay that the [n]-th limit asks for. *)
Definition delay_at (n : nat) : Z :=
  match ss0 !! n, ls0 !! n, keys !! n with
  | Some s, Some l, Some (Some k) =>
      if relevant k then delay_of s (excess_at now (rate (s_ctx s)) (is_last n) (id_of k) l) else 0
  | _, _, _ => 0
  end.
Fixpoint max_delay (n : nat) : Z := match n with O => 0 | S n => Z.max (delay_at n) (max_delay n) end.

Lemma delay_at_eq n s l k : at_limit n s l (Some k) -> relevant k = true ->
  delay_at n = delay_of s (excess_at now (rate (s_ctx s)) (is_last n) (id_of k) l).
Proof. intros (Hs & Hl & Hk) Hr. unfold delay_at. by rewrite Hs, Hl, Hk, Hr. Qed.

Definition charge_all (n : nat) : slot -> list Z -> lru -> lru -> Prop := charged now (is_last n).

(** A limit that was passed is charged. *)
Lemma account_passed n s' : passed n s' ->
  exists e s1, account_slot now s' = Some (e, s1) /\ ended (charge_all n) n s1
    /\ match e with Some e => delay_of s' e = delay_at n | None => delay_at n = 0 end.
Proof.
  intros (s & l & k & Hat & Hsame & Hk). destruct (relevant k) eqn:Hrel.
  - destruct Hk as [Hlast Hpend]. destruct (account_slot_ok _ _ _ _ _ Hpend Hsame) as (s1 & l1 & Ha & Hs1 & Hi & Hch).
    do 2 eexists. split; [exact Ha|]. split.
    + exists s, l, (Some k), l1. split; [done|]. split; [destruct Hsame, Hs1; split; congruence|]. split; [done|].
      rewrite Hrel. unfold charge_all. by rewrite Hlast.
    + rewrite (delay_at_eq n s l k Hat Hrel), Hlast. destruct Hsame as [Hl Hr]. unfold delay_of. by rewrite Hl, Hr.
  - subst s'. exists None, s. split; [|split; [by eapply untouched_ended|]].
    + destruct (idle0 n s l ltac:(apply Hat) ltac:(apply Hat)) as [[_ Hctx] _].
      unfold account_slot, account_zone. rewrite Hctx. cbn. by destruct s.
    + destruct Hat as (Hs & Hl & Hk). unfold delay_at. by rewrite Hs, Hl, Hk, Hrel.
Qed.

Lemma limit_account_loop_ok n : forall ss d, (n <= length ss)%nat -> 0 <= d ->
  (forall i, (i < n)%nat -> exists s, ss !! i = Some s /\ passed i s) ->
  exists ss', account_loop now n d ss = Some (Z.max d (max_delay n), ss') /\ length ss' = length ss
    /\ (forall i, (i < n)%nat -> exists s, ss' !! i = Some s /\ ended (charge_all i) i s)
    /\ (forall i, (n <= i)%nat -> ss' !! i = ss !! i).
Proof.
  induction n as [|n IH]; intros ss d Hlen Hd Hp; cbn [account_loop max_delay].
  { exists ss. rewrite Z.max_l by done. by split_and!; [..|lia|]. }
  destruct (Hp n ltac:(lia)) as (s' & Hs' & Hpass). rewrite Hs'. cbn [mbind option_bind].
  destruct (account_passed n s' Hpass) as (e & s1 & Ha & Hend & Hdel). unfold account_slot in Ha.
  destruct (account_zone now (s_ctx s') (s_zone s')) as [[[e' ctx] z]|]; [|done].
  cbn [mbind option_bind] in Ha |- *. injection Ha as -> <-. unfold put_slot.
  set (s1 := {| s_limit := s_limit s'; s_ctx := ctx; s_zone := z |}) in *.
  set (d' := Z.max d (delay_at n)).
  assert (match e with
    | Some e => account_loop now n (if delay_of s' e >? d then delay_of s' e else d) (<[n := s1]> ss)
    | None => account_loop now n d (<[n := s1]> ss) end = account_loop now n d' (<[n := s1]> ss)) as ->.
  { unfold d'. destruct e as [e|]; [rewrite Hdel|rewrite Hdel, Z.max_l by done; done].
    rewrite Z.gtb_ltb. f_equal. destruct (Z.ltb_spec d (delay_at n)); lia. }
  destruct (IH (<[n := s1]> ss) d') as (ss' & -> & Hl' & Hlt & Hge).
  { rewrite length_insert. lia. }
  { unfold d'. lia. }
  { intros i Hi. rewrite list_lookup_insert_ne by lia. apply Hp. lia. }
  exists ss'. rewrite length_insert in Hl'. split; [unfold d'; by rewrite <- Z.max_assoc|]. split; [done|]. split.
  - intros i Hi. destruct (decide (i = n)) as [->|Hne]; [|apply Hlt; lia].
    exists s1. split; [|done]. rewrite Hge by lia. apply list_lookup_insert_eq. lia.
  - intros i Hi. rewrite Hge by lia. apply list_lookup_insert_ne. lia.
Qed.

(** ** The handler *)

Lemma left_ended n s l k : at_limit n s l k -> ended left_alone n s.
Proof.
  intros Hat. exists s, l, k, l. split; [done|]. split; [done|]. split; [by apply (idle0 n s l); apply Hat|].
  destruct k as [k|]; [|done]. destruct (relevant k); [|done]. intros j b Hin. by left.
Qed.

Lemma left_ended_same n : (n < length ss0)%nat -> exists s, ss0 !! n = Some s /\ ended left_alone n s.
Proof. intros Hn. destruct (at_limit_exists n Hn) as (s & l & k & Hat). exists s. split; [apply Hat|by eapply left_ended]. Qed.

(** The limits before the [m]-th are unlocked, the others were not reached. *)
Lemma left_alone_all m ss : length ss = length ss0 -> (m < length ss0)%nat ->
  (forall i, (i < m)%nat -> exists s, ss !! i = Some s /\ passed i s) ->
  (exists s, ss !! m = Some s /\ ended left_alone m s) -> (forall i, (m < i)%nat -> ss !! i = ss0 !! i) ->
  exists ss', ngx_http_limit_req_unlock m ss = Some ss' /\ length ss' = length ss0
    /\ forall n, (n < length ss0)%nat -> exists s, ss' !! n = Some s /\ ended left_alone n s.
Proof.
  intros Hlen Hm Hp Hat Hpost. destruct (unlock_limits_ok m ss ltac:(lia) Hp) as (ss' & Hu & Hl & Hlt & Hge).
  exists ss'. split; [done|]. split; [congruence|]. intros n Hn. destruct (decide (n < m)%nat) as [H|H]; [by apply Hlt|].
  rewrite Hge by lia. destruct (decide (n = m)) as [->|Hne]; [done|]. rewrite Hpost by lia. by apply left_ended_same.
Qed.

Lemma max_delay_nonneg n : 0 <= max_delay n.
Proof. induction n as [|n IH]; cbn [max_delay]; lia. Qed.

(** All the limits were passed. *)
Lemma account_all ss : length ss = length ss0 -> (0 < length ss0)%nat ->
  (forall i, (i < length ss0)%nat -> exists s, ss !! i = Some s /\ passed i s) ->
  exists ss', ngx_http_limit_req_account now (length ss0 - 1) (length ss0) 0 ss = Some (max_delay (length ss0), ss')
    /\ length ss' = length ss0
    /\ forall n, (n < length ss0)%nat -> exists s, ss' !! n = Some s /\ ended (charge_all n) n s.
Proof.
  intros Hlen Hpos Hp. destruct (Hp (length ss0 - 1)%nat ltac:(lia)) as (s & Hs & (s0 & l & k & Hat & [Hlim _] & _)).
  unfold ngx_http_limit_req_account. rewrite Hs. cbn [mbind option_bind].
  destruct (idle0 _ s0 l ltac:(apply Hat) ltac:(apply Hat)) as (_ & _ & Hd & _).
  assert (delay_of s 0 = 0) as -> by (unfold delay_of; rewrite Hlim; by test_true (0 <=? delay (s_limit s0))).
  destruct (limit_account_loop_ok (length ss0) ss 0 ltac:(lia) ltac:(lia) Hp) as (ss' & -> & Hl & Hall & _).
  exists ss'. rewrite Z.max_r by apply max_delay_nonneg. split; [done|]. split; [congruence|done].
Qed.

(** The last limit was charged at once. *)
Lemma account_last m s' ss c e : length ss = length ss0 -> (m < length ss0)%nat ->
  (forall i, (i < m)%nat -> exists s, ss !! i = Some s /\ passed i s) -> ss !! m = Some s' -> is_last m = true ->
  stopped m c e s' -> c = NGX_OK ->
  exists ss', ngx_http_limit_req_account now m m e ss = Some (max_delay (length ss0), ss') /\ length ss' = length ss0
    /\ forall n, (n < length ss0)%nat -> exists s, ss' !! n = Some s /\ ended (charge_all n) n s.
Proof.
  intros Hlen Hm Hp Hs' Hlast (s & l & k & a & Hat & [Hlim Hrate] & Hrel & _ & Hup & Hc & He & _) ->.
  assert (m = length ss0 - 1)%nat as Hm1 by (by apply Nat.eqb_eq).
  destruct (idle0 m s l ltac:(apply Hat) ltac:(apply Hat)) as (_ & _ & _ & Hr).
  destruct Hup as [(Hx & _)|[(_ & _ & Hex & l' & Hidle & Hch)|[(Hx & _)|(Hx & _)]]]; [rewrite Hx in Hc; done| |rewrite Hx in Hc; done..].
  unfold ngx_http_limit_req_account. rewrite Hs'. cbn [mbind option_bind].
  assert (delay_of s' e = delay_at m) as Hd.
  { rewrite (delay_at_eq m s l k Hat Hrel), Hlast, <- He, Hex. unfold delay_of. by rewrite Hlim, Hrate. }
  assert (0 <= delay_of s' e) as Hd0.
  { unfold delay_of. destruct (e <=? _); [done|]. rewrite Hrate. apply Z.div_pos; [|done]. unfold u64. lia_mod. }
  destruct (limit_account_loop_ok m ss (delay_of s' e) ltac:(lia) Hd0 Hp) as (ss' & -> & Hl & Hlt & Hge).
  exists ss'. split; [|split; [congruence|]].
  - replace (length ss0) with (S m) by lia. cbn [max_delay]. by rewrite Hd.
  - intros n Hn. destruct (decide (n < m)%nat) as [H|H]; [by apply Hlt|]. assert (n = m) as -> by lia.
    exists s'. split; [by rewrite Hge by lia|]. exists s, l, (Some k), l'. split; [done|]. split; [done|]. split; [done|].
    rewrite Hrel. unfold charge_all. by rewrite Hlast.
Qed.

Lemma nothing_passed ss : length ss = length ss0 -> none_relevant (length ss0) ->
  (forall i, (i < length ss0)%nat -> exists s, ss !! i = Some s /\ passed i s) -> ss = ss0.
Proof.
  intros Hlen Hnr Hp. apply list_eq. intros i. destruct (decide (i < length ss0)%nat) as [Hi|Hi].
  - destruct (Hp i Hi) as (s' & -> & (s & l & k & Hat & _ & Hk)). rewrite (Hnr i k Hi ltac:(apply Hat)) in Hk. subst s'.
    symmetry. apply Hat.
  - by rewrite !lookup_ge_None_2 by lia.
Qed.

(** What has become of the request. *)
Definition let_through (lrcf : ngx_http_limit_req_conf_t) (read_ok : bool) (o : outcome) (ss : list slot) : Prop :=
  o = delayed lrcf read_ok (max_delay (length ss0))
  /\ forall n, (n < length ss0)%nat -> exists s, ss !! n = Some s /\ ended (charge_all n) n s.

Definition turned_down (lrcf : ngx_http_limit_req_conf_t) (o : outcome) : Prop :=
  o = rejected lrcf /\ exists n s l k, at_limit n s l (Some k) /\ relevant k = true
    /\ (over now s k l \/ exists a s', lookup_slot now (is_last n) k s = Some (a, s') /\ rc a = NGX_ERROR).

Definition failed (o : outcome) : Prop :=
  o = {| returns := NGX_HTTP_INTERNAL_SERVER_ERROR; limit_req_status := 0; timer := None |} /\ exists n, keys !! n = Some None.

Definition unlimited (o : outcome) (ss : list slot) : Prop :=
  o = {| returns := NGX_DECLINED; limit_req_status := 0; timer := None |} /\ none_relevant (length ss0) /\ ss = ss0.

(** C8: The handler charges a request to all its limits or to none.  A request is let
    through only if the bucket of its key has room for it in every zone where its key is
    looked up; then each of these buckets has been charged for it, exactly once, its time
    has been brought up to now and its count is what it was, and the request is delayed by
    the longest delay that a limit asks for.  If some bucket has no room, or there is no
    memory for a new one, or a key cannot be computed, the request is rejected, or fails,
    and no bucket is charged.  Either way the worker holds no node afterwards, and no bucket
    of another key has changed. *)
Theorem ngx_http_limit_req_handler_charges lrcf read_ok :
  exists o ss, ngx_http_limit_req_handler lrcf now read_ok 0 keys ss0 = Some (o, ss) /\ length ss = length ss0
    /\ (let_through lrcf read_ok o ss \/ unlimited o ss
        \/ (turned_down lrcf o \/ failed o)
           /\ forall n, (n < length ss0)%nat -> exists s, ss !! n = Some s /\ ended left_alone n s).
Proof.
  destruct (lookup_limits_ok keys 0 NGX_DECLINED 0 ss0) as (r & ss & Hl & Hlen & m & Hp & Hpost & Hr);
    [done|lia|done|intros i Hi; lia|done|right; split; [done|intros i k Hi; lia]|].
  unfold ngx_http_limit_req_handler. rewrite Hl. cbn [mbind option_bind negb Z.eqb]. destruct r as [n|[[c e] n]].
  - destruct Hr as (-> & Hm & Hk & Hsm).
    destruct (left_alone_all m ss Hlen Hm Hp) as (ss' & -> & Hl' & Hall); [rewrite Hsm; by apply left_ended_same|done|].
    cbn [mbind option_bind]. do 2 eexists. split; [reflexivity|]. split; [done|]. right. right. split; [|done]. right.
    split; [done|by exists m].
  - destruct Hr as (-> & [(-> & [[-> Hpos]|[-> Hnr]])|(s' & Hm & Hs' & Hst)]).
    + destruct (account_all ss Hlen Hpos Hp) as (ss' & Ha & Hl' & Hall). rewrite <- Hlen, Nat.eqb_refl, Hlen.
      cbn [Z.eqb NGX_AGAIN NGX_DECLINED NGX_BUSY NGX_ERROR Pos.eqb orb]. rewrite Ha. cbn [mbind option_bind].
      do 2 eexists. split; [reflexivity|]. split; [done|]. by left.
    + do 2 eexists. split; [reflexivity|]. split; [done|]. right. left. split; [done|]. split; [done|].
      apply nothing_passed; done.
    + pose proof Hst as (s & l & k & a & Hat & Hsame & Hrel & Hlk & Hup & Hc & He & Hag).
      destruct Hup as [(Hx & _)|[(Hx & Hlast & Hex & l' & Hidle & Hch)|Hup]]; [congruence| |].
      * assert (c = NGX_OK) as Hok by congruence.
        destruct (account_last m s' ss c e Hlen Hm Hp Hs' Hlast Hst Hok) as (ss' & Ha & Hl' & Hall). rewrite Hok. cbn [Z.eqb NGX_OK NGX_AGAIN NGX_DECLINED NGX_BUSY NGX_ERROR Pos.eqb orb].
        rewrite Hlen. replace (m =? length ss0)%nat with false by (symmetry; apply Nat.eqb_neq; lia).
        rewrite Ha. cbn [mbind option_bind]. do 2 eexists. split; [reflexivity|]. split; [done|]. by left.
      * assert (exists l', idle s' l' /\ uncharged (id_of k) l l') as (l' & Hidle & Hun) by (destruct Hup as [(_ & _ & H)|(_ & _ & H)]; exact H).
        destruct (left_alone_all m ss Hlen Hm Hp) as (ss' & Hu & Hl' & Hall); [|done|].
        { exists s'. split; [done|]. exists s, l, (Some k), l'. split; [done|]. split; [done|]. split; [done|]. by rewrite Hrel. }
        assert ((c =? NGX_DECLINED) = false /\ (c =? NGX_BUSY) || (c =? NGX_ERROR) = true) as [-> ->]
          by (rewrite <- Hc; destruct Hup as [(-> & _)|(-> & _)]; done).
        rewrite Hu. cbn [mbind option_bind]. do 2 eexists. split; [reflexivity|]. split; [done|]. right. right. split; [|done]. left.
        split; [done|]. exists m, s, l, k. split; [done|]. split; [done|]. destruct Hup as [(_ & Ho & _)|(Hr & _)]; [by left|right].
        by exists a, s'.
Qed.
End Request.
End Handler.

(** ** A location with three limits *)

Definition a_slot (b d : Z) : slot (pool := few) :=
  {| s_limit := {| burst := b; delay := d |}; s_ctx := {| rate := 2000; ctx_node := None |}; s_zone := few_zone |}.
Definition some_slots : list (slot (pool := few)) := [a_slot 1000 0; a_slot 0 0; a_slot 5000 500].
Definition some_keys : list (option (list Z)) := [Some (bs "a"); Some []; Some (bs "b")].
Definition a_conf : ngx_http_limit_req_conf_t := {| status_code := 503; dry_run := false |}.

Lemma a_slot_idle b d : idle (a_slot b d) [].
Proof. split; [|done]. exists []. split; [|done]. exact (init_zone_ok _ _ _ _ _ (proj2_sig few_blocks_zone)). Qed.

(** The second request is delayed, the third is rejected by the first limit, and the
    third limit is not charged. *)
Example three_requests :
  match ngx_http_limit_req_handler true (blank 0) no_link a_conf 100000 true 0 some_keys some_slots with
  | None => None
  | Some (o1, ss) =>
      match ngx_http_limit_req_handler true (blank 0) no_link a_conf 100010 true 0 some_keys ss with
      | None => None
      | Some (o2, ss) =>
          match ngx_http_limit_req_handler true (blank 0) no_link a_conf 100020 true 0 some_keys ss with
          | None => None
          | Some (o3, ss) => Some ([o1; o2; o3], map (fun s => map snd (map_to_list (z_nodes (s_zone s)))) ss)
          end
      end
  end
  = Some ([{| returns := NGX_DECLINED; limit_req_status := NGX_HTTP_LIMIT_REQ_PASSED; timer := None |};
           {| returns := NGX_AGAIN; limit_req_status := NGX_HTTP_LIMIT_REQ_DELAYED; timer := Some 490 |};
           {| returns := 503; limit_req_status := NGX_HTTP_LIMIT_REQ_REJECTED; timer := None |}],
          [[{| len := 1; last := 100010; excess := 980; count := 0; data := bs "a" |}]; [];
           [{| len := 1; last := 100010; excess := 980; count := 0; data := bs "b" |}]]).
Proof. vm_compute. reflexivity. Qed.

Lemma ngx_http_limit_req_handler_charges_witness :
  exists o ss, ngx_http_limit_req_handler true (blank 0) no_link a_conf 100000 true 0 some_keys some_slots = Some (o, ss)
    /\ length ss = 3%nat
    /\ (let_through 100000 some_keys some_slots [[]; []; []] a_conf true o ss \/ unlimited some_keys some_slots o ss
        \/ (turned_down true (blank 0) no_link 100000 some_keys some_slots [[]; []; []] a_conf o \/ failed some_keys o)
           /\ forall n, (n < 3)%nat -> exists s, ss !! n = Some s
                /\ ended some_keys some_slots [[]; []; []] left_alone n s).
Proof.
  apply (ngx_http_limit_req_handler_charges true (blank 0) no_link 100000 some_keys some_slots [[]; []; []]).
  - intros [|[|[|n]]] s l; cbn; intros Hs Hl; try discriminate; injection Hs as <-; injection Hl as <-;
      (split; [apply a_slot_idle|split; [constructor|cbn; lia]]).
  - split; reflexivity.
  - intros [|[|[|n]]] k; cbn; intros H; try discriminate; injection H as <-; apply bytes_ok_check; reflexivity.
Defined.
