(* ===== verification/Uri.v ===== *)
(** * Uri: from the bytes of a request URI to its parts

    [ngx_http_parse_uri] of ngx_http_parse.c, which checks the ":path" of an HTTP/2
    request and notes whether it needs normalization, and
    [ngx_http_process_request_uri] of ngx_http_request.c, which fills in the path,
    the extension and the arguments: from the URI itself where the notes allow it,
    by [ngx_http_parse_complex_uri] otherwise.  The theorem is that the short cut
    gives what the normalization would. *)

From S2P Require Import Prelude Scan Http ComplexUri.

(** ** [ngx_http_parse_uri] *)

Inductive uri_state := uri_sw_start | uri_sw_after_slash_in_uri | uri_sw_check_uri | uri_sw_uri.

(** The state and the fields of the request that the parser sets; positions are
    those of the memory that holds the URI. *)
Record marks := {
  m_state : uri_state;
  m_complex_uri : bool;
  m_quoted_uri : bool;
  m_plus_in_uri : bool;
  m_args_start : option nat;
  m_uri_ext : option nat;
}.
#[export] Instance eta_marks : Eta marks := mk_eta (fun m =>
  Build_marks (m_state m) (m_complex_uri m) (m_quoted_uri m) (m_plus_in_uri m) (m_args_start m)
    (m_uri_ext m)).

(** As a new request has them. *)
Definition no_marks : marks :=
  {| m_state := uri_sw_start; m_complex_uri := false; m_quoted_uri := false;
     m_plus_in_uri := false; m_args_start := None; m_uri_ext := None |}.

(** The result of one byte: [Exit] is [return NGX_ERROR]. *)
Definition uri_outcome : Type := action marks marks.

(** [default:] [if (ch <= 0x20 || ch == 0x7f) return NGX_ERROR]. *)
Definition visible (ch : Z) (m : marks) : uri_outcome :=
  if (ch <=? 0x20) || (ch =? 0x7f) then Exit m else Next m.

Definition uri_start_case (ch : Z) (m : marks) : uri_outcome :=
  if negb (ch =? "/"%ch) then Exit m else Next (m <| m_state := uri_sw_after_slash_in_uri |>).

Definition after_slash_case (p : nat) (ch : Z) (m : marks) : uri_outcome :=
  if is_usual ch then Next (m <| m_state := uri_sw_check_uri |>)
  else if ch =? "."%ch then Next (m <| m_complex_uri := true |> <| m_state := uri_sw_uri |>)
  else if ch =? "%"%ch then Next (m <| m_quoted_uri := true |> <| m_state := uri_sw_uri |>)
  else if ch =? "/"%ch then Next (m <| m_complex_uri := true |> <| m_state := uri_sw_uri |>)
  else if ch =? "?"%ch then Next (m <| m_args_start := Some (S p) |> <| m_state := uri_sw_uri |>)
  else if ch =? "#"%ch then Next (m <| m_complex_uri := true |> <| m_state := uri_sw_uri |>)
  else if ch =? "+"%ch then Next (m <| m_plus_in_uri := true |>)
  else visible ch (m <| m_state := uri_sw_check_uri |>).

Definition check_uri_case (p : nat) (ch : Z) (m : marks) : uri_outcome :=
  if is_usual ch then Next m
  else if ch =? "/"%ch then
    Next (m <| m_uri_ext := None |> <| m_state := uri_sw_after_slash_in_uri |>)
  else if ch =? "."%ch then Next (m <| m_uri_ext := Some (S p) |>)
  else if ch =? "%"%ch then Next (m <| m_quoted_uri := true |> <| m_state := uri_sw_uri |>)
  else if ch =? "?"%ch then Next (m <| m_args_start := Some (S p) |> <| m_state := uri_sw_uri |>)
  else if ch =? "#"%ch then Next (m <| m_complex_uri := true |> <| m_state := uri_sw_uri |>)
  else if ch =? "+"%ch then Next (m <| m_plus_in_uri := true |>)
  else visible ch m.

Definition uri_case (ch : Z) (m : marks) : uri_outcome :=
  if is_usual ch then Next m
  else if ch =? "#"%ch then Next (m <| m_complex_uri := true |>)
  else visible ch m.

Definition uri_step (p : nat) (ch : Z) (m : marks) : option uri_outcome :=
  Some match m_state m with
       | uri_sw_start => uri_start_case ch m
       | uri_sw_after_slash_in_uri => after_slash_case p ch m
       | uri_sw_check_uri => check_uri_case p ch m
       | uri_sw_uri => uri_case ch m
       end.

(** The result and the request after it. *)
Definition ngx_http_parse_uri (mem : list Z) (uri_start uri_end : nat) (m : marks)
    : option (Z * marks) :=
  a ← scan uri_step mem uri_start (uri_end - uri_start) m;
  Some match a with
       | Next (_, m) => (NGX_OK, m)
       | Exit m => (NGX_ERROR, m)
       end.

(** ** [ngx_http_process_request_uri] *)

(** The fields of the request that it sets: strings by what they hold. *)
Record request_uri := {
  r_uri : list Z;
  r_unparsed_uri : list Z;
  r_valid_unparsed_uri : bool;
  r_exten : list Z;
  r_args : list Z;
}.

(** [exten] as [ngx_http_parse_complex_uri] leaves it, an offset and a length. *)
Definition exten_bytes (o : uri_out) : list Z :=
  match exten o with
  | Some (e, n) => take (Z.to_nat n) (drop (Z.to_nat e) (uri o))
  | None => []
  end.

(** [None] inside: the request is refused with [NGX_HTTP_BAD_REQUEST] and the
    function returns [NGX_ERROR].  The buffer for a URI that needs normalization is
    allocated, with the length that [r->uri.len] has. *)
Definition ngx_http_process_request_uri (mem : list Z) (uri_start uri_end : nat)
    (empty_path : bool) (merge_slashes : bool) (m : marks) : option (option request_uri) :=
  let len := match m_args_start m with
             | Some a => (a - 1 - uri_start)%nat
             | None => (uri_end - uri_start)%nat
             end in
  let unparsed := slice mem uri_start uri_end in
  if m_complex_uri m || m_quoted_uri m || empty_path then
    let len := if empty_path then S len else len in
    '(rc, o) ← ngx_http_parse_complex_uri mem merge_slashes
                 {| uri_start := uri_start; uri_end := uri_end; empty_path_in_uri := empty_path |}
                 (m_quoted_uri m) (m_plus_in_uri m) (repeat 0 len);
    if negb (rc =? NGX_OK) then Some None
    else
      o ← o;
      Some (Some
        {| r_uri := uri o; r_unparsed_uri := unparsed; r_valid_unparsed_uri := negb empty_path;
           r_exten := exten_bytes o;
           r_args := match o_args_start o with
                     | Some a => if (a <? uri_end)%nat then slice mem a uri_end else []
                     | None => match args o with Some (a, n) => take n (drop a mem) | None => [] end
                     end |})
  else
    Some (Some
      {| r_uri := take len (drop uri_start mem); r_unparsed_uri := unparsed;
         r_valid_unparsed_uri := negb empty_path;
         r_exten := match m_uri_ext m with
                    | Some e => take (match m_args_start m with
                                      | Some a => a - 1 - e
                                      | None => uri_end - e
                                      end) (drop e mem)
                    | None => []
                    end;
         r_args := match m_args_start m with
                   | Some a => if (a <? uri_end)%nat then slice mem a uri_end else []
                   | None => []
                   end |}).

(** Both, as [ngx_http_v2_parse_path] calls them, on a URI alone in memory but for
    the NUL after it. *)
Definition uri_parts (merge_slashes : bool) (s : list Z) : option (option request_uri) :=
  '(rc, m) ← ngx_http_parse_uri (s ++ [0]) 0 (length s) no_marks;
  if negb (rc =? NGX_OK) then Some None
  else ngx_http_process_request_uri (s ++ [0]) 0 (length s) false merge_slashes m.

Example uri_parts_plain :
  uri_parts true (bs "/a/b+c.tar.gz?x=1&y")
  = Some (Some {| r_uri := bs "/a/b+c.tar.gz"; r_unparsed_uri := bs "/a/b+c.tar.gz?x=1&y";
                  r_valid_unparsed_uri := true; r_exten := bs "gz"; r_args := bs "x=1&y" |}).
Proof. vm_compute. reflexivity. Qed.
Example uri_parts_complex :
  uri_parts true (bs "/a//../b%2ehtml?x#y")
  = Some (Some {| r_uri := bs "/b.html"; r_unparsed_uri := bs "/a//../b%2ehtml?x#y";
                  r_valid_unparsed_uri := true; r_exten := bs "html"; r_args := bs "x" |}).
Proof. vm_compute. reflexivity. Qed.

(** ** What the parser accepts *)

(** Every byte after the first is checked, in every state. *)
Lemma uri_step_visible p ch m :
  is_u8 ch -> m_state m <> uri_sw_start ->
  exists a, uri_step p ch m = Some a
    /\ match a with
       | Next m' => uri_byte ch /\ m_state m' <> uri_sw_start
       | Exit _ => ~ uri_byte ch
       end.
Proof.
  intros Hc Hs. eexists. split; [reflexivity|].
  pose proof (is_usual_uri_byte ch Hc) as Hu. unfold uri_byte in *.
  unfold after_slash_case, check_uri_case, uri_case, visible.
  destruct (m_state m) eqn:Hm; [done|..];
    (destruct (is_usual ch); [specialize (Hu eq_refl)|clear Hu]);
    repeat (case_match; simplify_eq); cbn; rewrite ?Hm; (split; [lia|done]) || lia.
Qed.

Lemma scan_visible mem s p m :
  bytes_ok s -> bytes_at mem p s -> m_state m <> uri_sw_start ->
  exists a, scan uri_step mem p (length s) m = Some a
    /\ match a with
       | Next _ => Forall uri_byte s
       | Exit _ => ~ Forall uri_byte s
       end.
Proof.
  intros Hok. revert p m. induction Hok as [|c s Hc Hok IH]; intros p m Hat Hs; [eexists; split; [done|constructor]|].
  apply bytes_at_cons in Hat as [Hp Hat]. cbn [length scan]. rewrite Hp. cbn [mbind option_bind].
  destruct (uri_step_visible p c m Hc Hs) as (a & -> & Ha). cbn [mbind option_bind].
  destruct a as [m'|m'].
  - destruct Ha as [Hu Hs']. destruct (IH (S p) m' Hat Hs') as (a & -> & Ha). exists a.
    split; [done|]. destruct a; [by constructor|intros H%Forall_cons_1; tauto].
  - exists (Exit m'). split; [done|]. intros H%Forall_cons_1; tauto.
Qed.

(** An absolute path of visible bytes, or nothing at all. *)
Definition uri_ok (s : list Z) : Prop :=
  s = [] \/ exists s', s = "/"%ch :: s' /\ Forall uri_byte s'.

Lemma parse_uri_ok mem p s m :
  bytes_ok s -> bytes_at mem p s -> m_state m = uri_sw_start ->
  exists rc m', ngx_http_parse_uri mem p (p + length s) m = Some (rc, m')
    /\ (rc = NGX_OK /\ uri_ok s \/ rc = NGX_ERROR /\ ~ uri_ok s).
Proof.
  intros Hok Hat Hm. unfold ngx_http_parse_uri.
  replace (p + length s - p)%nat with (length s) by lia.
  destruct Hok as [|c s Hc Hok]; [do 2 eexists; split; [done|]; left; by split; [|left]|].
  apply bytes_at_cons in Hat as [Hp Hat]. cbn [length scan]. rewrite Hp. cbn [mbind option_bind].
  assert (uri_step p c m = Some (uri_start_case c m)) as -> by (unfold uri_step; by rewrite Hm).
  unfold uri_start_case.
  destruct (Z.eqb_spec c 47) as [->|Hc']; cbn [negb mbind option_bind].
  - destruct (scan_visible mem s (S p) (m <| m_state := uri_sw_after_slash_in_uri |>))
      as (a & -> & Ha); [done|done|by cbn|]. destruct a as [[p' m']|m']; do 2 eexists; (split; [done|]).
    + left. split; [done|]. right. by exists s.
    + right. split; [done|]. intros [|(s' & [= ->] & ?)]; done.
  - do 2 eexists. split; [done|]. right. split; [done|]. intros [|(s' & [= ->] & ?)]; done.
Qed.

(** ** The short cut *)

(** The marks that ask for normalization are not taken back. *)
Definition needs_work (m : marks) : bool := m_complex_uri m || m_quoted_uri m.

Lemma uri_step_needs_work p ch m m' :
  uri_step p ch m = Some (Next m') -> needs_work m = true -> needs_work m' = true.
Proof.
  unfold uri_step, uri_start_case, after_slash_case, check_uri_case, uri_case, visible, needs_work.
  intros [= H]. revert H. repeat (case_match; simplify_eq; try done); cbn;
    intros [= <-]; cbn; by destruct (m_complex_uri m), (m_quoted_uri m).
Qed.

Lemma scan_needs_work mem p n m q m' :
  scan uri_step mem p n m = Some (Next (q, m')) -> needs_work m' = false -> needs_work m = false.
Proof.
  intros Hs Hm'. apply not_true_is_false. intros Hm.
  apply (scan_partial uri_step mem (fun _ m => needs_work m = true) (fun _ => True)) in Hs;
    [by rewrite Hm' in Hs| |done].
  intros p0 c l [m1|] _ Hl Hst; [|done]. by eapply uri_step_needs_work.
Qed.

(** A segment that is neither "." nor "..": the parser sees this by its first
    byte. *)
Definition plain (cur : list Z) : Prop := head cur <> Some "."%ch.

Lemma plain_dots cur : plain cur -> cur <> dot /\ cur <> dot_dot.
Proof. intros H. by split; intros ->. Qed.

Lemma plain_snoc cur c : plain cur -> (cur = [] -> c <> "."%ch) -> plain (cur ++ [c]).
Proof.
  unfold plain. destruct cur as [|x cur]; [|done]. cbn. intros _ Hc [= ->]. by apply Hc.
Qed.

Lemma finish_plain stack cur : plain cur -> finish stack cur = Some (cur :: stack).
Proof.
  intros [H1 H2]%plain_dots. unfold finish. by rewrite !decide_False.
Qed.

Lemma enter_plain merge stack cur : plain cur -> cur <> [] -> enter merge stack cur = Some (cur :: stack).
Proof.
  intros [H1 H2]%plain_dots H3. unfold enter. by rewrite !decide_False.
Qed.

(** The query is passed over, but for a "#". *)
Lemma scan_query mem s p m q m' :
  bytes_at mem p s -> m_state m = uri_sw_uri ->
  scan uri_step mem p (length s) m = Some (Next (q, m')) -> needs_work m' = false ->
  m_args_start m' = m_args_start m /\ m_uri_ext m' = m_uri_ext m /\ before_hash s = s.
Proof.
  revert p m. induction s as [|c s IH]; intros p m Hat Hm Hs Hw.
  { by injection Hs as <- <-. }
  apply bytes_at_cons in Hat as [Hp Hat]. cbn [length scan] in Hs. rewrite Hp in Hs.
  cbn [mbind option_bind] in Hs.
  assert (uri_step p c m = Some (uri_case c m)) as He by (unfold uri_step; by rewrite Hm).
  rewrite He in Hs. cbn [mbind option_bind] in Hs. unfold uri_case in Hs. cbn [before_hash].
  destruct (Z.eqb_spec c 35) as [->|Hc].
  - cbn in Hs. apply scan_needs_work in Hs; [|done]. done.
  - destruct (IH (S p) m) as (? & ? & Hb); [done|done| |done|].
    + unfold visible in Hs. destruct (is_usual c); [done|]. by destruct (_ || _).
    + by rewrite Hb.
Qed.

(** Where the path ends and what comes after it, in a URI without marks. *)
Definition ends_plainly (s path : list Z) (e : path_end) (p : nat) (args_start : option nat) : Prop :=
  match e with
  | EndPath => s = path /\ args_start = None
  | EndQuery q => s = path ++ "?"%ch :: q /\ args_start = Some (S (p + length path))
                  /\ before_hash q = q
  | EndFragment => False
  end.

Lemma decode_path_cons c s :
  c <> "?"%ch -> c <> "#"%ch -> c <> "%"%ch ->
  decode_path (c :: s) = x ← decode_path s; Some (c :: x.1, x.2).
Proof. intros H1 H2 H3. cbn [decode_path]. by rewrite !(proj2 (Z.eqb_neq _ _)) by done. Qed.

Lemma ends_plainly_cons c s path e p a :
  ends_plainly s path e (S p) a -> ends_plainly (c :: s) (c :: path) e p a.
Proof.
  destruct e as [|q|]; [by intros [-> ->]| |done].
  intros (-> & -> & ?). split_and!; [done| |done]. cbn [length]. do 2 f_equal. lia.
Qed.

(** Where the extension of the segment [cur] begins, when [p] is the end. *)
Definition ext_from (cur : list Z) (p : nat) : option nat :=
  e ← extension cur; Some (p - length e)%nat.

Lemma ext_from_snoc cur c p :
  plain cur -> cur <> [] \/ c <> "."%ch ->
  ext_from (cur ++ [c]) (S p) = if c =? "."%ch then Some (S p) else ext_from cur p.
Proof.
  intros [H1 H2]%plain_dots Hc. unfold ext_from. rewrite extension_snoc.
  destruct (Z.eqb_spec c 46) as [->|].
  - rewrite decide_True; [by cbn|]. unfold cstate. destruct Hc as [Hc|]; [|done].
    by rewrite !decide_False.
  - destruct (extension cur) as [e|]; [|done]. cbn [mbind option_bind].
    rewrite length_app. cbn. f_equal. lia.
Qed.

(** The rest of the URI, from within a segment: it names itself. *)
Lemma scan_plain mem merge s p m q m' stack cur :
  bytes_at mem p s ->
  scan uri_step mem p (length s) m = Some (Next (q, m')) -> needs_work m' = false ->
  match m_state m with
  | uri_sw_after_slash_in_uri => True
  | uri_sw_check_uri => cur <> []
  | _ => False
  end ->
  plain cur -> m_args_start m = None -> m_uri_ext m = ext_from cur p ->
  exists path e stack', decode_path s = Some (path, e) /\ run merge stack cur path = Some stack'
    /\ render stack' = render stack ++ "/"%ch :: cur ++ path
    /\ ends_plainly s path e p (m_args_start m')
    /\ exists seg stack0, stack' = seg :: stack0 /\ m_uri_ext m' = ext_from seg (p + length path).
Proof.
  revert p m stack cur. induction s as [|c s IH]; intros p m stack cur Hat Hs Hw Hst Hcur Ha Hext.
  { injection Hs as <- <-. exists [], EndPath, (cur :: stack).
    rewrite render_cons, app_nil_r.
    split_and!; [done|by apply finish_plain|done|done|]. exists cur, stack.
    by rewrite Nat.add_0_r. }
  apply bytes_at_cons in Hat as [Hp Hat]. cbn [length scan] in Hs. rewrite Hp in Hs.
  cbn [mbind option_bind] in Hs.
  (* the segment goes on *)
  assert (forall m1, scan uri_step mem (S p) (length s) m1 = Some (Next (q, m')) ->
    c <> "?"%ch -> c <> "#"%ch -> c <> "%"%ch -> c <> "/"%ch -> (cur = [] -> c <> "."%ch) ->
    m_state m1 = uri_sw_check_uri \/ m_state m1 = uri_sw_after_slash_in_uri ->
    m_args_start m1 = None -> m_uri_ext m1 = ext_from (cur ++ [c]) (S p) ->
    exists path e stack', decode_path (c :: s) = Some (path, e)
      /\ run merge stack cur path = Some stack'
      /\ render stack' = render stack ++ "/"%ch :: cur ++ path
      /\ ends_plainly (c :: s) path e p (m_args_start m')
      /\ exists seg stack0, stack' = seg :: stack0
           /\ m_uri_ext m' = ext_from seg (p + length path)) as Hgo.
  { intros m1 Hs1 H1 H2 H3 H4 H5 Hst1 Ha1 Hext1.
    destruct (IH (S p) m1 stack (cur ++ [c])) as (path & e & stack' & Hd & Hr & Hre & He & Hx);
      [done|done|done| |by apply plain_snoc|done|done|].
    { destruct Hst1 as [-> | ->]; [|done]. by destruct cur. }
    exists (c :: path), e, stack'. rewrite decode_path_cons, Hd by done.
    split; [done|]. split; [|split; [|split]].
    - cbn [run]. by rewrite (proj2 (Z.eqb_neq _ _)) by done.
    - by rewrite Hre, <- app_assoc.
    - by apply ends_plainly_cons.
    - cbn [length]. by rewrite Nat.add_succ_r. }
  (* the query begins *)
  assert (c = "?"%ch ->
    scan uri_step mem (S p) (length s) (m <| m_args_start := Some (S p) |> <| m_state := uri_sw_uri |>)
      = Some (Next (q, m')) ->
    exists path e stack', decode_path (c :: s) = Some (path, e)
      /\ run merge stack cur path = Some stack'
      /\ render stack' = render stack ++ "/"%ch :: cur ++ path
      /\ ends_plainly (c :: s) path e p (m_args_start m')
      /\ exists seg stack0, stack' = seg :: stack0
           /\ m_uri_ext m' = ext_from seg (p + length path)) as Hquery.
  { intros -> Hs1. destruct (scan_query mem s (S p) (m <| m_args_start := Some (S p) |> <| m_state := uri_sw_uri |>)
      q m') as (Ha' & Hx' & Hb); [done|done|exact Hs1|done|].
    exists [], (EndQuery s), (cur :: stack). rewrite render_cons, app_nil_r, Ha', Hx'. cbn [m_args_start m_uri_ext field_set].
    split; [done|]. split; [by apply finish_plain|]. split; [done|]. split.
    - split; [done|]. split; [|done]. cbn. do 2 f_equal. lia.
    - exists cur, stack. by rewrite Nat.add_0_r. }
  (* marks that ask for work *)
  assert (forall m1, scan uri_step mem (S p) (length s) m1 = Some (Next (q, m')) ->
    needs_work m1 = true -> False) as Hno.
  { intros m1 Hs1 Hw1. apply scan_needs_work in Hs1; [congruence|done]. }
  assert (c <> "."%ch -> m_uri_ext m = ext_from (cur ++ [c]) (S p)) as Hext'.
  { intros Hc. rewrite ext_from_snoc by auto. by rewrite (proj2 (Z.eqb_neq c 46) Hc). }
  assert (is_usual c = true -> c <> "."%ch) as Hdot by (by intros Hu ->).
  unfold uri_step in Hs. destruct (m_state m) eqn:Hm; [done| | |done];
    cbn [mbind option_bind] in Hs; unfold after_slash_case, check_uri_case in Hs.
  - destruct (is_usual c) eqn:Hu.
    { apply (Hgo _ Hs); try (by intros ->); try (by intros _ ->); cbn; auto. }
    destruct (Z.eqb_spec c 46); [by destruct (Hno _ Hs)|].
    destruct (Z.eqb_spec c 37); [destruct (Hno _ Hs); apply orb_true_r|].
    destruct (Z.eqb_spec c 47); [by destruct (Hno _ Hs)|].
    destruct (Z.eqb_spec c 63); [by apply Hquery|].
    destruct (Z.eqb_spec c 35); [by destruct (Hno _ Hs)|].
    destruct (Z.eqb_spec c 43); [apply (Hgo _ Hs); cbn; auto|].
    unfold visible in Hs. destruct (_ || _); [done|]. apply (Hgo _ Hs); cbn; auto.
  - destruct (is_usual c) eqn:Hu.
    { apply (Hgo _ Hs); try (by intros ->); try (by intros _ ->); auto. }
    destruct (Z.eqb_spec c 47) as [->|].
    { destruct (IH (S p) (m <| m_uri_ext := None |> <| m_state := uri_sw_after_slash_in_uri |>)
        (cur :: stack) []) as (path & e & stack' & Hd & Hr & Hre & He & Hx); try done.
      exists ("/"%ch :: path), e, stack'. rewrite decode_path_cons by done. rewrite Hd.
      split; [done|]. split; [|split; [|split]].
      - cbn [run Z.eqb Pos.eqb]. rewrite enter_plain by done. done.
      - rewrite Hre, render_cons, <- !app_assoc. done.
      - by apply ends_plainly_cons.
      - cbn [length]. by rewrite Nat.add_succ_r. }
    destruct (Z.eqb_spec c 46) as [->|].
    { apply (Hgo _ Hs); cbn; auto. by rewrite ext_from_snoc by auto. }
    destruct (Z.eqb_spec c 37); [destruct (Hno _ Hs); apply orb_true_r|].
    destruct (Z.eqb_spec c 63); [by apply Hquery|].
    destruct (Z.eqb_spec c 35); [by destruct (Hno _ Hs)|].
    destruct (Z.eqb_spec c 43); [apply (Hgo _ Hs); cbn; auto|].
    unfold visible in Hs. destruct (_ || _); [done|]. apply (Hgo _ Hs); cbn; auto.
Qed.

(** ** The parts of the URI *)

(** [args_start] is just after a "?". *)
Lemma scan_args_start mem p n m q m' :
  scan uri_step mem p n m = Some (Next (q, m')) -> m_args_start m = None ->
  forall a, m_args_start m' = Some a -> (p < a <= p + n)%nat /\ mem !! (a - 1)%nat = Some "?"%ch.
Proof.
  intros Hs Hm. pose proof (scan_pos _ _ _ _ _ _ _ Hs) as ->.
  apply (scan_partial uri_step mem (fun i m => (p <= i)%nat /\ forall a, m_args_start m = Some a ->
    (p < a <= i)%nat /\ mem !! (a - 1)%nat = Some "?"%ch) (fun _ => True)) in Hs; [by destruct Hs| |].
  - intros i c l [m1|] Hc [Hi Hl] Hst; [|done]. split; [lia|]. revert Hst.
    assert (forall a, m_args_start l = Some a ->
      (p < a <= S i)%nat /\ mem !! (a - 1)%nat = Some "?"%ch) as Hl'
      by (intros a Ha; destruct (Hl a Ha); split; [lia|done]).
    unfold uri_step, uri_start_case, after_slash_case, check_uri_case, uri_case, visible.
    intros [= Hst]. revert Hst.
    repeat (case_match; simplify_eq; try done); intros [= <-]; cbn; try done;
      intros a [= <-]; (split; [lia|]); replace (S i - 1)%nat with i by lia; rewrite Hc; f_equal; lia.
  - split; [lia|]. by rewrite Hm.
Qed.

Lemma path_length_query s i : s !! i = Some "?"%ch -> (path_length s <= i)%nat.
Proof.
  revert i. induction s as [|c s IH]; intros i; [done|]. cbn [path_length].
  destruct i as [|i]; [by intros [= ->]|]. intros Hi%IH. case_match; lia.
Qed.

Lemma path_length_le s : (path_length s <= length s)%nat.
Proof. induction s as [|c s IH]; cbn; [done|]. case_match; lia. Qed.

(** The parts as the URI means them. *)
Definition parts_of (merge : bool) (s : list Z) (r : option request_uri) : Prop :=
  match named_path merge {| uri_start := 0; uri_end := 0; empty_path_in_uri := false |} s with
  | None => r = None
  | Some (out, e) =>
      exists r', r = Some r' /\ r_uri r' = out /\ r_unparsed_uri r' = s
        /\ r_valid_unparsed_uri r' = true
        /\ r_args r' = match e with EndQuery q => before_hash q | _ => [] end
        /\ r_exten r' = default [] (path_extension out)
  end.

Lemma complex_uri_args mem merge r q pl buffer rc o :
  ngx_http_parse_complex_uri mem merge r q pl buffer = Some (rc, Some o) ->
  args o = None \/ o_args_start o = None.
Proof.
  unfold ngx_http_parse_complex_uri. intros H.
  repeat (case_match; simplify_option_eq; try done); eauto.
Qed.

Section Parts.
Context (mem : list Z) (merge : bool) (p : nat) (s : list Z).
Hypothesis mem_ok : bytes_ok mem.
Hypothesis s_at : bytes_at mem p s.
Hypothesis s_next : (p + length s < length mem)%nat.
Hypothesis s_slash : exists s', s = "/"%ch :: s'.

Lemma slice_uri : slice mem p (p + length s) = s.
Proof.
  unfold slice. replace (p + length s - p)%nat with (length s) by lia. by apply bytes_at_take.
Qed.

Lemma part_at a b c : s = a ++ b ++ c -> take (length b) (drop (p + length a) mem) = b.
Proof.
  intros Hs. pose proof s_at as H. rewrite Hs in H. apply bytes_at_app in H as [_ H].
  apply bytes_at_app in H as [H _]. by apply bytes_at_take.
Qed.

Lemma s_take : take (length s) (drop p mem) = s.
Proof. by apply bytes_at_take. Qed.

(** What the function returns for a URI that needs normalization. *)
Lemma process_complex m :
  needs_work m = true ->
  (forall a, m_args_start m = Some a ->
     (p < a <= p + length s)%nat /\ mem !! (a - 1)%nat = Some "?"%ch) ->
  exists r, ngx_http_process_request_uri mem p (p + length s) false merge m = Some r
    /\ parts_of merge s r.
Proof.
  intros Hw Ha. unfold ngx_http_process_request_uri. fold (needs_work m). rewrite Hw.
  cbn [orb]. rewrite slice_uri. set (len := match m_args_start m with Some a => _ | None => _ end).
  set (r := {| uri_start := p |}).
  assert (uri_of mem r = s) as Hu by apply slice_uri.
  destruct s_slash as [s' Hs'].
  assert (0 < length s)%nat as Hpos by (rewrite Hs'; cbn; lia).
  destruct (complex_uri_returns mem merge r (m_quoted_uri m) (m_plus_in_uri m) (repeat 0 len))
    as (rc & o & Ho & Hr).
  - done.
  - cbn. lia.
  - by rewrite Hu, Hs'.
  - rewrite Hu, repeat_length. unfold needed. cbn. subst len. rewrite Nat.add_0_r.
    destruct (m_args_start m) as [a|] eqn:Has.
    + destruct (Ha a eq_refl) as [Hlt Hq].
      apply path_length_query. rewrite <- Hq.
      destruct (lookup_lt_is_Some_2 s (a - 1 - p)) as [c Hc]; [lia|].
      rewrite Hc. symmetry. rewrite <- (s_at _ _ Hc). f_equal. lia.
    + pose proof (path_length_le s). lia.
  - rewrite Ho. cbn [mbind option_bind]. rewrite Hu in Hr. unfold parts_of.
    change (named_path merge _ s) with (named_path merge r s).
    destruct (named_path merge r s) as [[out e]|]; cbn [returns] in Hr.
    + destruct Hr as (-> & o' & -> & Hout & Hargs & Hext & _). cbn [Z.eqb NGX_OK negb].
      eexists. split; [reflexivity|]. eexists. split; [reflexivity|].
      cbn [r_uri r_unparsed_uri r_valid_unparsed_uri r_args r_exten negb].
      split; [done|]. split; [done|]. split; [done|]. split.
      * rewrite <- Hargs. unfold args_of. apply complex_uri_args in Ho.
        destruct (args o') as [[a n]|], (o_args_start o') as [a'|]; destruct Ho as [Ho|Ho];
          try done; destruct (Nat.ltb_spec a' (p + length s)); try done;
          unfold slice; by rewrite (proj2 (Nat.sub_0_le _ _)) by done.
      * unfold exten_bytes. rewrite Hext, Hout. destruct (path_extension out) as [ext|] eqn:Hpe; [|done].
        apply path_extension_suffix in Hpe as [pre ->]. cbn [mbind option_bind default].
        rewrite Nat2Z.id, length_app.
        replace (Z.to_nat _) with (length pre) by lia. by rewrite drop_app_length, take_ge.
    + destruct Hr as [-> ->]. by exists None.
Qed.

(** And for one that does not. *)
Lemma process_plain q m :
  scan uri_step mem p (length s) no_marks = Some (Next (q, m)) -> needs_work m = false ->
  exists r, ngx_http_process_request_uri mem p (p + length s) false merge m = Some r
    /\ parts_of merge s r.
Proof.
  intros Hs Hw. destruct s_slash as [s' Hs']. pose proof s_at as Hat. rewrite Hs' in Hs, Hat.
  apply bytes_at_cons in Hat as [Hp Hat]. cbn [length scan] in Hs. rewrite Hp in Hs.
  cbn in Hs.
  destruct (scan_plain mem merge s' (S p) (no_marks <| m_state := uri_sw_after_slash_in_uri |>) q m
    [] []) as (path & e & stack & Hd & Hr & Hre & He & Hx); [done..|].
  unfold ngx_http_process_request_uri. fold (needs_work m). rewrite Hw. cbn [orb].
  rewrite slice_uri. eexists. split; [reflexivity|]. unfold parts_of, named_path.
  cbn [empty_path_in_uri]. rewrite Hs', decode_path_slash, Hd.
  cbn [mbind option_bind fst snd]. rewrite normalize_run, Hr. cbn [mbind option_bind].
  rewrite Hre. eexists. split; [reflexivity|]. cbn [r_uri r_unparsed_uri r_valid_unparsed_uri r_args r_exten negb].
  cbn [render rev map concat app]. split; [|split; [|split; [|split]]].
  - destruct e as [|q0|]; [destruct He as [-> ->]|destruct He as (-> & -> & _)|done].
    + replace (p + length ("/"%ch :: path) - p)%nat with (length s) by (rewrite Hs'; lia).
      by rewrite s_take, Hs'.
    + replace (S (S p + length path) - 1 - p)%nat with (length ("/"%ch :: path)) by (cbn; lia).
      rewrite <- (Nat.add_0_r p). by apply (part_at [] _ ("?"%ch :: q0)).
  - done.
  - done.
  - destruct e as [|q0|]; [by destruct He as [_ ->]|destruct He as (-> & -> & Hb)|done].
    rewrite Hb, <- Hs'. pose proof (part_at ("/"%ch :: path ++ ["?"%ch]) q0 []) as Hq.
    rewrite app_nil_r, Hs' in Hq. cbn [length] in Hq. rewrite length_app in Hq.
    cbn [length] in Hq.
    specialize (Hq ltac:(by rewrite <- app_comm_cons, <- app_assoc)).
    replace (p + S (length path + 1))%nat with (S (S p + length path)) in Hq by lia.
    unfold slice. rewrite Hs'. cbn [length]. rewrite length_app. cbn [length].
    destruct (Nat.ltb_spec (S (S p + length path)) (p + S (length path + S (length q0)))) as [Hl|Hl].
    + transitivity (take (length q0) (drop (S (S p + length path)) mem)); [f_equal; lia|exact Hq].
    + destruct q0; [done|]. cbn in Hl. lia.
  - destruct Hx as (seg & stack0 & -> & ->).
    assert (path_extension ("/"%ch :: path) = extension seg) as Hpe.
    { change ("/"%ch :: path) with (render [] ++ "/"%ch :: [] ++ path). rewrite <- Hre.
      apply path_extension_render. by apply (run_no_slash merge [] [] path); [constructor|constructor|]. }
    unfold ext_from. rewrite Hpe. destruct (extension seg) as [ext|]; [|done].
    apply path_extension_suffix in Hpe as [pre Hpre]. cbn [mbind option_bind default].
    assert (S (length path) = length pre + length ext)%nat as Hlen
      by (rewrite <- length_app, <- Hpre; done).
    replace (S p + length path - length ext)%nat with (p + length pre)%nat by lia.
    destruct e as [|q0|]; [destruct He as [-> ->]|destruct He as (-> & -> & _)|done].
    + rewrite <- (part_at pre ext []) by (by rewrite app_nil_r, <- Hpre).
      cbn [id length]. f_equal. lia.
    + rewrite <- (part_at pre ext ("?"%ch :: q0))
        by (by rewrite app_assoc, <- Hpre).
      cbn [id]. f_equal. lia.
Qed.
End Parts.

(** Both functions, on a URI in memory. *)
Lemma uri_parts_spec mem merge p s :
  bytes_ok mem -> bytes_at mem p s -> (p + length s < length mem)%nat -> s <> [] ->
  exists rc m, ngx_http_parse_uri mem p (p + length s) no_marks = Some (rc, m)
    /\ (rc = NGX_ERROR /\ ~ uri_ok s
        \/ rc = NGX_OK /\ uri_ok s
           /\ exists r, ngx_http_process_request_uri mem p (p + length s) false merge m = Some r
              /\ parts_of merge s r).
Proof.
  intros Hmem Hat Hnext Hne.
  assert (bytes_ok s) as Hok.
  { rewrite <- (bytes_at_take mem p s Hat). by apply Forall_take, Forall_drop. }
  destruct (parse_uri_ok mem p s no_marks Hok Hat eq_refl) as (rc & m & Hparse & Hrc).
  exists rc, m. split; [done|]. destruct Hrc as [[-> Hs]|Hrc]; [right|by left].
  split_and!; [done..|]. destruct Hs as [->|(s' & Hs & _)]; [done|].
  unfold ngx_http_parse_uri in Hparse.
  replace (p + length s - p)%nat with (length s) in Hparse by lia.
  destruct (scan _ _ _ _ _) as [[[q m']|m']|] eqn:Hscan; [|done|done].
  cbn in Hparse. injection Hparse as ->.
  destruct (needs_work m) eqn:Hw.
  - apply process_complex; try done; [by exists s'|by eapply scan_args_start].
  - eapply process_plain; eauto.
Qed.

(** C23: The path and the arguments of an HTTP/2 request are what its ":path" names.
    For any bytes, [ngx_http_parse_uri] accepts them exactly when they are a slash
    and visible characters; then [ngx_http_process_request_uri] refuses the request
    exactly when an escape is malformed or NUL, or ".." leads above the root;
    otherwise the URI it sets is the decoded path with its dot segments resolved, the
    arguments are what stands between "?" and "#", and the extension is that of the last
    segment of the path.  So the URIs that the parser lets pass without normalization, as they are,
    are those that name themselves, and the buffer for the others, allocated by the
    position of "?", is large enough. *)
Theorem ngx_http_v2_path_normalizes (merge : bool) (s : list Z) (Hok : bytes_ok s) (Hne : s <> []) :
  exists r, uri_parts merge s = Some r
    /\ if decide (head s = Some "/"%ch /\ Forall uri_byte (tail s)) then parts_of merge s r
       else r = None.
Proof.
  unfold uri_parts.
  destruct (uri_parts_spec (s ++ [0]) merge 0 s) as (rc & m & Hm & Hrc).
  - by apply Forall_app_2, Forall_singleton.
  - intros i c Hi. by apply lookup_app_l_Some.
  - rewrite length_app. cbn. lia.
  - done.
  - cbn [Nat.add] in *. rewrite Hm. cbn [mbind option_bind].
    assert (uri_ok s <-> head s = Some "/"%ch /\ Forall uri_byte (tail s)) as Hiff.
    { destruct s as [|c s]; [done|]. unfold uri_ok. cbn. split.
      - by intros [?|(s' & [= -> ->] & ?)].
      - intros [[= ->] ?]. right. by exists s. }
    destruct Hrc as [[-> Hs]|(-> & Hs & r & Hr & Hp)]; cbn [Z.eqb NGX_OK NGX_ERROR negb].
    + exists None. split; [done|]. destruct (decide _) as [Hd|]; [by apply Hiff in Hd|done].
    + exists r. split; [done|]. rewrite decide_True by (by apply Hiff). done.
Qed.

Lemma ngx_http_v2_path_normalizes_witness :
  exists r, uri_parts true (bs "/a+/b.c/d.e.html?x") = Some r
    /\ parts_of true (bs "/a+/b.c/d.e.html?x") r.
Proof.
  destruct (ngx_http_v2_path_normalizes true (bs "/a+/b.c/d.e.html?x")) as (r & Hr & Hp).
  - by apply bytes_ok_check.
  - discriminate.
  - exists r. split; [exact Hr|]. revert Hp. rewrite decide_True; [done|].
    split; [reflexivity|]. cbn. repeat constructor; lia.
Defined.
