(* ===== verification/V2Request.v ===== *)
(** * V2Request: the header fields of an HTTP/2 request

    What ngx_http_v2.c does with one header field after another: the validation of
    names and values, the pseudo-headers, the cookies, and in the end the request line
    and the Cookie header that the rest of the server sees.  The fields come from the
    header block (HeaderBlock); the handlers of single headers, which
    ngx_http_request.c keeps in a hash, are a parameter. *)

From S2P Require Import Prelude Scan Http RequestLine HpackTable ComplexUri Uri.

Definition NGX_HTTP_V2_PROTOCOL_ERROR : Z := 1.
Definition NGX_ABORT : Z := -6.

(** The directives these functions read. *)
Record v2_conf := {
  underscores_in_headers : bool;
  ignore_invalid_headers : bool;
  merge_slashes : bool;
  large_client_header_buffers_size : nat;
}.

(** The request with its stream: the lists [headers_in.headers] and [stream->cookies],
    the fields of the request line, and what has become of the stream: the code of a
    RST_STREAM that was sent, and the status the request was finalized with.  [q_other]
    is what the handlers of headers work on. *)
Record v2_request (T : Type) := {
  q_headers : list header;
  q_cookies : list (list Z);
  q_method_name : list Z;
  q_method : Z;
  q_schema : list Z;
  q_uri : option request_uri;
  q_invalid_header : bool;
  q_rst_sent : option Z;
  q_finalized : option Z;
  q_other : T;
}.
Arguments q_headers {T} _.
Arguments q_cookies {T} _.
Arguments q_method_name {T} _.
Arguments q_method {T} _.
Arguments q_schema {T} _.
Arguments q_uri {T} _.
Arguments q_invalid_header {T} _.
Arguments q_rst_sent {T} _.
Arguments q_finalized {T} _.
Arguments q_other {T} _.
#[export] Instance eta_v2_request T : Eta (v2_request T) := mk_eta (fun r =>
  Build_v2_request T (q_headers r) (q_cookies r) (q_method_name r) (q_method r) (q_schema r)
    (q_uri r) (q_invalid_header r) (q_rst_sent r) (q_finalized r) (q_other r)).

(** As [ngx_http_create_request] leaves it. *)
Definition new_v2_request {T} (o : T) : v2_request T :=
  {| q_headers := []; q_cookies := []; q_method_name := []; q_method := NGX_HTTP_UNKNOWN;
     q_schema := []; q_uri := None; q_invalid_header := false; q_rst_sent := None;
     q_finalized := None; q_other := o |}.

Definition q_unparsed_uri {T} (r : v2_request T) : list Z :=
  match q_uri r with Some u => r_unparsed_uri u | None => [] end.

(** ** Validation *)

Definition is_lower (ch : Z) : bool := (ch >=? "a"%ch) && (ch <=? "z"%ch).
Definition is_upper (ch : Z) : bool := (ch >=? "A"%ch) && (ch <=? "Z"%ch).
Definition is_digit (ch : Z) : bool := (ch >=? "0"%ch) && (ch <=? "9"%ch).

(** The loop over the name: the result and [r->invalid_header]. *)
Fixpoint validate_name (underscores : bool) (name : list Z) (invalid : bool) : Z * bool :=
  match name with
  | [] => (NGX_OK, invalid)
  | ch :: name' =>
      if is_lower ch || (ch =? "-"%ch) || is_digit ch || ((ch =? "_"%ch) && underscores)
      then validate_name underscores name' invalid
      else if (ch <=? 0x20) || (ch =? 0x7f) || (ch =? ":"%ch) || is_upper ch
      then (NGX_ERROR, invalid)
      else validate_name underscores name' true
  end.

Fixpoint validate_value (value : list Z) : Z :=
  match value with
  | [] => NGX_OK
  | ch :: value' =>
      if (ch =? 0) || (ch =? LF) || (ch =? CR) then NGX_ERROR else validate_value value'
  end.

(** [header->name.data[0] == ':']; a NUL follows every name. *)
Definition is_pseudo (name : list Z) : bool := default 0 (name !! 0%nat) =? ":"%ch.

(** ** Pseudo-headers *)

Definition v2_method_tests : list (list Z * Z) := [
  (bs "GET", NGX_HTTP_GET); (bs "POST", NGX_HTTP_POST); (bs "HEAD", NGX_HTTP_HEAD);
  (bs "OPTIONS", NGX_HTTP_OPTIONS); (bs "PROPFIND", NGX_HTTP_PROPFIND);
  (bs "PUT", NGX_HTTP_PUT); (bs "MKCOL", NGX_HTTP_MKCOL); (bs "DELETE", NGX_HTTP_DELETE);
  (bs "COPY", NGX_HTTP_COPY); (bs "MOVE", NGX_HTTP_MOVE);
  (bs "PROPPATCH", NGX_HTTP_PROPPATCH); (bs "LOCK", NGX_HTTP_LOCK);
  (bs "UNLOCK", NGX_HTTP_UNLOCK); (bs "PATCH", NGX_HTTP_PATCH);
  (bs "TRACE", NGX_HTTP_TRACE); (bs "CONNECT", NGX_HTTP_CONNECT) ].

(** The loop over the tests. *)
Fixpoint find_method (tests : list (list Z * Z)) (name : list Z) : option Z :=
  match tests with
  | [] => None
  | (m, value) :: tests' => if decide (name = m) then Some value else find_method tests' name
  end.

Definition method_char (ch : Z) : bool := is_upper ch || (ch =? "_"%ch) || (ch =? "-"%ch).

(** The loop over the scheme; [first] is [i == 0]. *)
Fixpoint scheme_ok (first : bool) (value : list Z) : bool :=
  match value with
  | [] => true
  | ch :: value' =>
      let c := u8 (Z.lor ch 0x20) in
      if is_lower c then scheme_ok false value'
      else if (is_digit ch || (ch =? "+"%ch) || (ch =? "-"%ch) || (ch =? "."%ch)) && negb first
      then scheme_ok false value'
      else false
  end.

(** What becomes of the request after a field: it goes on, the stream is given up
    ([h2c->state.stream = NULL]), or the connection fails. *)
Inductive delivered (T : Type) :=
  | Kept (r : v2_request T)
  | Dropped (r : v2_request T)
  | Broken.
Arguments Kept {T} r.
Arguments Dropped {T} r.
Arguments Broken {T}.

Section Request.
Context {T : Type}.
Abbreviation request := (v2_request T).
Variable cf : v2_conf.

(** [ngx_hash_find] in [headers_in_hash], and the handler found. *)
Variable header_handler : list Z -> option (T -> header -> Z * T).

Definition ngx_http_v2_validate_header (r : request) (hd : header) : Z * request :=
  let r := r <| q_invalid_header := false |> in
  let '(rc, invalid) := validate_name (underscores_in_headers cf)
                          (if is_pseudo hd.1 then drop 1 hd.1 else hd.1) false in
  let r := r <| q_invalid_header := invalid |> in
  if negb (rc =? NGX_OK) then (NGX_ERROR, r) else (validate_value hd.2, r).

(** Finalizing with [NGX_HTTP_BAD_REQUEST]. *)
Definition bad_request (r : request) : request := r <| q_finalized := Some NGX_HTTP_BAD_REQUEST |>.

Definition ngx_http_v2_parse_path (r : request) (value : list Z) : option (Z * request) :=
  if negb (length (q_unparsed_uri r) =? 0)%nat then Some (NGX_DECLINED, r)
  else if (length value =? 0)%nat then Some (NGX_DECLINED, r)
  else
    '(rc, m) ← ngx_http_parse_uri (value ++ [0]) 0 (length value) no_marks;
    if negb (rc =? NGX_OK) then Some (NGX_DECLINED, r)
    else
      u ← ngx_http_process_request_uri (value ++ [0]) 0 (length value) false (merge_slashes cf) m;
      Some match u with
           | None => (NGX_ABORT, bad_request r)
           | Some u => (NGX_OK, r <| q_uri := Some u |>)
           end.

Definition ngx_http_v2_parse_method (r : request) (value : list Z) : Z * request :=
  if negb (length (q_method_name r) =? 0)%nat then (NGX_DECLINED, r)
  else if (length value =? 0)%nat then (NGX_DECLINED, r)
  else
    let r := r <| q_method_name := value |> in
    match find_method v2_method_tests value with
    | Some m => (NGX_OK, r <| q_method := m |>)
    | None => if forallb method_char value then (NGX_OK, r) else (NGX_DECLINED, r)
    end.

Definition ngx_http_v2_parse_scheme (r : request) (value : list Z) : Z * request :=
  if negb (length (q_schema r) =? 0)%nat then (NGX_DECLINED, r)
  else if (length value =? 0)%nat then (NGX_DECLINED, r)
  else if scheme_ok true value then (NGX_OK, r <| q_schema := value |>) else (NGX_DECLINED, r).

Definition push_header (r : request) (hd : header) : request :=
  r <| q_headers := q_headers r ++ [hd] |>.

(** [ngx_http_v2_parse_authority] and [ngx_http_v2_parse_header] for "host". *)
Definition ngx_http_v2_parse_authority (r : request) (value : list Z) : Z * request :=
  let hd := (bs "host", value) in
  let r := push_header r hd in
  match header_handler (bs "host") with
  | None => (NGX_ERROR, r)
  | Some handler =>
      let '(rc, o) := handler (q_other r) hd in
      (if negb (rc =? NGX_OK) then NGX_ABORT else NGX_OK, r <| q_other := o |>)
  end.

(** [name] is the name after the colon. *)
Definition ngx_http_v2_pseudo_header (r : request) (name value : list Z) : option (Z * request) :=
  if decide (name = bs "path") then ngx_http_v2_parse_path r value
  else Some
    (if decide (name = bs "method") then ngx_http_v2_parse_method r value
     else if decide (name = bs "scheme") then ngx_http_v2_parse_scheme r value
     else if decide (name = bs "authority") then ngx_http_v2_parse_authority r value
     else (NGX_DECLINED, r)).

(** ** One field *)

Definition ngx_http_v2_cookie (r : request) (value : list Z) : request :=
  r <| q_cookies := q_cookies r ++ [value] |>.

(** [ngx_http_v2_terminate_stream], but for the closing of the stream, which its read
    handler does. *)
Definition ngx_http_v2_terminate_stream (r : request) (status : Z) : request :=
  match q_rst_sent r with
  | Some _ => r
  | None => r <| q_rst_sent := Some status |>
  end.

(** [ngx_http_v2_state_process_header] from [r = h2c->state.stream->request] on. *)
Definition deliver (r : request) (hd : header) : option (delivered T) :=
  let '(rc, r) := ngx_http_v2_validate_header r hd in
  if negb (rc =? NGX_OK) then
    Some (Dropped (ngx_http_v2_terminate_stream r NGX_HTTP_V2_PROTOCOL_ERROR))
  else if is_pseudo hd.1 then
    '(rc, r) ← ngx_http_v2_pseudo_header r (drop 1 hd.1) hd.2;
    Some (if rc =? NGX_OK then Kept r
          else if rc =? NGX_ABORT then Dropped r
          else if rc =? NGX_DECLINED then Dropped (bad_request r)
          else Broken)
  else if q_invalid_header r && ignore_invalid_headers cf then Some (Kept r)
  else if decide (hd.1 = bs "cookie") then Some (Kept (ngx_http_v2_cookie r hd.2))
  else
    let r := push_header r hd in
    Some match header_handler hd.1 with
         | None => Kept r
         | Some handler =>
             let '(rc, o) := handler (q_other r) hd in
             let r := r <| q_other := o |> in
             if negb (rc =? NGX_OK) then Dropped r else Kept r
         end.

(** One field after another, as long as the stream is there. *)
Fixpoint deliver_all (r : request) (hds : list header) : option (delivered T) :=
  match hds with
  | [] => Some (Kept r)
  | hd :: hds' =>
      d ← deliver r hd;
      match d with
      | Kept r => deliver_all r hds'
      | _ => Some d
      end
  end.

(** ** After the last field *)

(** [ngx_http_v2_construct_request_line]; [None] inside: the request is finalized. *)
Definition ngx_http_v2_construct_request_line (r : request) : option (list Z) :=
  if (length (q_method_name r) =? 0)%nat || (length (q_schema r) =? 0)%nat
     || (length (q_unparsed_uri r) =? 0)%nat
  then None
  else Some (q_method_name r ++ " "%ch :: q_unparsed_uri r ++ bs " HTTP/2.0").

(** The loop that fills [buf]; [None] when it leaves [vals] or the buffer of [len + 1]
    bytes. *)
Fixpoint join_cookies (len : nat) (buf : list Z) (vals : list (list Z)) : option (list Z) :=
  match vals with
  | [] => None
  | v :: vals' =>
      let buf := buf ++ v in
      if (len <? length buf)%nat then None
      else if (length buf =? len)%nat then Some buf
      else if (len + 1 <? length buf + 2)%nat then None
      else join_cookies len (buf ++ bs "; ") vals'
  end.

Definition cookies_length (vals : list (list Z)) : nat :=
  (foldr (fun v n => length v + 2 + n) 0 vals - 2)%nat.

(** The result and the request. *)
Definition ngx_http_v2_construct_cookie_header (r : request) : option (Z * request) :=
  match q_cookies r with
  | [] => Some (NGX_OK, r)
  | vals =>
      buf ← join_cookies (cookies_length vals) [] vals;
      let hd := (bs "cookie", buf) in
      let r := push_header r hd in
      Some match header_handler (bs "cookie") with
           | None => (NGX_ERROR, r)
           | Some handler =>
               let '(rc, o) := handler (q_other r) hd in
               (if negb (rc =? NGX_OK) then NGX_ERROR else NGX_OK, r <| q_other := o |>)
           end
  end.
End Request.

(** ** What is accepted *)

Definition between (lo hi c : Z) : bool := (lo <=? c) && (c <=? hi).

(** A byte of a name: visible, not a capital, not a colon.  A byte of a value. *)
Definition name_char (c : Z) : Prop :=
  0x20 < c /\ c <> 0x7f /\ c <> ":"%ch /\ ~ ("A"%ch <= c <= "Z"%ch).
Definition value_char (c : Z) : Prop := c <> 0 /\ c <> LF /\ c <> CR.
(** The names that are not "invalid". *)
Definition plain_char (underscores : bool) (c : Z) : bool :=
  between "a"%ch "z"%ch c || between "0"%ch "9"%ch c || (c =? "-"%ch)
  || ((c =? "_"%ch) && underscores).
(** A method; a scheme, as in RFC 3986. *)
Definition method_byte (c : Z) : Prop := "A"%ch <= c <= "Z"%ch \/ c = "_"%ch \/ c = "-"%ch.
Definition letter (c : Z) : Prop := "a"%ch <= c <= "z"%ch \/ "A"%ch <= c <= "Z"%ch.
Definition scheme_name (s : list Z) : Prop :=
  exists c s', s = c :: s' /\ letter c
    /\ Forall (fun c => letter c \/ "0"%ch <= c <= "9"%ch \/ c = "+"%ch \/ c = "-"%ch \/ c = "."%ch) s'.

Lemma plain_char_tests us c :
  is_lower c || (c =? "-"%ch) || is_digit c || ((c =? "_"%ch) && us) = plain_char us c.
Proof. unfold plain_char, between, is_lower, is_digit. destruct us; lia. Qed.

Lemma method_char_byte v : forallb method_char v = true -> Forall method_byte v.
Proof.
  intros H. rewrite forallb_forall in H. apply list.Forall_forall. intros c Hc%list_elem_of_In%H.
  unfold method_char, method_byte, is_upper in *. lia.
Qed.

Lemma scheme_ok_name first v : bytes_ok v -> scheme_ok first v = true -> v <> [] ->
  if first then scheme_name v
  else Forall (fun c => letter c \/ "0"%ch <= c <= "9"%ch \/ c = "+"%ch \/ c = "-"%ch \/ c = "."%ch) v.
Proof.
  assert (forall c, is_u8 c -> is_lower (u8 (Z.lor c 0x20)) = between "a"%ch "z"%ch c || between "A"%ch "Z"%ch c)
    as Hlor.
  { intros c Hc. apply eqb_prop. revert c Hc.
    by apply (forall_u8 (fun c => eqb (is_lower (u8 (Z.lor c 0x20))) _)); vm_compute. }
  assert (forall v, bytes_ok v -> scheme_ok false v = true ->
    Forall (fun c => letter c \/ "0"%ch <= c <= "9"%ch \/ c = "+"%ch \/ c = "-"%ch \/ c = "."%ch) v) as Hrest.
  { induction 1 as [|c l Hc Hl IH]; [constructor|]. cbn [scheme_ok]. rewrite Hlor by done.
    unfold letter, between, is_digit in *. case_match; [intros ?%IH; constructor; [lia|done]|].
    rewrite andb_true_r. case_match; [intros ?%IH; constructor; [lia|done]|done]. }
  intros Hok Hs Hne. destruct first; [|by apply Hrest]. destruct Hok as [|c l Hc Hl]; [done|].
  cbn [scheme_ok] in Hs. rewrite Hlor in Hs by done. rewrite andb_false_r in Hs.
  destruct (between _ _ c || between _ _ c) eqn:Hb; [|done].
  exists c, l. split; [done|]. split; [unfold letter, between in *; lia|by apply Hrest].
Qed.

Lemma validate_name_spec us name inv :
  exists rc i, validate_name us name inv = (rc, i)
    /\ (rc = NGX_OK /\ Forall name_char name
        /\ i = inv || negb (forallb (plain_char us) name)
        \/ rc = NGX_ERROR /\ ~ Forall name_char name).
Proof.
  revert inv. induction name as [|c name IH]; intros inv; cbn [validate_name forallb].
  { exists NGX_OK, inv. split; [done|]. left. by rewrite orb_false_r. }
  rewrite plain_char_tests. destruct (plain_char us c) eqn:Hp.
  - assert (name_char c) as Hc.
    { revert Hp. unfold plain_char, name_char, between. lia. }
    destruct (IH inv) as (rc & i & -> & Hr). exists rc, i. split; [done|].
    destruct Hr as [(-> & Hn & Hi)|[-> Hn]]; [left|right]; (split; [done|]).
    + split; [by constructor|done].
    + intros [_ H]%Forall_cons_1. done.
  - destruct (_ || _) eqn:Hbad.
    + exists NGX_ERROR, inv. split; [done|]. right. split; [done|].
      intros [(H1 & H2 & H3 & H4) _]%Forall_cons_1. unfold is_upper in Hbad. lia.
    + assert (name_char c) as Hc by (unfold name_char, is_upper in *; lia).
      destruct (IH true) as (rc & i & -> & Hr). exists rc, i. split; [done|].
      destruct Hr as [(-> & Hn & Hi)|[-> Hn]]; [left|right]; (split; [done|]).
      * split; [by constructor|]. rewrite Hi. cbn. by rewrite orb_true_r.
      * intros [_ H]%Forall_cons_1. done.
Qed.

Lemma validate_value_spec v :
  validate_value v = NGX_OK /\ Forall value_char v
  \/ validate_value v = NGX_ERROR /\ ~ Forall value_char v.
Proof.
  induction v as [|c v IH]; cbn [validate_value]; [by left|].
  unfold value_char in *. destruct (_ || _) eqn:Hc.
  - right. split; [done|]. intros [H _]%Forall_cons_1. unfold LF, CR in *. lia.
  - destruct IH as [[-> H]|[-> H]]; [left|right]; (split; [done|]).
    + constructor; [unfold LF, CR in *; lia|done].
    + intros [_ ?]%Forall_cons_1. done.
Qed.

(** The name without the colon of a pseudo-header. *)
Definition pseudo (name : list Z) : bool := bool_decide (head name = Some ":"%ch).
Definition bare_name (name : list Z) : list Z := if pseudo name then drop 1 name else name.

Definition valid_field (hd : header) : Prop :=
  Forall name_char (bare_name hd.1) /\ Forall value_char hd.2.

Lemma is_pseudo_spec name : is_pseudo name = true <-> exists n, name = ":"%ch :: n.
Proof.
  unfold is_pseudo. destruct name as [|c name]; cbn; [split; [done|by intros []]|].
  rewrite Z.eqb_eq. split; [intros ->; by exists name|by intros (n & [= -> _])].
Qed.

Lemma is_pseudo_head name : is_pseudo name = pseudo name.
Proof.
  apply eq_true_iff_eq. rewrite is_pseudo_spec. unfold pseudo. rewrite bool_decide_eq_true.
  destruct name as [|c name]; cbn; [by split; [intros []|]|].
  split; [by intros (n & [= -> _])|intros [= ->]; by exists name].
Qed.

(** The cookies in one header. *)
Fixpoint joined (vals : list (list Z)) : list Z :=
  match vals with
  | [] => []
  | [v] => v
  | v :: vals' => v ++ bs "; " ++ joined vals'
  end.

Section Accepted.
Context {T : Type}.
Variable cf : v2_conf.
Variable header_handler : list Z -> option (T -> header -> Z * T).
Abbreviation request := (v2_request T).

(** What one field adds to the lists: an authority is a Host header; a name with other
    characters is left out, if so configured; cookies are kept apart. *)
Definition is_cookie (hd : header) : bool := bool_decide (hd.1 = bs "cookie").
Definition headers_of (hd : header) : list header :=
  if pseudo hd.1 then
    if decide (hd.1 = bs ":authority") then [(bs "host", hd.2)] else []
  else if negb (forallb (plain_char (underscores_in_headers cf)) hd.1) && ignore_invalid_headers cf
  then []
  else if is_cookie hd then [] else [hd].
Definition cookies_of (hd : header) : list (list Z) := if is_cookie hd then [hd.2] else [].

(** The handlers of the headers, one after another, as long as they succeed. *)
Fixpoint handled (hds : list header) (o : T) : option T :=
  match hds with
  | [] => Some o
  | hd :: hds' =>
      match header_handler hd.1 with
      | None => handled hds' o
      | Some handler =>
          let '(rc, o') := handler o hd in
          if rc =? NGX_OK then handled hds' o' else None
      end
  end.

Lemma handled_app hds1 hds2 o : handled (hds1 ++ hds2) o = o' ← handled hds1 o; handled hds2 o'.
Proof.
  revert o. induction hds1 as [|hd hds1 IH]; intros o; [done|]. cbn [app handled].
  destruct (header_handler hd.1) as [f|]; [|apply IH].
  destruct (f o hd) as [rc o']. by destruct (rc =? NGX_OK).
Qed.

(** A pseudo-header that sets a part of the request line: once, and not to nothing. *)
Definition sets (name : list Z) (hd : header) (old new : list Z) : Prop :=
  if decide (hd.1 = name) then old = [] /\ new = hd.2 /\ hd.2 <> [] else new = old.

Record accepts (r : request) (hd : header) (r' : request) : Prop := {
  acc_valid : valid_field hd;
  acc_headers : q_headers r' = q_headers r ++ headers_of hd;
  acc_cookies : q_cookies r' = q_cookies r ++ cookies_of hd;
  acc_method : sets (bs ":method") hd (q_method_name r) (q_method_name r');
  acc_scheme : sets (bs ":scheme") hd (q_schema r) (q_schema r');
  acc_path : sets (bs ":path") hd (q_unparsed_uri r) (q_unparsed_uri r');
  acc_other : handled (headers_of hd) (q_other r) = Some (q_other r');
  acc_number : q_method r'
    = if decide (hd.1 = bs ":method") then method_of_name hd.2 (q_method r) else q_method r;
  acc_method_ok : hd.1 = bs ":method" -> Forall method_byte hd.2;
  acc_scheme_ok : hd.1 = bs ":scheme" -> scheme_name hd.2;
  acc_path_ok : hd.1 = bs ":path" -> uri_ok hd.2 /\ parts_of (merge_slashes cf) hd.2 (q_uri r');
  acc_path_kept : hd.1 <> bs ":path" -> q_uri r' = q_uri r;
}.

Lemma validate_header_spec (r : request) hd :
  exists rc inv, ngx_http_v2_validate_header cf r hd = (rc, r <| q_invalid_header := inv |>)
    /\ (rc = NGX_OK /\ valid_field hd
        /\ inv = negb (forallb (plain_char (underscores_in_headers cf)) (bare_name hd.1))
        \/ rc = NGX_ERROR /\ ~ valid_field hd).
Proof.
  unfold ngx_http_v2_validate_header, valid_field. rewrite is_pseudo_head. fold (bare_name hd.1).
  destruct (validate_name_spec (underscores_in_headers cf) (bare_name hd.1) false)
    as (rc & i & -> & Hr).
  destruct Hr as [(-> & Hn & Hi)|[-> Hn]]; cbn [Z.eqb NGX_OK NGX_ERROR negb].
  - do 2 eexists. split; [reflexivity|].
    destruct (validate_value_spec hd.2) as [[-> Hv]|[-> Hv]]; [left|right].
    + by split_and!.
    + split; [done|]. by intros [].
  - do 2 eexists. split; [reflexivity|]. right. split; [done|]. by intros [].
Qed.

(** The tests find the number that the request line of HTTP/1.x has for the name. *)
Lemma find_method_name v old : default old (find_method v2_method_tests v) = method_of_name v old.
Proof.
  assert (forall l l' : list Z, (length l' =? length l)%nat && eqb_bytes l l' = bool_decide (l = l')) as Heq.
  { intros l l'. apply eq_true_iff_eq. rewrite bool_decide_eq_true, andb_true_iff, Nat.eqb_eq.
    revert l'. induction l as [|c l IH]; intros [|c' l']; cbn; [done|by split; [intros []|]..|].
    rewrite andb_true_iff, Z.eqb_eq. split.
    - intros (Hl & -> & He). f_equal. apply IH. by split; [injection Hl|].
    - intros [= -> ->]. destruct (proj2 (IH l') eq_refl). by split_and!. }
  unfold method_of_name.
  assert (forall table, match find (fun e : list Z * Z => (length e.1 =? length v)%nat && eqb_bytes v e.1) table with
    | Some (_, x) => x | None => old end = default old (find_method table v)) as ->.
  { induction table as [|[n x] table IH]; [done|]. cbn [find find_method fst snd]. rewrite Heq.
    by case_bool_decide; [rewrite decide_True|rewrite decide_False]. }
  unfold v2_method_tests, method_table. cbn [find_method].
  repeat (case_decide; [subst; repeat case_decide; done|]). done.
Qed.

Lemma find_method_chars v m : find_method v2_method_tests v = Some m -> forallb method_char v = true.
Proof.
  assert (forall tests, Forall (fun t => forallb method_char t.1 = true) tests ->
    find_method tests v = Some m -> forallb method_char v = true) as H.
  { intros tests. induction 1 as [|[n x] tests Hn Htests IH]; [done|].
    cbn [find_method]. case_decide; [by subst|done]. }
  apply H. repeat constructor.
Qed.

Lemma length_0 {A} (l : list A) : (length l =? 0)%nat = bool_decide (l = []).
Proof. by destruct l. Qed.

(** The four pseudo-headers. *)
Lemma parse_method_accepts (r : request) value r' :
  ngx_http_v2_parse_method r value = (NGX_OK, r') ->
  r' = r <| q_method_name := value |> <| q_method := method_of_name value (q_method r) |>
  /\ q_method_name r = [] /\ value <> [] /\ Forall method_byte value.
Proof.
  unfold ngx_http_v2_parse_method. rewrite !length_0.
  case_bool_decide; [|done]. case_bool_decide; [done|]. cbn [negb].
  rewrite <- find_method_name. destruct (find_method _ _) as [m|] eqn:Hm.
  - intros [= <-]. split_and!; [done..|]. by eapply method_char_byte, find_method_chars.
  - destruct (forallb method_char value) eqn:Hv; [|done]. intros [= <-].
    split_and!; [by destruct r|done..|]. by apply method_char_byte.
Qed.

Lemma parse_scheme_accepts (r : request) value r' :
  bytes_ok value -> ngx_http_v2_parse_scheme r value = (NGX_OK, r') ->
  r' = r <| q_schema := value |> /\ q_schema r = [] /\ value <> [] /\ scheme_name value.
Proof.
  intros Hok. unfold ngx_http_v2_parse_scheme. rewrite !length_0.
  case_bool_decide; [|done]. case_bool_decide; [done|]. cbn [negb].
  case_match; [|done]. intros [= <-]. split_and!; [done..|].
  by apply (scheme_ok_name true).
Qed.

Lemma parse_path_accepts (r : request) value :
  bytes_ok value ->
  exists rc r', ngx_http_v2_parse_path cf r value = Some (rc, r')
    /\ (rc = NGX_OK -> q_unparsed_uri r = [] /\ value <> [] /\ uri_ok value
        /\ exists u, r' = r <| q_uri := Some u |> /\ parts_of (merge_slashes cf) value (Some u)).
Proof.
  intros Hok. unfold ngx_http_v2_parse_path. rewrite !length_0.
  case_bool_decide; [|by do 2 eexists]. case_bool_decide; [by do 2 eexists|]. cbn [negb].
  destruct (uri_parts_spec (value ++ [0]) (merge_slashes cf) 0 value) as (rc & m & Hm & Hrc).
  - by apply Forall_app_2, Forall_singleton.
  - intros i c Hi. by apply lookup_app_l_Some.
  - rewrite length_app. cbn. lia.
  - done.
  - cbn [Nat.add] in *. rewrite Hm. cbn [mbind option_bind].
    destruct Hrc as [[-> Hs]|(-> & Hs & u & Hu & Hp)]; cbn [Z.eqb NGX_OK NGX_ERROR negb];
      [by do 2 eexists|].
    rewrite Hu. cbn [mbind option_bind]. destruct u as [u|]; [|by do 2 eexists].
    do 2 eexists. split; [done|]. intros _. split_and!; [done..|]. by exists u.
Qed.

Lemma parts_of_unparsed merge s u : parts_of merge s (Some u) -> r_unparsed_uri u = s.
Proof.
  unfold parts_of. destruct (named_path _ _ _) as [[out e]|]; [|done].
  by intros (u' & [= <-] & _ & ? & _).
Qed.

Lemma sets_other name hd (x : list Z) : hd.1 <> name -> sets name hd x x.
Proof. intros H. unfold sets. by rewrite decide_False. Qed.

(** The fields that are not pseudo-headers. *)
Lemma accepts_regular (r r' : request) hd :
  pseudo hd.1 = false -> valid_field hd ->
  q_headers r' = q_headers r ++ headers_of hd -> q_cookies r' = q_cookies r ++ cookies_of hd ->
  handled (headers_of hd) (q_other r) = Some (q_other r') -> q_method r' = q_method r ->
  q_method_name r' = q_method_name r -> q_schema r' = q_schema r -> q_uri r' = q_uri r ->
  accepts r hd r'.
Proof.
  intros Hp Hv Hh Hc Ho Hn Hm Hs Hu.
  assert (forall n, hd.1 <> ":"%ch :: n) as Hne.
  { intros n Hn'. unfold pseudo in Hp. by rewrite Hn' in Hp. }
  constructor; try done; [rewrite Hm|rewrite Hs|unfold q_unparsed_uri; rewrite Hu| | | |];
    try (apply sets_other, Hne); [by rewrite decide_False by apply Hne|..];
    intros H; by apply Hne in H.
Qed.

(** A pseudo-header that was understood. *)
Lemma pseudo_header_accepts (r : request) n value :
  bytes_ok value -> valid_field (":"%ch :: n, value) ->
  exists rc r', ngx_http_v2_pseudo_header cf header_handler r n value = Some (rc, r')
    /\ (rc = NGX_OK -> accepts r (":"%ch :: n, value) r').
Proof.
  intros Hok Hv. unfold ngx_http_v2_pseudo_header.
  assert (forall m, n <> m -> ":"%ch :: n <> ":"%ch :: m) as Hne by congruence.
  destruct (decide (n = bs "path")) as [->|Hpath].
  { destruct (parse_path_accepts r value Hok) as (rc & r' & -> & Hr). exists rc, r'.
    split; [done|]. intros (H1 & H2 & H3 & u & -> & H4)%Hr.
    constructor; cbn; try done; try (by rewrite app_nil_r).
    unfold q_unparsed_uri. cbn. by rewrite (parts_of_unparsed _ _ _ H4). }
  eexists _, _. split; [by rewrite <- surjective_pairing|].
  destruct (decide (n = bs "method")) as [->|Hmethod].
  { destruct (ngx_http_v2_parse_method r value) as [rc r'] eqn:Hm. cbn [fst snd]. intros ->.
    apply parse_method_accepts in Hm as (-> & H1 & H2 & H3).
    constructor; cbn; try done; by rewrite app_nil_r. }
  destruct (decide (n = bs "scheme")) as [->|Hscheme].
  { destruct (ngx_http_v2_parse_scheme r value) as [rc r'] eqn:Hm. cbn [fst snd]. intros ->.
    apply parse_scheme_accepts in Hm as (-> & H1 & H2 & H3); [|done].
    constructor; cbn; try done; by rewrite app_nil_r. }
  destruct (decide (n = bs "authority")) as [->|]; [|done].
  unfold ngx_http_v2_parse_authority. destruct (header_handler _) as [f|] eqn:Hf; [|done].
  destruct (f _ _) as [rc o] eqn:Hfo. cbn [fst snd]. destruct (Z.eqb_spec rc NGX_OK) as [->|]; [|done].
  intros _.
  assert (handled (headers_of (":"%ch :: bs "authority", value)) (q_other r) = Some o) as Hh.
  { change (headers_of _) with [(bs "host", value)]. cbn [handled fst]. rewrite Hf.
    change (q_other (push_header r (bs "host", value))) with (q_other r) in Hfo. by rewrite Hfo. }
  constructor; try done; cbn; by rewrite ?app_nil_r.
Qed.

Lemma deliver_ok (r : request) hd :
  bytes_ok hd.2 ->
  exists d, deliver cf header_handler r hd = Some d /\ forall r', d = Kept r' -> accepts r hd r'.
Proof.
  intros Hok. unfold deliver.
  destruct (validate_header_spec r hd) as (rc & inv & -> & Hrc).
  destruct Hrc as [(-> & Hv & ->)|[-> Hv]]; cbn [Z.eqb NGX_OK NGX_ERROR negb];
    [|by eexists]. rewrite is_pseudo_head. unfold bare_name in *. set (r1 := r <| q_invalid_header := _ |>).
  destruct (pseudo hd.1) eqn:Hp.
  - rewrite <- is_pseudo_head in Hp. pose proof Hp as (n & Hn)%is_pseudo_spec. destruct hd as [name value]. cbn in Hn, Hok. subst name.
    cbn [fst snd] in *. change (drop 1 (":"%ch :: n)) with n in *.
    destruct (pseudo_header_accepts r1 n value Hok Hv) as (rc & r' & -> & Hacc).
    cbn [mbind option_bind]. eexists. split; [reflexivity|]. intros r2.
    destruct (Z.eqb_spec rc NGX_OK) as [->|]; [|by repeat case_match].
    intros [= <-]. by destruct (Hacc eq_refl); constructor.
  - cbn [q_invalid_header field_set r1]. destruct (_ && _) eqn:Hign.
    { eexists. split; [reflexivity|]. intros r' [= <-].
      assert (is_cookie hd = false) as Hc.
      { unfold is_cookie. apply bool_decide_eq_false. intros Hc. by rewrite Hc in Hign. }
      assert (headers_of hd = []) as Hh by (unfold headers_of; by rewrite Hp, Hign).
      apply accepts_regular; try done; rewrite ?Hh; unfold cookies_of; rewrite ?Hc; cbn;
        by rewrite ?app_nil_r. }
    assert (headers_of hd = if is_cookie hd then [] else [hd]) as Hh
      by (unfold headers_of; by rewrite Hp, Hign).
    destruct (decide (hd.1 = bs "cookie")) as [Hck|Hck].
    { eexists. split; [reflexivity|]. intros r' [= <-].
      assert (is_cookie hd = true) as Hc by by apply bool_decide_eq_true.
      apply accepts_regular; try done; rewrite ?Hh; unfold cookies_of; rewrite ?Hc; cbn;
        by rewrite ?app_nil_r. }
    assert (is_cookie hd = false) as Hc by by apply bool_decide_eq_false. rewrite Hc in Hh.
    eexists. split; [reflexivity|]. intros r' Hr'.
    assert (handled [hd] (q_other r) = Some (q_other r')
      /\ r' = (push_header r1 hd) <| q_other := q_other r' |>) as [Ho ->].
    { cbn [handled]. destruct (header_handler hd.1) as [f|]; [|by injection Hr' as <-].
      change (q_other (push_header r1 hd)) with (q_other r) in Hr'.
      destruct (f _ hd) as [rc o]. destruct (rc =? NGX_OK); [|done]. by injection Hr' as <-. }
    apply accepts_regular; try done; rewrite ?Hh; unfold cookies_of; rewrite ?Hc; cbn;
      by rewrite ?app_nil_r.
Qed.

(** The values of the fields with one name, in their order. *)
Definition values (name : list Z) (hds : list header) : list (list Z) :=
  map snd (filter (fun hd => hd.1 = name) hds).

Lemma values_cons name hd hds :
  values name (hd :: hds) = if decide (hd.1 = name) then hd.2 :: values name hds else values name hds.
Proof. unfold values. rewrite filter_cons. by case_decide. Qed.

(** A part of the request line, set at most once. *)
Definition once (name old : list Z) (hds : list header) (new : list Z) : Prop :=
  match values name hds with
  | [] => new = old
  | [v] => old = [] /\ new = v /\ v <> []
  | _ => False
  end.

Lemma once_cons name hd old mid hds new :
  sets name hd old mid -> once name mid hds new -> once name old (hd :: hds) new.
Proof.
  unfold sets, once. rewrite values_cons. case_decide as Hn; [|by intros ->].
  intros (-> & -> & Hne). destruct (values name hds) as [|v [|v' l]]; [|by intros []|done].
  by intros ->.
Qed.

(** What the accepted fields make of a request. *)
Record accepts_all (r : request) (hds : list header) (r' : request) : Prop := {
  all_valid : Forall valid_field hds;
  all_headers : q_headers r' = q_headers r ++ flat_map headers_of hds;
  all_cookies : q_cookies r' = q_cookies r ++ flat_map cookies_of hds;
  all_method : once (bs ":method") (q_method_name r) hds (q_method_name r');
  all_scheme : once (bs ":scheme") (q_schema r) hds (q_schema r');
  all_path : once (bs ":path") (q_unparsed_uri r) hds (q_unparsed_uri r');
  all_other : handled (flat_map headers_of hds) (q_other r) = Some (q_other r');
  all_number : q_method r'
    = match values (bs ":method") hds with [m] => method_of_name m (q_method r) | _ => q_method r end;
  all_method_ok : Forall (Forall method_byte) (values (bs ":method") hds);
  all_scheme_ok : Forall scheme_name (values (bs ":scheme") hds);
  all_path_ok : Forall (fun p => uri_ok p /\ parts_of (merge_slashes cf) p (q_uri r'))
                  (values (bs ":path") hds);
  all_path_kept : values (bs ":path") hds = [] -> q_uri r' = q_uri r;
}.

Lemma accepts_all_cons r hd r1 hds r' :
  accepts r hd r1 -> accepts_all r1 hds r' -> accepts_all r (hd :: hds) r'.
Proof.
  intros [A1 A2 A3 A4 A5 A6 Ao An A7 As A8 A9] [B1 B2 B3 B4 B5 B6 Bo Bn B7 Bs B8 B9]. constructor.
  - by constructor.
  - by rewrite B2, A2, <- app_assoc.
  - by rewrite B3, A3, <- app_assoc.
  - by eapply once_cons.
  - by eapply once_cons.
  - by eapply once_cons.
  - cbn [flat_map]. by rewrite handled_app, Ao.
  - rewrite values_cons, Bn, An. case_decide as Hn; [|done].
    unfold once, sets in *. rewrite decide_True in A4 by done. destruct A4 as (_ & Hr1 & Hne).
    destruct (values (bs ":method") hds) as [|v [|]]; [done| |done]. destruct B4 as [B4 _]. congruence.
  - clear An. rewrite values_cons. case_decide as Hn; [|done]. constructor; [by apply A7|done].
  - clear An. rewrite values_cons. case_decide as Hn; [|done]. constructor; [by apply As|done].
  - clear An. rewrite values_cons. case_decide as Hn; [|done]. constructor; [|done].
    destruct (A8 Hn) as [H1 H2]. split; [done|].
    assert (q_uri r' = q_uri r1) as ->; [|done]. apply B9.
    unfold once, sets in *. rewrite decide_True in A6 by done. destruct A6 as (_ & Hr1 & Hne).
    destruct (values (bs ":path") hds) as [|v [|]]; [done| |done]. destruct B6 as [B6 _]. congruence.
  - clear An. rewrite values_cons. case_decide as Hn; [done|]. intros Hv. by rewrite B9, A9.
Qed.

Lemma deliver_all_ok (r : request) hds :
  Forall (fun hd => bytes_ok hd.2) hds ->
  exists d, deliver_all cf header_handler r hds = Some d
    /\ forall r', d = Kept r' -> accepts_all r hds r'.
Proof.
  intros Hok. revert r. induction Hok as [|hd hds Hhd Hok IH]; intros r; cbn [deliver_all].
  { eexists. split; [done|]. intros r' [= <-]. constructor; cbn; rewrite ?app_nil_r; done. }
  destruct (deliver_ok r hd Hhd) as (d & -> & Hd). cbn [mbind option_bind].
  destruct d as [r1|r1|]; [|by eexists|by eexists].
  destruct (IH r1) as (d & -> & Hd'). exists d. split; [done|].
  intros r' ->. eapply accepts_all_cons; [by apply Hd|by apply Hd'].
Qed.

Lemma joined_length v vals : length (joined (v :: vals)) = cookies_length (v :: vals).
Proof.
  unfold cookies_length. revert v. induction vals as [|v' vals IH]; intros v; [cbn; lia|].
  change (joined (v :: v' :: vals)) with (v ++ bs "; " ++ joined (v' :: vals)).
  rewrite !length_app, IH. cbn [foldr length bs]. lia.
Qed.

Lemma join_cookies_ok len buf v vals :
  (len = length buf + length (joined (v :: vals)))%nat ->
  join_cookies len buf (v :: vals) = Some (buf ++ joined (v :: vals)).
Proof.
  revert buf v. induction vals as [|v' vals IH]; intros buf v Hlen.
  - cbn [joined join_cookies] in *. rewrite length_app.
    rewrite (proj2 (Nat.ltb_ge _ _)), (proj2 (Nat.eqb_eq _ _)) by lia. done.
  - change (joined (v :: v' :: vals)) with (v ++ bs "; " ++ joined (v' :: vals)) in *.
    rewrite !length_app in Hlen. change (length (bs "; ")) with 2%nat in Hlen.
    cbn [join_cookies] in *. rewrite length_app.
    rewrite (proj2 (Nat.ltb_ge _ _)), (proj2 (Nat.eqb_neq _ _)), (proj2 (Nat.ltb_ge _ _)) by lia.
    rewrite IH; [by rewrite <- !app_assoc|]. rewrite !length_app. cbn. cbn in Hlen. lia.
Qed.

(** [ngx_http_v2_construct_cookie_header] fills its buffer exactly: the Cookie header is
    the cookies with "; " between them, and has its handler run. *)
Definition cookie_header (cookies : list (list Z)) : list header :=
  match cookies with [] => [] | vals => [(bs "cookie", joined vals)] end.

Lemma construct_cookie_header_ok (r : request) :
  exists rc r', ngx_http_v2_construct_cookie_header header_handler r = Some (rc, r')
    /\ q_headers r' = q_headers r ++ cookie_header (q_cookies r)
    /\ (rc = NGX_OK -> handled (cookie_header (q_cookies r)) (q_other r) = Some (q_other r')).
Proof.
  unfold ngx_http_v2_construct_cookie_header.
  destruct (q_cookies r) as [|v vals]; [by do 2 eexists; rewrite app_nil_r|].
  rewrite join_cookies_ok by (by rewrite joined_length). cbn [mbind option_bind app].
  cbn [cookie_header handled fst]. destruct (header_handler _) as [f|]; [|by do 2 eexists].
  change (q_other (push_header r (bs "cookie", joined (v :: vals)))) with (q_other r).
  destruct (f _ _) as [rc o]. do 2 eexists. split; [reflexivity|]. split; [done|].
  by destruct (rc =? NGX_OK).
Qed.

(** The request line that the fields ask for: there is one if each part occurs once. *)
Definition request_line (hds : list header) : option (list Z) :=
  match values (bs ":method") hds, values (bs ":scheme") hds, values (bs ":path") hds with
  | [method], [_], [path] => Some (method ++ bs " " ++ path ++ bs " HTTP/2.0")
  | _, _, _ => None
  end.

Lemma construct_request_line_ok o hds (r : request) :
  accepts_all (new_v2_request o) hds r ->
  ngx_http_v2_construct_request_line r = request_line hds.
Proof.
  intros [_ _ _ B4 B5 B6 _ _ _ _ _ _]. unfold ngx_http_v2_construct_request_line, request_line, once in *.
  rewrite !length_0.
  destruct (values (bs ":method") hds) as [|m [|]]; [by rewrite B4| |done].
  destruct (values (bs ":scheme") hds) as [|s [|]]; [by rewrite B5, orb_true_r| |done].
  destruct (values (bs ":path") hds) as [|p [|]]; [by rewrite B6, orb_true_r| |done].
  destruct B4 as (_ & -> & ?), B5 as (_ & -> & ?), B6 as (_ & -> & ?).
  by rewrite !bool_decide_eq_false_2.
Qed.

(** C10: A request that comes through is what its header fields say, and nothing can be
    smuggled into it.  Whatever the fields and the handlers of headers, the functions
    stay within their buffers and return; and if the stream is kept: every name
    consists of visible bytes but capitals and colons, and every value is without CR,
    LF and NUL; the headers are the fields in order, but for pseudo-headers and
    ignored names, with ":authority" as Host and the cookies apart, and exactly they had
    their handlers run; a method is made of capitals, "_" and "-" and has the number that
    HTTP/1.x gives it, a scheme is a letter followed by letters, digits, "+", "-" and ".",
    and a path is a slash and visible characters whose normal form is the URI of the
    request; there is a request line just if ":method", ":scheme" and ":path" occurred once
    each, and it is the method, a space, the path and the version; and the Cookie header
    that is built at the end is the cookies in order with "; " between them. *)
Theorem ngx_http_v2_request_fields (o : T) (hds : list header)
    (Hok : Forall (fun hd => bytes_ok hd.2) hds) :
  exists d, deliver_all cf header_handler (new_v2_request o) hds = Some d
    /\ forall r, d = Kept r ->
         Forall valid_field hds
         /\ q_headers r = flat_map headers_of hds
         /\ q_cookies r = flat_map cookies_of hds
         /\ handled (flat_map headers_of hds) o = Some (q_other r)
         /\ Forall (fun m => Forall method_byte m /\ q_method r = method_of_name m NGX_HTTP_UNKNOWN)
              (values (bs ":method") hds)
         /\ Forall scheme_name (values (bs ":scheme") hds)
         /\ Forall (fun p => uri_ok p /\ parts_of (merge_slashes cf) p (q_uri r))
              (values (bs ":path") hds)
         /\ ngx_http_v2_construct_request_line r = request_line hds
         /\ exists rc r', ngx_http_v2_construct_cookie_header header_handler r = Some (rc, r')
              /\ q_headers r' = flat_map headers_of hds ++ cookie_header (flat_map cookies_of hds)
              /\ (rc = NGX_OK -> handled (q_headers r') o = Some (q_other r')).
Proof.
  destruct (deliver_all_ok (new_v2_request o) hds Hok) as (d & -> & Hd). exists d.
  split; [done|]. intros r ->. specialize (Hd r eq_refl). pose proof Hd as [B1 B2 B3 B4 _ _ Bo Bn B7 Bs B8 _].
  cbn [q_headers q_cookies q_other q_method new_v2_request app] in B2, B3, Bo, Bn.
  destruct (construct_cookie_header_ok r) as (rc & r' & Hc & Hh & Ho). rewrite B2, B3 in Hh. rewrite B3 in Ho.
  split_and!; [done..| |done|done|by apply (construct_request_line_ok o)|].
  - unfold once in B4. destruct (values (bs ":method") hds) as [|m [|]]; [constructor| |done].
    apply Forall_cons_1 in B7 as [B7 _]. apply Forall_singleton. by split.
  - exists rc, r'. split_and!; [done|done|]. intros Hrc. rewrite Hh, handled_app, Bo. by apply Ho.
Qed.
End Accepted.

Lemma ngx_http_v2_request_fields_witness :
  let hds := [(bs ":method", bs "GET"); (bs ":path", bs "/a/../b?c"); (bs ":scheme", bs "https");
              (bs ":authority", bs "h"); (bs "cookie", bs "x=1"); (bs "te", bs "trailers");
              (bs "cookie", bs "y")] in
  let cf := {| underscores_in_headers := false; ignore_invalid_headers := true;
               merge_slashes := true; large_client_header_buffers_size := 100 |} in
  let handler (_ : list Z) := Some (fun (n : Z) (_ : header) => (NGX_OK, n + 1)) in
  exists r rc r', deliver_all cf handler (new_v2_request 0) hds = Some (Kept r)
    /\ ngx_http_v2_construct_request_line r = Some (bs "GET /a/../b?c HTTP/2.0")
    /\ ngx_http_v2_construct_cookie_header handler r = Some (rc, r')
    /\ q_headers r' = [(bs "host", bs "h"); (bs "te", bs "trailers"); (bs "cookie", bs "x=1; y")].
Proof.
  intros hds cf handler.
  destruct (ngx_http_v2_request_fields cf handler 0 hds) as (d & Hd & Hr).
  - apply (Forall_check (fun hd => forallb (fun c => (0 <=? c) && (c <? 256)) hd.2));
      [intros hd; apply bytes_ok_check|vm_compute; reflexivity].
  - destruct d as [r| |]; [|vm_compute in Hd; discriminate Hd..]. exists r.
    destruct (Hr r eq_refl) as (_ & _ & _ & _ & _ & _ & _ & Hl & rc & r' & Hc & Hh & _).
    exists rc, r'. split; [exact Hd|]. split; [exact Hl|]. split; [exact Hc|exact Hh].
Defined.
