(* ===== verification/HeaderBlock.v ===== *)
(** * HeaderBlock: reading a header block of HTTP/2

    The states of ngx_http_v2.c from [ngx_http_v2_state_header_block] to
    [ngx_http_v2_state_header_complete], with [ngx_http_v2_handle_continuation], the
    saving of a state, and the loop of [ngx_http_v2_read_handler] that calls the
    states.  A header block is cut into a HEADERS frame and CONTINUATION frames, and
    these into whatever the socket gives; integers, strings and their Huffman codes
    may be cut anywhere.  It is proved to be decoded as if it were whole.

    The states hand a field to the table (HpackTable) and to the request (V2Request).
    Left out: the pool of the strings, the timer that [ngx_http_v2_state_headers_save]
    sets, and the error frame of [ngx_http_v2_connection_error], whose code is the
    result. *)

From S2P Require Import Prelude Scan Http Bits HuffTable Huffman HpackTable Hpack ComplexUri Uri.
From S2P Require Import V2Request.

Definition NGX_HTTP_V2_STATE_BUFFER_SIZE : nat := 16.
Definition NGX_HTTP_V2_FRAME_HEADER_SIZE : nat := 9.
Definition NGX_HTTP_V2_CONTINUATION_FRAME : Z := 9.
Definition NGX_HTTP_V2_END_HEADERS_FLAG : Z := 4.

Definition NGX_HTTP_V2_INTERNAL_ERROR : Z := 2.
Definition NGX_HTTP_V2_SIZE_ERROR : Z := 6.
Definition NGX_HTTP_V2_COMP_ERROR : Z := 9.
Definition NGX_HTTP_V2_ENHANCE_YOUR_CALM : Z := 11.

(** The values of [h2c->state.handler] that matter here; with [state_head] the frame is
    complete. *)
Inductive v2_handler :=
  | state_head | state_skip | state_header_block | state_field_len | state_field_huff
  | state_field_raw | state_field_skip | state_header_complete.

#[export] Instance v2_handler_eq_dec : EqDecision v2_handler.
Proof. solve_decision. Defined.

(** [h2c->state] and [h2c->hpack].  [s_field] is what lies between [field_start] and
    [field_end], and [s_field_alloc] the size of what was allocated at [field_start];
    [s_run] are the requests that [ngx_http_v2_run_request] was called with. *)
Record connection (T : Type) := {
  s_sid : Z;
  s_length : nat;
  s_padding : nat;
  s_flags : Z;
  s_incomplete : bool;
  s_parse_name : bool;
  s_parse_value : bool;
  s_index : bool;
  s_header : header;
  s_header_limit : nat;
  s_field_state : Z;
  s_field : list Z;
  s_field_alloc : nat;
  s_field_rest : nat;
  s_stream : option (v2_request T);
  s_request_length : nat;
  s_buffer : list Z;
  s_buffer_used : nat;
  s_handler : v2_handler;
  s_hpack : ngx_http_v2_hpack_t;
  s_run : list (v2_request T);
}.
Arguments s_sid {T} _.
Arguments s_length {T} _.
Arguments s_padding {T} _.
Arguments s_flags {T} _.
Arguments s_incomplete {T} _.
Arguments s_parse_name {T} _.
Arguments s_parse_value {T} _.
Arguments s_index {T} _.
Arguments s_header {T} _.
Arguments s_header_limit {T} _.
Arguments s_field_state {T} _.
Arguments s_field {T} _.
Arguments s_field_alloc {T} _.
Arguments s_field_rest {T} _.
Arguments s_stream {T} _.
Arguments s_request_length {T} _.
Arguments s_buffer {T} _.
Arguments s_buffer_used {T} _.
Arguments s_handler {T} _.
Arguments s_hpack {T} _.
Arguments s_run {T} _.
#[export] Instance eta_connection T : Eta (connection T) := mk_eta (fun c =>
  Build_connection T (s_sid c) (s_length c) (s_padding c) (s_flags c) (s_incomplete c)
    (s_parse_name c) (s_parse_value c) (s_index c) (s_header c) (s_header_limit c)
    (s_field_state c) (s_field c) (s_field_alloc c) (s_field_rest c) (s_stream c)
    (s_request_length c) (s_buffer c) (s_buffer_used c) (s_handler c) (s_hpack c) (s_run c)).

(** What a state returns: the new position, with the connection and the receive buffer,
    or [NULL] after [ngx_http_v2_connection_error]. *)
Inductive state_result (T : Type) :=
  | Go (c : connection T) (mem : list Z) (pos : nat)
  | Fail (err : Z).
Arguments Go {T} c mem pos.
Arguments Fail {T} err.

(** [ngx_http_v2_parse_uint32]. *)
Definition ngx_http_v2_parse_uint32 (mem : list Z) (p : nat) : option Z :=
  b0 ← mem !! p; b1 ← mem !! (p + 1)%nat; b2 ← mem !! (p + 2)%nat; b3 ← mem !! (p + 3)%nat;
  Some (Z.lor (Z.lor (Z.lor (Z.shiftl b0 24) (Z.shiftl b1 16)) (Z.shiftl b2 8)) b3).
Definition ngx_http_v2_parse_length (head : Z) : Z := Z.shiftr head 8.
Definition ngx_http_v2_parse_type (head : Z) : Z := Z.land head 0xff.
Definition ngx_http_v2_parse_sid (mem : list Z) (p : nat) : option Z :=
  x ← ngx_http_v2_parse_uint32 mem p; Some (Z.land x 0x7fffffff).

Section HeaderBlock.
Context {T : Type}.
Variable cf : v2_conf.
Variable header_handler : list Z -> option (T -> header -> Z * T).
Abbreviation conn := (connection T).
Abbreviation ret := (option (state_result T)).

(** ** The end of a frame, and the end of the data *)

Definition end_headers (c : conn) : bool := negb (Z.land (s_flags c) NGX_HTTP_V2_END_HEADERS_FLAG =? 0).

Definition ngx_http_v2_state_complete (c : conn) (mem : list Z) (pos end_ : nat) : ret :=
  if (end_ <? pos)%nat then Some (Fail NGX_HTTP_V2_INTERNAL_ERROR)
  else Some (Go (c <| s_stream := None |> <| s_handler := state_head |>) mem pos).

(** All of the state buffer is copied, whatever of it is used. *)
Definition ngx_http_v2_state_save (c : conn) (mem : list Z) (pos end_ : nat) (h : v2_handler) : ret :=
  let size := (end_ - pos)%nat in
  if (NGX_HTTP_V2_STATE_BUFFER_SIZE <? size)%nat then Some (Fail NGX_HTTP_V2_INTERNAL_ERROR)
  else
    buffer ← read mem pos NGX_HTTP_V2_STATE_BUFFER_SIZE;
    Some (Go (c <| s_buffer := buffer |> <| s_buffer_used := size |> <| s_handler := h |>
                <| s_incomplete := true |>) mem end_).

Definition ngx_http_v2_state_headers_save := ngx_http_v2_state_save.

Definition ngx_http_v2_state_skip (c : conn) (mem : list Z) (pos end_ : nat) : ret :=
  let size := (end_ - pos)%nat in
  if (size <? s_length c)%nat then
    ngx_http_v2_state_save (c <| s_length := (s_length c - size)%nat |>) mem end_ end_ state_skip
  else ngx_http_v2_state_complete c mem (pos + s_length c) end_.

Definition ngx_http_v2_state_skip_padded (c : conn) (mem : list Z) (pos end_ : nat) : ret :=
  ngx_http_v2_state_skip (c <| s_length := (s_length c + s_padding c)%nat |> <| s_padding := 0%nat |>)
    mem pos end_.

(** ** CONTINUATION frames *)

(** [ngx_memmove], and [ngx_memcpy], which must not be called on parts that overlap. *)
Definition move (mem : list Z) (dst src n : nat) : option (list Z) :=
  bytes ← read mem src n; write mem dst bytes.
Definition copy_apart (mem : list Z) (dst src n : nat) : option (list Z) :=
  if (src + n <=? dst)%nat || (dst + n <=? src)%nat || (n =? 0)%nat then move mem dst src n else None.

(** The padding before the frame is skipped by moving the rest of the fragment. *)
Definition skip_padding (c : conn) (mem : list Z) (pos end_ : nat)
    : option (conn * list Z * nat) :=
  let len := s_length c in
  if negb (s_padding c =? 0)%nat && (len <? end_ - pos)%nat then
    let skip := (s_padding c `min` (end_ - pos - len))%nat in
    mem ← move mem (pos + skip) pos len;
    Some (c <| s_padding := (s_padding c - skip)%nat |>, mem, (pos + skip)%nat)
  else Some (c, mem, pos).

(** The counters, for a frame of [len] bytes. *)
Definition frame_entered (c : conn) (len : nat) : conn :=
  let c := c <| s_length := (s_length c + len)%nat |> in
  match s_stream c with
  | Some _ => c <| s_request_length := (s_request_length c + len)%nat |>
  | None => c
  end.

(** The head of the next frame is cut out by moving the rest of the fragment over it. *)
Definition next_frame (c : conn) (mem : list Z) (pos : nat) (h : v2_handler) : ret :=
  let len := s_length c in
  let p := (pos + len)%nat in
  head ← ngx_http_v2_parse_uint32 mem p;
  if negb (ngx_http_v2_parse_type head =? NGX_HTTP_V2_CONTINUATION_FRAME) then
    Some (Fail NGX_HTTP_V2_PROTOCOL_ERROR)
  else
    flags ← mem !! (p + 4)%nat;
    let c := c <| s_flags := u8 (Z.lor (s_flags c) flags) |> in
    sid ← ngx_http_v2_parse_sid mem (p + 5);
    if negb (s_sid c =? sid) then Some (Fail NGX_HTTP_V2_PROTOCOL_ERROR)
    else
      let p := pos in
      let pos := (pos + NGX_HTTP_V2_FRAME_HEADER_SIZE)%nat in
      mem ← copy_apart mem pos p len;
      let len := Z.to_nat (ngx_http_v2_parse_length head) in
      Some (Go ((frame_entered c len) <| s_handler := h |>) mem pos).

Definition ngx_http_v2_handle_continuation (c : conn) (mem : list Z) (pos end_ : nat)
    (h : v2_handler) : ret :=
  let len := s_length c in
  '(c, mem, pos) ← skip_padding c mem pos end_;
  if (end_ - pos <? len + NGX_HTTP_V2_FRAME_HEADER_SIZE)%nat then
    ngx_http_v2_state_headers_save c mem pos end_ h
  else next_frame c mem pos h.

(** ** The end of a field *)

Definition ngx_http_v2_state_header_complete (c : conn) (mem : list Z) (pos end_ : nat) : ret :=
  if negb (s_length c =? 0)%nat then
    if (0 <? end_ - pos)%nat then Some (Go (c <| s_handler := state_header_block |>) mem pos)
    else ngx_http_v2_state_headers_save c mem pos end_ state_header_block
  else if negb (end_headers c) then
    ngx_http_v2_handle_continuation c mem pos end_ state_header_complete
  else
    let c := match s_stream c with Some r => c <| s_run := s_run c ++ [r] |> | None => c end in
    if negb (s_padding c =? 0)%nat then ngx_http_v2_state_skip_padded c mem pos end_
    else ngx_http_v2_state_complete c mem pos end_.

(** [ngx_http_v2_state_process_header] after the name: the limit, the table and the
    request. *)
Definition process_field (c : conn) (mem : list Z) (pos end_ : nat) : ret :=
  let c := if s_parse_value c
           then c <| s_parse_value := false |> <| s_header := ((s_header c).1, s_field c) |>
           else c in
  let len := (length (s_header c).1 + length (s_header c).2)%nat in
  if (s_header_limit c <? len)%nat then Some (Fail NGX_HTTP_V2_ENHANCE_YOUR_CALM)
  else
    let c := c <| s_header_limit := (s_header_limit c - len)%nat |> in
    '(rc, c) ← (if s_index c then
                  '(rc, h) ← ngx_http_v2_add_header (s_hpack c) (s_header c);
                  Some (rc, c <| s_hpack := h |> <| s_index := false |>)
                else Some (NGX_OK, c));
    if negb (rc =? NGX_OK) then Some (Fail NGX_HTTP_V2_INTERNAL_ERROR)
    else
      match s_stream c with
      | None => ngx_http_v2_state_header_complete c mem pos end_
      | Some r =>
          d ← deliver cf header_handler r (s_header c);
          match d with
          | Kept r => ngx_http_v2_state_header_complete (c <| s_stream := Some r |>) mem pos end_
          | Dropped _ => ngx_http_v2_state_header_complete (c <| s_stream := None |>) mem pos end_
          | Broken => Some (Fail NGX_HTTP_V2_INTERNAL_ERROR)
          end
      end.

(** ** Strings *)

(** [h2c->state.stream == NULL]. *)
Definition no_stream (c : conn) : bool := match s_stream c with None => true | Some _ => false end.

(** What the three states of a string do when the rest of it is not there. *)
Definition unfinished (save : conn -> list Z -> nat -> nat -> v2_handler -> ret)
    (c : conn) (mem : list Z) (pos end_ : nat) (h : v2_handler) : ret :=
  if negb (s_length c =? 0)%nat then save c mem pos end_ h
  else if end_headers c then Some (Fail NGX_HTTP_V2_SIZE_ERROR)
  else ngx_http_v2_handle_continuation c mem pos end_ h.

(** How much of the string is in the buffer and in the fragment. *)
Definition piece_size (c : conn) (pos end_ : nat) : nat :=
  ((end_ - pos) `min` s_field_rest c `min` s_length c)%nat.
Definition take_piece (size : nat) (c : conn) : conn :=
  c <| s_length := (s_length c - size)%nat |> <| s_field_rest := (s_field_rest c - size)%nat |>.

Section Fields.
(** [ngx_http_v2_state_process_header], which calls [ngx_http_v2_state_field_len] in its
    turn after a name. *)
Variable process_header : conn -> list Z -> nat -> nat -> ret.

Definition ngx_http_v2_state_field_huff (c : conn) (mem : list Z) (pos end_ : nat) : ret :=
  let size := piece_size c pos end_ in
  let c := take_piece size c in
  bytes ← read mem pos size;
  '(rc, st, dst) ← ngx_http_huff_decode (s_field_state c) bytes (s_field c) (s_field_rest c =? 0)%nat;
  let c := c <| s_field_state := st |> <| s_field := dst |> in
  if (s_field_alloc c <? length dst)%nat then None
  else if negb (rc =? NGX_OK) then Some (Fail NGX_HTTP_V2_COMP_ERROR)
  else
    let pos := (pos + size)%nat in
    if (s_field_rest c =? 0)%nat then
      if (s_field_alloc c <? length dst + 1)%nat then None else process_header c mem pos end_
    else unfinished ngx_http_v2_state_headers_save c mem pos end_ state_field_huff.

Definition ngx_http_v2_state_field_raw (c : conn) (mem : list Z) (pos end_ : nat) : ret :=
  let size := piece_size c pos end_ in
  let c := take_piece size c in
  bytes ← read mem pos size;
  let c := c <| s_field := s_field c ++ bytes |> in
  if (s_field_alloc c <? length (s_field c))%nat then None
  else
    let pos := (pos + size)%nat in
    if (s_field_rest c =? 0)%nat then
      if (s_field_alloc c <? length (s_field c) + 1)%nat then None
      else process_header c mem pos end_
    else unfinished ngx_http_v2_state_headers_save c mem pos end_ state_field_raw.

Definition ngx_http_v2_state_field_skip (c : conn) (mem : list Z) (pos end_ : nat) : ret :=
  let size := piece_size c pos end_ in
  let c := take_piece size c in
  let pos := (pos + size)%nat in
  if (s_field_rest c =? 0)%nat then process_header c mem pos end_
  else unfinished ngx_http_v2_state_save c mem pos end_ state_field_skip.

Definition ngx_http_v2_state_field_len (c : conn) (mem : list Z) (pos end_ : nat) : ret :=
  if negb (end_headers c) && (s_length c <? NGX_HTTP_V2_INT_OCTETS)%nat then
    ngx_http_v2_handle_continuation c mem pos end_ state_field_len
  else if (s_length c <? 1)%nat then Some (Fail NGX_HTTP_V2_SIZE_ERROR)
  else if (end_ - pos <? 1)%nat then ngx_http_v2_state_headers_save c mem pos end_ state_field_len
  else
    ch ← mem !! pos;
    let huff := negb (Z.shiftr ch 7 =? 0) in
    '(len, pos, length) ← ngx_http_v2_parse_int mem pos end_ (ngx_http_v2_prefix 7) (s_length c);
    let c := c <| s_length := length |> in
    if len <? 0 then
      if len =? NGX_AGAIN then ngx_http_v2_state_headers_save c mem pos end_ state_field_len
      else if len =? NGX_DECLINED then Some (Fail NGX_HTTP_V2_COMP_ERROR)
      else Some (Fail NGX_HTTP_V2_SIZE_ERROR)
    else if Z.of_nat (large_client_header_buffers_size cf) <? len then
      Some (Fail NGX_HTTP_V2_ENHANCE_YOUR_CALM)
    else
      let n := Z.to_nat len in
      let c := c <| s_field_rest := n |> in
      if no_stream c && negb (s_index c) then ngx_http_v2_state_field_skip c mem pos end_
      else
        let c := c <| s_field_alloc := ((if huff then n * 8 / 5 else n) + 1)%nat |>
                   <| s_field := [] |> in
        if huff then ngx_http_v2_state_field_huff c mem pos end_
        else ngx_http_v2_state_field_raw c mem pos end_.
End Fields.

(** The calls between [ngx_http_v2_state_process_header] and
    [ngx_http_v2_state_field_len] end with the value: [fuel] is the number of names. *)
Fixpoint process_header (fuel : nat) (c : conn) (mem : list Z) (pos end_ : nat) : ret :=
  if s_parse_name c then
    let c := c <| s_parse_name := false |> <| s_header := (s_field c, (s_header c).2) |> in
    if (length (s_field c) =? 0)%nat then Some (Fail NGX_HTTP_V2_PROTOCOL_ERROR)
    else
      match fuel with
      | O => None
      | S fuel' => ngx_http_v2_state_field_len (process_header fuel') c mem pos end_
      end
  else process_field c mem pos end_.
Definition ngx_http_v2_state_process_header := process_header 1.

(** ** The beginning of a field *)

Definition ngx_http_v2_state_header_block (c : conn) (mem : list Z) (pos end_ : nat) : ret :=
  if (end_ - pos <? 1)%nat then ngx_http_v2_state_headers_save c mem pos end_ state_header_block
  else if negb (end_headers c) && (s_length c <? NGX_HTTP_V2_INT_OCTETS)%nat then
    ngx_http_v2_handle_continuation c mem pos end_ state_header_block
  else
    ch ← mem !! pos;
    let indexed := ch >=? Z.shiftl 1 7 in
    let index := negb indexed && (ch >=? Z.shiftl 1 6) in
    let size_update := negb indexed && negb index && (ch >=? Z.shiftl 1 5) in
    let c := if index then c <| s_index := true |> else c in
    let prefix := ngx_http_v2_prefix (if indexed then 7 else if index then 6
                                      else if size_update then 5 else 4) in
    '(value, pos, length) ← ngx_http_v2_parse_int mem pos end_ prefix (s_length c);
    let c := c <| s_length := length |> in
    if value <? 0 then
      if value =? NGX_AGAIN then ngx_http_v2_state_headers_save c mem pos end_ state_header_block
      else if value =? NGX_DECLINED then Some (Fail NGX_HTTP_V2_COMP_ERROR)
      else Some (Fail NGX_HTTP_V2_SIZE_ERROR)
    else if indexed then
      '(rc, hd) ← ngx_http_v2_get_indexed_header (s_hpack c) (Z.to_nat value) false (s_header c);
      if negb (rc =? NGX_OK) then Some (Fail NGX_HTTP_V2_COMP_ERROR)
      else ngx_http_v2_state_process_header (c <| s_header := hd |>) mem pos end_
    else if size_update then
      '(rc, h) ← ngx_http_v2_table_size (s_hpack c) value;
      if negb (rc =? NGX_OK) then Some (Fail NGX_HTTP_V2_COMP_ERROR)
      else ngx_http_v2_state_header_complete (c <| s_hpack := h |>) mem pos end_
    else if value =? 0 then
      ngx_http_v2_state_field_len ngx_http_v2_state_process_header
        (c <| s_parse_name := true |> <| s_parse_value := true |>) mem pos end_
    else
      '(rc, hd) ← ngx_http_v2_get_indexed_header (s_hpack c) (Z.to_nat value) true (s_header c);
      if negb (rc =? NGX_OK) then Some (Fail NGX_HTTP_V2_COMP_ERROR)
      else
        ngx_http_v2_state_field_len ngx_http_v2_state_process_header
          (c <| s_header := hd |> <| s_parse_value := true |>) mem pos end_.

(** ** Reading *)

(** [h2c->state.handler(h2c, p, end)]; [state_head] is not for this file. *)
Definition call_handler (c : conn) (mem : list Z) (pos end_ : nat) : ret :=
  match s_handler c with
  | state_head => None
  | state_skip => ngx_http_v2_state_skip c mem pos end_
  | state_header_block => ngx_http_v2_state_header_block c mem pos end_
  | state_field_len => ngx_http_v2_state_field_len ngx_http_v2_state_process_header c mem pos end_
  | state_field_huff => ngx_http_v2_state_field_huff ngx_http_v2_state_process_header c mem pos end_
  | state_field_raw => ngx_http_v2_state_field_raw ngx_http_v2_state_process_header c mem pos end_
  | state_field_skip => ngx_http_v2_state_field_skip ngx_http_v2_state_process_header c mem pos end_
  | state_header_complete => ngx_http_v2_state_header_complete c mem pos end_
  end.

(** Where the reading stands: waiting for the socket, at the end of the frame with the
    position and the end of the data, or failed. *)
Inductive progress :=
  | Waiting (c : conn) (mem : list Z)
  | Complete (c : conn) (mem : list Z) (pos end_ : nat)
  | Failed (err : Z).

(** [do { p = handler(p, end) } while (p != end)], up to the end of the frame. *)
Fixpoint handle (fuel : nat) (c : conn) (mem : list Z) (pos end_ : nat) : option progress :=
  match fuel with
  | O => None
  | S fuel' =>
      r ← call_handler c mem pos end_;
      match r with
      | Fail err => Some (Failed err)
      | Go c mem pos =>
          if decide (s_handler c = state_head) then Some (Complete c mem pos end_)
          else if (pos =? end_)%nat then Some (Waiting c mem)
          else handle fuel' c mem pos end_
      end
  end.
Definition handle_buffer (c : conn) (mem : list Z) (pos end_ : nat) : option progress :=
  handle (2 * (end_ - pos) + 2) c mem pos end_.

(** The outer loop of [ngx_http_v2_read_handler] for what one [recv] gave. *)
Definition ngx_http_v2_read_handler (c : conn) (mem data : list Z) : option progress :=
  mem ← write mem 0 (s_buffer c);
  let end_ := s_buffer_used c in
  mem ← write mem end_ data;
  let end_ := (end_ + length data)%nat in
  handle_buffer (c <| s_buffer_used := 0%nat |> <| s_incomplete := false |>) mem 0 end_.

(** As often as the socket has something, until the frame is complete: the rest of the
    reads is returned. *)
Fixpoint read_all (p : progress) (reads : list (list Z)) : option (progress * list (list Z)) :=
  match p, reads with
  | Waiting c mem, data :: reads' => p ← ngx_http_v2_read_handler c mem data; read_all p reads'
  | _, _ => Some (p, reads)
  end.
End HeaderBlock.
Arguments Waiting {T} c mem.
Arguments Complete {T} c mem pos end_.
Arguments Failed {T} err.

(** A connection about to read a header block of [len] bytes in its first frame. *)
Definition new_connection {T} (sid : Z) (len padding : nat) (flags : Z) (limit : nat)
    (stream : option (v2_request T)) (h : ngx_http_v2_hpack_t) : connection T :=
  {| s_sid := sid; s_length := len; s_padding := padding; s_flags := flags;
     s_incomplete := false; s_parse_name := false; s_parse_value := false; s_index := false;
     s_header := ([], []); s_header_limit := limit; s_field_state := 0; s_field := [];
     s_field_alloc := 0; s_field_rest := 0; s_stream := stream; s_request_length := len;
     s_buffer := repeat 0 NGX_HTTP_V2_STATE_BUFFER_SIZE; s_buffer_used := 0;
     s_handler := state_header_block; s_hpack := h; s_run := [] |}.

Definition example_conf : v2_conf :=
  {| underscores_in_headers := false; ignore_invalid_headers := true; merge_slashes := true;
     large_client_header_buffers_size := 100 |}.

(** The requests that are run, the fields of their table, or the error. *)
Definition example_block (c : connection Z) (reads : list (list Z)) :=
  match read_all example_conf (fun _ => None) (Waiting c (repeat 0 60)) reads with
  | Some (Complete c _ pos end_, _) => Some (inr (map (fun r => (q_method_name r, q_headers r)) (s_run c), (end_ - pos)%nat))
  | Some (Failed err, _) => Some (inl (Some err))
  | Some (Waiting _ _, _) => Some (inl None)
  | None => None
  end.

(** Three indexed fields and a new one, the last in a CONTINUATION frame; one byte of
    the next frame; read in four pieces. *)
Example header_block_continued :
  example_block (new_connection 1 4 2 0 200 (Some (new_v2_request 0)) new_hpack)
    [[0x82; 0x84]; [0x86; 0x40; 0; 0; 0; 0; 4; 9]; [4; 0; 0; 0; 1; 1; 97]; [1; 98; 7]]
  = Some (inr ([(bs "GET", [(bs "a", bs "b")])], 1%nat)).
Proof. vm_compute. reflexivity. Qed.

(** Of a refused stream the names are skipped, and the string before is taken for the
    name: of the same block, a request is run with a stream, and without one it is an
    error. *)
Lemma header_block_refused_stream :
  let block := [0; 1; 97; 1; 98] in
  example_block (new_connection 1 5 0 4 200 (Some (new_v2_request 0)) new_hpack) [block]
    = Some (inr ([([], [(bs "a", bs "b")])], 0%nat))
  /\ example_block (new_connection 1 5 0 4 200 None new_hpack) [block]
    = Some (inl (Some NGX_HTTP_V2_PROTOCOL_ERROR)).
Proof. split; vm_compute; reflexivity. Qed.

(** After an empty last CONTINUATION frame the request is not run before something else
    is received. *)
Lemma header_block_empty_continuation :
  let c := new_connection 1 9 0 0 200 (Some (new_v2_request 0)) new_hpack in
  let frames := [0; 1; 97; 5; 98; 98; 98; 98; 98] ++ [0; 0; 0; 9; 4; 0; 0; 0; 1] in
  example_block c [frames] = Some (inl None)
  /\ example_block c [frames; [7]] = Some (inr ([([], [(bs "a", bs "bbbbb")])], 1%nat)).
Proof. split; vm_compute; reflexivity. Qed.

(** An integer that is too long is taken to be cut off where a frame ends. *)
Lemma header_block_long_integer :
  let c len flags := new_connection 1 len 0 flags 200 (Some (new_v2_request 0)) new_hpack in
  example_block (c 6%nat 4) [[0xff; 0x80; 0x80; 0x80; 0x80; 0]]
    = Some (inl (Some NGX_HTTP_V2_COMP_ERROR))
  /\ example_block (c 4%nat 0) [[0xff; 0x80; 0x80; 0x80; 0; 0; 2; 9; 4; 0; 0; 0; 1; 0x80; 0]]
    = Some (inl (Some NGX_HTTP_V2_SIZE_ERROR)).
Proof. split; vm_compute; reflexivity. Qed.

(** ** The header block

    The same, of a block in one piece: what it decodes to, or the error. *)

Section Spec.
Context {T : Type}.
Variable cf : v2_conf.
Variable header_handler : list Z -> option (T -> header -> Z * T).

(** The table, what is left of the limit, the request unless it was given up, and the
    last string that was read. *)
Record decoding := {
  d_table : table;
  d_limit : nat;
  d_stream : option (v2_request T);
  d_field : list Z;
}.
Definition set_field (d : decoding) (s : list Z) : decoding :=
  {| d_table := d_table d; d_limit := d_limit d; d_stream := d_stream d; d_field := s |}.

Definition then_ {A B : Type} (x : Z + A) (f : A -> Z + B) : Z + B :=
  match x with inl e => inl e | inr a => f a end.

Definition int_error (rc : Z) : Z :=
  if rc =? NGX_DECLINED then NGX_HTTP_V2_COMP_ERROR else NGX_HTTP_V2_SIZE_ERROR.

(** The [n] bytes of a string: raw, or Huffman codes. *)
Definition string_bytes (huff : bool) (n : nat) (block : list Z) : Z + (list Z * list Z) :=
  let raw := take n block in
  if huff then
    match walk code_tree (bits_of_bytes raw) with
    | (out, Some t) =>
        if (length block <? n)%nat then inl NGX_HTTP_V2_SIZE_ERROR
        else if may_end t then inr (out, drop n block) else inl NGX_HTTP_V2_COMP_ERROR
    | (_, None) => inl NGX_HTTP_V2_COMP_ERROR
    end
  else if (length block <? n)%nat then inl NGX_HTTP_V2_SIZE_ERROR
  else inr (raw, drop n block).

(** Without a request, a string is only of use to the table. *)
Definition skipped (d : decoding) (index : bool) : bool :=
  match d_stream d with None => negb index | Some _ => false end.

(** A string with its length.  One that is skipped is taken to be the last string that
    was not. *)
Definition block_string (d : decoding) (index : bool) (block : list Z) : Z + (list Z * list Z) :=
  match block_int (ngx_http_v2_prefix 7) block with
  | inl rc => inl (int_error rc)
  | inr (len, rest) =>
      if Z.of_nat (large_client_header_buffers_size cf) <? len then
        inl NGX_HTTP_V2_ENHANCE_YOUR_CALM
      else
        let n := Z.to_nat len in
        if skipped d index then
          if (length rest <? n)%nat then inl NGX_HTTP_V2_SIZE_ERROR
          else inr (d_field d, drop n rest)
        else string_bytes (default 0 (head block) >=? 128) n rest
  end.

(** A whole field: counted, put into the table, and given to the request. *)
Definition field_done (d : decoding) (index : bool) (hd : header) : Z + decoding :=
  let len := (length hd.1 + length hd.2)%nat in
  if (d_limit d <? len)%nat then inl NGX_HTTP_V2_ENHANCE_YOUR_CALM
  else
    let d' stream :=
      {| d_table := if index then table_add (d_table d) hd else d_table d;
         d_limit := d_limit d - len; d_stream := stream; d_field := d_field d |} in
    match d_stream d with
    | None => inr (d' None)
    | Some r =>
        match deliver cf header_handler r hd with
        | Some (Kept r) => inr (d' (Some r))
        | Some (Dropped _) => inr (d' None)
        | _ => inl NGX_HTTP_V2_INTERNAL_ERROR
        end
    end.

Definition after_value (d : decoding) (index : bool) (name value rest : list Z)
    : Z + (decoding * list Z) :=
  then_ (field_done (set_field d value) index (name, value)) (fun d => inr (d, rest)).
Definition block_value (d : decoding) (index : bool) (name block : list Z)
    : Z + (decoding * list Z) :=
  then_ (block_string d index block) (fun x => after_value d index name x.1 x.2).
Definition after_name (d : decoding) (index : bool) (name rest : list Z)
    : Z + (decoding * list Z) :=
  if (length name =? 0)%nat then inl NGX_HTTP_V2_PROTOCOL_ERROR
  else block_value (set_field d name) index name rest.
Definition block_name (d : decoding) (index : bool) (block : list Z) : Z + (decoding * list Z) :=
  then_ (block_string d index block) (fun x => after_name d index x.1 x.2).

(** The prefix of the integer that begins a field, by its first octet. *)
Definition field_prefix (ch : Z) : Z :=
  ngx_http_v2_prefix (if ch >=? 128 then 7 else if ch >=? 64 then 6 else if ch >=? 32 then 5 else 4).

Definition block_field (d : decoding) (block : list Z) : Z + (decoding * list Z) :=
  let ch := default 0 (head block) in
  match block_int (field_prefix ch) block with
  | inl rc => inl (int_error rc)
  | inr (value, rest) =>
      let index := Z.to_nat value in
      if ch >=? 128 then
        match table_get (d_table d) index with
        | None => inl NGX_HTTP_V2_COMP_ERROR
        | Some f => then_ (field_done d false f) (fun d => inr (d, rest))
        end
      else if (ch >=? 32) && negb (ch >=? 64) then
        if value <=? Z.of_nat NGX_HTTP_V2_TABLE_SIZE then
          inr ({| d_table := table_resize (d_table d) value; d_limit := d_limit d;
                  d_stream := d_stream d; d_field := d_field d |}, rest)
        else inl NGX_HTTP_V2_COMP_ERROR
      else if value =? 0 then block_name d (ch >=? 64) rest
      else
        match table_get (d_table d) index with
        | None => inl NGX_HTTP_V2_COMP_ERROR
        | Some f => block_value d (ch >=? 64) f.1 rest
        end
  end.

(** Field after field; there is at least one. *)
Fixpoint block_fields (fuel : nat) (d : decoding) (block : list Z) : Z + decoding :=
  match fuel with
  | 0%nat => inl NGX_HTTP_V2_INTERNAL_ERROR
  | S fuel' =>
      then_ (block_field d block) (fun x =>
        if (length x.2 =? 0)%nat then inr x.1 else block_fields fuel' x.1 x.2)
  end.
Definition decode_block (d : decoding) (block : list Z) : Z + decoding :=
  block_fields (length block) d block.
Definition rest_of_block (d : decoding) (block : list Z) : Z + decoding :=
  if (length block =? 0)%nat then inr d else decode_block d block.

Lemma then_inr {A B : Type} (x : Z + A) (f : A -> Z + B) b :
  then_ x f = inr b -> exists a, x = inr a /\ f a = inr b.
Proof. destruct x as [e|a]; [done|]. by exists a. Qed.

(** Every field takes a part of the block. *)
Lemma block_string_rest d index block s rest :
  block_string d index block = inr (s, rest) -> (length rest < length block)%nat.
Proof.
  unfold block_string. destruct (block_int _ block) as [rc|[len r]] eqn:Hi; [done|].
  apply block_int_rest in Hi as [[Hi _] _]. unfold string_bytes.
  repeat (case_match; simplify_eq; try done); intros [= _ <-]; rewrite length_drop; lia.
Qed.

Lemma block_value_rest d index name block d' rest :
  block_value d index name block = inr (d', rest) -> (length rest < length block)%nat.
Proof.
  intros ([s r] & Hs & Ha)%then_inr. apply block_string_rest in Hs.
  apply then_inr in Ha as (? & _ & [= _ <-]). exact Hs.
Qed.

Lemma block_field_rest d block d' rest :
  block_field d block = inr (d', rest) -> (length rest < length block)%nat.
Proof.
  unfold block_field. destruct (block_int _ block) as [rc|[v r]] eqn:Hi; [done|].
  apply block_int_rest in Hi as [[Hi _] _]. case_match; [|case_match; [|case_match]].
  - case_match; [|done]. by intros (? & _ & [= _ <-])%then_inr.
  - case_match; [|done]. by intros [= _ <-].
  - intros ([s r'] & Hs & Ha)%then_inr. apply block_string_rest in Hs. unfold after_name in Ha.
    cbn [fst snd] in Ha. case_match; [done|]. apply block_value_rest in Ha. lia.
  - case_match; [|done]. intros Ha%block_value_rest. lia.
Qed.

Lemma block_fields_fuel fuel1 fuel2 d block :
  (length block <= fuel1)%nat -> (length block <= fuel2)%nat -> block <> [] ->
  block_fields fuel1 d block = block_fields fuel2 d block.
Proof.
  revert fuel2 d block. induction fuel1 as [|fuel1 IH]; intros [|fuel2] d block H1 H2 Hne;
    try (by destruct block; cbn in *; [|lia]).
  cbn [block_fields]. destruct (block_field d block) as [e|[d' rest]] eqn:Hf; [done|].
  apply block_field_rest in Hf. cbn [then_ fst snd]. destruct rest as [|x rest]; [done|].
  cbn [length Nat.eqb]. apply IH; [cbn in *; lia..|done].
Qed.

Lemma decode_block_field d block :
  block <> [] ->
  decode_block d block = then_ (block_field d block) (fun x => rest_of_block x.1 x.2).
Proof.
  intros Hne. unfold decode_block, rest_of_block, decode_block.
  destruct block as [|c block]; [done|]. cbn [length block_fields].
  destruct (block_field d (c :: block)) as [e|[d' rest]] eqn:Hf; [done|].
  apply block_field_rest in Hf. cbn [then_ fst snd]. destruct rest as [|x rest]; [done|].
  cbn [length Nat.eqb]. apply block_fields_fuel; [cbn in *; lia..|done].
Qed.
End Spec.
Arguments d_table {T} _.
Arguments d_limit {T} _.
Arguments d_stream {T} _.
Arguments d_field {T} _.

(** ** Frames

    [framed sid after flags len pad input block]: what comes next on the connection,
    [input], is the rest of a header block, [block]: [len] bytes of it and [pad] bytes of
    padding in the current frame, the rest in CONTINUATION frames of the stream [sid],
    up to one with the flag END_HEADERS; [after] follows. *)

Definition flag_set (flags : Z) : bool := negb (Z.land flags NGX_HTTP_V2_END_HEADERS_FLAG =? 0).

(** The head of a CONTINUATION frame. *)
Record continuation_head (hd : list Z) (len : nat) (flags sid : Z) : Prop := {
  ch_size : length hd = NGX_HTTP_V2_FRAME_HEADER_SIZE;
  ch_type : exists x, ngx_http_v2_parse_uint32 hd 0 = Some x
              /\ ngx_http_v2_parse_type x = NGX_HTTP_V2_CONTINUATION_FRAME
              /\ Z.to_nat (ngx_http_v2_parse_length x) = len;
  ch_flags : hd !! 4%nat = Some flags;
  ch_sid : ngx_http_v2_parse_sid hd 5 = Some sid;
}.

(** The last frame of a block is not empty, or something follows it. *)
Inductive framed (sid : Z) (after : list Z) : Z -> nat -> nat -> list Z -> list Z -> Prop :=
  | framed_last flags part padding :
      flag_set flags = true ->
      framed sid after flags (length part) (length padding) (part ++ padding ++ after) part
  | framed_cont flags part padding hd f len input block :
      flag_set flags = false -> continuation_head hd len f sid ->
      (len = 0%nat -> after <> []) ->
      framed sid after (u8 (Z.lor flags f)) len 0 input block ->
      framed sid after flags (length part) (length padding)
        (part ++ padding ++ hd ++ input) (part ++ block).

Section Framed.
Context (sid : Z) (after : list Z).
Abbreviation framed := (framed sid after).

Lemma framed_inv flags len pad input block :
  framed flags len pad input block ->
  exists part padding, length part = len /\ length padding = pad
    /\ (flag_set flags = true /\ input = part ++ padding ++ after /\ block = part
        \/ flag_set flags = false /\ exists hd f len' input' block',
           continuation_head hd len' f sid /\ (len' = 0%nat -> after <> [])
           /\ framed (u8 (Z.lor flags f)) len' 0 input' block'
           /\ input = part ++ padding ++ hd ++ input' /\ block = part ++ block').
Proof.
  intros [fl part padding Hf|fl part padding hd f len' input' block' Hf Hh Ha H];
    exists part, padding; split_and!; try done; [by left|right].
  split; [done|]. by exists hd, f, len', input', block'.
Qed.

(** The bytes of the current frame are used up from the front. *)
Lemma framed_take n flags len pad input block :
  framed flags len pad input block -> (n <= len)%nat ->
  framed flags (len - n) pad (drop n input) (drop n block)
  /\ take n input = take n block /\ (n <= length block)%nat /\ (n <= length input)%nat.
Proof.
  intros (part & padding & <- & <- & Hcase)%framed_inv Hn.
  assert (forall x : list Z, take n (part ++ x) = take n part) as Ht
    by (intros x; by rewrite take_app_le).
  assert (forall x : list Z, drop n (part ++ x) = drop n part ++ x) as Hd
    by (intros x; by rewrite drop_app_le).
  rewrite <- length_drop.
  destruct Hcase as [(Hf & -> & ->)|(Hf & hd & f & len' & input' & block' & Hh & Ha & H & -> & ->)];
    rewrite ?Ht, ?Hd, ?length_app; (split; [|split; [done|lia]]).
  - by constructor.
  - by eapply framed_cont.
Qed.

Lemma framed_length flags len pad input block :
  framed flags len pad input block ->
  (len <= length block)%nat /\ (length block <= length input)%nat
  /\ (flag_set flags = true -> length block = len).
Proof.
  induction 1; rewrite !length_app; split_and!; try lia; done || congruence.
Qed.

(** A part in front of the block, moved there from the frame before. *)
Lemma framed_join part flags len input block :
  framed flags len 0 input block ->
  framed flags (length part + len) 0 (part ++ input) (part ++ block).
Proof.
  intros (part' & padding & <- & Hp & Hcase)%framed_inv. destruct padding; [|done].
  rewrite <- length_app.
  destruct Hcase as [(Hf & -> & ->)|(Hf & hd & f & len' & input' & block' & Hh & Ha & H & -> & ->)].
  - rewrite !app_assoc.
    replace 0%nat with (length (@nil Z)) by done.
    pose proof (framed_last sid after flags (part ++ part') [] Hf) as Hl.
    by rewrite !app_nil_l, app_nil_r in *.
  - pose proof (framed_cont sid after flags (part ++ part') [] hd f len' input' block' Hf Hh Ha H)
      as Hc. by rewrite <- !app_assoc in *.
Qed.

(** The padding is used up from the front, too. *)
Lemma framed_padding n flags len pad input block :
  framed flags len pad input block -> (n <= pad)%nat ->
  framed flags len (pad - n) (take len input ++ drop (len + n) input) block.
Proof.
  intros (part & padding & <- & <- & Hcase)%framed_inv Hn.
  assert (forall x : list Z, take (length part) (part ++ padding ++ x)
            ++ drop (length part + n) (part ++ padding ++ x) = part ++ drop n padding ++ x) as Hd.
  { intros x. rewrite take_app_length, <- drop_drop, drop_app_length.
    by rewrite drop_app_le. }
  rewrite <- length_drop.
  destruct Hcase as [(Hf & -> & ->)|(Hf & hd & f & len' & input' & block' & Hh & Ha & H & -> & ->)];
    rewrite Hd; [by constructor|by eapply framed_cont].
Qed.
End Framed.

(** ** The receive buffer *)

Lemma slice_split mem p n e : (p + n <= e)%nat -> slice mem p e = take n (slice mem p e) ++ slice mem (p + n) e.
Proof.
  intros Hn. rewrite <- (take_drop n (slice mem p e)) at 1. f_equal. unfold slice.
  rewrite skipn_firstn_comm, drop_drop. f_equal; lia.
Qed.

Lemma drop_slice mem p n e : (p + n <= e)%nat -> drop n (slice mem p e) = slice mem (p + n) e.
Proof. intros Hn. unfold slice. rewrite skipn_firstn_comm, drop_drop. f_equal; lia. Qed.

Lemma slice_len mem p e : (p <= e <= length mem)%nat -> length (slice mem p e) = (e - p)%nat.
Proof. intros H. unfold slice. rewrite length_take, length_drop. lia. Qed.

Lemma slice_ok mem p e : bytes_ok mem -> bytes_ok (slice mem p e).
Proof. intros H. by apply Forall_take, Forall_drop. Qed.

Lemma slice_at mem p e i : (p + i < e <= length mem)%nat -> slice mem p e !! i = mem !! (p + i)%nat.
Proof. intros H. unfold slice. rewrite lookup_take_lt by lia. apply lookup_drop. Qed.

Lemma read_slice mem p n e :
  (p + n <= e <= length mem)%nat -> read mem p n = Some (take n (slice mem p e)).
Proof.
  intros H. unfold read. rewrite (proj2 (Nat.leb_le _ _)) by lia. f_equal. unfold slice.
  rewrite take_take. f_equal. lia.
Qed.

Lemma write_slice mem p bytes e :
  (p + length bytes <= e <= length mem)%nat -> bytes_ok mem -> bytes_ok bytes ->
  exists mem', write mem p bytes = Some mem' /\ length mem' = length mem /\ bytes_ok mem'
    /\ slice mem' p e = bytes ++ slice mem (p + length bytes) e
    /\ forall q, (p + length bytes <= q)%nat -> slice mem' q e = slice mem q e.
Proof.
  intros H Hm Hb. unfold write. rewrite (proj2 (Nat.leb_le _ _)) by lia.
  eexists. split; [reflexivity|].
  assert (length (take p mem) = p) as Hp by (rewrite length_take; lia).
  assert (forall q, (p + length bytes <= q)%nat ->
    drop q (take p mem ++ bytes ++ drop (p + length bytes) mem) = drop q mem) as Hd.
  { intros q Hq. rewrite app_assoc, drop_app_ge by (rewrite length_app; lia).
    rewrite length_app, Hp, drop_drop. f_equal. lia. }
  split_and!.
  - rewrite !length_app, length_take, length_drop. lia.
  - repeat apply Forall_app_2; [by apply Forall_take|done|by apply Forall_drop].
  - unfold slice. rewrite drop_app_ge, Hp, Nat.sub_diag, drop_0 by lia.
    rewrite take_app_ge by lia. do 2 f_equal. lia.
  - intros q Hq. unfold slice. by rewrite Hd.
Qed.

(** What a move of the [n] bytes at [p] to [q] leaves between [q] and the end. *)
Lemma move_slice mem p q n e :
  (p + n <= e)%nat -> (q + n <= e)%nat -> (e <= length mem)%nat -> (p <= q)%nat -> bytes_ok mem ->
  exists mem', move mem q p n = Some mem' /\ length mem' = length mem /\ bytes_ok mem'
    /\ slice mem' q e = take n (slice mem p e) ++ drop (q - p + n) (slice mem p e).
Proof.
  intros Hp Hq He Hpq Hm. unfold move. rewrite (read_slice mem p n e) by lia.
  cbn [mbind option_bind]. set (bytes := take n (slice mem p e)).
  assert (length bytes = n) as Hl by (unfold bytes; rewrite length_take, slice_len; lia).
  destruct (write_slice mem q bytes e) as (mem' & -> & Hl' & Hok & Hs & _); [lia|done| |].
  { by apply Forall_take, slice_ok. }
  exists mem'. split_and!; [done..|]. rewrite Hs, Hl, drop_slice by lia. do 2 f_equal. lia.
Qed.

(** A frame head in the buffer. *)
Lemma parse_uint32_at mem hd p i :
  bytes_at mem p hd -> (i + 4 <= length hd)%nat ->
  ngx_http_v2_parse_uint32 mem (p + i) = ngx_http_v2_parse_uint32 hd i.
Proof.
  intros Hat Hi. unfold ngx_http_v2_parse_uint32.
  assert (forall k, (k < 4)%nat -> mem !! (p + i + k)%nat = hd !! (i + k)%nat) as H.
  { intros k Hk. destruct (lookup_lt_is_Some_2 hd (i + k)) as [x Hx]; [lia|].
    rewrite Hx, <- (Hat _ _ Hx). f_equal. lia. }
  pose proof (H 0%nat ltac:(lia)) as H0. rewrite !Nat.add_0_r in H0.
  by rewrite H0, !H by lia.
Qed.

Lemma head_at mem p e a hd b :
  (p <= e <= length mem)%nat -> slice mem p e = a ++ hd ++ b -> bytes_at mem (p + length a) hd.
Proof.
  intros He Hs i x Hx.
  assert (slice mem p e !! (length a + i)%nat = Some x) as H.
  { rewrite Hs, lookup_app_r by lia. rewrite lookup_app_l by (apply lookup_lt_Some in Hx; lia).
    by replace (length a + i - length a)%nat with i by lia. }
  pose proof (lookup_lt_Some _ _ _ H) as Hl. rewrite slice_len in Hl by lia.
  rewrite slice_at in H by lia. by rewrite <- Nat.add_assoc.
Qed.

(** ** The states against the block *)

(** Between two fields. *)
Record idle {T} (c : connection T) : Prop := {
  idle_name : s_parse_name c = false;
  idle_value : s_parse_value c = false;
  idle_huff : s_field_state c = 0;
}.

(** Between two blocks: the table, and the last string that was read. *)
Record between {T} (c : connection T) (t : table) (field : list Z) : Prop := {
  bet_table : repr (s_hpack c) t;
  bet_values : Forall (fun f : header => bytes_ok f.2) (fields t);
  bet_idle : idle c;
  bet_index : s_index c = false;
  bet_field : s_field c = field;
  bet_bytes : bytes_ok field;
}.

Section Correct.
Context {T : Type}.
Variable cf : v2_conf.
Variable header_handler : list Z -> option (T -> header -> Z * T).
Abbreviation conn := (connection T).
Abbreviation decode_block := (decode_block cf header_handler).
Abbreviation rest_of_block := (rest_of_block cf header_handler).

(** The size of the receive buffer, the stream, what follows the header block, the
    requests run before, and what the whole block decodes to. *)
Context (N : nat) (sid : Z) (after : list Z) (run0 : list (v2_request T)).
Variable result : Z + decoding (T := T).

Record rep (c : conn) (d : decoding) : Prop := {
  rep_table : repr (s_hpack c) (d_table d);
  rep_values : Forall (fun f => bytes_ok f.2) (fields (d_table d));
  rep_limit : s_header_limit c = d_limit d;
  rep_stream : s_stream c = d_stream d;
  rep_run : s_run c = run0;
  rep_field : bytes_ok (d_field d);
}.

(** What is done with the string being read, and then with the rest of the block. *)
Definition cont (c : conn) (d : decoding) (x : list Z * list Z) : Z + decoding :=
  then_ (if s_parse_name c then after_name cf header_handler d (s_index c) x.1 x.2
         else after_value cf header_handler d (s_index c) (s_header c).1 x.1 x.2)
    (fun x => rest_of_block x.1 x.2).

(** A string is being read of which [got] has been seen; [n] is its length. *)
Record in_string (c : conn) (d : decoding) (huff : bool) (got block : list Z) : Prop := {
  ins_rep : rep c d;
  ins_value : s_parse_value c = true;
  ins_kept : skipped d (s_index c) = false;
  ins_got : bytes_ok got;
  ins_decoded : if huff then is_u8 (s_field_state c)
                  /\ walk code_tree (bits_of_bytes got) = (s_field c, Some (tree_at (s_field_state c)))
                else s_field_state c = 0 /\ s_field c = got;
  ins_room : s_field_alloc c
             = ((if huff then (length got + s_field_rest c) * 8 / 5 else length got + s_field_rest c) + 1)%nat;
  ins_result : result = then_ (string_bytes huff (length got + s_field_rest c) (got ++ block)) (cont c d);
}.

(** A connection that waits in a state for the rest [block] of the header block. *)
Inductive pending (c : conn) (block : list Z) : v2_handler -> Prop :=
  | pending_block d :
      rep c d -> idle c -> s_field c = d_field d -> block <> [] ->
      (s_index c = true -> 64 <= default 0 (head block) < 128) ->
      result = decode_block d block -> pending c block state_header_block
  | pending_complete d :
      rep c d -> idle c -> s_field c = d_field d -> s_index c = false ->
      result = rest_of_block d block -> pending c block state_header_complete
  | pending_len d :
      rep c d -> s_parse_value c = true -> s_field_state c = 0 -> s_field c = d_field d ->
      result = then_ (block_string cf d (s_index c) block) (cont c d) ->
      pending c block state_field_len
  | pending_huff d got :
      in_string c d true got block -> (0 < s_field_rest c)%nat -> pending c block state_field_huff
  | pending_raw d got :
      in_string c d false got block -> (0 < s_field_rest c)%nat -> pending c block state_field_raw
  | pending_skip d :
      rep c d -> s_parse_value c = true -> s_field_state c = 0 -> s_field c = d_field d ->
      skipped d (s_index c) = true -> (0 < s_field_rest c)%nat ->
      result = (if (length block <? s_field_rest c)%nat then inl NGX_HTTP_V2_SIZE_ERROR
                else cont c d (d_field d, drop (s_field_rest c) block)) ->
      pending c block state_field_skip.

(** The block has been decoded, and the request run. *)
Definition finished (c : conn) : Prop :=
  exists d, result = inr d /\ between c (d_table d) (d_field d)
    /\ s_run c = run0 ++ match d_stream d with Some r => [r] | None => [] end.

(** [input] is what the connection still has to see. *)
Definition good (c : conn) (input : list Z) : Prop :=
  if decide (s_handler c = state_skip) then
    finished c /\ (s_length c <= length input)%nat /\ after = drop (s_length c) input
  else exists block, framed sid after (s_flags c) (s_length c) (s_padding c) input block
         /\ pending c block (s_handler c).

(** The error is the right one, but for an integer of more than four octets of which a
    frame has four: it is taken to be cut off. *)
Definition fails (err : Z) : Prop :=
  result = inl err
  \/ err = NGX_HTTP_V2_SIZE_ERROR /\ result = inl NGX_HTTP_V2_COMP_ERROR.

Definition measure (h : v2_handler) (pos end_ : nat) : nat :=
  (2 * (end_ - pos) + if decide (h = state_header_complete) then 1 else 0)%nat.

Definition memory_ok (mem : list Z) : Prop := length mem = N /\ bytes_ok mem.

(** Between two reads, when [input] is still to come. *)
Definition waiting_ok (c : conn) (mem input : list Z) : Prop :=
  memory_ok mem /\ s_sid c = sid /\ length (s_buffer c) = NGX_HTTP_V2_STATE_BUFFER_SIZE
  /\ bytes_ok (s_buffer c) /\ (s_buffer_used c <= NGX_HTTP_V2_STATE_BUFFER_SIZE)%nat
  /\ good c (take (s_buffer_used c) (s_buffer c) ++ input).

Definition progress_ok (p : progress) (input : list Z) : Prop :=
  match p with
  | Waiting c mem => input <> [] /\ waiting_ok c mem input
  | Complete c mem pos end_ => finished c /\ slice mem pos end_ ++ input = after
  | Failed err => fails err
  end.

(** What a state may return, when it is called with data up to [end_] and the reads to
    come are [future]. *)
Section Call.
Context (end_ : nat) (future : list Z).
Hypothesis end_room : (end_ + NGX_HTTP_V2_STATE_BUFFER_SIZE <= N)%nat.

Record entry (c : conn) (mem : list Z) (pos : nat) : Prop := {
  en_mem : memory_ok mem;
  en_pos : (pos <= end_)%nat;
  en_sid : s_sid c = sid;
  en_used : s_buffer_used c = 0%nat;
  en_buffer : length (s_buffer c) = NGX_HTTP_V2_STATE_BUFFER_SIZE;
  en_bytes : bytes_ok (s_buffer c);
}.

Definition input_at (mem : list Z) (pos : nat) : list Z := slice mem pos end_ ++ future.

(** A return to the loop: the frame is complete, the data is used up, or it goes on. *)
Definition returned (M : nat) (c : conn) (mem : list Z) (pos : nat) : Prop :=
  memory_ok mem /\ (pos <= end_)%nat /\ s_sid c = sid
  /\ length (s_buffer c) = NGX_HTTP_V2_STATE_BUFFER_SIZE /\ bytes_ok (s_buffer c)
  /\ if decide (s_handler c = state_head) then finished c /\ input_at mem pos = after
     else if decide (pos = end_) then
       future <> [] /\ (s_buffer_used c <= NGX_HTTP_V2_STATE_BUFFER_SIZE)%nat
       /\ good c (take (s_buffer_used c) (s_buffer c) ++ future)
     else s_buffer_used c = 0%nat /\ good c (input_at mem pos)
       /\ (measure (s_handler c) pos end_ <= M)%nat.

Definition post (M : nat) (r : option (state_result T)) : Prop :=
  exists r', r = Some r'
    /\ match r' with
       | Fail err => fails err
       | Go c mem pos => returned M c mem pos
       end.

Lemma post_fail M err : result = inl err -> post M (Some (Fail err)).
Proof. intros H. eexists. split; [reflexivity|by left]. Qed.

(** Only a part of the connection matters for what is pending. *)
Definition parse_part (c : conn) :=
  (s_parse_name c, s_parse_value c, s_index c, s_header c, s_header_limit c, s_field_state c,
   (s_field c, s_field_alloc c, s_field_rest c, s_stream c, s_hpack c, s_run c)).

(** And only a part of that for the field that is being read. *)
Definition field_part (c : conn) :=
  (s_parse_name c, s_parse_value c, s_index c, s_header c, s_header_limit c,
   (s_stream c, s_hpack c, s_run c)).

Lemma parse_field_part c c' : parse_part c' = parse_part c -> field_part c' = field_part c.
Proof. unfold parse_part, field_part. intros. by simplify_eq; congruence. Qed.

Lemma cont_same c c' d : field_part c' = field_part c -> cont c' d = cont c d.
Proof. unfold field_part, cont. intros [= H1 H2 H3 H4 H5 H6 H7 H8]. by rewrite H1, H3, H4. Qed.

Lemma rep_same c c' d : field_part c' = field_part c -> rep c d -> rep c' d.
Proof.
  unfold field_part. intros [= H1 H2 H3 H4 H5 H6 H7 H8] [R1 R2 R3 R4 R5 R6].
  constructor; congruence.
Qed.

Lemma idle_same c c' : parse_part c' = parse_part c -> idle c -> idle c'.
Proof.
  unfold parse_part. intros [= H1 H2 H3 H4 H5 H6 H7 H8 H9 H10 H11 H12] [I1 I2 I3].
  constructor; congruence.
Qed.

Lemma in_string_same c c' d huff got block :
  parse_part c' = parse_part c -> in_string c d huff got block -> in_string c' d huff got block.
Proof.
  intros Hs [S1 S2 S3 S4 S5 S6 S7]. pose proof (cont_same c c' d (parse_field_part _ _ Hs)) as Hc.
  pose proof (rep_same c c' d (parse_field_part _ _ Hs) S1) as Hr. unfold parse_part in Hs.
  injection Hs as H1 H2 H3 H4 H5 H6 H7 H8 H9 H10 H11 H12.
  constructor; rewrite ?H2, ?H3, ?H6, ?H7, ?H8, ?H9, ?Hc; done.
Qed.

Lemma pending_same c c' block h :
  parse_part c' = parse_part c -> pending c block h -> pending c' block h.
Proof.
  intros Hs Hp. pose proof (parse_field_part _ _ Hs) as Hf. pose proof Hs as Hs'. unfold parse_part in Hs'.
  injection Hs' as H1 H2 H3 H4 H5 H6 H7 H8 H9 H10 H11 H12.
  destruct Hp as [d P1 P2 P3 P4 P5 P6|d P1 P2 P3 P4 P5|d P1 P2 P3 P4 P5|d got P1 P2|d got P1 P2
    |d P1 P2 P3 P4 P5 P6 P7].
  - eapply pending_block; try done; [by eapply rep_same|by eapply idle_same|congruence|].
    by rewrite H3.
  - eapply pending_complete; try done; [by eapply rep_same|by eapply idle_same|congruence..].
  - eapply pending_len; try (by rewrite ?H2, ?H6, ?H7); [by eapply rep_same|].
    by rewrite (cont_same c c') by done; rewrite H3.
  - eapply pending_huff; [by eapply in_string_same|congruence].
  - eapply pending_raw; [by eapply in_string_same|congruence].
  - eapply pending_skip; rewrite ?H9; try (by rewrite ?H2, ?H3, ?H6, ?H7); [by eapply rep_same|].
    by rewrite (cont_same c c') by done.
Qed.

Lemma finished_same c c' : parse_part c' = parse_part c -> finished c -> finished c'.
Proof.
  intros Hs (d & F1 & [B1 B2 B3 B4 B5 B6] & F3). pose proof (idle_same c c' Hs B3) as Hi.
  unfold parse_part in Hs. injection Hs as H1 H2 H3 H4 H5 H6 H7 H8 H9 H10 H11 H12.
  exists d. split_and!; [done|constructor; congruence|congruence].
Qed.

Lemma good_same c c' input :
  parse_part c' = parse_part c ->
  (s_flags c', s_length c', s_padding c', s_handler c') = (s_flags c, s_length c, s_padding c, s_handler c) ->
  good c input -> good c' input.
Proof.
  intros Hs [= G1 G2 G3 G4]. unfold good. rewrite G1, G2, G3, G4. case_decide.
  - intros (Hf & ? & ?). split; [by eapply finished_same|done].
  - intros (block & ? & ?). exists block. split; [done|]. by eapply pending_same.
Qed.

Lemma good_pending c input block h :
  h <> state_skip -> framed sid after (s_flags c) (s_length c) (s_padding c) input block ->
  pending c block h -> good (c <| s_handler := h |>) input.
Proof.
  intros Hh Hfr Hp. unfold good. change (s_handler (c <| s_handler := h |>)) with h.
  rewrite decide_False by done. exists block. split; [done|]. by apply (pending_same c).
Qed.

(** Saving what is left. *)
Lemma save_ok M c mem pos h :
  entry c mem pos -> (end_ - pos <= NGX_HTTP_V2_STATE_BUFFER_SIZE)%nat -> future <> [] ->
  h <> state_head -> good (c <| s_handler := h |>) (input_at mem pos) ->
  post M (ngx_http_v2_state_save c mem pos end_ h).
Proof.
  intros [[Hlen Hok] Hpos Hsid Hused Hbuf Hbytes] Hfit Hfut Hh Hgood.
  unfold ngx_http_v2_state_save. rewrite (proj2 (Nat.ltb_ge _ _)) by done.
  rewrite (read_slice mem pos NGX_HTTP_V2_STATE_BUFFER_SIZE N) by lia.
  cbn [mbind option_bind]. eexists. split; [reflexivity|].
  assert (length (take NGX_HTTP_V2_STATE_BUFFER_SIZE (slice mem pos N)) = NGX_HTTP_V2_STATE_BUFFER_SIZE)
    as Hl by (rewrite length_take, slice_len by lia; lia).
  unfold returned. cbn [s_sid s_buffer s_buffer_used s_handler field_set].
  split_and!; try done.
  - by apply Forall_take, slice_ok.
  - rewrite decide_False by done. rewrite decide_True by done. split_and!; [done|done|].
    rewrite take_take, Nat.min_l by done.
    assert (take (end_ - pos) (slice mem pos N) = slice mem pos end_) as ->
      by (unfold slice; rewrite take_take; f_equal; lia).
    by eapply good_same; [| |exact Hgood].
Qed.

Lemma framed_more flags len pad input block :
  framed sid after flags len pad input block -> flag_set flags = false ->
  (len + pad + NGX_HTTP_V2_FRAME_HEADER_SIZE <= length input)%nat.
Proof.
  intros (part & padding & <- & <- & Hcase)%framed_inv Hf.
  destruct Hcase as [(Hf' & _)|(_ & hd & f & len' & input' & block' & Hh & _ & _ & -> & _)];
    [congruence|]. rewrite !length_app, (ch_size _ _ _ _ Hh). lia.
Qed.

Lemma framed_nil flags len pad block :
  framed sid after flags len pad [] block -> len = 0%nat /\ after = [].
Proof.
  intros (part & padding & <- & <- & Hcase)%framed_inv.
  destruct Hcase as [(_ & Hin & _)|(_ & hd & f & len' & input' & block' & Hh & _ & _ & Hin & _)];
    symmetry in Hin; apply app_nil in Hin as [-> Hin]; apply app_nil in Hin as [_ Hin]; [done|].
  apply app_nil in Hin as [-> _]. by destruct Hh.
Qed.

Lemma input_more mem pos n :
  memory_ok mem -> (pos <= end_)%nat -> (n < length (input_at mem pos))%nat -> (end_ - pos <= n)%nat ->
  future <> [].
Proof.
  intros [Hl _] Hp Hn Hle Hf. unfold input_at in Hn.
  rewrite Hf, app_nil_r, slice_len in Hn by lia. lia.
Qed.

(** What is in the buffer of an input that begins with [a]. *)
Lemma slice_prefix mem pos a b :
  memory_ok mem -> (pos <= end_)%nat -> input_at mem pos = a ++ b -> (length a <= end_ - pos)%nat ->
  exists rest, slice mem pos end_ = a ++ rest /\ b = rest ++ future.
Proof.
  intros [Hl _] Hp Hin Ha. unfold input_at in Hin.
  exists (drop (length a) (slice mem pos end_)).
  pose proof (f_equal (take (length a)) Hin) as H1. pose proof (f_equal (drop (length a)) Hin) as H2.
  rewrite take_app_length, take_app_le in H1 by (rewrite slice_len; lia).
  rewrite drop_app_length, drop_app_le in H2 by (rewrite slice_len; lia).
  split; [|done]. by rewrite <- H1 at 1; rewrite take_drop.
Qed.

Lemma skip_padding_ok c mem pos block :
  entry c mem pos ->
  framed sid after (s_flags c) (s_length c) (s_padding c) (input_at mem pos) block ->
  exists c' mem' pos', skip_padding c mem pos end_ = Some (c', mem', pos')
    /\ entry c' mem' pos' /\ (pos <= pos')%nat /\ c' = c <| s_padding := s_padding c' |>
    /\ framed sid after (s_flags c) (s_length c) (s_padding c') (input_at mem' pos') block
    /\ (s_padding c' = 0 \/ end_ - pos' <= s_length c)%nat.
Proof.
  intros [[Hlen Hok] Hpos Hsid Hused Hbuf Hbytes] Hfr. unfold skip_padding.
  destruct (Nat.eqb_spec (s_padding c) 0) as [H0|H0]; cbn [negb andb].
  { exists c, mem, pos. split_and!; try done; [by destruct c|by left]. }
  destruct (Nat.ltb_spec (s_length c) (end_ - pos)) as [Hlt|Hge].
  2: { exists c, mem, pos. split_and!; try done; [by destruct c|right; lia]. }
  set (skip := (s_padding c `min` (end_ - pos - s_length c))%nat).
  destruct (move_slice mem pos (pos + skip) (s_length c) end_)
    as (mem' & Hm & Hl & Hok' & Hs); [lia..|done|].
  rewrite Hm. cbn [mbind option_bind]. do 3 eexists. split; [reflexivity|].
  split; [constructor; cbn; try done; [by split; [lia|]|lia]|]. split; [lia|]. split; [done|].
  split; [|cbn; lia]. cbn [s_padding field_set].
  replace (input_at mem' (pos + skip)) with
    (take (s_length c) (input_at mem pos) ++ drop (s_length c + skip) (input_at mem pos)).
  - apply framed_padding; [done|lia].
  - unfold input_at. rewrite Hs, <- app_assoc.
    replace (pos + skip - pos + s_length c)%nat with (s_length c + skip)%nat by lia.
    rewrite take_app_le, drop_app_le by (rewrite slice_len; lia). done.
Qed.

(** The connection when a frame is entered. *)
Lemma frame_entered_eq c flags len h :
  let c' := (frame_entered (c <| s_flags := flags |>) len) <| s_handler := h |> in
  s_sid c' = s_sid c /\ s_flags c' = flags /\ s_length c' = (s_length c + len)%nat
  /\ s_padding c' = s_padding c /\ s_buffer c' = s_buffer c /\ s_buffer_used c' = s_buffer_used c
  /\ parse_part c' = parse_part c /\ s_handler c' = h.
Proof. by destruct c as [? ? ? ? ? ? ? ? ? ? ? ? ? ? [r|] ? ? ? ? ? ?]. Qed.

(** The next frame, whose head is there. *)
Lemma next_frame_ok c mem pos h block :
  entry c mem pos -> framed sid after (s_flags c) (s_length c) 0 (input_at mem pos) block ->
  flag_set (s_flags c) = false -> s_padding c = 0%nat -> (s_length c < NGX_HTTP_V2_INT_OCTETS)%nat ->
  (s_length c + NGX_HTTP_V2_FRAME_HEADER_SIZE <= end_ - pos)%nat ->
  exists c' mem', next_frame c mem pos h = Some (Go c' mem' (pos + NGX_HTTP_V2_FRAME_HEADER_SIZE))
    /\ entry c' mem' (pos + NGX_HTTP_V2_FRAME_HEADER_SIZE)
    /\ parse_part c' = parse_part c /\ s_handler c' = h
    /\ framed sid after (s_flags c') (s_length c') (s_padding c')
         (input_at mem' (pos + NGX_HTTP_V2_FRAME_HEADER_SIZE)) block
    /\ (s_length c' = 0%nat -> after <> []).
Proof.
  unfold NGX_HTTP_V2_FRAME_HEADER_SIZE, NGX_HTTP_V2_INT_OCTETS.
  intros [[Hmlen Hmok] Hp Hsid Hused Hbuf Hbytes] Hfr Hflag Hpad Hlen Hroom.
  apply framed_inv in Hfr as (part & padding & Hpart & Hpadding & Hcase).
  destruct padding; [|done]. clear Hpadding.
  destruct Hcase as [(Hf' & _)|(_ & hd & f & len' & input' & block' & Hhd & Hafter & Hfr' & Hin & ->)];
    [congruence|]. rewrite app_nil_l in Hin.
  pose proof Hhd as [Hsize (x & Hx & Htype & Hxlen) Hf Hsid'].
  unfold NGX_HTTP_V2_FRAME_HEADER_SIZE in Hsize.
  destruct (slice_prefix mem pos (part ++ hd) input') as (rest & Hslice & ->);
    [done|done|by rewrite <- app_assoc|rewrite length_app; lia|].
  rewrite <- app_assoc in Hslice.
  assert (bytes_at mem (pos + s_length c) hd) as Hat
    by (rewrite <- Hpart; eapply head_at; [|exact Hslice]; lia).
  unfold next_frame, ngx_http_v2_parse_sid in *.
  pose proof (parse_uint32_at mem hd (pos + s_length c) 0 Hat ltac:(lia)) as H0.
  rewrite Nat.add_0_r, Hx in H0. rewrite H0.
  cbn [mbind option_bind]. rewrite Htype. cbn [Z.eqb Pos.eqb NGX_HTTP_V2_CONTINUATION_FRAME negb].
  rewrite (Hat 4%nat f Hf). cbn [mbind option_bind].
  rewrite (parse_uint32_at mem hd (pos + s_length c) 5 Hat) by lia.
  destruct (ngx_http_v2_parse_uint32 hd 5) as [y|]; [|done]. cbn [mbind option_bind] in *.
  injection Hsid' as ->. change (s_sid (_ <| s_flags := _ |>)) with (s_sid c).
  rewrite Hsid, Z.eqb_refl. cbn [negb]. unfold copy_apart, NGX_HTTP_V2_FRAME_HEADER_SIZE.
  rewrite (proj2 (Nat.leb_le (pos + s_length c) (pos + 9))) by lia. cbn [orb].
  destruct (move_slice mem pos (pos + 9) (s_length c) end_)
    as (mem' & -> & Hl2 & Hok2 & Hs2); [lia..|done|]. cbn [mbind option_bind]. rewrite Hxlen.
  assert (input_at mem' (pos + 9) = part ++ rest ++ future) as Hin2.
  { unfold input_at. rewrite Hs2, Hslice, <- Hpart, take_app_length, <- app_assoc. f_equal.
    rewrite app_assoc, drop_app_ge by (rewrite length_app; lia).
    by replace (pos + 9 - pos + length part - length (part ++ hd))%nat with 0%nat
      by (rewrite length_app; lia). }
  apply (framed_join sid after part) in Hfr'. rewrite Hpart in Hfr'.
  rewrite <- Hpad in Hfr'. pose proof (frame_entered_eq c (u8 (Z.lor (s_flags c) f)) len' h)
    as (E2 & E3 & E4 & E5 & E6 & E7 & E8 & E9).
  exists ((frame_entered (c <| s_flags := u8 (Z.lor (s_flags c) f) |>) len') <| s_handler := h |>), mem'.
  split; [reflexivity|].
  set (c' := (frame_entered _ _) <| s_handler := _ |>) in *. clearbody c'.
  rewrite Hin2, E3, E4, E5. split; [constructor; try congruence; [by split; [lia|]|lia]|].
  split_and!; [done..|intros Hl; apply Hafter; lia].
Qed.

(** The next frame, if its head is there; otherwise the states wait for it. *)
Lemma continuation_ok M c mem pos h block :
  entry c mem pos ->
  framed sid after (s_flags c) (s_length c) (s_padding c) (input_at mem pos) block ->
  flag_set (s_flags c) = false -> (s_length c < NGX_HTTP_V2_INT_OCTETS)%nat ->
  h <> state_head -> h <> state_skip -> pending c block h -> (2 * (end_ - pos) <= M + 17)%nat ->
  post M (ngx_http_v2_handle_continuation c mem pos end_ h).
Proof.
  intros He Hfr Hflag Hlen Hh Hh' Hpend HM. unfold ngx_http_v2_handle_continuation.
  destruct (skip_padding_ok c mem pos block He Hfr)
    as (c1 & mem1 & pos1 & -> & He1 & Hpos1 & Hc1 & Hfr1 & Hpad). cbn [mbind option_bind].
  assert (parse_part c1 = parse_part c) as Hpp by by rewrite Hc1.
  assert (s_length c1 = s_length c) as Hl1 by by rewrite Hc1.
  assert (s_flags c1 = s_flags c) as Hf1 by by rewrite Hc1.
  pose proof (framed_more _ _ _ _ _ Hfr1 Hflag) as Hmore. pose proof (en_pos _ _ _ He1) as Hp1.
  rewrite <- Hl1, <- Hf1 in *.
  destruct (Nat.ltb_spec (end_ - pos1) (s_length c1 + NGX_HTTP_V2_FRAME_HEADER_SIZE)) as [Hlt|Hge].
  - apply save_ok; [done| |eapply (input_more mem1 pos1 (end_ - pos1)); [apply He1|done|lia|done]|done|].
    + unfold NGX_HTTP_V2_INT_OCTETS, NGX_HTTP_V2_FRAME_HEADER_SIZE, NGX_HTTP_V2_STATE_BUFFER_SIZE in *. lia.
    + apply (good_pending c1 _ block); [done..|]. by eapply pending_same.
  - destruct Hpad as [Hpad|Hpad]; [|unfold NGX_HTTP_V2_FRAME_HEADER_SIZE in *; lia].
    rewrite Hpad in Hfr1.
    destruct (next_frame_ok c1 mem1 pos1 h block He1 Hfr1 Hflag Hpad Hlen Hge)
      as (c2 & mem2 & -> & He2 & Hpp2 & Hh2 & Hfr2 & Hafter).
    set (pos2 := (pos1 + NGX_HTTP_V2_FRAME_HEADER_SIZE)%nat) in *.
    assert (good c2 (input_at mem2 pos2)) as Hgood.
    { unfold good. rewrite Hh2, decide_False by done. exists block. split; [done|].
      by eapply pending_same; [etrans|]. }
    eexists. split; [reflexivity|]. destruct He2 as [Hmem2 Hp2 Hsid2 Hused2 Hbuf2 Hbytes2].
    unfold returned. split_and!; [done..|]. rewrite Hh2, Hused2, decide_False by done.
    case_decide as Hend.
    + assert (input_at mem2 pos2 = future) as Hin
        by (unfold input_at, slice; by rewrite Hend, Nat.sub_diag).
      rewrite Hin in *. split_and!; [|unfold NGX_HTTP_V2_STATE_BUFFER_SIZE; lia|done].
      intros Hnil. rewrite Hnil in Hfr2. destruct (framed_nil _ _ _ _ Hfr2) as [Hl Ha].
      by apply (Hafter Hl).
    + split_and!; [done|done|]. unfold measure, pos2, NGX_HTTP_V2_FRAME_HEADER_SIZE in *.
      case_decide; lia.
Qed.

Lemma complete_ok M c mem pos :
  entry c mem pos -> finished c -> input_at mem pos = after ->
  post M (ngx_http_v2_state_complete c mem pos end_).
Proof.
  intros [[Hlen Hok] Hpos Hsid Hused Hbuf Hbytes] (d & F1 & [B1 B2 B3 B4 B5 B6] & F3) Hin.
  unfold ngx_http_v2_state_complete.
  rewrite (proj2 (Nat.ltb_ge _ _)) by done. eexists. split; [reflexivity|].
  unfold returned. cbn [s_sid s_buffer s_handler field_set]. split; [done|]. split_and!; try done.
  rewrite decide_True by done. split; [|done]. exists d. split_and!; [done| |done].
  constructor; try done. by destruct B3; constructor.
Qed.

Lemma skip_ok M c mem pos :
  entry c mem pos -> finished c -> (s_length c <= length (input_at mem pos))%nat ->
  after = drop (s_length c) (input_at mem pos) ->
  post M (ngx_http_v2_state_skip c mem pos end_).
Proof.
  intros He Hf Hl Ha. pose proof He as [[Hlen Hok] Hpos Hsid Hused Hbuf Hbytes].
  unfold ngx_http_v2_state_skip.
  destruct (Nat.ltb_spec (end_ - pos) (s_length c)) as [Hlt|Hge].
  - assert (input_at mem end_ = future) as Hin
      by (unfold input_at, slice; by rewrite Nat.sub_diag).
    apply save_ok; [by constructor; cbn|cbn; unfold NGX_HTTP_V2_STATE_BUFFER_SIZE; lia| |done|].
    + eapply (input_more mem pos (end_ - pos)); done || lia.
    + unfold good. cbn [s_handler field_set]. rewrite decide_True by done. cbn [s_length field_set].
      rewrite Hin. unfold input_at in Hl, Ha. rewrite length_app, slice_len in Hl by lia.
      split; [by apply (finished_same c)|]. split; [lia|].
      rewrite Ha, drop_app_ge by (rewrite slice_len; lia). by rewrite slice_len by lia.
  - apply complete_ok; [by constructor; [| lia| | | |]|done|].
    rewrite Ha. unfold input_at. rewrite drop_app_le by (rewrite slice_len; lia).
    by rewrite drop_slice by lia.
Qed.

(** The request is run. *)
Lemma run_ok c d :
  rep c d -> idle c -> s_field c = d_field d -> s_index c = false -> result = inr d ->
  finished (match s_stream c with Some r => c <| s_run := s_run c ++ [r] |> | None => c end).
Proof.
  intros [R1 R2 R3 R4 R5 R6] [I1 I2 I3] Hf Hi Hres. exists d. rewrite <- R4, <- R5.
  destruct (s_stream c) as [r|]; (split_and!; [done| |by rewrite ?app_nil_r]);
    by constructor; try done; constructor.
Qed.

(** The end of the block: the request is run and the padding skipped. *)
Lemma block_end_ok M c d mem pos block :
  entry c mem pos -> flag_set (s_flags c) = true -> s_length c = 0%nat ->
  framed sid after (s_flags c) (s_length c) (s_padding c) (input_at mem pos) block ->
  rep c d -> idle c -> s_field c = d_field d -> s_index c = false -> result = inr d ->
  post M (ngx_http_v2_state_header_complete c mem pos end_).
Proof.
  intros He Hflag H0 Hfr Hrep Hidle Hfield Hindex Hres. unfold ngx_http_v2_state_header_complete, end_headers.
  fold (flag_set (s_flags c)). rewrite H0, Hflag. cbn [Nat.eqb negb].
  apply framed_inv in Hfr as (part & padding & Hpart & Hpad & Hcase).
  destruct Hcase as [(_ & Hin & _)|(? & _)]; [|congruence].
  destruct part; [|cbn in Hpart; lia]. rewrite app_nil_l in Hin.
  set (c1 := match s_stream c with Some r => _ | None => c end).
  assert (finished c1 /\ entry c1 mem pos /\ s_length c1 = 0%nat /\ s_padding c1 = length padding)
    as (Hfin & He1 & Hlen1 & Hpad1).
  { split; [by apply (run_ok c d)|]. subst c1. destruct He. split; [|split].
    - by destruct (s_stream c); constructor.
    - by destruct (s_stream c).
    - by destruct (s_stream c). }
  rewrite Hpad1. destruct (Nat.eqb_spec (length padding) 0) as [Hp0|Hp0]; cbn [negb].
  - apply complete_ok; try done. destruct padding; [done|cbn in Hp0; lia].
  - apply skip_ok; cbn [s_length field_set]; [by destruct He1; constructor|by apply (finished_same c1)| |];
      rewrite Hlen1, Hpad1, Hin; cbn [Nat.add]; [rewrite length_app; lia|by rewrite drop_app_length].
Qed.

(** Between fields, and at the end of the block. *)
Lemma header_complete_ok M c d mem pos block :
  entry c mem pos ->
  framed sid after (s_flags c) (s_length c) (s_padding c) (input_at mem pos) block ->
  rep c d -> idle c -> s_field c = d_field d -> s_index c = false ->
  result = rest_of_block d block -> (2 * (end_ - pos) <= M)%nat ->
  post M (ngx_http_v2_state_header_complete c mem pos end_).
Proof.
  intros He Hfr Hrep Hidle Hfield Hindex Hres HM.
  pose proof He as [Hmem Hpos Hsid Hused Hbuf Hbytes].
  pose proof (framed_length _ _ _ _ _ _ _ Hfr) as (Hl1 & Hl2 & Hl3).
  destruct (decide (s_length c = 0%nat)) as [H0|H0].
  - destruct (flag_set (s_flags c)) eqn:Hflag.
    { apply (block_end_ok M c d mem pos block); try done. rewrite Hres. unfold rest_of_block.
      by rewrite Hl3, H0. }
    unfold ngx_http_v2_state_header_complete, end_headers. fold (flag_set (s_flags c)).
    rewrite Hflag, H0. cbn [Nat.eqb negb].
    eapply continuation_ok; try done; [unfold NGX_HTTP_V2_INT_OCTETS; lia| |lia].
    by eapply pending_complete.
  - assert (block <> []) as Hne by (intros ->; cbn in Hl1; lia).
    assert (good (c <| s_handler := state_header_block |>) (input_at mem pos)) as Hgood.
    { apply (good_pending c _ block); [done..|]. apply (pending_block c block d); try done.
      - by rewrite Hindex.
      - rewrite Hres. unfold rest_of_block. by destruct block. }
    unfold ngx_http_v2_state_header_complete. rewrite (proj2 (Nat.eqb_neq _ _)) by done. cbn [negb].
    destruct (Nat.ltb_spec 0 (end_ - pos)) as [Hlt|Hge].
    + eexists. split; [reflexivity|]. unfold returned. cbn [s_sid s_buffer s_buffer_used s_handler field_set].
      split; [done|]. split_and!; try done. rewrite decide_False, decide_False by (done || lia).
      split_and!; [done..|]. unfold measure. case_decide; [done|lia].
    + apply save_ok; try done; [unfold NGX_HTTP_V2_STATE_BUFFER_SIZE; lia|].
      eapply (input_more mem pos 0); done || lia.
Qed.

(** The values in the table are strings of bytes. *)
Lemma evict_values limit fs :
  Forall (fun f : header => bytes_ok f.2) fs -> Forall (fun f : header => bytes_ok f.2) (evict limit fs).
Proof.
  induction 1 as [|f fs Hf Hfs IH]; cbn [evict]; [done|].
  case_match; [by constructor|done].
Qed.

Lemma add_values t f :
  Forall (fun f : header => bytes_ok f.2) (fields t) -> bytes_ok f.2 ->
  Forall (fun f : header => bytes_ok f.2) (fields (table_add t f)).
Proof. intros Ht Hf. apply evict_values, Forall_app_2; [done|by constructor]. Qed.

(** A whole field. *)
Lemma process_field_ok M c d mem pos block hd :
  entry c mem pos ->
  framed sid after (s_flags c) (s_length c) (s_padding c) (input_at mem pos) block ->
  rep c d -> s_parse_name c = false -> s_field_state c = 0 ->
  hd = (if s_parse_value c then ((s_header c).1, s_field c) else s_header c) -> bytes_ok hd.2 ->
  bytes_ok (s_field c) ->
  result = then_ (field_done cf header_handler (set_field d (s_field c)) (s_index c) hd)
             (fun d' => rest_of_block d' block) ->
  (2 * (end_ - pos) <= M)%nat ->
  post M (process_field cf header_handler c mem pos end_).
Proof.
  intros He Hfr [R1 R2 R3 R4 R5 R6] Hname Hst Hhd Hok Hfok Hres HM. unfold process_field.
  set (c1 := if s_parse_value c then _ else c).
  assert (c1 = c <| s_parse_value := false |> <| s_header := hd |>) as Hc1.
  { subst c1 hd. destruct (s_parse_value c) eqn:Hv; [done|]. destruct c. cbn in *. by rewrite Hv. }
  rewrite Hc1. clear c1 Hc1 Hhd. set (c1 := c <| s_parse_value := false |> <| s_header := hd |>).
  change (s_header c1) with hd. change (s_header_limit c1) with (s_header_limit c).
  unfold field_done in Hres. cbn [d_limit d_table d_stream d_field set_field] in Hres.
  rewrite R3. destruct (Nat.ltb_spec (d_limit d) (length hd.1 + length hd.2)) as [Hbig|Hfit].
  { by apply post_fail. }
  set (lim := (d_limit d - _)%nat) in *. set (c2 := c1 <| s_header_limit := lim |>).
  set (t := if s_index c then table_add (d_table d) hd else d_table d) in *.
  assert (exists h, (if s_index c2 then
      '(rc, h) ← ngx_http_v2_add_header (s_hpack c2) (s_header c2);
      Some (rc, c2 <| s_hpack := h |> <| s_index := false |>)
    else Some (NGX_OK, c2)) = Some (NGX_OK, c2 <| s_hpack := h |> <| s_index := false |>)
    /\ repr h t /\ Forall (fun f => bytes_ok f.2) (fields t)) as (h & Hadd & Hrepr & Hvals).
  { change (s_index c2) with (s_index c). change (s_hpack c2) with (s_hpack c).
    change (s_header c2) with hd. subst t. destruct (s_index c) eqn:Hidx.
    - destruct (add_header_ok _ _ hd R1) as (h & Hh & Hr). exists h.
      rewrite Hh. split_and!; [done|done|by apply add_values].
    - exists (s_hpack c). split_and!; [|done|done]. subst c2 c1. destruct c. cbn in Hidx. by subst. }
  rewrite Hadd. cbn [mbind option_bind]. clear Hadd. set (c3 := c2 <| s_hpack := h |> <| s_index := false |>).
  change (negb (NGX_OK =? NGX_OK)) with false. cbv iota.
  change (s_stream c3) with (s_stream c). change (s_header c3) with hd.
  assert (forall stream d', d' = {| d_table := t; d_limit := lim;
      d_stream := stream; d_field := s_field c |} -> result = rest_of_block d' block ->
    post M (ngx_http_v2_state_header_complete (c3 <| s_stream := stream |>) mem pos end_)) as Hgo.
  { intros stream d' Hd' Hres'. apply (header_complete_ok M _ d' _ _ block); try done.
    - by destruct He; constructor.
    - subst d'. by constructor.
    - by subst d'. }
  rewrite R4. destruct (d_stream d) as [r|] eqn:Hs.
  - destruct (deliver_ok cf header_handler r hd Hok) as (dl & Hdl & _). rewrite Hdl in *.
    cbn [mbind option_bind]. destruct dl as [r'|r'|]; cbn [then_] in Hres.
    + by eapply Hgo.
    + by eapply Hgo.
    + by apply post_fail.
  - specialize (Hgo None _ eq_refl Hres).
    replace c3 with (c3 <| s_stream := None |>); [exact Hgo|].
    subst c3 c2 c1. destruct c. cbn in R4. by subst.
Qed.

(** Only the position changes. *)
Lemma entry_at c c' mem pos pos' :
  entry c mem pos -> (pos <= pos' <= end_)%nat ->
  (s_sid c', s_buffer c', s_buffer_used c') = (s_sid c, s_buffer c, s_buffer_used c) ->
  entry c' mem pos'.
Proof. intros [E1 E2 E3 E4 E5 E6] Hp [= H1 H2 H3]. constructor; try congruence; lia. Qed.

Lemma input_drop mem pos n : (pos + n <= end_)%nat -> memory_ok mem ->
  drop n (input_at mem pos) = input_at mem (pos + n).
Proof.
  intros Hn [Hl _]. unfold input_at. rewrite drop_app_le by (rewrite slice_len; lia).
  by rewrite drop_slice.
Qed.

(** A piece of the block. *)
Lemma piece_ok c mem pos block :
  entry c mem pos ->
  framed sid after (s_flags c) (s_length c) (s_padding c) (input_at mem pos) block ->
  let size := piece_size c pos end_ in
  read mem pos size = Some (take size block) /\ bytes_ok (take size block)
  /\ (pos + size <= end_)%nat /\ (size <= length block)%nat /\ (size <= s_field_rest c)%nat
  /\ framed sid after (s_flags c) (s_length c - size) (s_padding c) (input_at mem (pos + size))
       (drop size block).
Proof.
  intros [[Hl Hok] Hp _ _ _ _] Hfr. unfold piece_size. set (size := (_ `min` _ `min` _)%nat).
  cbn zeta. assert (size <= end_ - pos /\ size <= s_field_rest c /\ size <= s_length c)%nat as (H1 & H2 & H3)
    by lia.
  destruct (framed_take sid after size _ _ _ _ _ Hfr H3) as (Hf & Ht & Hb & _).
  assert (take size (slice mem pos end_) = take size block) as Hs.
  { rewrite <- Ht. unfold input_at. by rewrite take_app_le by (rewrite slice_len; lia). }
  rewrite (read_slice mem pos size end_), Hs by lia.
  rewrite input_drop in Hf by (lia || done). split_and!; try done; [|lia].
  rewrite <- Hs. by apply Forall_take, slice_ok.
Qed.

(** The rest of the string is not there. *)
Lemma unfinished_ok M c mem pos block h :
  entry c mem pos ->
  framed sid after (s_flags c) (s_length c) (s_padding c) (input_at mem pos) block ->
  (s_length c <> 0 -> pos = end_)%nat ->
  h <> state_head -> h <> state_skip -> pending c block h ->
  (block = [] -> result = inl NGX_HTTP_V2_SIZE_ERROR) -> (2 * (end_ - pos) <= M + 17)%nat ->
  post M (unfinished ngx_http_v2_state_save c mem pos end_ h).
Proof.
  intros He Hfr Hend Hh Hh' Hpend Hnil HM. unfold unfinished, end_headers. fold (flag_set (s_flags c)).
  destruct (Nat.eqb_spec (s_length c) 0) as [H0|H0]; cbn [negb].
  - destruct (flag_set (s_flags c)) eqn:Hflag.
    + apply post_fail, Hnil. apply framed_length in Hfr as (_ & _ & Hl).
      apply nil_length_inv. by rewrite Hl.
    + eapply continuation_ok; try done. unfold NGX_HTTP_V2_INT_OCTETS. lia.
  - pose proof He as [Hmem Hp _ _ _ _]. specialize (Hend H0).
    apply save_ok; try done; [unfold NGX_HTTP_V2_STATE_BUFFER_SIZE; lia| |].
    + pose proof (framed_length _ _ _ _ _ _ _ Hfr) as (Hl1 & Hl2 & _).
      eapply (input_more mem pos 0); done || lia.
    + by apply (good_pending c _ block).
Qed.

(** A string after a piece of it. *)
Lemma in_string_piece c c' d huff got block n :
  in_string c d huff got block -> (n <= s_field_rest c)%nat -> (n <= length block)%nat ->
  bytes_ok (take n block) -> field_part c' = field_part c ->
  s_field_alloc c' = s_field_alloc c -> s_field_rest c' = (s_field_rest c - n)%nat ->
  (if huff then is_u8 (s_field_state c')
     /\ walk code_tree (bits_of_bytes (got ++ take n block)) = (s_field c', Some (tree_at (s_field_state c')))
   else s_field_state c' = 0 /\ s_field c' = got ++ take n block) ->
  in_string c' d huff (got ++ take n block) (drop n block).
Proof.
  intros [S1 S2 S3 S4 S5 S6 S7] Hr Hb Hok Hpart Ha Hrest Hdec.
  pose proof (cont_same c c' d Hpart) as Hcont. pose proof (rep_same c c' d Hpart S1) as Hrep.
  unfold field_part in Hpart. injection Hpart as P1 P2 P3 P4 P5 P6 P7 P8.
  assert (length (got ++ take n block) + s_field_rest c' = length got + s_field_rest c)%nat as Hlen
    by (rewrite length_app, length_take; lia).
  constructor; rewrite ?P2, ?P3, ?Ha, ?Hlen, ?Hcont; try done.
  - by apply Forall_app_2.
  - by rewrite <- app_assoc, take_drop.
Qed.

(** The block ends in a string. *)
Lemma in_string_cut c d huff got :
  in_string c d huff got [] -> (0 < s_field_rest c)%nat -> result = inl NGX_HTTP_V2_SIZE_ERROR.
Proof.
  intros [S1 S2 S3 S4 S5 S6 S7] Hr. rewrite S7, app_nil_r. unfold string_bytes.
  rewrite (proj2 (Nat.ltb_lt _ _)) by lia. destruct huff; [|done].
  destruct S5 as [_ Hw]. rewrite take_ge by lia. by rewrite Hw.
Qed.

(** The integer at the beginning of the rest of the block. *)
Definition wait_for_int (c : conn) (pos : nat) (r : Z * nat * nat) : Prop :=
  r = (NGX_AGAIN, pos, s_length c) /\ (end_ - pos < s_length c)%nat
  /\ (end_ - pos < NGX_HTTP_V2_INT_OCTETS)%nat.

Lemma block_agrees mem pos input block l :
  memory_ok mem -> (pos <= end_)%nat -> input_at mem pos = input ->
  take l input = take l block -> agrees mem pos (end_ - pos) (take l block).
Proof.
  intros [Hl Hok] Hp <- Ht i Hi Hlen. rewrite <- Ht. rewrite <- Ht in Hlen.
  rewrite length_take in Hlen. rewrite lookup_take_lt by lia. unfold input_at.
  rewrite lookup_app_l by (rewrite slice_len; lia). symmetry. apply slice_at. lia.
Qed.

Lemma field_int_ok c mem pos prefix block :
  entry c mem pos ->
  framed sid after (s_flags c) (s_length c) (s_padding c) (input_at mem pos) block ->
  (flag_set (s_flags c) = true \/ NGX_HTTP_V2_INT_OCTETS <= s_length c)%nat ->
  (pos < end_)%nat -> 0 <= prefix < 128 ->
  exists r, ngx_http_v2_parse_int mem pos end_ prefix (s_length c) = Some r
    /\ (wait_for_int c pos r
        \/ match block_int prefix block with
           | inl rc => exists rc', r = (rc', pos, s_length c) /\ (rc' = NGX_ERROR \/ rc' = NGX_DECLINED)
                        /\ (rc' = rc \/ rc = NGX_DECLINED)
           | inr (v, rest) => exists n, r = (v, (pos + n)%nat, (s_length c - n)%nat) /\ (0 < n)%nat
                        /\ (n <= s_length c)%nat /\ (pos + n <= end_)%nat /\ rest = drop n block
           end).
Proof.
  intros He Hfr Hl Hp Hprefix. pose proof He as [Hmem _ _ _ _ _]. pose proof Hmem as [Hmlen Hmok].
  pose proof (framed_length _ _ _ _ _ _ _ Hfr) as (Hl1 & Hl2 & Hl3).
  destruct (framed_take sid after (s_length c) _ _ _ _ _ Hfr (le_n _)) as (_ & Htake & _ & _).
  pose proof (block_agrees mem pos _ block _ Hmem ltac:(lia) eq_refl Htake) as Hagree.
  set (l := s_length c) in *. set (part := take l block) in *.
  assert (length part = l) as Hpart by (unfold part; rewrite length_take; lia).
  pose proof (parse_int_ok mem Hmok pos end_ prefix part ltac:(lia) Hprefix Hagree) as Hint.
  rewrite Hpart in Hint. rewrite Hint. eexists. split; [reflexivity|].
  assert (int_needs prefix part <= NGX_HTTP_V2_INT_OCTETS `min` l)%nat as Hneeds.
  { unfold int_needs. destruct (block_int prefix part) as [|[v rest]] eqn:Hi; [lia|].
    apply block_int_rest in Hi as [Hi _]. unfold NGX_HTTP_V2_INT_OCTETS. lia. }
  case_decide as Hagain; [left; split_and!; [done|fold l; lia|lia]|right].
  assert (match block_int prefix block with
          | inl rc => exists rc', block_int prefix part = inl rc' /\ (rc' = rc \/ rc = NGX_DECLINED)
          | inr (v, rest) => exists rest', block_int prefix part = inr (v, rest')
              /\ (length part - length rest' = length block - length rest)%nat
          end) as Hsame.
  { assert (l = length block -> part = block) as Hwhole by (intros Hb; by apply take_ge; lia).
    destruct (decide (l = length block)) as [Hb|Hb].
    { rewrite (Hwhole Hb). destruct (block_int prefix block) as [rc|[v rest]]; eauto. }
    assert (NGX_HTTP_V2_INT_OCTETS <= l)%nat as Hl4.
    { destruct Hl as [Hflag|]; [|done]. specialize (Hl3 Hflag). lia. }
    pose proof (block_int_take prefix block l Hl4 Hl1) as Ht. fold part in Ht.
    destruct (block_int prefix block) as [rc|[v rest]] eqn:Hi.
    - destruct Ht as [Hrc [rc' Hrc']]. exists rc'. split; [done|]. right. by destruct Hrc.
    - apply block_int_rest in Hi as [Hi _]. eexists. split; [exact Ht|].
      unfold NGX_HTTP_V2_INT_OCTETS in *. rewrite Hpart, length_take. lia. }
  destruct (block_int prefix block) as [rc|[v rest]] eqn:Hi.
  - destruct Hsame as (rc' & Hp' & Hrc). rewrite Hp'. exists rc'. split_and!; [done| |done].
    by eapply block_int_error.
  - destruct Hsame as (rest' & Hp' & Hlen). pose proof Hp' as [Hr' _]%block_int_rest.
    apply block_int_rest in Hi as [Hr Hdrop]. unfold int_needs in Hagain. rewrite Hp' in *.
    rewrite Hpart in *. exists (length block - length rest)%nat.
    split_and!; [f_equal; [f_equal|]; lia|lia..|done].
Qed.

Lemma block_head c mem pos block :
  entry c mem pos ->
  framed sid after (s_flags c) (s_length c) (s_padding c) (input_at mem pos) block ->
  (0 < s_length c)%nat -> (pos < end_)%nat ->
  exists ch, mem !! pos = Some ch /\ head block = Some ch /\ is_u8 ch.
Proof.
  intros He Hfr Hl Hp. pose proof He as [Hmem _ _ _ _ _]. pose proof Hmem as [Hmlen Hmok].
  destruct (framed_take sid after 1 _ _ _ _ _ Hfr ltac:(lia)) as (_ & Htake & Hb & _).
  pose proof (block_agrees mem pos _ block _ Hmem ltac:(lia) eq_refl Htake 0%nat ltac:(lia)) as Ha.
  rewrite length_take in Ha. specialize (Ha ltac:(lia)). rewrite Nat.add_0_r in Ha.
  destruct block as [|ch block]; [cbn in Hb; lia|]. cbn in Ha. exists ch.
  split_and!; [done|done|]. by eapply Forall_lookup_1.
Qed.

Lemma shiftr_7 ch : is_u8 ch -> negb (Z.shiftr ch 7 =? 0) = (ch >=? 128).
Proof.
  unfold is_u8. intros H. rewrite shiftr_div by done.
  destruct (Z.geb_spec ch 128), (Z.eqb_spec (ch / 2 ^ 7) 0); cbn; lia_mod.
Qed.

Lemma int_failed M rc rc' (again other : option (state_result T)) :
  result = inl (int_error rc) -> rc' = NGX_ERROR \/ rc' = NGX_DECLINED -> rc' = rc \/ rc = NGX_DECLINED ->
  post M (if rc' <? 0 then
            if rc' =? NGX_AGAIN then again
            else if rc' =? NGX_DECLINED then Some (Fail NGX_HTTP_V2_COMP_ERROR)
            else Some (Fail NGX_HTTP_V2_SIZE_ERROR)
          else other).
Proof.
  intros Hres [->| ->] Hrc; cbn; eexists; (split; [reflexivity|]).
  - destruct Hrc as [<-| ->]; [by left|by right].
  - left. by destruct Hrc as [<-| ->].
Qed.

(** The states wait for the rest of an integer. *)
Lemma int_again M c mem pos block h r :
  entry c mem pos ->
  framed sid after (s_flags c) (s_length c) (s_padding c) (input_at mem pos) block ->
  pending c block h -> h <> state_head -> h <> state_skip -> wait_for_int c pos r ->
  r.1.1 = NGX_AGAIN /\ post M (ngx_http_v2_state_save (c <| s_length := r.2 |>) mem r.1.2 end_ h).
Proof.
  intros He Hfr Hpend Hh Hh' (-> & Hagain & Hagain4). split; [done|]. cbn [fst snd].
  replace (c <| s_length := s_length c |>) with c by by destruct c.
  pose proof (framed_length _ _ _ _ _ _ _ Hfr) as (Hl1 & Hl2 & Hl3). pose proof He as [Hmem Hpos _ _ _ _].
  apply save_ok; try done.
  - unfold NGX_HTTP_V2_STATE_BUFFER_SIZE, NGX_HTTP_V2_INT_OCTETS in *. lia.
  - eapply (input_more mem pos (end_ - pos)); done || lia.
  - by apply (good_pending c _ block).
Qed.

(** The states of a string, before a [next] that does what is to be done with it;
    [names]: also when it is a name. *)
Section Strings.
Context (M : nat) (names : bool) (next : conn -> list Z -> nat -> nat -> option (state_result T)).
Hypothesis next_ok : forall c d mem pos block,
  entry c mem pos ->
  framed sid after (s_flags c) (s_length c) (s_padding c) (input_at mem pos) block ->
  rep c d -> (s_parse_name c = true -> names = true) -> s_parse_value c = true ->
  s_field_state c = 0 -> bytes_ok (s_field c) -> result = cont c d (s_field c, block) ->
  (2 * (end_ - pos) <= M)%nat ->
  post M (next c mem pos end_).

(** The string is there. *)
Lemma string_there c d huff got s block mem pos :
  entry c mem pos ->
  framed sid after (s_flags c) (s_length c) (s_padding c) (input_at mem pos) block ->
  rep c d -> s_parse_value c = true -> s_field_state c = 0 -> s_field c = s ->
  (s_parse_name c = true -> names = true) -> bytes_ok s ->
  result = then_ (string_bytes huff (length got) (got ++ block)) (cont c d) ->
  string_bytes huff (length got) (got ++ block) = inr (s, block) ->
  (2 * (end_ - pos) <= M)%nat ->
  post M (next c mem pos end_).
Proof.
  intros He Hfr Hrep Hv Hst <- Hn Hok Hres Hs HM. apply (next_ok c d mem pos block); try done.
  by rewrite Hres, Hs.
Qed.

Lemma field_raw_ok c d mem pos got block :
  entry c mem pos ->
  framed sid after (s_flags c) (s_length c) (s_padding c) (input_at mem pos) block ->
  in_string c d false got block -> (s_parse_name c = true -> names = true) ->
  (2 * (end_ - pos) <= S M)%nat -> (s_field_rest c = 0 -> 2 * (end_ - pos) <= M)%nat ->
  post M (ngx_http_v2_state_field_raw next c mem pos end_).
Proof.
  intros He Hfr Hin Hn HM HM0. unfold ngx_http_v2_state_field_raw.
  destruct (piece_ok c mem pos block He Hfr) as (Hread & Hok & Hend & Hb & Hrest & Hfr').
  set (size := piece_size c pos end_) in *. rewrite Hread. cbn [mbind option_bind].
  set (c' := (take_piece size c) <| s_field := s_field (take_piece size c) ++ take size block |>).
  assert (entry c' mem (pos + size)) as He' by (eapply entry_at; [exact He|lia|done]).
  pose proof Hin as [_ _ _ Hgot [Hst Hf] Hroom _].
  assert (in_string c' d false (got ++ take size block) (drop size block)) as Hin'.
  { eapply in_string_piece; try done. split; [done|]. change (s_field c') with (s_field c ++ take size block).
    by rewrite Hf. }
  assert (length (s_field c') <= length got + size)%nat as Hlen.
  { change (s_field c') with (s_field c ++ take size block). rewrite Hf, length_app, length_take. lia. }
  change (s_field_alloc c') with (s_field_alloc c).
  rewrite Hroom, (proj2 (Nat.ltb_ge _ _)) by lia.
  change (s_field_rest c') with (s_field_rest c - size)%nat.
  destruct (Nat.eqb_spec (s_field_rest c - size) 0) as [H0|H0].
  - rewrite (proj2 (Nat.ltb_ge _ _)) by lia.
    destruct Hin' as [I1 I2 I3 I4 [I5 I6] I7 I8].
    change (s_field_rest c') with (s_field_rest c - size)%nat in *. rewrite H0, Nat.add_0_r in *.
    eapply (string_there c' d false _ _ (drop size block)); try done.
    + unfold string_bytes. rewrite take_app_length, drop_app_length, (proj2 (Nat.ltb_ge _ _)); [done|].
      rewrite !length_app. lia.
    + destruct (decide (size = 0)%nat) as [Hs|Hs]; [|lia]. rewrite Hs, Nat.add_0_r in *. apply HM0. lia.
  - apply (unfinished_ok M c' mem (pos + size) (drop size block)); try done.
    + change (s_length c') with (s_length c - size)%nat. unfold size, piece_size in *. lia.
    + eapply pending_raw; [done|]. change (s_field_rest c') with (s_field_rest c - size)%nat. lia.
    + intros Hnil. rewrite Hnil in Hin'. eapply in_string_cut; [done|].
      change (s_field_rest c') with (s_field_rest c - size)%nat. lia.
    + lia.
Qed.

(** The decoder on what the socket gave of a string, and on the end of it. *)
Lemma huff_walk c d got block n :
  in_string c d true got block -> (n <= s_field_rest c)%nat -> (n <= length block)%nat ->
  exists out o, walk (tree_at (s_field_state c)) (bits_of_bytes (take n block)) = (out, o)
    /\ walk code_tree (bits_of_bytes (got ++ take n block)) = (s_field c ++ out, o)
    /\ (length (s_field c ++ out) + 1 <= s_field_alloc c)%nat.
Proof.
  intros [_ _ _ _ [_ Hw] Hroom _] Hn Hb.
  pose proof (walk_bound (got ++ take n block)) as Hbound.
  pose proof (walk_app code_tree (bits_of_bytes got) (bits_of_bytes (take n block))) as Hwalk.
  rewrite <- bits_of_bytes_app, Hw in Hwalk.
  destruct (walk (tree_at _) _) as [out o]. cbn [prod_map fst snd id] in Hwalk. exists out, o.
  split_and!; [done..|]. rewrite Hwalk, length_app, length_take, Nat.min_l in Hbound by lia.
  cbn [fst] in Hbound. rewrite Hroom. apply Nat.add_le_mono_r, Nat.div_le_lower_bound; lia.
Qed.

Lemma huff_last c d got block :
  in_string c d true got block -> (s_field_rest c <= length block)%nat ->
  bytes_ok (take (s_field_rest c) block) -> (s_field_rest c = 0%nat -> got = []) ->
  exists rc st dst,
    ngx_http_huff_decode (s_field_state c) (take (s_field_rest c) block) (s_field c) true
    = Some (rc, st, dst) /\ (length dst + 1 <= s_field_alloc c)%nat
    /\ if rc =? NGX_OK then st = 0 /\ bytes_ok dst /\ result = cont c d (dst, drop (s_field_rest c) block)
       else result = inl NGX_HTTP_V2_COMP_ERROR.
Proof.
  intros Hin Hb Hok H0. destruct (huff_walk c d got block _ Hin (le_n _) Hb) as (out & o & Ho & Hall & Hlen).
  destruct Hin as [_ _ _ Hgot [Hst Hw] _ Hres].
  destruct (decode_last (s_field_state c) (take (s_field_rest c) block) (s_field c) Hok Hst)
    as (rc & st & -> & Hrc).
  { intros Hnil%(f_equal length). rewrite length_take in Hnil. cbn in Hnil.
    rewrite H0 in Hw by lia. cbn in Hw. injection Hw as _ <-. by vm_compute. }
  rewrite Ho in *. cbn [fst snd] in *. exists rc, st, (s_field c ++ out). split_and!; [done..|].
  destruct (walk_sound [] _ _ _ code_tree_node Hall) as (_ & Hbytes & _).
  unfold string_bytes in Hres. rewrite take_app_ge in Hres by lia.
  replace (length got + s_field_rest c - length got)%nat with (s_field_rest c) in Hres by lia.
  rewrite Hall, (proj2 (Nat.ltb_ge _ _)) in Hres by (rewrite length_app; lia).
  destruct o as [t|]; [destruct (may_end t)|]; [destruct Hrc as [-> ->]|by rewrite Hrc..].
  cbn [Z.eqb NGX_OK then_] in *. split_and!; [done..|]. rewrite Hres. do 2 f_equal.
  rewrite drop_app_ge by lia. f_equal. lia.
Qed.

Lemma huff_part c d got block n :
  in_string c d true got block -> (n <= s_field_rest c)%nat -> (n <= length block)%nat ->
  bytes_ok (take n block) ->
  exists rc st dst,
    ngx_http_huff_decode (s_field_state c) (take n block) (s_field c) false = Some (rc, st, dst)
    /\ (length dst + 1 <= s_field_alloc c)%nat
    /\ if rc =? NGX_OK then is_u8 st
         /\ walk code_tree (bits_of_bytes (got ++ take n block)) = (dst, Some (tree_at st))
       else result = inl NGX_HTTP_V2_COMP_ERROR.
Proof.
  intros Hin Hn Hb Hok. destruct (huff_walk c d got block n Hin Hn Hb) as (out & o & Ho & Hall & Hlen).
  destruct Hin as [_ _ _ Hgot [Hst Hw] _ Hres].
  destruct (decode_piece (s_field_state c) (take n block) (s_field c) Hok Hst) as (rc & st & -> & Hrc).
  rewrite Ho in *. cbn [fst snd] in *. exists rc, st, (s_field c ++ out). split_and!; [done..|].
  destruct o as [t|]; [by destruct Hrc as (-> & ? & <-)|]. rewrite Hrc. cbn [Z.eqb NGX_OK NGX_ERROR].
  unfold string_bytes in Hres. rewrite take_app_ge in Hres by lia.
  replace (take (length got + s_field_rest c - length got) block)
    with (take n block ++ take (s_field_rest c - n) (drop n block)) in Hres.
  - by rewrite app_assoc, bits_of_bytes_app, walk_app, Hall in Hres.
  - rewrite take_take_drop. f_equal. lia.
Qed.

Lemma field_huff_ok c d mem pos got block :
  entry c mem pos ->
  framed sid after (s_flags c) (s_length c) (s_padding c) (input_at mem pos) block ->
  in_string c d true got block -> (s_parse_name c = true -> names = true) ->
  (2 * (end_ - pos) <= S M)%nat -> (s_field_rest c = 0 -> 2 * (end_ - pos) <= M /\ got = [])%nat ->
  post M (ngx_http_v2_state_field_huff next c mem pos end_).
Proof.
  intros He Hfr Hin Hn HM HM0. unfold ngx_http_v2_state_field_huff.
  destruct (piece_ok c mem pos block He Hfr) as (Hread & Hok & Hend & Hb & Hrest & Hfr').
  set (size := piece_size c pos end_) in *. rewrite Hread. cbn [mbind option_bind].
  change (s_field_state (take_piece size c)) with (s_field_state c).
  change (s_field (take_piece size c)) with (s_field c).
  change (s_field_rest (take_piece size c)) with (s_field_rest c - size)%nat.
  assert (forall st dst, entry ((take_piece size c) <| s_field_state := st |> <| s_field := dst |>)
    mem (pos + size)) as He' by (intros st dst; eapply entry_at; [exact He|lia|done]).
  destruct (Nat.eqb_spec (s_field_rest c - size) 0) as [H0|H0].
  - assert (size = s_field_rest c) as Hsize by lia. clearbody size. subst size.
    destruct (huff_last c d got block Hin Hb Hok) as (rc & st & dst & -> & Hlen & Hrc); [tauto|].
    cbn [mbind option_bind]. set (c' := _ <| s_field_state := st |> <| s_field := dst |>).
    change (s_field_alloc c') with (s_field_alloc c). change (s_field_rest c') with (s_field_rest c - s_field_rest c)%nat.
    rewrite !(proj2 (Nat.ltb_ge _ _)), Nat.sub_diag by lia. cbn [Nat.eqb].
    destruct (rc =? NGX_OK); cbn [negb]; [|by apply post_fail]. destruct Hrc as (-> & Hdst & Hres).
    apply (next_ok c' d mem _ (drop (s_field_rest c) block)); try done;
      [apply He'|by apply (rep_same c); [|apply Hin]|apply Hin|lia].
  - destruct (huff_part c d got block size Hin Hrest Hb Hok) as (rc & st & dst & -> & Hlen & Hrc).
    cbn [mbind option_bind]. set (c' := _ <| s_field_state := st |> <| s_field := dst |>).
    change (s_field_alloc c') with (s_field_alloc c). change (s_field_rest c') with (s_field_rest c - size)%nat.
    rewrite (proj2 (Nat.ltb_ge _ _)), (proj2 (Nat.eqb_neq _ _)) by lia.
    destruct (rc =? NGX_OK); cbn [negb]; [|by apply post_fail].
    assert (in_string c' d true (got ++ take size block) (drop size block)) as Hin'
      by by eapply in_string_piece.
    apply (unfinished_ok M c' mem (pos + size) (drop size block)); try done.
    + apply He'.
    + change (s_length c') with (s_length c - size)%nat. unfold size, piece_size in *. lia.
    + eapply pending_huff; [done|]. change (s_field_rest c') with (s_field_rest c - size)%nat. lia.
    + intros Hnil. rewrite Hnil in Hin'. eapply in_string_cut; [done|].
      change (s_field_rest c') with (s_field_rest c - size)%nat. lia.
    + lia.
Qed.

Lemma field_skip_ok c d mem pos block :
  entry c mem pos ->
  framed sid after (s_flags c) (s_length c) (s_padding c) (input_at mem pos) block ->
  rep c d -> s_parse_value c = true -> s_field_state c = 0 -> s_field c = d_field d ->
  skipped d (s_index c) = true ->
  result = (if (length block <? s_field_rest c)%nat then inl NGX_HTTP_V2_SIZE_ERROR
            else cont c d (d_field d, drop (s_field_rest c) block)) ->
  (s_parse_name c = true -> names = true) ->
  (2 * (end_ - pos) <= S M)%nat -> (s_field_rest c = 0 -> 2 * (end_ - pos) <= M)%nat ->
  post M (ngx_http_v2_state_field_skip next c mem pos end_).
Proof.
  intros He Hfr Hrep Hv Hst Hf Hskip Hres Hn HM HM0. unfold ngx_http_v2_state_field_skip.
  destruct (piece_ok c mem pos block He Hfr) as (_ & _ & Hend & Hb & Hrest & Hfr').
  set (size := piece_size c pos end_) in *. set (c' := take_piece size c).
  change (s_field_rest c') with (s_field_rest c - size)%nat.
  assert (entry c' mem (pos + size)) as He' by (eapply entry_at; [exact He|lia|done]).
  assert (rep c' d) as Hrep' by by apply (rep_same c).
  destruct (Nat.eqb_spec (s_field_rest c - size) 0) as [H0|H0].
  - assert (size = s_field_rest c) as Hsize by lia. clearbody size. subst size.
    rewrite (proj2 (Nat.ltb_ge _ _)) in Hres by lia.
    apply (next_ok c' d mem _ (drop (s_field_rest c) block)); try done; [|by rewrite Hres, <- Hf|lia].
    change (s_field c') with (s_field c). rewrite Hf. apply Hrep.
  - apply (unfinished_ok M c' mem (pos + size) (drop size block)); try done.
    + change (s_length c') with (s_length c - size)%nat. unfold size, piece_size in *. lia.
    + apply (pending_skip c' (drop size block) d); try done;
        change (s_field_rest c') with (s_field_rest c - size)%nat; [lia|].
      rewrite Hres, drop_drop, length_drop.
      replace (size + (s_field_rest c - size))%nat with (s_field_rest c) by lia.
      destruct (Nat.ltb_spec (length block) (s_field_rest c)), (Nat.ltb_spec (length block - size) (s_field_rest c - size));
        done || lia.
    + intros Hnil. apply (f_equal length) in Hnil. rewrite length_drop in Hnil. cbn in Hnil.
      by rewrite (proj2 (Nat.ltb_lt _ _)) in Hres by lia.
    + lia.
Qed.
(** The length of a string, and the string. *)
Lemma string_ok c d huff len mem pos block :
  entry c mem pos ->
  framed sid after (s_flags c) (s_length c) (s_padding c) (input_at mem pos) block ->
  rep c d -> s_parse_value c = true -> s_field_state c = 0 -> s_field c = d_field d ->
  (s_parse_name c = true -> names = true) -> (2 * (end_ - pos) <= M)%nat ->
  result = then_ (if skipped d (s_index c) then
                    if (length block <? len)%nat then inl NGX_HTTP_V2_SIZE_ERROR
                    else inr (d_field d, drop len block)
                  else string_bytes huff len block) (cont c d) ->
  let c := c <| s_field_rest := len |> in
  post M (if no_stream c && negb (s_index c) then ngx_http_v2_state_field_skip next c mem pos end_
          else
            let c := c <| s_field_alloc := ((if huff then len * 8 / 5 else len) + 1)%nat |>
                       <| s_field := [] |> in
            if huff then ngx_http_v2_state_field_huff next c mem pos end_
            else ngx_http_v2_state_field_raw next c mem pos end_).
Proof.
  intros He Hfr Hrep Hv Hst Hf Hn HM Hres. cbn zeta. set (c1 := c <| s_field_rest := len |>).
  assert (entry c1 mem pos) as He1 by (eapply entry_at; [exact He|split; [lia|apply He]|done]).
  assert (rep c1 d) as Hrep1 by by apply (rep_same c).
  assert (no_stream c1 && negb (s_index c1) = skipped d (s_index c)) as ->.
  { unfold no_stream, skipped. change (s_stream c1) with (s_stream c). rewrite (rep_stream _ _ Hrep).
    by destruct (d_stream d). }
  destruct (skipped d (s_index c)) eqn:Hskip.
  - apply (field_skip_ok c1 d mem pos block); try done; [|lia]. change (s_field_rest c1) with len.
    rewrite Hres. by destruct (length block <? len)%nat.
  - set (c2 := c1 <| s_field_alloc := _ |> <| s_field := [] |>).
    assert (entry c2 mem pos) as He2 by (eapply entry_at; [exact He|split; [lia|apply He]|done]).
    assert (in_string c2 d huff [] block) as Hin.
    { constructor; try done; [by apply (rep_same c)|].
      change (s_field_state c2) with (s_field_state c). rewrite Hst. by destruct huff. }
    destruct huff.
    + apply (field_huff_ok c2 d mem pos [] block); try done; lia.
    + apply (field_raw_ok c2 d mem pos [] block); try done; lia.
Qed.

Lemma field_len_ok c d mem pos block :
  entry c mem pos ->
  framed sid after (s_flags c) (s_length c) (s_padding c) (input_at mem pos) block ->
  rep c d -> s_parse_value c = true -> s_field_state c = 0 -> s_field c = d_field d ->
  result = then_ (block_string cf d (s_index c) block) (cont c d) ->
  (s_parse_name c = true -> names = true) -> (2 * (end_ - pos) <= S M)%nat ->
  post M (ngx_http_v2_state_field_len cf next c mem pos end_).
Proof.
  intros He Hfr Hrep Hv Hst Hf Hres Hn HM. pose proof He as [Hmem Hpos _ _ _ _].
  pose proof (framed_length _ _ _ _ _ _ _ Hfr) as (Hl1 & Hl2 & Hl3).
  assert (pending c block state_field_len) as Hpend by by eapply pending_len.
  unfold ngx_http_v2_state_field_len, end_headers. fold (flag_set (s_flags c)).
  destruct (negb (flag_set (s_flags c)) && (s_length c <? NGX_HTTP_V2_INT_OCTETS)%nat) eqn:Hshort.
  { apply andb_true_iff in Hshort as [Hflag%negb_true_iff Hlen%Nat.ltb_lt].
    eapply continuation_ok; try done. lia. }
  assert (flag_set (s_flags c) = true \/ NGX_HTTP_V2_INT_OCTETS <= s_length c)%nat as Hl.
  { destruct (flag_set (s_flags c)); [by left|right]. by apply Nat.ltb_ge in Hshort. }
  clear Hshort. destruct (Nat.ltb_spec (s_length c) 1) as [H0|H0].
  { apply post_fail. destruct Hl as [Hflag|]; [|unfold NGX_HTTP_V2_INT_OCTETS in *; lia].
    specialize (Hl3 Hflag). destruct block; [by rewrite Hres|cbn in Hl3; lia]. }
  destruct (Nat.ltb_spec (end_ - pos) 1) as [Hp0|Hp0].
  { apply save_ok; try done; [unfold NGX_HTTP_V2_STATE_BUFFER_SIZE; lia| |].
    - eapply (input_more mem pos 0); done || lia.
    - by apply (good_pending c _ block). }
  destruct (block_head c mem pos block He Hfr ltac:(lia) ltac:(lia)) as (ch & Hch & Hhead & Hchok).
  rewrite Hch. cbn [mbind option_bind]. rewrite shiftr_7 by done.
  unfold block_string in Hres. rewrite Hhead in Hres. cbn [default] in Hres. unfold id in Hres.
  destruct (field_int_ok c mem pos (ngx_http_v2_prefix 7) block He Hfr Hl ltac:(lia) ltac:(done))
    as (r & -> & Hr). cbn [mbind option_bind].
  destruct Hr as [Hwait|Hr].
  { destruct (int_again M c mem pos block state_field_len r He Hfr Hpend) as [Hr Hpost]; [done..|].
    destruct r as [[v p] l]. cbn [fst snd] in *. by rewrite Hr. }
  destruct (block_int _ block) as [rc|[len rest]] eqn:Hint.
  { destruct Hr as (rc' & -> & Hrc' & Hrc). by apply (int_failed M rc). }
  destruct Hr as (n & -> & Hn0 & Hnl & Hnp & ->). apply block_int_nonneg in Hint; [|done].
  rewrite (proj2 (Z.ltb_ge _ _)) by lia. destruct (_ <? len); [by apply post_fail|].
  set (c1 := c <| s_length := (s_length c - n)%nat |>).
  apply (string_ok c1 d (ch >=? 128) (Z.to_nat len) mem (pos + n) (drop n block)); try done.
  - by eapply entry_at; [exact He|lia|].
  - change (s_length c1) with (s_length c - n)%nat. rewrite <- input_drop by done.
    by apply framed_take.
  - by apply (rep_same c).
  - lia.
Qed.
End Strings.

Lemma then_assoc {A B C : Type} (x : Z + A) (f : A -> Z + B) (g : B -> Z + C) :
  then_ (then_ x f) g = then_ x (fun a => then_ (f a) g).
Proof. by destruct x. Qed.

(** The name and then the value, or the value. *)
Lemma process_header_ok M fuel c d mem pos block :
  entry c mem pos ->
  framed sid after (s_flags c) (s_length c) (s_padding c) (input_at mem pos) block ->
  rep c d -> (s_parse_name c = true -> (0 <? fuel)%nat = true) -> s_parse_value c = true ->
  s_field_state c = 0 -> bytes_ok (s_field c) -> result = cont c d (s_field c, block) ->
  (2 * (end_ - pos) <= M)%nat ->
  post M (process_header cf header_handler fuel c mem pos end_).
Proof.
  revert c d mem pos block. induction fuel as [|fuel IH];
    intros c d mem pos block He Hfr Hrep Hn Hv Hst Hok Hres HM; cbn [process_header];
    unfold cont in Hres; destruct (s_parse_name c) eqn:Hname; try by specialize (Hn eq_refl).
  1,3: eapply process_field_ok; try done; rewrite Hv; [done..|];
    rewrite Hres; unfold after_value; cbn [fst snd]; by rewrite then_assoc.
  set (c1 := c <| s_parse_name := false |> <| s_header := (s_field c, (s_header c).2) |>).
  unfold after_name in Hres. cbn [fst snd] in Hres.
  change (s_field c1) with (s_field c). destruct (length (s_field c) =? 0)%nat; [by apply post_fail|].
  apply (field_len_ok M (0 <? fuel)%nat _ IH c1 (set_field d (s_field c)) mem pos block); try done.
  - by eapply entry_at; [exact He|split; [lia|apply He]|].
  - destruct Hrep as [R1 R2 R3 R4 R5 R6]. by constructor.
  - rewrite Hres. unfold block_value. by rewrite then_assoc.
  - lia.
Qed.

(** The fields of the table have values of bytes. *)
Lemma table_get_ok d index f :
  Forall (fun f : header => bytes_ok f.2) (fields (d_table (T := T) d)) ->
  table_get (d_table d) index = Some f -> bytes_ok f.2.
Proof.
  assert (Forall (fun f : header => bytes_ok f.2) ngx_http_v2_static_table) as Hstatic.
  { apply (Forall_check (fun f : header => forallb (fun c => (0 <=? c) && (c <? 256)) f.2));
      [|by vm_compute]. intros g. apply bytes_ok_check. }
  unfold table_get. destruct index as [|i]; [done|]. intros Hd.
  destruct (ngx_http_v2_static_table !! i) as [g|] eqn:Hg.
  - intros [= <-]. exact (Forall_lookup_1 _ _ _ _ Hstatic Hg).
  - intros Hf. apply Forall_reverse in Hd. exact (Forall_lookup_1 _ _ _ _ Hd Hf).
Qed.

Lemma set_field_id (d : decoding (T := T)) s : s = d_field d -> set_field d s = d.
Proof. intros ->. by destruct d. Qed.

(** The kinds of fields, after the first integer. *)
Lemma indexed_ok M c d mem pos index block :
  entry c mem pos ->
  framed sid after (s_flags c) (s_length c) (s_padding c) (input_at mem pos) block ->
  rep c d -> idle c -> s_field c = d_field d -> s_index c = false ->
  result = then_ (match table_get (d_table d) index with
                  | None => inl NGX_HTTP_V2_COMP_ERROR
                  | Some f => then_ (field_done cf header_handler d false f) (fun d => inr (d, block))
                  end) (fun x => rest_of_block x.1 x.2) ->
  (2 * (end_ - pos) <= M)%nat ->
  post M ('(rc, hd) ← ngx_http_v2_get_indexed_header (s_hpack c) index false (s_header c);
          if negb (rc =? NGX_OK) then Some (Fail NGX_HTTP_V2_COMP_ERROR)
          else ngx_http_v2_state_process_header cf header_handler (c <| s_header := hd |>) mem pos end_).
Proof.
  intros He Hfr Hrep [I1 I2 I3] Hf Hi Hres HM. pose proof Hrep as [R1 R2 _ _ _ R6].
  destruct (get_indexed_header_ok _ _ index (s_header c) R1) as [-> _]. cbn [mbind option_bind].
  destruct (table_get (d_table d) index) as [f|] eqn:Hget; [|by apply post_fail].
  cbn [Z.eqb NGX_OK negb]. unfold ngx_http_v2_state_process_header, process_header.
  set (c1 := c <| s_header := f |>). change (s_parse_name c1) with (s_parse_name c). rewrite I1.
  apply (process_field_ok M c1 d mem pos block f); try done.
  - by eapply entry_at; [exact He|split; [lia|apply He]|].
  - destruct Hrep. by constructor.
  - change (s_parse_value c1) with (s_parse_value c). by rewrite I2.
  - by apply (table_get_ok d index).
  - change (s_field c1) with (s_field c). by rewrite Hf.
  - change (s_field c1) with (s_field c). change (s_index c1) with (s_index c).
    by rewrite Hres, Hi, then_assoc, set_field_id.
Qed.

Lemma size_update_ok M c d mem pos size block :
  entry c mem pos ->
  framed sid after (s_flags c) (s_length c) (s_padding c) (input_at mem pos) block ->
  rep c d -> idle c -> s_field c = d_field d -> s_index c = false -> 0 <= size ->
  result = then_ (if size <=? Z.of_nat NGX_HTTP_V2_TABLE_SIZE then
                    inr ({| d_table := table_resize (d_table d) size; d_limit := d_limit d;
                            d_stream := d_stream d; d_field := d_field d |}, block)
                  else inl NGX_HTTP_V2_COMP_ERROR) (fun x => rest_of_block x.1 x.2) ->
  (2 * (end_ - pos) <= M)%nat ->
  post M ('(rc, h) ← ngx_http_v2_table_size (s_hpack c) size;
          if negb (rc =? NGX_OK) then Some (Fail NGX_HTTP_V2_COMP_ERROR)
          else ngx_http_v2_state_header_complete (c <| s_hpack := h |>) mem pos end_).
Proof.
  intros He Hfr [R1 R2 R3 R4 R5 R6] [I1 I2 I3] Hf Hi Hs Hres HM.
  destruct (table_size_ok _ _ size R1 Hs) as (rc & h & -> & Hrc). cbn [mbind option_bind].
  destruct (size <=? _); destruct Hrc as [-> Hh]; [|by apply post_fail]. cbn [Z.eqb NGX_OK negb].
  set (d' := {| d_table := table_resize (d_table d) size; d_limit := d_limit d;
                d_stream := d_stream d; d_field := d_field d |}) in *.
  apply (header_complete_ok M _ d' mem pos block); try done.
  - by eapply entry_at; [exact He|split; [lia|apply He]|].
  - constructor; try done. by apply evict_values.
Qed.

Lemma field_literal_ok M c d mem pos index block :
  entry c mem pos ->
  framed sid after (s_flags c) (s_length c) (s_padding c) (input_at mem pos) block ->
  rep c d -> idle c -> s_field c = d_field d ->
  result = then_ (if (index =? 0)%nat then block_name cf header_handler d (s_index c) block
                  else match table_get (d_table d) index with
                       | None => inl NGX_HTTP_V2_COMP_ERROR
                       | Some f => block_value cf header_handler d (s_index c) f.1 block
                       end) (fun x => rest_of_block x.1 x.2) ->
  (2 * (end_ - pos) <= M)%nat ->
  post M (if (index =? 0)%nat then
            ngx_http_v2_state_field_len cf (ngx_http_v2_state_process_header cf header_handler)
              (c <| s_parse_name := true |> <| s_parse_value := true |>) mem pos end_
          else
            '(rc, hd) ← ngx_http_v2_get_indexed_header (s_hpack c) index true (s_header c);
            if negb (rc =? NGX_OK) then Some (Fail NGX_HTTP_V2_COMP_ERROR)
            else
              ngx_http_v2_state_field_len cf (ngx_http_v2_state_process_header cf header_handler)
                (c <| s_header := hd |> <| s_parse_value := true |>) mem pos end_).
Proof.
  intros He Hfr Hrep [I1 I2 I3] Hf Hres HM. pose proof Hrep as [R1 R2 R3 R4 R5 R6].
  destruct (Nat.eqb_spec index 0) as [->|H0].
  - set (c1 := c <| s_parse_name := true |> <| s_parse_value := true |>).
    apply (field_len_ok M true _ (process_header_ok M 1) c1 d mem pos block); try done; [| |lia].
    + by eapply entry_at; [exact He|split; [lia|apply He]|].
    + rewrite Hres. unfold block_name. by rewrite then_assoc.
  - destruct (get_indexed_header_ok _ _ index (s_header c) R1) as [_ [o ->]].
    cbn [mbind option_bind]. destruct (table_get (d_table d) index) as [f|]; [|by apply post_fail].
    cbn [Z.eqb NGX_OK negb]. set (c1 := c <| s_header := (f.1, o) |> <| s_parse_value := true |>).
    apply (field_len_ok M true _ (process_header_ok M 1) c1 d mem pos block); try done; [| |lia].
    + by eapply entry_at; [exact He|split; [lia|apply He]|].
    + rewrite Hres. unfold block_value. rewrite then_assoc. f_equal. unfold cont.
      change (s_parse_name c1) with (s_parse_name c). by rewrite I1.
Qed.

(** A field from its first octet. *)
Definition set_index (c : conn) (index : bool) : conn := if index then c <| s_index := true |> else c.

Lemma set_index_eq c index :
  (s_index c = true -> index = true) ->
  set_index c index = c <| s_index := index |>.
Proof. destruct index; [done|]. destruct c, s_index0; [|done]. intros H. by specialize (H eq_refl). Qed.

Lemma field_ok M c d mem pos block ch v n :
  entry c mem pos ->
  framed sid after (s_flags c) (s_length c) (s_padding c) (input_at mem pos) (drop n block) ->
  rep c d -> idle c -> s_field c = d_field d -> s_index c = (ch >=? 64) && negb (ch >=? 128) ->
  head block = Some ch -> block_int (field_prefix ch) block = inr (v, drop n block) ->
  result = then_ (block_field cf header_handler d block) (fun x => rest_of_block x.1 x.2) ->
  (2 * (end_ - pos) <= M)%nat ->
  post M (if ch >=? 128 then
            '(rc, hd) ← ngx_http_v2_get_indexed_header (s_hpack c) (Z.to_nat v) false (s_header c);
            if negb (rc =? NGX_OK) then Some (Fail NGX_HTTP_V2_COMP_ERROR)
            else ngx_http_v2_state_process_header cf header_handler (c <| s_header := hd |>) mem pos end_
          else if negb (ch >=? 128) && negb (negb (ch >=? 128) && (ch >=? 64)) && (ch >=? 32) then
            '(rc, h) ← ngx_http_v2_table_size (s_hpack c) v;
            if negb (rc =? NGX_OK) then Some (Fail NGX_HTTP_V2_COMP_ERROR)
            else ngx_http_v2_state_header_complete (c <| s_hpack := h |>) mem pos end_
          else if v =? 0 then
            ngx_http_v2_state_field_len cf (ngx_http_v2_state_process_header cf header_handler)
              (c <| s_parse_name := true |> <| s_parse_value := true |>) mem pos end_
          else
            '(rc, hd) ← ngx_http_v2_get_indexed_header (s_hpack c) (Z.to_nat v) true (s_header c);
            if negb (rc =? NGX_OK) then Some (Fail NGX_HTTP_V2_COMP_ERROR)
            else
              ngx_http_v2_state_field_len cf (ngx_http_v2_state_process_header cf header_handler)
                (c <| s_header := hd |> <| s_parse_value := true |>) mem pos end_).
Proof.
  intros He Hfr Hrep Hidle Hf Hi Hhead Hint Hres HM. unfold block_field in Hres. rewrite Hhead in Hres.
  cbn [default] in Hres. unfold id in Hres. rewrite Hint in Hres.
  pose proof (block_int_nonneg _ _ _ _ Hint) as Hv.
  assert (0 <= v) as Hv0 by (apply Hv; unfold field_prefix; by repeat case_match). clear Hv Hint.
  replace (v =? 0) with (Z.to_nat v =? 0)%nat in *
    by (destruct (Z.eqb_spec v 0), (Nat.eqb_spec (Z.to_nat v) 0); done || lia).
  destruct (ch >=? 128) eqn:H128; cbn [negb andb] in *.
  { eapply indexed_ok; try done. by rewrite Hi, andb_false_r. }
  rewrite andb_true_r in Hi. rewrite <- Hi in *. rewrite andb_comm in Hres.
  destruct (negb (s_index c) && (ch >=? 32)) eqn:Hup.
  { eapply size_update_ok; try done. by destruct (s_index c). }
  by eapply field_literal_ok.
Qed.

Lemma header_block_ok M c d mem pos block :
  entry c mem pos ->
  framed sid after (s_flags c) (s_length c) (s_padding c) (input_at mem pos) block ->
  rep c d -> idle c -> s_field c = d_field d -> block <> [] ->
  (s_index c = true -> 64 <= default 0 (head block) < 128) ->
  result = decode_block d block -> (2 * (end_ - pos) <= S M)%nat ->
  post M (ngx_http_v2_state_header_block cf header_handler c mem pos end_).
Proof.
  intros He Hfr Hrep Hidle Hf Hne Hidx Hres HM. pose proof He as [Hmem Hpos _ _ _ _].
  pose proof (framed_length _ _ _ _ _ _ _ Hfr) as (Hl1 & Hl2 & Hl3).
  assert (0 < length block)%nat as Hlen by (destruct block; cbn; [done|lia]).
  assert (pending c block state_header_block) as Hpend by by eapply pending_block.
  unfold ngx_http_v2_state_header_block, end_headers. fold (flag_set (s_flags c)).
  destruct (Nat.ltb_spec (end_ - pos) 1) as [Hp0|Hp0].
  { apply save_ok; try done; [unfold NGX_HTTP_V2_STATE_BUFFER_SIZE; lia| |].
    - eapply (input_more mem pos 0); done || lia.
    - by apply (good_pending c _ block). }
  destruct (negb (flag_set (s_flags c)) && (s_length c <? NGX_HTTP_V2_INT_OCTETS)%nat) eqn:Hshort.
  { apply andb_true_iff in Hshort as [Hflag%negb_true_iff Hlen4%Nat.ltb_lt].
    eapply continuation_ok; try done. lia. }
  assert (flag_set (s_flags c) = true \/ NGX_HTTP_V2_INT_OCTETS <= s_length c)%nat as Hl.
  { destruct (flag_set (s_flags c)); [by left|right]. by apply Nat.ltb_ge in Hshort. }
  clear Hshort.
  assert (0 < s_length c)%nat as Hl0.
  { destruct Hl as [Hflag|]; [specialize (Hl3 Hflag); lia|unfold NGX_HTTP_V2_INT_OCTETS in *; lia]. }
  destruct (block_head c mem pos block He Hfr Hl0 ltac:(lia)) as (ch & Hch & Hhead & Hchok).
  rewrite Hch. cbn [mbind option_bind]. change (Z.shiftl 1 7) with 128. change (Z.shiftl 1 6) with 64.
  change (Z.shiftl 1 5) with 32. cbv zeta. rewrite Hhead in Hidx. cbn [default] in Hidx. unfold id in Hidx.
  set (index := negb (ch >=? 128) && (ch >=? 64)). fold (set_index c index).
  rewrite set_index_eq by (intros Hi; specialize (Hidx Hi); subst index; lia).
  set (c1 := c <| s_index := index |>).
  assert (ngx_http_v2_prefix (if ch >=? 128 then 7 else if index then 6
    else if negb (ch >=? 128) && negb index && (ch >=? 32) then 5 else 4) = field_prefix ch) as ->
    by (unfold field_prefix, index; by destruct (ch >=? 128), (ch >=? 64), (ch >=? 32)).
  rewrite decode_block_field in Hres by done.
  assert (entry c1 mem pos) as He1 by (eapply entry_at; [exact He|lia|done]).
  assert (idle c1) as Hidle1 by (destruct Hidle; by constructor).
  assert (rep c1 d) as Hrep1 by (destruct Hrep; by constructor).
  destruct (field_int_ok c1 mem pos (field_prefix ch) block He1 Hfr Hl ltac:(lia))
    as (r & Hr & Hcase); [unfold field_prefix; by repeat case_match|].
  rewrite Hr. cbn [mbind option_bind]. clear Hr. destruct Hcase as [Hwait|Hcase].
  { destruct (int_again M c1 mem pos block state_header_block r He1 Hfr) as [Hr Hpost]; try done.
    - apply (pending_block c1 block d); try done; [|by rewrite decode_block_field].
      rewrite Hhead. cbn. subst index. lia.
    - destruct r as [[v p] l]. cbn [fst snd] in *. by rewrite Hr. }
  destruct (block_int (field_prefix ch) block) as [rc|[v rest]] eqn:Hint.
  { destruct Hcase as (rc' & -> & Hrc' & Hrc). apply (int_failed M rc); try done.
    rewrite Hres. unfold block_field. rewrite Hhead. cbn [default]. unfold id. by rewrite Hint. }
  destruct Hcase as (n & -> & Hn0 & Hnl & Hnp & ->). pose proof (block_int_nonneg _ _ _ _ Hint) as Hv.
  rewrite (proj2 (Z.ltb_ge _ _)) by (apply Hv; unfold field_prefix; by repeat case_match).
  set (c2 := c1 <| s_length := (s_length c - n)%nat |>).
  apply (field_ok M c2 d mem (pos + n) block ch v n); try done.
  - by eapply entry_at; [exact He1|lia|].
  - change (s_length c2) with (s_length c - n)%nat. rewrite <- input_drop by done. by apply framed_take.
  - by destruct Hrep1; constructor.
  - by destruct Hidle1; constructor.
  - change (s_index c2) with index. subst index. by rewrite andb_comm.
  - lia.
Qed.

(** One call of a state, and as many as there are. *)
Lemma call_ok M c mem pos :
  entry c mem pos -> good c (input_at mem pos) -> (measure (s_handler c) pos end_ <= S M)%nat ->
  post M (call_handler cf header_handler c mem pos end_).
Proof.
  unfold good, measure, call_handler. intros He Hgood HM. destruct (decide (s_handler c = state_skip)) as [Hskip|Hskip].
  { rewrite Hskip. destruct Hgood as (Hf & Hl & Ha). by apply skip_ok. }
  destruct Hgood as (block & Hfr & Hpend).
  pose proof (process_header_ok M 1) as Hnext. change (0 <? 1)%nat with true in Hnext.
  destruct Hpend as [d P1 P2 P3 P4 P5 P6|d P1 P2 P3 P4 P5|d P1 P2 P3 P4 P5|d got P1 P2|d got P1 P2
    |d P1 P2 P3 P4 P5 P6 P7].
  - eapply header_block_ok; try done. rewrite decide_False in HM by done. lia.
  - eapply header_complete_ok; try done. rewrite decide_True in HM by done. lia.
  - eapply (field_len_ok M true); try done. rewrite decide_False in HM by done. lia.
  - rewrite decide_False in HM by done. eapply (field_huff_ok M true); try done; lia.
  - rewrite decide_False in HM by done. eapply (field_raw_ok M true); try done; lia.
  - rewrite decide_False in HM by done. eapply (field_skip_ok M true); try done; lia.
Qed.

Lemma handle_ok fuel c mem pos :
  entry c mem pos -> good c (input_at mem pos) -> (measure (s_handler c) pos end_ < fuel)%nat ->
  exists p, handle cf header_handler fuel c mem pos end_ = Some p /\ progress_ok p future.
Proof.
  revert c mem pos. induction fuel as [|fuel IH]; intros c mem pos He Hgood Hm; [lia|].
  destruct (call_ok (measure (s_handler c) pos end_ - 1) c mem pos He Hgood ltac:(lia))
    as (r & Hr & Hpost). cbn [handle]. rewrite Hr. cbn [mbind option_bind]. clear Hr.
  destruct r as [c1 mem1 pos1|err]; [|by eexists].
  destruct Hpost as (Hmem & Hpos & Hsid & Hbuf & Hbytes & Hcase).
  destruct (decide (s_handler c1 = state_head)); [by eexists|].
  case_decide as Hend.
  { rewrite (proj2 (Nat.eqb_eq _ _)) by done. eexists. split; [done|].
    destruct Hcase as (? & ? & ?). by split_and!. }
  rewrite (proj2 (Nat.eqb_neq _ _)) by done. destruct Hcase as (Hused & Hgood1 & Hm1).
  assert (2 <= measure (s_handler c1) pos1 end_)%nat by (unfold measure; lia).
  apply IH; [by constructor|done|lia].
Qed.

Lemma handle_buffer_ok c mem pos :
  entry c mem pos -> good c (input_at mem pos) ->
  exists p, handle_buffer cf header_handler c mem pos end_ = Some p /\ progress_ok p future.
Proof.
  intros He Hgood. apply handle_ok; [done..|]. unfold measure. case_decide; lia.
Qed.
End Call.

(** One read: what is in the state buffer, and then the data, are put into the receive
    buffer. *)
Lemma read_handler_ok c mem data input :
  waiting_ok c mem (data ++ input) -> bytes_ok data ->
  (length data + 2 * NGX_HTTP_V2_STATE_BUFFER_SIZE <= N)%nat ->
  exists p, ngx_http_v2_read_handler cf header_handler c mem data = Some p /\ progress_ok p input.
Proof.
  unfold NGX_HTTP_V2_STATE_BUFFER_SIZE.
  intros ([Hlen Hok] & Hsid & Hbuf & Hbytes & Hused & Hgood) Hdata Hroom.
  unfold ngx_http_v2_read_handler, write. unfold NGX_HTTP_V2_STATE_BUFFER_SIZE in *.
  rewrite (proj2 (Nat.leb_le _ _)) by lia. cbn [mbind option_bind].
  change (take 0 mem) with (@nil Z). rewrite app_nil_l. set (mem1 := s_buffer c ++ _).
  assert (length mem1 = N) as Hl1 by (unfold mem1; rewrite length_app, length_drop; lia).
  rewrite (proj2 (Nat.leb_le _ _)) by lia. cbn [mbind option_bind].
  set (mem2 := take (s_buffer_used c) mem1 ++ _).
  set (end_ := (s_buffer_used c + length data)%nat).
  assert (memory_ok mem2) as Hmem2.
  { assert (bytes_ok mem1) by (by apply Forall_app_2; [|apply Forall_drop]).
    split; [|by repeat apply Forall_app_2; [apply Forall_take| |apply Forall_drop]].
    unfold mem2. rewrite !length_app, length_take, length_drop. lia. }
  assert (slice mem2 0 end_ = take (s_buffer_used c) (s_buffer c) ++ data) as Hslice.
  { unfold slice, mem2, end_. rewrite drop_0, Nat.sub_0_r, app_assoc.
    rewrite take_app_length' by (rewrite length_app, length_take; lia).
    unfold mem1. by rewrite take_app_le by lia. }
  apply (handle_buffer_ok end_ input); [unfold NGX_HTTP_V2_STATE_BUFFER_SIZE, end_; lia| |].
  - constructor; try done. lia.
  - unfold input_at. rewrite Hslice, <- app_assoc. by eapply good_same; [| |exact Hgood].
Qed.

(** All of them. *)
Lemma read_all_ok p reads :
  progress_ok p (concat reads) ->
  Forall (fun data => bytes_ok data /\ (length data + 2 * NGX_HTTP_V2_STATE_BUFFER_SIZE <= N)%nat) reads ->
  exists p' rest, read_all cf header_handler p reads = Some (p', rest)
    /\ progress_ok p' (concat rest)
    /\ match p' with Waiting _ _ => False | _ => True end.
Proof.
  intros Hp Hreads. revert p Hp. induction Hreads as [|data reads [Hok Hroom] Hreads IH]; intros p Hp.
  - destruct p as [c mem| |]; [by destruct Hp|by do 2 eexists..].
  - destruct p as [c mem| |]; [|by do 2 eexists..]. cbn [concat read_all] in *.
    destruct Hp as [_ Hw]. destruct (read_handler_ok c mem data (concat reads) Hw Hok Hroom)
      as (p & -> & Hp). cbn [mbind option_bind]. by apply IH.
Qed.
End Correct.

(** ** The theorem *)

(** The connection [c] is about to read a header block, from the state [d]. *)
Record block_begins {T} (c : connection T) (d : decoding) : Prop := {
  beg_between : between c (d_table d) (d_field d);
  beg_limit : s_header_limit c = d_limit d;
  beg_stream : s_stream c = d_stream d;
  beg_handler : s_handler c = state_header_block;
  beg_buffer : length (s_buffer c) = NGX_HTTP_V2_STATE_BUFFER_SIZE;
  beg_bytes : bytes_ok (s_buffer c);
  beg_used : s_buffer_used c = 0%nat;
}.

(** What one [recv] may give. *)
Definition read_fits (mem data : list Z) : Prop :=
  bytes_ok data /\ (length data + 2 * NGX_HTTP_V2_STATE_BUFFER_SIZE <= length mem)%nat.

(** C3: A header block is decoded as if it came in one piece.  However it is cut into
    frames (padded, empty, with integers, strings and Huffman codes across them), and
    these into what the socket gives, the states of ngx_http_v2.c stay within the receive
    buffer, the state buffer and the strings they allocate, and return; they fail if and
    only if the block is in error, with the error code of the block (but for an integer
    that is too long, where a frame that ends in it changes the code); otherwise the
    table is that of the block, the request with all of its header fields is run, unless
    the stream was given up, and what follows the block is left for the next frame. *)
Theorem ngx_http_v2_header_block_decodes {T} (cf : v2_conf)
    (header_handler : list Z -> option (T -> header -> Z * T))
    (c : connection T) (d : decoding) (mem block after : list Z) (reads : list (list Z))
    (Hbegin : block_begins c d) (Hmem : bytes_ok mem) (Hblock : block <> [])
    (Hframed : framed (s_sid c) after (s_flags c) (s_length c) (s_padding c) (concat reads) block)
    (Hreads : Forall (read_fits mem) reads) :
  match decode_block cf header_handler d block with
  | inl err => exists err' rest,
      read_all cf header_handler (Waiting c mem) reads = Some (Failed err', rest)
      /\ (err' = err \/ err' = NGX_HTTP_V2_SIZE_ERROR /\ err = NGX_HTTP_V2_COMP_ERROR)
  | inr d' => exists c' mem' pos end_ rest,
      read_all cf header_handler (Waiting c mem) reads = Some (Complete c' mem' pos end_, rest)
      /\ between c' (d_table d') (d_field d')
      /\ s_run c' = s_run c ++ match d_stream d' with Some r => [r] | None => [] end
      /\ slice mem' pos end_ ++ concat rest = after
  end.
Proof.
  destruct Hbegin as [[B1 B2 B3 B4 B5 B6] G2 G3 G4 G5 G6 G7].
  destruct (read_all_ok cf header_handler (length mem) (s_sid c) after (s_run c)
    (decode_block cf header_handler d block) (Waiting c mem) reads) as (p & rest & -> & Hp & Hw);
    [|done|].
  - pose proof (framed_length _ _ _ _ _ _ _ Hframed) as (_ & Hl & _). split.
    { intros Hnil. rewrite Hnil in Hl. by destruct block; [|cbn in Hl; lia]. }
    split_and!; try done; [lia|]. rewrite G7. cbn [take app]. unfold good. rewrite G4.
    rewrite decide_False by done. exists block. split; [done|].
    apply pending_block with (d := d); try done. by rewrite B4.
  - destruct p as [|c' mem' pos end_|err]; [done| |].
    + destruct Hp as [(d' & -> & Hb & Hr) Ha]. by exists c', mem', pos, end_, rest.
    + destruct Hp as [->|[-> ->]]; do 2 eexists; (split; [reflexivity|]); [by left|by right].
Qed.

Definition witness_state : decoding :=
  {| d_table := empty_table; d_limit := 200; d_stream := Some (new_v2_request 0); d_field := [] |}.
Definition witness_frames : list Z :=
  [0x82; 0x84; 0x86; 0x40] ++ [0; 0] ++ [0; 0; 4; 9; 4; 0; 0; 0; 1] ++ [1; 97; 1; 98] ++ [] ++ [7].
Definition witness_reads : list (list Z) :=
  [take 2 witness_frames; take 8 (drop 2 witness_frames); drop 10 witness_frames].

Lemma witness_decoded :
  match decode_block example_conf (fun _ => None) witness_state
          [0x82; 0x84; 0x86; 0x40; 1; 97; 1; 98] with
  | inr d => match d_stream d with Some _ => true | None => false end
  | inl _ => false
  end = true.
Proof. vm_compute. reflexivity. Qed.

(** The block of the example above. *)
Lemma ngx_http_v2_header_block_decodes_witness :
  let c := new_connection 1 4 2 0 200 (Some (new_v2_request 0)) new_hpack in
  exists c' mem' pos end_ rest,
    read_all example_conf (fun _ => None) (Waiting c (repeat 0 60)) witness_reads
    = Some (Complete c' mem' pos end_, rest)
    /\ length (s_run c') = 1%nat /\ slice mem' pos end_ ++ concat rest = [7].
Proof.
  intros c.
  assert (block_begins c witness_state) as Hbegin.
  { constructor; [|done..|by apply bytes_ok_check|done].
    constructor; [exact new_hpack_repr|by constructor|by constructor|done|done|by constructor]. }
  assert (framed 1 [7] 0 4 2 (concat witness_reads) [0x82; 0x84; 0x86; 0x40; 1; 97; 1; 98]) as Hframed.
  { apply (framed_cont 1 [7] 0 [0x82; 0x84; 0x86; 0x40] [0; 0] [0; 0; 4; 9; 4; 0; 0; 0; 1] 4 4
      ([1; 97; 1; 98; 7]) [1; 97; 1; 98]); [reflexivity| |done|].
    - constructor; [reflexivity|eexists; split; [reflexivity|done]|reflexivity..].
    - by apply (framed_last 1 [7] 4 [1; 97; 1; 98] []). }
  assert (Forall (read_fits (repeat 0 60)) witness_reads) as Hreads.
  { repeat constructor; cbn; try lia; by apply bytes_ok_check. }
  pose proof (ngx_http_v2_header_block_decodes example_conf (fun _ => None) c witness_state
    (repeat 0 60) [0x82; 0x84; 0x86; 0x40; 1; 97; 1; 98] [7] witness_reads Hbegin
    (bytes_ok_check (repeat 0 60) eq_refl) ltac:(done) Hframed Hreads) as H.
  pose proof witness_decoded as Hd.
  destruct (decode_block example_conf (fun _ => None) witness_state _) as [err|d']; [done|].
  destruct (d_stream d') as [r|]; [|done].
  destruct H as (c' & mem' & pos & end_ & rest & H1 & _ & H2 & H3).
  exists c', mem', pos, end_, rest. split_and!; [done|by rewrite H2|done].
Defined.
