(* ===== verification/V2Filter.v ===== *)
(** * V2Filter: the header of an HTTP/2 response

    [ngx_http_v2_header_filter] of ngx_http_v2_filter_module.c: the length of the header
    block is computed first, a buffer of that length is allocated, and the block is
    written into it; [ngx_http_v2_create_headers_frame] cuts it into a HEADERS frame and
    CONTINUATION frames.  It is proved that the buffer is long enough, and that what is
    written decodes to the header of the response: by the rules of header compression,
    for any state of the client's table.  The frames are framed as HeaderBlock reads them.

    Left out: what [ngx_http_v2_push_resources] does, whose result is a parameter, and
    the queue of frames. *)

From S2P Require Import Prelude Numbers Http Bits HuffTable Huffman HpackTable Hpack Printf Times.
From S2P Require Import HeaderBlock.

Definition NGX_HTTP_V2_MAX_FIELD : Z := 127 + Z.shiftl 1 21 - 1.
Definition ngx_http_v2_integer_octets (v : nat) : nat := (1 + v / 127)%nat.
Definition ngx_http_v2_literal_size (h : list Z) : nat :=
  (ngx_http_v2_integer_octets (length h) + length h)%nat.
Definition ngx_http_v2_indexed (i : Z) : Z := 128 + i.
Definition ngx_http_v2_inc_indexed (i : Z) : Z := 64 + i.

Definition NGX_HTTP_V2_STATUS_INDEX : Z := 8.
Definition NGX_HTTP_V2_CONTENT_LENGTH_INDEX : Z := 28.
Definition NGX_HTTP_V2_CONTENT_TYPE_INDEX : Z := 31.
Definition NGX_HTTP_V2_DATE_INDEX : Z := 33.
Definition NGX_HTTP_V2_LAST_MODIFIED_INDEX : Z := 44.
Definition NGX_HTTP_V2_LOCATION_INDEX : Z := 46.
Definition NGX_HTTP_V2_SERVER_INDEX : Z := 54.
Definition NGX_HTTP_V2_VARY_INDEX : Z := 59.

Definition NGX_OFF_T_LEN : nat := 20.
Definition NGINX_VER : list Z := bs "nginx/1.23.3".

(** "nginx" and "Accept-Encoding", encoded. *)
Definition nginx : list Z := [0x84; 0xaa; 0x63; 0x55; 0xe7].
Definition accept_encoding : list Z :=
  [0x8b; 0x84; 0x84; 0x2d; 0x69; 0x5b; 0x05; 0x44; 0x3c; 0x86; 0xaa; 0x6f].

Inductive server_tokens := TOKENS_OFF | TOKENS_ON | TOKENS_BUILD.

(** The directives, and what is known of the connection: whether it is TLS, the port and
    the text of the local address ([None]: [ngx_connection_local_sockaddr] fails), the
    cached time, and what [ngx_http_v2_push_resources] returned, or
    [NGX_OK] where it is not called. *)
Record filter_conf := {
  f_server_tokens : server_tokens;
  f_absolute_redirect : bool;
  f_server_name_in_redirect : bool;
  f_port_in_redirect : bool;
  f_gzip_vary : bool;
  f_server_name : list Z;
  k_ssl : bool;
  k_port : Z;
  k_local_addr : option (list Z);
  k_http_time : list Z;
  k_push : Z;
}.

(** An element of [headers_out.headers]; [oh_shown] is [hash != 0]. *)
Record out_header := { oh_shown : bool; oh_key : list Z; oh_value : list Z }.

(** The request with its [headers_out]; of pointers to headers that only are tested,
    whether they are set; [o_location] is the number of an element of the list. *)
Record response := {
  o_header_sent : bool;
  o_is_main : bool;
  o_error : bool;
  o_head : bool;
  o_header_only : bool;
  o_expect_trailers : bool;
  o_host : list Z;
  o_status : Z;
  o_server : bool;
  o_date : bool;
  o_content_type : list Z;
  o_content_type_len : nat;
  o_charset : list Z;
  o_content_length : bool;
  o_content_length_n : Z;
  o_last_modified : bool;
  o_last_modified_time : Z;
  o_location : option nat;
  o_gzip_vary : bool;
  o_headers : list out_header;
}.
#[export] Instance eta_response : Eta response := mk_eta (fun r =>
  Build_response (o_header_sent r) (o_is_main r) (o_error r) (o_head r) (o_header_only r)
    (o_expect_trailers r) (o_host r) (o_status r) (o_server r) (o_date r) (o_content_type r)
    (o_content_type_len r) (o_charset r) (o_content_length r) (o_content_length_n r)
    (o_last_modified r) (o_last_modified_time r) (o_location r) (o_gzip_vary r) (o_headers r)).

(** What the filter changes besides the request: the static variables [nginx_ver] and
    [nginx_ver_build], as what has been written into them, nothing at first, and
    [h2c->table_update]. *)
Record statics := { s_ver : list Z; s_ver_build : list Z; s_table_update : bool }.
Definition updated (st : statics) : statics :=
  {| s_ver := s_ver st; s_ver_build := s_ver_build st; s_table_update := false |}.

(** The buffers: what is written up to [pos], and [tmp]. *)
Record wbuf := { w_out : list Z; w_tmp : list Z }.

(** ** Preparation *)

(** The [switch] over the status: the first byte of the block, or 0. *)
Definition status_case (r : response) : Z * response :=
  if o_status r =? 200 then (ngx_http_v2_indexed 8, r)
  else if o_status r =? 204 then
    (ngx_http_v2_indexed 9,
     r <| o_header_only := true |> <| o_content_type := [] |> <| o_content_length := false |>
       <| o_content_length_n := -1 |> <| o_last_modified_time := -1 |> <| o_last_modified := false |>)
  else if o_status r =? 206 then (ngx_http_v2_indexed 10, r)
  else if o_status r =? 304 then (ngx_http_v2_indexed 11, r <| o_header_only := true |>)
  else
    (if o_status r =? 400 then ngx_http_v2_indexed 12
     else if o_status r =? 404 then ngx_http_v2_indexed 13
     else if o_status r =? 500 then ngx_http_v2_indexed 14
     else 0,
     r <| o_last_modified_time := -1 |> <| o_last_modified := false |>).

Section Filter.
Variable cf : filter_conf.
(** The text of NGINX_VER_BUILD, which the configure script may set. *)
Variable ver_build : list Z.

(** The port, or 0 where it is the default or is not to be sent. *)
Definition location_port : Z :=
  if f_port_in_redirect cf then
    if k_ssl cf then (if k_port cf =? 443 then 0 else k_port cf)
    else if k_port cf =? 80 then 0 else k_port cf
  else 0.

(** The buffer has [location.len] bytes. *)
Definition location_url (host value : list Z) (port : Z) : option (list Z) :=
  let len := (length (bs "https://") + length host + length value
              + if negb (port =? 0)%Z then length (bs ":65535") else 0)%nat in
  p ← (if negb (port =? 0) then ngx_sprintf (bs ":%ui") [Int port] else Some []);
  let out := bs "http" ++ (if k_ssl cf then bs "s" else []) ++ bs "://" ++ host ++ p ++ value in
  if (len <? length out)%nat then None else Some out.

(** The location as a URL: [None] inside is [return NGX_ERROR]. *)
Definition absolute_location (host value : list Z) : option (option (list Z)) :=
  match (if f_server_name_in_redirect cf then Some (f_server_name cf)
         else if (0 <? length host)%nat then Some host
         else k_local_addr cf) with
  | None => Some None
  | Some host => Some <$> location_url host value location_port
  end.

Definition field_len (n : nat) : nat := (1 + NGX_HTTP_V2_INT_OCTETS + n)%nat.

(** The value of the location as it is sent. *)
Definition sent_location (r : response) (h : out_header) : option (option out_header) :=
  if (default 0 (head (oh_value h)) =? "/"%ch) && f_absolute_redirect cf then
    v ← absolute_location (o_host r) (oh_value h);
    Some match v with
         | None => None
         | Some v => Some {| oh_shown := oh_shown h; oh_key := bs "Location"; oh_value := v |}
         end
  else Some (Some h).

(** The location: the request, and what is added to [len]. *)
Definition location_case (r : response) : option (option (response * nat)) :=
  match o_location r with
  | None => Some (Some (r, 0%nat))
  | Some i =>
      h ← o_headers r !! i;
      if (length (oh_value h) =? 0)%nat then Some (Some (r, 0%nat))
      else
        h ← sent_location r h;
        Some match h with
             | None => None
             | Some h =>
                 let h := {| oh_shown := false; oh_key := oh_key h; oh_value := oh_value h |} in
                 Some (r <| o_headers := <[i := h]> (o_headers r) |>, field_len (length (oh_value h)))
             end
  end.

(** The text that follows the name of the server. *)
Definition static_len (text cached : list Z) : nat :=
  match cached with [] => ngx_http_v2_literal_size text | l => length l end.
Definition server_len (st : statics) : nat :=
  match f_server_tokens cf with
  | TOKENS_ON => static_len NGINX_VER (s_ver st)
  | TOKENS_BUILD => static_len ver_build (s_ver_build st)
  | TOKENS_OFF => length nginx
  end.

Definition date_size : nat := ngx_http_v2_literal_size (bs "Wed, 31 Dec 1986 18:00:00 GMT").

(** [content_type_len == content_type.len && charset.len]. *)
Definition with_charset (r : response) : bool :=
  (o_content_type_len r =? length (o_content_type r))%nat && (0 <? length (o_charset r))%nat.
Definition wants_length (r : response) : bool :=
  negb (o_content_length r) && (0 <=? o_content_length_n r).
Definition wants_modified (r : response) : bool :=
  negb (o_last_modified r) && negb (o_last_modified_time r =? -1).

(** [len] before the location. *)
Definition fixed_len (status : Z) (st : statics) (r : response) : nat :=
  ((if s_table_update st then 1 else 0)
   + (if (status =? 0)%Z then 1 + ngx_http_v2_literal_size (bs "418") else 1)
   + (if o_server r then 0 else 1 + server_len st)
   + (if o_date r then 0 else 1 + date_size)
   + (if (0 <? length (o_content_type r))%nat
      then field_len (length (o_content_type r))
           + (if with_charset r then length (bs "; charset=") + length (o_charset r) else 0)
      else 0)
   + (if wants_length r then 1 + ngx_http_v2_integer_octets NGX_OFF_T_LEN + NGX_OFF_T_LEN else 0)
   + (if wants_modified r then 1 + date_size else 0))%nat.

(** The loop over the headers: [len] and [tmp_len], or [return NGX_ERROR]. *)
Fixpoint headers_len (hs : list out_header) (len tmp_len : nat) : option (nat * nat) :=
  match hs with
  | [] => Some (len, tmp_len)
  | h :: hs' =>
      if negb (oh_shown h) then headers_len hs' len tmp_len
      else if Z.of_nat (length (oh_key h)) >? NGX_HTTP_V2_MAX_FIELD then None
      else if Z.of_nat (length (oh_value h)) >? NGX_HTTP_V2_MAX_FIELD then None
      else
        headers_len hs'
          (len + (1 + NGX_HTTP_V2_INT_OCTETS + length (oh_key h)
                  + NGX_HTTP_V2_INT_OCTETS + length (oh_value h)))
          (tmp_len `max` length (oh_key h) `max` length (oh_value h))
  end.

(** ** Writing *)

(** The length of the buffer that is allocated. *)
Section Write.
Variable len : nat.

Definition put (bytes : list Z) (w : wbuf) : option wbuf :=
  if (length (w_out w) + length bytes <=? len)%nat
  then Some {| w_out := w_out w ++ bytes; w_tmp := w_tmp w |} else None.

(** [ngx_http_v2_write_name] and [ngx_http_v2_write_value]. *)
Definition put_string (lower : bool) (src : list Z) (w : wbuf) : option wbuf :=
  '(l, tmp) ← ngx_http_v2_string_encode src (w_tmp w) lower;
  put l {| w_out := w_out w; w_tmp := tmp |}.

(** A static variable of [size] bytes that holds [text] encoded. *)
Definition put_static (cached : list Z) (text : list Z) (w : wbuf) : option (list Z * wbuf) :=
  match cached with
  | [] =>
      '(l, tmp) ← ngx_http_v2_string_encode text (w_tmp w) false;
      if (ngx_http_v2_literal_size text <? length l)%nat then None
      else w ← put l {| w_out := w_out w; w_tmp := tmp |}; Some (l, w)
  | l => w ← put l w; Some (l, w)
  end.

Definition write_update (st : statics) (w : wbuf) : option (statics * wbuf) :=
  if s_table_update st then w ← put [Z.lor (Z.shiftl 1 5) 0] w; Some (updated st, w)
  else Some (st, w).

Definition write_status (status : Z) (r : response) (w : wbuf) : option wbuf :=
  if negb (status =? 0) then put [status] w
  else
    w ← put [ngx_http_v2_inc_indexed NGX_HTTP_V2_STATUS_INDEX] w;
    w ← put [Z.lor NGX_HTTP_V2_ENCODE_RAW 3] w;
    text ← ngx_sprintf (bs "%03ui") [Int (o_status r)];
    put text w.

Definition write_server (st : statics) (r : response) (w : wbuf) : option (statics * wbuf) :=
  if o_server r then Some (st, w)
  else
    w ← put [ngx_http_v2_inc_indexed NGX_HTTP_V2_SERVER_INDEX] w;
    match f_server_tokens cf with
    | TOKENS_ON =>
        '(l, w) ← put_static (s_ver st) NGINX_VER w;
        Some ({| s_ver := l; s_ver_build := s_ver_build st; s_table_update := s_table_update st |}, w)
    | TOKENS_BUILD =>
        '(l, w) ← put_static (s_ver_build st) ver_build w;
        Some ({| s_ver := s_ver st; s_ver_build := l; s_table_update := s_table_update st |}, w)
    | TOKENS_OFF => w ← put nginx w; Some (st, w)
    end.

Definition write_date (r : response) (w : wbuf) : option wbuf :=
  if o_date r then Some w
  else
    w ← put [ngx_http_v2_inc_indexed NGX_HTTP_V2_DATE_INDEX] w;
    put_string false (k_http_time cf) w.

(** The content type with the charset. *)
Definition full_type (r : response) : list Z :=
  if with_charset r then o_content_type r ++ bs "; charset=" ++ o_charset r else o_content_type r.

Definition write_type (r : response) (w : wbuf) : option wbuf :=
  if (0 <? length (o_content_type r))%nat then
    w ← put [ngx_http_v2_inc_indexed NGX_HTTP_V2_CONTENT_TYPE_INDEX] w;
    put_string false (full_type r) w
  else Some w.

(** The digits are written after the byte for their number. *)
Definition write_length (r : response) (w : wbuf) : option wbuf :=
  if wants_length r then
    w ← put [ngx_http_v2_inc_indexed NGX_HTTP_V2_CONTENT_LENGTH_INDEX] w;
    text ← ngx_sprintf (bs "%O") [Int (o_content_length_n r)];
    put (Z.lor NGX_HTTP_V2_ENCODE_RAW (u8 (Z.of_nat (length text))) :: text) w
  else Some w.

(** The date is written to [pos] and then encoded in place, which works only by way of
    [tmp]: a string that is not shorter when it is encoded would be copied onto itself. *)
Definition write_modified (r : response) (w : wbuf) : option wbuf :=
  if wants_modified r then
    w ← put [ngx_http_v2_inc_indexed NGX_HTTP_V2_LAST_MODIFIED_INDEX] w;
    text ← ngx_http_time (o_last_modified_time r);
    _ ← put text w;
    '(hlen, _) ← ngx_http_huff_encode text (w_tmp w) false;
    if (0 <? hlen)%nat then put_string false text w else None
  else Some w.

(** The location, whose header is no longer shown. *)
Definition location_value (r : response) : list Z :=
  match o_location r with
  | Some i => match o_headers r !! i with Some h => oh_value h | None => [] end
  | None => []
  end.

Definition write_location (r : response) (w : wbuf) : option wbuf :=
  if (0 <? length (location_value r))%nat then
    w ← put [ngx_http_v2_inc_indexed NGX_HTTP_V2_LOCATION_INDEX] w;
    put_string false (location_value r) w
  else Some w.

Definition write_vary (r : response) (w : wbuf) : option wbuf :=
  if o_gzip_vary r then
    w ← put [ngx_http_v2_inc_indexed NGX_HTTP_V2_VARY_INDEX] w;
    put accept_encoding w
  else Some w.

Fixpoint write_headers (hs : list out_header) (w : wbuf) : option wbuf :=
  match hs with
  | [] => Some w
  | h :: hs' =>
      if negb (oh_shown h) then write_headers hs' w
      else
        w ← put [0] w;
        w ← put_string true (oh_key h) w;
        w ← put_string false (oh_value h) w;
        write_headers hs' w
  end.

Definition write_block (status : Z) (st : statics) (r : response) (w : wbuf)
    : option (statics * wbuf) :=
  '(st, w) ← write_update st w;
  w ← write_status status r w;
  '(st, w) ← write_server st r w;
  w ← write_date r w;
  w ← write_type r w;
  w ← write_length r w;
  w ← write_modified r w;
  w ← write_location r w;
  w ← write_vary r w;
  w ← write_headers (o_headers r) w;
  Some (st, w).
End Write.

(** What the filter does: it returns, or sends a header block, with END_STREAM
    if [fin]. *)
Inductive outcome :=
  | Returned (rc : Z) (r : response)
  | Sent (block : list Z) (fin : bool) (r : response) (st : statics).

Definition ngx_http_v2_header_filter (st : statics) (r : response) : option outcome :=
  if o_header_sent r then Some (Returned NGX_OK r)
  else
    let r := r <| o_header_sent := true |> in
    if negb (o_is_main r) then Some (Returned NGX_OK r)
    else if o_error r then Some (Returned NGX_ERROR r)
    else
    let r := if o_head r then r <| o_header_only := true |> else r in
    let '(status, r) := status_case r in
    if negb (k_push cf =? NGX_OK) then Some (Returned NGX_ERROR r)
    else
      let len := fixed_len status st r in
      loc ← location_case r;
      match loc with
      | None => Some (Returned NGX_ERROR r)
      | Some (r, n) =>
          let len := (len + n)%nat in
          let tmp_len := len in
          let r := r <| o_gzip_vary := o_gzip_vary r && f_gzip_vary cf |> in
          let len := if o_gzip_vary r then (len + (1 + length accept_encoding))%nat else len in
          match headers_len (o_headers r) len tmp_len with
          | None => Some (Returned NGX_ERROR r)
          | Some (len, tmp_len) =>
              '(st, w) ← write_block len status st r {| w_out := []; w_tmp := repeat 0 tmp_len |};
              let fin := o_header_only r || ((o_content_length_n r =? 0) && negb (o_expect_trailers r)) in
              let r := if (0 <? length (o_content_type r))%nat
                       then r <| o_content_type := full_type r |> else r in
              Some (Sent (w_out w) fin r st)
          end
      end.
End Filter.

(** ** Frames *)

Definition NGX_HTTP_V2_HEADERS_FRAME : Z := 1.
Definition NGX_HTTP_V2_NO_FLAG : Z := 0.
Definition NGX_HTTP_V2_END_STREAM_FLAG : Z := 1.

Definition ngx_http_v2_write_uint32 (s : Z) : list Z :=
  [u8 (Z.shiftr s 24); u8 (Z.shiftr s 16); u8 (Z.shiftr s 8); u8 s].
Definition ngx_http_v2_write_len_and_type (l t : Z) : list Z :=
  ngx_http_v2_write_uint32 (u32 (Z.lor (Z.shiftl l 8) t)).
Definition ngx_http_v2_write_sid := ngx_http_v2_write_uint32.

(** The head of a frame of [size] bytes. *)
Definition frame_head (size : nat) (type flags sid : Z) : list Z :=
  ngx_http_v2_write_len_and_type (Z.of_nat size) type ++ [flags] ++ ngx_http_v2_write_sid sid.

(** [for ( ;; )] over the frames: the bytes of the chain, in order. *)
Fixpoint headers_frames (fuel frame_size : nat) (type flags sid : Z) (rest : list Z)
    : option (list Z) :=
  match fuel with
  | O => None
  | S fuel' =>
      let last := (length rest <=? frame_size)%nat in
      let size := if last then length rest else frame_size in
      let flags := if last then Z.lor flags NGX_HTTP_V2_END_HEADERS_FLAG else flags in
      let frame := frame_head size type flags sid ++ take size rest in
      let rest := drop size rest in
      if (length rest =? 0)%nat then Some frame
      else
        more ← headers_frames fuel' frame_size NGX_HTTP_V2_CONTINUATION_FRAME NGX_HTTP_V2_NO_FLAG
                 sid rest;
        Some (frame ++ more)
  end.

Definition ngx_http_v2_create_headers_frame (frame_size : nat) (sid : Z) (block : list Z)
    (fin : bool) : option (list Z) :=
  headers_frames (S (length block)) frame_size NGX_HTTP_V2_HEADERS_FRAME
    (if fin then NGX_HTTP_V2_END_STREAM_FLAG else NGX_HTTP_V2_NO_FLAG) sid block.

(** ** The client

    What a header block says, by the rules of header compression. *)

Definition client_string (block : list Z) : option (list Z * list Z) :=
  match block_int (ngx_http_v2_prefix 7) block with
  | inl _ => None
  | inr (n, rest) =>
      match string_bytes (default 0 (head block) >=? 128) (Z.to_nat n) rest with
      | inl _ => None
      | inr x => Some x
      end
  end.

(** The table, the fields and the rest after what comes first. *)
Definition client_field (t : table) (block : list Z) : option (table * list header * list Z) :=
  let ch := default 0 (head block) in
  match block_int (field_prefix ch) block with
  | inl _ => None
  | inr (v, rest) =>
      if ch >=? 128 then
        f ← table_get t (Z.to_nat v); Some (t, [f], rest)
      else if (ch >=? 32) && negb (ch >=? 64) then
        if v <=? Z.of_nat NGX_HTTP_V2_TABLE_SIZE then Some (table_resize t v, [], rest) else None
      else
        '(name, rest) ← (if v =? 0 then client_string rest
                         else f ← table_get t (Z.to_nat v); Some (f.1, rest));
        '(value, rest) ← client_string rest;
        Some (if ch >=? 64 then table_add t (name, value) else t, [(name, value)], rest)
  end.

Fixpoint client_block (fuel : nat) (t : table) (block : list Z) : option (list header * table) :=
  match block with
  | [] => Some ([], t)
  | _ =>
      match fuel with
      | O => None
      | S fuel' =>
          '(t, fs, rest) ← client_field t block;
          '(more, t) ← client_block fuel' t rest;
          Some (fs ++ more, t)
      end
  end.

(** A response with a redirection, as the client sees it. *)
Definition example_filter : filter_conf :=
  {| f_server_tokens := TOKENS_ON; f_absolute_redirect := true; f_server_name_in_redirect := false;
     f_port_in_redirect := true; f_gzip_vary := true; f_server_name := bs "example.org";
     k_ssl := true; k_port := 8443; k_local_addr := None;
     k_http_time := bs "Sun, 06 Nov 1994 08:49:37 GMT"; k_push := NGX_OK |}.
Definition example_statics : statics := {| s_ver := []; s_ver_build := []; s_table_update := true |}.
Definition example_response : response :=
  {| o_header_sent := false; o_is_main := true; o_error := false; o_head := false;
     o_header_only := false; o_expect_trailers := false; o_host := bs "a.example"; o_status := 301;
     o_server := false; o_date := false; o_content_type := bs "text/html"; o_content_type_len := 9;
     o_charset := bs "utf-8"; o_content_length := false; o_content_length_n := 162;
     o_last_modified := false; o_last_modified_time := 784111777; o_location := Some 1%nat;
     o_gzip_vary := true;
     o_headers := [ {| oh_shown := true; oh_key := bs "X-Test"; oh_value := bs "1" |};
                    {| oh_shown := true; oh_key := []; oh_value := bs "/b" |} ] |}.

Example header_filter_redirect :
  match ngx_http_v2_header_filter example_filter NGINX_VER example_statics
          example_response with
  | Some (Sent block fin _ _) => fst <$> client_block (length block) empty_table block
  | _ => None
  end
  = Some [(bs ":status", bs "301"); (bs "server", bs "nginx/1.23.3");
          (bs "date", bs "Sun, 06 Nov 1994 08:49:37 GMT");
          (bs "content-type", bs "text/html; charset=utf-8"); (bs "content-length", bs "162");
          (bs "location", bs "https://a.example:8443/b"); (bs "vary", bs "Accept-Encoding");
          (bs "x-test", bs "1")].
Proof. vm_compute. reflexivity. Qed.

(** ** Strings *)

Lemma write_int_length first v :
  0 <= v <= NGX_HTTP_V2_MAX_FIELD ->
  exists o l, ngx_http_v2_write_int first (ngx_http_v2_prefix 7) v = Some (o :: l)
    /\ o = u8 (Z.lor first (Z.min v 127))
    /\ (S (length l) <= ngx_http_v2_integer_octets (Z.to_nat v))%nat.
Proof.
  unfold NGX_HTTP_V2_MAX_FIELD, ngx_http_v2_integer_octets. change (127 + Z.shiftl 1 21 - 1) with 2097278.
  intros Hv. unfold ngx_http_v2_write_int. change (ngx_http_v2_prefix 7) with 127.
  destruct (Z.ltb_spec v 127) as [Hlt|Hge].
  { exists (u8 (Z.lor first v)), []. rewrite Z.min_l by lia. split_and!; [done..|cbn; lia]. }
  assert (forall n, (0 < n <= 3)%nat -> v - 127 < 2 ^ (7 * Z.of_nat n) ->
    exists l, write_int_loop 10 (v - 127) = Some l /\ (length l <= n)%nat) as Hloop.
  { intros n Hn Hb. destruct (write_int_loop_octets 10 (v - 127) 0 0 [] n) as (l & -> & _ & Hl & _);
      [lia..|]. by exists l. }
  assert (exists n, (0 < n <= 3)%nat /\ v - 127 < 2 ^ (7 * Z.of_nat n) /\ (S n <= 1 + Z.to_nat v / 127)%nat)
    as (n & Hn & Hb & Hd).
  { assert (forall k, 127 * Z.of_nat k <= v -> (k <= Z.to_nat v / 127)%nat) as Hdiv
      by (intros k Hk; apply Nat.div_le_lower_bound; lia).
    destruct (decide (v < 255)); [|destruct (decide (v < 127 + 2 ^ 14))].
    - exists 1%nat. pose proof (Hdiv 1%nat). cbn in *. lia.
    - exists 2%nat. pose proof (Hdiv 2%nat). cbn in *. lia.
    - exists 3%nat. pose proof (Hdiv 3%nat). cbn in *. lia. }
  destruct (Hloop n Hn Hb) as (l & -> & Hl). exists (u8 (Z.lor first 127)), l.
  rewrite Z.min_r by lia. split_and!; [done|done|lia].
Qed.

(** Reading back a length and as many bytes. *)
Lemma client_string_app (huff : bool) v l raw s rest :
  0 <= v <= NGX_HTTP_V2_MAX_FIELD ->
  ngx_http_v2_write_int (if huff then 0x80 else 0) (ngx_http_v2_prefix 7) v = Some l ->
  string_bytes huff (Z.to_nat v) (raw ++ rest) = inr (s, rest) ->
  client_string (l ++ raw ++ rest) = Some (s, rest).
Proof.
  change NGX_HTTP_V2_MAX_FIELD with 2097278. intros Hv Hw Hs.
  destruct (write_int_block (if huff then 0x80 else 0) 7 v (raw ++ rest)) as (l' & Hl' & _ & _ & Hb).
  { destruct huff; repeat split; lia || reflexivity. }
  { change (ngx_http_v2_prefix 7) with 127. lia. }
  rewrite Hw in Hl'. injection Hl' as <-. unfold client_string. rewrite Hb.
  destruct (write_int_length (if huff then 0x80 else 0) v Hv) as (o & l1 & Hl1 & Ho & _).
  rewrite Hw in Hl1. injection Hl1 as ->.
  assert ((default 0 (head ((o :: l1) ++ raw ++ rest)) >=? 128) = huff) as ->; [|by rewrite Hs].
  change (default 0 (head ((o :: l1) ++ raw ++ rest))) with o. rewrite Ho. assert (0 <= Z.min v 127 < 128) as Hm by lia.
  assert (forallb (fun m => Bool.eqb (u8 (Z.lor (if huff then 0x80 else 0) m) >=? 128) huff) (seqZ 0 128) = true)
    as Hall by (by destruct huff; vm_compute).
  rewrite forallb_forall in Hall. apply Bool.eqb_prop, Hall, list_elem_of_In, elem_of_seqZ. lia.
Qed.

Lemma string_bytes_raw s rest : string_bytes false (length s) (s ++ rest) = inr (s, rest).
Proof.
  unfold string_bytes. rewrite take_app_length, drop_app_length, (proj2 (Nat.ltb_ge _ _)); [done|].
  rewrite length_app. lia.
Qed.

Lemma string_bytes_huff raw s t rest :
  walk code_tree (bits_of_bytes raw) = (s, Some t) -> may_end t = true ->
  string_bytes true (length raw) (raw ++ rest) = inr (s, rest).
Proof.
  intros Hw Hm. unfold string_bytes. rewrite take_app_length, drop_app_length, Hw, Hm.
  rewrite (proj2 (Nat.ltb_ge _ _)); [done|]. rewrite length_app. lia.
Qed.

(** [ngx_http_v2_string_encode] writes no more than the callers count, and its string is
    read back. *)
Lemma string_encode_ok src tmp lower :
  bytes_ok src -> (length src <= length tmp)%nat -> Z.of_nat (length src) <= NGX_HTTP_V2_MAX_FIELD ->
  exists l tmp', ngx_http_v2_string_encode src tmp lower = Some (l, tmp')
    /\ length tmp' = length tmp /\ l <> []
    /\ (length l <= ngx_http_v2_integer_octets (length src) + length src)%nat
    /\ (length l <= NGX_HTTP_V2_INT_OCTETS + length src)%nat
    /\ forall rest, client_string (l ++ rest) = Some (folded lower src, rest).
Proof.
  intros Hok Htmp Hmax. unfold ngx_http_v2_string_encode, NGX_HTTP_V2_INT_OCTETS.
  destruct (encode_spec src tmp lower Hok Htmp) as (n & tmp' & -> & Hl & _ & Hshort & Hlong).
  cbn [mbind option_bind]. set (bits := codes (folded lower src)) in *.
  set (total := ((length bits + 7) / 8)%nat) in *.
  assert (forall (huff : bool) raw, (length raw <= length src)%nat ->
    (forall rest, string_bytes huff (length raw) (raw ++ rest) = inr (folded lower src, rest)) ->
    exists l, ngx_http_v2_write_int (if huff then 0x80 else 0) (ngx_http_v2_prefix 7) (Z.of_nat (length raw)) = Some l
      /\ l ++ raw <> [] /\ (length (l ++ raw) <= ngx_http_v2_integer_octets (length src) + length src)%nat
      /\ (length (l ++ raw) <= 4 + length src)%nat
      /\ forall rest, client_string ((l ++ raw) ++ rest) = Some (folded lower src, rest)) as Hput.
  { intros huff raw Hraw Hs.
    destruct (write_int_length (if huff then 0x80 else 0) (Z.of_nat (length raw))) as (o & l & Hw & _ & Ho); [lia|].
    destruct (write_int_block (if huff then 0x80 else 0) 7 (Z.of_nat (length raw)) [])
      as (l' & Hl' & _ & H4 & _); [destruct huff; repeat split; lia || reflexivity| |].
    { change (ngx_http_v2_prefix 7) with 127. change NGX_HTTP_V2_MAX_FIELD with 2097278 in Hmax. lia. }
    rewrite Hw in Hl'. injection Hl' as <-. exists (o :: l). split; [done|].
    rewrite Nat2Z.id in Ho. unfold ngx_http_v2_integer_octets, NGX_HTTP_V2_INT_OCTETS in *.
    assert (length raw / 127 <= length src / 127)%nat by (apply Nat.Div0.div_le_mono; lia).
    rewrite length_app. cbn [length] in *. split_and!; [done|lia|lia|].
    intros rest. rewrite <- app_assoc.
    apply (client_string_app huff (Z.of_nat (length raw))); [lia|done|].
    by rewrite Nat2Z.id. }
  destruct (Nat.ltb_spec 0 n) as [Hn|Hn].
  - destruct (decide (total < length src)%nat) as [Ht|Ht]; [|specialize (Hlong ltac:(lia)); lia].
    destruct (Hshort Ht) as (Htot & Hbytes & Hbits). clear Hshort Hlong.
    assert (codes_for (folded lower src) (take n tmp')) as Hcodes.
    { split; [by apply folded_ok|]. exists (8 * n - length bits)%nat. split; [|done].
      unfold total in *. lia_mod. }
    apply codes_for_walk in Hcodes as (t & Hw & Hm).
    destruct (Hput true (take n tmp')) as (l & Hl1 & Hne & H1 & H2 & Hr).
    { rewrite length_take. lia. }
    { intros rest. by apply (string_bytes_huff _ _ t). }
    rewrite length_take, Nat.min_l in Hl1 by lia. change NGX_HTTP_V2_ENCODE_HUFF with 0x80. rewrite Hl1.
    cbn [mbind option_bind]. by exists (l ++ take n tmp'), tmp'.
  - destruct (Hput false (folded lower src)) as (l & Hl1 & Hne & H1 & H2 & Hr).
    { unfold folded. by rewrite length_map. }
    { intros rest. apply string_bytes_raw. }
    unfold folded in Hl1. rewrite length_map in Hl1. change NGX_HTTP_V2_ENCODE_RAW with 0. rewrite Hl1.
    cbn [mbind option_bind]. exists (l ++ folded lower src), tmp'. split_and!; try done.
    unfold folded, fold_byte. destruct lower; [done|by rewrite map_id].
Qed.

(** The lengths that are not compared with NGX_HTTP_V2_MAX_FIELD may take more octets than
    [field_len] counts. *)
Example too_long_for_octets :
  length <$> ngx_http_v2_write_int 0 (ngx_http_v2_prefix 7) (NGX_HTTP_V2_MAX_FIELD + 1)
  = Some (S NGX_HTTP_V2_INT_OCTETS).
Proof. reflexivity. Qed.

(** ** Fields *)

(** [bytes] are one field, or none, to a client with the table [t]. *)
Definition field_bytes_of (t : table) (bytes : list Z) (fs : list header) (t' : table) : Prop :=
  bytes <> [] /\ forall rest, client_field t (bytes ++ rest) = Some (t', fs, rest).

Inductive client_reads (t0 : table) : list Z -> list header -> table -> Prop :=
  | reads_nil : client_reads t0 [] [] t0
  | reads_snoc out fs t bytes new t' :
      client_reads t0 out fs t -> field_bytes_of t bytes new t' ->
      client_reads t0 (out ++ bytes) (fs ++ new) t'.

Lemma client_reads_block t0 out fs t :
  client_reads t0 out fs t -> client_block (length out) t0 out = Some (fs, t).
Proof.
  intros Hr.
  assert (forall rest fs' t', (forall fuel, (length rest <= fuel)%nat -> client_block fuel t rest = Some (fs', t')) ->
    forall fuel, (length (out ++ rest) <= fuel)%nat -> client_block fuel t0 (out ++ rest) = Some (fs ++ fs', t'))
    as Hall.
  { induction Hr as [|out fs t bytes new t' Hr IH [Hne Hf]]; intros rest fs' t1 Hrest fuel Hfuel.
    { by apply Hrest. }
    rewrite <- app_assoc in *. rewrite <- (app_assoc fs). apply IH; [|done].
    intros fuel' Hfuel'. destruct bytes as [|b bytes]; [done|]. destruct fuel' as [|fuel']; [cbn in Hfuel'; lia|].
    assert (length rest <= fuel')%nat as Hl by (rewrite length_app in Hfuel'; cbn [length] in Hfuel'; lia).
    specialize (Hf rest). cbn [app client_block] in *. rewrite Hf. cbn [mbind option_bind].
    by rewrite Hrest. }
  specialize (Hall [] [] t). rewrite !app_nil_r in Hall. apply Hall; [|done].
  by intros [|fuel] _.
Qed.

(** The kinds of fields that the filter writes. *)
Lemma table_get_static t i f :
  ngx_http_v2_static_table !! i = Some f -> table_get t (S i) = Some f.
Proof. unfold table_get. by intros ->. Qed.

Lemma field_indexed t i f :
  ngx_http_v2_static_table !! i = Some f -> field_bytes_of t [ngx_http_v2_indexed (Z.of_nat (S i))] [f] t.
Proof.
  intros Hi. split; [done|]. intros rest. pose proof (lookup_lt_Some _ _ _ Hi) as Hlt.
  change (length ngx_http_v2_static_table) with 61%nat in Hlt.
  unfold client_field, ngx_http_v2_indexed. cbn [app head default]. unfold id.
  assert (field_prefix (128 + Z.of_nat (S i)) = 127) as ->.
  { unfold field_prefix. rewrite (proj2 (Z.geb_le _ _)) by lia. done. }
  rewrite (proj2 (Z.geb_le _ _)) by lia. unfold block_int. change 127 with (Z.ones 7).
  rewrite Z.land_ones by done. replace ((128 + Z.of_nat (S i)) mod 2 ^ 7) with (Z.of_nat (S i)) by lia_mod.
  rewrite (proj2 (Z.eqb_neq _ _)) by (change (Z.ones 7) with 127; lia).
  rewrite Nat2Z.id, (table_get_static t i f Hi). done.
Qed.

Lemma field_inc_indexed t i f l s :
  ngx_http_v2_static_table !! i = Some f ->
  (forall rest, client_string (l ++ rest) = Some (s, rest)) ->
  field_bytes_of t (ngx_http_v2_inc_indexed (Z.of_nat (S i)) :: l) [(f.1, s)] (table_add t (f.1, s)).
Proof.
  intros Hi Hl. split; [done|]. intros rest. pose proof (lookup_lt_Some _ _ _ Hi) as Hlt.
  change (length ngx_http_v2_static_table) with 61%nat in Hlt.
  unfold client_field, ngx_http_v2_inc_indexed. cbn [app head default]. unfold id.
  assert ((64 + Z.of_nat (S i) >=? 128) = false) as Hb by (rewrite Z.geb_leb; apply Z.leb_gt; lia).
  assert ((64 + Z.of_nat (S i) >=? 64) = true) as Hc by (rewrite Z.geb_leb; apply Z.leb_le; lia).
  unfold field_prefix. rewrite Hb, Hc. change (ngx_http_v2_prefix 6) with (Z.ones 6). unfold block_int.
  rewrite Z.land_ones by done. replace ((64 + Z.of_nat (S i)) mod 2 ^ 6) with (Z.of_nat (S i)) by lia_mod.
  rewrite (proj2 (Z.eqb_neq _ _)) by (change (Z.ones 6) with 63; lia).
  rewrite andb_false_r, (proj2 (Z.eqb_neq _ 0)) by lia.
  rewrite Nat2Z.id, (table_get_static t i f Hi). cbn [mbind option_bind]. by rewrite Hl.
Qed.

Lemma field_new t ln n lv v :
  (forall rest, client_string (ln ++ rest) = Some (n, rest)) ->
  (forall rest, client_string (lv ++ rest) = Some (v, rest)) ->
  field_bytes_of t (0 :: ln ++ lv) [(n, v)] t.
Proof.
  intros Hn Hv. split; [done|]. intros rest. unfold client_field.
  change (default 0 (head ((0 :: ln ++ lv) ++ rest))) with 0.
  change (block_int (field_prefix 0) ((0 :: ln ++ lv) ++ rest))
    with (@inr Z (Z * list Z) (0, (ln ++ lv) ++ rest)).
  cbv beta iota. change (0 >=? 128) with false. change (0 >=? 64) with false. change (0 >=? 32) with false.
  change (0 =? 0) with true. cbn [andb negb]. rewrite <- app_assoc, Hn. cbn [mbind option_bind].
  by rewrite Hv.
Qed.

Lemma field_update t : field_bytes_of t [0x20] [] (table_resize t 0).
Proof. by split. Qed.

(** ** What the filter is asked to send *)

Definition text_of (fmt : list Z) (v : Z) : list Z := default [] (ngx_sprintf fmt [Int v]).

Section Spec.
Variable cf : filter_conf.
Variable ver_build : list Z.

Definition server_text : list Z :=
  match f_server_tokens cf with
  | TOKENS_ON => NGINX_VER
  | TOKENS_BUILD => ver_build
  | TOKENS_OFF => bs "nginx"
  end.

(** The fields, in order, when the status and the location have been dealt with. *)
Definition fields_of (r : response) : list header :=
  [(bs ":status", text_of (bs "%03ui") (o_status r))]
  ++ (if o_server r then [] else [(bs "server", server_text)])
  ++ (if o_date r then [] else [(bs "date", k_http_time cf)])
  ++ (if (0 <? length (o_content_type r))%nat then [(bs "content-type", full_type r)] else [])
  ++ (if wants_length r then [(bs "content-length", text_of (bs "%O") (o_content_length_n r))] else [])
  ++ (if wants_modified r
      then [(bs "last-modified", default [] (ngx_http_time (o_last_modified_time r)))] else [])
  ++ (if (0 <? length (location_value r))%nat then [(bs "location", location_value r)] else [])
  ++ (if o_gzip_vary r then [(bs "vary", bs "Accept-Encoding")] else [])
  ++ flat_map (fun h => if oh_shown h then [(folded true (oh_key h), oh_value h)] else []) (o_headers r).
End Spec.

(** ** The steps of the writing *)

Section Steps.
Variables (len tmp_len : nat) (t0 : table).

(** [used] bytes are accounted for, and the client has read [fs]. *)
Record written (used : nat) (fs : list header) (w : wbuf) : Prop := {
  wr_used : (length (w_out w) <= used)%nat;
  wr_tmp : length (w_tmp w) = tmp_len;
  wr_reads : exists t, client_reads t0 (w_out w) fs t;
}.

(** The step [f] writes the fields [new] in [n] bytes. *)
Definition adds (n : nat) (new : list header) (f : wbuf -> option wbuf) : Prop :=
  forall used fs w, written used fs w -> (used + n <= len)%nat ->
  exists w', f w = Some w' /\ written (used + n) (fs ++ new) w'.

Lemma adds_nothing (f : wbuf -> option wbuf) : (forall w, f w = Some w) -> adds 0 [] f.
Proof.
  intros Hf used fs w Hw _. exists w. split; [apply Hf|]. by rewrite Nat.add_0_r, app_nil_r.
Qed.

Lemma adds_then n1 n2 new1 new2 f g :
  adds n1 new1 f -> adds n2 new2 g -> adds (n1 + n2) (new1 ++ new2) (fun w => w ← f w; g w).
Proof.
  intros Hf Hg used fs w Hw Hroom. destruct (Hf used fs w Hw ltac:(lia)) as (w1 & -> & Hw1).
  cbn [mbind option_bind]. destruct (Hg _ _ w1 Hw1 ltac:(lia)) as (w2 & -> & Hw2).
  exists w2. split; [done|]. by rewrite app_assoc, Nat.add_assoc.
Qed.

Lemma put_put a b w : (w ← put len a w; put len b w) = put len (a ++ b) w.
Proof.
  unfold put. rewrite length_app.
  destruct (Nat.leb_spec (length (w_out w) + length a) len); cbn [mbind option_bind w_out w_tmp].
  - rewrite length_app, <- app_assoc.
    by destruct (Nat.leb_spec (length (w_out w) + length a + length b) len),
      (Nat.leb_spec (length (w_out w) + (length a + length b)) len); try lia.
  - by rewrite (proj2 (Nat.leb_gt _ _)) by lia.
Qed.

Lemma put_field n bytes new tmp' used fs w :
  written used fs w -> (used + n <= len)%nat -> (length bytes <= n)%nat -> length tmp' = tmp_len ->
  (forall t, exists t', field_bytes_of t bytes new t') ->
  exists w', put len bytes {| w_out := w_out w; w_tmp := tmp' |} = Some w'
    /\ written (used + n) (fs ++ new) w'.
Proof.
  intros [H1 H2 [t Ht]] Hroom Hn Htmp Hf. unfold put. cbn [w_out w_tmp].
  rewrite (proj2 (Nat.leb_le _ _)) by lia. eexists. split; [done|].
  constructor; cbn [w_out w_tmp]; [rewrite length_app; lia|done|].
  destruct (Hf t) as [t' Ht']. exists t'. by eapply reads_snoc.
Qed.

Lemma adds_bytes n bytes new :
  (length bytes <= n)%nat -> (forall t, exists t', field_bytes_of t bytes new t') ->
  adds n new (put len bytes).
Proof.
  intros Hn Hf used fs w Hw Hroom. pose proof (wr_tmp _ _ _ Hw) as Ht.
  destruct w as [out tmp]. by apply (put_field n bytes new tmp used fs {| w_out := out; w_tmp := tmp |}).
Qed.

(** A field with a name of the static table, and a string. *)
Definition string_fits (n : nat) (s : list Z) : Prop :=
  bytes_ok s /\ (length s <= tmp_len)%nat /\ Z.of_nat (length s) <= NGX_HTTP_V2_MAX_FIELD
  /\ (1 + NGX_HTTP_V2_INT_OCTETS + length s <= n \/ 1 + ngx_http_v2_literal_size s <= n)%nat.

Lemma put_after a lower src w l tmp' :
  ngx_http_v2_string_encode src (w_tmp w) lower = Some (l, tmp') ->
  (w ← put len a w; put_string len lower src w) = put len (a ++ l) {| w_out := w_out w; w_tmp := tmp' |}.
Proof.
  intros Henc. transitivity (w ← put len a {| w_out := w_out w; w_tmp := tmp' |}; put len l w); [|apply put_put].
  unfold put_string, put. cbn [w_out w_tmp]. destruct (_ <=? len)%nat; cbn [mbind option_bind w_tmp w_out]; [|done].
  by rewrite Henc.
Qed.

Lemma adds_named n i name value s :
  ngx_http_v2_static_table !! i = Some (name, value) -> string_fits n s ->
  adds n [(name, s)] (fun w => w ← put len [ngx_http_v2_inc_indexed (Z.of_nat (S i))] w; put_string len false s w).
Proof.
  intros Hi (Hok & Htmp & Hmax & Hn) used fs w Hw Hroom.
  destruct (string_encode_ok s (w_tmp w) false Hok) as (l & tmp' & Hl & Htmp' & _ & H1 & H2 & Hr);
    [by rewrite (wr_tmp _ _ _ Hw)|done|].
  rewrite (put_after _ _ _ _ _ _ Hl). rewrite (wr_tmp _ _ _ Hw) in Htmp'.
  assert (folded false s = s) as Hs by (unfold folded, fold_byte; apply map_id). rewrite Hs in Hr.
  apply put_field; try done.
  - cbn [app length]. unfold NGX_HTTP_V2_INT_OCTETS, ngx_http_v2_literal_size in *. lia.
  - intros t. eexists. by apply (field_inc_indexed t i (name, value) l s).
Qed.

(** The steps, with what [len] counts for each. *)
Lemma update_written st used fs w :
  written used fs w -> (used + (if s_table_update st then 1 else 0) <= len)%nat ->
  exists w', write_update len st w = Some (updated st, w')
    /\ written (used + if s_table_update st then 1 else 0)%nat fs w'.
Proof.
  intros Hw Hroom. unfold write_update. destruct (s_table_update st) eqn:Hst.
  - destruct (adds_bytes 1 [0x20] []) with (used := used) (fs := fs) (w := w) as (w' & Hput & Hw'); try done.
    { intros t. exists (table_resize t 0). apply field_update. }
    change [Z.lor (Z.shiftl 1 5) 0] with [0x20]. rewrite Hput. cbn [mbind option_bind]. exists w'.
    by rewrite app_nil_r in Hw'.
  - exists w. unfold updated. rewrite <- Hst, Nat.add_0_r. by destruct st.
Qed.

Lemma status_digits v : 0 <= v <= 999 ->
  exists text, ngx_sprintf (bs "%03ui") [Int v] = Some text /\ length text = 3%nat.
Proof.
  intros Hv.
  assert (forallb (fun v => match ngx_sprintf (bs "%03ui") [Int v] with
                            | Some text => (length text =? 3)%nat | None => false end) (seqZ 0 1000) = true)
    as Hall by (vm_compute; reflexivity).
  rewrite forallb_forall in Hall. specialize (Hall v). rewrite <- list_elem_of_In, elem_of_seqZ in Hall.
  specialize (Hall ltac:(lia)). destruct (ngx_sprintf _ _) as [text|]; [|done].
  exists text. split; [done|]. by apply Nat.eqb_eq.
Qed.

(** A string that is short and not encoded. *)
Lemma client_string_raw s rest : (length s < 127)%nat ->
  client_string (Z.of_nat (length s) :: s ++ rest) = Some (s, rest).
Proof.
  intros Hs. apply (client_string_app false (Z.of_nat (length s)) [Z.of_nat (length s)] s s rest).
  - change NGX_HTTP_V2_MAX_FIELD with 2097278. lia.
  - unfold ngx_http_v2_write_int. change (ngx_http_v2_prefix 7) with 127.
    rewrite (proj2 (Z.ltb_lt _ _)) by lia. by rewrite Z.lor_0_l, u8_small by lia.
  - rewrite Nat2Z.id. apply string_bytes_raw.
Qed.

Lemma adds_ext n new f g : (forall w, f w = g w) -> adds n new f -> adds n new g.
Proof. intros Hfg Hf used fs w Hw Hroom. rewrite <- Hfg. by apply Hf. Qed.

(** What [status_case] gives for the first byte. *)
Definition status_byte_ok (status : Z) (r : response) : Prop :=
  status = 0 \/ exists i, status = ngx_http_v2_indexed (Z.of_nat (S i))
    /\ ngx_http_v2_static_table !! i = Some (bs ":status", text_of (bs "%03ui") (o_status r)).

Lemma status_adds status r : 0 <= o_status r <= 999 -> status_byte_ok status r ->
  adds (if (status =? 0)%Z then 1 + ngx_http_v2_literal_size (bs "418") else 1)
    [(bs ":status", text_of (bs "%03ui") (o_status r))] (write_status len status r).
Proof.
  intros Hr [->|(i & -> & Hi)]; unfold write_status.
  - change (0 =? 0) with true. cbn [negb]. destruct (status_digits (o_status r) Hr) as (text & Htext & Hl).
    apply (adds_ext _ _ (put len ([ngx_http_v2_inc_indexed NGX_HTTP_V2_STATUS_INDEX] ++ Z.lor NGX_HTTP_V2_ENCODE_RAW 3 :: text))).
    { intros w. rewrite <- put_put. destruct (put len [_] w) as [w1|]; [|done]. cbn [mbind option_bind].
      etrans; [symmetry; apply (put_put [Z.lor NGX_HTTP_V2_ENCODE_RAW 3] text)|]. destruct (put len [_] w1) as [w2|]; [|done]. cbn [mbind option_bind].
      by rewrite Htext. }
    apply adds_bytes; [cbn [app length]; by rewrite Hl|]. intros t. eexists.
    apply (field_inc_indexed t 7 (bs ":status", bs "200")); [done|]. intros rest. unfold text_of. rewrite Htext.
    change (Z.lor NGX_HTTP_V2_ENCODE_RAW 3) with (Z.of_nat 3). rewrite <- Hl. apply (client_string_raw text rest). lia.
  - pose proof (lookup_lt_Some _ _ _ Hi) as Hlt. change (length ngx_http_v2_static_table) with 61%nat in Hlt.
    unfold ngx_http_v2_indexed at 1 2. rewrite (proj2 (Z.eqb_neq _ _)) by lia. cbn [negb].
    apply adds_bytes; [done|]. intros t. exists t. by apply field_indexed.
Qed.

(** A static variable is empty, or holds the text encoded. *)
Definition static_ok (text cached : list Z) : Prop :=
  cached = [] \/ forall rest, client_string (cached ++ rest) = Some (text, rest).

Lemma put_eq a w : put len a w = None
  \/ put len a w = Some {| w_out := w_out w ++ a; w_tmp := w_tmp w |}.
Proof. unfold put. destruct (_ <=? len)%nat; auto. Qed.

Lemma adds_static i name value cached text n :
  ngx_http_v2_static_table !! i = Some (name, value) -> static_ok text cached ->
  (cached = [] -> string_fits n text /\ (1 + ngx_http_v2_literal_size text <= n)%nat) ->
  (1 + length cached <= n)%nat ->
  forall used fs w, written used fs w -> (used + n <= len)%nat ->
  exists l w', (w ← put len [ngx_http_v2_inc_indexed (Z.of_nat (S i))] w; put_static len cached text w) = Some (l, w')
    /\ static_ok text l /\ written (used + n) (fs ++ [(name, text)]) w'.
Proof.
  intros Hi Hst Hempty Hn used fs w Hw Hroom. destruct cached as [|c cached].
  - destruct (Hempty eq_refl) as [(Hok & Htmp & Hmax & _) Hlit].
    destruct (string_encode_ok text (w_tmp w) false Hok) as (l & tmp' & Hl & Htmp' & _ & H1 & _ & Hr);
      [by rewrite (wr_tmp _ _ _ Hw)|done|].
    assert (folded false text = text) as Hs by (unfold folded, fold_byte; apply map_id). rewrite Hs in Hr.
    destruct (put_field n (ngx_http_v2_inc_indexed (Z.of_nat (S i)) :: l) [(name, text)] tmp' used fs w)
      as (w' & Hput & Hw'); [done|done| |by rewrite Htmp', (wr_tmp _ _ _ Hw)| |].
    { cbn [length]. unfold ngx_http_v2_literal_size in *. lia. }
    { intros t. eexists. by apply (field_inc_indexed t i (name, value) l text). }
    exists l, w'. split; [|by split; [right|]]. pose proof (eq_trans (put_after [ngx_http_v2_inc_indexed (Z.of_nat (S i))] false text w l tmp' Hl) Hput) as Hput'.
    clear Hput; rename Hput' into Hput.
    destruct (put_eq [ngx_http_v2_inc_indexed (Z.of_nat (S i))] w) as [Hp|Hp]; rewrite Hp in *; [done|].
    cbn [mbind option_bind] in *. unfold put_static. unfold put_string in Hput. cbn [w_tmp] in *.
    rewrite Hl in *. cbn [mbind option_bind] in *. unfold ngx_http_v2_literal_size.
    rewrite (proj2 (Nat.ltb_ge _ _)) by lia. by rewrite Hput.
  - destruct (adds_bytes n (ngx_http_v2_inc_indexed (Z.of_nat (S i)) :: c :: cached) [(name, text)])
      with (used := used) (fs := fs) (w := w) as (w' & Hput & Hw'); [done| |done|done|].
    { intros t. eexists. apply (field_inc_indexed t i (name, value)); [done|]. by destruct Hst. }
    exists (c :: cached), w'. split; [|done].
    pose proof (eq_trans (put_put [ngx_http_v2_inc_indexed (Z.of_nat (S i))] (c :: cached) w) Hput) as Hput'.
    unfold put_static. destruct (put len [_] w) as [w1|]; [|done]. cbn [mbind option_bind] in *. by rewrite Hput'.
Qed.

(** A constant of the program that is a coded string. *)
Lemma client_string_huff b raw s t rest :
  (length raw < 127)%nat -> b = 128 + Z.of_nat (length raw) ->
  walk code_tree (bits_of_bytes raw) = (s, Some t) -> may_end t = true ->
  client_string ((b :: raw) ++ rest) = Some (s, rest).
Proof.
  intros Hn -> Hw Hm. apply (client_string_app true (Z.of_nat (length raw)) [128 + Z.of_nat (length raw)] raw).
  - change NGX_HTTP_V2_MAX_FIELD with 2097278. lia.
  - unfold ngx_http_v2_write_int. change (ngx_http_v2_prefix 7) with 127.
    rewrite (proj2 (Z.ltb_lt _ _)) by lia. do 2 f_equal.
    assert (forallb (fun n => u8 (Z.lor 128 n) =? 128 + n) (seqZ 0 127) = true) as Hall by (vm_compute; reflexivity).
    rewrite forallb_forall in Hall. apply Z.eqb_eq, Hall, list_elem_of_In, elem_of_seqZ. lia.
  - rewrite Nat2Z.id. by apply (string_bytes_huff _ _ t).
Qed.

Lemma nginx_text rest : client_string (nginx ++ rest) = Some (bs "nginx", rest).
Proof. by eapply client_string_huff; [apply Nat.ltb_lt|..]; vm_compute. Qed.

Lemma accept_encoding_text rest : client_string (accept_encoding ++ rest) = Some (bs "Accept-Encoding", rest).
Proof. by eapply client_string_huff; [apply Nat.ltb_lt|..]; vm_compute. Qed.

Definition statics_ok (ver_build : list Z) (st : statics) : Prop :=
  static_ok NGINX_VER (s_ver st) /\ static_ok ver_build (s_ver_build st).

Definition text_ok (s : list Z) : Prop := bytes_ok s /\ Z.of_nat (length s) <= NGX_HTTP_V2_MAX_FIELD.

Lemma literal_fits s : text_ok s -> (length s <= tmp_len)%nat ->
  string_fits (1 + ngx_http_v2_literal_size s) s.
Proof. intros [Hok Hmax] Htmp. by split_and!; [..|right]. Qed.

Lemma put_server cached text used fs w :
  text_ok text -> static_ok text cached -> (1 + static_len text cached <= tmp_len)%nat ->
  written used fs w -> (used + (1 + static_len text cached) <= len)%nat ->
  exists w1 l w', put len [ngx_http_v2_inc_indexed NGX_HTTP_V2_SERVER_INDEX] w = Some w1
    /\ put_static len cached text w1 = Some (l, w') /\ static_ok text l
    /\ written (used + (1 + static_len text cached)) (fs ++ [(bs "server", text)]) w'.
Proof.
  intros Htext Hst Htmp Hw Hroom.
  destruct (adds_static 53 (bs "server") [] cached text (1 + static_len text cached))
    with (used := used) (fs := fs) (w := w) as (l & w' & Hput & Hl & Hw'); try done.
  - intros ->. cbn [static_len] in *. split; [|done]. apply literal_fits; [done|].
    unfold ngx_http_v2_literal_size in *. lia.
  - by destruct cached; cbn [static_len length]; lia.
  - change NGX_HTTP_V2_SERVER_INDEX with (Z.of_nat 54).
    destruct (put len [_] w) as [w1|]; [|done]. by exists w1, l, w'.
Qed.

Lemma server_adds cf ver_build st r :
  text_ok ver_build -> statics_ok ver_build st ->
  let n := if o_server r then 0%nat else (1 + server_len cf ver_build st)%nat in
  (n <= tmp_len)%nat ->
  forall used fs w, written used fs w -> (used + n <= len)%nat ->
  exists st' w', write_server cf ver_build len st r w = Some (st', w') /\ statics_ok ver_build st' /\ s_table_update st' = s_table_update st
    /\ written (used + n) (fs ++ if o_server r then [] else [(bs "server", server_text cf ver_build)]) w'.
Proof.
  intros Hvb [Hv Hb] n Htmp used fs w Hw Hroom. subst n. unfold write_server.
  destruct (o_server r).
  { exists st, w. split_and!; [done|by split|done|]. by rewrite Nat.add_0_r, app_nil_r. }
  unfold server_len, server_text in *. destruct (f_server_tokens cf).
  - destruct (adds_bytes (1 + length nginx) (ngx_http_v2_inc_indexed NGX_HTTP_V2_SERVER_INDEX :: nginx)
      [(bs "server", bs "nginx")]) with (used := used) (fs := fs) (w := w) as (w' & Hput & Hw'); [done| |done|done|].
    { intros t. eexists. by apply (field_inc_indexed t 53 (bs "server", [])); [|apply nginx_text]. }
    exists st, w'. split_and!; [|by split|done|done].
    pose proof (eq_trans (put_put [ngx_http_v2_inc_indexed NGX_HTTP_V2_SERVER_INDEX] nginx w) Hput) as Hp.
    destruct (put len [_] w) as [w1|]; [|done]. cbn [mbind option_bind] in *. by rewrite Hp.
  - destruct (put_server (s_ver st) NGINX_VER used fs w) as (w1 & l & w' & -> & Hput & Hl & Hw'); try first [done|exact Htmp|exact Hroom].
    { split; [|by vm_compute]. unfold NGINX_VER. by repeat constructor. }
    cbn [mbind option_bind]. rewrite Hput. cbn [mbind option_bind]. eexists _, w'. split_and!; [done|by split|done|done].
  - destruct (put_server (s_ver_build st) ver_build used fs w) as (w1 & l & w' & -> & Hput & Hl & Hw'); try first [done|exact Htmp|exact Hroom].
    cbn [mbind option_bind]. rewrite Hput. cbn [mbind option_bind]. eexists _, w'. split_and!; [done|by split|done|done].
Qed.

Lemma date_adds cf r :
  let n := if o_date r then 0%nat else (1 + date_size)%nat in
  (n <= tmp_len)%nat -> bytes_ok (k_http_time cf) -> length (k_http_time cf) = 29%nat ->
  adds n (if o_date r then [] else [(bs "date", k_http_time cf)]) (write_date cf len r).
Proof.
  intros n Htmp Hok Hl. subst n. unfold write_date. destruct (o_date r); [by apply adds_nothing|].
  apply (adds_named _ 32 (bs "date") [] _); [done|]. change (1 + date_size)%nat with 31%nat in *.
  split_and!; [done|lia|change NGX_HTTP_V2_MAX_FIELD with 2097278; lia|].
  right. unfold ngx_http_v2_literal_size. by rewrite Hl.
Qed.

(** A field that [len] counts by [field_len]. *)
Lemma field_adds i name value s (b : bool) n f :
  ngx_http_v2_static_table !! i = Some (name, value) ->
  (f = fun w => if b then w ← put len [ngx_http_v2_inc_indexed (Z.of_nat (S i))] w; put_string len false s w
                else Some w) ->
  n = (if b then field_len (length s) else 0%nat) -> (n <= tmp_len)%nat ->
  (b = true -> text_ok s) -> adds n (if b then [(name, s)] else []) f.
Proof.
  intros Hi -> -> Htmp Hok. destruct b; [|by apply adds_nothing]. destruct (Hok eq_refl) as [Hb Hm].
  unfold field_len in *. apply (adds_named _ i name value); [done|]. split_and!; [done|lia|done|by left].
Qed.

Lemma type_adds r :
  let n := if (0 <? length (o_content_type r))%nat
           then (field_len (length (o_content_type r))
                 + if with_charset r then length (bs "; charset=") + length (o_charset r) else 0)%nat
           else 0%nat in
  (n <= tmp_len)%nat -> text_ok (full_type r) ->
  adds n (if (0 <? length (o_content_type r))%nat then [(bs "content-type", full_type r)] else []) (write_type len r).
Proof.
  intros n Htmp Hok. apply (field_adds 30 (bs "content-type") [] (full_type r)); try done.
  subst n. destruct (0 <? _)%nat; [|done]. unfold full_type, field_len.
  destruct (with_charset r); rewrite ?length_app; lia.
Qed.

Lemma location_adds r :
  let n := if (0 <? length (location_value r))%nat then field_len (length (location_value r)) else 0%nat in
  (n <= tmp_len)%nat -> text_ok (location_value r) ->
  adds n (if (0 <? length (location_value r))%nat then [(bs "location", location_value r)] else [])
    (write_location len r).
Proof. intros n Htmp Hok. by apply (field_adds 45 (bs "location") [] (location_value r)). Qed.

Lemma vary_adds r :
  adds (if o_gzip_vary r then 1 + length accept_encoding else 0)
    (if o_gzip_vary r then [(bs "vary", bs "Accept-Encoding")] else []) (write_vary len r).
Proof.
  unfold write_vary. destruct (o_gzip_vary r); [|by apply adds_nothing].
  apply (adds_ext _ _ (put len ([ngx_http_v2_inc_indexed NGX_HTTP_V2_VARY_INDEX] ++ accept_encoding))).
  { intros w. symmetry. apply put_put. }
  apply adds_bytes; [done|]. intros t. eexists.
  apply (field_inc_indexed t 58 (bs "vary", [])); [done|apply accept_encoding_text].
Qed.

(** The digits of a length. *)
Lemma length_digits v : 0 <= v < 2 ^ 63 ->
  exists text, ngx_sprintf (bs "%O") [Int v] = Some text /\ (0 < length text <= 20)%nat.
Proof.
  intros Hv. unfold ngx_sprintf, ngx_vslprintf. change (length (bs "%O")) with 2%nat.
  change (bs "%O") with ["%"%ch; "O"%ch].
  assert (exists text, conversion None ["O"%ch] [Int v] = Some (text, [], []) /\ (0 < length text <= 20)%nat)
    as (text & Hc & Hl).
  { unfold conversion, parse_spec. cbn -[put_int].
    match goal with |- context [put_int None ?s ?x] =>
      destruct (put_int_text None s x ltac:(by left) eq_refl) as (out & Ho & ->) end.
    unfold int_text, padded in Ho. cbn -[Z.ltb u64 num_digits] in Ho. rewrite i64_small in Ho by lia.
    rewrite (proj2 (Z.ltb_ge _ _)), u64_small in Ho by lia.
    destruct (num_digits_dec v ltac:(lia)) as (q & Hq & _ & _ & Hl). rewrite Hq in Ho.
    cbn [mbind option_bind app] in Ho. replace (Z.to_nat (0 - Z.of_nat (length q))) with 0%nat in Ho by lia.
    injection Ho as <-. by exists q. }
  exists text. split; [|done]. rewrite (printf_conversion _ _ _ _ _ _ Hc), printf_end.
  by cbn; rewrite app_nil_r.
Qed.

(** ** Dates are shorter when they are encoded *)

(** Bytes with codes of [k] bits at most. *)
Definition coded (k : nat) (s : list Z) : bool :=
  forallb (fun c => (0 <=? c) && (c <? 256) && (length (code_bits c) <=? k)%nat) s.

Lemma coded_length k s : coded k s = true -> bytes_ok s /\ (length (codes s) <= k * length s)%nat.
Proof.
  induction s as [|c s IH]; [split; [constructor|cbn; lia]|].
  intros [[[H0 H1]%andb_prop H2%Nat.leb_le]%andb_prop Hs]%andb_prop. destruct (IH Hs) as [Hok Hl].
  split; [constructor; [unfold is_u8; lia|done]|]. change (codes (c :: s)) with (code_bits c ++ codes s).
  rewrite length_app. cbn [length]. lia.
Qed.

Lemma d2_coded v : 0 <= v < 100 -> coded 6 (d2 v) = true.
Proof.
  intros Hv. assert (forallb (fun v => coded 6 (d2 v)) (seqZ 0 100) = true) as Hall by (vm_compute; reflexivity).
  rewrite forallb_forall in Hall. apply Hall, list_elem_of_In, elem_of_seqZ. lia.
Qed.

Lemma week_coded i : 0 <= i < 7 -> exists s, week !! Z.to_nat i = Some (s ++ [0]) /\ name_ok s /\ coded 8 s = true.
Proof.
  intros Hi. destruct (week_name i Hi) as (s & Hs & Hn). exists s. split_and!; [done|done|].
  assert (forallb (fun w => coded 8 (take 3 w)) week = true) as Hall by (vm_compute; reflexivity).
  rewrite forallb_forall in Hall. specialize (Hall (s ++ [0])).
  rewrite <- list_elem_of_In in Hall. specialize (Hall (list_elem_of_lookup_2 _ _ _ Hs)).
  by destruct Hn as (a & b & c & -> & _).
Qed.

Lemma month_coded m : 1 <= m <= 12 -> coded 8 (month_name m) = true.
Proof. intros Hm. by each_month m; vm_compute. Qed.

Lemma http_time_short t : exists s, ngx_http_time t = Some s /\ length s = 29%nat /\ bytes_ok s
  /\ (length (codes s) <= 224)%nat.
Proof.
  assert (0 <= Z.max 0 (Z.min t LAST_TIME) <= LAST_TIME) as Ht by (unfold LAST_TIME; lia).
  unfold ngx_http_time. rewrite ngx_gmtime_clamp. set (t' := Z.max 0 _) in *. clearbody t'.
  destruct (ngx_gmtime_fields t' Ht) as (y & m & d & h & mi & s & -> & [Hm Hd] & Hy & _ & Hh & Hmi & Hs & _).
  cbn [tm_sec tm_min tm_hour tm_mday tm_mon tm_year tm_wday].
  destruct (week_coded ((4 + t' / 86400) mod 7) ltac:(lia_mod)) as (w & -> & Hwok & Hw).
  destruct (month_name_ok m Hm) as [-> Hmok]. pose proof (month_coded m Hm) as Hmc.
  pose proof (month_length_range y m). cbn [mbind option_bind].
  eexists. split; [apply http_time_text; done || lia|].
  assert (length w = 3 /\ length (month_name m) = 3)%nat as [Hlw Hlm].
  { destruct Hwok as (? & ? & ? & -> & _), Hmok as (? & ? & ? & -> & _). done. }
  unfold clock, d4. split.
  { rewrite !length_app, Hlw, Hlm. reflexivity. }
  assert (forall v, 0 <= v < 100 -> bytes_ok (d2 v) /\ (length (codes (d2 v)) <= 12)%nat) as Hd2.
  { intros v Hv. destruct (coded_length 6 (d2 v) (d2_coded v Hv)). done. }
  apply coded_length in Hw as [Hw1 Hw2], Hmc as [Hm1 Hm2]. rewrite Hlw in Hw2. rewrite Hlm in Hm2.
  destruct (Hd2 d) as [D1 D2]; [lia|]. destruct (Hd2 (y / 100)) as [Y1 Y2]; [lia_mod|].
  destruct (Hd2 (y mod 100)) as [Z1 Z2]; [lia_mod|]. destruct (Hd2 h) as [H1 H2]; [lia|].
  destruct (Hd2 mi) as [M1 M2]; [lia|]. destruct (Hd2 s) as [S1 S2]; [lia|].
  split.
  - rewrite !Forall_app. split_and!; first [done|by repeat constructor].
  - rewrite !codes_app, !length_app.
    change (length (codes (bs ", "))) with 14%nat. change (length (codes (bs " "))) with 6%nat.
    change (length (codes (bs ":"))) with 7%nat. change (length (codes (bs " GMT"))) with 27%nat. lia.
Qed.

Lemma put_ok a w : (length (w_out w) + length a <= len)%nat ->
  put len a w = Some {| w_out := w_out w ++ a; w_tmp := w_tmp w |}.
Proof. intros Ha. unfold put. by rewrite (proj2 (Nat.leb_le _ _)). Qed.

(** The date is encoded in place. *)
Lemma modified_adds r :
  let n := if wants_modified r then (1 + date_size)%nat else 0%nat in
  (n <= tmp_len)%nat ->
  adds n (if wants_modified r
          then [(bs "last-modified", default [] (ngx_http_time (o_last_modified_time r)))] else [])
    (write_modified len r).
Proof.
  intros n Htmp. subst n. unfold write_modified. destruct (wants_modified r); [|by apply adds_nothing].
  change (1 + date_size)%nat with 31%nat in *.
  destruct (http_time_short (o_last_modified_time r)) as (text & -> & Hl & Hok & Hc). cbn [default].
  intros used fs w Hw Hroom.
  destruct (adds_named 31 43 (bs "last-modified") [] text eq_refl) with (used := used) (fs := fs) (w := w)
    as (w' & Hput & Hw'); [|done|done|].
  { split_and!; [done|lia|change NGX_HTTP_V2_MAX_FIELD with 2097278; lia|].
    right. unfold ngx_http_v2_literal_size. by rewrite Hl. }
  exists w'. split; [|done]. change NGX_HTTP_V2_LAST_MODIFIED_INDEX with (Z.of_nat 44).
  pose proof (wr_used _ _ _ Hw) as Hused. pose proof (wr_tmp _ _ _ Hw) as Htm.
  rewrite put_ok in Hput |- * by (cbn [length]; lia). cbn [mbind option_bind] in Hput |- *.
  rewrite put_ok by (cbn [w_out]; rewrite length_app; cbn [length]; lia). cbn [mbind option_bind w_tmp] in *.
  destruct (encode_spec text (w_tmp w) false Hok ltac:(lia)) as (k & tmp' & -> & _ & _ & Hshort & _).
  cbn [mbind option_bind]. assert (folded false text = text) as Hf by (unfold folded, fold_byte; apply map_id).
  rewrite Hf in Hshort. destruct Hshort as [-> _]; [rewrite Hl; apply Nat.Div0.div_lt_upper_bound; lia|].
  rewrite (proj2 (Nat.ltb_lt _ _)); [done|].
  pose proof (codes_length text Hok). apply Nat.div_str_pos. lia.
Qed.

(** The headers of the list. *)
Definition header_size (h : out_header) : nat :=
  if oh_shown h then (1 + (NGX_HTTP_V2_INT_OCTETS + length (oh_key h))
                      + (NGX_HTTP_V2_INT_OCTETS + length (oh_value h)))%nat else 0%nat.
Definition headers_size (hs : list out_header) : nat := sum_list_with header_size hs.
Definition header_fields (hs : list out_header) : list header :=
  flat_map (fun h => if oh_shown h then [(folded true (oh_key h), oh_value h)] else []) hs.
Definition header_ok (h : out_header) : Prop := bytes_ok (oh_key h) /\ bytes_ok (oh_value h).
Definition header_fits (h : out_header) : Prop :=
  oh_shown h = true -> (length (oh_key h) <= tmp_len)%nat /\ (length (oh_value h) <= tmp_len)%nat
    /\ Z.of_nat (length (oh_key h)) <= NGX_HTTP_V2_MAX_FIELD
    /\ Z.of_nat (length (oh_value h)) <= NGX_HTTP_V2_MAX_FIELD.

Lemma new_adds k v :
  bytes_ok k -> bytes_ok v -> header_fits {| oh_shown := true; oh_key := k; oh_value := v |} ->
  adds (1 + (NGX_HTTP_V2_INT_OCTETS + length k) + (NGX_HTTP_V2_INT_OCTETS + length v)) [(folded true k, v)]
    (fun w => w ← put len [0] w; w ← put_string len true k w; put_string len false v w).
Proof.
  intros Hk Hv Hfit used fs w Hw Hroom. pose proof (wr_used _ _ _ Hw) as Hused. pose proof (wr_tmp _ _ _ Hw) as Ht.
  destruct (Hfit eq_refl) as (Hk1 & Hv1 & Hk2 & Hv2). cbn [oh_key oh_value] in *.
  destruct (string_encode_ok k (w_tmp w) true Hk) as (lk & tmp1 & Hlk & Ht1 & _ & _ & Hn1 & Hr1); [by rewrite Ht|done|].
  destruct (string_encode_ok v tmp1 false Hv) as (lv & tmp2 & Hlv & Ht2 & _ & _ & Hn2 & Hr2); [by rewrite Ht1, Ht|done|].
  assert (folded false v = v) as Hf by (unfold folded, fold_byte; apply map_id). rewrite Hf in Hr2.
  rewrite put_ok by (cbn [length]; lia). cbn [mbind option_bind]. unfold put_string. cbn [w_out w_tmp].
  rewrite Hlk. cbn [mbind option_bind].
  rewrite put_ok by (cbn [w_out]; rewrite length_app; cbn [length]; lia). cbn [mbind option_bind w_out w_tmp].
  rewrite Hlv. cbn [mbind option_bind].
  rewrite put_ok by (cbn [w_out]; rewrite !length_app; cbn [length]; lia). cbn [w_out w_tmp].
  eexists. split; [done|]. destruct Hw as [_ _ [t Hreads]]. constructor; cbn [w_out w_tmp].
  - rewrite !length_app. cbn [length]. lia.
  - by rewrite Ht2, Ht1.
  - exists t. rewrite <- !app_assoc. eapply reads_snoc; [done|]. by apply (field_new t lk (folded true k) lv v).
Qed.

Lemma headers_adds hs :
  Forall header_ok hs -> Forall header_fits hs ->
  adds (headers_size hs) (header_fields hs) (write_headers len hs).
Proof.
  unfold headers_size, header_fields. induction hs as [|h hs IH]; intros Hok Hfit; [by apply adds_nothing|].
  apply list.Forall_cons in Hok as [[Hk Hv] Hoks], Hfit as [Hh Hfits]. specialize (IH Hoks Hfits).
  cbn [sum_list_with flat_map write_headers]. unfold header_size at 1. destruct h as [shown k v].
  cbn [oh_shown oh_key oh_value] in *. destruct shown; [|exact IH].
  eapply adds_ext; [|exact (adds_then _ _ _ _ _ _ (new_adds k v Hk Hv Hh) IH)]. intros w. cbn [negb].
  destruct (put len [0] w) as [w1|]; [|done]. cbn [mbind option_bind].
  by destruct (put_string len true k w1) as [w2|].
Qed.

Lemma headers_len_some hs : forall l t l' t',
  headers_len hs l t = Some (l', t') -> l' = (l + headers_size hs)%nat /\ (t <= t')%nat
  /\ (t' <= tmp_len -> Forall header_fits hs)%nat.
Proof.
  induction hs as [|h hs IH]; intros l t l' t' H; cbn [headers_len] in H.
  { injection H as <- <-. unfold headers_size. cbn. split_and!; [lia|lia|constructor]. }
  unfold headers_size in *. cbn [sum_list_with]. unfold header_size at 1.
  destruct (oh_shown h) eqn:Hs; cbn [negb] in H.
  - destruct (Z.gtb_spec (Z.of_nat (length (oh_key h))) NGX_HTTP_V2_MAX_FIELD); [done|].
    destruct (Z.gtb_spec (Z.of_nat (length (oh_value h))) NGX_HTTP_V2_MAX_FIELD); [done|].
    apply IH in H as (-> & Ht & Hf). split_and!; [lia|lia|]. intros Hb. constructor; [|by apply Hf].
    intros _. split_and!; lia.
  - apply IH in H as (-> & Ht & Hf). split_and!; [lia|lia|]. intros Hb. constructor; [|by apply Hf].
    intros Hsh. by rewrite Hs in Hsh.
Qed.

Lemma step_adds {n new f A} (g : wbuf -> option A) used fs w (P : option A -> Prop) :
  adds n new f -> written used fs w -> (used + n <= len)%nat ->
  (forall w', written (used + n) (fs ++ new) w' -> P (g w')) -> P (w ← f w; g w).
Proof. intros Hf Hw Hroom Hg. destruct (Hf used fs w Hw Hroom) as (w' & -> & Hw'). by apply Hg. Qed.

(** What the text of the fields must be, and what [len] counts in all. *)
Record response_texts cf ver_build st (r : response) : Prop := {
  rt_build : text_ok ver_build;
  rt_statics : statics_ok ver_build st;
  rt_status : 0 <= o_status r <= 999;
  rt_time : bytes_ok (k_http_time cf) /\ length (k_http_time cf) = 29%nat;
  rt_type : text_ok (full_type r);
  rt_length : o_content_length_n r < 2 ^ 63;
  rt_location : text_ok (location_value r);
  rt_headers : Forall header_ok (o_headers r);
}.

Definition location_size (r : response) : nat :=
  if (0 <? length (location_value r))%nat then field_len (length (location_value r)) else 0%nat.
Definition vary_size (r : response) : nat := if o_gzip_vary r then (1 + length accept_encoding)%nat else 0%nat.

Lemma length_adds r : o_content_length_n r < 2 ^ 63 ->
  adds (if wants_length r then 1 + ngx_http_v2_integer_octets NGX_OFF_T_LEN + NGX_OFF_T_LEN else 0)
    (if wants_length r then [(bs "content-length", text_of (bs "%O") (o_content_length_n r))] else [])
    (write_length len r).
Proof.
  intros Hmax. unfold write_length. destruct (wants_length r) eqn:Hw; [|by apply adds_nothing].
  apply andb_prop in Hw as [_ Hpos%Z.leb_le]. destruct (length_digits (o_content_length_n r)) as (text & Htext & Hl); [lia|].
  rewrite Htext. cbn [mbind option_bind].
  apply (adds_ext _ _ (put len ([ngx_http_v2_inc_indexed NGX_HTTP_V2_CONTENT_LENGTH_INDEX]
    ++ Z.lor NGX_HTTP_V2_ENCODE_RAW (u8 (Z.of_nat (length text))) :: text))).
  { intros w. symmetry. apply put_put. }
  apply adds_bytes.
  { change (1 + ngx_http_v2_integer_octets NGX_OFF_T_LEN + NGX_OFF_T_LEN)%nat with 22%nat. cbn [app length]. lia. }
  intros t. eexists. apply (field_inc_indexed t 27 (bs "content-length", [])); [done|]. intros rest.
  unfold text_of. rewrite Htext. change (Z.lor NGX_HTTP_V2_ENCODE_RAW ?x) with x.
  rewrite u8_small by lia. apply (client_string_raw text rest). lia.
Qed.

Definition block_result ver_build (fs : list header) (o : option (statics * wbuf)) : Prop :=
  exists st w t, o = Some (st, w) /\ statics_ok ver_build st /\ s_table_update st = false
    /\ client_reads t0 (w_out w) fs t.

Ltac write_step Hw H :=
  eapply (step_adds _ _ _ _ _ H); [exact Hw|lia|]; clear Hw; intros ? Hw.

Lemma block_written cf ver_build status st r w :
  response_texts cf ver_build st r -> status_byte_ok status r ->
  (fixed_len cf ver_build status st r + location_size r <= tmp_len)%nat -> Forall header_fits (o_headers r) ->
  (fixed_len cf ver_build status st r + location_size r + vary_size r + headers_size (o_headers r) <= len)%nat ->
  written 0 [] w ->
  block_result ver_build (fields_of cf ver_build r) (write_block cf ver_build len status st r w).
Proof.
  intros [Hvb Hst Hstatus [Htime Htime29] Htype Hlength Hloc Hheaders] Hbyte Htmp Hfits Hlen Hw.
  unfold fixed_len, location_size, vary_size in *. unfold write_block.
  destruct (update_written st 0 [] w Hw) as (w0 & -> & Hw0); [lia|]. cbn [mbind option_bind].
  clear Hw. rename Hw0 into Hw. assert (server_len cf ver_build (updated st) = server_len cf ver_build st) as Hsl by done.
  write_step Hw (status_adds status r Hstatus Hbyte).
  edestruct (server_adds cf ver_build (updated st) r Hvb) as (st' & w1 & -> & Hst' & Hup & Hw1); [exact Hst|cbn zeta; rewrite Hsl; lia|exact Hw|cbn zeta; rewrite Hsl; lia|].
  cbn [mbind option_bind]. clear Hw. rename Hw1 into Hw. cbn zeta in Hw. rewrite Hsl in Hw.
  write_step Hw (date_adds cf r ltac:(lia) Htime Htime29).
  write_step Hw (type_adds r ltac:(lia) Htype).
  write_step Hw (length_adds r Hlength).
  write_step Hw (modified_adds r ltac:(lia)).
  write_step Hw (location_adds r ltac:(lia) Hloc).
  write_step Hw (vary_adds r).
  write_step Hw (headers_adds _ Hheaders Hfits).
  destruct (wr_reads _ _ _ Hw) as [t Ht]. eexists st', _, t. split_and!; [done|done|done|].
  unfold fields_of. by rewrite <- !app_assoc in Ht.
Qed.
End Steps.

(** ** The preparation *)

Lemma status_case_ok r : let '(status, r') := status_case r in
  status_byte_ok status r' /\ o_status r' = o_status r /\ o_location r' = o_location r
  /\ o_headers r' = o_headers r /\ o_host r' = o_host r
  /\ (full_type r' = full_type r \/ full_type r' = [] \/ full_type r' = bs "; charset=" ++ o_charset r)
  /\ (o_content_length_n r' = o_content_length_n r \/ o_content_length_n r' = -1).
Proof.
  unfold status_case.
  assert (forall i s, ngx_http_v2_static_table !! i = Some (bs ":status", text_of (bs "%03ui") s) ->
    forall r, o_status r = s -> status_byte_ok (ngx_http_v2_indexed (Z.of_nat (S i))) r) as Hi.
  { intros i s Hi r' <-. right. by exists i. }
  destruct (Z.eqb_spec (o_status r) 200) as [H|_]; [split_and!; auto; by apply (Hi 7%nat 200)|].
  destruct (Z.eqb_spec (o_status r) 204) as [H|_].
  { destruct r. cbn in *. split_and!; auto; [by apply (Hi 8%nat 204)|]. unfold full_type, with_charset. cbn.
    destruct (_ && _); auto. }
  destruct (Z.eqb_spec (o_status r) 206) as [H|_]; [split_and!; auto; by apply (Hi 9%nat 206)|].
  destruct (Z.eqb_spec (o_status r) 304) as [H|_]; [split_and!; auto; by apply (Hi 10%nat 304)|].
  destruct r. cbn in *. split_and!; auto.
  destruct (Z.eqb_spec o_status0 400) as [H|_]; [by apply (Hi 11%nat 400)|].
  destruct (Z.eqb_spec o_status0 404) as [H|_]; [by apply (Hi 12%nat 404)|].
  destruct (Z.eqb_spec o_status0 500) as [H|_]; [by apply (Hi 13%nat 500)|]. by left.
Qed.

(** ":" and a port. *)
Lemma port_text p : 0 <= p <= 65535 ->
  exists q, ngx_sprintf (bs ":%ui") [Int p] = Some (":"%ch :: q) /\ (length q <= 5)%nat /\ forallb is_digit q = true.
Proof.
  intros Hp. destruct (num_digits_short p 5 ltac:(lia) ltac:(lia)) as (q & Hq & Hd & Hl).
  exists q. split_and!; [|done..]. unfold ngx_sprintf, ngx_vslprintf. change (length (bs ":%ui")) with 4%nat.
  change (bs ":%ui") with [":"%ch; "%"%ch; "u"%ch; "i"%ch]. rewrite printf_char by done.
  assert (conversion None ["u"%ch; "i"%ch] [Int p] = Some (q, [], [])) as Hc.
  { unfold conversion, parse_spec. cbn -[put_int].
    match goal with |- context [put_int None ?s ?x] =>
      destruct (put_int_text None s x) as (out & Ho & ->); [right; rewrite ?u64_small; lia|done|] end.
    unfold int_text, padded in Ho. cbn -[num_digits] in Ho. rewrite u64_small, Hq in Ho by lia.
    cbn [mbind option_bind app] in Ho. replace (Z.to_nat (0 - Z.of_nat (length q))) with 0%nat in Ho by lia.
    by injection Ho as <-. }
  rewrite (printf_conversion _ _ _ _ _ _ Hc), printf_end. cbn. by rewrite app_nil_r.
Qed.

Section Location.
Variable cf : filter_conf.

(** The names that a location may begin with, with what room they leave for [value]. *)
Definition names_ok (r : response) (value : list Z) : Prop :=
  Forall (fun name => bytes_ok name /\ Z.of_nat (14 + length name + length value) <= NGX_HTTP_V2_MAX_FIELD)
    [f_server_name cf; o_host r; default [] (k_local_addr cf)].

(** The buffer of the location is long enough. *)
Lemma location_url_ok name value port :
  0 <= port <= 65535 -> bytes_ok value -> bytes_ok name ->
  Z.of_nat (14 + length name + length value) <= NGX_HTTP_V2_MAX_FIELD ->
  exists v, location_url cf name value port = Some v /\ text_ok v /\ v <> [].
Proof.
  intros Hport Hvalue Hname Hmax. unfold location_url. change (length (bs "https://")) with 8%nat.
  change (length (bs ":65535")) with 6%nat.
  assert (exists p, (if negb (port =? 0) then ngx_sprintf (bs ":%ui") [Int port] else Some []) = Some p
    /\ (length p <= if negb (port =? 0)%Z then 6 else 0)%nat /\ bytes_ok p) as (p & -> & Hl & Hp).
  { destruct (Z.eqb_spec port 0); cbn [negb]; [by exists []|].
    destruct (port_text port Hport) as (q & -> & Hl & Hd). exists (":"%ch :: q).
    split_and!; [done|cbn [length]; lia|]. constructor; [done|]. apply list.Forall_forall. intros c Hc%list_elem_of_In.
    rewrite forallb_forall in Hd. specialize (Hd c Hc). unfold is_digit in Hd. unfold is_u8. lia. }
  cbn [mbind option_bind]. set (out := bs "http" ++ _).
  assert (length out <= 8 + length name + length value + length p)%nat as Hlen.
  { unfold out. rewrite !length_app. change (length (bs "http")) with 4%nat. change (length (bs "://")) with 3%nat.
    assert (length (if k_ssl cf then bs "s" else []) <= 1)%nat by (by destruct (k_ssl cf); apply Nat.leb_le). lia. }
  rewrite (proj2 (Nat.ltb_ge _ _)) by lia. exists out. split_and!; [done| |done].
  split; [|destruct (negb _); lia]. unfold out. rewrite !Forall_app.
  split_and!; try done; [by repeat constructor| |by repeat constructor]. by destruct (k_ssl cf); repeat constructor.
Qed.

Lemma absolute_location_ok r value :
  0 <= k_port cf <= 65535 -> bytes_ok value -> names_ok r value ->
  exists v, absolute_location cf (o_host r) value = Some v
    /\ match v with
       | None => f_server_name_in_redirect cf = false /\ o_host r = [] /\ k_local_addr cf = None
       | Some v => text_ok v /\ v <> []
       end.
Proof.
  intros Hport Hvalue [[Hb1 Hn1] [[Hb2 Hn2] [[Hb3 Hn3] _]%list.Forall_cons]%list.Forall_cons]%list.Forall_cons.
  assert (0 <= location_port cf <= 65535) as Hp by (unfold location_port; repeat case_match; lia).
  unfold absolute_location.
  destruct (f_server_name_in_redirect cf).
  { destruct (location_url_ok _ value _ Hp Hvalue Hb1 Hn1) as (v & -> & Hv). by exists (Some v). }
  destruct (Nat.ltb_spec 0 (length (o_host r))).
  { destruct (location_url_ok _ value _ Hp Hvalue Hb2 Hn2) as (v & -> & Hv). by exists (Some v). }
  assert (o_host r = []) as -> by (apply nil_length_inv; lia).
  destruct (k_local_addr cf) as [a|]; [|by exists None].
  destruct (location_url_ok a value _ Hp Hvalue Hb3 Hn3) as (v & -> & Hv). by exists (Some v).
Qed.

(** The header that [o_location] names, with room for it as a URL. *)
Definition location_ok (r : response) : Prop :=
  forall i, o_location r = Some i -> exists h, o_headers r !! i = Some h /\ names_ok r (oh_value h).

Lemma location_case_ok r :
  0 <= k_port cf <= 65535 -> Forall header_ok (o_headers r) -> location_ok r ->
  exists x, location_case cf r = Some x
    /\ match x with
       | None => f_server_name_in_redirect cf = false /\ o_host r = [] /\ k_local_addr cf = None
       | Some (r', n) => n = location_size r' /\ text_ok (location_value r') /\ Forall header_ok (o_headers r')
           /\ r' = r <| o_headers := o_headers r' |>
       end.
Proof.
  intros Hport Hheaders Hloc. unfold location_case.
  assert (text_ok []) as Hnil by (split; [constructor|done]).
  assert (r = r <| o_headers := o_headers r |>) as Hr by (by destruct r).
  unfold location_size. destruct (o_location r) as [i|] eqn:Hi.
  2: { exists (Some (r, 0%nat)). unfold location_value. by rewrite Hi. }
  destruct (Hloc i Hi) as (h & Hh & Hnames). rewrite Hh. cbn [mbind option_bind].
  pose proof (proj1 (list.Forall_lookup _ _) Hheaders i h Hh) as [Hk Hv].
  destruct (Nat.eqb_spec (length (oh_value h)) 0) as [He|He].
  { exists (Some (r, 0%nat)). unfold location_value. rewrite Hi, Hh, He. split_and!; try done.
    by rewrite (nil_length_inv _ He). }
  assert (exists h', sent_location cf r h = Some h' /\ match h' with
    | None => f_server_name_in_redirect cf = false /\ o_host r = [] /\ k_local_addr cf = None
    | Some h' => text_ok (oh_value h') /\ oh_value h' <> [] /\ bytes_ok (oh_key h') end) as (h' & -> & Hh').
  { unfold sent_location. destruct (_ && _).
    - destruct (absolute_location_ok r (oh_value h) Hport Hv Hnames) as ([v|] & -> & Hx).
      + eexists (Some _). split; [done|]. cbn. destruct Hx. split_and!; [done..|]. by repeat constructor.
      + by exists None.
    - exists (Some h). split; [done|]. split_and!; [split; [done|]|by intros E; rewrite E in He|done].
      apply list.Forall_cons in Hnames as [[_ Hx] _]. lia. }
  cbn [mbind option_bind]. destruct h' as [h'|]; [|by exists None]. destruct Hh' as (Ht & Hne & Hk').
  eexists (Some (_, _)). split; [done|]. pose proof (lookup_lt_Some _ _ _ Hh) as Hlt.
  assert (location_value (r <| o_headers := <[i:={| oh_shown := false; oh_key := oh_key h'; oh_value := oh_value h' |}]> (o_headers r) |>)
    = oh_value h') as ->.
  { unfold location_value. destruct r. cbn in *. rewrite Hi, list_lookup_insert_eq; done. }
  split_and!; [|done| |by destruct r].
  - destruct (Nat.ltb_spec 0 (length (oh_value h'))); [done|]. destruct (oh_value h'); [done|cbn in *; lia].
  - destruct r. cbn in *. apply Forall_insert; [done|]. split; [done|apply Ht].
Qed.
End Location.

(** ** The header of a response *)

(** What the filter relies on: the strings are bytes that fit in a header field; of the
    directives and of the cached time, what their parsers and [ngx_time_update] ensure. *)
Record response_ok cf ver_build st (r : response) : Prop := {
  ok_build : text_ok ver_build;
  ok_statics : statics_ok ver_build st;
  ok_status : 0 <= o_status r <= 999;
  ok_time : bytes_ok (k_http_time cf) /\ length (k_http_time cf) = 29%nat;
  ok_type : text_ok (o_content_type r ++ bs "; charset=" ++ o_charset r);
  ok_length : o_content_length_n r < 2 ^ 63;
  ok_port : 0 <= k_port cf <= 65535;
  ok_location : location_ok cf r;
  ok_headers : Forall header_ok (o_headers r);
}.

(** The response with what its status, its method and the directives change. *)
Definition started (r : response) : response :=
  let r := r <| o_header_sent := true |> in
  if o_head r then r <| o_header_only := true |> else r.
Definition answered (cf : filter_conf) (r : response) : option response :=
  match location_case cf (status_case (started r)).2 with
  | Some (Some (r, _)) => Some (r <| o_gzip_vary := o_gzip_vary r && f_gzip_vary cf |>)
  | _ => None
  end.

Definition too_long (h : out_header) : Prop :=
  oh_shown h = true /\ (NGX_HTTP_V2_MAX_FIELD < Z.of_nat (length (oh_key h))
                        \/ NGX_HTTP_V2_MAX_FIELD < Z.of_nat (length (oh_value h))).

Lemma text_ok_app a b : text_ok (a ++ b) -> text_ok a /\ text_ok b.
Proof.
  intros [[Ha Hb]%Forall_app Hl]. rewrite length_app in Hl. split; (split; [done|lia]).
Qed.

Lemma headers_len_none hs : forall l t, headers_len hs l t = None -> Exists too_long hs.
Proof.
  induction hs as [|h hs IH]; intros l t H; cbn [headers_len] in H; [done|].
  destruct (oh_shown h) eqn:Hs; cbn [negb] in H; [|by right; eapply IH].
  destruct (Z.gtb_spec (Z.of_nat (length (oh_key h))) NGX_HTTP_V2_MAX_FIELD); [left; split; auto|].
  destruct (Z.gtb_spec (Z.of_nat (length (oh_value h))) NGX_HTTP_V2_MAX_FIELD); [left; split; auto|].
  right. by eapply IH.
Qed.

(** The request with the flags set is as good as the one given. *)
Lemma prepared cf ver_build st r :
  response_ok cf ver_build st r ->
  let '(status, r1) := status_case (started r) in
  exists x, location_case cf r1 = Some x
    /\ match x with
       | None => f_server_name_in_redirect cf = false /\ o_host r = [] /\ k_local_addr cf = None
       | Some (r2, n) => n = location_size r2 /\ r2 = r1 <| o_headers := o_headers r2 |>
           /\ forall g, let r3 := r2 <| o_gzip_vary := g |> in
              response_texts cf ver_build st r3 /\ status_byte_ok status r3
              /\ fixed_len cf ver_build status st r3 = fixed_len cf ver_build status st r1
              /\ location_size r3 = location_size r2
       end.
Proof.
  intros [Hb Hst Hs Htime Htype Hlen Hport Hloc Hh]. set (r0 := started r).
  assert (o_status r0 = o_status r /\ o_content_type r0 = o_content_type r /\ o_charset r0 = o_charset r
    /\ o_content_length_n r0 = o_content_length_n r /\ o_location r0 = o_location r /\ o_headers r0 = o_headers r
    /\ o_host r0 = o_host r) as (E1 & E2 & E3 & E4 & E5 & E6 & E7).
  { unfold r0, started. destruct r. cbn. by destruct o_head0. }
  clearbody r0. pose proof (status_case_ok r0) as Hcase. destruct (status_case r0) as [status r1].
  destruct Hcase as (Hbyte & F1 & F2 & F3 & F4 & F5 & F6).
  destruct (location_case_ok cf r1 Hport) as (x & Hx & Hx').
  { by rewrite F3, E6. }
  { intros i Hi. rewrite F2, E5 in Hi. destruct (Hloc i Hi) as (h & Hh' & Hn). exists h.
    unfold names_ok. by rewrite F3, E6, F4, E7. }
  exists x. split; [done|]. destruct x as [[r2 n]|]; [|by rewrite F4, E7 in Hx'].
  destruct Hx' as (-> & Ht & Hok & Hr2). split; [done|]. split; [done|]. intros g.
  assert (text_ok (full_type r1)) as Htype1.
  { destruct (text_ok_app _ _ Htype) as [T1 T2]. rewrite <- E2, <- E3 in *.
    destruct F5 as [-> |[-> | ->]]; [|by split; [constructor|]|done].
    unfold full_type. by destruct (with_charset r0). }
  assert (0 <= o_status r1 <= 999 /\ o_content_length_n r1 < 2 ^ 63) as [Hs1 Hl1] by (rewrite F1, E1; destruct F6; lia).
  clear F1 F2 F3 F4 F5 F6 E1 E2 E3 E4 E5 E6 E7 Hx Hloc Hh Htype Hlen Hs r0 r.
  revert Hbyte Hs1 Hl1 Htype1 Ht Hok. rewrite Hr2. generalize (o_headers r2). intros hs. clear Hr2 r2.
  destruct r1. intros. cbn in *. by split_and!.
Qed.

Lemma status_case_sent r : o_header_sent (status_case r).2 = o_header_sent r.
Proof. unfold status_case. destruct r. by repeat case_match. Qed.

(** The block as it is sent, when the lengths of the headers are known. *)
Lemma block_sent cf ver_build status st r len0 tmp0 len tmp_len :
  response_texts cf ver_build st r -> status_byte_ok status r ->
  headers_len (o_headers r) len0 tmp0 = Some (len, tmp_len) ->
  (fixed_len cf ver_build status st r + location_size r <= tmp0)%nat ->
  (fixed_len cf ver_build status st r + location_size r + vary_size r <= len0)%nat ->
  exists st' w, write_block cf ver_build len status st r {| w_out := []; w_tmp := repeat 0 tmp_len |} = Some (st', w)
    /\ statics_ok ver_build st' /\ s_table_update st' = false /\ ~ Exists too_long (o_headers r)
    /\ forall t, exists t', client_block (length (w_out w)) t (w_out w) = Some (fields_of cf ver_build r, t').
Proof.
  intros Htexts Hbyte Hh Htmp Hlen.
  destruct (headers_len_some tmp_len _ _ _ _ _ Hh) as (-> & Ht & Hfits). specialize (Hfits (le_n _)).
  set (len := (len0 + _)%nat).
  assert (forall t0, block_result t0 ver_build (fields_of cf ver_build r)
    (write_block cf ver_build len status st r {| w_out := []; w_tmp := repeat 0 tmp_len |})) as Hall.
  { intros t0. apply (block_written len tmp_len t0); try done; [lia|unfold len; lia|].
    constructor; cbn [w_out w_tmp]; [done|apply repeat_length|]. exists t0. constructor. }
  destruct (Hall empty_table) as (st' & w & _ & Hw & Hst' & Hup & _). exists st', w. split_and!; try done.
  - intros (h & Hin & Hs & Hl)%list.Exists_exists. rewrite list.Forall_forall in Hfits.
    destruct (Hfits h Hin Hs) as (_ & _ & ? & ?). lia.
  - intros t. destruct (Hall t) as (? & ? & t' & Hw' & _ & _ & Hr).
    rewrite Hw in Hw'. injection Hw' as <- <-. exists t'. by apply client_reads_block.
Qed.

(** C4: Compression of the header of a response.  [ngx_http_v2_header_filter] returns without sending anything when the header has been sent or is of a subrequest, and with an error when the connection has failed, the resources cannot be pushed, a location needs the local address and there is none, or a header is longer than what HTTP/2 can carry.  Otherwise the header block fits in the buffer whose length was computed before; by the rules of header compression it decodes, for a client with any table of the connection, to the status, the server, the date, the other fields of the response and its headers with their names in lower case, in this order, with the location as it was made absolute; the static variables hold the encoded versions of nginx, the size update of the table is not sent again, and END_STREAM is set if there is no body. *)
Theorem ngx_http_v2_header_filter_decodes cf ver_build st r (Hok : response_ok cf ver_build st r) :
  exists out, ngx_http_v2_header_filter cf ver_build st r = Some out
  /\ match out with
     | Returned rc r' =>
         o_header_sent r' = true /\
         (rc = NGX_OK /\ (o_header_sent r = true \/ o_is_main r = false)
         \/ rc = NGX_ERROR /\ o_header_sent r = false
            /\ (o_error r = true \/ k_push cf <> NGX_OK
                \/ (f_server_name_in_redirect cf = false /\ o_host r = [] /\ k_local_addr cf = None)
                \/ exists r', answered cf r = Some r' /\ Exists too_long (o_headers r')))
     | Sent block fin r' st' =>
         o_header_sent r = false /\ o_header_sent r' = true
         /\ statics_ok ver_build st' /\ s_table_update st' = false
         /\ exists r1, answered cf r = Some r1 /\ ~ Exists too_long (o_headers r1)
            /\ fin = o_header_only r1 || ((o_content_length_n r1 =? 0) && negb (o_expect_trailers r1))
            /\ forall t, exists t', client_block (length block) t block = Some (fields_of cf ver_build r1, t')
     end.
Proof.
  unfold ngx_http_v2_header_filter. destruct (o_header_sent r) eqn:Hsent.
  { eexists. split; [done|]. split; [done|]. left. by auto. }
  cbv zeta. set (r0 := r <| o_header_sent := true |>).
  assert (o_header_sent r0 = true /\ o_is_main r0 = o_is_main r /\ o_error r0 = o_error r) as (Hs0 & -> & ->)
    by (by destruct r).
  destruct (o_is_main r) eqn:Hmain; cbn [negb].
  2: { eexists. split; [done|]. split; [done|]. left. by auto. }
  destruct (o_error r) eqn:Herr.
  { eexists. split; [done|]. split; [done|]. right. split_and!; [done|done|by auto 6]. }
  pose proof (prepared cf ver_build st r Hok) as Hprep. unfold answered.
  change (if o_head r0 then r0 <| o_header_only := true |> else r0) with (started r).
  pose proof (status_case_sent (started r)) as Hs1.
  assert (o_header_sent (started r) = true) as E by (by destruct r as [? ? ? []]). rewrite E in Hs1.
  destruct (status_case (started r)) as [status r1] eqn:Hcase. cbn [snd] in Hs1.
  destruct (Z.eqb_spec (k_push cf) NGX_OK) as [Hpush|Hpush]; cbn [negb].
  2: { eexists. split; [done|]. split; [done|]. right. split_and!; [done|done|by auto 6]. }
  destruct Hprep as (x & Hx & Hprep). cbn [snd]. rewrite Hx. cbn [mbind option_bind].
  destruct x as [[r2 n]|].
  2: { eexists. split; [done|]. split; [done|]. right. split_and!; [done|done|by auto 6]. }
  destruct Hprep as (-> & Hr2 & Hprep). specialize (Hprep (o_gzip_vary r2 && f_gzip_vary cf)).
  set (r3 := r2 <| o_gzip_vary := _ |>) in *. destruct Hprep as (Htexts & Hbyte & Hlen & Hloc).
  assert (o_header_sent r3 = true) as Hsent3 by (unfold r3; rewrite Hr2; by destruct r1).
  assert (fixed_len cf ver_build status st r1 = fixed_len cf ver_build status st r3) as -> by done.
  clearbody r3. clear Hr2 Hx Hcase.
  destruct (headers_len (o_headers r3) _ _) as [[len tmp_len]|] eqn:Hh.
  2: { apply headers_len_none in Hh. eexists. split; [done|]. split; [done|]. right.
       split_and!; [done..|]. do 3 right. by exists r3. }
  destruct (block_sent cf ver_build status st r3 _ _ _ _ Htexts Hbyte Hh) as (st' & w & Hw & Hst' & Hup & Hnot & Hr).
  { rewrite Hloc. done. }
  { unfold vary_size. rewrite Hloc. destruct (o_gzip_vary r3); lia. }
  rewrite Hw. cbn [mbind option_bind].
  eexists. split; [done|]. cbv beta iota. split_and!; [done| |done|done|by exists r3].
  destruct (0 <? _)%nat; [|done]. by destruct r3.
Qed.

Example example_sent :
  match ngx_http_v2_header_filter example_filter NGINX_VER example_statics example_response with
  | Some (Sent _ _ _ _) => true | _ => false end = true.
Proof. vm_compute. reflexivity. Qed.

Lemma example_response_ok :
  response_ok example_filter NGINX_VER example_statics example_response.
Proof.
  assert (forall s, forallb (fun c => (0 <=? c) && (c <? 256)) s = true -> bytes_ok s) as Hb.
  { intros s Hs. apply list.Forall_forall. intros c Hc%list_elem_of_In. rewrite forallb_forall in Hs.
    specialize (Hs c Hc). unfold is_u8. lia. }
  assert (forall s, forallb (fun c => (0 <=? c) && (c <? 256)) s = true ->
    Z.of_nat (length s) <=? NGX_HTTP_V2_MAX_FIELD = true -> text_ok s) as Ht.
  { intros s Hs Hl. split; [by apply Hb|by apply Z.leb_le]. }
  constructor; try done.
  - by apply Ht.
  - split; by left.
  - split; [by apply Hb|done].
  - by apply Ht.
  - intros i Hi. injection Hi as <-. eexists. split; [reflexivity|].
    unfold names_ok. rewrite !list.Forall_cons. split_and!; first [by apply Hb|by apply Z.leb_le|by constructor].
  - change (o_headers example_response) with [{| oh_shown := true; oh_key := bs "X-Test"; oh_value := bs "1" |};
      {| oh_shown := true; oh_key := []; oh_value := bs "/b" |}].
    rewrite !list.Forall_cons. split_and!; first [split; by apply Hb|by constructor].
Qed.

Lemma example_fields :
  fields_of example_filter NGINX_VER <$> answered example_filter example_response
  = Some [(bs ":status", bs "301"); (bs "server", bs "nginx/1.23.3");
           (bs "date", bs "Sun, 06 Nov 1994 08:49:37 GMT");
           (bs "content-type", bs "text/html; charset=utf-8"); (bs "content-length", bs "162");
           (bs "location", bs "https://a.example:8443/b"); (bs "vary", bs "Accept-Encoding");
           (bs "x-test", bs "1")].
Proof. vm_compute. reflexivity. Qed.

(** The redirection, to a client with any table. *)
Lemma ngx_http_v2_header_filter_decodes_witness :
  response_ok example_filter NGINX_VER example_statics example_response
  /\ exists block fin r st,
    ngx_http_v2_header_filter example_filter NGINX_VER example_statics example_response
    = Some (Sent block fin r st)
    /\ forall t, fst <$> client_block (length block) t block
         = Some [(bs ":status", bs "301"); (bs "server", bs "nginx/1.23.3");
                 (bs "date", bs "Sun, 06 Nov 1994 08:49:37 GMT");
                 (bs "content-type", bs "text/html; charset=utf-8"); (bs "content-length", bs "162");
                 (bs "location", bs "https://a.example:8443/b"); (bs "vary", bs "Accept-Encoding");
                 (bs "x-test", bs "1")].
Proof.
  split; [exact example_response_ok|]. pose proof example_sent as Hsent. pose proof example_fields as Hf.
  destruct (ngx_http_v2_header_filter_decodes _ _ _ _ example_response_ok) as (out & Hout & Hm).
  rewrite Hout in Hsent. destruct out as [rc r|block fin r st]; [discriminate Hsent|].
  exists block, fin, r, st. split; [exact Hout|].
  destruct Hm as (_ & _ & _ & _ & r1 & Ha & _ & _ & Hc). rewrite Ha in Hf.
  intros t. destruct (Hc t) as [t' Ht]. rewrite Ht. exact Hf.
Defined.

(** ** The frames *)

Lemma parse_write_uint32 s before after :
  0 <= s < 2 ^ 32 ->
  ngx_http_v2_parse_uint32 (before ++ ngx_http_v2_write_uint32 s ++ after) (length before) = Some s.
Proof.
  intros Hs. set (w := ngx_http_v2_write_uint32 s).
  assert (forall k, (before ++ w ++ after) !! (length before + k)%nat = (w ++ after) !! k) as Hk.
  { intros k. rewrite lookup_app_r by lia. f_equal. lia. }
  pose proof (Hk 0%nat) as H0. rewrite Nat.add_0_r in H0. unfold ngx_http_v2_parse_uint32.
  rewrite H0, !Hk. unfold w, ngx_http_v2_write_uint32. cbn [app lookup list_lookup mbind option_bind]. f_equal.
  rewrite !Z.shiftr_div_pow2 by lia.
  assert (s = (s / 2 ^ 24) * 2 ^ 24 + u8 (s / 2 ^ 16) * 2 ^ 16 + u8 (s / 2 ^ 8) * 2 ^ 8 + u8 s) as Hsum
    by (unfold u8; clear; lia_mod).
  rewrite (u8_small (s / 2 ^ 24)) by lia_mod.
  pose proof (u8_range (s / 2 ^ 16)). pose proof (u8_range (s / 2 ^ 8)). pose proof (u8_range s).
  rewrite <- !Z.lor_assoc, (lor_shiftl_add (u8 (s / 2 ^ 8))) by lia.
  rewrite (lor_shiftl_add (u8 (s / 2 ^ 16))) by lia. rewrite lor_shiftl_add by lia. lia.
Qed.

(** The head of a frame is read as it is written. *)
Lemma frame_head_read size type flags sid :
  Z.of_nat size < 2 ^ 24 -> 0 <= type < 256 -> 0 <= sid < 2 ^ 31 ->
  let hd := frame_head size type flags sid in
  length hd = NGX_HTTP_V2_FRAME_HEADER_SIZE
  /\ (exists x, ngx_http_v2_parse_uint32 hd 0 = Some x /\ ngx_http_v2_parse_type x = type
        /\ Z.to_nat (ngx_http_v2_parse_length x) = size)
  /\ hd !! 4%nat = Some flags /\ ngx_http_v2_parse_sid hd 5 = Some sid.
Proof.
  intros Hsize Htype Hsid hd. split; [done|].
  assert (0 <= Z.of_nat size * 2 ^ 8 + type < 2 ^ 32) as Hx by lia.
  split; [|split; [done|]].
  - exists (Z.of_nat size * 2 ^ 8 + type). split.
    + unfold hd, frame_head, ngx_http_v2_write_len_and_type. rewrite lor_shiftl_add, u32_small by lia.
      exact (parse_write_uint32 _ [] _ Hx).
    + unfold ngx_http_v2_parse_type, ngx_http_v2_parse_length. change 0xff with (Z.ones 8).
      rewrite Z.land_ones, Z.shiftr_div_pow2 by done. split; lia_mod.
  - unfold ngx_http_v2_parse_sid. pose proof (parse_write_uint32 sid (take 5 hd) [] ltac:(lia)) as Hp.
    change (take 5 hd ++ ngx_http_v2_write_uint32 sid ++ []) with hd in Hp. change (length (take 5 hd)) with 5%nat in Hp.
    rewrite Hp. cbn [mbind option_bind]. change 0x7fffffff with (Z.ones 31).
    rewrite Z.land_ones by done. f_equal. lia_mod.
Qed.

(** What [headers_frames] gives: a frame with the flags [f] of which [len] bytes of the
    block are part, and what comes after its head. *)
Lemma headers_frames_framed fuel : forall fs type flags sid rest after acc,
  (0 < fs)%nat -> Z.of_nat fs < 2 ^ 24 -> 0 <= type < 256 -> 0 <= sid < 2 ^ 31 ->
  flags = 0 \/ flags = 1 -> acc = 0 \/ acc = 1 -> rest <> [] -> (length rest < fuel)%nat ->
  let f := if (length rest <=? fs)%nat then Z.lor flags NGX_HTTP_V2_END_HEADERS_FLAG else flags in
  let len := Nat.min fs (length rest) in
  exists input, headers_frames fuel fs type flags sid rest = Some (frame_head len type f sid ++ input)
    /\ framed sid after (u8 (Z.lor acc f)) len 0 (input ++ after) rest
    /\ (9 + length input = length rest + 9 * ((length rest + fs - 1) / fs))%nat.
Proof.
  induction fuel as [|fuel IH]; intros fs type flags sid rest after acc Hfs Hmax Htype Hsid Hflags Hacc Hne Hfuel; [lia|].
  cbn [headers_frames]. destruct (Nat.leb_spec (length rest) fs) as [Hlast|Hmore]; cbv zeta.
  - rewrite Nat.min_r by done. rewrite take_ge, drop_ge by lia. cbn [length Nat.eqb].
    exists rest. split_and!; [done| |].
    + apply (framed_last sid after _ rest []). by destruct Hflags as [-> | ->], Hacc as [-> | ->].
    + destruct rest; [done|]. cbn [length] in *.
      replace ((S (length rest) + fs - 1) / fs)%nat with 1%nat; [lia|].
      apply (Nat.div_unique _ _ _ (length rest)); lia.
  - rewrite Nat.min_l by lia.
    assert (length (drop fs rest) = length rest - fs)%nat as Hd by apply length_drop.
    assert (drop fs rest <> []) as Hdne by (intros E; rewrite E in Hd; cbn in Hd; lia).
    rewrite (proj2 (Nat.eqb_neq _ _)) by lia.
    assert (u8 (Z.lor acc flags) = 0 \/ u8 (Z.lor acc flags) = 1) as Hacc'
      by (destruct Hflags as [-> | ->], Hacc as [-> | ->]; auto).
    destruct (IH fs NGX_HTTP_V2_CONTINUATION_FRAME NGX_HTTP_V2_NO_FLAG sid (drop fs rest) after (u8 (Z.lor acc flags)))
      as (input & -> & Hin & Hlen); [done|done|done|done|by left|done|done|lia|].
    cbn [mbind option_bind]. set (hd := frame_head (Nat.min _ _) _ _ _) in *.
    eexists. rewrite <- app_assoc. split_and!; [done| |].
    + assert (length (take fs rest) = fs) as Ht by (rewrite length_take; lia). rewrite <- !app_assoc.
      destruct (frame_head_read (Nat.min fs (length (drop fs rest))) NGX_HTTP_V2_CONTINUATION_FRAME
        (if (length (drop fs rest) <=? fs)%nat then Z.lor NGX_HTTP_V2_NO_FLAG NGX_HTTP_V2_END_HEADERS_FLAG
         else NGX_HTTP_V2_NO_FLAG) sid) as (R1 & R2 & R3 & R4); [lia|done|done|].
      pose proof (framed_cont sid after (u8 (Z.lor acc flags)) (take fs rest) [] hd _ (Nat.min fs (length (drop fs rest))) (input ++ after) (drop fs rest)
        ltac:(by destruct Hacc' as [-> | ->]) ltac:(constructor; eassumption) ltac:(lia) Hin) as Hc.
      by rewrite Ht, take_drop in Hc.
    + rewrite !length_app, length_take, Nat.min_l by lia. change (length hd) with 9%nat.
      rewrite Hd in Hlen.
      replace (length rest + fs - 1)%nat with ((length rest - fs + fs - 1) + 1 * fs)%nat by lia.
      rewrite Nat.div_add by lia. lia.
Qed.

(** C21: Framing of a header block.  [ngx_http_v2_create_headers_frame] cuts a header block, for any frame size of the protocol, into a HEADERS frame, with END_STREAM as asked, and CONTINUATION frames of the same stream, as many as needed and none empty, of which only the last has END_HEADERS: that is, into what the states of the parser of header blocks accept as this block, whatever follows it on the connection. *)
Theorem ngx_http_v2_create_headers_frame_framed (frame_size : nat) (sid : Z) (block : list Z) (fin : bool)
    (Hsize : (0 < frame_size)%nat /\ Z.of_nat frame_size < 2 ^ 24) (Hsid : 0 <= sid < 2 ^ 31) (Hne : block <> []) :
  exists hd input flags len,
    ngx_http_v2_create_headers_frame frame_size sid block fin = Some (hd ++ input)
    /\ length hd = NGX_HTTP_V2_FRAME_HEADER_SIZE
    /\ (exists x, ngx_http_v2_parse_uint32 hd 0 = Some x /\ ngx_http_v2_parse_type x = NGX_HTTP_V2_HEADERS_FRAME
          /\ Z.to_nat (ngx_http_v2_parse_length x) = len)
    /\ hd !! 4%nat = Some flags /\ ngx_http_v2_parse_sid hd 5 = Some sid
    /\ Z.land flags NGX_HTTP_V2_END_STREAM_FLAG = Z.b2z fin
    /\ len = Nat.min frame_size (length block)
    /\ length (hd ++ input) = (length block + 9 * ((length block + frame_size - 1) / frame_size))%nat
    /\ forall after, framed sid after flags len 0 (input ++ after) block.
Proof.
  destruct Hsize as [Hpos Hmax]. unfold ngx_http_v2_create_headers_frame.
  set (flags := if fin then _ else _). assert (flags = 0 \/ flags = 1) as Hflags by (destruct fin; auto).
  set (f := if (length block <=? frame_size)%nat then Z.lor flags NGX_HTTP_V2_END_HEADERS_FLAG else flags).
  assert (forall after, exists input,
    headers_frames (S (length block)) frame_size NGX_HTTP_V2_HEADERS_FRAME flags sid block
    = Some (frame_head (Nat.min frame_size (length block)) NGX_HTTP_V2_HEADERS_FRAME f sid ++ input)
    /\ framed sid after f (Nat.min frame_size (length block)) 0 (input ++ after) block
    /\ (9 + length input = length block + 9 * ((length block + frame_size - 1) / frame_size))%nat) as Hall.
  { intros after. destruct (headers_frames_framed (S (length block)) frame_size NGX_HTTP_V2_HEADERS_FRAME flags sid
      block after 0) as (input & H1 & H2 & H3); [done|done|done|done|done|by left|done|lia|].
    exists input. split_and!; [done| |done]. replace f with (u8 (Z.lor 0 f)) by (unfold f; repeat case_match; by destruct fin).
    exact H2. }
  destruct (Hall []) as (input & Heq & _ & Hlen).
  destruct (frame_head_read (Nat.min frame_size (length block)) NGX_HTTP_V2_HEADERS_FRAME f sid)
    as (R1 & R2 & R3 & R4); [lia|done|done|].
  eexists _, input, f, _. split_and!; [exact Heq|exact R1|exact R2|exact R3|exact R4| |done| |].
  - unfold f. destruct (_ <=? _)%nat; by destruct fin.
  - rewrite length_app, R1. exact Hlen.
  - intros after. destruct (Hall after) as (input' & Heq' & Hf & _). rewrite Heq in Heq'.
    injection Heq' as <-. exact Hf.
Qed.

(** Twelve bytes in frames of five. *)
Lemma ngx_http_v2_create_headers_frame_framed_witness :
  ngx_http_v2_create_headers_frame 5 3 (bs "abcdefghijkl") true
  = Some ([0; 0; 5; 1; 1; 0; 0; 0; 3] ++ bs "abcde" ++ [0; 0; 5; 9; 0; 0; 0; 0; 3] ++ bs "fghij"
          ++ [0; 0; 2; 9; 4; 0; 0; 0; 3] ++ bs "kl")
  /\ exists input, forall after, framed 3 after 1 5 0 (input ++ after) (bs "abcdefghijkl").
Proof.
  assert (ngx_http_v2_create_headers_frame 5 3 (bs "abcdefghijkl") true
  = Some ([0; 0; 5; 1; 1; 0; 0; 0; 3] ++ bs "abcde" ++ [0; 0; 5; 9; 0; 0; 0; 0; 3] ++ bs "fghij"
          ++ [0; 0; 2; 9; 4; 0; 0; 0; 3] ++ bs "kl")) as Heq by reflexivity.
  split; [exact Heq|].
  destruct (ngx_http_v2_create_headers_frame_framed 5 3 (bs "abcdefghijkl") true)
    as (hd & input & flags & len & H & Hl & _ & Hf & _ & _ & -> & _ & Hall); [split; lia|lia|done|].
  exists input. rewrite Heq in H. injection H as H.
  assert (flags = 1) as ->; [|exact Hall].
  do 9 (destruct hd as [|? hd]; [done|]). destruct hd; [|done]. cbn in Hf. injection Hf as <-. by injection H.
Defined.
